(* ===== verification/_CoqProject ===== *)
-Q . S2P
Prelude.v
LinkedList.v
ListOrder.v
Arithmetic.v
SortSearch.v
Hash.v
Bitmap.v
FsState.v
InodeIO.v
FreeMap.v
Inode.v
File.v
Directory.v
Filesys.v
FsFrame.v
Vaddr.v
Selectors.v
UserMem.v
Thread.v
Synch.v
Palloc.v
Malloc.v
Pagedir.v
CString.v
Paging.v
Stdio.v
Ustar.v
Partition.v
Ide.v
Vga.v
Clock.v
Random.v
ProcessArgs.v
Exception.v
Loader.v
Syscall.v
Descriptors.v
Boot.v
Timer.v
Intq.v
Serial.v
Execute.v
LoadFrame.v
StartProcess.v
Fsutil.v
Console.v
ThreadStart.v
