(* ===== verification/Prelude.v ===== *)
(** * Pintos, modelled and verified

    The repository is a version of Pintos, a teaching operating system for the
    80x86, with user programs, system calls and demand-zero paging added by its
    authors (src/pintos/src).  This library models its kernel and states what
    makes each part correct.

    ** The program and its parts

    User programs enter the kernel through interrupt 0x30; the system calls
    (userprog/syscall.c) copy their arguments from user memory, which may fault
    (userprog/exception.c, userprog/pagedir.c), and call the file system
    (filesys/).  The loader (userprog/process.c) fills a new page directory from
    an executable and lays out its arguments.  Below them are the scheduler and
    the synchronisation primitives (threads/thread.c, threads/synch.c), the page
    allocator (threads/palloc.c), the block allocator (threads/malloc.c), and a
    library of lists, bitmaps, hash tables, strings, formatted output, sorting
    and 64-bit arithmetic (lib/).  The drivers (devices/) turn interrupts into
    characters and time; threads/init.c reads the command line and starts it all.

    ** Files

    - Prelude: outcomes, the state monad, bounded loops, machine integers.
    - LinkedList, ListOrder: lib/kernel/list.c, on a heap of linked elements.
    - Arithmetic: lib/arithmetic.c.   - SortSearch: lib/stdlib.c.
    - Hash: lib/kernel/hash.c.        - Bitmap: lib/kernel/bitmap.c.
    - FsState: the state of the file system and devices/block.c.
    - InodeIO, Inode: filesys/inode.c (data; creation, opening, closing).
    - FreeMap: filesys/free-map.c and the file input and output of bitmaps.
    - File, Directory, Filesys: filesys/file.c, directory.c, filesys.c.
    - FsFrame: a frame property of all file system operations.
    - Vaddr: threads/vaddr.h and pte.h.   - UserMem: the interface between the
      system calls and user memory, a class of operations with its laws.
    - Selectors: the segment selectors of threads/loader.h and userprog/gdt.h.
    - Thread, Synch: threads/thread.c, interrupt.c, synch.c, with the steps of
      the machine as a relation.
    - ThreadStart: thread_init(), thread_start() and the rest of threads/thread.c.
    - Palloc: threads/palloc.c.   - Malloc: threads/malloc.c, on arenas of pages.
    - Pagedir: userprog/pagedir.c.   - CString: lib/string.c on bytes of memory.
    - Paging: paging_init() and bss_init() of threads/init.c.
    - Stdio: lib/stdio.c.   - Ustar: lib/ustar.c.   - Random: lib/random.c.
    - Partition: devices/block.c's registry of devices and devices/partition.c.
    - Ide: devices/ide.c, against an interface of ports with the promises of the
      ATA standard; a controller that runs shows that they can be kept.
    - Vga: devices/vga.c.   - Clock: devices/rtc.c and pit.c.
    - ProcessArgs: setup_stack_arguments() of userprog/process.c.
    - Exception: userprog/exception.c, get_user() and put_user(); it implements
      the interface of UserMem.
    - Loader: load() and its helpers, process_activate() and process_exit().
    - Syscall: userprog/syscall.c and process_wait(), proved against UserMem.
    - Descriptors: userprog/gdt.c and tss.c, the interrupt descriptor table, the
      interrupt controllers and the registration of handlers of
      threads/interrupt.c, exception_init().
    - Boot: the command line, options and actions of threads/init.c.
    - Timer: devices/timer.c.   - Intq: devices/intq.c.
    - Serial: devices/serial.c, kbd.c and input.c, the users of its queues.
    - Execute: process_execute() of userprog/process.c.
    - LoadFrame: what load() leaves alone in memory and in the page allocator.
    - StartProcess: start_process(), with the new process's memory as its bytes.
    - Fsutil: filesys/fsutil.c, on the file system and a scratch device.
    - Console: lib/kernel/console.c, over the steps of the machine of Synch.

    ** How code is modelled

    Every definition is executable and carries the name of the function it
    models.  A function returns an [outcome]: [Ok], [Panic] (a failed assertion,
    PANIC() or a trap in the kernel), [Wild] (memory that may not be touched), or
    [NoFuel].  State is passed explicitly, in a record per component; objects
    that the code shares by pointer live in stores indexed by the pointer.
    Integers are [Z] with the wrap-around of their C type written out.

    Kernel lists inside other components are sequences; LinkedList.v proves that
    list.c implements sequences.  Outside Malloc.v, malloc() returns fresh
    pointers and fails as the environment says, which is the specification that
    Malloc.v proves.  Console output is left out except where it is what the
    code is for (Stdio, Vga, Partition, the system calls).  A device is the
    sequence of values its ports deliver and the list of those written to them.

    ** Theorems

    - Data structures: the list operations implement a double-ended queue on a
      heap of pointers, list_sort() sorts stably and terminates; bitmap_scan()
      finds the first fit; a hash table is a set, through every rehash; heap sort
      and binary search terminate and are correct; the 64-bit division routines
      compute the quotient of the integers.
    - File system: what is written to an inode, a file or a descriptor is read
      back; two openers share one inode; closing a removed inode releases its
      sectors; directories refine finite maps from names to sectors; the free
      map allocates exactly the sectors it reports; a file that is appended to an
      archive on the scratch device is extracted with the same bytes.
    - Threads: at most one thread holds a lock, wherever interrupts fall; the
      ready queue is first-in first-out; a thread that sleeps wakes up once the
      timer has ticked often enough, whatever else the machine does; the texts
      that threads print do not mix.
    - Devices: the interrupt queues are first-in first-out under every
      interleaving of threads and interrupt handlers; key strokes become the
      characters of the key map; the partitions found lie within their disk and
      do not read or write outside it; the clock's registers become seconds; the
      disk driver reads and writes the sectors of the disk it was asked for.
    - Processor tables: a handler that the code registers gets the gate its class
      requires, and user programs can raise only the gates meant for them.
    - Start-up: the options of a command line are recovered from its text, and
      the actions run in their order.
    - Memory: the kernel's page directory maps all of physical memory, its text
      read-only; the allocator hands out pages that were free; malloc() and free()
      keep arenas whose blocks are disjoint; page directories
      refine partial maps from pages to frames; get_user() and put_user() read
      and write mapped user memory and nothing else; memmove(), strtok_r() and
      strlcpy() do what their specifications say.
    - Processes: the image of an executable in memory is the one its program
      headers describe, and no file makes the loader panic; the arguments of a
      process are laid out as main() expects; process_execute() gives back what
      it allocated on every error, and start_process() leaves in user memory the
      image and the arguments that the command line asked for; every system call keeps the table
      of file descriptors well-formed, and the table refines a finite map.

    Several theorems also pin down behaviour that is not what a comment says: the
    error path of get_user() is never taken, a buffer that wraps around the
    address space passes its check, a 64-bit remainder loses its high half, and
    others.

    ** Bounds and fuel

    Loops run under fuel that the theorems show to be enough: lists and arrays by
    their length, transfers by the number of bytes, the loader by the number of
    pages and headers, bit loops by the width.  Loops with no bound of their own
    have their fuel as a parameter: check_valid_string(), the polling of a device
    that must become ready (serial port, real-time clock), and the chain of
    extended partitions, which a disk can make endless.  The waits of the disk
    driver have the bounds the code gives them, 1000 and 3000 turns.  Sizes
    that the code keeps in 32 bits are bounded in the hypotheses where an
    overflow would matter.

    ** Not modelled

    The speaker and the power switch, statistics output, the user library and example programs, tests and host
    tools. *)

From Stdlib Require Export ZArith Lia.
From stdpp Require Export base decidable list gmap sorting.

(** ** Outcomes of kernel code

    A C function either returns, stops the kernel through a failed [ASSERT] or
    a [PANIC] ([Panic]), or follows a pointer it may not follow ([Wild]).
    [NoFuel] marks a loop of the model that was not given enough fuel; no C
    behaviour corresponds to it, and the theorems exclude it. *)
Inductive outcome (A : Type) : Type :=
| Ok (a : A)
| Panic
| Wild
| NoFuel.
Arguments Ok {A} _.
Arguments Panic {A}.
Arguments Wild {A}.
Arguments NoFuel {A}.

#[export] Instance outcome_ret : MRet outcome := @Ok.

#[export] Instance outcome_bind : MBind outcome := λ A B f m,
  match m with
  | Ok a => f a
  | Panic => Panic
  | Wild => Wild
  | NoFuel => NoFuel
  end.

#[export] Instance outcome_fmap : FMap outcome := λ A B f m, m ≫= λ a, Ok (f a).

(** [ASSERT (c)] of lib/debug.h in a kernel compiled without NDEBUG. *)
Definition ASSERT (c : bool) : outcome unit := if c then Ok tt else Panic.

(** Following a pointer: [None] is memory that is not there. *)
Definition deref {A} (o : option A) : outcome A :=
  match o with Some a => Ok a | None => Wild end.

Lemma bind_Ok {A B} (m : outcome A) (f : A → outcome B) b :
  m ≫= f = Ok b ↔ ∃ a, m = Ok a ∧ f a = Ok b.
Proof.
  destruct m; simpl; split; [by eauto|intros (? & [= <-] & ?); done|..];
    try done; intros (? & ? & ?); discriminate.
Qed.

Lemma bind_ret {A B} (a : A) (f : A → outcome B) : Ok a ≫= f = f a.
Proof. done. Qed.

Lemma bind_assoc_outcome {A B C} (m : outcome A) (f : A → outcome B) (g : B → outcome C) :
  (m ≫= f) ≫= g = (m ≫= λ a, f a ≫= g).
Proof. by destruct m. Qed.

Lemma ASSERT_true (c : bool) : c = true → ASSERT c = Ok tt.
Proof. by intros ->. Qed.

Lemma ASSERT_Ok (c : bool) u : ASSERT c = Ok u → c = true.
Proof. by destruct c. Qed.

(** ** Loops

    A C loop is a body that either continues with a new state or leaves with a
    result, iterated under a fuel. *)
Fixpoint loop {S R : Type} (fuel : nat) (body : S → outcome (S + R)) (s : S)
  : outcome R :=
  match fuel with
  | O => NoFuel
  | Datatypes.S n =>
      r ← body s;
      match r with inl s' => loop n body s' | inr x => Ok x end
  end.

(** Total correctness of a loop: an invariant indexed by a variant. *)
Lemma loop_total {S R} (I : nat → S → Prop) (Q : R → Prop)
    (body : S → outcome (S + R)) :
  (∀ n s, I n s → ∃ r, body s = Ok r ∧
     match r with inl s' => ∃ n', n' < n ∧ I n' s' | inr x => Q x end) →
  ∀ n fuel s, I n s → n < fuel → ∃ r, loop fuel body s = Ok r ∧ Q r.
Proof.
  intros Hbody n. induction (lt_wf n) as [n _ IH]; intros fuel s HI Hf.
  destruct fuel as [|fuel]; [lia|]. cbn [loop].
  destruct (Hbody n s HI) as ([s'|x] & -> & Hr); simpl; [|by eauto].
  destruct Hr as (n' & Hlt & HI'). apply (IH n'); auto; lia.
Qed.

(** More fuel never changes a result. *)
Lemma loop_fuel_mono {S R} (body : S → outcome (S + R)) s fuel fuel' x :
  loop fuel body s = Ok x → fuel ≤ fuel' → loop fuel' body s = Ok x.
Proof.
  revert s fuel'. induction fuel as [|fuel IH]; intros s fuel' H Hle; [done|].
  destruct fuel' as [|fuel']; [lia|]. cbn [loop] in *.
  destruct (body s) as [[s'|y]| | |]; simpl in *; try done.
  apply IH; [done|lia].
Qed.

(** [for (i = ...; i < ...; i++)] over a range of [n] indices starting at [i],
    without and with an early [return]. *)
Fixpoint for_ {S : Type} (n : nat) (i : Z) (body : Z → S → outcome S) (s : S)
  : outcome S :=
  match n with
  | O => Ok s
  | Datatypes.S n => s ← body i s; for_ n (i + 1)%Z body s
  end.

Fixpoint for_find {R : Type} (n : nat) (i : Z) (body : Z → outcome (option R))
  : outcome (option R) :=
  match n with
  | O => Ok None
  | Datatypes.S n =>
      r ← body i;
      match r with Some x => Ok (Some x) | None => for_find n (i + 1)%Z body end
  end.

Lemma for_inv {S} (I : Z → S → Prop) (body : Z → S → outcome S) n i s :
  (∀ j s, (i ≤ j < i + Z.of_nat n)%Z → I j s →
     ∃ s', body j s = Ok s' ∧ I (j + 1)%Z s') →
  I i s → ∃ s', for_ n i body s = Ok s' ∧ I (i + Z.of_nat n)%Z s'.
Proof.
  revert i s. induction n as [|n IH]; intros i s Hb HI; simpl.
  - exists s. by rewrite Z.add_0_r.
  - destruct (Hb i s ltac:(lia) HI) as (s1 & -> & H1). simpl.
    destruct (IH (i + 1)%Z s1) as (s2 & -> & H2); [|done|].
    + intros j s' Hj. apply Hb. lia.
    + exists s2. split; [done|].
      by replace (i + Z.of_nat (Datatypes.S n))%Z with (i + 1 + Z.of_nat n)%Z by lia.
Qed.

(** The first index whose body returns, when each body is decided by [f]. *)
Lemma for_find_spec {R} (f : Z → option R) (body : Z → outcome (option R)) n i :
  (∀ j, (i ≤ j < i + Z.of_nat n)%Z → body j = Ok (f j)) →
  ∃ r, for_find n i body = Ok r ∧
    match r with
    | Some x => ∃ j, (i ≤ j < i + Z.of_nat n)%Z ∧ f j = Some x ∧
                     ∀ k, (i ≤ k < j)%Z → f k = None
    | None => ∀ j, (i ≤ j < i + Z.of_nat n)%Z → f j = None
    end.
Proof.
  revert i. induction n as [|n IH]; intros i Hb; cbn [for_find].
  - exists None. split; [done|]. lia.
  - rewrite (Hb i) by lia. simpl. destruct (f i) as [x|] eqn:Hi.
    + exists (Some x). split; [done|]. exists i. repeat split; [lia|lia|done|lia].
    + destruct (IH (i + 1)%Z) as (r & -> & Hr); [intros; apply Hb; lia|].
      exists r. split; [done|]. destruct r as [x|].
      * destruct Hr as (j & Hj & Hx & Hk). exists j. split; [lia|]. split; [done|].
        intros k Hk'. destruct (decide (k = i)) as [->|]; [done|]. apply Hk. lia.
      * intros j Hj. destruct (decide (j = i)) as [->|]; [done|]. apply Hr. lia.
Qed.

(** ** State

    Code that reads and writes a component's state of type [S]. *)
Definition st (S A : Type) : Type := S → outcome (A * S).

#[export] Instance st_ret {S} : MRet (st S) := λ A a s, Ok (a, s).
#[export] Instance st_bind {S} : MBind (st S) := λ A B f m s,
  match m s with
  | Ok (a, s') => f a s'
  | Panic => Panic
  | Wild => Wild
  | NoFuel => NoFuel
  end.

Definition gets {S A} (f : S → A) : st S A := λ s, Ok (f s, s).
Definition modify {S} (f : S → S) : st S unit := λ s, Ok (tt, f s).
Definition lift {S A} (m : outcome A) : st S A := λ s, a ← m; Ok (a, s).
Definition when {S} (c : bool) (m : st S unit) : st S unit := if c then m else mret tt.

(** A loop whose body also acts on the state. *)
Definition loop_st {S L R} (fuel : nat) (body : L → st S (L + R)) (l : L) : st S R :=
  λ s, loop fuel (λ '(l, s),
         '(r, s) ← body l s;
         match r with inl l' => Ok (inl (l', s)) | inr x => Ok (inr (x, s)) end) (l, s).

Fixpoint for_st {S} (n : nat) (i : Z) (body : Z → st S unit) : st S unit :=
  match n with
  | O => mret tt
  | Datatypes.S n => body i;; for_st n (i + 1)%Z body
  end.

Lemma run_bind {S A B} (m : st S A) (f : A → st S B) s a s' :
  m s = Ok (a, s') → (m ≫= f) s = f a s'.
Proof. unfold mbind, st_bind. by intros ->. Qed.

Lemma run_bind_inv {S A B} (m : st S A) (f : A → st S B) s b s2 :
  (m ≫= f) s = Ok (b, s2) → ∃ a s1, m s = Ok (a, s1) ∧ f a s1 = Ok (b, s2).
Proof. unfold mbind, st_bind. destruct (m s) as [[a s1]| | |]; naive_solver. Qed.

Lemma run_gets {S A B} (g : S → A) (f : A → st S B) s :
  (gets g ≫= f) s = f (g s) s.
Proof. done. Qed.

Lemma run_modify {S B} (g : S → S) (f : unit → st S B) s :
  (modify g ≫= f) s = f tt (g s).
Proof. done. Qed.

Lemma run_lift {S A B} (m : outcome A) (f : A → st S B) s a :
  m = Ok a → (lift m ≫= f) s = f a s.
Proof. by intros ->. Qed.

Lemma for_st_inv {S} (I : Z → S → Prop) (body : Z → st S unit) n i s :
  (∀ j s, (i ≤ j < i + Z.of_nat n)%Z → I j s →
     ∃ s', body j s = Ok (tt, s') ∧ I (j + 1)%Z s') →
  I i s → ∃ s', for_st n i body s = Ok (tt, s') ∧ I (i + Z.of_nat n)%Z s'.
Proof.
  revert i s. induction n as [|n IH]; intros i s Hb HI; cbn [for_st].
  - exists s. by rewrite Z.add_0_r.
  - destruct (Hb i s ltac:(lia) HI) as (s1 & E1 & H1). rewrite (run_bind _ _ _ _ _ E1).
    destruct (IH (i + 1)%Z s1) as (s2 & E2 & H2); [|done|].
    + intros j s' Hj. apply Hb. lia.
    + exists s2. split; [done|].
      by replace (i + Z.of_nat (Datatypes.S n))%Z with (i + 1 + Z.of_nat n)%Z by lia.
Qed.

(** Total correctness of such a loop. *)
Lemma loop_st_total {S L R} (I : nat → L → S → Prop) (Q : R → S → Prop)
    (body : L → st S (L + R)) :
  (∀ n l s, I n l s → ∃ r s', body l s = Ok (r, s') ∧
     match r with inl l' => ∃ n', n' < n ∧ I n' l' s' | inr x => Q x s' end) →
  ∀ n fuel l s, I n l s → n < fuel →
    ∃ r s', loop_st fuel body l s = Ok (r, s') ∧ Q r s'.
Proof.
  intros Hb n fuel l s HI Hf. unfold loop_st.
  destruct (loop_total (λ n '(l, s), I n l s) (λ '(x, s), Q x s) (λ '(l, s),
      '(r, s) ← body l s;
      match r with inl l' => Ok (inl (l', s)) | inr x => Ok (inr (x, s)) end))
    with (n := n) (fuel := fuel) (s := (l, s)) as ([x s'] & -> & HQ); [|done..|eauto].
  intros n' [l' s0] HI'. destruct (Hb n' l' s0 HI') as (r & s1 & -> & Hr). simpl.
  destruct r as [l1|x]; eexists; split; try done.
Qed.

(** One turn of such a loop. *)
Lemma loop_st_next {S L R} n (body : L → st S (L + R)) l s l' s' :
  body l s = Ok (inl l', s') → loop_st (Datatypes.S n) body l s = loop_st n body l' s'.
Proof. intros E. unfold loop_st. cbn [loop]. by rewrite E. Qed.

Lemma loop_st_done {S L R} n (body : L → st S (L + R)) l s x s' :
  body l s = Ok (inr x, s') → loop_st (Datatypes.S n) body l s = Ok (x, s').
Proof. intros E. unfold loop_st. cbn [loop]. by rewrite E. Qed.

(** ** Machine integers

    Unsigned integers are their value; arithmetic is on [Z] and wrapped by the
    conversion to the width of the C type, as the C semantics does it. *)
Definition u8 (z : Z) : Z := (z mod 256)%Z.
Definition u16 (z : Z) : Z := (z mod 65536)%Z.
Definition u32 (z : Z) : Z := (z mod 4294967296)%Z.
Definition u64 (z : Z) : Z := (z mod 18446744073709551616)%Z.
Definition i32 (z : Z) : Z :=
  let u := u32 z in if (u <? 2147483648)%Z then u else (u - 4294967296)%Z.
Definition i64 (z : Z) : Z :=
  let u := u64 z in
  if (u <? 9223372036854775808)%Z then u else (u - 18446744073709551616)%Z.

Abbreviation is_u8 z := (0 ≤ z < 256)%Z (only parsing).
Abbreviation is_u32 z := (0 ≤ z < 4294967296)%Z (only parsing).
Abbreviation is_u64 z := (0 ≤ z < 18446744073709551616)%Z (only parsing).
Abbreviation is_i32 z := (-2147483648 ≤ z < 2147483648)%Z (only parsing).
Abbreviation is_i64 z := (-9223372036854775808 ≤ z < 9223372036854775808)%Z (only parsing).

(** [lia] with the defining equations of [Z.div] and [Z.modulo]. *)
Ltac zdm := Z.div_mod_to_equations; lia.

Lemma u8_small z : is_u8 z → u8 z = z.
Proof. apply Z.mod_small. Qed.
Lemma u32_small z : is_u32 z → u32 z = z.
Proof. apply Z.mod_small. Qed.
Lemma u64_small z : is_u64 z → u64 z = z.
Proof. apply Z.mod_small. Qed.
Lemma u8_range z : is_u8 (u8 z).
Proof. by apply Z.mod_pos_bound. Qed.
Lemma u32_range z : is_u32 (u32 z).
Proof. by apply Z.mod_pos_bound. Qed.
Lemma u64_range z : is_u64 (u64 z).
Proof. by apply Z.mod_pos_bound. Qed.
Lemma i32_small z : is_i32 z → i32 z = z.
Proof. intros. unfold i32, u32. case_match; zdm. Qed.
Lemma i32_range z : is_i32 (i32 z).
Proof. unfold i32, u32. case_match; zdm. Qed.
Lemma i64_small z : is_i64 z → i64 z = z.
Proof. intros. unfold i64, u64. case_match; zdm. Qed.

(** Bit fields that do not overlap. *)
Lemma lor_low a b k : (0 <= k → 0 <= a < 2 ^ k → Z.lor a (b * 2 ^ k) = a + b * 2 ^ k)%Z.
Proof.
  intros Hk Ha.
  assert (H : Z.land a (b * 2 ^ k) = 0%Z).
  { apply Z.bits_inj'. intros n Hn. rewrite Z.land_spec, Z.bits_0. destruct (decide (n < k)%Z).
    - rewrite (Z.mul_pow2_bits_low b k n) by lia. apply andb_false_r.
    - destruct (decide (a = 0%Z)) as [-> |]; [by rewrite Z.bits_0|]. rewrite (Z.bits_above_log2 a n); [done|lia|].
      assert (Z.log2 a < k)%Z by (apply Z.log2_lt_pow2; lia). lia. }
  rewrite <- Z.lxor_lor by done. symmetry. by apply Z.add_nocarry_lxor.
Qed.

Lemma lor_high a b k : (0 <= k → 0 <= b < 2 ^ k → Z.lor (a * 2 ^ k) b = a * 2 ^ k + b)%Z.
Proof. intros Hk Hb. rewrite Z.lor_comm, lor_low by done. lia. Qed.

Create HintDb pintos.
Create Rewrite HintDb pintos.
#[export] Hint Resolve u8_range u32_range u64_range i32_range : pintos.
#[export] Hint Rewrite @bind_ret : pintos.

(** Little-endian 32-bit integers in memory and on disk. *)
Definition le32 (z : Z) : list Z :=
  [u8 z; u8 (z / 256); u8 (z / 65536); u8 (z / 16777216)].
Definition un32 (bs : list Z) : Z :=
  match bs with
  | [a; b; c; d] => a + 256 * b + 65536 * c + 16777216 * d
  | _ => 0
  end%Z.

Lemma un32_le32 z : un32 (le32 z) = u32 z.
Proof. unfold le32, un32, u8, u32. zdm. Qed.

Lemma le32_bytes z : Forall (λ b, is_u8 b) (le32 z).
Proof. repeat constructor; apply u8_range. Qed.

Lemma u32_i32 z : u32 (i32 z) = u32 z.
Proof. unfold i32, u32. case_match; zdm. Qed.

Lemma i32_u32 z : i32 (u32 z) = i32 z.
Proof. unfold i32. by rewrite u32_small by apply u32_range. Qed.

(** The C string at the start of a buffer, without its terminator; reading on
    past the end of the buffer is [Wild]. *)
Fixpoint c_str (bs : list Z) : outcome (list Z) :=
  match bs with
  | [] => Wild
  | b :: bs => if (b =? 0)%Z then Ok [] else cs ← c_str bs; Ok (b :: cs)
  end.

(** ** Lists *)

Lemma hd_rev {A} (d : A) xs : hd d (rev xs) = List.last xs d.
Proof.
  induction xs as [|x xs IH] using rev_ind; [done|].
  by rewrite rev_app_distr, last_last.
Qed.

Lemma last_rev {A} (d : A) xs : List.last (rev xs) d = hd d xs.
Proof. by rewrite <-hd_rev, rev_involutive. Qed.

Lemma hd_app {A} (d : A) xs ys : hd d (xs ++ ys) = hd (hd d ys) xs.
Proof. by destruct xs. Qed.

Lemma last_app_default {A} (d : A) xs ys :
  List.last (xs ++ ys) d = List.last ys (List.last xs d).
Proof.
  revert d. induction ys as [|y ys IH] using rev_ind; intros d.
  - by rewrite app_nil_r.
  - by rewrite app_assoc, !last_last.
Qed.

Lemma last_cons_default {A} (d x : A) xs : List.last (x :: xs) d = List.last xs x.
Proof. apply (last_app_default d [x] xs). Qed.
