(* ===== verification/LinkedList.v ===== *)
(** * Doubly linked lists: lib/kernel/list.c

    The lists of the kernel live in memory as [struct list_elem]s that point to
    each other between two header elements.  The model keeps that memory: a
    finite map from addresses to elements, every pointer assignment an update of
    the map, every pointer dereference a lookup that may fail.  The theorems
    relate each operation to the sequence of elements the list holds. *)
From S2P Require Import Prelude.

Open Scope Z_scope.

(** ** Data: list.h *)

(** Addresses.  [NULL] is never the address of an element. *)
Abbreviation loc := Z (only parsing).
Definition NULL : loc := 0.

(** [struct list_elem]. *)
Record list_elem := mkElem { prev : loc; next : loc }.

(** The memory of all list elements, headers included. *)
Abbreviation heap := (gmap Z list_elem).

(** [struct list] is two adjacent elements of eight bytes each: the address of a
    list is the address of its [head] member, [tail] follows it. *)
Definition head_of (list : loc) : loc := list.
Definition tail_of (list : loc) : loc := list + 8.

Definition get_prev (h : heap) (e : loc) : outcome loc := prev <$> deref (h !! e).
Definition get_next (h : heap) (e : loc) : outcome loc := next <$> deref (h !! e).
Definition wprev (v : loc) (x : list_elem) : list_elem := mkElem v (next x).
Definition wnext (v : loc) (x : list_elem) : list_elem := mkElem (prev x) v.
Definition set_prev (h : heap) (e v : loc) : outcome heap :=
  _ ← deref (h !! e); Ok (alter (wprev v) e h).
Definition set_next (h : heap) (e v : loc) : outcome heap :=
  _ ← deref (h !! e); Ok (alter (wnext v) e h).

(** ** Operations: list.c *)

Definition is_head (h : heap) (elem : loc) : outcome bool :=
  if elem =? NULL then Ok false
  else x ← deref (h !! elem); Ok ((prev x =? NULL) && negb (next x =? NULL)).

Definition is_interior (h : heap) (elem : loc) : outcome bool :=
  if elem =? NULL then Ok false
  else x ← deref (h !! elem);
       Ok (negb (prev x =? NULL) && negb (next x =? NULL)).

Definition is_tail (h : heap) (elem : loc) : outcome bool :=
  if elem =? NULL then Ok false
  else x ← deref (h !! elem); Ok (negb (prev x =? NULL) && (next x =? NULL)).

Definition list_init (h : heap) (list : loc) : outcome heap :=
  ASSERT (negb (list =? NULL));;
  h ← set_prev h (head_of list) NULL;
  h ← set_next h (head_of list) (tail_of list);
  h ← set_prev h (tail_of list) (head_of list);
  set_next h (tail_of list) NULL.

Definition list_begin (h : heap) (list : loc) : outcome loc :=
  ASSERT (negb (list =? NULL));;
  get_next h (head_of list).

Definition list_next (h : heap) (elem : loc) : outcome loc :=
  a ← is_head h elem;
  b ← is_interior h elem;
  ASSERT (a || b);;
  get_next h elem.

Definition list_end (list : loc) : outcome loc :=
  ASSERT (negb (list =? NULL));;
  Ok (tail_of list).

Definition list_rbegin (h : heap) (list : loc) : outcome loc :=
  ASSERT (negb (list =? NULL));;
  get_prev h (tail_of list).

Definition list_prev (h : heap) (elem : loc) : outcome loc :=
  a ← is_interior h elem;
  b ← is_tail h elem;
  ASSERT (a || b);;
  get_prev h elem.

Definition list_rend (list : loc) : outcome loc :=
  ASSERT (negb (list =? NULL));;
  Ok (head_of list).

Definition list_head (list : loc) : outcome loc :=
  ASSERT (negb (list =? NULL));;
  Ok (head_of list).

Definition list_tail (list : loc) : outcome loc :=
  ASSERT (negb (list =? NULL));;
  Ok (tail_of list).

Definition list_insert (h : heap) (before elem : loc) : outcome heap :=
  a ← is_interior h before;
  b ← is_tail h before;
  ASSERT (a || b);;
  ASSERT (negb (elem =? NULL));;
  p ← get_prev h before;
  h ← set_prev h elem p;
  h ← set_next h elem before;
  p ← get_prev h before;
  h ← set_next h p elem;
  set_prev h before elem.

Definition list_splice (h : heap) (before first last : loc) : outcome heap :=
  a ← is_interior h before;
  b ← is_tail h before;
  ASSERT (a || b);;
  if first =? last then Ok h
  else
    last ← list_prev h last;
    a ← is_interior h first;
    ASSERT a;;
    b ← is_interior h last;
    ASSERT b;;
    (* Cleanly remove FIRST...LAST from its current list. *)
    fp ← get_prev h first;
    ln ← get_next h last;
    h ← set_next h fp ln;
    ln ← get_next h last;
    fp ← get_prev h first;
    h ← set_prev h ln fp;
    (* Splice FIRST...LAST into new list. *)
    bp ← get_prev h before;
    h ← set_prev h first bp;
    h ← set_next h last before;
    bp ← get_prev h before;
    h ← set_next h bp first;
    set_prev h before last.

Definition list_push_front (h : heap) (list elem : loc) : outcome heap :=
  b ← list_begin h list; list_insert h b elem.

Definition list_push_back (h : heap) (list elem : loc) : outcome heap :=
  e ← list_end list; list_insert h e elem.

Definition list_remove (h : heap) (elem : loc) : outcome (heap * loc) :=
  a ← is_interior h elem;
  ASSERT a;;
  p ← get_prev h elem;
  n ← get_next h elem;
  h ← set_next h p n;
  n ← get_next h elem;
  p ← get_prev h elem;
  h ← set_prev h n p;
  n ← get_next h elem;
  Ok (h, n).

Definition list_empty (h : heap) (list : loc) : outcome bool :=
  b ← list_begin h list;
  e ← list_end list;
  Ok (b =? e).

Definition list_front (h : heap) (list : loc) : outcome loc :=
  e ← list_empty h list;
  ASSERT (negb e);;
  get_next h (head_of list).

Definition list_back (h : heap) (list : loc) : outcome loc :=
  e ← list_empty h list;
  ASSERT (negb e);;
  get_prev h (tail_of list).

Definition list_pop_front (h : heap) (list : loc) : outcome (heap * loc) :=
  front ← list_front h list;
  '(h, _) ← list_remove h front;
  Ok (h, front).

Definition list_pop_back (h : heap) (list : loc) : outcome (heap * loc) :=
  back ← list_back h list;
  '(h, _) ← list_remove h back;
  Ok (h, back).

(** [size_t cnt] of list_size wraps at 32 bits. *)
Definition list_size (fuel : nat) (h : heap) (list : loc) : outcome Z :=
  b ← list_begin h list;
  loop fuel (λ '(e, cnt),
    t ← list_end list;
    if e =? t then Ok (inr cnt)
    else e ← list_next h e; Ok (inl (e, u32 (cnt + 1)))) (b, 0).

(** swap() exchanges the two pointers it is given: list_reverse calls it on the
    [prev] and [next] members of one element, on [head.next] and [tail.prev],
    and on the [prev] member of one element and the [next] member of another. *)
Definition swap_links (h : heap) (e : loc) : outcome heap :=
  p ← get_prev h e;
  n ← get_next h e;
  h ← set_prev h e n;
  set_next h e p.

Definition swap_next_prev (h : heap) (a b : loc) : outcome heap :=
  n ← get_next h a;
  p ← get_prev h b;
  h ← set_next h a p;
  set_prev h b n.

Definition list_reverse (fuel : nat) (h : heap) (list : loc) : outcome heap :=
  emp ← list_empty h list;
  if (emp : bool) then Ok h
  else
    b ← list_begin h list;
    h ← loop fuel (λ '(h, e),
          t ← list_end list;
          if e =? t then Ok (inr h)
          else h ← swap_links h e; e ← get_prev h e; Ok (inl (h, e))) (h, b);
    h ← swap_next_prev h (head_of list) (tail_of list);
    f ← get_next h (head_of list);
    l ← get_prev h (tail_of list);
    swap_next_prev h l f.

Section Ordered.
(** [list_less_func]: reads the structures the elements are embedded in, never
    the links. *)
Variable less : loc → loc → bool.

Definition is_sorted (fuel : nat) (h : heap) (a b : loc) : outcome bool :=
  if a =? b then Ok true
  else loop fuel (λ a,
         a ← list_next h a;
         if a =? b then Ok (inr true)
         else p ← list_prev h a;
              if less a p then Ok (inr false) else Ok (inl a)) a.

Definition find_end_of_run (fuel : nat) (h : heap) (a b : loc) : outcome loc :=
  ASSERT (negb (a =? NULL));;
  ASSERT (negb (b =? NULL));;
  ASSERT (negb (a =? b));;
  loop fuel (λ a,
    a ← list_next h a;
    if a =? b then Ok (inr a)
    else p ← list_prev h a;
         if less a p then Ok (inr a) else Ok (inl a)) a.

Definition inplace_merge (fuel : nat) (h : heap) (a0 a1b0 b1 : loc)
  : outcome heap :=
  ASSERT (negb (a0 =? NULL));;
  ASSERT (negb (a1b0 =? NULL));;
  ASSERT (negb (b1 =? NULL));;
  sa ← is_sorted fuel h a0 a1b0;
  ASSERT sa;;
  sb ← is_sorted fuel h a1b0 b1;
  ASSERT sb;;
  loop fuel (λ '(h, a0, a1b0),
    if negb (a0 =? a1b0) && negb (a1b0 =? b1) then
      if negb (less a1b0 a0) then
        a0 ← list_next h a0; Ok (inl (h, a0, a1b0))
      else
        a1b0 ← list_next h a1b0;
        p ← list_prev h a1b0;
        h ← list_splice h a0 p a1b0;
        Ok (inl (h, a0, a1b0))
    else Ok (inr h)) (h, a0, a1b0).

(** One pass of list_sort(): the new heap and [output_run_cnt]. *)
Definition sort_pass (fuel : nat) (h : heap) (list : loc) : outcome (heap * Z) :=
  a0 ← list_begin h list;
  loop fuel (λ '(h, a0, output_run_cnt),
    e ← list_end list;
    if a0 =? e then Ok (inr (h, output_run_cnt))
    else
      let output_run_cnt := u32 (output_run_cnt + 1) in
      a1b0 ← find_end_of_run fuel h a0 e;
      if a1b0 =? e then Ok (inr (h, output_run_cnt))
      else
        b1 ← find_end_of_run fuel h a1b0 e;
        h ← inplace_merge fuel h a0 a1b0 b1;
        Ok (inl (h, b1, output_run_cnt))) (h, a0, 0).

Definition list_sort (fuel : nat) (h : heap) (list : loc) : outcome heap :=
  ASSERT (negb (list =? NULL));;
  h ← loop fuel (λ h,
        '(h, output_run_cnt) ← sort_pass fuel h list;
        if 1 <? output_run_cnt then Ok (inl h) else Ok (inr h)) h;
  b ← list_begin h list;
  e ← list_end list;
  s ← is_sorted fuel h b e;
  ASSERT s;;
  Ok h.

Definition list_insert_ordered (fuel : nat) (h : heap) (list elem : loc)
  : outcome heap :=
  ASSERT (negb (list =? NULL));;
  ASSERT (negb (elem =? NULL));;
  b ← list_begin h list;
  e ← loop fuel (λ e,
        t ← list_end list;
        if e =? t then Ok (inr e)
        else if less elem e then Ok (inr e)
        else e ← list_next h e; Ok (inl e)) b;
  list_insert h e elem.

Definition list_unique (fuel : nat) (h : heap) (list duplicates : loc)
  : outcome heap :=
  ASSERT (negb (list =? NULL));;
  emp ← list_empty h list;
  if (emp : bool) then Ok h
  else
    elem ← list_begin h list;
    loop fuel (λ '(h, elem),
      nxt ← list_next h elem;
      t ← list_end list;
      if nxt =? t then Ok (inr h)
      else if negb (less elem nxt) && negb (less nxt elem) then
        '(h, _) ← list_remove h nxt;
        if negb (duplicates =? NULL) then
          h ← list_push_back h duplicates nxt; Ok (inl (h, elem))
        else Ok (inl (h, elem))
      else Ok (inl (h, nxt))) (h, elem).

Definition list_max (fuel : nat) (h : heap) (list : loc) : outcome loc :=
  max ← list_begin h list;
  t ← list_end list;
  if max =? t then Ok max
  else
    e ← list_next h max;
    loop fuel (λ '(e, max),
      t ← list_end list;
      if e =? t then Ok (inr max)
      else
        let max := if less max e then e else max in
        e ← list_next h e;
        Ok (inl (e, max))) (e, max).

Definition list_min (fuel : nat) (h : heap) (list : loc) : outcome loc :=
  min ← list_begin h list;
  t ← list_end list;
  if min =? t then Ok min
  else
    e ← list_next h min;
    loop fuel (λ '(e, min),
      t ← list_end list;
      if e =? t then Ok (inr min)
      else
        let min := if less e min then e else min in
        e ← list_next h e;
        Ok (inl (e, min))) (e, min).
End Ordered.

(** ** Segments

    [seg h p cs q]: the elements [cs] are linked in this order in [h], with [p]
    before the first and [q] after the last. *)
Fixpoint seg (h : heap) (p : loc) (cs : list loc) (q : loc) : Prop :=
  match cs with
  | [] => True
  | a :: cs' => h !! a = Some (mkElem p (hd q cs')) ∧ seg h a cs' q
  end.

Lemma seg_app h p xs ys q :
  seg h p (xs ++ ys) q ↔ seg h p xs (hd q ys) ∧ seg h (List.last xs p) ys q.
Proof.
  revert p. induction xs as [|a xs IH]; intros p; [by simpl; intuition|].
  rewrite last_cons_default. cbn [app seg]. rewrite IH, hd_app. tauto.
Qed.

Lemma seg_cell h p a q : seg h p [a] q ↔ h !! a = Some (mkElem p q).
Proof. simpl. tauto. Qed.

Lemma seg_cons h p a xs q :
  seg h p (a :: xs) q ↔ h !! a = Some (mkElem p (hd q xs)) ∧ seg h a xs q.
Proof. done. Qed.

(** Framing: a segment only depends on its own elements. *)
Lemma seg_ext h h' p xs q :
  (∀ a, a ∈ xs → h' !! a = h !! a) → seg h p xs q → seg h' p xs q.
Proof.
  revert p. induction xs as [|a xs IH]; intros p Hext; [done|].
  intros [Ha Hxs]. split.
  - rewrite Hext; [done|by left].
  - apply IH; [|done]. intros b Hb. apply Hext. by right.
Qed.

Lemma seg_alter_notin f a h p xs q :
  a ∉ xs → seg h p xs q → seg (alter f a h) p xs q.
Proof.
  intros Ha. apply seg_ext. intros b Hb. rewrite lookup_alter_ne; [done|].
  intros ->. done.
Qed.

(** Re-linking the two ends of a segment. *)
Lemma seg_relink_prev h p p' a xs q :
  a ∉ xs → seg h p (a :: xs) q → seg (alter (wprev p') a h) p' (a :: xs) q.
Proof.
  intros Ha [Hc Hs]. split; [|by apply seg_alter_notin].
  by rewrite lookup_alter_eq, Hc.
Qed.

Lemma seg_relink_next h p xs a q q' :
  a ∉ xs → seg h p (xs ++ [a]) q → seg (alter (wnext q') a h) p (xs ++ [a]) q'.
Proof.
  intros Ha. rewrite !seg_app. intros [Hs Hc%seg_cell]. simpl in *. split.
  - by apply seg_alter_notin.
  - split; [|done]. by rewrite lookup_alter_eq, Hc.
Qed.

Lemma seg_in h p xs q a : seg h p xs q → a ∈ xs → is_Some (h !! a).
Proof.
  revert p. induction xs as [|b xs IH]; intros p; [by intros ? ?%not_elem_of_nil|].
  intros [Hb Hs] [->|Hin]%elem_of_cons; [by rewrite Hb|by eauto].
Qed.

(** Reading and writing an element that is there. *)
Lemma get_prev_seg h p a xs q : seg h p (a :: xs) q → get_prev h a = Ok p.
Proof. intros [Ha _]. unfold get_prev. by rewrite Ha. Qed.

Lemma get_next_seg h p xs a q : seg h p (xs ++ [a]) q → get_next h a = Ok q.
Proof. intros [_ Ha%seg_cell]%seg_app. unfold get_next. by rewrite Ha. Qed.

Lemma set_prev_ok h a v : is_Some (h !! a) → set_prev h a v = Ok (alter (wprev v) a h).
Proof. intros [x Hx]. unfold set_prev. by rewrite Hx. Qed.

Lemma set_next_ok h a v : is_Some (h !! a) → set_next h a v = Ok (alter (wnext v) a h).
Proof. intros [x Hx]. unfold set_next. by rewrite Hx. Qed.

(** ** The representation of a list

    [chain h cs]: [cs] is a whole list in memory, headers included.
    [repr h l xs]: the list at address [l] holds the elements [xs]. *)
Definition chain (h : heap) (cs : list loc) : Prop :=
  NoDup cs ∧ NULL ∉ cs ∧ seg h NULL cs NULL.

Definition cells (l : loc) (xs : list loc) : list loc := head_of l :: xs ++ [tail_of l].

Definition repr (h : heap) (l : loc) (xs : list loc) : Prop := chain h (cells l xs).

(** Updates outside a chain do not touch it. *)
Lemma chain_ext h h' cs :
  (∀ a, a ∈ cs → h' !! a = h !! a) → chain h cs → chain h' cs.
Proof. intros Hext (Hnd & Hnull & Hs). split_and!; eauto using seg_ext. Qed.

(** The elements of a chain and their neighbours. *)
Lemma chain_interior h P p e n Q :
  chain h (P ++ p :: e :: n :: Q) → h !! e = Some (mkElem p n) ∧ p ≠ NULL ∧ n ≠ NULL.
Proof.
  intros (_ & Hnull & Hs). apply seg_app in Hs as [_ Hs].
  destruct Hs as (_ & He & _). split; [done|]. set_solver.
Qed.

Lemma chain_last h P p e :
  chain h (P ++ [p; e]) → h !! e = Some (mkElem p NULL) ∧ p ≠ NULL.
Proof.
  intros (_ & Hnull & Hs). apply seg_app in Hs as [_ Hs].
  destruct Hs as (_ & He & _). split; [done|]. set_solver.
Qed.

Lemma chain_first h e n Q :
  chain h (e :: n :: Q) → h !! e = Some (mkElem NULL n) ∧ n ≠ NULL.
Proof. intros (_ & Hnull & He & _). split; [done|]. set_solver. Qed.

Lemma chain_notnull h cs e : chain h cs → e ∈ cs → e ≠ NULL.
Proof. intros (_ & Hnull & _) ? ->. done. Qed.

Lemma chain_next h P e n Q : chain h (P ++ e :: n :: Q) → list_next h e = Ok n.
Proof.
  intros Hc. assert (e ≠ NULL) as He by (eapply chain_notnull; [done|set_solver]).
  unfold list_next, is_head, is_interior, get_next.
  apply Z.eqb_neq in He. rewrite He.
  destruct (decide (P = [])) as [->|HP].
  - apply chain_first in Hc as [Hl Hn]. rewrite Hl. simpl.
    apply Z.eqb_neq in Hn. by rewrite Hn.
  - destruct (exists_last HP) as (P' & p & ->). rewrite <-app_assoc in Hc.
    apply chain_interior in Hc as (Hl & Hp & Hn). rewrite Hl. simpl.
    apply Z.eqb_neq in Hp, Hn. by rewrite Hp, Hn.
Qed.

(** [before] of list_insert(), list_splice() and list_prev(): an interior element
    or a tail. *)
Lemma chain_mid h P p e Q :
  chain h (P ++ p :: e :: Q) →
  ∃ a b, is_interior h e = Ok a ∧ is_tail h e = Ok b ∧ (a || b) = true ∧
         get_prev h e = Ok p.
Proof.
  intros Hc. assert (e ≠ NULL) as He by (eapply chain_notnull; [done|set_solver]).
  unfold is_interior, is_tail, get_prev. apply Z.eqb_neq in He. rewrite He.
  destruct Q as [|n Q].
  - apply chain_last in Hc as (Hl & Hp). rewrite Hl. simpl.
    apply Z.eqb_neq in Hp. rewrite Hp. by repeat eexists.
  - apply chain_interior in Hc as (Hl & Hp & Hn). rewrite Hl. simpl.
    apply Z.eqb_neq in Hp, Hn. rewrite Hp, Hn. by repeat eexists.
Qed.

Lemma chain_prev h P p e Q : chain h (P ++ p :: e :: Q) → list_prev h e = Ok p.
Proof.
  intros (a & b & Ha & Hb & Hab & Hp)%chain_mid.
  unfold list_prev. rewrite Ha. simpl. rewrite Hb. simpl. by rewrite Hab.
Qed.

Lemma chain_is_interior h P p e n Q :
  chain h (P ++ p :: e :: n :: Q) → is_interior h e = Ok true.
Proof.
  intros Hc. assert (e ≠ NULL) as He by (eapply chain_notnull; [done|set_solver]).
  apply chain_interior in Hc as (Hl & Hp & Hn). unfold is_interior.
  apply Z.eqb_neq in He, Hp, Hn. rewrite He, Hl. simpl. by rewrite Hp, Hn.
Qed.

(** ** Pointer surgery on chains *)

Lemma alter_alloc {A} (f : A → A) (h : gmap Z A) a b :
  is_Some (alter f a h !! b) ↔ is_Some (h !! b).
Proof. rewrite lookup_alter. case_decide; [subst|]; by rewrite ?fmap_is_Some. Qed.

Create HintDb seg.
#[export] Hint Resolve seg_alter_notin seg_relink_prev seg_relink_next : seg.

(** Steps over the guards and the pointer assignments of an operation, whose
    elements are allocated by assumption. *)
Ltac heap_step :=
  match goal with
  | |- context [set_prev ?h ?a ?v] =>
      rewrite (set_prev_ok h a v) by (rewrite ?alter_alloc; eauto); simpl
  | |- context [set_next ?h ?a ?v] =>
      rewrite (set_next_ok h a v) by (rewrite ?alter_alloc; eauto); simpl
  end.

(** A whole chain cut at one element. *)
Lemma chain_split h xs ys :
  chain h (xs ++ ys) ↔
  NoDup (xs ++ ys) ∧ NULL ∉ xs ++ ys ∧
  seg h NULL xs (hd NULL ys) ∧ seg h (List.last xs NULL) ys NULL.
Proof. unfold chain. by rewrite seg_app. Qed.

Lemma chain_alloc h cs a : chain h cs → a ∈ cs → is_Some (h !! a).
Proof. intros (_ & _ & Hs). by apply seg_in with (1 := Hs). Qed.

Ltac alter_frame :=
  intros; rewrite ?lookup_alter_ne by (intros ->; set_solver); done.

Lemma list_insert_chain h P p b Q e :
  chain h (P ++ p :: b :: Q) → e ∉ P ++ p :: b :: Q → e ≠ NULL → is_Some (h !! e) →
  ∃ h', list_insert h b e = Ok h' ∧ chain h' (P ++ p :: e :: b :: Q) ∧
        ∀ a, a ∉ e :: P ++ p :: b :: Q → h' !! a = h !! a.
Proof.
  intros Hc He Hnull Halloc.
  assert (is_Some (h !! p)) as Hp by (eapply chain_alloc; [done|set_solver]).
  assert (is_Some (h !! b)) as Hb by (eapply chain_alloc; [done|set_solver]).
  destruct (chain_mid _ _ _ _ _ Hc) as (i & t & Hi & Ht & Hit & Hgp).
  unfold list_insert. rewrite Hi. simpl. rewrite Ht. simpl.
  rewrite Hit. simpl. apply Z.eqb_neq in Hnull as Hn. rewrite Hn. simpl.
  rewrite Hgp. simpl. repeat heap_step.
  assert (get_prev (alter (wnext b) e (alter (wprev p) e h)) b = Ok p) as ->.
  { unfold get_prev in *. rewrite !lookup_alter_ne by set_solver. done. }
  simpl. repeat heap_step. eexists; split; [done|]. split; [|alter_frame].
  replace (P ++ p :: b :: Q) with ((P ++ [p]) ++ b :: Q) in * by by rewrite <-app_assoc.
  apply chain_split in Hc as (Hnd & Hnn & HsP & HsQ). rewrite last_last in HsQ.
  apply NoDup_app in Hnd as Hnd'.
  destruct Hnd' as (HndP & Hdis & [HbQ _]%NoDup_cons).
  apply NoDup_app in HndP as (_ & HpP & _).
  replace (P ++ p :: e :: b :: Q) with ((P ++ [p]) ++ [e] ++ b :: Q)
    by by rewrite <-app_assoc.
  unfold chain. rewrite (seg_app _ _ (P ++ [p])), (seg_app _ _ [e]), last_last.
  simpl hd. split_and!.
  - rewrite app_assoc, <-(Permutation_app_comm [e]), <-app_assoc. simpl.
    apply NoDup_cons. split; [set_solver|done].
  - set_solver.
  - apply seg_alter_notin; [set_solver|]. apply seg_relink_next with (q := b); [set_solver|].
    do 2 (apply seg_alter_notin; [set_solver|]). done.
  - apply seg_cell. rewrite 2!lookup_alter_ne by set_solver.
    rewrite !lookup_alter_eq. destruct Halloc as [x ->]. done.
  - apply seg_relink_prev with (p := p); [done|].
    do 3 (apply seg_alter_notin; [set_solver|]). done.
Qed.

(** The ends of a nonempty segment, by [hd] and [List.last]. *)
Lemma seg_relink_first h p p' xs q d :
  xs ≠ [] → NoDup xs → seg h p xs q → seg (alter (wprev p') (hd d xs) h) p' xs q.
Proof.
  destruct xs as [|a xs]; [done|]. intros _ [Ha _]%NoDup_cons. by apply seg_relink_prev.
Qed.

Lemma seg_relink_last h p xs q q' d :
  xs ≠ [] → NoDup xs → seg h p xs q → seg (alter (wnext q') (List.last xs d) h) p xs q'.
Proof.
  intros Hne. destruct (exists_last Hne) as (xs' & a & ->). rewrite last_last.
  intros (_ & Ha & _)%NoDup_app. apply seg_relink_next. set_solver.
Qed.

Lemma get_prev_first h p xs q d : xs ≠ [] → seg h p xs q → get_prev h (hd d xs) = Ok p.
Proof. destruct xs; [done|]. intros _. apply get_prev_seg. Qed.

Lemma get_next_last h p xs q d :
  xs ≠ [] → seg h p xs q → get_next h (List.last xs d) = Ok q.
Proof.
  intros Hne. destruct (exists_last Hne) as (xs' & a & ->). rewrite last_last.
  apply get_next_seg.
Qed.

Lemma hd_in {A} (d : A) xs : xs ≠ [] → hd d xs ∈ xs.
Proof. destruct xs; [done|]. intros _. by left. Qed.

Lemma last_in {A} (d : A) xs : xs ≠ [] → List.last xs d ∈ xs.
Proof.
  intros Hne. destruct (exists_last Hne) as (xs' & a & ->). rewrite last_last. set_solver.
Qed.

Lemma list_remove_chain h P p e n Q :
  chain h (P ++ p :: e :: n :: Q) →
  ∃ h', list_remove h e = Ok (h', n) ∧ chain h' (P ++ p :: n :: Q) ∧
        ∀ a, a ≠ p → a ≠ n → h' !! a = h !! a.
Proof.
  intros Hc. pose proof (chain_is_interior _ _ _ _ _ _ Hc) as Hint.
  destruct (chain_interior _ _ _ _ _ _ Hc) as (Hl & _ & _).
  assert (is_Some (h !! p)) as Hp by (eapply chain_alloc; [done|set_solver]).
  assert (is_Some (h !! n)) as Hn by (eapply chain_alloc; [done|set_solver]).
  replace (P ++ p :: e :: n :: Q) with ((P ++ [p]) ++ [e] ++ n :: Q) in Hc
    by by rewrite <-app_assoc.
  destruct Hc as (Hnd & Hnn & Hs).
  apply NoDup_app in Hnd as (HndP & HP & HndQ).
  assert (p ≠ e ∧ n ≠ e) as [Hpe Hne].
  { split; [set_solver|]. apply NoDup_app in HndQ as (_ & ? & _). set_solver. }
  unfold list_remove. rewrite Hint. simpl. unfold get_prev, get_next. rewrite Hl. simpl.
  heap_step. rewrite lookup_alter_ne, Hl by done. simpl. heap_step.
  rewrite 2!lookup_alter_ne, Hl by done. simpl. eexists; split; [done|].
  split; [|intros; by rewrite !lookup_alter_ne].
  rewrite !app_assoc, <-app_assoc, seg_app, (seg_app _ _ [e]), last_last in Hs.
  destruct Hs as (HsP & _ & HsQ). apply NoDup_app in HndP as (HnP & HpP & _).
  replace (P ++ p :: n :: Q) with ((P ++ [p]) ++ n :: Q) by by rewrite <-app_assoc.
  apply chain_split. rewrite last_last. split_and!.
  - apply NoDup_app. split_and!; [by apply NoDup_app; split_and!; [|done|apply NoDup_singleton]| |].
    + set_solver.
    + by apply NoDup_app in HndQ as (_ & _ & ?).
  - set_solver.
  - apply seg_alter_notin; [set_solver|]. apply seg_relink_next with (q := e); [set_solver|done].
  - apply seg_relink_prev with (p := e).
    + apply NoDup_app in HndQ as (_ & _ & [? _]%NoDup_cons). done.
    + apply seg_alter_notin; [set_solver|done].
Qed.

Lemma last_indep {A} (d d' : A) xs : xs ≠ [] → List.last xs d = List.last xs d'.
Proof.
  intros Hne. destruct (exists_last Hne) as (xs' & a & ->). by rewrite !last_last.
Qed.

Lemma hd_indep {A} (d d' : A) xs : xs ≠ [] → hd d xs = hd d' xs.
Proof. by destruct xs. Qed.

(** Two adjacent parts of a chain. *)
Lemma seg_cut h p xs ys q :
  xs ≠ [] → ys ≠ [] →
  seg h p (xs ++ ys) q ↔ seg h p xs (hd NULL ys) ∧ seg h (List.last xs NULL) ys q.
Proof.
  intros Hx Hy. rewrite seg_app, (hd_indep q NULL), (last_indep p NULL) by done. done.
Qed.

Lemma app_ne_r {A} (xs ys : list A) : ys ≠ [] → xs ++ ys ≠ [].
Proof. by destruct xs. Qed.
#[export] Hint Resolve app_ne_r : seg.

(** Elements of disjoint parts differ. *)
Definition disj (xs ys : list loc) : Prop := ∀ x, x ∈ xs → x ∈ ys → False.

Lemma disj_sym xs ys : disj xs ys → disj ys xs.
Proof. unfold disj. eauto. Qed.

Ltac disj :=
  match goal with
  | H : disj ?X ?Y, Ha : ?a ∈ ?X |- ?a ∉ ?Y => exact (H a Ha)
  | H : disj ?X ?Y, Ha : ?a ∈ ?Y |- ?a ∉ ?X => exact (λ Hx, H a Hx Ha)
  | H : disj ?X ?Y, Ha : ?a ∈ ?X, Hb : ?b ∈ ?Y |- ?a ≠ ?b =>
      let E := fresh in intros E; rewrite E in Ha; exact (H b Ha Hb)
  | H : disj ?X ?Y, Ha : ?a ∈ ?Y, Hb : ?b ∈ ?X |- ?a ≠ ?b =>
      let E := fresh in intros E; rewrite E in Ha; exact (H b Hb Ha)
  end.

Lemma NoDup_app_disj xs ys : NoDup (xs ++ ys) ↔ NoDup xs ∧ disj xs ys ∧ NoDup ys.
Proof. by rewrite NoDup_app. Qed.

Lemma disj_app xs ys zs : disj xs (ys ++ zs) ↔ disj xs ys ∧ disj xs zs.
Proof. unfold disj. set_solver. Qed.

(** Discharges the side conditions of a sequence of link updates on one part of a
    chain: each update either re-links an end of the part or misses it. *)
Ltac seg_updates :=
  repeat first
    [ eassumption
    | eapply seg_relink_first with (d := NULL); [assumption|assumption|]
    | eapply seg_relink_last with (d := NULL); [assumption|assumption|]
    | apply seg_alter_notin; [solve [disj]|] ];
  try eassumption.

Lemma chain_mid_cut h A B :
  A ≠ [] → B ≠ [] → chain h (A ++ B) →
  ∃ a b, is_interior h (hd NULL B) = Ok a ∧ is_tail h (hd NULL B) = Ok b ∧
         (a || b) = true ∧ get_prev h (hd NULL B) = Ok (List.last A NULL).
Proof.
  intros HA HB. destruct (exists_last HA) as (A' & p & ->). destruct B as [|b B]; [done|].
  rewrite <-app_assoc, last_last. apply chain_mid.
Qed.

Lemma chain_prev_cut h A B :
  A ≠ [] → B ≠ [] → chain h (A ++ B) → list_prev h (hd NULL B) = Ok (List.last A NULL).
Proof.
  intros HA HB. destruct (exists_last HA) as (A' & p & ->). destruct B as [|b B]; [done|].
  rewrite <-app_assoc, last_last. apply chain_prev.
Qed.

Lemma chain_next_cut h A B :
  A ≠ [] → B ≠ [] → chain h (A ++ B) → list_next h (List.last A NULL) = Ok (hd NULL B).
Proof.
  intros HA HB. destruct (exists_last HA) as (A' & p & ->). destruct B as [|b B]; [done|].
  rewrite <-app_assoc, last_last. apply chain_next.
Qed.

Lemma chain_interior_cut h A B C :
  A ≠ [] → B ≠ [] → C ≠ [] → chain h (A ++ B ++ C) →
  is_interior h (hd NULL B) = Ok true ∧ is_interior h (List.last B NULL) = Ok true.
Proof.
  intros HA HB HC Hc. split.
  - destruct (exists_last HA) as (A' & p & ->). destruct B as [|b B]; [done|].
    destruct (B ++ C) as [|c D] eqn:E; [by destruct (app_ne_r B C HC)|].
    cbn [app] in Hc. rewrite E, <-app_assoc in Hc.
    eapply chain_is_interior, Hc.
  - destruct (exists_last HB) as (B' & b & ->). destruct C as [|c C]; [done|].
    rewrite last_last. destruct (exists_last (l := A ++ B')) as (D & d & E).
    { by destruct A. }
    rewrite <-(app_assoc B'), app_assoc, E, <-app_assoc in Hc.
    eapply chain_is_interior, Hc.
Qed.

(** Reading past updates of other members. *)
Lemma get_prev_wnext h v a b : get_prev (alter (wnext v) a h) b = get_prev h b.
Proof.
  unfold get_prev. rewrite lookup_alter. case_decide; [subst|done]. by destruct (h !! b).
Qed.

Lemma get_next_wprev h v a b : get_next (alter (wprev v) a h) b = get_next h b.
Proof.
  unfold get_next. rewrite lookup_alter. case_decide; [subst|done]. by destruct (h !! b).
Qed.

Lemma get_prev_alter_ne f h a b : a ≠ b → get_prev (alter f a h) b = get_prev h b.
Proof. intros. unfold get_prev. by rewrite lookup_alter_ne. Qed.

Lemma get_next_alter_ne f h a b : a ≠ b → get_next (alter f a h) b = get_next h b.
Proof. intros. unfold get_next. by rewrite lookup_alter_ne. Qed.

(** list_splice() moves the part [S] of a chain, which starts at [first] and ends
    before [last], in front of the part that starts at [before]. *)
Lemma list_splice_chain h A B S L :
  A ≠ [] → B ≠ [] → S ≠ [] → L ≠ [] → chain h (A ++ B ++ S ++ L) →
  ∃ h', list_splice h (hd NULL B) (hd NULL S) (hd NULL L) = Ok h' ∧
        chain h' (A ++ S ++ B ++ L) ∧
        ∀ a, a ∉ A ++ B ++ S ++ L → h' !! a = h !! a.
Proof.
  intros HA HB HS HL Hc. pose proof Hc as (Hnd & Hnn & Hs).
  rewrite !seg_cut, !hd_app in Hs by auto with seg.
  rewrite (hd_indep _ NULL B), (hd_indep _ NULL S) in Hs by done.
  destruct Hs as (HsA & HsB & HsS & HsL).
  rewrite !NoDup_app_disj, !disj_app in Hnd.
  destruct Hnd as (HndA & (HAB & HAS & HAL) & HndB & (HBS & HBL) & HndS & HSL & HndL).
  pose proof (last_in NULL A HA) as HlA. pose proof (last_in NULL B HB) as HlB.
  pose proof (last_in NULL S HS) as HlS. pose proof (hd_in NULL B HB) as HhB.
  pose proof (hd_in NULL S HS) as HhS. pose proof (hd_in NULL L HL) as HhL.
  destruct (chain_mid_cut h A (B ++ S ++ L)) as (i & t & Hi & Ht & Hit & _); auto with seg.
  rewrite hd_app, (hd_indep _ NULL B) in Hi, Ht by done.
  unfold list_splice. rewrite Hi. simpl. rewrite Ht. simpl. rewrite Hit. simpl.
  assert (hd NULL S ≠ hd NULL L) as Hfl%Z.eqb_neq by disj.
  rewrite Hfl.
  rewrite !(app_assoc A), (app_assoc (A ++ B)) in Hc.
  rewrite (chain_prev_cut h ((A ++ B) ++ S) L), last_app_default, (last_indep _ NULL S) by auto with seg.
  simpl. rewrite <-(app_assoc (A ++ B)) in Hc.
  destruct (chain_interior_cut h (A ++ B) S L) as [HiF HiL]; auto with seg.
  rewrite HiF. simpl. rewrite HiL. simpl.
  assert (∀ a, a ∈ A ∨ a ∈ B ∨ a ∈ S ∨ a ∈ L → is_Some (h !! a)) as Hal
    by (intros a [?|[?|[?|?]]]; eauto using seg_in).
  assert (is_Some (h !! List.last A NULL)) by auto.
  assert (is_Some (h !! List.last B NULL)) by auto.
  assert (is_Some (h !! List.last S NULL)) by auto.
  assert (is_Some (h !! hd NULL B)) by auto. assert (is_Some (h !! hd NULL S)) by auto.
  assert (is_Some (h !! hd NULL L)) by auto.
  erewrite get_prev_first by done. simpl. erewrite get_next_last by done. simpl.
  heap_step. rewrite get_next_alter_ne by disj. erewrite get_next_last by done. simpl.
  rewrite get_prev_wnext. erewrite get_prev_first by done. simpl. heap_step.
  rewrite get_prev_alter_ne, get_prev_wnext by disj.
  erewrite get_prev_first by done. simpl. do 2 heap_step.
  rewrite get_prev_wnext, 2!get_prev_alter_ne, get_prev_wnext by disj.
  erewrite get_prev_first by done. simpl. do 2 heap_step.
  eexists; split; [done|]. split; cycle 1.
  { intros a Ha. rewrite !elem_of_app in Ha.
    rewrite !lookup_alter_ne by (intros <-; tauto). done. }
  split_and!.
  - rewrite !NoDup_app_disj, !disj_app. split_and!; auto using disj_sym.
  - set_solver.
  - rewrite !seg_cut, !hd_app by auto with seg.
    rewrite (hd_indep (hd (hd NULL L) B) NULL S), (hd_indep (hd NULL L) NULL B) by done.
    split_and!; seg_updates.
Qed.

(** ** Operations on a represented list *)

Lemma repr_notnull h l xs : repr h l xs → l ≠ NULL.
Proof. intros Hc. eapply chain_notnull; [done|]. by left. Qed.

Lemma repr_NoDup h l xs : repr h l xs → NoDup xs.
Proof.
  intros (Hnd & _). apply NoDup_cons in Hnd as [_ Hnd].
  by apply NoDup_app in Hnd as (? & _ & _).
Qed.

Lemma repr_begin h l xs : repr h l xs → list_begin h l = Ok (hd (tail_of l) xs).
Proof.
  intros Hr. pose proof (repr_notnull _ _ _ Hr) as Hn%Z.eqb_neq.
  unfold list_begin. rewrite Hn. simpl.
  destruct Hr as (_ & _ & Hs). destruct Hs as [Hh _]. unfold get_next.
  rewrite Hh. by destruct xs.
Qed.

Lemma repr_end h l xs : repr h l xs → list_end l = Ok (tail_of l).
Proof. intros Hr. apply repr_notnull, Z.eqb_neq in Hr. unfold list_end. by rewrite Hr. Qed.

Lemma repr_end_bind {A} h l xs (k : loc → outcome A) :
  repr h l xs → list_end l ≫= k = k (tail_of l).
Proof. intros Hr. by rewrite (repr_end _ _ _ Hr). Qed.

Lemma repr_ne_tail h l D x R : repr h l (D ++ x :: R) → (x =? tail_of l) = false.
Proof.
  intros (Hnd & _). apply Z.eqb_neq. intros ->. unfold cells in Hnd.
  rewrite <-app_assoc in Hnd. apply NoDup_cons in Hnd as (_ & Hnd).
  apply NoDup_app in Hnd as (_ & _ & [Hx _]%NoDup_cons). set_solver.
Qed.

Lemma repr_next h l D x R : repr h l (D ++ x :: R) → list_next h x = Ok (hd (tail_of l) R).
Proof.
  unfold repr, cells. intros Hc. rewrite <-app_assoc in Hc. simpl in Hc.
  destruct R as [|y R]; simpl in Hc; [apply (chain_next _ (head_of l :: D) _ _ []), Hc|].
  eapply (chain_next _ (head_of l :: D)), Hc.
Qed.

Lemma repr_prev h l D x y R : repr h l (D ++ x :: y :: R) → list_prev h y = Ok x.
Proof.
  unfold repr, cells. intros Hc. rewrite <-app_assoc in Hc.
  eapply (chain_prev _ (head_of l :: D)), Hc.
Qed.

Lemma repr_empty h l xs : repr h l xs → list_empty h l = Ok (bool_decide (xs = [])).
Proof.
  intros Hr. unfold list_empty. erewrite repr_begin, repr_end by done. simpl. f_equal.
  destruct xs as [|x xs]; simpl; [by rewrite Z.eqb_refl|].
  by apply (repr_ne_tail h l []) in Hr as ->.
Qed.

(** list_init() makes an empty list out of any two allocated headers. *)
Lemma list_init_repr h l :
  l ≠ NULL → tail_of l ≠ NULL → is_Some (h !! head_of l) → is_Some (h !! tail_of l) →
  ∃ h', list_init h l = Ok h' ∧ repr h' l [] ∧
        ∀ a, a ≠ head_of l → a ≠ tail_of l → h' !! a = h !! a.
Proof.
  intros Hl Ht Hh Htl. unfold list_init. apply Z.eqb_neq in Hl as Hl'. rewrite Hl'. simpl.
  repeat heap_step. eexists; split; [done|].
  assert (head_of l ≠ tail_of l) by (unfold head_of, tail_of; lia). split.
  - split_and!.
    { unfold cells. simpl. rewrite !NoDup_cons.
      split_and!; [set_solver|set_solver|apply NoDup_nil_2]. }
    { unfold cells, head_of in *. set_solver. }
    destruct Hh as [x Hx], Htl as [y Hy]. simpl.
    rewrite !lookup_alter_ne, !lookup_alter_eq, !lookup_alter_ne by done.
    by rewrite Hx, Hy.
  - intros a Ha Hb. by rewrite !lookup_alter_ne.
Qed.

(** An element that may enter the list at [l]. *)
Definition fresh_elem (h : heap) (l : loc) (xs : list loc) (e : loc) : Prop :=
  e ∉ cells l xs ∧ e ≠ NULL ∧ is_Some (h !! e).

(** list_insert() before any element of the list, or before its tail. *)
Lemma list_insert_repr h l D R e :
  repr h l (D ++ R) → fresh_elem h l (D ++ R) e →
  ∃ h', list_insert h (hd (tail_of l) R) e = Ok h' ∧ repr h' l (D ++ e :: R) ∧
        ∀ a, a ∉ e :: cells l (D ++ R) → h' !! a = h !! a.
Proof.
  intros Hr (He & Hn & Ha).
  assert (∃ P p Q, cells l (D ++ R) = P ++ p :: hd (tail_of l) R :: Q ∧
                   cells l (D ++ e :: R) = P ++ p :: e :: hd (tail_of l) R :: Q)
    as (P & p & Q & E1 & E2).
  { unfold cells. rewrite <-!app_assoc.
    destruct (exists_last (l := head_of l :: D)) as (P & p & E); [done|].
    change (head_of l :: D ++ ?X) with ((head_of l :: D) ++ X). rewrite E, <-!app_assoc.
    exists P, p. destruct R as [|r R]; by eexists. }
  unfold repr in *. rewrite E1 in *. rewrite E2. by apply list_insert_chain.
Qed.

(** list_remove() of any element of the list. *)
Lemma list_remove_repr h l D e R :
  repr h l (D ++ e :: R) →
  ∃ h', list_remove h e = Ok (h', hd (tail_of l) R) ∧ repr h' l (D ++ R) ∧
        h' !! e = h !! e ∧ ∀ a, a ∉ cells l (D ++ R) → h' !! a = h !! a.
Proof.
  intros Hr. pose proof Hr as Hr0.
  assert (∃ P p Q, cells l (D ++ e :: R) = P ++ p :: e :: hd (tail_of l) R :: Q ∧
                   cells l (D ++ R) = P ++ p :: hd (tail_of l) R :: Q)
    as (P & p & Q & E1 & E2).
  { unfold cells. rewrite <-!app_assoc.
    destruct (exists_last (l := head_of l :: D)) as (P & p & E); [done|].
    change (head_of l :: D ++ ?X) with ((head_of l :: D) ++ X). rewrite E, <-!app_assoc.
    exists P, p. destruct R as [|r R]; by eexists. }
  unfold repr in *. rewrite E1 in Hr. pose proof Hr as (Hnd & _).
  destruct (list_remove_chain _ _ _ _ _ _ Hr) as (h' & -> & Hc' & Hfr).
  exists h'. rewrite E2. split_and!; [done|done| |].
  - apply Hfr; intros ->; apply NoDup_app in Hnd as (_ & _ & Hnd);
      rewrite !NoDup_cons in Hnd; set_solver.
  - intros a Ha. apply Hfr; set_solver.
Qed.

(** The links of a segment determine its memory. *)
Lemma seg_det h h' p xs q :
  seg h p xs q → seg h' p xs q → ∀ a, a ∈ xs → h' !! a = h !! a.
Proof.
  revert p. induction xs as [|b xs IH]; intros p; [by intros _ _ a ?%not_elem_of_nil|].
  intros [Hb Hs] [Hb' Hs'] a [->|Ha]%elem_of_cons; [congruence|by eapply IH].
Qed.

Lemma list_size_repr h l xs fuel :
  repr h l xs → (length xs < fuel)%nat → list_size fuel h l = Ok (u32 (Z.of_nat (length xs))).
Proof.
  intros Hr Hf. unfold list_size. erewrite repr_begin by done. simpl.
  edestruct (loop_total
    (λ n '(e, cnt), ∃ D R, xs = D ++ R ∧ e = hd (tail_of l) R ∧ n = length R ∧
                           cnt = u32 (Z.of_nat (length D)))
    (λ r, r = u32 (Z.of_nat (length xs)))) as (r & Hl & ->); [| |exact Hf|exact Hl].
  - intros n [e cnt] (D & R & -> & -> & -> & ->). erewrite repr_end by done. simpl.
    destruct R as [|x R]; simpl.
    + rewrite Z.eqb_refl. eexists; split; [done|]. simpl. by rewrite app_nil_r.
    + erewrite repr_ne_tail, repr_next by done. simpl. eexists; split; [done|]. simpl.
      exists (length R). split; [lia|]. exists (D ++ [x]), R.
      rewrite <-app_assoc, length_app. simpl. split_and!; auto.
      unfold u32. rewrite Zplus_mod_idemp_l. f_equal. lia.
  - exists [], xs. done.
Qed.

Lemma list_push_front_repr h l xs e :
  repr h l xs → fresh_elem h l xs e →
  ∃ h', list_push_front h l e = Ok h' ∧ repr h' l (e :: xs) ∧
        ∀ a, a ∉ e :: cells l xs → h' !! a = h !! a.
Proof.
  intros Hr He. unfold list_push_front. erewrite repr_begin by done. simpl.
  by apply (list_insert_repr h l [] xs e).
Qed.

Lemma list_push_back_repr h l xs e :
  repr h l xs → fresh_elem h l xs e →
  ∃ h', list_push_back h l e = Ok h' ∧ repr h' l (xs ++ [e]) ∧
        ∀ a, a ∉ e :: cells l xs → h' !! a = h !! a.
Proof.
  intros Hr He. unfold list_push_back. erewrite repr_end by done. simpl.
  pose proof (list_insert_repr h l xs [] e) as H. rewrite !app_nil_r in H. by apply H.
Qed.

Lemma list_pop_front_repr h l x xs :
  repr h l (x :: xs) →
  ∃ h', list_pop_front h l = Ok (h', x) ∧ repr h' l xs ∧
        h' !! x = h !! x ∧ ∀ a, a ∉ cells l xs → h' !! a = h !! a.
Proof.
  intros Hr. unfold list_pop_front, list_front. erewrite repr_empty by done. simpl.
  destruct Hr as (Hnd & Hnn & Hh & Hs) eqn:E. clear E. unfold get_next. rewrite Hh. simpl.
  destruct (list_remove_repr h l [] x xs) as (h' & -> & ?); [done|]. by exists h'.
Qed.

Lemma list_pop_back_repr h l x xs :
  repr h l (xs ++ [x]) →
  ∃ h', list_pop_back h l = Ok (h', x) ∧ repr h' l xs ∧
        h' !! x = h !! x ∧ ∀ a, a ∉ cells l xs → h' !! a = h !! a.
Proof.
  intros Hr. unfold list_pop_back, list_back. erewrite repr_empty by done. simpl.
  rewrite bool_decide_false by by destruct xs. simpl.
  destruct (list_remove_repr h l xs x []) as (h' & Hrm & ?); [done|].
  unfold repr, cells in Hr. rewrite <-app_assoc in Hr.
  apply (chain_last h (head_of l :: xs)) in Hr as [Ht _].
  unfold get_prev. rewrite Ht. simpl. rewrite Hrm. simpl.
  rewrite app_nil_r in *. by exists h'.
Qed.

(** ** Reversal *)

Lemma elem_of_rev' {A} (x : A) xs : x ∈ rev xs → x ∈ xs.
Proof. rewrite !list_elem_of_In. apply in_rev. Qed.

Lemma swap_links_ok h x p n :
  h !! x = Some (mkElem p n) →
  ∃ h', swap_links h x = Ok h' ∧ h' !! x = Some (mkElem n p) ∧
        ∀ a, a ≠ x → h' !! a = h !! a.
Proof.
  intros Hx. unfold swap_links, get_prev, get_next. rewrite Hx. simpl.
  repeat heap_step. eexists; split; [done|]. split.
  - rewrite !lookup_alter_eq, Hx. done.
  - intros a Ha. by rewrite !lookup_alter_ne.
Qed.

Lemma list_reverse_loop h l xs fuel :
  repr h l xs → (length xs < fuel)%nat →
  ∃ h', loop fuel (λ '(h, e),
          t ← list_end l;
          if e =? t then Ok (inr h)
          else h ← swap_links h e; e ← get_prev h e; Ok (inl (h, e)))
          (h, hd (tail_of l) xs) = Ok h' ∧
        seg h' (tail_of l) (rev xs) (head_of l) ∧ ∀ a, a ∉ xs → h' !! a = h !! a.
Proof.
  intros Hr Hf. pose proof (repr_NoDup _ _ _ Hr) as Hnd.
  edestruct (loop_total
    (λ n '(h', e), ∃ D R, xs = D ++ R ∧ e = hd (tail_of l) R ∧ n = length R ∧
       seg h' (List.last D (head_of l)) R (tail_of l) ∧
       seg h' (hd (tail_of l) R) (rev D) (head_of l) ∧ ∀ a, a ∉ xs → h' !! a = h !! a)
    (λ h', seg h' (tail_of l) (rev xs) (head_of l) ∧ ∀ a, a ∉ xs → h' !! a = h !! a))
    as (h' & Hl & Hq); [| |exact Hf|exists h'; split; [exact Hl|exact Hq]].
  - intros n [h' e] (D & R & -> & -> & -> & HR & HD & Hfr). erewrite repr_end by done. simpl.
    destruct R as [|x R]; simpl.
    { rewrite Z.eqb_refl. eexists; split; [done|]. simpl. rewrite app_nil_r in *. done. }
    erewrite repr_ne_tail by done. destruct HR as [Hx HR].
    destruct (swap_links_ok _ _ _ _ Hx) as (h2 & -> & Hx2 & Hfr2). simpl.
    unfold get_prev. rewrite Hx2. simpl. eexists; split; [done|]. simpl.
    exists (length R). split; [lia|]. exists (D ++ [x]), R.
    apply NoDup_app in Hnd as (_ & HD' & HndR). apply NoDup_cons in HndR as [HxR _].
    rewrite <-app_assoc, last_last, rev_app_distr. simpl. rewrite hd_rev.
    split_and!; auto.
    + apply seg_ext with (h := h'); [|done]. intros a Ha. apply Hfr2. by intros ->.
    + apply seg_ext with (h := h'); [|done]. intros a Ha%elem_of_rev'. apply Hfr2.
      intros ->. eapply HD'; [done|by left].
    + intros a Ha. rewrite Hfr2; [auto|]. intros ->. set_solver.
  - exists [], xs. split_and!; try done. destruct Hr as (_ & _ & Hs).
    unfold cells in Hs. apply seg_cons in Hs as [_ Hs]. apply seg_app in Hs as [Hs _]. done.
Qed.

Lemma swap_next_prev_ok h a b n p :
  get_next h a = Ok n → get_prev h b = Ok p →
  swap_next_prev h a b = Ok (alter (wprev n) b (alter (wnext p) a h)).
Proof.
  intros Hn Hp. unfold swap_next_prev. rewrite Hn. simpl. rewrite Hp. simpl.
  unfold get_next, get_prev in *.
  destruct (h !! a) eqn:Ha; [|done]. destruct (h !! b) eqn:Hb; [|done].
  rewrite set_next_ok by done. simpl. rewrite set_prev_ok; [done|]. by rewrite alter_alloc.
Qed.

Lemma rev_nil_inv {A} (xs : list A) : xs ≠ [] → rev xs ≠ [].
Proof. intros Hne E. apply Hne. by rewrite <-(rev_involutive xs), E. Qed.

Lemma list_reverse_repr h l xs fuel :
  repr h l xs → (length xs < fuel)%nat →
  ∃ h', list_reverse fuel h l = Ok h' ∧ repr h' l (rev xs) ∧
        ∀ a, a ∉ cells l xs → h' !! a = h !! a.
Proof.
  intros Hr Hf. unfold list_reverse. erewrite repr_empty by done. rewrite bind_ret.
  destruct (decide (xs = [])) as [->|Hne].
  { simpl. by exists h. }
  rewrite bool_decide_false by done. erewrite repr_begin by done. rewrite bind_ret.
  destruct (list_reverse_loop _ _ _ _ Hr Hf) as (h1 & -> & Hs1 & Hfr1). simpl.
  destruct Hr as (Hnd & Hnn & Hs). unfold cells in Hs.
  apply seg_cons in Hs as [Hh Hs]. apply seg_app in Hs as [_ Ht%seg_cell].
  rewrite hd_app, (hd_indep _ NULL xs) in Hh by done.
  rewrite (last_indep _ NULL xs) in Ht by done.
  pose proof Hnd as Hnd'. unfold cells in Hnd'. rewrite NoDup_cons, NoDup_app in Hnd'.
  destruct Hnd' as (Hlx & Hndx & Htx & _).
  assert (head_of l ∉ xs) as Hl1 by set_solver. assert (tail_of l ∉ xs) as Ht1 by set_solver.
  assert (head_of l ≠ tail_of l) as Hlt by set_solver.
  rewrite <-(Hfr1 _ Hl1) in Hh. rewrite <-(Hfr1 _ Ht1) in Ht.
  pose proof (rev_nil_inv _ Hne) as Hne'.
  pose proof (hd_in NULL xs Hne) as Hhx. pose proof (last_in NULL xs Hne) as Hlx'.
  erewrite swap_next_prev_ok; [|by unfold get_next; rewrite Hh|by unfold get_prev; rewrite Ht].
  simpl. set (h2 := alter _ _ _).
  assert (h2 !! head_of l = Some (mkElem NULL (List.last xs NULL))) as Hh2.
  { unfold h2. by rewrite lookup_alter_ne, lookup_alter_eq, Hh. }
  assert (h2 !! tail_of l = Some (mkElem (hd NULL xs) NULL)) as Ht2.
  { unfold h2. by rewrite lookup_alter_eq, lookup_alter_ne, Ht. }
  assert (seg h2 (tail_of l) (rev xs) (head_of l)) as Hs2.
  { do 2 (apply seg_alter_notin; [by intros ?%elem_of_rev'|]). done. }
  unfold get_next at 1, get_prev at 1. rewrite Hh2. simpl. rewrite Ht2. simpl.
  rewrite <-(hd_rev NULL), <-(last_rev NULL).
  rewrite (swap_next_prev_ok h2 _ _ (head_of l) (tail_of l));
    [|by eapply get_next_last|by eapply get_prev_first].
  eexists; split; [done|].
  assert (NoDup (rev xs)) as Hndr by by rewrite <-(Permutation_rev xs).
  assert (List.last (rev xs) NULL ∈ xs) as Hin1 by by rewrite last_rev.
  assert (hd NULL (rev xs) ∈ xs) as Hin2 by by rewrite hd_rev.
  split.
  - unfold repr, cells, chain. rewrite <-(Permutation_rev xs) at 1 2. split_and!; [done|done|].
    apply seg_cons. rewrite seg_app, seg_cell, hd_app.
    rewrite (hd_indep (hd NULL [tail_of l]) NULL (rev xs)) by done.
    rewrite (last_indep (head_of l) NULL (rev xs)) by done.
    rewrite 4!lookup_alter_ne, Hh2, Ht2 by congruence.
    split_and!; [by rewrite hd_rev| |by rewrite last_rev].
    eapply seg_relink_first; [done|done|]. by eapply seg_relink_last.
  - intros a Ha. unfold cells in Ha. unfold h2.
    rewrite !lookup_alter_ne by (intros E; rewrite E in *; set_solver).
    apply Hfr1. set_solver.
Qed.

(** ** Properties *)

(** C5: list_push_front(), list_push_back(), list_pop_front(), list_pop_back(),
    list_size() and list_empty() act on the elements in memory as a double-ended
    queue acts on a sequence: on a list that holds [xs] each of them returns
    without a failed assertion or a wild access, gives the expected sequence and
    leaves all memory outside the list as it was; popping an empty list is a
    failed assertion. *)
Theorem list_deque_refines h l xs :
  repr h l xs →
  (∀ e, fresh_elem h l xs e →
     ∃ h1 h2, list_push_front h l e = Ok h1 ∧ repr h1 l (e :: xs) ∧
              list_push_back h l e = Ok h2 ∧ repr h2 l (xs ++ [e]) ∧
              ∀ a, a ∉ e :: cells l xs → h1 !! a = h !! a ∧ h2 !! a = h !! a) ∧
  (if decide (xs = []) then list_pop_front h l = Panic ∧ list_pop_back h l = Panic
   else ∃ h1 h2, list_pop_front h l = Ok (h1, hd NULL xs) ∧ repr h1 l (tail xs) ∧
                 list_pop_back h l = Ok (h2, List.last xs NULL) ∧
                 repr h2 l (removelast xs) ∧
                 ∀ a, a ∉ cells l xs → h1 !! a = h !! a ∧ h2 !! a = h !! a) ∧
  list_empty h l = Ok (bool_decide (xs = [])) ∧
  ∀ fuel, (length xs < fuel)%nat → list_size fuel h l = Ok (u32 (Z.of_nat (length xs))).
Proof.
  intros Hr. split_and!.
  - intros e He. destruct (list_push_front_repr _ _ _ _ Hr He) as (h1 & ? & ? & ?).
    destruct (list_push_back_repr _ _ _ _ Hr He) as (h2 & ? & ? & ?).
    exists h1, h2. split_and!; auto.
  - case_decide as Hxs.
    + subst xs. unfold list_pop_front, list_pop_back, list_front, list_back.
      by rewrite (repr_empty _ _ _ Hr).
    + destruct xs as [|x xs]; [done|].
      destruct (list_pop_front_repr _ _ _ _ Hr) as (h1 & ? & ? & ? & Hf1).
      rewrite (app_removelast_last NULL Hxs) in Hr.
      destruct (list_pop_back_repr _ _ _ _ Hr) as (h2 & ? & ? & ? & Hf2).
      rewrite (app_removelast_last NULL Hxs).
      exists h1, h2. rewrite last_last, removelast_last. split_and!; auto.
      * by rewrite <-(app_removelast_last NULL Hxs).
      * by rewrite <-(app_removelast_last NULL Hxs).
      * intros a Ha. split; [apply Hf1|apply Hf2].
        -- rewrite <-(app_removelast_last NULL Hxs) in Ha. unfold cells in *. set_solver.
        -- unfold cells in *. set_solver.
  - by apply repr_empty.
  - intros fuel. by apply list_size_repr.
Qed.

(** A concrete list for the witnesses: headers at 96 and 104, elements at 200 and
    300, and an unused element at 400. *)
Definition demo_heap : heap :=
  list_to_map [(96, mkElem 0 200); (200, mkElem 96 300); (300, mkElem 200 104);
               (104, mkElem 300 0); (400, mkElem 7 9)].

Lemma demo_repr : repr demo_heap 96 [200; 300].
Proof.
  split_and!; [by apply (bool_decide_unpack _)|by apply (bool_decide_unpack _)|].
  by vm_compute.
Qed.

Lemma demo_fresh : fresh_elem demo_heap 96 [200; 300] 400.
Proof. split_and!; [by apply (bool_decide_unpack _)|done|by eexists]. Qed.

Lemma list_deque_refines_witness :
  repr demo_heap 96 [200; 300] ∧
  ∃ h1, list_pop_front demo_heap 96 = Ok (h1, 200) ∧ repr h1 96 [300].
Proof.
  split; [exact demo_repr|].
  destruct (list_deque_refines demo_heap 96 [200; 300] demo_repr) as (_ & H & _).
  simpl in H. destruct H as (h1 & h2 & H1 & H2 & _). exists h1. split; assumption.
Defined.

(** List_insert() followed by list_remove() of the same element is the
    identity on memory: every pointer of every other element is restored, and the
    element after the removed one is returned. *)
Theorem list_insert_remove_roundtrip h l D R e :
  repr h l (D ++ R) → fresh_elem h l (D ++ R) e →
  ∃ h1 h2, list_insert h (hd (tail_of l) R) e = Ok h1 ∧ repr h1 l (D ++ e :: R) ∧
           list_remove h1 e = Ok (h2, hd (tail_of l) R) ∧
           ∀ a, a ≠ e → h2 !! a = h !! a.
Proof.
  intros Hr He. destruct (list_insert_repr _ _ _ _ _ Hr He) as (h1 & Hi & Hr1 & Hf1).
  destruct (list_remove_repr _ _ _ _ _ Hr1) as (h2 & Hrm & Hr2 & _ & Hf2).
  exists h1, h2. split_and!; auto. intros a Ha.
  destruct (decide (a ∈ cells l (D ++ R))) as [Hin|Hout].
  - eapply seg_det; [apply Hr|apply Hr2|done].
  - rewrite Hf2, Hf1; set_solver.
Qed.

Lemma list_insert_remove_roundtrip_witness :
  repr demo_heap 96 ([200] ++ [300]) ∧ fresh_elem demo_heap 96 ([200] ++ [300]) 400 ∧
  ∃ h1 h2, list_insert demo_heap 300 400 = Ok h1 ∧ repr h1 96 [200; 400; 300] ∧
           list_remove h1 400 = Ok (h2, 300).
Proof.
  split; [exact demo_repr|]. split; [exact demo_fresh|].
  destruct (list_insert_remove_roundtrip demo_heap 96 [200] [300] 400 demo_repr demo_fresh)
    as (h1 & h2 & H1 & H2 & H3 & _).
  exists h1, h2. split; [exact H1|]. split; [exact H2|exact H3].
Defined.

(** List_reverse() terminates and reverses the list in place, touching no
    other memory; a second call restores every pointer. *)
Theorem list_reverse_involutive h l xs fuel :
  repr h l xs → (length xs < fuel)%nat →
  ∃ h1 h2, list_reverse fuel h l = Ok h1 ∧ repr h1 l (rev xs) ∧
           list_reverse fuel h1 l = Ok h2 ∧
           (∀ a, a ∉ cells l xs → h1 !! a = h !! a) ∧ ∀ a, h2 !! a = h !! a.
Proof.
  intros Hr Hf. destruct (list_reverse_repr _ _ _ _ Hr Hf) as (h1 & H1 & Hr1 & Hf1).
  rewrite <-length_rev in Hf. destruct (list_reverse_repr _ _ _ _ Hr1 Hf) as (h2 & H2 & Hr2 & Hf2).
  rewrite rev_involutive in Hr2. exists h1, h2. split_and!; auto. intros a.
  destruct (decide (a ∈ cells l xs)) as [Hin|Hout].
  - eapply seg_det; [apply Hr|apply Hr2|done].
  - rewrite Hf2; [auto|]. unfold cells in *. by rewrite <-(Permutation_rev xs).
Qed.

Lemma list_reverse_involutive_witness :
  repr demo_heap 96 [200; 300] ∧
  ∃ h1, list_reverse 3 demo_heap 96 = Ok h1 ∧ repr h1 96 [300; 200].
Proof.
  split; [exact demo_repr|].
  destruct (list_reverse_involutive demo_heap 96 [200; 300] 3 demo_repr) as (h1 & h2 & H1 & H2 & _).
  - simpl. lia.
  - exists h1. split; [exact H1|exact H2].
Defined.
