(* ===== verification/ListOrder.v ===== *)
(** * Ordered list operations: list_sort() and its relatives in lib/kernel/list.c

    The definitions are in LinkedList.v.  Here each of them is related to a
    function on sequences, and the natural merge sort of list_sort() is shown to
    terminate and to sort stably. *)
From S2P Require Import Prelude LinkedList.

Open Scope Z_scope.

(** A [list_less_func] that is a strict weak order. *)
Class LessOrder (less : loc → loc → bool) : Prop := {
  less_asym a b : less a b = true → less b a = false;
  less_cotrans a b c : less b a = false → less c b = false → less c a = false;
}.

Section order.
Context (less : loc → loc → bool).
Implicit Types (h : heap) (xs ys D R : list loc).

(** "[a] may precede [b]". *)
Definition le (a b : loc) : Prop := less b a = false.

#[export] Instance le_dec a b : Decision (le a b) := decide (less b a = false).

Fixpoint sortedb xs : bool :=
  match xs with
  | x :: ((y :: _) as t) => negb (less y x) && sortedb t
  | _ => true
  end.

Lemma sortedb_spec xs : sortedb xs = true ↔ Sorted le xs.
Proof.
  induction xs as [|x [|y xs] IH]; [by split; auto..|].
  change (sortedb (x :: y :: xs)) with (negb (less y x) && sortedb (y :: xs)).
  rewrite andb_true_iff, IH, negb_true_iff. split.
  - intros [? ?]. constructor; [done|]. by constructor.
  - intros Hs. inversion Hs as [|? ? ? Hh]; subst. inversion Hh; subst. done.
Qed.

(** ** is_sorted() and find_end_of_run() *)

Lemma chain_app_ne h A x R b B :
  chain h (A ++ x :: R ++ b :: B) → (x =? b) = false.
Proof.
  intros (Hnd & _). apply Z.eqb_neq. intros ->.
  apply NoDup_app in Hnd as (_ & _ & [Hx _]%NoDup_cons). set_solver.
Qed.

Lemma is_sorted_loop h b B R x A fuel :
  chain h (A ++ x :: R ++ b :: B) → (length R < fuel)%nat →
  loop fuel (λ a,
    a ← list_next h a;
    if a =? b then Ok (inr true)
    else p ← list_prev h a;
         if less a p then Ok (inr false) else Ok (inl a)) x = Ok (sortedb (x :: R)).
Proof.
  revert x A fuel. induction R as [|y R IH]; intros x A fuel Hc Hf;
    (destruct fuel as [|fuel]; [simpl in Hf; lia|]); cbn [loop].
  - erewrite (chain_next h A x b B) by done. rewrite bind_ret, Z.eqb_refl. done.
  - erewrite (chain_next h A x y) by done. rewrite bind_ret.
    rewrite (chain_app_ne h (A ++ [x]) y R b B) by by rewrite <-app_assoc.
    erewrite chain_prev by done. rewrite bind_ret. cbn [sortedb].
    destruct (less y x); [done|]. rewrite bind_ret.
    apply (IH y (A ++ [x])); [by rewrite <-app_assoc|simpl in Hf; lia].
Qed.

Lemma is_sorted_chain h A xs b B fuel :
  chain h (A ++ xs ++ b :: B) → (length xs < fuel)%nat →
  is_sorted less fuel h (hd b xs) b = Ok (sortedb xs).
Proof.
  intros Hc Hf. unfold is_sorted. destruct xs as [|x R]; simpl hd.
  - by rewrite Z.eqb_refl.
  - erewrite chain_app_ne by done. eapply is_sorted_loop; [done|simpl in Hf; lia].
Qed.

(** The longest run that starts with [x], and what follows it. *)
Fixpoint run_split (x : loc) ys : list loc * list loc :=
  match ys with
  | [] => ([], [])
  | y :: ys' =>
      if less y x then ([], y :: ys')
      else let '(r, t) := run_split y ys' in (y :: r, t)
  end.

Lemma run_split_app x ys : (run_split x ys).1 ++ (run_split x ys).2 = ys.
Proof.
  revert x. induction ys as [|y ys IH]; intros x; [done|]. simpl.
  destruct (less y x); [done|]. specialize (IH y). destruct (run_split y ys). simpl in *.
  by rewrite IH.
Qed.

Lemma run_split_sorted x ys : sortedb (x :: (run_split x ys).1) = true.
Proof.
  revert x. induction ys as [|y ys IH]; intros x; [done|]. simpl.
  destruct (less y x) eqn:E; [done|]. specialize (IH y). destruct (run_split y ys). simpl in *.
  by rewrite E.
Qed.

(** The run stops because the next element is smaller than its last. *)
Lemma run_split_stop x ys y t :
  (run_split x ys).2 = y :: t → less y (List.last (run_split x ys).1 x) = true.
Proof.
  revert x. induction ys as [|z ys IH]; intros x; [done|]. simpl.
  destruct (less z x) eqn:E; [by intros [= -> ->]|]. specialize (IH z).
  destruct (run_split z ys) as [r s]. simpl snd in *. simpl fst in *. intros Hs.
  rewrite last_cons_default. auto.
Qed.

Lemma find_end_of_run_loop h b B R x A fuel :
  chain h (A ++ x :: R ++ b :: B) → (length R < fuel)%nat →
  loop fuel (λ a,
    a ← list_next h a;
    if a =? b then Ok (inr a)
    else p ← list_prev h a;
         if less a p then Ok (inr a) else Ok (inl a)) x
  = Ok (hd b (run_split x R).2).
Proof.
  revert x A fuel. induction R as [|y R IH]; intros x A fuel Hc Hf;
    (destruct fuel as [|fuel]; [simpl in Hf; lia|]); cbn [loop].
  - erewrite (chain_next h A x b B) by done. rewrite bind_ret, Z.eqb_refl. done.
  - erewrite (chain_next h A x y) by done. rewrite bind_ret.
    rewrite (chain_app_ne h (A ++ [x]) y R b B) by by rewrite <-app_assoc.
    erewrite chain_prev by done. rewrite bind_ret. cbn [run_split].
    destruct (less y x); [done|]. rewrite bind_ret.
    rewrite (IH y (A ++ [x])); [|by rewrite <-app_assoc|simpl in Hf; lia].
    by destruct (run_split y R).
Qed.

Lemma find_end_of_run_chain h A x R b B fuel :
  chain h (A ++ x :: R ++ b :: B) → (length R < fuel)%nat →
  find_end_of_run less fuel h x b = Ok (hd b (run_split x R).2).
Proof.
  intros Hc Hf. unfold find_end_of_run.
  assert (x ≠ NULL ∧ b ≠ NULL) as [Hx%Z.eqb_neq Hb%Z.eqb_neq]
    by (split; eapply chain_notnull; set_solver).
  rewrite Hx, Hb, (chain_app_ne _ _ _ _ _ _ Hc). simpl ASSERT. rewrite !bind_ret.
  eapply find_end_of_run_loop; eassumption.
Qed.

(** ** inplace_merge() *)

(** Merging on sequences: an element of the second run goes first only when it
    is smaller. *)
Definition merge_runs : list loc → list loc → list loc := list_merge le.

(** The neighbours of [y] in a chain where [Y] follows it. *)
Lemma next_in_runs h P y Y b Q :
  chain h (P ++ y :: Y ++ b :: Q) → list_next h y = Ok (hd b Y).
Proof. destruct Y; [|simpl]; intros Hc; by apply chain_next in Hc. Qed.

Lemma prev_in_runs h P y Y b Q :
  chain h (P ++ y :: Y ++ b :: Q) → list_prev h (hd b Y) = Ok y.
Proof. destruct Y; [|simpl]; intros Hc; by apply chain_prev in Hc. Qed.

Lemma inplace_merge_loop b1 Q n X Y P h fuel :
  (length X + length Y ≤ n)%nat → (n < fuel)%nat → P ≠ [] →
  chain h (P ++ X ++ Y ++ b1 :: Q) →
  ∃ h', loop fuel (λ '(h, a0, a1b0),
          if negb (a0 =? a1b0) && negb (a1b0 =? b1) then
            if negb (less a1b0 a0) then
              a0 ← list_next h a0; Ok (inl (h, a0, a1b0))
            else
              a1b0 ← list_next h a1b0;
              p ← list_prev h a1b0;
              h ← list_splice h a0 p a1b0;
              Ok (inl (h, a0, a1b0))
          else Ok (inr h)) (h, hd (hd b1 Y) X, hd b1 Y) = Ok h' ∧
        chain h' (P ++ merge_runs X Y ++ b1 :: Q) ∧
        ∀ a, a ∉ P ++ X ++ Y ++ b1 :: Q → h' !! a = h !! a.
Proof.
  revert X Y P h fuel. induction n as [|n IH]; intros X Y P h fuel Hn Hf HP Hc;
    (destruct fuel as [|fuel]; [lia|]); cbn [loop].
  { destruct X; [|simpl in Hn; lia]. destruct Y; [|simpl in Hn; lia].
    simpl hd. rewrite Z.eqb_refl. simpl andb. exists h. done. }
  destruct X as [|x X].
  { simpl hd. rewrite Z.eqb_refl. simpl andb. exists h.
    split_and!; [done| |done]. by destruct Y. }
  destruct Y as [|y Y].
  { simpl hd. rewrite (Z.eqb_refl b1), andb_false_r. exists h. done. }
  simpl hd. rewrite (chain_app_ne h P x X y (Y ++ b1 :: Q)) by done.
  rewrite (chain_app_ne h (P ++ x :: X) y Y b1 Q) by by rewrite <-app_assoc.
  simpl andb. destruct (less y x) eqn:Hlt; simpl negb; cbv iota.
  - assert (list_next h y = Ok (hd b1 Y)) as ->.
    { apply (next_in_runs h (P ++ x :: X)) with (Q := Q).
      by rewrite <-app_assoc. }
    rewrite bind_ret.
    assert (list_prev h (hd b1 Y) = Ok y) as ->.
    { apply (prev_in_runs h (P ++ x :: X)) with (Q := Q).
      by rewrite <-app_assoc. }
    rewrite bind_ret.
    destruct (list_splice_chain h P (x :: X) [y] (Y ++ b1 :: Q)) as (h1 & Hsp & Hc1 & Hfr1);
      [done|done|done|by destruct Y|done|].
    rewrite hd_app in Hsp. simpl hd in Hsp. rewrite Hsp, bind_ret, bind_ret.
    destruct (IH (x :: X) Y (P ++ [y]) h1 fuel) as (h' & Hl & Hc' & Hfr');
      [simpl in *; lia|lia|by apply app_ne_r|by rewrite <-app_assoc|].
    exists h'. split_and!; [exact Hl| |intros a Ha; rewrite Hfr', Hfr1; set_solver].
    unfold merge_runs in *. rewrite list_merge_cons, decide_False by (unfold le; congruence).
    by rewrite <-app_assoc in Hc'.
  - rewrite (next_in_runs h P x X y (Y ++ b1 :: Q)) by done. rewrite bind_ret, bind_ret.
    destruct (IH X (y :: Y) (P ++ [x]) h fuel) as (h' & Hl & Hc' & Hfr');
      [simpl in *; lia|lia|by apply app_ne_r|by rewrite <-app_assoc|].
    exists h'. split_and!; [exact Hl| |intros a Ha; rewrite Hfr'; set_solver].
    unfold merge_runs in *. rewrite list_merge_cons, decide_True by done.
    by rewrite <-app_assoc in Hc'.
Qed.

Lemma inplace_merge_chain h P X Y b1 Q fuel :
  P ≠ [] → X ≠ [] → Y ≠ [] → sortedb X = true → sortedb Y = true →
  chain h (P ++ X ++ Y ++ b1 :: Q) → (length X + length Y < fuel)%nat →
  ∃ h', inplace_merge less fuel h (hd NULL X) (hd NULL Y) b1 = Ok h' ∧
        chain h' (P ++ merge_runs X Y ++ b1 :: Q) ∧
        ∀ a, a ∉ P ++ X ++ Y ++ b1 :: Q → h' !! a = h !! a.
Proof.
  intros HP HX HY HsX HsY Hc Hf. unfold inplace_merge.
  assert (hd NULL X ≠ NULL) as E1%Z.eqb_neq
    by (eapply chain_notnull; [done|pose proof (hd_in NULL X HX); set_solver]).
  assert (hd NULL Y ≠ NULL) as E2%Z.eqb_neq
    by (eapply chain_notnull; [done|pose proof (hd_in NULL Y HY); set_solver]).
  assert (b1 ≠ NULL) as E3%Z.eqb_neq by (eapply chain_notnull; [done|set_solver]).
  rewrite E1, E2, E3. simpl ASSERT. rewrite !bind_ret.
  destruct Y as [|y Y]; [done|]. simpl hd.
  rewrite (hd_indep NULL y X) by done.
  rewrite (is_sorted_chain h P X y (Y ++ b1 :: Q)), HsX by first [done|simpl in Hf; lia].
  simpl ASSERT. rewrite !bind_ret.
  pose proof (is_sorted_chain h (P ++ X) (y :: Y) b1 Q fuel) as Es. simpl hd in Es.
  rewrite Es, HsY by first [by rewrite <-?app_assoc|simpl in *; lia]. clear Es.
  simpl ASSERT. rewrite !bind_ret.
  apply (inplace_merge_loop b1 Q _ X (y :: Y) P h fuel (Nat.le_refl _)); done.
Qed.

(** ** Runs

    The number of maximal nondecreasing runs of a sequence. *)
Fixpoint descents (x : loc) ys : nat :=
  match ys with
  | [] => 0
  | y :: ys' => ((if less y x then 1 else 0) + descents y ys')%nat
  end.

Definition nruns xs : nat :=
  match xs with [] => 0%nat | x :: ys => S (descents x ys) end.

Lemma descents_app x ys zs :
  (descents x (ys ++ zs) ≤ descents x ys + nruns zs)%nat.
Proof.
  revert x. induction ys as [|y ys IH]; intros x; simpl.
  - destruct zs as [|z zs]; simpl; [lia|]. destruct (less z x); lia.
  - specialize (IH y). lia.
Qed.

Lemma nruns_app xs ys : (nruns (xs ++ ys) ≤ nruns xs + nruns ys)%nat.
Proof. destruct xs as [|x xs]; simpl; [lia|]. pose proof (descents_app x xs ys). lia. Qed.

Lemma nruns_sorted xs : (nruns xs ≤ 1)%nat ↔ sortedb xs = true.
Proof.
  destruct xs as [|x xs]; [simpl; split; [done|lia]|].
  revert x. induction xs as [|y xs IH]; intros x; [simpl; split; [done|lia]|].
  change (sortedb (x :: y :: xs)) with (negb (less y x) && sortedb (y :: xs)).
  specialize (IH y). simpl in *. destruct (less y x); simpl; [split; [lia|done]|].
  rewrite <-IH. lia.
Qed.

Lemma nruns_length xs : (nruns xs ≤ length xs)%nat.
Proof.
  destruct xs as [|x xs]; simpl; [lia|]. apply le_n_S.
  revert x. induction xs as [|y xs IH]; intros x; simpl; [lia|].
  specialize (IH y). destruct (less y x); lia.
Qed.

Lemma nruns_split x ys : nruns (x :: ys) = S (nruns (run_split x ys).2).
Proof.
  revert x. induction ys as [|y ys IH]; intros x; [done|]. simpl in *.
  destruct (less y x); simpl; [done|]. specialize (IH y).
  destruct (run_split y ys). simpl in *. lia.
Qed.

(** ** Stability *)

Definition eqv (z a : loc) : bool := negb (less a z) && negb (less z a).

(** [zs] is a rearrangement of [xs] that keeps equivalent elements in order. *)
Definition stable_perm xs zs : Prop :=
  zs ≡ₚ xs ∧ ∀ z, List.filter (eqv z) zs = List.filter (eqv z) xs.

#[export] Instance stable_perm_refl : Reflexive stable_perm.
Proof. by intros xs. Qed.

#[export] Instance stable_perm_trans : Transitive stable_perm.
Proof.
  intros xs ys zs [Hp1 Hf1] [Hp2 Hf2]. split; [by rewrite Hp2|].
  intros z. by rewrite Hf2.
Qed.

Lemma stable_perm_app xs xs' ys ys' :
  stable_perm xs xs' → stable_perm ys ys' → stable_perm (xs ++ ys) (xs' ++ ys').
Proof.
  intros [Hp1 Hf1] [Hp2 Hf2]. split; [by rewrite Hp1, Hp2|].
  intros z. by rewrite !List.filter_app, Hf1, Hf2.
Qed.

Section laws.
Context `{!LessOrder less}.

#[local] Instance le_total : Total le.
Proof.
  intros a b. unfold le. destruct (less b a) eqn:E; [right|by left].
  by apply less_asym.
Qed.

#[local] Instance le_trans : Transitive le.
Proof. intros a b c. apply less_cotrans. Qed.

Lemma sorted_head x ys y : sortedb (x :: ys) = true → y ∈ ys → le x y.
Proof.
  intros Hs%sortedb_spec Hy. apply Sorted_StronglySorted in Hs; [|apply _].
  inversion Hs as [|? ? _ Hf]; subst. rewrite Forall_forall in Hf. auto.
Qed.

(** Merging two sorted runs keeps equivalent elements in order. *)
Lemma merge_runs_stable X Y :
  sortedb X = true → stable_perm (X ++ Y) (merge_runs X Y).
Proof.
  intros HX. split; [apply merge_Permutation|]. intros z. rewrite List.filter_app.
  unfold merge_runs. revert Y HX. induction X as [|x X IHX]; intros Y HX.
  { by rewrite list_merge_nil_l. }
  induction Y as [|y Y IHY]; [by rewrite list_merge_nil_r, app_nil_r|].
  rewrite list_merge_cons. case_decide as Hle.
  - assert (sortedb X = true) as HX' by (destruct X; [done|by apply (andb_prop (negb _)) in HX as [_ ?]]).
    cbn [List.filter]. destruct (eqv z x); cbn [app]; by rewrite IHX.
  - change (List.filter (eqv z) (y :: ?l))
      with (if eqv z y then y :: List.filter (eqv z) l else List.filter (eqv z) l).
    rewrite IHY. destruct (eqv z y) eqn:Ey; [|done].
    assert (∀ a, a ∈ x :: X → eqv z a = false) as Hno.
    { intros a Ha. assert (le x a) as Hxa.
      { apply elem_of_cons in Ha as [->|Ha]; [|by eapply sorted_head].
        unfold le. destruct (less x x) eqn:E; [by apply less_asym in E as E'; congruence|done]. }
      destruct (eqv z a) eqn:Ea; [|done]. exfalso. apply Hle.
      unfold eqv in *. rewrite !andb_true_iff, !negb_true_iff in *.
      destruct Ey as [Hyz Hzy], Ea as [Haz Hza]. unfold le in *.
      by apply (less_cotrans _ a); [|apply (less_cotrans _ z)]. }
    enough (List.filter (eqv z) (x :: X) = []) as -> by done.
    clear -Hno. induction (x :: X) as [|a l IH]; [done|]. simpl.
    rewrite Hno by by left. apply IH. intros b Hb. apply Hno. by right.
Qed.

Lemma merge_runs_sorted X Y :
  sortedb X = true → sortedb Y = true → sortedb (merge_runs X Y) = true.
Proof. rewrite !sortedb_spec. apply (Sorted_list_merge le). Qed.

(** ** list_sort() *)

Lemma cells_split l D R :
  cells l (D ++ R) = (head_of l :: D) ++ R ++ [tail_of l].
Proof. unfold cells. by rewrite <-app_assoc. Qed.

Lemma tail_hd (t : loc) xs : ∃ Q, xs ++ [t] = hd t xs :: Q.
Proof. destruct xs; by eexists. Qed.

(** One iteration of a pass: the next two runs are merged, or there is only
    one run left. *)
Lemma sort_pass_step h l D x R1 fuel :
  repr h l (D ++ x :: R1) → (length (D ++ x :: R1) < fuel)%nat →
  let X := x :: (run_split x R1).1 in
  find_end_of_run less fuel h x (tail_of l) = Ok (hd (tail_of l) (run_split x R1).2) ∧
  match (run_split x R1).2 with
  | [] => True
  | y :: T1 =>
      let Y := y :: (run_split y T1).1 in
      find_end_of_run less fuel h y (tail_of l)
      = Ok (hd (tail_of l) (run_split y T1).2) ∧
      ∃ h', inplace_merge less fuel h x y (hd (tail_of l) (run_split y T1).2) = Ok h' ∧
            repr h' l ((D ++ merge_runs X Y) ++ (run_split y T1).2) ∧
            ∀ a, a ∉ cells l (D ++ x :: R1) → h' !! a = h !! a
  end.
Proof.
  intros Hr Hf X. unfold repr in Hr. rewrite cells_split in Hr.
  rewrite length_app in Hf. simpl length in Hf. split.
  { eapply find_end_of_run_chain with (B := []); [exact Hr|lia]. }
  pose proof (run_split_app x R1) as E1. pose proof (run_split_sorted x R1) as S1.
  destruct (run_split x R1) as [r1 T]. simpl fst in *. simpl snd in *. subst R1.
  destruct T as [|y T1]; [done|]. intros Y. rewrite length_app in Hf. simpl length in Hf.
  change ((x :: r1 ++ y :: T1) ++ [tail_of l])
    with (x :: (r1 ++ y :: T1) ++ [tail_of l]) in Hr.
  rewrite <-(app_assoc r1) in Hr. split.
  { eapply (find_end_of_run_chain h ((head_of l :: D) ++ x :: r1) y T1 (tail_of l) []);
      [by rewrite <-app_assoc|lia]. }
  pose proof (run_split_app y T1) as E2. pose proof (run_split_sorted y T1) as S2.
  unfold Y in *. clear Y.
  destruct (run_split y T1) as [r2 T']. simpl fst in *. simpl snd in *. subst T1.
  rewrite length_app in Hf. destruct (tail_hd (tail_of l) T') as [Q HQ].
  assert ((head_of l :: D) ++ x :: r1 ++ (y :: r2 ++ T') ++ [tail_of l] =
          (head_of l :: D) ++ X ++ (y :: r2) ++ hd (tail_of l) T' :: Q) as Eq.
  { rewrite <-HQ. unfold X. by rewrite <-!app_comm_cons, <-!app_assoc. }
  rewrite Eq in Hr.
  destruct (inplace_merge_chain h (head_of l :: D) X (y :: r2) (hd (tail_of l) T') Q fuel)
    as (h' & Hm & Hc' & Hfr); try done; [unfold X; simpl; lia|].
  exists h'. split; [exact Hm|]. split.
  - unfold repr, cells. by rewrite <-!app_assoc, HQ.
  - intros a Ha. apply Hfr. rewrite <-Eq. rewrite cells_split in Ha.
    by rewrite <-!app_comm_cons, <-!app_assoc in Ha.
Qed.

(** The invariant of a pass: [D] is done and holds [k] runs at most, [R] is
    left, and two input runs were used for each output run. *)
Definition pass_inv h0 l xs (n : nat) (s : heap * loc * Z) : Prop :=
  let '(h, a0, cnt) := s in
  ∃ D R k, a0 = hd (tail_of l) R ∧ cnt = Z.of_nat k ∧ n = length R ∧
    repr h l (D ++ R) ∧ stable_perm xs (D ++ R) ∧
    (nruns D ≤ k)%nat ∧ (2 * k + nruns R ≤ nruns xs)%nat ∧
    ∀ a, a ∉ cells l xs → h !! a = h0 !! a.

Definition pass_post h0 l xs (r : heap * Z) : Prop :=
  let '(h, cnt) := r in
  ∃ zs k, cnt = Z.of_nat k ∧ repr h l zs ∧ stable_perm xs zs ∧
    (nruns zs ≤ k)%nat ∧ (2 * k ≤ nruns xs + 1)%nat ∧
    ∀ a, a ∉ cells l xs → h !! a = h0 !! a.

Lemma cells_perm l xs zs a : zs ≡ₚ xs → a ∉ cells l xs → a ∉ cells l zs.
Proof. unfold cells. intros ->. done. Qed.

Lemma run_split_length x ys :
  (length (run_split x ys).2 ≤ length ys)%nat.
Proof. pose proof (run_split_app x ys) as E. rewrite <-E at 2. rewrite length_app. lia. Qed.

Lemma sort_pass_repr h l xs fuel :
  repr h l xs → (length xs < fuel)%nat → Z.of_nat (length xs) < 4294967296 →
  ∃ r, sort_pass less fuel h l = Ok r ∧ pass_post h l xs r.
Proof.
  intros Hr Hf Hsz. unfold sort_pass. erewrite repr_begin by done. rewrite bind_ret.
  eapply (loop_total (pass_inv h l xs)) with (n := length xs); [| |exact Hf].
  2:{ exists [], xs, 0%nat. simpl. split_and!; auto; [reflexivity|lia..]. }
  intros n [[h1 a0] cnt] (D & R & k & -> & -> & -> & Hr1 & Hst & HD & HR & Hfr).
  erewrite repr_end by done. rewrite bind_ret.
  pose proof (nruns_length xs) as Hnl.
  destruct R as [|x R1]; simpl hd.
  { rewrite Z.eqb_refl. eexists; split; [done|]. exists D, k.
    rewrite app_nil_r in *. simpl in HR. split_and!; auto; lia. }
  erewrite repr_ne_tail by done.
  assert (length (D ++ x :: R1) = length xs) as Hlen by by rewrite (proj1 Hst).
  destruct (sort_pass_step h1 l D x R1 fuel) as [Hfe Hstep]; [done|lia|].
  rewrite Hfe, bind_ret. clear Hfe.
  rewrite nruns_split in HR. rewrite u32_small by lia.
  pose proof (run_split_app x R1) as E1. pose proof (run_split_sorted x R1) as S1.
  pose proof (run_split_length x R1) as L1.
  destruct (run_split x R1) as [r1 T]. cbn [fst snd] in *.
  destruct T as [|y T1]; simpl hd.
  { rewrite Z.eqb_refl. eexists; split; [done|]. rewrite app_nil_r in E1. subst R1.
    exists (D ++ x :: r1), (S k). split_and!; auto; [lia| |simpl in HR; lia].
    pose proof (nruns_app D (x :: r1)). apply nruns_sorted in S1. lia. }
  cbv zeta in Hstep. rewrite nruns_split in HR.
  pose proof (run_split_app y T1) as E2. pose proof (run_split_sorted y T1) as S2.
  pose proof (run_split_length y T1) as L2.
  destruct (run_split y T1) as [r2 T']. cbn [fst snd] in *. subst R1 T1.
  rewrite (repr_ne_tail h1 l (D ++ x :: r1) y (r2 ++ T')) by by rewrite <-app_assoc.
  destruct Hstep as (-> & h2 & Hm & Hr2 & Hfr2). rewrite bind_ret, Hm, bind_ret.
  eexists; split; [done|]. exists (length T'). simpl length in *.
  split; [rewrite !length_app in *; simpl in *; lia|].
  exists (D ++ merge_runs (x :: r1) (y :: r2)), T', (S k).
  split_and!; auto; [lia| | |lia|].
  - etrans; [exact Hst|]. rewrite <-app_assoc. apply stable_perm_app; [done|].
    change (x :: r1 ++ y :: r2 ++ T') with ((x :: r1) ++ (y :: r2) ++ T').
    rewrite app_assoc. apply stable_perm_app; [|done]. by apply merge_runs_stable.
  - pose proof (nruns_app D (merge_runs (x :: r1) (y :: r2))).
    pose proof (merge_runs_sorted _ _ S1 S2) as S3%nruns_sorted. lia.
  - intros a Ha. rewrite Hfr2; [auto|]. eapply cells_perm; [apply Hst|done].
Qed.

Lemma list_sort_repr h l xs fuel :
  repr h l xs → (length xs < fuel)%nat → Z.of_nat (length xs) < 4294967296 →
  ∃ h' zs, list_sort less fuel h l = Ok h' ∧ repr h' l zs ∧
    stable_perm xs zs ∧ StronglySorted le zs ∧
    ∀ a, a ∉ cells l xs → h' !! a = h !! a.
Proof.
  intros Hr Hf Hsz. unfold list_sort.
  pose proof (repr_notnull _ _ _ Hr) as Hl%Z.eqb_neq. rewrite Hl. simpl ASSERT.
  rewrite bind_ret. pose proof (nruns_length xs) as Hnl.
  edestruct (loop_total
    (λ n h1, ∃ ys, n = nruns ys ∧ repr h1 l ys ∧ stable_perm xs ys ∧
                   ∀ a, a ∉ cells l xs → h1 !! a = h !! a)
    (λ h1, ∃ zs, repr h1 l zs ∧ stable_perm xs zs ∧ sortedb zs = true ∧
                 ∀ a, a ∉ cells l xs → h1 !! a = h !! a)) as (h1 & Hl1 & Hq);
    [| |shelve|rewrite Hl1, bind_ret].
  - intros n h1 (ys & -> & Hr1 & Hst & Hfr).
    assert (length ys = length xs) as Hlen by by rewrite (proj1 Hst).
    destruct (sort_pass_repr h1 l ys fuel) as ([h2 cnt] & -> & zs & k & -> & Hr2 & Hst2 & Hk & Hk2 & Hfr2);
      [done|lia|lia|]. rewrite bind_ret.
    assert (stable_perm xs zs) by by etrans.
    assert (∀ a, a ∉ cells l xs → h2 !! a = h !! a).
    { intros a Ha. rewrite Hfr2; [auto|]. eapply cells_perm; [apply Hst|done]. }
    destruct (Z.ltb_spec 1 (Z.of_nat k)); (eexists; split; [done|]).
    + exists (nruns zs). split; [lia|]. by exists zs.
    + exists zs. split_and!; auto. apply nruns_sorted. lia.
  - exists xs. split_and!; done.
  - destruct Hq as (zs & Hrz & Hst & Hs & Hfr). exists h1, zs.
    erewrite repr_begin, repr_end by done. rewrite !bind_ret.
    rewrite (is_sorted_chain h1 [head_of l] zs (tail_of l) []), Hs;
      [|done|rewrite (proj1 Hst); lia].
    simpl ASSERT. rewrite !bind_ret. split_and!; auto.
    apply Sorted_StronglySorted; [apply _|]. by apply sortedb_spec.
  Unshelve. lia.
Qed.
End laws.

(** ** list_insert_ordered() *)

(** Where [elem] goes: after every leading element it is not less than. *)
Fixpoint insert_point (elem : loc) xs : list loc * list loc :=
  match xs with
  | [] => ([], [])
  | x :: xs' =>
      if less elem x then ([], x :: xs')
      else let '(D, R) := insert_point elem xs' in (x :: D, R)
  end.

Lemma insert_point_app elem xs :
  (insert_point elem xs).1 ++ (insert_point elem xs).2 = xs.
Proof.
  induction xs as [|x xs IH]; [done|]. simpl. destruct (less elem x); [done|].
  destruct (insert_point elem xs). simpl in *. by rewrite IH.
Qed.

Lemma insert_ordered_loop h l elem R D fuel :
  repr h l (D ++ R) → (length R < fuel)%nat →
  loop fuel (λ e,
    t ← list_end l;
    if e =? t then Ok (inr e)
    else if less elem e then Ok (inr e)
    else e ← list_next h e; Ok (inl e)) (hd (tail_of l) R)
  = Ok (hd (tail_of l) (insert_point elem R).2).
Proof.
  revert D fuel. induction R as [|x R IH]; intros D fuel Hr Hf;
    (destruct fuel as [|fuel]; [simpl in Hf; lia|]); cbn [loop];
    rewrite (repr_end_bind _ _ _ _ Hr); simpl hd.
  - by rewrite Z.eqb_refl.
  - erewrite repr_ne_tail by done. cbn [insert_point].
    destruct (less elem x); [done|]. erewrite repr_next by done. rewrite !bind_ret.
    etrans; [apply (IH (D ++ [x])); [by rewrite <-app_assoc|simpl in Hf; lia]|].
    by destruct (insert_point elem R).
Qed.

Lemma list_insert_ordered_repr h l xs elem fuel :
  repr h l xs → fresh_elem h l xs elem → (length xs < fuel)%nat →
  ∃ h', list_insert_ordered less fuel h l elem = Ok h' ∧
        repr h' l ((insert_point elem xs).1 ++ elem :: (insert_point elem xs).2) ∧
        ∀ a, a ∉ elem :: cells l xs → h' !! a = h !! a.
Proof.
  intros Hr He Hf. unfold list_insert_ordered.
  pose proof (repr_notnull _ _ _ Hr) as Hl%Z.eqb_neq. rewrite Hl.
  destruct He as (He & Hn & Ha). pose proof Hn as Hn'%Z.eqb_neq. rewrite Hn'.
  simpl ASSERT. rewrite !bind_ret. erewrite repr_begin by done. rewrite bind_ret.
  rewrite (insert_ordered_loop h l elem xs [] fuel) by done. rewrite bind_ret.
  pose proof (insert_point_app elem xs) as E. destruct (insert_point elem xs) as [D R].
  simpl in *. subst xs. by apply list_insert_repr.
Qed.

(** ** list_unique() *)

(** The elements kept after [x], and those removed as equal to the one kept
    before them. *)
Fixpoint uniq (x : loc) ys : list loc * list loc :=
  match ys with
  | [] => ([], [])
  | y :: ys' =>
      if negb (less x y) && negb (less y x) then
        let '(k, d) := uniq x ys' in (k, y :: d)
      else let '(k, d) := uniq y ys' in (y :: k, d)
  end.

(** The second list of list_unique(): there, and apart from the first. *)
Definition dup_repr h (d : loc) ds l xs : Prop :=
  d ≠ NULL → repr h d ds ∧ disj (cells d ds) (cells l xs).

Lemma disj_move d ds l D y R :
  disj (cells d ds) (cells l (D ++ y :: R)) → y ∉ cells l (D ++ R) →
  disj (cells d (ds ++ [y])) (cells l (D ++ R)).
Proof.
  intros Hd Hy x Hx Hx'. destruct (decide (x = y)) as [->|Hne]; [done|].
  apply (Hd x); unfold cells in *; set_solver.
Qed.

Lemma repr_not_in h l D y R : repr h l (D ++ y :: R) → y ∉ cells l (D ++ R).
Proof.
  intros (Hnd & _). unfold cells in *. rewrite <-app_assoc, app_comm_cons in Hnd.
  simpl in Hnd. rewrite <-app_assoc, app_comm_cons.
  rewrite <-(Permutation_middle (head_of l :: D) (R ++ [tail_of l]) y) in Hnd.
  by apply NoDup_cons in Hnd as [? _].
Qed.

(** Removing [y] from the first list, and appending it to the second. *)
Lemma unique_step h l d ds D y R :
  repr h l (D ++ y :: R) → dup_repr h d ds l (D ++ y :: R) →
  ∃ h', ('(h, _) ← list_remove h y;
         if negb (d =? NULL) then
           h ← list_push_back h d y; Ok h
         else Ok h) = Ok h' ∧
        repr h' l (D ++ R) ∧ dup_repr h' d (ds ++ [y]) l (D ++ R).
Proof.
  intros Hr Hd. destruct (list_remove_repr _ _ _ _ _ Hr) as (h1 & -> & Hr1 & Hy & Hfr).
  rewrite bind_ret. pose proof (repr_not_in _ _ _ _ _ Hr) as Hny.
  destruct (Z.eqb_spec d NULL) as [->|Hdn]; simpl negb; cbv iota.
  { exists h1. split_and!; [done|done|]. intros ?. done. }
  destruct (Hd Hdn) as [Hrd Hdis].
  assert (repr h1 d ds) as Hrd1.
  { apply chain_ext with (h := h); [|done]. intros a Ha. apply Hfr.
    intros Ha'. apply (Hdis a Ha). unfold cells in *. set_solver. }
  assert (fresh_elem h1 d ds y) as Hfresh.
  { split_and!.
    - intros Hin. apply (Hdis y Hin). unfold cells. set_solver.
    - eapply chain_notnull; [exact Hr|]. unfold cells. set_solver.
    - rewrite Hy. eapply chain_alloc; [exact Hr|]. unfold cells. set_solver. }
  destruct (list_push_back_repr _ _ _ _ Hrd1 Hfresh) as (h2 & -> & Hr2 & Hfr2).
  rewrite bind_ret. exists h2. split; [done|]. split.
  - apply chain_ext with (h := h1); [|done]. intros a Ha. apply Hfr2.
    rewrite not_elem_of_cons. split; [by intros ->|]. intros Hin.
    apply (Hdis a Hin). unfold cells in *. set_solver.
  - intros _. split; [done|]. by eapply disj_move.
Qed.

Lemma unique_loop h l d ds ys x K fuel :
  repr h l (K ++ x :: ys) → dup_repr h d ds l (K ++ x :: ys) → (length ys < fuel)%nat →
  ∃ h', loop fuel (λ '(h, elem),
          nxt ← list_next h elem;
          t ← list_end l;
          if nxt =? t then Ok (inr h)
          else if negb (less elem nxt) && negb (less nxt elem) then
            '(h, _) ← list_remove h nxt;
            if negb (d =? NULL) then
              h ← list_push_back h d nxt; Ok (inl (h, elem))
            else Ok (inl (h, elem))
          else Ok (inl (h, nxt))) (h, x) = Ok h' ∧
        repr h' l (K ++ x :: (uniq x ys).1) ∧ dup_repr h' d (ds ++ (uniq x ys).2) l (K ++ x :: (uniq x ys).1).
Proof.
  revert h ds x K fuel. induction ys as [|y ys IH]; intros h ds x K fuel Hr Hd Hf;
    (destruct fuel as [|fuel]; [simpl in Hf; lia|]); cbn [loop];
    rewrite (repr_next _ _ _ _ _ Hr), bind_ret; 
    rewrite (repr_end_bind _ _ _ _ Hr); simpl hd.
  { rewrite Z.eqb_refl. exists h. rewrite app_nil_r. done. }
  rewrite (repr_ne_tail h l (K ++ [x]) y ys) by by rewrite <-app_assoc.
  cbn [uniq]. destruct (negb (less x y) && negb (less y x)).
  - destruct (unique_step h l d ds (K ++ [x]) y ys) as (h1 & Hst & Hr1 & Hd1);
      [by rewrite <-app_assoc..|].
    rewrite <-app_assoc in Hr1, Hd1.
    destruct (IH h1 (ds ++ [y]) x K fuel) as (h' & Hl & Hr' & Hd');
      [done|done|simpl in Hf; lia|].
    exists h'. destruct (uniq x ys) as [k dd]. simpl in Hr', Hd'.
    rewrite <-app_assoc in Hd'. split; [|done].
    revert Hst. destruct (list_remove h y) as [[h2 ?]| | |]; [|done..]. rewrite !bind_ret.
    destruct (negb (d =? NULL)).
    + destruct (list_push_back h2 d y) as [h3| | |]; [|done..].
      rewrite !bind_ret. intros [= ->]. exact Hl.
    + intros [= ->]. exact Hl.
  - destruct (IH h ds y (K ++ [x]) fuel) as (h' & Hl & Hr' & Hd');
      [by rewrite <-app_assoc|by rewrite <-app_assoc|simpl in Hf; lia|].
    exists h'. destruct (uniq y ys) as [k dd]. rewrite <-app_assoc in Hr', Hd'. done.
Qed.

Lemma list_unique_repr h l d x ys ds fuel :
  repr h l (x :: ys) → dup_repr h d ds l (x :: ys) → (length ys < fuel)%nat →
  ∃ h', list_unique less fuel h l d = Ok h' ∧ repr h' l (x :: (uniq x ys).1) ∧
        dup_repr h' d (ds ++ (uniq x ys).2) l (x :: (uniq x ys).1).
Proof.
  intros Hr Hd Hf. unfold list_unique.
  pose proof (repr_notnull _ _ _ Hr) as Hl%Z.eqb_neq. rewrite Hl. simpl ASSERT.
  rewrite bind_ret. erewrite repr_empty by done. rewrite bind_ret.
  rewrite bool_decide_false by done. erewrite repr_begin by done. rewrite bind_ret.
  by apply (unique_loop h l d ds ys x []).
Qed.

(** ** list_max() and list_min() *)

(** A left-to-right scan that keeps one element, by [pick]. *)
Lemma scan_loop (pick : loc → loc → loc) h l R D m fuel :
  repr h l (D ++ R) → (length R < fuel)%nat →
  loop fuel (λ '(e, m),
    t ← list_end l;
    if e =? t then Ok (inr m)
    else
      let m := pick m e in
      e ← list_next h e;
      Ok (inl (e, m))) (hd (tail_of l) R, m) = Ok (foldl pick m R).
Proof.
  revert D m fuel. induction R as [|y R IH]; intros D m fuel Hr Hf;
    (destruct fuel as [|fuel]; [simpl in Hf; lia|]); cbn [loop];
    rewrite (repr_end_bind _ _ _ _ Hr); simpl hd.
  - by rewrite Z.eqb_refl.
  - erewrite repr_ne_tail, repr_next by done. rewrite !bind_ret.
    apply (IH (D ++ [y])); [by rewrite <-app_assoc|simpl in Hf; lia].
Qed.

Definition pick_max (m e : loc) : loc := if less m e then e else m.
Definition pick_min (m e : loc) : loc := if less e m then e else m.

Lemma list_max_repr h l xs fuel :
  repr h l xs → (length xs < fuel)%nat →
  list_max less fuel h l
  = Ok (match xs with [] => tail_of l | x :: xs' => foldl pick_max x xs' end).
Proof.
  intros Hr Hf. unfold list_max. rewrite (repr_begin _ _ _ Hr), bind_ret.
  rewrite (repr_end_bind _ _ _ _ Hr).
  destruct xs as [|x xs]; simpl hd; [by rewrite Z.eqb_refl|].
  rewrite (repr_ne_tail h l [] x xs Hr), (repr_next h l [] x xs Hr), bind_ret.
  apply (scan_loop pick_max h l xs [x]); [done|simpl in Hf; lia].
Qed.

Lemma list_min_repr h l xs fuel :
  repr h l xs → (length xs < fuel)%nat →
  list_min less fuel h l
  = Ok (match xs with [] => tail_of l | x :: xs' => foldl pick_min x xs' end).
Proof.
  intros Hr Hf. unfold list_min. rewrite (repr_begin _ _ _ Hr), bind_ret.
  rewrite (repr_end_bind _ _ _ _ Hr).
  destruct xs as [|x xs]; simpl hd; [by rewrite Z.eqb_refl|].
  rewrite (repr_ne_tail h l [] x xs Hr), (repr_next h l [] x xs Hr), bind_ret.
  apply (scan_loop pick_min h l xs [x]); [done|simpl in Hf; lia].
Qed.
End order.

(** ** Properties *)

(** C6: list_sort() terminates on every list shorter than 2^32 elements, passes
    all its own assertions, and leaves the list sorted: the elements are the same,
    any two of them are in order, equivalent elements keep their order, and no
    memory outside the list changes. *)
Theorem list_sort_correct less `{!LessOrder less} h l xs fuel :
  repr h l xs → (length xs < fuel)%nat → Z.of_nat (length xs) < 4294967296 →
  ∃ h' zs, list_sort less fuel h l = Ok h' ∧ repr h' l zs ∧ zs ≡ₚ xs ∧
    StronglySorted (λ a b, less b a = false) zs ∧
    (∀ z, List.filter (eqv less z) zs = List.filter (eqv less z) xs) ∧
    ∀ a, a ∉ cells l xs → h' !! a = h !! a.
Proof.
  intros Hr Hf Hsz.
  destruct (list_sort_repr less h l xs fuel Hr Hf Hsz) as (h' & zs & ? & ? & [? ?] & ? & ?).
  by exists h', zs.
Qed.

(** Orders for the witnesses: elements compared by the tens of their address. *)
Definition tens_less (a b : loc) : bool := a / 10 <? b / 10.

Lemma tens_less_order : LessOrder tens_less.
Proof.
  unfold tens_less. split; intros *; rewrite ?Z.ltb_lt, ?Z.ltb_ge; lia.
Qed.

Definition demo_unsorted : heap :=
  list_to_map [(96, mkElem 0 300); (300, mkElem 96 200); (200, mkElem 300 204);
               (204, mkElem 200 104); (104, mkElem 204 0); (400, mkElem 7 9)].

Lemma demo_unsorted_repr : repr demo_unsorted 96 [300; 200; 204].
Proof.
  split_and!; [by apply (bool_decide_unpack _)|by apply (bool_decide_unpack _)|].
  by vm_compute.
Qed.

Lemma list_sort_correct_witness :
  repr demo_unsorted 96 [300; 200; 204] ∧
  ∃ h' zs, list_sort tens_less 4 demo_unsorted 96 = Ok h' ∧ repr h' 96 zs ∧
           StronglySorted (λ a b, tens_less b a = false) zs ∧ zs ≡ₚ [300; 200; 204].
Proof.
  split; [exact demo_unsorted_repr|].
  destruct (list_sort_correct tens_less (LessOrder0 := tens_less_order) demo_unsorted 96
              [300; 200; 204] 4 demo_unsorted_repr) as (h' & zs & H1 & H2 & H3 & H4 & _).
  - simpl. lia.
  - simpl. lia.
  - exists h', zs. split; [exact H1|]. split; [exact H2|]. split; [exact H4|exact H3].
Defined.

Section insert_ordered.
Context (less : loc → loc → bool) `{!LessOrder less}.

Lemma insert_point_sorted elem xs :
  StronglySorted (le less) xs →
  StronglySorted (le less) ((insert_point less elem xs).1 ++ elem :: (insert_point less elem xs).2).
Proof.
  intros Hs. induction Hs as [|x xs Hs IH Hx]; simpl; [by repeat constructor|].
  destruct (less elem x) eqn:E; simpl.
  - assert (le less elem x) as Hex by (by apply less_asym).
    constructor; [by constructor|]. constructor; [done|].
    eapply Forall_impl; [exact Hx|]. intros y Hy. unfold le in *. by eapply less_cotrans.
  - pose proof (insert_point_app less elem xs) as Happ.
    destruct (insert_point less elem xs) as [D R]. simpl in *. subst xs.
    constructor; [done|]. rewrite Forall_app in *. destruct Hx as [? ?].
    split; [done|]. by constructor.
Qed.
End insert_ordered.

(** List_insert_ordered() into a sorted list keeps it sorted, and places the
    new element after all elements it is equivalent to. *)
Theorem list_insert_ordered_sorted less `{!LessOrder less} h l xs e fuel :
  repr h l xs → fresh_elem h l xs e → (length xs < fuel)%nat →
  StronglySorted (λ a b, less b a = false) xs →
  ∃ h' D R, list_insert_ordered less fuel h l e = Ok h' ∧ xs = D ++ R ∧
    repr h' l (D ++ e :: R) ∧ StronglySorted (λ a b, less b a = false) (D ++ e :: R) ∧
    (∀ d, d ∈ D → less e d = false) ∧ (∀ r, r ∈ R → less e r = true).
Proof.
  intros Hr He Hf Hs.
  destruct (list_insert_ordered_repr less h l xs e fuel Hr He Hf) as (h' & Hi & Hr' & _).
  exists h', (insert_point less e xs).1, (insert_point less e xs).2.
  split_and!; auto; [by rewrite insert_point_app|by apply insert_point_sorted| |].
  - clear. induction xs as [|x xs IH]; simpl; [set_solver|].
    destruct (less e x) eqn:E; simpl; [set_solver|]. destruct (insert_point less e xs).
    simpl in *. set_solver.
  - clear -Hs LessOrder0. induction Hs as [|x xs Hs IH Hx]; simpl; [set_solver|].
    destruct (less e x) eqn:E; simpl.
    + intros r [->|Hr]%elem_of_cons; [done|]. rewrite Forall_forall in Hx.
      specialize (Hx r Hr). destruct (less e r) eqn:Er; [done|].
      rewrite <-E. symmetry. by eapply less_cotrans.
    + by destruct (insert_point less e xs).
Qed.

Lemma list_insert_ordered_sorted_witness :
  repr demo_heap 96 [200; 300] ∧
  ∃ h' D R, list_insert_ordered tens_less 3 demo_heap 96 400 = Ok h' ∧
            [200; 300] = D ++ R ∧ repr h' 96 (D ++ 400 :: R).
Proof.
  split; [exact demo_repr|].
  destruct (list_insert_ordered_sorted tens_less (LessOrder0 := tens_less_order) demo_heap 96
              [200; 300] 400 3 demo_repr demo_fresh) as (h' & D & R & H1 & H2 & H3 & _).
  - simpl. lia.
  - repeat constructor.
  - exists h', D, R. split; [exact H1|]. split; [exact H2|exact H3].
Defined.
