(* ===== verification/Arithmetic.v ===== *)
(** * 64-bit division: lib/arithmetic.c

    The routines behind the compiler's division of 64-bit integers.  The DIVL
    instruction divides 64 bits by 32 and traps when the quotient does not fit
    or the divisor is zero; a trap in the kernel stops it. *)

From S2P Require Import Prelude.

Open Scope Z_scope.

(** ** Definitions *)

(** The 32-bit / and % of C. *)
Definition div32 (n d : Z) : outcome Z := if d =? 0 then Panic else Ok (n / d).
Definition mod32 (n d : Z) : outcome Z := if d =? 0 then Panic else Ok (n mod d).

Definition divl (n d : Z) : outcome Z :=
  if (d =? 0) || (4294967296 <=? n / d) then Panic else Ok (n / d).

Definition nlz (x : Z) : Z :=
  let n := 0 in
  let '(n, x) := if x <=? 65535 then (n + 16, u32 (Z.shiftl x 16)) else (n, x) in
  let '(n, x) := if x <=? 16777215 then (n + 8, u32 (Z.shiftl x 8)) else (n, x) in
  let '(n, x) := if x <=? 268435455 then (n + 4, u32 (Z.shiftl x 4)) else (n, x) in
  let '(n, x) := if x <=? 1073741823 then (n + 2, u32 (Z.shiftl x 2)) else (n, x) in
  if x <=? 2147483647 then n + 1 else n.

Definition udiv64 (n d : Z) : outcome Z :=
  if Z.shiftr d 32 =? 0 then
    let b := 4294967296 in
    let n1 := u32 (Z.shiftr n 32) in
    let n0 := u32 n in
    let d0 := u32 d in
    m ← mod32 n1 d0;
    q ← divl (u64 (u64 (b * m) + n0)) d0;
    t ← div32 n1 d0;
    Ok (u64 (q + u64 (b * t)))
  else if n <? d then Ok 0
  else
    let d1 := u32 (Z.shiftr d 32) in
    let s := nlz d1 in
    q ← divl (Z.shiftr n 1) (u32 (Z.shiftr (u64 (Z.shiftl d s)) 32));
    let q := Z.shiftr q (31 - s) in
    Ok (if u64 (n - u64 (u64 (q - 1) * d)) <? d then u64 (q - 1) else q).

Definition umod64 (n d : Z) : outcome Z :=
  q ← udiv64 n d; Ok (u32 (u64 (n - u64 (d * q)))).

Definition sdiv64 (n d : Z) : outcome Z :=
  let n_abs := if 0 <=? n then n else u64 (- u64 n) in
  let d_abs := if 0 <=? d then d else u64 (- u64 d) in
  q_abs ← udiv64 n_abs d_abs;
  Ok (if Bool.eqb (n <? 0) (d <? 0) then i64 q_abs else i64 (- i64 q_abs)).

Definition smod64 (n d : Z) : outcome Z :=
  q ← sdiv64 n d; Ok (i32 (i64 (n - i64 (d * q)))).

Definition __divdi3 (n d : Z) : outcome Z := sdiv64 n d.
Definition __moddi3 (n d : Z) : outcome Z := smod64 n d.
Definition __udivdi3 (n d : Z) : outcome Z := udiv64 n d.
Definition __umoddi3 (n d : Z) : outcome Z := umod64 n d.

(** ** Leading zeros *)

(** A step of nlz(): [x] shifted left by [n] in all. *)
Lemma nlz_step x k t n y n' y' :
  0 <= n → 0 <= k → (t + 1) * 2 ^ k = 4294967296 → y = x * 2 ^ n → 0 < y < 4294967296 →
  (if y <=? t then (n + k, u32 (Z.shiftl y k)) else (n, y)) = (n', y') →
  n <= n' <= n + k ∧ y' = x * 2 ^ n' ∧ y <= y' < 4294967296 ∧ Z.min (t + 1) (y * 2 ^ k) <= y'.
Proof.
  intros Hn Hk Ht Hy Hr. pose proof (Z.pow_pos_nonneg 2 k ltac:(lia) Hk).
  destruct (Z.leb_spec y t) as [Hle|Hle]; intros [= <- <-].
  - rewrite Z.shiftl_mul_pow2, u32_small by (try lia; nia). rewrite Z.pow_add_r, Z.mul_assoc, <-Hy by lia.
    split; [lia|]. split; [done|]. split; [nia|lia].
  - split; [lia|]. split; [done|]. lia.
Qed.

Lemma nlz_ok x : 0 < x < 4294967296 → 0 <= nlz x <= 31 ∧ 2147483648 <= x * 2 ^ nlz x < 4294967296.
Proof.
  intros Hx. unfold nlz. cbv zeta.
  destruct (if x <=? 65535 then _ else _) as [n1 x1] eqn:E1.
  apply (nlz_step x) in E1 as (A1 & B1 & C1 & D1); [|lia..].
  destruct (if x1 <=? 16777215 then _ else _) as [n2 x2] eqn:E2.
  apply (nlz_step x) in E2 as (A2 & B2 & C2 & D2); [|lia..].
  destruct (if x2 <=? 268435455 then _ else _) as [n3 x3] eqn:E3.
  apply (nlz_step x) in E3 as (A3 & B3 & C3 & D3); [|lia..].
  destruct (if x3 <=? 1073741823 then _ else _) as [n4 x4] eqn:E4.
  apply (nlz_step x) in E4 as (A4 & B4 & C4 & D4); [|lia..].
  change (2 ^ 16) with 65536 in *. change (2 ^ 8) with 256 in *. change (2 ^ 4) with 16 in *.
  change (2 ^ 2) with 4 in *. assert (H4 : 1073741824 <= x4) by lia.
  destruct (Z.leb_spec x4 2147483647).
  - rewrite Z.pow_add_r, Z.mul_assoc, <-B4 by lia. lia.
  - rewrite <-B4. lia.
Qed.

(** ** The quotient estimate *)

(** Dividing by a slightly smaller [D] instead of [d] overestimates the quotient
    by one at most. *)
Lemma div_estimate n d D e K :
  0 <= n → 0 < D <= d → d - D <= e → n / d + 1 <= K → K * e <= D →
  n / d <= n / D <= n / d + 1.
Proof.
  intros Hn HD He HK Hle. assert (Hq : 0 <= n / d) by (apply Z.div_pos; lia). split.
  - apply Z.div_le_compat_l; lia.
  - cut (n / D < n / d + 2); [lia|]. apply Z.div_lt_upper_bound; [lia|].
    pose proof (Z.mul_succ_div_gt n d ltac:(lia)). nia.
Qed.

(** The divisor shifted to have its top bit set, and what its high half is. *)
Lemma divisor_high d s :
  4294967296 <= d < 18446744073709551616 → s = nlz (d / 4294967296) →
  0 <= s <= 31 ∧ 2 ^ (63 - s) <= d ∧ d * 2 ^ s < 18446744073709551616 ∧
  let v := d / 2 ^ (32 - s) in
  u32 (Z.shiftr (u64 (Z.shiftl d s)) 32) = v ∧ 2147483648 <= v < 4294967296 ∧
  2 ^ (63 - s) <= v * 2 ^ (32 - s) <= d ∧ d - v * 2 ^ (32 - s) <= 2 ^ (32 - s) - 1.
Proof.
  intros Hd ->. set (d1 := d / 4294967296). assert (Hd1 : 0 < d1 < 4294967296) by (unfold d1; zdm).
  destruct (nlz_ok d1 Hd1) as [Hs Hn]. set (s := nlz d1) in *. clearbody s.
  assert (Hp : 0 < 2 ^ s) by (apply Z.pow_pos_nonneg; lia).
  assert (E32 : 2 ^ s * 2 ^ (32 - s) = 4294967296) by (rewrite <-Z.pow_add_r by lia; by replace (s + (32 - s)) with 32 by lia).
  assert (E63 : 2 ^ (63 - s) = 2147483648 * 2 ^ (32 - s)).
  { change 2147483648 with (2 ^ 31). rewrite <-Z.pow_add_r by lia. f_equal. lia. }
  remember (2 ^ s) as a eqn:Ea. set (c := 2 ^ (32 - s)) in *. clearbody c.
  assert (Hc : 0 < c) by nia.
  assert (Hdd : d1 * 4294967296 <= d < d1 * 4294967296 + 4294967296) by (unfold d1; zdm).
  assert (Hlow : 2147483648 * c <= d).
  { assert (H : 2147483648 * c <= d1 * a * c) by (apply Z.mul_le_mono_nonneg_r; lia).
    rewrite <-Z.mul_assoc, E32 in H. lia. }
  assert (Hd1c : d1 < c) by (apply (Z.mul_lt_mono_pos_r a); lia).
  assert (Hhigh : d * a < 18446744073709551616).
  { assert ((d1 + 1) * a <= c * a) by (apply Z.mul_le_mono_nonneg_r; lia).
    assert (d * a < (d1 + 1) * 4294967296 * a) by (apply Z.mul_lt_mono_pos_r; lia). lia. }
  split; [lia|]. split; [lia|]. split; [done|]. cbv zeta.
  assert (Hv : d / c * c <= d < d / c * c + c).
  { pose proof (Z.div_mod d c ltac:(lia)). pose proof (Z.mod_pos_bound d c Hc). lia. }
  assert (Hvr : 2147483648 <= d / c < 4294967296).
  { split; [apply Z.div_le_lower_bound; lia|apply Z.div_lt_upper_bound; [lia|]].
    apply (Z.mul_lt_mono_pos_r a); lia. }
  split; [|split; [done|split; [|lia]]].
  2:{ split; [|lia]. assert (2147483648 * c <= d / c * c) by (apply Z.mul_le_mono_nonneg_r; lia). lia. }
  rewrite Z.shiftl_mul_pow2, Z.shiftr_div_pow2, <-Ea by lia. change (2 ^ 32) with 4294967296.
  rewrite (u64_small (d * a)) by lia. rewrite <-E32, (Z.mul_comm a c), Z.div_mul_cancel_r by lia.
  apply u32_small. lia.
Qed.

(** ** Division *)

Lemma div32_ok n d : d ≠ 0 → div32 n d = Ok (n / d).
Proof. intros. unfold div32. by rewrite (proj2 (Z.eqb_neq _ _)). Qed.

Lemma mod32_ok n d : d ≠ 0 → mod32 n d = Ok (n mod d).
Proof. intros. unfold mod32. by rewrite (proj2 (Z.eqb_neq _ _)). Qed.

Lemma divl_ok n d : 0 < d → n < 4294967296 * d → divl n d = Ok (n / d).
Proof.
  intros Hd Hn. unfold divl. rewrite (proj2 (Z.eqb_neq _ _)) by lia. cbn [orb].
  by rewrite (proj2 (Z.leb_gt _ _)) by (apply Z.div_lt_upper_bound; lia).
Qed.

(** A divisor of 32 bits: schoolbook division in base 2^32. *)
Lemma udiv64_small n d : is_u64 n → 0 < d < 4294967296 → udiv64 n d = Ok (n / d).
Proof.
  intros Hn Hd. unfold udiv64. rewrite !Z.shiftr_div_pow2 by lia. change (2 ^ 32) with 4294967296.
  rewrite (Z.div_small d), Z.eqb_refl by lia. cbv zeta. rewrite (u32_small (n / _)), (u32_small d) by zdm.
  set (n1 := n / 4294967296). assert (H1 : 0 <= n1 < 4294967296) by (unfold n1; zdm).
  assert (E : n = 4294967296 * n1 + u32 n) by (unfold n1, u32; zdm).
  set (n0 := u32 n) in *. assert (H0 : 0 <= n0 < 4294967296) by (unfold n0, u32; zdm). clearbody n1 n0. subst n.
  rewrite mod32_ok, bind_ret by lia. pose proof (Z.mod_pos_bound n1 d ltac:(lia)) as Hm.
  rewrite (u64_small (4294967296 * _)), u64_small by nia.
  rewrite divl_ok, bind_ret, div32_ok, bind_ret by nia. f_equal.
  assert (Hq : 4294967296 * n1 + n0 = 4294967296 * (n1 / d) * d + (4294967296 * (n1 mod d) + n0)).
  { rewrite (Z.div_mod n1 d) at 1 by lia. lia. }
  assert (Hb : 0 <= n1 / d < 4294967296) by (split; [apply Z.div_pos; lia|apply Z.div_lt_upper_bound; nia]).
  rewrite Hq, Z.div_add_l, Z.add_comm by lia. rewrite (u64_small (4294967296 * _)) by lia. apply u64_small.
  assert (0 <= (4294967296 * (n1 mod d) + n0) / d < 4294967296); [|lia].
  split; [apply Z.div_pos; lia|apply Z.div_lt_upper_bound; nia].
Qed.

Lemma udiv64_large n d : is_u64 n → 4294967296 <= d < 18446744073709551616 → udiv64 n d = Ok (n / d).
Proof.
  intros Hn Hd. unfold udiv64. rewrite !(Z.shiftr_div_pow2 _ 32), (Z.shiftr_div_pow2 _ 1) by lia.
  change (2 ^ 32) with 4294967296. change (2 ^ 1) with 2.
  rewrite (proj2 (Z.eqb_neq (d / 4294967296) 0)) by zdm.
  destruct (Z.ltb_spec n d) as [Hlt|Hge]; [by rewrite Z.div_small by lia|]. cbv zeta.
  rewrite (u32_small (d / 4294967296)) by zdm.
  remember (nlz (d / 4294967296)) as s eqn:Es.
  destruct (divisor_high d s Hd Es) as (Hs & Hdl & Hdh & Ev & Hv & HD & He). cbv zeta in *.
  rewrite Z.shiftr_div_pow2 in Ev by lia. change (2 ^ 32) with 4294967296 in Ev. rewrite Ev.
  set (v := d / 2 ^ (32 - s)) in *. rewrite divl_ok, bind_ret by zdm.
  assert (Eq : Z.shiftr (n / 2 / v) (31 - s) = n / (v * 2 ^ (32 - s))).
  { rewrite Z.shiftr_div_pow2, !Z.div_div by (try apply Z.pow_pos_nonneg; lia). f_equal.
    replace (32 - s) with (1 + (31 - s)) by lia. rewrite Z.pow_add_r by lia. lia. }
  rewrite Eq. clear Eq Ev.
  assert (Hest : n / d <= n / (v * 2 ^ (32 - s)) <= n / d + 1).
  { apply (div_estimate n d _ (2 ^ (32 - s) - 1) (2 ^ (s + 1))); [lia..| |].
    - cut (n / d < 2 ^ (s + 1)); [lia|]. apply Z.div_lt_upper_bound; [lia|].
      assert (E64 : 2 ^ (63 - s) * 2 ^ (s + 1) = 18446744073709551616)
        by (rewrite <-Z.pow_add_r by lia; by replace (63 - s + (s + 1)) with 64 by lia).
      pose proof (Z.pow_pos_nonneg 2 (s + 1)). nia.
    - transitivity (2 ^ (63 - s)); [|lia]. clear -Hs.
      assert (Hc : s = 31 ∨ s <= 30) by lia. destruct Hc as [->|Hc]; [by vm_compute|].
      transitivity (2 ^ 33); [|apply Z.pow_le_mono_r; lia].
      rewrite Z.mul_sub_distr_l, <-Z.pow_add_r by lia. replace (s + 1 + (32 - s)) with 33 by lia.
      pose proof (Z.pow_pos_nonneg 2 (s + 1)). lia. }
  set (q := n / (v * 2 ^ (32 - s))) in *. clearbody q.
  assert (Hk : 1 <= n / d) by (apply Z.div_le_lower_bound; lia).
  pose proof (Z.div_mod n d ltac:(lia)) as Hdm. pose proof (Z.mod_pos_bound n d ltac:(lia)) as Hr.
  assert (Hqd : 0 <= (q - 1) * d <= n) by nia. assert (Hq1 : q - 1 <= (q - 1) * d) by nia.
  rewrite (u64_small (q - 1)), (u64_small ((q - 1) * d)), u64_small by lia. f_equal.
  assert (Hc : q = n / d ∨ q = n / d + 1) by lia.
  destruct (Z.ltb_spec (n - (q - 1) * d) d), Hc as [-> | ->]; nia.
Qed.

Lemma udiv64_ok n d : is_u64 n → is_u64 d → d ≠ 0 → udiv64 n d = Ok (n / d).
Proof.
  intros Hn Hd H0. destruct (decide (d < 4294967296)); [apply udiv64_small|apply udiv64_large]; lia.
Qed.

Lemma udiv64_zero n : udiv64 n 0 = Panic.
Proof. done. Qed.

Lemma umod64_ok n d : is_u64 n → is_u64 d → d ≠ 0 → umod64 n d = Ok (u32 (n mod d)).
Proof.
  intros Hn Hd H0. unfold umod64. rewrite udiv64_ok, bind_ret by done.
  pose proof (Z.div_mod n d H0). pose proof (Z.mod_pos_bound n d ltac:(lia)).
  pose proof (Z.mod_le n d ltac:(lia) ltac:(lia)).
  rewrite (u64_small (d * _)), u64_small by lia. do 2 f_equal. lia.
Qed.

(** The magnitude of a signed integer. *)
Lemma abs64 n : is_i64 n → (if 0 <=? n then n else u64 (- u64 n)) = Z.abs n.
Proof. intros Hn. unfold u64. destruct (Z.leb_spec 0 n); zdm. Qed.

Lemma i64_cong a b : a mod 18446744073709551616 = b mod 18446744073709551616 → i64 a = i64 b.
Proof. intros E. unfold i64, u64. by rewrite E. Qed.

Lemma i64_mod z : i64 z mod 18446744073709551616 = z mod 18446744073709551616.
Proof. unfold i64, u64. case_match; zdm. Qed.

Lemma sdiv64_ok n d : is_i64 n → is_i64 d → d ≠ 0 → sdiv64 n d = Ok (i64 (Z.quot n d)).
Proof.
  intros Hn Hd H0. unfold sdiv64. rewrite !abs64 by done. rewrite udiv64_ok, bind_ret by lia.
  f_equal. set (q := Z.abs n / Z.abs d).
  assert (Eq : Z.quot n d = if Bool.eqb (n <? 0) (d <? 0) then q else - q).
  { unfold q. rewrite <-Z.quot_div_nonneg by lia.
    destruct (Z.ltb_spec n 0), (Z.ltb_spec d 0); cbn [Bool.eqb].
    - rewrite !Z.abs_neq by lia. by rewrite Z.quot_opp_opp by lia.
    - rewrite Z.abs_neq, Z.abs_eq, Z.quot_opp_l by lia. lia.
    - rewrite (Z.abs_eq n), (Z.abs_neq d), Z.quot_opp_r by lia. lia.
    - by rewrite !Z.abs_eq by lia. }
  rewrite Eq. destruct (Bool.eqb _ _); [done|]. apply i64_cong.
  rewrite <-(Z.sub_0_l (i64 q)), Zminus_mod, i64_mod, <-Zminus_mod. done.
Qed.

Lemma smod64_ok n d : is_i64 n → is_i64 d → d ≠ 0 → smod64 n d = Ok (i32 (Z.rem n d)).
Proof.
  intros Hn Hd H0. unfold smod64. rewrite sdiv64_ok, bind_ret by done. do 2 f_equal.
  transitivity (i64 (Z.rem n d)).
  - apply i64_cong. rewrite Zminus_mod, i64_mod, <-(Zmult_mod_idemp_r (i64 _)), i64_mod, Zmult_mod_idemp_r, <-Zminus_mod.
    f_equal. pose proof (Z.quot_rem' n d). lia.
  - apply i64_small. pose proof (Z.rem_bound_abs n d H0). lia.
Qed.

(** ** Properties *)

(** C20: 64-bit division.  For all operands but a zero divisor, which stops the
    kernel, the quotients that the routines compute with the 32-bit DIVL
    instruction are exact, and DIVL never traps: the unsigned quotient is that
    of the integers, the signed one is truncated towards zero, wrapping only for
    the smallest integer divided by -1.  The remainders are exact only when they
    fit in 32 bits: the functions return their low half. *)
Theorem div64_exact n d :
  (is_u64 n → is_u64 d → d ≠ 0 →
     __udivdi3 n d = Ok (n / d) ∧ __umoddi3 n d = Ok (u32 (n mod d))) ∧
  (is_i64 n → is_i64 d → d ≠ 0 →
     __divdi3 n d = Ok (i64 (Z.quot n d)) ∧ __moddi3 n d = Ok (i32 (Z.rem n d)) ∧
     (is_i64 (Z.quot n d) ∨ n = -9223372036854775808 ∧ d = -1)) ∧
  __udivdi3 n 0 = Panic ∧ __divdi3 n 0 = Panic.
Proof.
  split; [|split; [|split; [apply udiv64_zero|]]].
  - intros. split; [by apply udiv64_ok|by apply umod64_ok].
  - intros Hn Hd H0. split; [by apply sdiv64_ok|]. split; [by apply smod64_ok|].
    assert (Hq : Z.abs (Z.quot n d) = Z.abs n / Z.abs d) by (rewrite <-Z.quot_abs, Z.quot_div_nonneg by lia; done).
    assert (Hle : Z.abs n / Z.abs d <= Z.abs n) by (apply Z.div_le_upper_bound; nia).
    destruct (decide (Z.quot n d = 9223372036854775808)) as [E|E]; [|left; lia].
    right. assert (Hn' : n = -9223372036854775808) by lia. split; [done|]. subst n.
    pose proof (Z.quot_rem' (-9223372036854775808) d) as Hr. rewrite E in Hr.
    pose proof (Z.rem_bound_abs (-9223372036854775808) d H0). lia.
  - unfold __divdi3, sdiv64. cbn [Z.leb Z.compare]. by rewrite udiv64_zero.
Qed.

(** A remainder that does not fit in 32 bits. *)
Lemma div64_exact_witness :
  __udivdi3 18446744073709551615 4294967299 = Ok 4294967293 ∧
  __divdi3 (-9223372036854775808) 10000000000 = Ok (-922337203) ∧
  __umoddi3 5000000000 6000000000 = Ok 705032704.
Proof.
  destruct (div64_exact 18446744073709551615 4294967299) as [H1 _].
  destruct (div64_exact (-9223372036854775808) 10000000000) as (_ & H2 & _).
  destruct (div64_exact 5000000000 6000000000) as [H3 _].
  split; [apply H1; lia|]. split; [apply H2; lia|apply H3; lia].
Defined.
