(* ===== verification/SortSearch.v ===== *)
(** * Sorting and searching arrays: lib/stdlib.c

    An array of CNT elements of SIZE bytes each is the list of its elements; the
    functions of the code only ever move and compare whole elements.  Positions
    are 1-based in the heap, as in the code.  The loops of heapify() and
    binary_search() at least halve what is left, so the number of elements is
    enough fuel. *)

From S2P Require Import Prelude.

Open Scope Z_scope.

(** ** Definitions *)

Section stdlib.
Context {A : Type} (compare : A → A → Z).

(** The element with 1-based index [k]. *)
Definition elem (a : list A) (k : Z) : option A := if 1 <=? k then a !! Z.to_nat (k - 1) else None.

Definition do_swap (a : list A) (a_idx b_idx : Z) : outcome (list A) :=
  x ← deref (elem a a_idx); y ← deref (elem a b_idx);
  Ok (<[Z.to_nat (b_idx - 1) := x]> (<[Z.to_nat (a_idx - 1) := y]> a)).

Definition do_compare (a : list A) (a_idx b_idx : Z) : outcome Z :=
  x ← deref (elem a a_idx); y ← deref (elem a b_idx); Ok (compare x y).

(** [if (IDX <= CNT && do_compare (array, IDX, MAX) > 0) max = IDX;] *)
Definition pick (a : list A) (cnt idx max : Z) : outcome Z :=
  if idx <=? cnt then c ← do_compare a idx max; Ok (if 0 <? c then idx else max) else Ok max.

Definition heapify (a : list A) (i cnt : Z) : outcome (list A) :=
  loop (S (Z.to_nat cnt)) (λ '(a, i),
    let left := u32 (2 * i) in
    let right := u32 (2 * i + 1) in
    max ← pick a cnt left i;
    max ← pick a cnt right max;
    if max =? i then Ok (inr a)
    else a ← do_swap a i max; Ok (inl (a, max))) (a, i).

Definition sort (a : list A) : outcome (list A) :=
  let cnt := Z.of_nat (length a) in
  a ← loop (S (Z.to_nat cnt)) (λ '(a, i),
        if 0 <? i then a ← heapify a i cnt; Ok (inl (a, i - 1)) else Ok (inr a)) (a, cnt / 2);
  loop (S (Z.to_nat cnt)) (λ '(a, i),
    if 1 <? i then
      a ← do_swap a 1 i;
      a ← heapify a 1 (i - 1);
      Ok (inl (a, i - 1))
    else Ok (inr a)) (a, cnt).

Definition qsort (a : list A) : outcome (list A) := sort a.

(** binary_search(): pointers into the array are the indices they point to; the
    result is the index of a match. *)
Definition binary_search (key : A) (a : list A) : outcome (option Z) :=
  loop (S (length a)) (λ '(first, last),
    if first <? last then
      let range := last - first in
      let middle := first + range / 2 in
      x ← deref (a !! Z.to_nat middle);
      let cmp := compare key x in
      if cmp <? 0 then Ok (inl (first, middle))
      else if 0 <? cmp then Ok (inl (middle + 1, last))
      else Ok (inr (Some middle))
    else Ok (inr None)) (0, Z.of_nat (length a)).

Definition bsearch (key : A) (a : list A) : outcome (option Z) := binary_search key a.
End stdlib.

(** A comparison function that returns a strcmp()-type result. *)
Class Strcmp {A} (compare : A → A → Z) : Prop := {
  cmp_sym x y : 0 < compare x y ↔ compare y x < 0;
  cmp_trans x y z : compare x y <= 0 → compare y z <= 0 → compare x z <= 0 }.

Section theory.
Context {A : Type} (compare : A → A → Z) {SC : Strcmp compare}.

Definition le (x y : A) : Prop := compare x y <= 0.

Lemma le_total x y : ¬ le x y → le y x.
Proof. unfold le. pose proof (cmp_sym x y). pose proof (cmp_sym y x). lia. Qed.

Lemma le_refl x : le x x.
Proof. unfold le. pose proof (cmp_sym x x). lia. Qed.

(** *** Positions *)

Lemma elem_some (a : list A) k : 1 <= k <= Z.of_nat (length a) → ∃ x, elem a k = Some x.
Proof.
  intros Hk. unfold elem. rewrite (proj2 (Z.leb_le _ _)) by lia.
  apply lookup_lt_is_Some_2. lia.
Qed.

Lemma elem_lookup (a : list A) k x : elem a k = Some x → a !! Z.to_nat (k - 1) = Some x.
Proof. unfold elem. by destruct (1 <=? k). Qed.

Lemma elem_range (a : list A) k x : elem a k = Some x → 1 <= k <= Z.of_nat (length a).
Proof.
  unfold elem. destruct (Z.leb_spec 1 k); [|done]. intros H'%lookup_lt_Some. lia.
Qed.

(** Two elements exchanged. *)
Definition swapped (a a' : list A) (i j : Z) : Prop :=
  (∀ k, elem a' k = if k =? i then elem a j else if k =? j then elem a i else elem a k) ∧
  a' ≡ₚ a ∧ length a' = length a.

Lemma do_swap_ok (a : list A) i j :
  1 <= i <= Z.of_nat (length a) → 1 <= j <= Z.of_nat (length a) → i ≠ j →
  ∃ a', do_swap a i j = Ok a' ∧ swapped a a' i j.
Proof.
  intros Hi Hj Hne. destruct (elem_some a i Hi) as [x Ex], (elem_some a j Hj) as [y Ey].
  unfold do_swap. rewrite Ex, Ey. cbn. eexists. split; [done|]. split; [|split].
  - intros k. rewrite Ex, Ey. unfold elem.
    destruct (Z.leb_spec 1 k).
    + destruct (Z.eqb_spec k i) as [->|]; [|destruct (Z.eqb_spec k j) as [->|]].
      * rewrite list_lookup_insert_ne, list_lookup_insert_eq by lia. done.
      * rewrite list_lookup_insert_eq by (rewrite length_insert; lia). done.
      * rewrite !list_lookup_insert_ne by lia. done.
    + by rewrite !(proj2 (Z.eqb_neq _ _)) by lia.
  - apply elem_lookup in Ex, Ey. by apply Permutation_insert_swap.
  - by rewrite !length_insert.
Qed.
(** *** Heaps *)

Definition le_at (a : list A) (j k : Z) : Prop :=
  ∀ x y, elem a j = Some x → elem a k = Some y → le x y.

Definition child (p c : Z) : Prop := c = 2 * p ∨ c = 2 * p + 1.

(** No element is larger than its parent, for parents from [lo] on. *)
Definition heap (a : list A) (lo cnt : Z) : Prop :=
  ∀ p c, lo <= p → child p c → c <= cnt → le_at a c p.

(** The same, except that the element at [i] may be too small. *)
Definition hole (a : list A) (lo cnt i : Z) : Prop :=
  (∀ p c, lo <= p → p ≠ i → child p c → c <= cnt → le_at a c p) ∧
  (∀ p c, lo <= p → child p i → child i c → c <= cnt → le_at a c p).

Lemma le_at_trans a i j k : 1 <= j <= Z.of_nat (length a) → le_at a i j → le_at a j k → le_at a i k.
Proof.
  intros Hj H1 H2 x z Hx Hz. destruct (elem_some a j Hj) as [y Hy].
  exact (cmp_trans x y z (H1 x y Hx Hy) (H2 y z Hy Hz)).
Qed.

Lemma le_at_refl a i : le_at a i i.
Proof. intros x y Hx Hy. rewrite Hx in Hy. injection Hy as ->. apply le_refl. Qed.

Lemma pick_ok a cnt idx max :
  cnt <= Z.of_nat (length a) → 1 <= idx → 1 <= max <= cnt →
  ∃ m, pick compare a cnt idx max = Ok m ∧ 1 <= m <= cnt ∧ (m = max ∨ m = idx) ∧
    (idx <= cnt → le_at a idx m) ∧ le_at a max m.
Proof.
  intros Hc Hi Hm. unfold pick. destruct (Z.leb_spec idx cnt); [|exists max; pose proof (le_at_refl a max); auto with lia].
  destruct (elem_some a idx) as [x Ex]; [lia|]. destruct (elem_some a max) as [y Ey]; [lia|].
  unfold do_compare. rewrite Ex, Ey. cbn. pose proof (cmp_sym x y) as Hs.
  assert (H12 : (compare x y <= 0 → le_at a idx max) ∧ (0 < compare x y → le_at a max idx)).
  { unfold le_at, le. rewrite Ex, Ey. split; intros ? ? ? [= <-] [= <-]; lia. }
  destruct H12 as [H1 H2]. pose proof (le_at_refl a idx). pose proof (le_at_refl a max).
  destruct (Z.ltb_spec 0 (compare x y)); eexists; (split; [done|]); auto 10 with lia.
Qed.

(** Filling the hole with the larger of its children moves the hole down. *)
Lemma hole_down a a' lo cnt i m :
  1 <= lo <= i → cnt <= Z.of_nat (length a) → hole a lo cnt i → child i m → m <= cnt → swapped a a' i m →
  le_at a i m → (∀ c, child i c → c <= cnt → le_at a c m) → hole a' lo cnt m.
Proof.
  intros Hlo Hc [H1 H2] Hm Hmc (Hel & _) Him Hmax.
  assert (Hle : ∀ c p j k, elem a' c = elem a j → elem a' p = elem a k → le_at a j k → le_at a' c p).
  { intros c p j k E1 E2 H x y. rewrite E1, E2. apply H. }
  assert (Ei : elem a' i = elem a m) by by rewrite Hel, Z.eqb_refl.
  assert (Em : elem a' m = elem a i).
  { rewrite Hel, (proj2 (Z.eqb_neq m i)), Z.eqb_refl by (unfold child in *; lia). done. }
  assert (Eo : ∀ k, k ≠ i → k ≠ m → elem a' k = elem a k).
  { intros k K1 K2. by rewrite Hel, !(proj2 (Z.eqb_neq _ _)) by lia. }
  split.
  - intros p c Hp Hpm Hpc Hcc. destruct (decide (p = i)) as [->|Hpi].
    + destruct (decide (c = m)) as [->|Hcm]; [by apply (Hle _ _ i m)|].
      apply (Hle _ _ c m); [apply Eo; unfold child in *; lia|done|auto].
    + destruct (decide (c = i)) as [->|Hci]; [apply (Hle _ _ m p); [done|by apply Eo|by apply H2]|].
      assert (Hcm : c ≠ m) by (unfold child in *; lia).
      apply (Hle _ _ c p); [by apply Eo|by apply Eo|by apply H1].
  - intros p c Hp Hpm Hmc' Hcc. assert (p = i) as -> by (unfold child in *; lia).
    apply (Hle _ _ c m); [apply Eo; unfold child in *; lia|done|apply H1; unfold child in *; lia].
Qed.

Lemma heapify_ok a lo cnt i :
  1 <= lo <= i → i <= cnt <= Z.of_nat (length a) → cnt < 2147483648 → hole a lo cnt i →
  ∃ a', heapify compare a i cnt = Ok a' ∧ heap a' lo cnt ∧ a' ≡ₚ a ∧ length a' = length a ∧
    ∀ k, cnt < k → elem a' k = elem a k.
Proof.
  intros Hlo Hi Hcnt Hh. unfold heapify.
  apply (loop_total (λ n '(b, i), n = Z.to_nat (cnt - i) ∧ lo <= i <= cnt ∧ hole b lo cnt i ∧ b ≡ₚ a ∧
           length b = length a ∧ ∀ k, cnt < k → elem b k = elem a k)) with (n := Z.to_nat (cnt - i));
    [|split; [done|]; split; [lia|done]|lia].
  assert (Hlo1 : 1 <= lo ∧ cnt <= Z.of_nat (length a)) by lia. clear i Hi Hh Hlo. intros n [b i] (-> & Hi & Hh & Hp & Hl & Hrest).
  cbv zeta. rewrite !u32_small by lia.
  destruct (pick_ok b cnt (2 * i) i) as (m1 & -> & Hm1 & Hc1 & Hl1 & Hi1); [lia..|]. rewrite bind_ret.
  destruct (pick_ok b cnt (2 * i + 1) m1) as (m & -> & Hm & Hc & Hl2 & H12); [lia..|]. rewrite bind_ret.
  assert (Hmax : ∀ c, child i c → c <= cnt → le_at b c m).
  { intros c [-> | ->] Hcc; [|auto]. apply (le_at_trans b _ m1); auto with lia. }
  destruct (Z.eqb_spec m i) as [->|Hne].
  - eexists. split; [done|]. split; [|done]. intros p c Hlp Hpc Hcc.
    destruct (decide (p = i)) as [->|Hpi]; [auto|]. by apply (proj1 Hh).
  - destruct (do_swap_ok b i m) as (b' & -> & Hsw); [lia..|]. rewrite bind_ret.
    eexists. split; [done|]. assert (Hmc : child i m) by (unfold child; lia).
    exists (Z.to_nat (cnt - m)). split; [unfold child in *; lia|]. split; [done|].
    split; [unfold child in *; lia|]. pose proof Hsw as (He & Hpb & Hlb). split.
    + apply (hole_down b b' lo cnt i m); [lia|lia|done|done|lia|done| |done].
      apply (le_at_trans b _ m1); auto with lia.
    + split; [by rewrite Hpb|]. split; [congruence|]. intros k Hk.
      rewrite He, !(proj2 (Z.eqb_neq _ _)) by (unfold child in *; lia). auto.
Qed.
(** *** Heap sort *)

(** The root of a heap is its largest element. *)
Lemma heap_root a cnt k : cnt <= Z.of_nat (length a) → heap a 1 cnt → 1 <= k <= cnt → le_at a k 1.
Proof.
  intros Hc Hh. remember (Z.to_nat k) as n eqn:En. revert k En.
  induction (lt_wf n) as [n _ IH]; intros k -> Hk.
  destruct (decide (k = 1)) as [->|Hne]; [apply le_at_refl|].
  apply (le_at_trans a _ (k / 2)); [zdm| |].
  - apply Hh; [zdm|unfold child; zdm|lia].
  - apply (IH (Z.to_nat (k / 2))); zdm.
Qed.

(** The first loop of sort(). *)
Lemma build_heap a :
  let cnt := Z.of_nat (length a) in cnt < 2147483648 →
  ∃ a', loop (S (Z.to_nat cnt)) (λ '(a, i),
          if 0 <? i then a ← heapify compare a i cnt; Ok (inl (a, i - 1)) else Ok (inr a)) (a, cnt / 2) = Ok a' ∧
    heap a' 1 cnt ∧ a' ≡ₚ a ∧ length a' = length a.
Proof.
  intros cnt Hcnt.
  apply (loop_total (λ n '(b, i), n = Z.to_nat i ∧ 0 <= i <= cnt ∧ heap b (i + 1) cnt ∧ b ≡ₚ a ∧
           length b = length a)) with (n := Z.to_nat (cnt / 2)); [| |zdm].
  2:{ split; [done|]. split; [zdm|]. split; [|done]. intros p c Hp Hpc Hcc. exfalso. unfold child in *. zdm. }
  intros n [b i] (-> & Hi & Hh & Hp & Hl). destruct (Z.ltb_spec 0 i).
  - destruct (heapify_ok b i cnt i) as (b' & -> & Hb & Hpb & Hlb & _); [lia..| |].
    { split; intros p c Hip; [intros Hpi Hpc Hcc; apply Hh; (done || lia)|unfold child; lia]. }
    rewrite bind_ret. eexists. split; [done|]. exists (Z.to_nat (i - 1)). split; [lia|]. split; [done|].
    split; [lia|]. split; [by replace (i - 1 + 1) with i by lia|]. split; [by rewrite Hpb|congruence].
  - eexists. split; [done|]. by replace (i + 1) with 1 in Hh by lia.
Qed.

Lemma elem_take (a : list A) (i : nat) x : x ∈ take i a ↔ ∃ k, 1 <= k <= Z.of_nat i ∧ elem a k = Some x.
Proof.
  rewrite list_elem_of_lookup. split.
  - intros [j Hj]. apply lookup_take_Some in Hj as [Hj Hlt]. exists (Z.of_nat j + 1). split; [lia|].
    unfold elem. rewrite (proj2 (Z.leb_le _ _)) by lia. by replace (Z.to_nat (Z.of_nat j + 1 - 1)) with j by lia.
  - intros (k & Hk & Hx). exists (Z.to_nat (k - 1)). apply lookup_take_Some. split; [by apply elem_lookup|lia].
Qed.

(** A change of the first [i] elements only. *)
Lemma same_drop (a a' : list A) (i : nat) :
  length a' = length a → (∀ k, Z.of_nat i < k → elem a' k = elem a k) → drop i a' = drop i a.
Proof.
  intros Hl He. apply list_eq. intros j. rewrite !lookup_drop.
  specialize (He (Z.of_nat (i + j) + 1) ltac:(lia)). unfold elem in He.
  rewrite (proj2 (Z.leb_le _ _)) in He by lia. by replace (Z.to_nat _) with (i + j)%nat in He by lia.
Qed.

Lemma same_take (a a' : list A) i : a' ≡ₚ a → drop i a' = drop i a → take i a' ≡ₚ take i a.
Proof.
  intros Hp Hd. apply (Permutation_app_inv_r (drop i a)). rewrite take_drop, <-Hd, take_drop. done.
Qed.

(** The first [i] elements are a heap; the others are sorted and not smaller. *)
Definition sorting (a0 a : list A) (i : nat) : Prop :=
  a ≡ₚ a0 ∧ length a = length a0 ∧ heap a 1 (Z.of_nat i) ∧
  (∀ x y, x ∈ take i a → y ∈ drop i a → le x y) ∧ StronglySorted le (drop i a).

Lemma sorting_step a0 a (i : nat) :
  sorting a0 a (S (S i)) → (S (S i) <= length a0)%nat → Z.of_nat (length a0) < 2147483648 →
  ∃ a1 a2, do_swap a 1 (Z.of_nat (S (S i))) = Ok a1 ∧ heapify compare a1 1 (Z.of_nat (S (S i)) - 1) = Ok a2 ∧
    sorting a0 a2 (S i).
Proof.
  intros (Hp & Hl & Hh & Hle & Hs) Hi Hlen. set (n := Z.of_nat (S (S i))) in *.
  destruct (do_swap_ok a 1 n) as (a1 & E1 & He1 & Hp1 & Hl1); [lia..|].
  destruct (heapify_ok a1 1 (n - 1) 1) as (a2 & E2 & Hh2 & Hp2 & Hl2 & He2); [lia..| |].
  { split; intros p c Hp' Hpc; [|unfold child in *; lia]. intros Hch Hcc x y.
    rewrite !He1, !(proj2 (Z.eqb_neq _ _)) by (unfold child in *; lia). apply Hh; (done || lia). }
  exists a1, a2. do 2 (split; [done|]).
  assert (Hp12 : a2 ≡ₚ a0) by by rewrite Hp2, Hp1.
  destruct (elem_some a 1) as [r Hr]; [lia|].
  assert (Hd2 : drop (S (S i)) a2 = drop (S (S i)) a).
  { apply same_drop; [congruence|]. intros k Hk. fold n in Hk.
    rewrite He2, He1, !(proj2 (Z.eqb_neq _ _)) by lia. done. }
  assert (Hr2 : a2 !! S i = Some r).
  { assert (H : elem a2 n = Some r) by (rewrite He2, He1, (proj2 (Z.eqb_neq n 1)), Z.eqb_refl by lia; done).
    apply elem_lookup in H. by replace (Z.to_nat (n - 1)) with (S i) in H by lia. }
  assert (Hds : drop (S i) a2 = r :: drop (S (S i)) a) by by rewrite (drop_S _ _ _ Hr2), Hd2.
  assert (Hts : take (S (S i)) a2 ≡ₚ take (S (S i)) a) by (apply same_take; [by rewrite Hp2|done]).
  assert (Hroot : ∀ x, x ∈ take (S (S i)) a → le x r).
  { intros x Hx. apply elem_take in Hx as (k & Hk & Hx).
    exact (heap_root a n k ltac:(lia) Hh ltac:(lia) x r Hx Hr). }
  assert (Hsub : ∀ x, x ∈ take (S i) a2 → x ∈ take (S (S i)) a).
  { intros x Hx. rewrite <-Hts. rewrite (take_S_r _ _ _ Hr2). apply elem_of_app. by left. }
  assert (Hrin : r ∈ take (S (S i)) a) by (apply elem_take; exists 1; split; [lia|done]).
  split; [done|]. split; [congruence|]. split; [by replace (Z.of_nat (S i)) with (n - 1) by lia|].
  rewrite Hds. split.
  - intros x y Hx [->|Hy]%elem_of_cons; [by apply Hroot, Hsub|]. apply Hle; auto.
  - constructor; [done|]. apply Forall_forall. intros y Hy. by apply Hle.
Qed.

Lemma sort_ok a :
  Z.of_nat (length a) < 2147483648 →
  ∃ a', sort compare a = Ok a' ∧ a' ≡ₚ a ∧ StronglySorted le a'.
Proof.
  intros Hlen. unfold sort. destruct (build_heap a Hlen) as (b & -> & Hb & Hpb & Hlb). rewrite bind_ret.
  apply (loop_total (λ n '(c, i), i = Z.of_nat n ∧ (n <= length a)%nat ∧ sorting a c n))
    with (n := length a); [| |lia].
  2:{ split; [done|]. split; [done|]. split; [done|]. split; [done|]. split; [done|].
      rewrite drop_ge by lia. split; [by intros ? ? ? ?%not_elem_of_nil|constructor]. }
  intros n [c i] (-> & Hn & Hs). destruct n as [|[|n]]; cycle 2.
  - rewrite (proj2 (Z.ltb_lt _ _)) by lia. destruct (sorting_step a c n Hs Hn Hlen) as (c1 & c2 & -> & E & Hs2).
    rewrite bind_ret, E, bind_ret. eexists. split; [done|]. exists (S n). split; [lia|]. split; [lia|].
    split; [lia|done].
  - destruct Hs as (Hp & _ & _ & _ & Hs). eexists. split; [done|]. done.
  - destruct Hs as (Hp & _ & _ & Hle & Hs). eexists. split; [done|]. split; [done|].
    destruct c as [|x c]; [constructor|]. cbn in Hs. constructor; [done|]. apply Forall_forall.
    intros y Hy. apply Hle; [apply list_elem_of_here|done].
Qed.
(** *** Binary search *)

Lemma sorted_lookup a j k x y :
  StronglySorted le a → (j <= k)%nat → a !! j = Some x → a !! k = Some y → le x y.
Proof.
  intros Hs. revert j k. induction Hs as [|z a Hs IH Hz]; intros j k Hjk Hx Hy; [done|].
  destruct j as [|j], k as [|k]; cbn in Hx, Hy; try lia.
  - injection Hx as ->. injection Hy as ->. apply le_refl.
  - injection Hx as ->. rewrite Forall_forall in Hz. apply Hz. by eapply list_elem_of_lookup_2.
  - apply (IH j k); (done || lia).
Qed.

Lemma binary_search_ok key a :
  StronglySorted le a →
  ∃ r, binary_search compare key a = Ok r ∧
    match r with
    | Some k => ∃ x, 0 <= k ∧ a !! Z.to_nat k = Some x ∧ compare key x = 0
    | None => ∀ x, x ∈ a → compare key x ≠ 0
    end.
Proof.
  intros Hs. unfold binary_search.
  apply (loop_total (λ n '(lo, hi), n = Z.to_nat (hi - lo) ∧ 0 <= lo <= Z.of_nat (length a) ∧
           hi <= Z.of_nat (length a) ∧
           ∀ j x, a !! j = Some x → compare key x = 0 → lo <= Z.of_nat j < hi)) with (n := length a); [| |lia].
  2:{ split; [lia|]. split; [lia|]. split; [lia|]. intros j x Hj%lookup_lt_Some _. lia. }
  intros n [lo hi] (-> & Hlo & Hhi & Hin). destruct (Z.ltb_spec lo hi).
  2:{ eexists. split; [done|]. intros x Hx Hk. apply list_elem_of_lookup in Hx as [j Hj].
      specialize (Hin j x Hj Hk). lia. }
  cbv zeta. set (mid := lo + (hi - lo) / 2). assert (Hmid : lo <= mid < hi) by (unfold mid; zdm). clearbody mid.
  destruct (lookup_lt_is_Some_2 a (Z.to_nat mid)) as [y Hy]; [lia|]. rewrite Hy. cbn [deref]. rewrite bind_ret.
  (* an element that matches is on the side where the comparison points *)
  assert (Hside : ∀ j x, a !! j = Some x → compare key x = 0 →
    (compare key y < 0 → Z.of_nat j < mid) ∧ (0 < compare key y → mid < Z.of_nat j)).
  { intros j x Hj Hk. pose proof (cmp_sym key x). pose proof (cmp_sym x key). pose proof (cmp_sym y key).
    pose proof (cmp_sym key y). assert (Hx : le x key) by (unfold le; lia). split; intros Hc.
    - destruct (decide (Z.of_nat j < mid)) as [|Hge]; [done|].
      assert (H' : le y x) by (apply (sorted_lookup a (Z.to_nat mid) j); (done || lia)).
      pose proof (cmp_trans y x key H' Hx). lia.
    - destruct (decide (mid < Z.of_nat j)) as [|Hge]; [done|].
      assert (H' : le x y) by (apply (sorted_lookup a j (Z.to_nat mid)); (done || lia)).
      assert (Hk' : compare key x <= 0) by lia. pose proof (cmp_trans key x y Hk' H'). lia. }
  destruct (Z.ltb_spec (compare key y) 0).
  - eexists. split; [done|]. exists (Z.to_nat (mid - lo)). split; [lia|]. split; [done|]. split; [lia|].
    split; [lia|]. intros j x Hj Hk. pose proof (Hin j x Hj Hk). destruct (Hside j x Hj Hk). lia.
  - destruct (Z.ltb_spec 0 (compare key y)).
    + eexists. split; [done|]. exists (Z.to_nat (hi - (mid + 1))). split; [lia|]. split; [done|].
      split; [lia|]. split; [lia|]. intros j x Hj Hk. pose proof (Hin j x Hj Hk). destruct (Hside j x Hj Hk). lia.
    + eexists. split; [done|]. exists y. split; [lia|]. split; [done|]. lia.
Qed.
End theory.

(** ** Properties *)

(** C21: sort() terminates on every array and sorts it: the result is a permutation
    of the array in which no element is larger than a later one.  On the sorted
    array bsearch() terminates too; it returns an element equal to the key, and
    a null pointer exactly when there is none. *)
Theorem qsort_bsearch {A} (compare : A → A → Z) (a : list A) (key : A) :
  Strcmp compare → Z.of_nat (length a) < 2147483648 →
  ∃ a' r, qsort compare a = Ok a' ∧ a' ≡ₚ a ∧ StronglySorted (λ x y, compare x y <= 0) a' ∧
    bsearch compare key a' = Ok r ∧
    match r with
    | Some k => ∃ x, a' !! Z.to_nat k = Some x ∧ compare key x = 0
    | None => ∀ x, x ∈ a → compare key x ≠ 0
    end.
Proof.
  intros SC Hlen. destruct (sort_ok compare a Hlen) as (a' & E & Hp & Hs).
  destruct (binary_search_ok compare key a' Hs) as (r & Er & Hr).
  exists a', r. do 4 (split; [done|]). destruct r as [k|].
  - destruct Hr as (x & _ & Hx). by exists x.
  - intros x Hx. apply Hr. by rewrite Hp.
Qed.

#[export] Instance Z_strcmp : Strcmp Z.sub.
Proof. split; intros; lia. Qed.

Lemma qsort_bsearch_witness :
  qsort Z.sub [5; 2; 9; 2; 7; 1] = Ok [1; 2; 2; 5; 7; 9] ∧
  bsearch Z.sub 7 [1; 2; 2; 5; 7; 9] = Ok (Some 4) ∧ 8 ∉ [5; 2; 9; 2; 7; 1].
Proof.
  destruct (qsort_bsearch Z.sub [5; 2; 9; 2; 7; 1] 7 Z_strcmp ltac:(cbn; lia)) as (a' & r & E & _ & _ & Er & _).
  destruct (qsort_bsearch Z.sub [5; 2; 9; 2; 7; 1] 8 Z_strcmp ltac:(cbn; lia)) as (b' & r' & E' & _ & _ & Er' & Hr').
  assert (a' = [1; 2; 2; 5; 7; 9]) as -> by (vm_compute in E; congruence).
  assert (b' = [1; 2; 2; 5; 7; 9]) as -> by (vm_compute in E'; congruence).
  assert (r' = None) as -> by (vm_compute in Er'; congruence).
  split; [exact E|]. split; [by vm_compute|]. intros H. by apply (Hr' 8 H).
Defined.
