(* ===== verification/Hash.v ===== *)
(** * Hash tables: lib/kernel/hash.c

    A table is its array of buckets, each the sequence of its elements, which
    list.c implements (LinkedList.v), and its count of elements.  The elements
    are pointers; [hash] and [less] are the functions the table was initialised
    with.  The answer of malloc() in rehash() is the argument [got] of the
    functions that call it.  Removing an element, which unlinks it from the one
    list it is in, removes it from whichever bucket has it.

    The loop of rehash() that rounds the number of buckets down to a power of two
    clears a bit per iteration, so 32 iterations are enough. *)

From S2P Require Import Prelude.

Open Scope Z_scope.

(** ** Definitions *)

Record hash_table (E : Type) := mk_hash { elem_cnt : Z; buckets : list (list E) }.
Arguments mk_hash {E}.
Arguments elem_cnt {E}.
Arguments buckets {E}.

Record hash_iterator (E : Type) := mk_iter { it_bucket : nat; it_elem : option E; it_rest : list E }.
Arguments mk_iter {E}.
Arguments it_bucket {E}.
Arguments it_elem {E}.
Arguments it_rest {E}.

Definition turn_off_least_1bit (x : Z) : Z := Z.land x (u32 (x - 1)).
Definition is_power_of_2 (x : Z) : bool := negb (x =? 0) && (turn_off_least_1bit x =? 0).

(** The number of buckets that rehash() wants for [n] elements. *)
Definition best_bucket_cnt (n : Z) : outcome Z :=
  let new_bucket_cnt := n / 2 in
  let new_bucket_cnt := if new_bucket_cnt <? 4 then 4 else new_bucket_cnt in
  loop 33 (λ c, Ok (if negb (is_power_of_2 c) then inl (turn_off_least_1bit c) else inr c)) new_bucket_cnt.

Section hash.
Context {E : Type} `{!EqDecision E} (hash : E → Z) (less : E → E → bool).

Abbreviation table := (hash_table E).

Definition bucket_cnt (h : table) : Z := Z.of_nat (length h.(buckets)).

(** find_bucket(): the index of the bucket. *)
Definition find_bucket (h : table) (e : E) : nat :=
  Z.to_nat (Z.land (hash e) (u32 (bucket_cnt h - 1))).

Fixpoint find_elem (bucket : list E) (e : E) : option E :=
  match bucket with
  | [] => None
  | hi :: bucket => if negb (less hi e) && negb (less e hi) then Some hi else find_elem bucket e
  end.

Definition get_bucket (h : table) (b : nat) : outcome (list E) := deref (h.(buckets) !! b).

Definition push_bucket (h : table) (b : nat) (e : E) : outcome table :=
  l ← get_bucket h b; Ok (mk_hash h.(elem_cnt) (<[b := e :: l]> h.(buckets))).

Definition insert_elem (h : table) (b : nat) (e : E) : outcome table :=
  push_bucket (mk_hash (u32 (h.(elem_cnt) + 1)) h.(buckets)) b e.

Definition remove_elem (h : table) (e : E) : table :=
  mk_hash (u32 (h.(elem_cnt) - 1)) (filter (λ x, x ≠ e) <$> h.(buckets)).

(** Moving the elements of the old buckets, one at a time. *)
Fixpoint move_elems (h : table) (l : list E) : outcome table :=
  match l with
  | [] => Ok h
  | e :: l => h ← push_bucket h (find_bucket h e) e; move_elems h l
  end.

Fixpoint move_buckets (h : table) (old : list (list E)) : outcome table :=
  match old with
  | [] => Ok h
  | l :: old => h ← move_elems h l; move_buckets h old
  end.

Definition rehash (got : bool) (h : table) : outcome table :=
  new_bucket_cnt ← best_bucket_cnt h.(elem_cnt);
  if new_bucket_cnt =? bucket_cnt h then Ok h
  else if negb got then Ok h
  else move_buckets (mk_hash h.(elem_cnt) (replicate (Z.to_nat new_bucket_cnt) [])) h.(buckets).

(** hash_init(): whether malloc() succeeded. *)
Definition hash_init (got : bool) : option table :=
  if got then Some (mk_hash 0 (replicate 4 [])) else None.

Definition hash_insert (got : bool) (h : table) (new : E) : outcome (option E * table) :=
  let bucket := find_bucket h new in
  l ← get_bucket h bucket;
  let old := find_elem l new in
  h ← (match old with None => insert_elem h bucket new | Some _ => Ok h end);
  h ← rehash got h;
  Ok (old, h).

Definition hash_replace (got : bool) (h : table) (new : E) : outcome (option E * table) :=
  let bucket := find_bucket h new in
  l ← get_bucket h bucket;
  let old := find_elem l new in
  let h := match old with Some o => remove_elem h o | None => h end in
  h ← insert_elem h bucket new;
  h ← rehash got h;
  Ok (old, h).

Definition hash_find (h : table) (e : E) : outcome (option E) :=
  l ← get_bucket h (find_bucket h e); Ok (find_elem l e).

Definition hash_delete (got : bool) (h : table) (e : E) : outcome (option E * table) :=
  found ← hash_find h e;
  match found with
  | Some x => h ← rehash got (remove_elem h x); Ok (found, h)
  | None => Ok (found, h)
  end.

(** hash_clear(): the destructor is called on the elements in order. *)
Definition hash_clear {S} (destructor : option (E → S → S)) (h : table) (s : S) : table * S :=
  (mk_hash 0 (replicate (length h.(buckets)) []),
   match destructor with Some d => foldl (flip d) s (concat h.(buckets)) | None => s end).

(** hash_destroy(): the buckets are freed with the table. *)
Definition hash_destroy {S} (destructor : option (E → S → S)) (h : table) (s : S) : S :=
  match destructor with Some d => (hash_clear (Some d) h s).2 | None => s end.

Definition hash_apply {S} (action : E → S → S) (h : table) (s : S) : S :=
  foldl (λ s b, foldl (flip action) s b) s h.(buckets).

Definition hash_first (h : table) : outcome (hash_iterator E) :=
  l ← get_bucket h 0; Ok (mk_iter 0 None l).

(** The buckets after the current one, up to the next element. *)
Fixpoint next_bucket (bs : list (list E)) (b : nat) : hash_iterator E :=
  match bs with
  | [] => mk_iter b None []
  | [] :: bs => next_bucket bs (S b)
  | (x :: l) :: bs => mk_iter b (Some x) l
  end.

Definition hash_next (h : table) (i : hash_iterator E) : option E * hash_iterator E :=
  let i := match i.(it_rest) with
           | x :: l => mk_iter i.(it_bucket) (Some x) l
           | [] => next_bucket (drop (S i.(it_bucket)) h.(buckets)) (S i.(it_bucket))
           end in
  (i.(it_elem), i).

Definition hash_cur (i : hash_iterator E) : option E := i.(it_elem).
Definition hash_size (h : table) : Z := h.(elem_cnt).
Definition hash_empty (h : table) : bool := h.(elem_cnt) =? 0.
End hash.

Definition FNV_32_PRIME : Z := 16777619.
Definition FNV_32_BASIS : Z := 2166136261.

Definition hash_bytes (buf : list Z) : Z :=
  foldl (λ h b, Z.lxor (u32 (h * FNV_32_PRIME)) b) FNV_32_BASIS buf.

(** hash_string() of a string without its terminator. *)
Definition hash_string (s : list Z) : Z :=
  foldl (λ h b, Z.lxor (u32 (h * FNV_32_PRIME)) b) FNV_32_BASIS s.

Definition hash_int (i : Z) : Z := hash_bytes (le32 i).

(** ** Powers of two *)

Lemma land_double a b : Z.land (2 * a) (2 * b + 1) = 2 * Z.land a b.
Proof.
  apply Z.bits_inj'. intros n Hn. rewrite Z.land_spec. destruct (decide (n = 0)) as [->|Hn0].
  - by rewrite !Z.testbit_even_0.
  - replace n with (Z.succ (n - 1)) by lia.
    rewrite !Z.testbit_even_succ, Z.testbit_odd_succ, Z.land_spec by lia. done.
Qed.

Lemma land_pred_odd a : Z.land (2 * a + 1) (2 * a) = 2 * a.
Proof.
  apply Z.bits_inj'. intros n Hn. rewrite Z.land_spec. destruct (decide (n = 0)) as [->|Hn0].
  - by rewrite Z.testbit_even_0, andb_false_r.
  - replace n with (Z.succ (n - 1)) by lia.
    rewrite !Z.testbit_even_succ, Z.testbit_odd_succ by lia. by rewrite andb_diag.
Qed.

(** Clearing the lowest bit. *)
Lemma land_pred x : 0 < x → ∃ j m, 0 <= j ∧ 0 <= m ∧ x = 2 ^ j * (2 * m + 1) ∧ Z.land x (x - 1) = 2 ^ j * (2 * m).
Proof.
  destruct x as [|p|]; [lia| |lia]. intros _. induction p as [p IH|p IH|].
  - exists 0, (Z.pos p). rewrite Pos2Z.inj_xI. split; [lia|]. split; [lia|]. split; [lia|].
    replace (2 * Z.pos p + 1 - 1) with (2 * Z.pos p) by lia. rewrite land_pred_odd. lia.
  - destruct IH as (j & m & Hj & Hm & E & El). exists (j + 1), m. rewrite Pos2Z.inj_xO.
    split; [lia|]. split; [lia|]. rewrite Z.pow_add_r by lia. split; [lia|].
    replace (2 * Z.pos p - 1) with (2 * (Z.pos p - 1) + 1) by lia. rewrite land_double, El. lia.
  - exists 0, 0. done.
Qed.

Lemma pow2_divide_odd k j m : 0 <= k → 0 <= j → (2 ^ k | 2 ^ j * (2 * m + 1)) → k <= j.
Proof.
  intros Hk Hj [q Hq]. destruct (decide (k <= j)) as [|Hlt]; [done|exfalso].
  replace k with (j + (1 + (k - j - 1))) in Hq by lia. rewrite !Z.pow_add_r in Hq by lia.
  pose proof (Z.pow_pos_nonneg 2 j ltac:(lia) Hj). assert (E : 2 * m + 1 = 2 * (q * 2 ^ (k - j - 1))) by nia. lia.
Qed.

(** A step of the loop of rehash(). *)
Lemma clear_bit k c :
  0 <= k → (2 ^ k | c) → 4 <= c < 4294967296 →
  if is_power_of_2 c then ∃ j, 2 <= j <= 31 ∧ c = 2 ^ j
  else (2 ^ (k + 1) | turn_off_least_1bit c) ∧ 4 <= turn_off_least_1bit c < 4294967296.
Proof.
  intros Hk Hd Hc. unfold is_power_of_2, turn_off_least_1bit. rewrite u32_small by lia.
  destruct (land_pred c ltac:(lia)) as (j & m & Hj & Hm & E & El). rewrite El.
  rewrite (proj2 (Z.eqb_neq c 0)) by lia. cbn [negb andb].
  pose proof (Z.pow_pos_nonneg 2 j ltac:(lia) Hj) as Hp. rewrite E in Hd.
  pose proof (pow2_divide_odd k j m Hk Hj Hd) as Hkj.
  destruct (Z.eqb_spec (2 ^ j * (2 * m)) 0) as [Ez|Ez].
  - assert (m = 0) as -> by nia. rewrite Z.mul_1_r in E. exists j. split; [|lia].
    split; [apply (Z.pow_le_mono_r_iff 2)|apply Z.lt_succ_r, (Z.pow_lt_mono_r_iff 2)]; try lia;
      change (2 ^ 2) with 4; change (2 ^ Z.succ 31) with 4294967296; lia.
  - split.
    + exists (2 ^ (j - k) * m). replace j with (j - k + k) at 1 by lia. rewrite !Z.pow_add_r by lia. lia.
    + assert (Hm1 : 1 <= m) by nia. split; [|nia].
      destruct (decide (j = 0)) as [->|]; [change (2 ^ 0) with 1 in *; lia|].
      assert (2 <= 2 ^ j) by (change 2 with (2 ^ 1) at 1; apply Z.pow_le_mono_r; lia). nia.
Qed.

Lemma best_bucket_cnt_ok n :
  0 <= n < 4294967296 → ∃ c, best_bucket_cnt n = Ok c ∧ ∃ j, 2 <= j <= 31 ∧ c = 2 ^ j.
Proof.
  intros Hn. unfold best_bucket_cnt. cbv zeta. set (c0 := if n / 2 <? 4 then 4 else n / 2).
  assert (Hc0 : 4 <= c0 < 4294967296) by (unfold c0; destruct (Z.ltb_spec (n / 2) 4); zdm).
  apply (loop_total (λ n c, (n <= 32)%nat ∧ (2 ^ (32 - Z.of_nat n) | c) ∧ 4 <= c < 4294967296)) with (n := 32%nat);
    [| |lia].
  2:{ split; [lia|]. split; [|done]. apply Z.divide_1_l. }
  clear. intros n c (Hn & Hd & Hc). pose proof (clear_bit (32 - Z.of_nat n) c ltac:(lia) Hd Hc) as H.
  eexists. split; [done|]. destruct (is_power_of_2 c); cbn [negb]; [done|].
  destruct n as [|n].
  - apply Z.divide_pos_le in Hd; [|lia]. change (2 ^ (32 - Z.of_nat 0)) with 4294967296 in Hd. lia.
  - exists n. split; [lia|]. split; [lia|]. by replace (32 - Z.of_nat n) with (32 - Z.of_nat (S n) + 1) by lia.
Qed.

(** ** The set of elements *)

(** What a table expects of its two functions: [less] is a strict weak order, and
    elements that are equal in it have the same hash. *)
Class HashOrder {E} (hash : E → Z) (less : E → E → bool) : Prop := {
  ho_u32 x : is_u32 (hash x);
  ho_irrefl x : less x x = false;
  ho_trans x y z : less x y = false → less y x = false → less y z = false → less z y = false →
    less x z = false ∧ less z x = false;
  ho_hash x y : less x y = false → less y x = false → hash x = hash y }.

Section table.
Context {E : Type} `{!EqDecision E} (hash : E → Z) (less : E → E → bool) {HO : HashOrder hash less}.

Abbreviation table := (hash_table E).
Abbreviation find_bucket := (find_bucket hash).

(** Equality of elements for the table. *)
Definition eqv (x y : E) : bool := negb (less x y) && negb (less y x).

Lemma eqv_true x y : eqv x y = true ↔ less x y = false ∧ less y x = false.
Proof. unfold eqv. by rewrite andb_true_iff, !negb_true_iff. Qed.

Lemma eqv_sym x y : eqv x y = eqv y x.
Proof. unfold eqv. by rewrite andb_comm. Qed.

Lemma eqv_refl x : eqv x x = true.
Proof. apply eqv_true. by rewrite ho_irrefl. Qed.

Lemma eqv_trans x y z : eqv x y = true → eqv y z = true → eqv x z = true.
Proof. rewrite !eqv_true. intros [? ?] [? ?]. by apply (ho_trans x y z). Qed.

Definition members (h : table) : list E := concat h.(buckets).

(** The number of buckets is a power of two, and every element is in the bucket
    of its hash. *)
Definition placed (h : table) : Prop :=
  (∃ j, 2 <= j <= 31 ∧ bucket_cnt h = 2 ^ j) ∧
  ∀ b l x, h.(buckets) !! b = Some l → x ∈ l → find_bucket h x = b.

(** No two elements are equal. *)
Definition distinct (l : list E) : Prop :=
  NoDup l ∧ ∀ x y, x ∈ l → y ∈ l → eqv x y = true → x = y.

Record hash_wf (h : table) : Prop := {
  hw_placed : placed h;
  hw_distinct : distinct (members h);
  hw_cnt : h.(elem_cnt) = Z.of_nat (length (members h)) }.

Lemma bucket_exists h x : placed h → ∃ l, h.(buckets) !! find_bucket h x = Some l.
Proof.
  intros [(j & Hj & Hc) _]. apply lookup_lt_is_Some_2. unfold Hash.find_bucket.
  assert (Hp : 0 < 2 ^ j <= 2147483648).
  { split; [apply Z.pow_pos_nonneg; lia|]. change 2147483648 with (2 ^ 31). apply Z.pow_le_mono_r; lia. }
  rewrite Hc, u32_small by lia. replace (2 ^ j - 1) with (Z.ones j) by (rewrite Z.ones_equiv; lia).
  rewrite Z.land_ones by lia. pose proof (Z.mod_pos_bound (hash x) (2 ^ j) ltac:(lia)). unfold bucket_cnt in Hc. lia.
Qed.

Lemma find_bucket_cnt h h' x : bucket_cnt h = bucket_cnt h' → find_bucket h x = find_bucket h' x.
Proof. unfold Hash.find_bucket. by intros ->. Qed.

Lemma find_bucket_eqv h x y : eqv x y = true → find_bucket h x = find_bucket h y.
Proof. intros [H1 H2]%eqv_true. unfold Hash.find_bucket. by rewrite (ho_hash x y). Qed.

Lemma elem_of_members h x : x ∈ members h ↔ ∃ b l, h.(buckets) !! b = Some l ∧ x ∈ l.
Proof.
  unfold members. rewrite list_elem_of_In, in_concat. split.
  - intros (l & Hl & Hx). apply list_elem_of_In in Hl, Hx. apply list_elem_of_lookup in Hl as [b Hb]. eauto.
  - intros (b & l & Hb & Hx). exists l. rewrite <-!list_elem_of_In. split; [|done]. by eapply list_elem_of_lookup_2.
Qed.

Lemma find_elem_some l e x : find_elem less l e = Some x → x ∈ l ∧ eqv x e = true.
Proof.
  induction l as [|y l IH]; [done|]. cbn. destruct (negb _ && negb _) eqn:Ey.
  - intros [= ->]. split; [apply list_elem_of_here|done].
  - intros H. destruct (IH H). split; [by apply list_elem_of_further|done].
Qed.

Lemma find_elem_none l e : find_elem less l e = None → ∀ x, x ∈ l → eqv x e = false.
Proof.
  induction l as [|y l IH]; [by intros _ x ?%not_elem_of_nil|]. cbn. destruct (negb _ && negb _) eqn:Ey; [done|].
  intros H x [->|Hx]%elem_of_cons; [done|by apply IH].
Qed.

(** Searching the bucket of [e] is searching the table. *)
Lemma find_ok h e :
  placed h →
  ∃ l, get_bucket h (find_bucket h e) = Ok l ∧
    match find_elem less l e with
    | Some x => x ∈ members h ∧ eqv x e = true
    | None => ∀ x, x ∈ members h → eqv x e = false
    end.
Proof.
  intros Hp. destruct (bucket_exists h e Hp) as [l Hl]. exists l. unfold get_bucket. rewrite Hl. split; [done|].
  destruct (find_elem less l e) as [x|] eqn:Ef.
  - apply find_elem_some in Ef as [Hx He]. split; [|done]. apply elem_of_members. eauto.
  - intros x Hx. apply elem_of_members in Hx as (b & l' & Hb & Hx). destruct (eqv x e) eqn:Ee; [|done].
    pose proof (proj2 Hp b l' x Hb Hx) as Hfb. rewrite (find_bucket_eqv h x e Ee) in Hfb. subst b.
    rewrite Hl in Hb. injection Hb as ->. by rewrite (find_elem_none _ _ Ef x Hx) in Ee.
Qed.

Lemma concat_insert (bs : list (list E)) b l e :
  bs !! b = Some l → concat (<[b := e :: l]> bs) ≡ₚ e :: concat bs.
Proof.
  revert b. induction bs as [|l' bs IH]; intros b Hb; [done|]. destruct b as [|b]; cbn in *.
  - by injection Hb as ->.
  - rewrite (IH b Hb). symmetry. apply Permutation_middle.
Qed.

Lemma concat_filter (P : E → Prop) `{∀ x, Decision (P x)} (bs : list (list E)) :
  concat (filter P <$> bs) = filter P (concat bs).
Proof. induction bs as [|l bs IH]; [done|]. cbn. by rewrite filter_app, IH. Qed.

Lemma push_ok h e :
  placed h →
  ∃ h', push_bucket h (find_bucket h e) e = Ok h' ∧ placed h' ∧ members h' ≡ₚ e :: members h ∧
    h'.(elem_cnt) = h.(elem_cnt) ∧ bucket_cnt h' = bucket_cnt h.
Proof.
  intros Hp. destruct (bucket_exists h e Hp) as [l Hl]. unfold push_bucket, get_bucket. rewrite Hl. cbn.
  eexists. split; [done|]. set (h' := mk_hash _ _).
  assert (Hc : bucket_cnt h' = bucket_cnt h) by (unfold h', bucket_cnt; cbn; by rewrite length_insert).
  split; [|split; [by apply concat_insert|done]]. split; [by rewrite Hc; apply Hp|].
  intros b l' x Hb Hx. rewrite (find_bucket_cnt h' h) by done. cbn in Hb.
  apply list_lookup_insert_Some in Hb as [(<- & <- & _)|(Hne & Hb)]; [|by apply (proj2 Hp b l')].
  apply elem_of_cons in Hx as [->|Hx]; [done|by apply (proj2 Hp _ l)].
Qed.

Lemma move_elems_ok h l :
  placed h →
  ∃ h', move_elems hash h l = Ok h' ∧ placed h' ∧ members h' ≡ₚ l ++ members h ∧ h'.(elem_cnt) = h.(elem_cnt).
Proof.
  revert h. induction l as [|e l IH]; intros h Hp; [by exists h|]. cbn [move_elems].
  destruct (push_ok h e Hp) as (h1 & -> & Hp1 & Hm1 & Hc1 & _). rewrite bind_ret.
  destruct (IH h1 Hp1) as (h2 & -> & Hp2 & Hm2 & Hc2). exists h2. split; [done|]. split; [done|].
  split; [|congruence]. rewrite Hm2, Hm1. cbn. symmetry. apply Permutation_middle.
Qed.

Lemma move_buckets_ok h old :
  placed h →
  ∃ h', move_buckets hash h old = Ok h' ∧ placed h' ∧ members h' ≡ₚ concat old ++ members h ∧
    h'.(elem_cnt) = h.(elem_cnt).
Proof.
  revert h. induction old as [|l old IH]; intros h Hp; [by exists h|]. cbn [move_buckets].
  destruct (move_elems_ok h l Hp) as (h1 & -> & Hp1 & Hm1 & Hc1). rewrite bind_ret.
  destruct (IH h1 Hp1) as (h2 & -> & Hp2 & Hm2 & Hc2). exists h2. split; [done|]. split; [done|].
  split; [|congruence]. rewrite Hm2, Hm1. cbn. rewrite !app_assoc. f_equiv. apply Permutation_app_comm.
Qed.

Lemma distinct_perm l l' : l ≡ₚ l' → distinct l → distinct l'.
Proof.
  intros Hp [Hn Hu]. split; [by rewrite <-Hp|]. intros x y. rewrite <-!Hp. apply Hu.
Qed.

Lemma rehash_ok got h :
  hash_wf h → h.(elem_cnt) < 4294967296 →
  ∃ h', rehash hash got h = Ok h' ∧ hash_wf h' ∧ members h' ≡ₚ members h.
Proof.
  intros Hw Hlt. pose proof Hw as [Hp Hd Hc]. unfold rehash.
  destruct (best_bucket_cnt_ok h.(elem_cnt)) as (c & -> & j & Hj & Ec); [lia|]. rewrite bind_ret.
  destruct (c =? bucket_cnt h); [by exists h|]. destruct got; cbn [negb]; [|by exists h].
  set (h0 := mk_hash h.(elem_cnt) (replicate (Z.to_nat c) [])).
  assert (Hnil : members h0 = []) by (unfold members, h0; cbn; induction (Z.to_nat c); done).
  assert (Hp0 : placed h0).
  { pose proof (Z.pow_pos_nonneg 2 j ltac:(lia) ltac:(lia)). split.
    - exists j. split; [done|]. unfold bucket_cnt, h0. cbn. rewrite length_replicate. lia.
    - intros b l x Hb Hx. assert (Hm : x ∈ members h0) by (apply elem_of_members; eauto).
      rewrite Hnil in Hm. by apply not_elem_of_nil in Hm. }
  destruct (move_buckets_ok h0 h.(buckets) Hp0) as (h' & -> & Hp' & Hm' & Hc').
  rewrite Hnil, app_nil_r in Hm'. fold (members h) in Hm'. exists h'. split; [done|]. split; [|done].
  split; [done|by eapply distinct_perm|]. rewrite Hc', Hm'. cbn. done.
Qed.
Lemma filter_same (P Q : E → Prop) `{∀ x, Decision (P x), ∀ x, Decision (Q x)} (l : list E) :
  (∀ x, x ∈ l → (P x ↔ Q x)) → filter P l = filter Q l.
Proof.
  induction l as [|x l IH]; intros Hpq; [done|]. rewrite !filter_cons, IH by (intros; apply Hpq; by right).
  pose proof (Hpq x (list_elem_of_here _ _)). repeat case_decide; naive_solver.
Qed.

Lemma remove_ok h x :
  hash_wf h → x ∈ members h → h.(elem_cnt) < 4294967296 →
  hash_wf (remove_elem h x) ∧ members (remove_elem h x) = filter (λ y, eqv y x = false) (members h) ∧
  bucket_cnt (remove_elem h x) = bucket_cnt h.
Proof.
  intros [Hp [Hn Hu] Hc] Hx Hlt.
  assert (Hm : members (remove_elem h x) = filter (λ y, y ≠ x) (members h)) by apply concat_filter.
  assert (Hb : bucket_cnt (remove_elem h x) = bucket_cnt h) by (unfold bucket_cnt; cbn; by rewrite length_fmap).
  split; [|split; [|done]].
  - split.
    + split; [rewrite Hb; apply Hp|]. intros b l y Hl Hy. rewrite (find_bucket_cnt _ h) by done.
      cbn in Hl. rewrite list_lookup_fmap in Hl. destruct (buckets h !! b) as [l0|] eqn:El; [|done].
      injection Hl as <-. apply list_elem_of_filter in Hy as [_ Hy]. by apply (proj2 Hp b l0).
    + rewrite Hm. split; [by apply NoDup_filter|]. intros y z [_ Hy]%list_elem_of_filter [_ Hz]%list_elem_of_filter.
      by apply Hu.
    + rewrite Hm. cbn. rewrite Hc in *. apply elem_of_Permutation in Hx as [l' Hl'].
      assert (Hf : length (filter (λ y, y ≠ x) (members h)) = length l').
      { rewrite Hl'. rewrite filter_cons_False by tauto. f_equal. rewrite Hl' in Hn. apply NoDup_cons in Hn as [Hx' _].
        clear -Hx'. induction l' as [|y l' IH]; [done|]. rewrite filter_cons_True.
        - rewrite IH; [done|]. intros H. apply Hx'. by apply list_elem_of_further.
        - intros ->. apply Hx', list_elem_of_here. }
      rewrite Hf. rewrite Hl' in *. cbn [length] in *. rewrite u32_small by lia. lia.
  - rewrite Hm. apply filter_same. intros y Hy. split; intros H.
    + destruct (eqv y x) eqn:Ee; [|done]. by destruct (H (Hu y x Hy Hx Ee)).
    + intros ->. by rewrite eqv_refl in H.
Qed.

Lemma insert_ok h e :
  hash_wf h → (∀ x, x ∈ members h → eqv x e = false) → h.(elem_cnt) + 1 < 4294967296 →
  ∃ h', insert_elem h (find_bucket h e) e = Ok h' ∧ hash_wf h' ∧ members h' ≡ₚ e :: members h.
Proof.
  intros [Hp [Hn Hu] Hc] Hno Hlt. unfold insert_elem. set (h0 := mk_hash (u32 _) _).
  assert (Hp0 : placed h0) by apply Hp. destruct (push_ok h0 e Hp0) as (h' & E' & Hp' & Hm' & Hc' & _).
  change (members h0) with (members h) in Hm'. exists h'. split; [exact E'|]. split; [|done]. split; [done| |].
  - eapply distinct_perm; [by symmetry|]. split.
    + apply NoDup_cons. split; [|done]. intros He. pose proof (Hno e He) as H. by rewrite eqv_refl in H.
    + intros x y [->|Hx]%elem_of_cons [->|Hy]%elem_of_cons; [done| | |by apply Hu].
      * rewrite eqv_sym, (Hno y Hy). done.
      * by rewrite (Hno x Hx).
  - rewrite Hc', Hm'. cbn [h0 elem_cnt length]. rewrite u32_small by lia. lia.
Qed.

Lemma filter_none e (l : list E) : (∀ x, x ∈ l → eqv x e = false) → filter (λ x, eqv x e = false) l = l.
Proof.
  intros H. induction l as [|x l IH]; [done|]. rewrite filter_cons_True by apply H, list_elem_of_here.
  f_equal. apply IH. intros y Hy. apply H. by right.
Qed.

(** Elements equal to [x] and elements equal to [e] are the same when [x] and [e]
    are equal. *)
Lemma filter_eqv x e (l : list E) : eqv x e = true → filter (λ y, eqv y x = false) l = filter (λ y, eqv y e = false) l.
Proof.
  intros H. apply filter_same. intros y _. rewrite <-!not_true_iff_false.
  split; intros Hn Hy; apply Hn; [apply (eqv_trans y e x); [done|by rewrite eqv_sym]|by apply (eqv_trans y x e)].
Qed.

(** *** Iteration *)

(** The elements an iterator has yet to visit. *)
Definition unvisited (h : table) (i : hash_iterator E) : list E :=
  i.(it_rest) ++ concat (drop (S i.(it_bucket)) h.(buckets)).

Lemma next_bucket_ok h b :
  let i := next_bucket (drop b h.(buckets)) b in
  match concat (drop b h.(buckets)) with
  | x :: l => i.(it_elem) = Some x ∧ unvisited h i = l
  | [] => i.(it_elem) = None
  end.
Proof.
  cbv zeta. remember (drop b h.(buckets)) as bs eqn:Eb. revert b Eb.
  induction bs as [|l bs IH]; intros b Eb; [done|].
  assert (Ed : bs = drop (S b) h.(buckets)) by (rewrite <-Nat.add_1_r, <-drop_drop, <-Eb; done).
  destruct l as [|x l]; cbn [next_bucket concat app]; [by apply IH|].
  split; [done|]. unfold unvisited. cbn [it_rest it_bucket]. by rewrite Ed.
Qed.

Lemma hash_next_ok h i :
  match unvisited h i with
  | x :: l => (hash_next h i).1 = Some x ∧ unvisited h (hash_next h i).2 = l
  | [] => (hash_next h i).1 = None
  end.
Proof.
  unfold hash_next, unvisited at 1. destruct i.(it_rest) as [|x l]; cbn [app]; [|done].
  pose proof (next_bucket_ok h (S i.(it_bucket))) as H. cbv zeta in H.
  by destruct (concat (drop (S i.(it_bucket)) h.(buckets))).
Qed.

Lemma hash_first_ok h : placed h → ∃ i, hash_first h = Ok i ∧ unvisited h i = members h.
Proof.
  intros [(j & Hj & Hc) _]. unfold hash_first, get_bucket, bucket_cnt in *. pose proof (Z.pow_pos_nonneg 2 j).
  unfold unvisited, members. destruct h.(buckets) as [|l bs]; [cbn in Hc; lia|]. by eexists.
Qed.
End table.

(** ** Properties *)

(** C19: A hash table implements a set of elements of which no two are equal.
    hash_find() returns the member equal to the one given, if there is one.
    hash_insert() adds the new element unless there is an equal one, which it
    returns.  hash_replace() puts the new element in the place of an equal one,
    and hash_delete() removes the equal one.  Whether the table is then rehashed
    into more or fewer buckets, and whether there is memory for that, makes no
    difference. *)
Theorem hash_table_refines {E} `{!EqDecision E} (hash : E → Z) (less : E → E → bool) got h e :
  HashOrder hash less → hash_wf hash less h → h.(elem_cnt) + 1 < 4294967296 →
  let equal x := eqv less x e in
  let others := filter (λ x, equal x = false) (members h) in
  ∃ old, hash_find hash less h e = Ok old ∧
    match old with
    | Some x => x ∈ members h ∧ equal x = true
    | None => ∀ x, x ∈ members h → equal x = false
    end ∧
    (∃ h', hash_insert hash less got h e = Ok (old, h') ∧ hash_wf hash less h' ∧
       members h' ≡ₚ match old with None => e :: members h | Some _ => members h end) ∧
    (∃ h', hash_replace hash less got h e = Ok (old, h') ∧ hash_wf hash less h' ∧ members h' ≡ₚ e :: others) ∧
    (∃ h', hash_delete hash less got h e = Ok (old, h') ∧ hash_wf hash less h' ∧ members h' ≡ₚ others).
Proof.
  intros HO Hw Hlt equal others. pose proof (hw_cnt _ _ _ Hw) as Hc.
  destruct (find_ok hash less h e (hw_placed _ _ _ Hw)) as (l & El & Hf).
  exists (find_elem less l e).
  unfold hash_insert, hash_replace, hash_delete, hash_find. rewrite El, !bind_ret. cbv zeta.
  split; [done|]. split; [done|].
  destruct (find_elem less l e) as [x|].
  - destruct Hf as [Hx Hxe]. destruct (remove_ok hash less h x Hw Hx ltac:(lia)) as (Hwr & Hmr & Hbr).
    rewrite (filter_eqv hash less x e _ Hxe) in Hmr. fold others in Hmr.
    assert (Hle : (remove_elem h x).(elem_cnt) <= h.(elem_cnt)).
    { rewrite Hc, (hw_cnt _ _ _ Hwr), Hmr. unfold others.
      apply inj_le, length_filter. }
    split; [|split].
    + destruct (rehash_ok hash less got h Hw ltac:(lia)) as (h' & Eh & Hw' & Hm').
      exists h'. cbn [mbind outcome_bind]. by rewrite Eh.
    + destruct (insert_ok hash less (remove_elem h x) e Hwr) as (h1 & E1 & Hw1 & Hm1); [|lia|].
      { intros y. rewrite Hmr. by intros [? _]%list_elem_of_filter. }
      rewrite (find_bucket_cnt hash _ h) in E1 by done. rewrite E1, bind_ret.
      destruct (rehash_ok hash less got h1 Hw1) as (h' & -> & Hw' & Hm').
      { rewrite (hw_cnt _ _ _ Hw1), Hm1. cbn [length]. pose proof (hw_cnt _ _ _ Hwr). lia. }
      exists h'. split; [done|]. split; [done|]. by rewrite Hm', Hm1, Hmr.
    + destruct (rehash_ok hash less got _ Hwr ltac:(lia)) as (h' & -> & Hw' & Hm'). exists h'.
      split; [done|]. split; [done|]. by rewrite Hm', Hmr.
  - assert (Ho : others = members h) by by apply filter_none.
    destruct (insert_ok hash less h e Hw Hf Hlt) as (h1 & E1 & Hw1 & Hm1). rewrite E1, !bind_ret.
    destruct (rehash_ok hash less got h1 Hw1) as (h' & -> & Hw' & Hm').
    { rewrite (hw_cnt _ _ _ Hw1), Hm1. cbn [length]. lia. }
    cbn [mbind outcome_bind]. rewrite Ho. split; [|split]; [| |by exists h];
      (exists h'; split; [done|]; split; [done|]; by rewrite Hm', Hm1).
Qed.

(** Numbers hashed and compared by their tens. *)
Definition tens_hash (x : Z) : Z := u32 (x / 10).
Definition tens_less (x y : Z) : bool := x / 10 <? y / 10.

#[local] Instance tens_order : HashOrder tens_hash tens_less.
Proof.
  split; unfold tens_hash, tens_less.
  - intros x. apply u32_range.
  - intros x. apply Z.ltb_irrefl.
  - intros x y z. rewrite !Z.ltb_ge. lia.
  - intros x y. rewrite !Z.ltb_ge. intros. f_equal. lia.
Qed.

Definition demo_hash : hash_table Z := mk_hash 2 [[83]; [57]; []; []].

Lemma demo_hash_wf : hash_wf tens_hash tens_less demo_hash.
Proof.
  split; [split; [by exists 2|]|split|done].
  - intros b l x Hb Hx. destruct b as [|[|[|[|b]]]]; cbn in Hb; try done; injection Hb as <-;
      repeat (apply elem_of_cons in Hx as [->|Hx]; [by vm_compute|]); by apply not_elem_of_nil in Hx.
  - by apply (bool_decide_unpack _).
  - intros x y Hx Hy. cbn in Hx, Hy.
    repeat (apply elem_of_cons in Hx as [->|Hx]; [|]); repeat (apply elem_of_cons in Hy as [->|Hy]; [done|]);
      try by apply not_elem_of_nil in Hy.
    all: by apply not_elem_of_nil in Hx.
Qed.

(** 52 is equal to 57 here. *)
Lemma hash_table_refines_witness :
  ∃ h', hash_replace tens_hash tens_less true demo_hash 52 = Ok (Some 57, h') ∧ members h' ≡ₚ [52; 83].
Proof.
  destruct (hash_table_refines tens_hash tens_less true demo_hash 52 tens_order demo_hash_wf ltac:(done))
    as (old & Ef & _ & _ & (h' & Er & _ & Hm) & _).
  assert (old = Some 57) as -> by (vm_compute in Ef; congruence). exists h'. split; [exact Er|exact Hm].
Defined.
