(* ===== verification/Bitmap.v ===== *)
(** * Bitmaps: lib/kernel/bitmap.c

    The bitmap as the code has it: a bit count and an array of 32-bit elements
    ([unsigned long] on the 80x86).  Every operation, with the [size_t]
    arithmetic of its assertions written out.  The specification reads the
    bitmap as a function from indices to booleans ([bit]).

    The input and output of bitmaps to files is with the free map, in
    FreeMap.v, which owns the only bitmap that is stored. *)

From S2P Require Import Prelude.

Open Scope Z_scope.

(** ** Definitions *)

Record bitmap := mk_bitmap { bit_cnt : Z; bits : list Z }.

#[export] Instance bitmap_eq_dec : EqDecision bitmap.
Proof. solve_decision. Defined.

Definition ELEM_BITS : Z := 32.
Definition BITMAP_ERROR : Z := 4294967295.

Definition elem_idx (bit_idx : Z) : Z := bit_idx / ELEM_BITS.
Definition bit_mask (bit_idx : Z) : Z := u32 (Z.shiftl 1 (bit_idx mod ELEM_BITS)).
Definition elem_cnt (bit_cnt : Z) : Z := u32 (bit_cnt + ELEM_BITS - 1) / ELEM_BITS.
Definition byte_cnt (bit_cnt : Z) : Z := u32 (4 * elem_cnt bit_cnt).

Definition last_mask (b : bitmap) : Z :=
  let last_bits := b.(bit_cnt) mod ELEM_BITS in
  if last_bits =? 0 then u32 (-1) else u32 (u32 (Z.shiftl 1 last_bits) - 1).

Definition bitmap_size (b : bitmap) : Z := b.(bit_cnt).

(** The read-modify-write of one element: [orl], [andl] or [xorl]. *)
Definition update_elem (b : bitmap) (idx : Z) (f : Z → Z) : outcome bitmap :=
  e ← deref (b.(bits) !! Z.to_nat idx);
  Ok (mk_bitmap b.(bit_cnt) (<[Z.to_nat idx := f e]> b.(bits))).

Definition bitmap_mark (b : bitmap) (bit_idx : Z) : outcome bitmap :=
  update_elem b (elem_idx bit_idx) (λ e, Z.lor e (bit_mask bit_idx)).

Definition bitmap_reset (b : bitmap) (bit_idx : Z) : outcome bitmap :=
  update_elem b (elem_idx bit_idx)
    (λ e, Z.land e (u32 (Z.lnot (bit_mask bit_idx)))).

Definition bitmap_flip (b : bitmap) (bit_idx : Z) : outcome bitmap :=
  update_elem b (elem_idx bit_idx) (λ e, Z.lxor e (bit_mask bit_idx)).

Definition bitmap_set (b : bitmap) (idx : Z) (value : bool) : outcome bitmap :=
  ASSERT (idx <? b.(bit_cnt));;
  if value then bitmap_mark b idx else bitmap_reset b idx.

Definition bitmap_test (b : bitmap) (idx : Z) : outcome bool :=
  ASSERT (idx <? b.(bit_cnt));;
  e ← deref (b.(bits) !! Z.to_nat (elem_idx idx));
  Ok (negb (Z.land e (bit_mask idx) =? 0)).

Definition bitmap_set_multiple (b : bitmap) (start cnt : Z) (value : bool)
  : outcome bitmap :=
  ASSERT (start <=? b.(bit_cnt));;
  ASSERT (u32 (start + cnt) <=? b.(bit_cnt));;
  for_ (Z.to_nat cnt) 0 (λ i b, bitmap_set b (u32 (start + i)) value) b.

Definition bitmap_set_all (b : bitmap) (value : bool) : outcome bitmap :=
  bitmap_set_multiple b 0 (bitmap_size b) value.

Definition bitmap_count (b : bitmap) (start cnt : Z) (value : bool) : outcome Z :=
  ASSERT (start <=? b.(bit_cnt));;
  ASSERT (u32 (start + cnt) <=? b.(bit_cnt));;
  for_ (Z.to_nat cnt) 0 (λ i value_cnt,
    t ← bitmap_test b (u32 (start + i));
    Ok (if eqb t value then u32 (value_cnt + 1) else value_cnt)) 0.

Definition bitmap_contains (b : bitmap) (start cnt : Z) (value : bool)
  : outcome bool :=
  ASSERT (start <=? b.(bit_cnt));;
  ASSERT (u32 (start + cnt) <=? b.(bit_cnt));;
  r ← for_find (Z.to_nat cnt) 0 (λ i,
        t ← bitmap_test b (u32 (start + i));
        Ok (if eqb t value then Some true else None));
  Ok (default false r).

Definition bitmap_any (b : bitmap) (start cnt : Z) : outcome bool :=
  bitmap_contains b start cnt true.

Definition bitmap_none (b : bitmap) (start cnt : Z) : outcome bool :=
  r ← bitmap_contains b start cnt true; Ok (negb r).

Definition bitmap_all (b : bitmap) (start cnt : Z) : outcome bool :=
  r ← bitmap_contains b start cnt false; Ok (negb r).

Definition bitmap_scan (b : bitmap) (start cnt : Z) (value : bool) : outcome Z :=
  ASSERT (start <=? b.(bit_cnt));;
  if cnt <=? b.(bit_cnt) then
    let last := b.(bit_cnt) - cnt in
    r ← for_find (Z.to_nat (last - start + 1)) start (λ i,
          c ← bitmap_contains b i cnt (negb value);
          Ok (if (c : bool) then None else Some i));
    Ok (default BITMAP_ERROR r)
  else Ok BITMAP_ERROR.

Definition bitmap_scan_and_flip (b : bitmap) (start cnt : Z) (value : bool)
  : outcome (bitmap * Z) :=
  idx ← bitmap_scan b start cnt value;
  if idx =? BITMAP_ERROR then Ok (b, idx)
  else b ← bitmap_set_multiple b idx cnt (negb value); Ok (b, idx).

(** bitmap_create() on the answers of its two calls of malloc(): whether the
    structure was allocated, and the elements' memory with whatever it held.
    A null [bits] is accepted when there are no bits to store. *)
Definition bitmap_create (got : bool) (block : option (list Z)) (bit_cnt : Z)
  : outcome (option bitmap) :=
  if negb got then Ok None
  else
    match block with
    | Some mem => b ← bitmap_set_all (mk_bitmap bit_cnt mem) false; Ok (Some b)
    | None =>
        if bit_cnt =? 0 then b ← bitmap_set_all (mk_bitmap bit_cnt []) false; Ok (Some b)
        else Ok None
    end.

Definition bitmap_buf_size (bit_cnt : Z) : Z := u32 (8 + byte_cnt bit_cnt).

(** The bitmap built at the start of a buffer: [mem] is the elements' part of
    the buffer. *)
Definition bitmap_create_in_buf (bit_cnt : Z) (mem : list Z) (block_size : Z)
  : outcome bitmap :=
  ASSERT (bitmap_buf_size bit_cnt <=? block_size);;
  bitmap_set_all (mk_bitmap bit_cnt mem) false.

(** ** The bitmap as a function from indices to booleans *)

Definition bit (b : bitmap) (i : Z) : bool :=
  match b.(bits) !! Z.to_nat (i / 32) with
  | Some e => Z.testbit e (i mod 32)
  | None => false
  end.

(** The elements are 32-bit and there are enough of them for the bits, whose
    indices are all distinct from BITMAP_ERROR. *)
Definition wf (b : bitmap) : Prop :=
  0 <= b.(bit_cnt) < BITMAP_ERROR ∧
  b.(bit_cnt) <= 32 * Z.of_nat (length b.(bits)) ∧
  Forall (λ e, is_u32 e) b.(bits).

(** ** Single bits *)

Lemma bit_mask_pow i : 0 <= i → bit_mask i = 2 ^ (i mod 32).
Proof.
  intros Hi. unfold bit_mask, ELEM_BITS.
  assert (Hm : 0 <= i mod 32 < 32) by (apply Z.mod_pos_bound; lia).
  rewrite Z.shiftl_1_l, u32_small; [done|]. split; [lia|].
  change 4294967296 with (2 ^ 32). apply Z.pow_lt_mono_r; lia.
Qed.

Lemma u32_lnot_testbit z k :
  0 <= k < 32 → Z.testbit (u32 (Z.lnot z)) k = negb (Z.testbit z k).
Proof.
  intros Hk. unfold u32. change 4294967296 with (2 ^ 32).
  rewrite Z.mod_pow2_bits_low by lia. apply Z.lnot_spec; lia.
Qed.

Lemma bitwise_range f e m :
  (∀ k, 0 <= k → Z.testbit (f e m) k = true →
        Z.testbit e k = true ∨ Z.testbit m k = true) →
  0 <= f e m → is_u32 e → is_u32 m → is_u32 (f e m).
Proof.
  intros Hf Hpos He Hm. split; [done|].
  destruct (decide (f e m < 4294967296)) as [|Hge]; [done|].
  assert (Hlog : 32 <= Z.log2 (f e m)) by (apply (Z.log2_le_pow2 _ 32); lia).
  pose proof (Z.bit_log2 (f e m) ltac:(lia)) as Hb.
  apply Hf in Hb; [|lia].
  assert (Hhi : ∀ x, is_u32 x → Z.testbit x (Z.log2 (f e m)) = false).
  { intros x Hx. destruct (decide (x = 0)) as [->|]; [apply Z.bits_0|].
    apply Z.bits_above_log2; [lia|].
    assert (Z.log2 x < 32) by (apply (Z.log2_lt_pow2 x 32); lia). lia. }
  rewrite (Hhi e), (Hhi m) in Hb by lia. naive_solver.
Qed.

Lemma bit_mask_range i : 0 <= i → is_u32 (bit_mask i).
Proof. intros. apply u32_range. Qed.

(** What an update of one element does to the bits: [g] tells the new value of
    bit [k] of the element that holds bit [i]. *)
Lemma update_elem_spec b i f (g : Z → bool → bool) :
  wf b → 0 <= i < b.(bit_cnt) →
  (∀ e, is_u32 e → is_u32 (f e)) →
  (∀ e k, is_u32 e → 0 <= k < 32 → Z.testbit (f e) k = g k (Z.testbit e k)) →
  ∃ b', update_elem b (elem_idx i) f = Ok b' ∧ wf b' ∧ b'.(bit_cnt) = b.(bit_cnt) ∧
    ∀ j, 0 <= j → bit b' j =
      if j / 32 =? i / 32 then g (j mod 32) (bit b j) else bit b j.
Proof.
  intros (Hc & Hl & Hf) Hi Hr Hg. unfold update_elem, elem_idx, ELEM_BITS.
  assert (Hlt : (Z.to_nat (i / 32) < length (bits b))%nat) by zdm.
  destruct (lookup_lt_is_Some_2 _ _ Hlt) as [e He]. rewrite He. simpl.
  eexists; split; [done|]. split; [|split; [done|]].
  - split; [done|]. split; cbn; [by rewrite length_insert|].
    apply Forall_insert; [done|]. apply Hr. by eapply Forall_lookup_1 in Hf.
  - intros j Hj. unfold bit; cbn [bits].
    destruct (Z.eqb_spec (j / 32) (i / 32)) as [E|E].
    + rewrite E, list_lookup_insert_eq, He by done.
      apply Hg; [by eapply Forall_lookup_1 in Hf|apply Z.mod_pos_bound; lia].
    + rewrite list_lookup_insert_ne; [done|]. zdm.
Qed.

Lemma same_bit i j : 0 <= i → 0 <= j →
  (j / 32 =? i / 32) && (i mod 32 =? j mod 32) = (j =? i).
Proof.
  intros. destruct (Z.eqb_spec (j / 32) (i / 32)), (Z.eqb_spec (i mod 32) (j mod 32)),
    (Z.eqb_spec j i); subst; simpl; try done; zdm.
Qed.

Section one_bit.
Context (b : bitmap) (i : Z) (Hwf : wf b) (Hi : 0 <= i < bit_cnt b).

(** The three read-modify-write operations agree on what they leave alone. *)
Lemma one_bit_spec f (op : bool → bool) :
  (∀ e, is_u32 e → is_u32 (f e)) →
  (∀ e k, is_u32 e → 0 <= k < 32 →
     Z.testbit (f e) k = if i mod 32 =? k then op (Z.testbit e k) else Z.testbit e k) →
  ∃ b', update_elem b (elem_idx i) f = Ok b' ∧ wf b' ∧ b'.(bit_cnt) = b.(bit_cnt) ∧
    ∀ j, 0 <= j → bit b' j = if j =? i then op (bit b j) else bit b j.
Proof.
  intros Hr Hg.
  destruct (update_elem_spec b i f (λ k x, if i mod 32 =? k then op x else x))
    as (b' & -> & Hwf' & Hc & Hb); [done..|].
  exists b'. split; [done|]. split; [done|]. split; [done|].
  intros j Hj. rewrite Hb by done. rewrite <-(same_bit i j) by lia.
  destruct (j / 32 =? i / 32), (i mod 32 =? j mod 32); done.
Qed.

Lemma bitmap_mark_ok :
  ∃ b', bitmap_mark b i = Ok b' ∧ wf b' ∧ b'.(bit_cnt) = b.(bit_cnt) ∧
    ∀ j, 0 <= j → bit b' j = if j =? i then true else bit b j.
Proof.
  apply (one_bit_spec _ (λ _, true)).
  - intros e He. apply (bitwise_range Z.lor); [|apply Z.lor_nonneg; split; [lia|]|done|].
    + intros k _. rewrite Z.lor_spec. apply orb_prop.
    + apply bit_mask_range; lia.
    + apply bit_mask_range; lia.
  - intros e k He Hk. rewrite bit_mask_pow, Z.lor_spec by lia.
    rewrite Z.pow2_bits_eqb by (apply Z.mod_pos_bound; lia).
    destruct (i mod 32 =? k); [apply orb_true_r|apply orb_false_r].
Qed.

Lemma bitmap_reset_ok :
  ∃ b', bitmap_reset b i = Ok b' ∧ wf b' ∧ b'.(bit_cnt) = b.(bit_cnt) ∧
    ∀ j, 0 <= j → bit b' j = if j =? i then false else bit b j.
Proof.
  apply (one_bit_spec _ (λ _, false)).
  - intros e He. apply (bitwise_range Z.land); [|apply Z.land_nonneg; left; lia|done|].
    + intros k _. rewrite Z.land_spec, andb_true_iff. tauto.
    + apply u32_range.
  - intros e k He Hk. rewrite Z.land_spec, u32_lnot_testbit, bit_mask_pow by lia.
    rewrite Z.pow2_bits_eqb by (apply Z.mod_pos_bound; lia).
    destruct (i mod 32 =? k); [apply andb_false_r|apply andb_true_r].
Qed.

Lemma bitmap_flip_ok :
  ∃ b', bitmap_flip b i = Ok b' ∧ wf b' ∧ b'.(bit_cnt) = b.(bit_cnt) ∧
    ∀ j, 0 <= j → bit b' j = if j =? i then negb (bit b j) else bit b j.
Proof.
  apply (one_bit_spec _ negb).
  - pose proof (bit_mask_range i ltac:(lia)) as Hm.
    intros e He. apply (bitwise_range Z.lxor); [|apply Z.lxor_nonneg; lia|done|done].
    intros k _. rewrite Z.lxor_spec. destruct (Z.testbit e k); naive_solver.
  - intros e k He Hk. rewrite bit_mask_pow, Z.lxor_spec by lia.
    rewrite Z.pow2_bits_eqb by (apply Z.mod_pos_bound; lia).
    destruct (i mod 32 =? k); [apply xorb_true_r|apply xorb_false_r].
Qed.

Lemma bitmap_set_ok v :
  ∃ b', bitmap_set b i v = Ok b' ∧ wf b' ∧ b'.(bit_cnt) = b.(bit_cnt) ∧
    ∀ j, 0 <= j → bit b' j = if j =? i then v else bit b j.
Proof.
  unfold bitmap_set. rewrite ASSERT_true by (apply Z.ltb_lt; lia). rewrite bind_ret.
  destruct v; [apply bitmap_mark_ok|apply bitmap_reset_ok].
Qed.

Lemma land_pow2_zero e k : 0 <= k → negb (Z.land e (2 ^ k) =? 0) = Z.testbit e k.
Proof.
  intros Hk. destruct (Z.eqb_spec (Z.land e (2 ^ k)) 0) as [E|E]; simpl.
  - rewrite <-(andb_true_r (Z.testbit e k)), <-(Z.pow2_bits_true k) by done.
    by rewrite <-Z.land_spec, E, Z.bits_0.
  - symmetry. destruct (Z.testbit e k) eqn:T; [done|]. exfalso. apply E.
    apply Z.bits_inj'. intros n Hn. rewrite Z.land_spec, Z.bits_0, Z.pow2_bits_eqb by done.
    destruct (Z.eqb_spec k n) as [->|]; [by rewrite T|apply andb_false_r].
Qed.

Lemma bitmap_test_ok : bitmap_test b i = Ok (bit b i).
Proof.
  destruct Hwf as (Hc & Hl & Hf). unfold bitmap_test, elem_idx, ELEM_BITS.
  rewrite ASSERT_true by (apply Z.ltb_lt; lia). rewrite bind_ret.
  assert (Hlt : (Z.to_nat (i / 32) < length (bits b))%nat) by zdm.
  destruct (lookup_lt_is_Some_2 _ _ Hlt) as [e He]. unfold bit. rewrite He. simpl.
  by rewrite bit_mask_pow, land_pow2_zero by (try apply Z.mod_pos_bound; lia).
Qed.
End one_bit.

(** ** Ranges *)

Definition in_range (start cnt j : Z) : bool := (start <=? j) && (j <? start + cnt).

(** All the bits of a range have the value. *)
Definition run_of (b : bitmap) (start cnt : Z) (v : bool) : Prop :=
  ∀ j, start <= j < start + cnt → bit b j = v.

Lemma wf_cnt b : wf b → 0 <= bit_cnt b < 4294967295.
Proof. by intros (? & _). Qed.

Section ranges.
Context (b : bitmap) (start cnt : Z) (Hwf : wf b).
Context (Hs : 0 <= start) (Hcnt : 0 <= cnt) (Hle : start + cnt <= bit_cnt b).

Lemma range_asserts {A} (k : outcome A) :
  (ASSERT (start <=? bit_cnt b);; ASSERT (u32 (start + cnt) <=? bit_cnt b);; k) = k.
Proof.
  pose proof (wf_cnt _ Hwf). rewrite u32_small by lia.
  rewrite !ASSERT_true by (apply Z.leb_le; lia). done.
Qed.

Lemma bitmap_set_multiple_ok v :
  ∃ b', bitmap_set_multiple b start cnt v = Ok b' ∧ wf b' ∧
    b'.(bit_cnt) = b.(bit_cnt) ∧
    ∀ j, 0 <= j → bit b' j = if in_range start cnt j then v else bit b j.
Proof.
  unfold bitmap_set_multiple. rewrite range_asserts.
  destruct (for_inv (λ i b', wf b' ∧ bit_cnt b' = bit_cnt b ∧
      ∀ j, 0 <= j → bit b' j = if in_range start i j then v else bit b j)
    (λ i b, bitmap_set b (u32 (start + i)) v) (Z.to_nat cnt) 0 b)
    as (b' & -> & HI).
  - intros i b1 Hi (Hw1 & Hc1 & Hb1). pose proof (wf_cnt _ Hwf).
    rewrite u32_small by lia.
    destruct (bitmap_set_ok b1 (start + i) Hw1 ltac:(lia) v) as (b2 & -> & Hw2 & Hc2 & Hb2).
    exists b2. split; [done|]. split; [done|]. split; [congruence|].
    intros j Hj. rewrite Hb2, Hb1 by done. unfold in_range.
    destruct (Z.eqb_spec j (start + i)), (Z.leb_spec start j),
      (Z.ltb_spec j (start + i)), (Z.ltb_spec j (start + (i + 1))); simpl; try done; lia.
  - split; [done|]. split; [done|]. intros j Hj. unfold in_range.
    destruct (Z.leb_spec start j), (Z.ltb_spec j (start + 0)); simpl; try done; lia.
  - exists b'. rewrite Z.add_0_l, Z2Nat.id in HI by done. done.
Qed.

Lemma bitmap_contains_ok v :
  ∃ r, bitmap_contains b start cnt v = Ok r ∧ (r = false ↔ run_of b start cnt (negb v)).
Proof.
  unfold bitmap_contains. rewrite range_asserts.
  destruct (for_find_spec (λ i, if eqb (bit b (start + i)) v then Some true else None)
    (λ i, t ← bitmap_test b (u32 (start + i));
          Ok (if eqb t v then Some true else None)) (Z.to_nat cnt) 0) as (r & -> & Hr).
  - intros j Hj. pose proof (wf_cnt _ Hwf).
    rewrite u32_small, bitmap_test_ok by (done || lia). done.
  - exists (default false r). split; [done|]. destruct r as [x|]; simpl.
    + destruct Hr as (j & Hj & E & _).
      destruct (eqb (bit b (start + j)) v) eqn:Hv; [|done]. injection E as <-.
      split; [done|]. intros Hrun. rewrite Hrun in Hv by lia. by destruct v.
    + split; [|done]. intros _ j Hj. specialize (Hr (j - start) ltac:(lia)).
      replace (start + (j - start)) with j in Hr by lia.
      by destruct (bit b j), v.
Qed.

Lemma bitmap_count_ok v :
  bitmap_count b start cnt v =
    Ok (Z.of_nat (length (List.filter (λ j, eqb (bit b (start + j)) v) (seqZ 0 cnt)))).
Proof.
  unfold bitmap_count. rewrite range_asserts.
  destruct (for_inv (λ i n, n = Z.of_nat (length (List.filter
      (λ j, eqb (bit b (start + j)) v) (seqZ 0 i))))
    (λ i n, t ← bitmap_test b (u32 (start + i));
            Ok (if eqb t v then u32 (n + 1) else n)) (Z.to_nat cnt) 0 0)
    as (n & -> & HI); [|done|].
  - intros i n Hi ->. pose proof (wf_cnt _ Hwf).
    rewrite (u32_small (start + i)), bitmap_test_ok by (done || lia). simpl.
    eexists; split; [done|].
    rewrite seqZ_app by lia. rewrite List.filter_app, length_app, Nat2Z.inj_add, Z.add_0_l.
    replace (seqZ i 1) with [i] by (unfold seqZ; simpl; by rewrite Z.add_0_l). simpl.
    pose proof (List.filter_length_le (λ j, eqb (bit b (start + j)) v) (seqZ 0 i)) as Hfl.
    rewrite length_seqZ in Hfl.
    destruct (eqb (bit b (start + i)) v); simpl; [rewrite u32_small|]; lia.
  - by rewrite HI, Z.add_0_l, Z2Nat.id.
Qed.
End ranges.

(** The group that bitmap_scan() looks for. *)
Definition group_at (b : bitmap) (start cnt : Z) (v : bool) (i : Z) : Prop :=
  start <= i ∧ i + cnt <= b.(bit_cnt) ∧ run_of b i cnt v.

Lemma bitmap_scan_ok b start cnt v :
  wf b → 0 <= start <= bit_cnt b → 0 <= cnt →
  ∃ r, bitmap_scan b start cnt v = Ok r ∧
    ((r = BITMAP_ERROR ∧ ∀ i, ¬ group_at b start cnt v i) ∨
     (r < BITMAP_ERROR ∧ group_at b start cnt v r ∧
      ∀ i, i < r → ¬ group_at b start cnt v i)).
Proof.
  intros Hwf Hs Hc. unfold bitmap_scan.
  rewrite ASSERT_true by (apply Z.leb_le; lia). rewrite bind_ret.
  assert (Hbc : 0 <= bit_cnt b < BITMAP_ERROR) by apply Hwf.
  destruct (Z.leb_spec cnt (bit_cnt b)) as [Hle|Hgt]; cycle 1.
  { eexists; split; [done|]. left. split; [done|]. intros i (? & ? & ?). lia. }
  set (ok := λ i, match bitmap_contains b i cnt (negb v) with Ok false => true | _ => false end).
  assert (Hok : ∀ i, start <= i → i + cnt <= bit_cnt b →
    bitmap_contains b i cnt (negb v) = Ok (negb (ok i)) ∧
    (ok i = true ↔ run_of b i cnt v)).
  { intros i Hi Hi'. destruct (bitmap_contains_ok b i cnt Hwf ltac:(lia) Hc Hi' (negb v))
      as (r & Hr & Hiff). unfold ok. rewrite Hr. rewrite negb_involutive in Hiff.
    destruct r; split; try done; rewrite <-Hiff; naive_solver. }
  destruct (for_find_spec (λ i, if ok i then Some i else None)
    (λ i, c ← bitmap_contains b i cnt (negb v); Ok (if (c : bool) then None else Some i))
    (Z.to_nat (bit_cnt b - cnt - start + 1)) start) as (r & -> & Hr).
  { intros j Hj. destruct (Hok j ltac:(lia) ltac:(lia)) as (-> & _). simpl.
    by destruct (ok j). }
  exists (default BITMAP_ERROR r). split; [done|]. destruct r as [x|]; simpl.
  - destruct Hr as (j & Hj & E & Hk). destruct (ok j) eqn:Ej; [|done].
    injection E as <-. destruct (Hok j ltac:(lia) ltac:(lia)) as (_ & Hiff).
    right. split; [lia|].
    split; [split; [lia|split; [lia|by apply Hiff]]|]. intros i Hi (Hi1 & Hi2 & Hi3).
    destruct (Hok i Hi1 Hi2) as (_ & Hiff'). specialize (Hk i ltac:(lia)).
    apply Hiff' in Hi3. by rewrite Hi3 in Hk.
  - left. split; [done|]. intros i (Hi1 & Hi2 & Hi3).
    destruct (Hok i Hi1 Hi2) as (_ & Hiff'). apply Hiff' in Hi3.
    specialize (Hr i ltac:(lia)). by rewrite Hi3 in Hr.
Qed.

Lemma elem_cnt_enough n : 0 <= n <= 4294967264 → n <= 32 * elem_cnt n.
Proof. intros. unfold elem_cnt, ELEM_BITS. rewrite u32_small by lia. zdm. Qed.

Lemma bitmap_set_all_ok b v :
  wf b → ∃ b', bitmap_set_all b v = Ok b' ∧ wf b' ∧ b'.(bit_cnt) = b.(bit_cnt) ∧
    run_of b' 0 (bit_cnt b) v.
Proof.
  intros Hwf. pose proof (wf_cnt _ Hwf).
  destruct (bitmap_set_multiple_ok b 0 (bit_cnt b) Hwf ltac:(lia) ltac:(lia) ltac:(lia) v)
    as (b' & E & Hw & Hc & Hb).
  exists b'. split; [done|]. split; [done|]. split; [done|].
  intros j Hj. rewrite Hb by lia. unfold in_range.
  rewrite (proj2 (Z.leb_le 0 j)), (proj2 (Z.ltb_lt j _)) by lia. done.
Qed.

(** bitmap_create() on an allocator that answers with a block of the size asked
    for: the bitmap is well formed and clear, whatever the block held. *)
Lemma bitmap_create_ok mem n :
  0 <= n <= 4294967264 → Forall (λ e, is_u32 e) mem →
  Z.of_nat (length mem) = elem_cnt n →
  ∃ b, bitmap_create true (Some mem) n = Ok (Some b) ∧ wf b ∧ bit_cnt b = n ∧
       run_of b 0 n false.
Proof.
  intros Hn Hf Hl. unfold bitmap_create; cbn [negb].
  destruct (bitmap_set_all_ok (mk_bitmap n mem) false) as (b & -> & Hw & Hc & Hr).
  { split; cbn; [unfold BITMAP_ERROR; lia|].
    split; [rewrite Hl; by apply elem_cnt_enough|done]. }
  eauto.
Qed.

Lemma bitmap_scan_and_flip_ok b start cnt v :
  wf b → 0 <= start <= bit_cnt b → 0 <= cnt →
  ∃ b' r, bitmap_scan_and_flip b start cnt v = Ok (b', r) ∧
    wf b' ∧ bit_cnt b' = bit_cnt b ∧
    ((r = BITMAP_ERROR ∧ b' = b ∧ ∀ i, ¬ group_at b start cnt v i) ∨
     (r < BITMAP_ERROR ∧ group_at b start cnt v r ∧
      (∀ i, i < r → ¬ group_at b start cnt v i) ∧
      ∀ j, 0 <= j → bit b' j = if in_range r cnt j then negb v else bit b j)).
Proof.
  intros Hwf Hs Hc. unfold bitmap_scan_and_flip.
  destruct (bitmap_scan_ok b start cnt v Hwf Hs Hc) as (r & -> & Hr). rewrite bind_ret.
  destruct Hr as [[-> Hno]|(Hlt & Hg & Hmin)].
  - rewrite Z.eqb_refl. exists b, BITMAP_ERROR. naive_solver.
  - rewrite (proj2 (Z.eqb_neq _ _)) by lia. pose proof Hg as (Hg1 & Hg2 & _).
    destruct (bitmap_set_multiple_ok b r cnt Hwf ltac:(lia) Hc Hg2 (negb v))
      as (b' & -> & Hw & Hbc & Hb).
    exists b', r. split; [done|]. split; [done|]. split; [done|]. right. done.
Qed.

#[export] Hint Resolve wf_cnt : pintos.

(** ** Properties *)


Definition demo_bitmap : bitmap := mk_bitmap 70 [4294967293; 7; 5].

Lemma demo_bitmap_wf : wf demo_bitmap.
Proof. by repeat (split || constructor). Qed.


(** The single-bit operations address one bit each, across element
    boundaries: after bitmap_set(), bitmap_flip() at an index in range,
    bitmap_test() reads the new value there and the old value at every other
    index; out of range, bitmap_set() and bitmap_test() stop the kernel. *)
Theorem bitmap_single_bit b i v :
  wf b → 0 <= i →
  (bit_cnt b <= i → bitmap_set b i v = Panic ∧ bitmap_test b i = Panic) ∧
  (i < bit_cnt b →
    (∃ b', bitmap_set b i v = Ok b' ∧ wf b' ∧
       ∀ j, 0 <= j < bit_cnt b →
         bitmap_test b' j = if j =? i then Ok v else bitmap_test b j) ∧
    (∃ b', bitmap_flip b i = Ok b' ∧ wf b' ∧
       ∀ j, 0 <= j < bit_cnt b →
         bitmap_test b' j = if j =? i then negb <$> bitmap_test b j else bitmap_test b j)).
Proof.
  intros Hwf Hi. split.
  - intros Hge. unfold bitmap_set, bitmap_test.
    by rewrite (proj2 (Z.ltb_ge _ _)) by lia.
  - intros Hlt. split.
    + destruct (bitmap_set_ok b i Hwf ltac:(lia) v) as (b' & -> & Hw & Hc & Hb).
      exists b'. split; [done|]. split; [done|]. intros j Hj.
      rewrite !bitmap_test_ok, Hb by (done || lia). by destruct (j =? i).
    + destruct (bitmap_flip_ok b i Hwf ltac:(lia)) as (b' & -> & Hw & Hc & Hb).
      exists b'. split; [done|]. split; [done|]. intros j Hj.
      rewrite !bitmap_test_ok, Hb by (done || lia). by destruct (j =? i).
Qed.

Lemma bitmap_single_bit_witness :
  bitmap_test demo_bitmap 33 = Ok true ∧
  ∃ b', bitmap_set demo_bitmap 33 false = Ok b' ∧ bitmap_test b' 33 = Ok false.
Proof.
  split; [by vm_compute|].
  destruct (bitmap_single_bit demo_bitmap 33 false demo_bitmap_wf) as (_ & H); [done|].
  destruct H as ((b' & E & _ & Ht) & _); [done|].
  exists b'. split; [done|]. by rewrite (Ht 33).
Defined.
