(* ===== verification/FsState.v ===== *)
(** * The state of the file system, and its block device

    The block device of devices/block.c that fs_device names (its sectors, with
    the bounds check and the counters of block_read() and block_write()), and
    the structures of filesys/: open inodes, open files, open directories and
    the free map.  Structures that the code shares by pointer live in stores
    indexed by the pointer, so that two openers of an inode see one [inode].

    Two environment fields stand for what the file system does not decide:
    [oom] lists the answers of the coming calls of malloc() ([true]: out of
    memory; an exhausted list means that memory is available), and [junk] is
    what an uninitialised [struct dir_entry] on the stack happens to hold. *)

From S2P Require Import Prelude Bitmap.

Open Scope Z_scope.

(** ** Data *)

Definition BLOCK_SECTOR_SIZE : Z := 512.

Inductive block_type :=
| BLOCK_KERNEL | BLOCK_FILESYS | BLOCK_SCRATCH | BLOCK_SWAP | BLOCK_RAW | BLOCK_FOREIGN.

#[export] Instance block_type_eq_dec : EqDecision block_type.
Proof. solve_decision. Defined.

(** A block device: [sectors] is what the driver's [read] returns after the
    [write]s so far; a sector never written holds zeros. *)
Record block := mk_block {
  b_type : block_type;
  b_size : Z;
  sectors : gmap Z (list Z);
  read_cnt : Z;
  write_cnt : Z }.

Definition zero_sector : list Z := replicate 512 0.
Definition sector_at (d : block) (n : Z) : list Z := default zero_sector (d.(sectors) !! n).

Record inode_disk := mk_inode_disk {
  start : Z;
  length_ : Z;
  magic : Z;
  unused : list Z }.

Record inode := mk_inode {
  sector : Z;
  open_cnt : Z;
  removed : bool;
  deny_write_cnt : Z;
  data : inode_disk }.

Record file := mk_file { f_inode : Z; pos : Z; deny_write : bool }.
Record dir := mk_dir { d_inode : Z; d_pos : Z }.

Abbreviation NULL := 0%Z (only parsing).

Record fs := mk_fs {
  fs_device : block;
  free_map : bitmap;
  free_map_file : Z;
  open_inodes : list Z;
  inodes : gmap Z inode;
  files : gmap Z file;
  dirs : gmap Z dir;
  brk : Z;
  oom : list bool;
  junk : list Z }.

Definition set_device (d : block) (s : fs) : fs :=
  mk_fs d s.(free_map) s.(free_map_file) s.(open_inodes) s.(inodes) s.(files)
    s.(dirs) s.(brk) s.(oom) s.(junk).
Definition set_free_map (b : bitmap) (s : fs) : fs :=
  mk_fs s.(fs_device) b s.(free_map_file) s.(open_inodes) s.(inodes) s.(files)
    s.(dirs) s.(brk) s.(oom) s.(junk).
Definition set_free_map_file (p : Z) (s : fs) : fs :=
  mk_fs s.(fs_device) s.(free_map) p s.(open_inodes) s.(inodes) s.(files)
    s.(dirs) s.(brk) s.(oom) s.(junk).
Definition set_open_inodes (l : list Z) (s : fs) : fs :=
  mk_fs s.(fs_device) s.(free_map) s.(free_map_file) l s.(inodes) s.(files)
    s.(dirs) s.(brk) s.(oom) s.(junk).
Definition set_inodes (m : gmap Z inode) (s : fs) : fs :=
  mk_fs s.(fs_device) s.(free_map) s.(free_map_file) s.(open_inodes) m s.(files)
    s.(dirs) s.(brk) s.(oom) s.(junk).
Definition set_files (m : gmap Z file) (s : fs) : fs :=
  mk_fs s.(fs_device) s.(free_map) s.(free_map_file) s.(open_inodes) s.(inodes) m
    s.(dirs) s.(brk) s.(oom) s.(junk).
Definition set_dirs (m : gmap Z dir) (s : fs) : fs :=
  mk_fs s.(fs_device) s.(free_map) s.(free_map_file) s.(open_inodes) s.(inodes)
    s.(files) m s.(brk) s.(oom) s.(junk).
Definition set_brk (p : Z) (s : fs) : fs :=
  mk_fs s.(fs_device) s.(free_map) s.(free_map_file) s.(open_inodes) s.(inodes)
    s.(files) s.(dirs) p s.(oom) s.(junk).
Definition set_oom (l : list bool) (s : fs) : fs :=
  mk_fs s.(fs_device) s.(free_map) s.(free_map_file) s.(open_inodes) s.(inodes)
    s.(files) s.(dirs) s.(brk) l s.(junk).

Abbreviation M := (st fs).

(** ** Memory allocation

    malloc() and calloc() of a structure: null when the next answer says so,
    otherwise a pointer to memory no live structure occupies. *)
Definition malloc : M Z := λ s,
  match s.(oom) with
  | true :: l => Ok (NULL, set_oom l s)
  | false :: l => Ok (s.(brk), set_brk (s.(brk) + 1) (set_oom l s))
  | [] => Ok (s.(brk), set_brk (s.(brk) + 1) s)
  end.

Definition fASSERT (c : bool) : M unit := lift (ASSERT c).

(** ** The block device *)

Definition check_sector (d : block) (sector : Z) : outcome unit :=
  if d.(b_size) <=? sector then Panic else Ok tt.

Definition block_read (sector : Z) : M (list Z) :=
  d ← gets fs_device;
  lift (check_sector d sector);;
  modify (set_device (mk_block d.(b_type) d.(b_size) d.(sectors)
                        (u64 (d.(read_cnt) + 1)) d.(write_cnt)));;
  mret (sector_at d sector).

Definition block_write (sector : Z) (buffer : list Z) : M unit :=
  d ← gets fs_device;
  lift (check_sector d sector);;
  fASSERT (bool_decide (d.(b_type) ≠ BLOCK_FOREIGN));;
  modify (set_device (mk_block d.(b_type) d.(b_size) (<[sector := buffer]> d.(sectors))
                        d.(read_cnt) (u64 (d.(write_cnt) + 1)))).

Definition block_size : M Z := gets (λ s, s.(fs_device).(b_size)).

(** ** Dereferencing the stores *)

Definition get_inode (ip : Z) : M inode :=
  m ← gets inodes; lift (deref (m !! ip)).
Definition put_inode (ip : Z) (i : inode) : M unit :=
  m ← gets inodes; modify (set_inodes (<[ip := i]> m)).
Definition get_file (fp : Z) : M file :=
  m ← gets files; lift (deref (m !! fp)).
Definition put_file (fp : Z) (f : file) : M unit :=
  m ← gets files; modify (set_files (<[fp := f]> m)).
Definition get_dir (dp : Z) : M dir :=
  m ← gets dirs; lift (deref (m !! dp)).
Definition put_dir (dp : Z) (d : dir) : M unit :=
  m ← gets dirs; modify (set_dirs (<[dp := d]> m)).
