(* ===== verification/InodeIO.v ===== *)
(** * Reading and writing the data of an inode: filesys/inode.c

    byte_to_sector(), inode_length(), inode_read_at(), inode_write_at() and the
    deny-write counters.  The operations that allocate or release sectors are
    in Inode.v, after the free map they call.

    A buffer that the code fills is modelled by the bytes stored in it from its
    start on, so that the length of the list is the returned count; a buffer
    that the code reads is its list of bytes, and reading past its end is
    [Wild].  A loop that moves SIZE bytes moves at least one per iteration, so
    SIZE + 1 iterations are always enough fuel. *)

From S2P Require Import Prelude Bitmap FsState.

Open Scope Z_scope.

(** ** Definitions *)

(** [n] bytes from offset [ofs] of a buffer. *)
Definition copy_out (buf : list Z) (ofs n : Z) : outcome (list Z) :=
  if (0 <=? ofs) && (ofs + n <=? Z.of_nat (length buf))
  then Ok (take (Z.to_nat n) (drop (Z.to_nat ofs) buf)) else Wild.

(** [memcpy (buf + ofs, bs, length bs)]. *)
Definition copy_in (buf : list Z) (ofs : Z) (bs : list Z) : outcome (list Z) :=
  if (0 <=? ofs) && (ofs + Z.of_nat (length bs) <=? Z.of_nat (length buf))
  then Ok (take (Z.to_nat ofs) buf ++ bs ++ drop (Z.to_nat ofs + length bs) buf)
  else Wild.

Definition byte_to_sector (ip : Z) (pos : Z) : M Z :=
  fASSERT (negb (ip =? NULL));;
  i ← get_inode ip;
  mret (if pos <? i.(data).(length_)
        then u32 (i.(data).(start) + Z.quot pos BLOCK_SECTOR_SIZE)
        else u32 (-1)).

Definition inode_length (ip : Z) : M Z :=
  i ← get_inode ip; mret i.(data).(length_).

Definition inode_get_inumber (ip : Z) : M Z :=
  i ← get_inode ip; mret i.(sector).

(** The number of bytes to move in one iteration, from offset [sector_ofs] of a
    sector. *)
Definition chunk (size inode_left sector_left : Z) : Z :=
  let min_left := if inode_left <? sector_left then inode_left else sector_left in
  if size <? min_left then size else min_left.

(** [bounce] tells whether the bounce buffer has been allocated. *)
Definition get_bounce (bounce : bool) : M bool :=
  if bounce then mret true
  else p ← malloc; mret (negb (p =? NULL)).

Definition inode_read_at (ip size offset : Z) : M (list Z) :=
  loop_st (S (Z.to_nat size)) (λ '(size, offset, out, bounce),
    if 0 <? size then
      sector_idx ← byte_to_sector ip offset;
      let sector_ofs := Z.rem offset BLOCK_SECTOR_SIZE in
      len ← inode_length ip;
      let inode_left := i32 (len - offset) in
      let sector_left := BLOCK_SECTOR_SIZE - sector_ofs in
      let chunk_size := chunk size inode_left sector_left in
      if chunk_size <=? 0 then mret (inr out)
      else if (sector_ofs =? 0) && (chunk_size =? BLOCK_SECTOR_SIZE) then
        b ← block_read sector_idx;
        mret (inl (size - chunk_size, i32 (offset + chunk_size), out ++ b, bounce))
      else
        ok ← get_bounce bounce;
        if negb ok then mret (inr out)
        else
          b ← block_read sector_idx;
          bs ← lift (copy_out b sector_ofs chunk_size);
          mret (inl (size - chunk_size, i32 (offset + chunk_size), out ++ bs, true))
    else mret (inr out)) (size, offset, [], false).

Definition inode_write_at (ip : Z) (buffer : list Z) (size offset : Z) : M Z :=
  i ← get_inode ip;
  if negb (i.(deny_write_cnt) =? 0) then mret 0
  else
  loop_st (S (Z.to_nat size)) (λ '(size, offset, bytes_written, bounce),
    if 0 <? size then
      sector_idx ← byte_to_sector ip offset;
      let sector_ofs := Z.rem offset BLOCK_SECTOR_SIZE in
      len ← inode_length ip;
      let inode_left := i32 (len - offset) in
      let sector_left := BLOCK_SECTOR_SIZE - sector_ofs in
      let chunk_size := chunk size inode_left sector_left in
      if chunk_size <=? 0 then mret (inr bytes_written)
      else if (sector_ofs =? 0) && (chunk_size =? BLOCK_SECTOR_SIZE) then
        bs ← lift (copy_out buffer bytes_written chunk_size);
        block_write sector_idx bs;;
        mret (inl (size - chunk_size, i32 (offset + chunk_size),
                   bytes_written + chunk_size, bounce))
      else
        ok ← get_bounce bounce;
        if negb ok then mret (inr bytes_written)
        else
          b ← (if (0 <? sector_ofs) || (chunk_size <? sector_left)
               then block_read sector_idx else mret zero_sector);
          bs ← lift (copy_out buffer bytes_written chunk_size);
          b ← lift (copy_in b sector_ofs bs);
          block_write sector_idx b;;
          mret (inl (size - chunk_size, i32 (offset + chunk_size),
                     bytes_written + chunk_size, true))
    else mret (inr bytes_written)) (size, offset, 0, false).

Definition with_deny (i : inode) (n : Z) : inode :=
  mk_inode i.(sector) i.(open_cnt) i.(removed) n i.(data).

Definition inode_deny_write (ip : Z) : M unit :=
  i ← get_inode ip;
  let i := with_deny i (i32 (i.(deny_write_cnt) + 1)) in
  put_inode ip i;;
  fASSERT (i.(deny_write_cnt) <=? i.(open_cnt)).

Definition inode_allow_write (ip : Z) : M unit :=
  i ← get_inode ip;
  fASSERT (0 <? i.(deny_write_cnt));;
  fASSERT (i.(deny_write_cnt) <=? i.(open_cnt));;
  put_inode ip (with_deny i (i.(deny_write_cnt) - 1)).

(** ** The device as an array of bytes *)

Definition disk_byte (d : block) (a : Z) : Z :=
  sector_at d (a / 512) !!! Z.to_nat (a mod 512).

Definition disk_bytes (d : block) (a n : Z) : list Z :=
  (λ k, disk_byte d (a + k)) <$> seqZ 0 n.

(** Every sector holds 512 bytes, and sector numbers fit in 32 bits. *)
Definition disk_wf (d : block) : Prop :=
  map_Forall (λ _ b, length b = 512%nat) d.(sectors) ∧
  0 <= d.(b_size) < 4294967296 ∧ d.(b_type) ≠ BLOCK_FOREIGN.

(** The data of an inode lies within the device. *)
Definition inode_fits (d : block) (i : inode) : Prop :=
  0 <= i.(data).(start) ∧ 0 <= i.(data).(length_) < 2147483648 ∧
  i.(data).(start) + (i.(data).(length_) + 511) / 512 <= d.(b_size).

(** Byte address on the device of the first byte of an inode's data. *)
Definition base (i : inode) : Z := 512 * i.(data).(start).

(** How many of [size] bytes there are at [offset]. *)
Definition avail (i : inode) (size offset : Z) : Z :=
  Z.max 0 (Z.min size (i.(data).(length_) - offset)).

(** What reading may change: the read counter, and the answers of malloc(). *)
Definition quiet (s s' : fs) : Prop :=
  ∃ rc o p,
    s' = set_brk p (set_oom o (set_device
           (mk_block s.(fs_device).(b_type) s.(fs_device).(b_size)
              s.(fs_device).(sectors) rc s.(fs_device).(write_cnt)) s)) ∧
    o `suffix_of` s.(oom) ∧ s.(brk) <= p.

(** What writing may change: also the sectors and the write counter. *)
Definition writes (s s' : fs) : Prop :=
  ∃ d o p,
    s' = set_brk p (set_oom o (set_device d s)) ∧
    d.(b_type) = s.(fs_device).(b_type) ∧ d.(b_size) = s.(fs_device).(b_size) ∧
    (disk_wf s.(fs_device) → disk_wf d) ∧
    o `suffix_of` s.(oom) ∧ s.(brk) <= p.

(** Memory is available from here on. *)
Definition mem_ok (s : fs) : Prop := true ∉ s.(oom) ∧ 0 < s.(brk).

(** ** Bytes and sectors *)

Lemma disk_bytes_app d a n m :
  0 <= n → 0 <= m → disk_bytes d a (n + m) = disk_bytes d a n ++ disk_bytes d (a + n) m.
Proof.
  intros. unfold disk_bytes. rewrite seqZ_app, fmap_app by done. f_equal.
  rewrite Z.add_0_l. replace (seqZ n m) with ((λ k, n + k) <$> seqZ 0 m).
  - rewrite <-list_fmap_compose. apply list_fmap_ext. intros ? k _. simpl. f_equal. lia.
  - by rewrite fmap_add_seqZ, Z.add_0_r.
Qed.

Lemma length_disk_bytes d a n : length (disk_bytes d a n) = Z.to_nat n.
Proof. unfold disk_bytes. by rewrite length_fmap, length_seqZ. Qed.

Lemma disk_bytes_lookup d a n (k : nat) :
  Z.of_nat k < n → disk_bytes d a n !! k = Some (disk_byte d (a + Z.of_nat k)).
Proof.
  intros. unfold disk_bytes. rewrite list_lookup_fmap, lookup_seqZ_lt by lia. simpl.
  by rewrite Z.add_0_l.
Qed.

Lemma disk_bytes_0 d a n : n <= 0 → disk_bytes d a n = [].
Proof. intros. unfold disk_bytes. by rewrite seqZ_nil. Qed.

Lemma sector_length d n : disk_wf d → length (sector_at d n) = 512%nat.
Proof.
  intros [Hf _]. unfold sector_at. destruct (sectors d !! n) eqn:E; [|done].
  by apply (Hf _ _ E).
Qed.

Lemma sector_chunk d n ofs k :
  disk_wf d → 0 <= ofs → 0 <= k → ofs + k <= 512 →
  copy_out (sector_at d n) ofs k = Ok (disk_bytes d (512 * n + ofs) k).
Proof.
  intros Hwf Ho Hk Hle. unfold copy_out. rewrite (sector_length d n Hwf).
  rewrite (proj2 (Z.leb_le _ _)), (proj2 (Z.leb_le (ofs + k) _)) by lia. simpl. f_equal.
  pose proof (sector_length d n Hwf) as Hlen.
  apply list_eq_same_length with (n := Z.to_nat k);
    [by rewrite length_disk_bytes|rewrite length_take, length_drop; lia|].
  intros i x y Hi. rewrite lookup_take_lt by done.
  rewrite lookup_drop, disk_bytes_lookup by lia. intros Hx [= <-].
  unfold disk_byte.
  replace ((512 * n + ofs + Z.of_nat i) / 512) with n by zdm.
  replace (Z.to_nat ((512 * n + ofs + Z.of_nat i) mod 512)) with (Z.to_nat ofs + i)%nat by zdm.
  symmetry. by apply list_lookup_total_correct.
Qed.

Lemma sector_whole d n : disk_wf d → sector_at d n = disk_bytes d (512 * n) 512.
Proof.
  intros Hwf. pose proof (sector_chunk d n 0 512 Hwf) as H. unfold copy_out in H.
  rewrite (sector_length d n Hwf), Z.add_0_r in H. simpl in H.
  specialize (H ltac:(lia) ltac:(lia) ltac:(lia)). injection H as H. rewrite <-H.
  rewrite take_ge; [done|]. rewrite length_drop, (sector_length d n Hwf). lia.
Qed.

(** ** The device operations *)

Definition reading (s : fs) : fs :=
  let d := s.(fs_device) in
  set_device (mk_block d.(b_type) d.(b_size) d.(sectors) (u64 (d.(read_cnt) + 1))
                d.(write_cnt)) s.

Lemma block_read_ok s n :
  n < s.(fs_device).(b_size) → block_read n s = Ok (sector_at s.(fs_device) n, reading s).
Proof.
  intros. unfold block_read. rewrite run_gets, (run_lift _ _ _ tt).
  - done.
  - unfold check_sector. by rewrite (proj2 (Z.leb_gt _ _)).
Qed.

Definition written (s : fs) (n : Z) (b : list Z) : fs :=
  let d := s.(fs_device) in
  set_device (mk_block d.(b_type) d.(b_size) (<[n := b]> d.(sectors)) d.(read_cnt)
                (u64 (d.(write_cnt) + 1))) s.

Lemma block_write_ok s n b :
  n < s.(fs_device).(b_size) → s.(fs_device).(b_type) ≠ BLOCK_FOREIGN →
  block_write n b s = Ok (tt, written s n b).
Proof.
  intros. unfold block_write. rewrite run_gets, (run_lift _ _ _ tt).
  - unfold fASSERT. by rewrite (run_lift _ _ _ tt) by (apply ASSERT_true, bool_decide_eq_true; done).
  - unfold check_sector. by rewrite (proj2 (Z.leb_gt _ _)).
Qed.

Lemma disk_byte_written s n b a :
  disk_byte (written s n b).(fs_device) a =
    if a / 512 =? n then b !!! Z.to_nat (a mod 512) else disk_byte s.(fs_device) a.
Proof.
  unfold disk_byte, sector_at; cbn. destruct (Z.eqb_spec (a / 512) n) as [<-|Hne].
  - by rewrite lookup_insert_eq.
  - by rewrite lookup_insert_ne.
Qed.

Lemma quiet_refl s : quiet s s.
Proof.
  exists (read_cnt (fs_device s)), (oom s), (brk s). split; [|split; [done|lia]].
  by destruct s as [[] ? ? ? ? ? ? ? ? ?].
Qed.

Lemma quiet_trans s1 s2 s3 : quiet s1 s2 → quiet s2 s3 → quiet s1 s3.
Proof.
  intros (rc & o & p & -> & Ho & Hp) (rc' & o' & p' & -> & Ho' & Hp').
  exists rc', o', p'. split; [done|]. cbn in *. split; [by etrans|lia].
Qed.

Lemma quiet_reading s : quiet s (reading s).
Proof.
  eexists _, (oom s), (brk s). split; [|split; [done|lia]]. by destruct s.
Qed.

Lemma quiet_mem s s' : quiet s s' → mem_ok s → mem_ok s'.
Proof.
  intros (? & o & ? & -> & [k Hk] & Hp) [Hm Hb]. unfold mem_ok; cbn. rewrite Hk in Hm.
  split; [set_solver|lia].
Qed.

#[export] Instance quiet_preorder : PreOrder quiet.
Proof. split; [exact quiet_refl|exact quiet_trans]. Qed.

Lemma get_bounce_ok b s :
  ∃ r s', get_bounce b s = Ok (r, s') ∧ quiet s s' ∧ s'.(fs_device) = s.(fs_device) ∧
    (mem_ok s → r = true).
Proof.
  unfold get_bounce. destruct b; [by exists true, s|].
  assert (Hq : ∀ o p, o `suffix_of` oom s → brk s <= p → quiet s (set_brk p (set_oom o s))).
  { intros o p Ho Hp. exists (read_cnt (fs_device s)), o, p. split; [|done].
    by destruct s as [[] ? ? ? ? ? ? ? ? ?]. }
  unfold mbind, st_bind, malloc. destruct (oom s) as [|[] l] eqn:E.
  - exists (negb (brk s =? 0)), (set_brk (brk s + 1) s). split; [done|]. split.
    + replace (set_brk (brk s + 1) s) with (set_brk (brk s + 1) (set_oom [] s)) by
        (rewrite <-E; by destruct s).
      apply Hq; [done|lia].
    + split; [done|]. intros [_ Hb]. by rewrite (proj2 (Z.eqb_neq _ _)) by lia.
  - exists false, (set_oom l s). split; [done|]. split.
    + replace (set_oom l s) with (set_brk (brk s) (set_oom l s)) by by destruct s.
      apply Hq; [by apply suffix_cons_r|lia].
    + split; [done|]. intros [Hm _]. rewrite E in Hm. set_solver.
  - exists (negb (brk s =? 0)), (set_brk (brk s + 1) (set_oom l s)). split; [done|]. split.
    + apply Hq; [by apply suffix_cons_r|lia].
    + split; [done|]. intros [_ Hb]. by rewrite (proj2 (Z.eqb_neq _ _)) by lia.
Qed.

(** ** Reading *)

Section io.
Context (i : inode) (ip : Z) (Hnn : ip ≠ NULL).

Lemma byte_to_sector_ok s pos :
  s.(inodes) !! ip = Some i → inode_fits s.(fs_device) i → disk_wf s.(fs_device) →
  0 <= pos →
  byte_to_sector ip pos s =
    Ok (if pos <? i.(data).(length_) then i.(data).(start) + pos / 512 else u32 (-1), s) ∧
  (pos < i.(data).(length_) → i.(data).(start) + pos / 512 < s.(fs_device).(b_size)).
Proof.
  intros Hi (Hs & Hl & Hf) (_ & Hsz & _) Hp.
  assert (Hlt : pos < length_ (data i) → start (data i) + pos / 512 < b_size (fs_device s))
    by (intros; zdm).
  split; [|done]. unfold byte_to_sector, fASSERT.
  rewrite (run_lift _ _ _ tt) by (apply ASSERT_true; by rewrite (proj2 (Z.eqb_neq _ _))).
  unfold get_inode. rewrite (run_bind _ _ s i s) by (rewrite run_gets, Hi; done).
  unfold mret, st_ret, BLOCK_SECTOR_SIZE. destruct (Z.ltb_spec pos (length_ (data i))); [|done].
  rewrite Z.quot_div_nonneg by lia. rewrite u32_small by zdm. done.
Qed.

Lemma inode_length_ok s :
  s.(inodes) !! ip = Some i → inode_length ip s = Ok (i.(data).(length_), s).
Proof.
  intros Hi. unfold inode_length, get_inode.
  by rewrite (run_bind _ _ s i s) by (rewrite run_gets, Hi; done).
Qed.

(** One chunk lies within one sector and within the inode. *)
Lemma chunk_bounds size offset :
  0 < size < 2147483648 → 0 <= offset < 2147483648 →
  0 <= i.(data).(length_) < 2147483648 →
  let c := chunk size (i32 (i.(data).(length_) - offset)) (512 - Z.rem offset 512) in
  (c <= 0 ↔ i.(data).(length_) <= offset) ∧
  (0 < c → c <= size ∧ offset mod 512 + c <= 512 ∧ offset + c <= i.(data).(length_)).
Proof.
  intros Hs Ho Hl. unfold chunk. rewrite i32_small by lia.
  rewrite Z.rem_mod_nonneg by lia. pose proof (Z.mod_pos_bound offset 512).
  repeat case_match; lia.
Qed.

Definition read_inv (s0 : fs) (size0 off0 : Z) (n : nat)
    (l : Z * Z * list Z * bool) (s : fs) : Prop :=
  let '(size, offset, out, bounce) := l in
  quiet s0 s ∧ n = Z.to_nat size ∧ 0 <= size ∧ off0 <= offset < 2147483648 ∧
  offset - off0 + size = size0 ∧ offset <= Z.max off0 i.(data).(length_) ∧
  out = disk_bytes s0.(fs_device) (base i + off0) (offset - off0).

Definition read_post (s0 : fs) (size0 off0 : Z) (out : list Z) (s : fs) : Prop :=
  quiet s0 s ∧ ∃ k, out = disk_bytes s0.(fs_device) (base i + off0) k ∧
    0 <= k <= avail i size0 off0 ∧ (mem_ok s0 → k = avail i size0 off0).

Lemma quiet_disk s s' a n :
  quiet s s' → disk_bytes s'.(fs_device) a n = disk_bytes s.(fs_device) a n.
Proof. by intros (? & ? & ? & -> & _). Qed.

Lemma quiet_inodes s s' : quiet s s' → s'.(inodes) = s.(inodes).
Proof. by intros (? & ? & ? & -> & _). Qed.

Lemma quiet_fits s s' : quiet s s' → inode_fits s.(fs_device) i → inode_fits s'.(fs_device) i.
Proof. by intros (? & ? & ? & -> & _). Qed.

Lemma quiet_wf s s' : quiet s s' → disk_wf s.(fs_device) → disk_wf s'.(fs_device).
Proof. by intros (? & ? & ? & -> & _). Qed.

Lemma read_step s0 s size0 off0 size offset out bounce c :
  read_inv s0 size0 off0 (Z.to_nat size) (size, offset, out, bounce) s →
  0 < c → c <= size → offset + c <= i.(data).(length_) < 2147483648 → 0 <= off0 →
  ∀ s' bounce' bs, quiet s s' → bs = disk_bytes s.(fs_device) (base i + offset) c →
  ∃ n', (n' < Z.to_nat size)%nat ∧
    read_inv s0 size0 off0 n' (size - c, i32 (offset + c), out ++ bs, bounce') s'.
Proof.
  intros (Hq & _ & Hs & Ho & Hsum & Hmax & ->) Hc Hle Hl Ho0 s' bounce' bs Hq' ->.
  exists (Z.to_nat (size - c)). split; [lia|]. rewrite i32_small by lia.
  split; [by etrans|]. split; [done|]. split; [lia|]. split; [lia|]. split; [lia|].
  split; [lia|]. rewrite (quiet_disk s0 s) by done.
  replace (base i + offset) with (base i + off0 + (offset - off0)) by lia.
  rewrite <-disk_bytes_app by lia. f_equal. lia.
Qed.

Lemma inode_read_at_ok s size offset :
  s.(inodes) !! ip = Some i → inode_fits s.(fs_device) i → disk_wf s.(fs_device) →
  0 <= size < 2147483648 → 0 <= offset < 2147483648 →
  ∃ out s', inode_read_at ip size offset s = Ok (out, s') ∧ read_post s size offset out s'.
Proof.
  intros Hi Hfit Hwf Hsz Hoff. unfold inode_read_at.
  eapply (loop_st_total (read_inv s size offset)) with (n := Z.to_nat size); [|..|lia]; cycle 1.
  { repeat (split; [reflexivity || lia|]). by rewrite disk_bytes_0 by lia. }
  intros n [[[sz off] out] bounce] s1 HI. pose proof HI as (Hq & -> & Hs & Ho & Hsum & Hmax & ->).
  pose proof Hfit as (_ & Hlen & _).
  destruct (Z.ltb_spec 0 sz) as [Hpos|Hz]; cycle 1.
  { eexists _, _. split; [done|]. split; [done|]. exists (off - offset).
    unfold avail. split; [done|]. lia. }
  pose proof (quiet_fits _ _ Hq Hfit) as Hfit1. pose proof (quiet_wf _ _ Hq Hwf) as Hwf1.
  assert (Hi1 : inodes s1 !! ip = Some i) by by rewrite (quiet_inodes _ _ Hq).
  destruct (byte_to_sector_ok s1 off Hi1 Hfit1 Hwf1 ltac:(lia)) as [Hbs Hin].
  rewrite (run_bind _ _ _ _ _ Hbs), (run_bind _ _ _ _ _ (inode_length_ok s1 Hi1)).
  unfold BLOCK_SECTOR_SIZE.
  destruct (chunk_bounds sz off ltac:(lia) ltac:(lia) Hlen) as [Hc0 Hc].
  set (c := chunk sz _ _) in *. cbv zeta in Hc0, Hc.
  destruct (Z.leb_spec c 0) as [Hcle|Hcpos].
  { apply Hc0 in Hcle. eexists _, _. split; [done|]. split; [done|]. exists (off - offset).
    unfold avail. split; [done|]. lia. }
  specialize (Hc Hcpos) as (Hcs & Hcsec & Hcl).
  rewrite (proj2 (Z.ltb_lt off _)) by lia. rewrite Z.rem_mod_nonneg by lia. cbn iota.
  specialize (Hin ltac:(lia)). pose proof (Z.mod_pos_bound off 512) as Hmod.
  assert (Haddr : 512 * (start (data i) + off / 512) + off mod 512 = base i + off)
    by (unfold base; zdm).
  destruct ((off mod 512 =? 0) && (c =? 512)) eqn:Hfull.
  - apply andb_prop in Hfull as [Hm0 Hc512]. apply Z.eqb_eq in Hm0, Hc512.
    rewrite (run_bind _ _ _ _ _ (block_read_ok s1 _ Hin)).
    eexists _, _. split; [done|]. cbn beta iota.
    eapply read_step; eauto using quiet_reading; [lia|lia|].
    rewrite sector_whole, Hc512 by done. f_equal. lia.
  - destruct (get_bounce_ok bounce s1) as (ok & s2 & Hb & Hq2 & Hd2 & Hok).
    rewrite (run_bind _ _ _ _ _ Hb). destruct ok; cbn [negb]; cycle 1.
    { eexists _, _. split; [done|]. cbn beta iota. split; [by etrans|].
      exists (off - offset). unfold avail. split; [done|]. split; [lia|].
      intros Hm. apply (quiet_mem _ _ Hq) in Hm. by specialize (Hok Hm). }
    rewrite (run_bind _ _ _ _ _ (block_read_ok s2 _ ltac:(rewrite Hd2; exact Hin))).
    rewrite (run_lift _ _ _ _ (sector_chunk (fs_device s2) _ (off mod 512) c
      ltac:(by rewrite Hd2) ltac:(lia) ltac:(lia) Hcsec)).
    eexists _, _. split; [done|]. cbn beta iota.
    eapply read_step; eauto; [lia|lia| |].
    + etrans; [exact Hq2|apply quiet_reading].
    + by rewrite Haddr, Hd2.
Qed.
End io.

(** ** Writing *)

Lemma writes_refl s : writes s s.
Proof.
  exists (fs_device s), (oom s), (brk s). split; [by destruct s|]. by repeat (split; [done|]).
Qed.

Lemma writes_trans s1 s2 s3 : writes s1 s2 → writes s2 s3 → writes s1 s3.
Proof.
  intros (d & o & p & -> & Ht & Hs & Hw & Ho & Hp) (d' & o' & p' & -> & Ht' & Hs' & Hw' & Ho' & Hp').
  exists d', o', p'. cbn in *. split; [done|]. split; [congruence|]. split; [congruence|].
  split; [by auto|]. split; [by etrans|lia].
Qed.

#[export] Instance writes_preorder : PreOrder writes.
Proof. split; [exact writes_refl|exact writes_trans]. Qed.

Lemma quiet_writes s s' : quiet s s' → writes s s'.
Proof.
  intros (rc & o & p & -> & Ho & Hp). eexists _, o, p. split; [done|]. cbn.
  by repeat (split; [done|]).
Qed.

Lemma written_writes s n b : length b = 512%nat → writes s (written s n b).
Proof.
  intros Hb. exists (fs_device (written s n b)), (oom s), (brk s).
  split; [by destruct s|]. cbn.
  split; [done|]. split; [done|]. split; [|split; [done|lia]].
  intros (Hf & Hr). split; [|done]. by apply map_Forall_insert_2.
Qed.

Lemma writes_mem s s' : writes s s' → mem_ok s → mem_ok s'.
Proof.
  intros (? & o & ? & -> & _ & _ & _ & [k Hk] & Hp) [Hm Hb]. unfold mem_ok; cbn.
  rewrite Hk in Hm. split; [set_solver|lia].
Qed.

Lemma writes_inodes s s' : writes s s' → s'.(inodes) = s.(inodes).
Proof. by intros (? & ? & ? & -> & _). Qed.

Lemma writes_wf s s' : writes s s' → disk_wf s.(fs_device) → disk_wf s'.(fs_device).
Proof. intros (d & ? & ? & -> & _ & _ & H & _). exact H. Qed.

Lemma writes_fits i s s' :
  writes s s' → inode_fits s.(fs_device) i → inode_fits s'.(fs_device) i.
Proof. unfold inode_fits. intros (d & ? & ? & -> & _ & E & _). cbn. by rewrite E. Qed.

Lemma copy_out_ok buf ofs n :
  0 <= ofs → 0 <= n → ofs + n <= Z.of_nat (length buf) →
  ∃ bs, copy_out buf ofs n = Ok bs ∧ length bs = Z.to_nat n ∧
    ∀ k, (k < Z.to_nat n)%nat → bs !!! k = buf !!! (Z.to_nat ofs + k)%nat.
Proof.
  intros Ho Hn Hle. unfold copy_out.
  rewrite (proj2 (Z.leb_le _ _)), (proj2 (Z.leb_le (ofs + n) _)) by lia.
  eexists. split; [done|]. split; [rewrite length_take, length_drop; lia|].
  intros k Hk. rewrite !list_lookup_total_alt. by rewrite lookup_take_lt, lookup_drop by done.
Qed.

Lemma copy_in_ok buf ofs bs :
  0 <= ofs → ofs + Z.of_nat (length bs) <= Z.of_nat (length buf) →
  ∃ b, copy_in buf ofs bs = Ok b ∧ length b = length buf ∧
    ∀ k, b !!! k = if decide (Z.to_nat ofs ≤ k < Z.to_nat ofs + length bs)%nat
                   then bs !!! (k - Z.to_nat ofs)%nat else buf !!! k.
Proof.
  intros Ho Hle. unfold copy_in.
  rewrite (proj2 (Z.leb_le _ _)), (proj2 (Z.leb_le (ofs + _) _)) by lia.
  eexists. split; [done|]. split; [rewrite !length_app, length_take, length_drop; lia|].
  intros k. rewrite !list_lookup_total_alt. f_equal.
  destruct (decide (k < Z.to_nat ofs)%nat) as [Hlt|Hge].
  - rewrite decide_False by lia. rewrite lookup_app_l by (rewrite length_take; lia).
    by rewrite lookup_take_lt.
  - rewrite lookup_app_r by (rewrite length_take; lia). rewrite length_take.
    replace (Z.to_nat ofs `min` length buf)%nat with (Z.to_nat ofs) by lia.
    case_decide.
    + rewrite lookup_app_l by lia. done.
    + rewrite lookup_app_r, lookup_drop by lia. do 2 f_equal. lia.
Qed.

(** The bytes of a device after [bs] was written at byte address [a]. *)
Definition spliced (d : block) (a : Z) (bs : list Z) (n : Z) (d' : block) : Prop :=
  ∀ x, disk_byte d' x =
    if (a <=? x) && (x <? a + n) then bs !!! Z.to_nat (x - a) else disk_byte d x.

Section io_write.
Context (i : inode) (ip : Z) (Hnn : ip ≠ NULL).

Definition write_inv (s0 : fs) (buf : list Z) (size0 off0 : Z) (n : nat)
    (l : Z * Z * Z * bool) (s : fs) : Prop :=
  let '(size, offset, bw, bounce) := l in
  writes s0 s ∧ n = Z.to_nat size ∧ 0 <= size ∧ off0 <= offset < 2147483648 ∧
  offset - off0 + size = size0 ∧ offset <= Z.max off0 i.(data).(length_) ∧
  bw = offset - off0 ∧
  spliced s0.(fs_device) (base i + off0) buf bw s.(fs_device).

Definition write_post (s0 : fs) (buf : list Z) (size0 off0 : Z) (k : Z) (s : fs) : Prop :=
  writes s0 s ∧ 0 <= k <= avail i size0 off0 ∧ (mem_ok s0 → k = avail i size0 off0) ∧
  spliced s0.(fs_device) (base i + off0) buf k s.(fs_device).

(** One chunk: sector [n] of the device becomes [b], which holds the next [c]
    bytes of the buffer from offset [ofs] on and the old bytes elsewhere. *)
Lemma write_step s0 s buf size0 off0 size offset bw bounce c b :
  write_inv s0 buf size0 off0 (Z.to_nat size) (size, offset, bw, bounce) s →
  0 < c → c <= size → offset mod 512 + c <= 512 →
  offset + c <= i.(data).(length_) < 2147483648 → 0 <= off0 →
  length b = 512%nat →
  (∀ k, 0 <= k < 512 → b !!! Z.to_nat k =
     if (offset mod 512 <=? k) && (k <? offset mod 512 + c)
     then buf !!! Z.to_nat (bw + (k - offset mod 512))
     else disk_byte s.(fs_device) (512 * (i.(data).(start) + offset / 512) + k)) →
  ∀ bounce' s1, writes s s1 → sectors s1.(fs_device) = sectors s.(fs_device) →
  ∃ n', (n' < Z.to_nat size)%nat ∧
    write_inv s0 buf size0 off0 n' (size - c, i32 (offset + c), bw + c, bounce')
      (written s1 (i.(data).(start) + offset / 512) b).
Proof.
  intros (Hw & _ & Hs & Ho & Hsum & Hmax & -> & Hsp) Hc Hle Hsec Hl Ho0 Hb Hbytes bounce' s1 Hw1 Hsame.
  exists (Z.to_nat (size - c)). split; [lia|]. rewrite i32_small by lia.
  split; [etrans; [exact Hw|]; etrans; [exact Hw1|]; by apply written_writes|].
  do 6 (split; [lia|]). intros x. rewrite disk_byte_written.
  replace (disk_byte (fs_device s1) x) with (disk_byte (fs_device s) x)
    by (unfold disk_byte, sector_at; by rewrite Hsame).
  pose proof (Z.mod_pos_bound x 512 ltac:(lia)). pose proof (Z.mod_pos_bound offset 512 ltac:(lia)).
  pose proof (Z.div_mod x 512 ltac:(lia)). pose proof (Z.div_mod offset 512 ltac:(lia)).
  unfold base in *. rewrite (Hsp x).
  destruct (Z.eqb_spec (x / 512) (start (data i) + offset / 512)) as [E|E].
  - rewrite Hbytes by lia.
    replace (512 * (start (data i) + offset / 512) + x mod 512) with x by lia.
    rewrite (Hsp x). unfold base.
    repeat match goal with |- context [?a <=? ?b] => destruct (Z.leb_spec a b)
      | |- context [?a <? ?b] => destruct (Z.ltb_spec a b) end;
      cbn [andb]; try lia; try done; f_equal; lia.
  - repeat match goal with |- context [?a <=? ?b] => destruct (Z.leb_spec a b)
      | |- context [?a <? ?b] => destruct (Z.ltb_spec a b) end;
      cbn [andb]; try lia; try done.
    all: exfalso; apply E; zdm.
Qed.

(** A partial chunk: the sector read into the bounce buffer and overwritten. *)
Lemma bounce_sector d buf n bw ofs c :
  disk_wf d → 0 <= ofs → 0 < c → ofs + c <= 512 → 0 <= bw →
  bw + c <= Z.of_nat (length buf) →
  ∃ bs b, copy_out buf bw c = Ok bs ∧ copy_in (sector_at d n) ofs bs = Ok b ∧
    length b = 512%nat ∧
    ∀ k, 0 <= k < 512 → b !!! Z.to_nat k =
      if (ofs <=? k) && (k <? ofs + c) then buf !!! Z.to_nat (bw + (k - ofs))
      else disk_byte d (512 * n + k).
Proof.
  intros Hwf Ho Hc Hle Hbw Hbuf. pose proof (sector_length d n Hwf) as Hsl.
  destruct (copy_out_ok buf bw c) as (bs & -> & Hl & Hbs); [lia..|].
  destruct (copy_in_ok (sector_at d n) ofs bs) as (b & Hb & Hlb & Hbk); [lia..|].
  exists bs, b. split; [done|]. split; [done|]. split; [lia|]. intros k Hk. rewrite Hbk.
  destruct (Z.leb_spec ofs k), (Z.ltb_spec k (ofs + c)); simpl; case_decide; try lia.
  - rewrite Hbs by lia. f_equal. lia.
  - unfold disk_byte. replace ((512 * n + k) / 512) with n by zdm.
    by replace ((512 * n + k) mod 512) with k by zdm.
  - unfold disk_byte. replace ((512 * n + k) / 512) with n by zdm.
    by replace ((512 * n + k) mod 512) with k by zdm.
Qed.

Lemma write_done s0 s buf size0 off0 size offset bw bounce :
  write_inv s0 buf size0 off0 (Z.to_nat size) (size, offset, bw, bounce) s →
  size = 0 ∨ i.(data).(length_) <= offset ∨ ¬ mem_ok s0 →
  write_post s0 buf size0 off0 bw s.
Proof.
  intros (Hw & _ & Hs & Ho & Hsum & Hmax & -> & Hsp) Hend. split; [done|].
  unfold avail. split; [lia|]. split; [|done]. intros Hm. destruct Hend as [?|[?|?]]; [lia..|done].
Qed.

Lemma inode_write_at_ok s buf size offset :
  s.(inodes) !! ip = Some i → i.(deny_write_cnt) = 0 →
  inode_fits s.(fs_device) i → disk_wf s.(fs_device) →
  0 <= size < 2147483648 → size <= Z.of_nat (length buf) → 0 <= offset < 2147483648 →
  ∃ k s', inode_write_at ip buf size offset s = Ok (k, s') ∧ write_post s buf size offset k s'.
Proof.
  intros Hi Hdw Hfit Hwf Hsz Hbuf Hoff. unfold inode_write_at.
  unfold get_inode at 1. rewrite (run_bind _ _ s i s) by (rewrite run_gets, Hi; done).
  rewrite Hdw. cbn [negb Z.eqb].
  eapply (loop_st_total (write_inv s buf size offset)) with (n := Z.to_nat size); [|..|lia]; cycle 1.
  { repeat (split; [reflexivity || lia|]). intros x.
    destruct (Z.leb_spec (base i + offset) x), (Z.ltb_spec x (base i + offset + 0));
      simpl; done || lia. }
  intros n [[[sz off] bw] bounce] s1 HI. pose proof HI as (Hw & -> & Hs & Ho & Hsum & Hmax & Hbw & Hsp).
  pose proof Hfit as (_ & Hlen & _).
  destruct (Z.ltb_spec 0 sz) as [Hpos|Hz]; cycle 1.
  { eexists _, _. split; [done|]. eapply write_done; [done|]. lia. }
  pose proof (writes_fits _ _ _ Hw Hfit) as Hfit1. pose proof (writes_wf _ _ Hw Hwf) as Hwf1.
  assert (Hi1 : inodes s1 !! ip = Some i) by by rewrite (writes_inodes _ _ Hw).
  destruct (byte_to_sector_ok i ip Hnn s1 off Hi1 Hfit1 Hwf1 ltac:(lia)) as [Hbs Hin].
  rewrite (run_bind _ _ _ _ _ Hbs), (run_bind _ _ _ _ _ (inode_length_ok i ip s1 Hi1)).
  unfold BLOCK_SECTOR_SIZE.
  destruct (chunk_bounds i sz off ltac:(lia) ltac:(lia) Hlen) as [Hc0 Hc].
  set (c := chunk sz _ _) in *. cbv zeta in Hc0, Hc.
  destruct (Z.leb_spec c 0) as [Hcle|Hcpos].
  { apply Hc0 in Hcle. eexists _, _. split; [done|]. eapply write_done; [done|]. lia. }
  specialize (Hc Hcpos) as (Hcs & Hcsec & Hcl).
  rewrite (proj2 (Z.ltb_lt off _)) by lia. rewrite Z.rem_mod_nonneg by lia. cbn iota.
  specialize (Hin ltac:(lia)). pose proof (Z.mod_pos_bound off 512 ltac:(lia)) as Hmod.
  assert (Hft : ∀ s2, writes s1 s2 → b_type (fs_device s2) ≠ BLOCK_FOREIGN).
  { intros s2 H2. by destruct (writes_wf _ _ H2 Hwf1) as (_ & _ & ?). }
  destruct ((off mod 512 =? 0) && (c =? 512)) eqn:Hfull.
  - apply andb_prop in Hfull as [Hm0 Hc512]. apply Z.eqb_eq in Hm0, Hc512.
    destruct (copy_out_ok buf bw c) as (bs & Hco & Hl & Hbsk); [lia..|].
    rewrite (run_lift _ _ _ _ Hco).
    rewrite (run_bind _ _ _ _ _ (block_write_ok s1 _ _ Hin (Hft _ (writes_refl _)))).
    eexists _, _. split; [done|]. cbn beta iota.
    eapply write_step; eauto using writes_refl; [lia|lia|lia|].
    intros k Hk. rewrite Hm0, (proj2 (Z.leb_le 0 k)), (proj2 (Z.ltb_lt k _)) by lia. simpl.
    rewrite Hbsk by lia. f_equal. lia.
  - destruct (get_bounce_ok bounce s1) as (ok & s2 & Hb & Hq2 & Hd2 & Hok).
    rewrite (run_bind _ _ _ _ _ Hb). destruct ok; cbn [negb]; cycle 1.
    { eexists _, _. split; [done|]. cbn beta iota.
      eapply (write_done _ _ _ _ _ sz off bw bounce); [|right; right].
      - split; [etrans; [exact Hw|by apply quiet_writes]|].
        do 6 (split; [lia|]). by rewrite Hd2.
      - intros Hm. apply (writes_mem _ _ Hw) in Hm. by specialize (Hok Hm). }
    assert (Hrd : (0 <? off mod 512) || (c <? 512 - off mod 512) = true).
    { apply andb_false_iff in Hfull. rewrite !Z.eqb_neq in Hfull.
      apply orb_true_iff. rewrite !Z.ltb_lt. lia. }
    rewrite Hrd.
    rewrite (run_bind _ _ _ _ _ (block_read_ok s2 _ ltac:(rewrite Hd2; exact Hin))).
    destruct (bounce_sector (fs_device s2) buf (start (data i) + off / 512) bw (off mod 512) c)
      as (bs & b & Hco & Hci & Hlb & Hbk); [by rewrite Hd2|lia..|].
    rewrite (run_lift _ _ _ _ Hco), (run_lift _ _ _ _ Hci).
    assert (Hw2 : writes s1 (reading s2)).
    { etrans; [by apply quiet_writes|apply quiet_writes, quiet_reading]. }
    rewrite (run_bind _ _ _ _ _ (block_write_ok (reading s2) _ _
      ltac:(cbn; rewrite Hd2; exact Hin) (Hft _ Hw2))).
    eexists _, _. split; [done|]. cbn beta iota.
    eapply write_step; eauto; [lia|lia| |].
    + by rewrite <-Hd2.
    + cbn. by rewrite Hd2.
Qed.
End io_write.

(** ** Properties *)

Lemma spliced_bytes d a buf k d' :
  spliced d a buf k d' → 0 <= k <= Z.of_nat (length buf) →
  disk_bytes d' a k = take (Z.to_nat k) buf.
Proof.
  intros Hsp Hk. apply list_eq_same_length with (n := Z.to_nat k);
    [rewrite length_take; lia|by rewrite length_disk_bytes|].
  intros j x y Hj. rewrite disk_bytes_lookup, lookup_take_lt by lia.
  intros [= <-] Hy. rewrite Hsp, (proj2 (Z.leb_le _ _)), (proj2 (Z.ltb_lt _ _)) by lia. simpl.
  replace (Z.to_nat (a + Z.of_nat j - a)) with j by lia. by apply list_lookup_total_correct.
Qed.

Lemma spliced_bytes_ne d a buf k d' x n :
  spliced d a buf k d' → x + n <= a ∨ a + k <= x → disk_bytes d' x n = disk_bytes d x n.
Proof.
  intros Hsp Hd. unfold disk_bytes. apply list_fmap_ext. intros j y Hy.
  apply lookup_seqZ in Hy as [-> Hj]. rewrite Hsp.
  destruct (Z.leb_spec a (x + (0 + Z.of_nat j))), (Z.ltb_spec (x + (0 + Z.of_nat j)) (a + k));
    simpl; done || lia.
Qed.


(** A device of 64 sectors with one open inode, of 1300 bytes from sector 10. *)
Definition demo_inode : inode := mk_inode 5 1 false 0 (mk_inode_disk 10 1300 0 []).
Definition demo_fs : fs :=
  mk_fs (mk_block BLOCK_FILESYS 64 ∅ 0 0) (mk_bitmap 64 [0; 0]) NULL [1]
    {[ 1 := demo_inode ]} ∅ ∅ 2 [] (replicate 20 0).

Lemma demo_disk_wf : disk_wf demo_fs.(fs_device).
Proof. by repeat split. Qed.

Lemma demo_fits : inode_fits demo_fs.(fs_device) demo_inode.
Proof. done. Qed.


(** While a file is denied writes, inode_write_at() returns 0 and changes
    nothing; the counters pair up: inode_deny_write() by one of the openers is
    undone by inode_allow_write(), and an allow without a deny stops the
    kernel. *)
Theorem deny_write_blocks i ip s buf size offset :
  s.(inodes) !! ip = Some i → 0 <= i.(deny_write_cnt) < i.(open_cnt) →
  i.(open_cnt) < 2147483648 →
  ∃ s1, inode_deny_write ip s = Ok (tt, s1) ∧
    inode_write_at ip buf size offset s1 = Ok (0, s1) ∧
    inode_allow_write ip s1 = Ok (tt, s) ∧
    (i.(deny_write_cnt) = 0 → inode_allow_write ip s = Panic).
Proof.
  intros Hi Hd Ho.
  assert (Hget : ∀ i s, inodes s !! ip = Some i → get_inode ip s = Ok (i, s))
    by (intros j s' Hj; unfold get_inode; by rewrite run_gets, Hj).
  set (i1 := with_deny i (deny_write_cnt i + 1)).
  set (s1 := set_inodes (<[ip := i1]> (inodes s)) s).
  assert (Hi1 : inodes s1 !! ip = Some i1) by apply lookup_insert_eq.
  exists s1. split; [|split; [|split]].
  - unfold inode_deny_write. rewrite (run_bind _ _ _ _ _ (Hget _ _ Hi)).
    rewrite i32_small by lia. unfold put_inode, fASSERT. cbn [with_deny deny_write_cnt open_cnt].
    by rewrite (proj2 (Z.leb_le _ _)) by lia.
  - unfold inode_write_at. rewrite (run_bind _ _ _ _ _ (Hget _ _ Hi1)).
    cbn [i1 with_deny deny_write_cnt]. by rewrite (proj2 (Z.eqb_neq _ _)) by lia.
  - unfold inode_allow_write. rewrite (run_bind _ _ _ _ _ (Hget _ _ Hi1)).
    cbn [i1 with_deny deny_write_cnt open_cnt]. unfold fASSERT.
    rewrite !(run_lift _ _ _ tt) by (apply ASSERT_true; rewrite ?Z.ltb_lt, ?Z.leb_le; lia).
    unfold put_inode. rewrite run_gets. unfold modify, s1; cbn. rewrite insert_insert_eq.
    replace (deny_write_cnt i + 1 - 1) with (deny_write_cnt i) by lia.
    rewrite insert_id by (by destruct i). by destruct s.
  - intros E. unfold inode_allow_write. rewrite (run_bind _ _ _ _ _ (Hget _ _ Hi)).
    by rewrite E.
Qed.

Lemma deny_write_blocks_witness :
  inode_allow_write 1 demo_fs = Panic ∧
  ∃ s1, inode_deny_write 1 demo_fs = Ok (tt, s1) ∧ inode_write_at 1 [1; 2] 2 0 s1 = Ok (0, s1).
Proof.
  destruct (deny_write_blocks demo_inode 1 demo_fs [1; 2] 2 0) as (s1 & H1 & H2 & _ & H4);
    [done..|]. split; [by apply H4|]. by exists s1.
Defined.
