(* ===== verification/FreeMap.v ===== *)
(** * The free map: filesys/free-map.c, with the file input and output of bitmaps

    One bit per sector of the file system device, kept in memory and, once the
    free map file is open, written back to it after every change.  Opening and
    creating the free map file are in Filesys.v, after the files they use. *)

From S2P Require Import Prelude Bitmap FsState InodeIO.

Open Scope Z_scope.

(** ** Definitions *)

(** file_read_at() and file_write_at() of filesys/file.c, which bitmap_read()
    and bitmap_write() call. *)
Definition file_read_at (fp size file_ofs : Z) : M (list Z) :=
  f ← get_file fp; inode_read_at f.(f_inode) size file_ofs.

Definition file_write_at (fp : Z) (buffer : list Z) (size file_ofs : Z) : M Z :=
  f ← get_file fp; inode_write_at f.(f_inode) buffer size file_ofs.

(** The array of elements as the bytes it occupies, and back. *)
Definition bits_bytes (bs : list Z) : list Z := concat (le32 <$> bs).

Fixpoint bytes_bits (n : nat) (bs : list Z) : list Z :=
  match n with
  | O => []
  | S n => un32 (take 4 bs) :: bytes_bits n (drop 4 bs)
  end.

Definition bitmap_file_size (b : bitmap) : Z := byte_cnt b.(bit_cnt).

(** bitmap_write (b, file); the result says whether every byte was written. *)
Definition bitmap_write (b : bitmap) (fp : Z) : M bool :=
  let size := i32 (byte_cnt b.(bit_cnt)) in
  n ← file_write_at fp (bits_bytes b.(bits)) size 0;
  mret (n =? size).

(** bitmap_read (b, file): a short read replaces a prefix of the elements; the
    bits past the end of the bitmap are cleared in the last element. *)
Definition bitmap_read (b : bitmap) (fp : Z) : M (bitmap * bool) :=
  if 0 <? b.(bit_cnt) then
    let size := i32 (byte_cnt b.(bit_cnt)) in
    bs ← file_read_at fp size 0;
    let mem := bs ++ drop (length bs) (bits_bytes b.(bits)) in
    let b := mk_bitmap b.(bit_cnt) (bytes_bits (length b.(bits)) mem) in
    b ← lift (update_elem b (elem_cnt b.(bit_cnt) - 1) (λ e, Z.land e (last_mask b)));
    mret (b, Z.of_nat (length bs) =? size)
  else mret (b, true).

Definition FREE_MAP_SECTOR : Z := 0.
Definition ROOT_DIR_SECTOR : Z := 1.

(** [garbage] is what the memory of the new bitmap held before. *)
Definition free_map_init (garbage : list Z) : M unit :=
  n ← block_size;
  b ← malloc;
  fm ← (if b =? NULL then mret None
        else
          e ← (if byte_cnt n =? 0 then mret NULL else malloc);
          lift (bitmap_create true
                  (if e =? NULL then None
                   else Some (resize (Z.to_nat (elem_cnt n)) 0 (u32 <$> garbage))) n));
  match fm with
  | None => lift Panic
  | Some fm =>
      fm ← lift (bitmap_mark fm FREE_MAP_SECTOR);
      fm ← lift (bitmap_mark fm ROOT_DIR_SECTOR);
      modify (set_free_map fm)
  end.

(** The result is the first sector when the allocation succeeds. *)
Definition free_map_allocate (cnt : Z) : M (option Z) :=
  fm ← gets free_map;
  '(fm, sector) ← lift (bitmap_scan_and_flip fm 0 cnt false);
  modify (set_free_map fm);;
  fmf ← gets free_map_file;
  sector ←
    (if (sector =? BITMAP_ERROR) || (fmf =? NULL) then mret sector
     else
       w ← bitmap_write fm fmf;
       if (w : bool) then mret sector
       else
         fm ← lift (bitmap_set_multiple fm sector cnt false);
         modify (set_free_map fm);;
         mret BITMAP_ERROR);
  mret (if sector =? BITMAP_ERROR then None else Some sector).

Definition free_map_release (sector cnt : Z) : M unit :=
  fm ← gets free_map;
  all ← lift (bitmap_all fm sector cnt);
  fASSERT all;;
  fm ← lift (bitmap_set_multiple fm sector cnt false);
  modify (set_free_map fm);;
  fmf ← gets free_map_file;
  bitmap_write fm fmf;;
  mret tt.

(** ** Theory *)

(** The free map as the file system keeps it: exactly the elements its bits
    need, and a file no longer than an off_t can say. *)
Definition fm_wf (b : bitmap) : Prop :=
  wf b ∧ 0 < b.(bit_cnt) <= 4294967264 ∧ Z.of_nat (length b.(bits)) = elem_cnt b.(bit_cnt).

Lemma fm_size b :
  fm_wf b → byte_cnt b.(bit_cnt) = 4 * Z.of_nat (length b.(bits)) ∧
            0 <= byte_cnt b.(bit_cnt) < 2147483648.
Proof.
  intros (_ & Hc & ->). unfold byte_cnt, elem_cnt, ELEM_BITS.
  rewrite !(u32_small (bit_cnt b + 32 - 1)) by lia. rewrite u32_small by zdm. zdm.
Qed.

Lemma length_bits_bytes bs : length (bits_bytes bs) = (4 * length bs)%nat.
Proof.
  unfold bits_bytes. induction bs as [|b bs IH]; [done|].
  cbn [fmap list_fmap concat]. rewrite length_app, IH. simpl. lia.
Qed.

(** Storing the elements as bytes loses nothing. *)
Lemma bytes_bits_bytes bs :
  Forall (λ e, is_u32 e) bs → bytes_bits (length bs) (bits_bytes bs) = bs.
Proof.
  induction 1 as [|b bs Hb _ IH]; [done|].
  change (bits_bytes (b :: bs)) with (le32 b ++ bits_bytes bs). cbn [length bytes_bits].
  change (take 4 (le32 b ++ bits_bytes bs)) with (le32 b).
  change (drop 4 (le32 b ++ bits_bytes bs)) with (bits_bytes bs).
  by rewrite IH, un32_le32, u32_small.
Qed.

(** The free map file is open on an inode large enough for the bitmap. *)
Record fm_file (s : fs) (i : inode) : Prop := {
  fm_nn : s.(free_map_file) ≠ NULL;
  fm_open : ∃ f ip, s.(files) !! s.(free_map_file) = Some f ∧ f.(f_inode) = ip ∧
                    ip ≠ NULL ∧ s.(inodes) !! ip = Some i;
  fm_deny : i.(deny_write_cnt) = 0;
  fm_len : i.(data).(length_) = byte_cnt s.(free_map).(bit_cnt);
  fm_fits : inode_fits s.(fs_device) i }.

Lemma bitmap_write_ok s i b :
  fm_file s i → disk_wf s.(fs_device) → fm_wf b → bit_cnt b = bit_cnt s.(free_map) →
  ∃ r s', bitmap_write b s.(free_map_file) s = Ok (r, s') ∧ writes s s' ∧
    (mem_ok s → r = true) ∧
    ∃ k, 0 <= k <= byte_cnt (bit_cnt b) ∧ (r = true → k = byte_cnt (bit_cnt b)) ∧
      spliced s.(fs_device) (base i) (bits_bytes b.(bits)) k s'.(fs_device).
Proof.
  intros [_ (f & ip & Hf & <- & Hnn & Hi) Hdw Hlen Hfit] Hwf Hb Hcnt.
  destruct (fm_size _ Hb) as [Hsz Hrange].
  unfold bitmap_write. rewrite i32_small by lia.
  destruct (inode_write_at_ok i (f_inode f) Hnn s (bits_bytes (bits b)) (byte_cnt (bit_cnt b)) 0)
    as (k & s' & Hwr & Hw & Hk & Hm & Hsp);
    [done|done|done|done|lia|rewrite length_bits_bytes; lia|lia|].
  exists (k =? byte_cnt (bit_cnt b)), s'. split.
  { unfold file_write_at, get_file. unfold mbind, st_bind, gets, lift; cbn. rewrite Hf; cbn.
    by rewrite Hwr. }
  unfold avail in *. rewrite Hlen, <-Hcnt in *. rewrite Z.add_0_r in Hsp.
  split; [done|]. split.
  { intros Hmem. apply Z.eqb_eq. rewrite Hm by done. lia. }
  exists k. split; [lia|]. split; [by intros ?%Z.eqb_eq|done].
Qed.

Lemma set_multiple_len b st cnt v b' :
  bitmap_set_multiple b st cnt v = Ok b' → length b'.(bits) = length b.(bits).
Proof.
  unfold bitmap_set_multiple. intros H.
  apply bind_Ok in H as (_ & _ & H). apply bind_Ok in H as (_ & _ & H).
  revert H. generalize 0 at 1. revert b. induction (Z.to_nat cnt) as [|n IH]; intros b i H.
  - by injection H as ->.
  - cbn [for_] in H. apply bind_Ok in H as (b1 & H1 & H). rewrite (IH b1 _ H).
    unfold bitmap_set in H1. apply bind_Ok in H1 as (_ & _ & H1).
    destruct v; unfold bitmap_mark, bitmap_reset, update_elem in H1;
      apply bind_Ok in H1 as (e & _ & [= <-]); apply length_insert.
Qed.

(** Changing bits in a range keeps the free map well formed. *)
Lemma fm_set_multiple b st cnt v :
  fm_wf b → 0 <= st → 0 <= cnt → st + cnt <= bit_cnt b →
  ∃ b', bitmap_set_multiple b st cnt v = Ok b' ∧ fm_wf b' ∧ bit_cnt b' = bit_cnt b ∧
    ∀ j, 0 <= j → bit b' j = if in_range st cnt j then v else bit b j.
Proof.
  intros (Hw & Hc & Hl) H1 H2 H3.
  destruct (bitmap_set_multiple_ok b st cnt Hw H1 H2 H3 v) as (b' & Hb & Hw' & Hc' & Hbit).
  exists b'. split; [done|]. split; [|done]. split; [done|]. rewrite Hc'. split; [done|].
  by rewrite (set_multiple_len _ _ _ _ _ Hb).
Qed.

Lemma fm_scan_and_flip b cnt :
  fm_wf b → 0 <= cnt →
  ∃ b' r, bitmap_scan_and_flip b 0 cnt false = Ok (b', r) ∧
    fm_wf b' ∧ bit_cnt b' = bit_cnt b ∧
    ((r = BITMAP_ERROR ∧ b' = b ∧ ∀ i, ¬ group_at b 0 cnt false i) ∨
     (r < BITMAP_ERROR ∧ group_at b 0 cnt false r ∧
      (∀ i, i < r → ¬ group_at b 0 cnt false i) ∧
      ∀ j, 0 <= j → bit b' j = if in_range r cnt j then true else bit b j)).
Proof.
  intros Hfm Hc. pose proof Hfm as (Hw & Hbc & Hl).
  destruct (bitmap_scan_and_flip_ok b 0 cnt false Hw ltac:(lia) Hc)
    as (b' & r & E & Hw' & Hc' & Hr).
  exists b', r. split; [done|]. split; [|done]. split; [done|]. rewrite Hc'. split; [done|].
  rewrite <-Hl. f_equal. unfold bitmap_scan_and_flip in E.
  apply bind_Ok in E as (idx & _ & E). case_match; [by simplify_eq|].
  apply bind_Ok in E as (b1 & E & [= -> ->]). by eapply set_multiple_len.
Qed.

(** The state [s] with another free map, after writes that went at most to the
    free map file, whose inode is [i]. *)
Definition fm_step (i : inode) (s s' : fs) : Prop :=
  writes (set_free_map s'.(free_map) s) s' ∧ fm_wf s'.(free_map) ∧
  bit_cnt s'.(free_map) = bit_cnt s.(free_map) ∧
  (s.(free_map_file) = NULL → s'.(fs_device) = s.(fs_device)) ∧
  ∃ bs k, 0 <= k <= byte_cnt (bit_cnt s.(free_map)) ∧
    spliced s.(fs_device) (base i) bs k s'.(fs_device).

(** The free map file holds the free map. *)
Definition fm_synced (i : inode) (s : fs) : Prop :=
  disk_bytes s.(fs_device) (base i) (byte_cnt (bit_cnt s.(free_map)))
    = bits_bytes s.(free_map).(bits).

Lemma spliced_refl d a bs : spliced d a bs 0 d.
Proof.
  intros x. destruct (Z.leb_spec a x), (Z.ltb_spec x (a + 0)); simpl; done || lia.
Qed.

Lemma spliced_synced d i b d' s :
  spliced d (base i) (bits_bytes b.(bits)) (byte_cnt (bit_cnt b)) d' → fm_wf b →
  s.(fs_device) = d' → s.(free_map) = b → fm_synced i s.
Proof.
  intros Hsp Hb Hd Hm. unfold fm_synced. rewrite Hd, Hm.
  destruct (fm_size b Hb) as [Hsz Hr].
  rewrite (spliced_bytes _ _ _ _ _ Hsp) by (rewrite length_bits_bytes; lia).
  apply take_ge. rewrite length_bits_bytes. lia.
Qed.

Lemma fm_file_set s i b :
  bit_cnt b = bit_cnt s.(free_map) → fm_file s i → fm_file (set_free_map b s) i.
Proof. intros Hb [H0 H1 H2 H3 H4]. split; [done|done|done|by cbn; rewrite Hb|done]. Qed.

Lemma writes_free_map s s' : writes s s' → s'.(free_map) = s.(free_map).
Proof. by intros (? & ? & ? & -> & _). Qed.

Lemma free_map_allocate_ok s i cnt :
  fm_wf s.(free_map) → disk_wf s.(fs_device) →
  s.(free_map_file) = NULL ∨ fm_file s i → 0 <= cnt →
  ∃ r s', free_map_allocate cnt s = Ok (r, s') ∧ fm_step i s s' ∧
    match r with
    | Some sec =>
        group_at s.(free_map) 0 cnt false sec ∧
        (∀ j, j < sec → ¬ group_at s.(free_map) 0 cnt false j) ∧
        (∀ j, 0 <= j → bit s'.(free_map) j =
           if in_range sec cnt j then true else bit s.(free_map) j) ∧
        (s.(free_map_file) ≠ NULL → fm_synced i s')
    | None =>
        (∀ j, 0 <= j → bit s'.(free_map) j = bit s.(free_map) j) ∧
        (mem_ok s → ∀ j, ¬ group_at s.(free_map) 0 cnt false j)
    end.
Proof.
  intros Hfm Hwf Hfile Hc. unfold free_map_allocate. rewrite run_gets.
  destruct (fm_scan_and_flip (free_map s) cnt Hfm Hc) as (b & r & E & Hb & Hbc & Hr).
  rewrite (run_lift _ _ _ _ E), run_modify, run_gets.
  set (s1 := set_free_map b s). destruct Hr as [(-> & -> & Hno)|(Hlt & Hg & Hmin & Hbit)].
  { exists None, s. split; [by subst s1; destruct s|]. split; [|by auto].
    split; [by destruct s|]. repeat (split; [done|]). exists [], 0. split; [|apply spliced_refl].
    pose proof (fm_size _ Hfm). lia. }
  rewrite (proj2 (Z.eqb_neq _ _)) by lia. cbn [orb].
  destruct (Z.eqb_spec (free_map_file s1) NULL) as [Hnull|Hnn].
  { exists (Some r), s1. split.
    { unfold mbind, st_bind, mret, st_ret. by rewrite (proj2 (Z.eqb_neq _ _)) by lia. }
    split; [|done]. split; [done|]. split; [done|]. split; [done|]. split; [done|].
    exists [], 0. split; [|apply spliced_refl]. pose proof (fm_size _ Hfm). lia. }
  destruct Hfile as [|Hfile]; [done|].
  destruct (bitmap_write_ok s1 i b) as (w & s2 & Hwr & Hw & Hm & k & Hk & Hkt & Hsp);
    [by apply fm_file_set|done|done|done|].
  assert (Hs2 : free_map s2 = b) by exact (writes_free_map _ _ Hw).
  destruct w.
  - exists (Some r), s2. split.
    { erewrite run_bind; [|erewrite run_bind by exact Hwr; reflexivity].
      unfold mret, st_ret. by rewrite (proj2 (Z.eqb_neq _ _)) by lia. }
    specialize (Hkt eq_refl). split.
    + unfold fm_step. rewrite Hs2. split; [done|]. split; [done|]. split; [done|].
      split; [done|]. exists (bits_bytes (bits b)), k. split; [rewrite <-Hbc; lia|done].
    + rewrite Hs2. repeat (split; [done|]). intros _. rewrite Hkt in Hsp.
      by eapply spliced_synced.
  - pose proof Hg as (Hg1 & Hg2 & Hg3).
    destruct (fm_set_multiple b r cnt false Hb ltac:(lia) Hc ltac:(lia))
      as (b' & E' & Hb' & Hbc' & Hbit').
    exists None, (set_free_map b' s2). split.
    { erewrite run_bind; [|erewrite run_bind by exact Hwr; cbn iota;
        rewrite (run_lift _ _ _ _ E'), run_modify; reflexivity]. done. }
    split; [|split].
    + split; [|split; [done|split; [cbn; congruence|split; [done|]]]].
      * destruct Hw as (d & o & p & -> & ? & ? & ? & ? & ?). by exists d, o, p.
      * exists (bits_bytes (bits b)), k. split; [rewrite <-Hbc; lia|done].
    + intros j Hj. cbn. rewrite Hbit', Hbit by done.
      destruct (in_range r cnt j) eqn:Hir; [|done]. symmetry. apply Hg3.
      unfold in_range in Hir. apply andb_prop in Hir as [?%Z.leb_le ?%Z.ltb_lt]. lia.
    + intros Hmem. by specialize (Hm Hmem).
Qed.

Lemma free_map_release_ok s i sec cnt :
  fm_wf s.(free_map) → disk_wf s.(fs_device) → fm_file s i →
  0 <= sec → 0 <= cnt → sec + cnt <= bit_cnt s.(free_map) →
  run_of s.(free_map) sec cnt true →
  ∃ s', free_map_release sec cnt s = Ok (tt, s') ∧ fm_step i s s' ∧
    (∀ j, 0 <= j → bit s'.(free_map) j =
       if in_range sec cnt j then false else bit s.(free_map) j) ∧
    (mem_ok s → fm_synced i s').
Proof.
  intros Hfm Hwf Hfile Hs Hc Hle Hrun. pose proof Hfm as (Hw & _).
  unfold free_map_release. rewrite run_gets.
  destruct (bitmap_contains_ok (free_map s) sec cnt Hw Hs Hc Hle false) as (r & E & Hr).
  assert (r = false) as -> by by apply Hr.
  rewrite (run_lift _ _ _ true) by (unfold bitmap_all; by rewrite E).
  unfold fASSERT. rewrite (run_lift _ _ _ tt) by done.
  destruct (fm_set_multiple (free_map s) sec cnt false Hfm Hs Hc Hle)
    as (b & E' & Hb & Hbc & Hbit).
  rewrite (run_lift _ _ _ _ E'), run_modify, run_gets.
  destruct (bitmap_write_ok (set_free_map b s) i b) as (w & s2 & Hwr & Hwr2 & Hm & k & Hk & Hkt & Hsp);
    [by apply fm_file_set|done|done|done|].
  assert (Hs2 : free_map s2 = b) by exact (writes_free_map _ _ Hwr2).
  exists s2. split; [erewrite run_bind by exact Hwr; done|]. split; [|split].
  - unfold fm_step. rewrite Hs2. split; [done|]. split; [done|]. split; [done|]. split.
    + by destruct Hfile.
    + exists (bits_bytes (bits b)), k. split; [rewrite <-Hbc; lia|done].
  - by rewrite Hs2.
  - intros Hmem. rewrite (Hkt (Hm Hmem)) in Hsp. by eapply spliced_synced.
Qed.

(** ** Properties *)

(** Free_map_allocate() hands out only free sectors and records the
    allocation: on success the CNT sectors returned were all free, are the
    lowest such run of the device, are marked (and nothing else changes in the
    map), and the free map file on disk holds exactly the new map; on failure
    the map is as before, and with memory available failure means that no run
    of CNT free sectors exists.  No byte of the device outside the free map
    file is written. *)
Theorem free_map_allocate_exact s i cnt :
  fm_wf s.(free_map) → disk_wf s.(fs_device) → fm_file s i → 0 <= cnt →
  ∃ r s', free_map_allocate cnt s = Ok (r, s') ∧
    match r with
    | Some sec =>
        group_at s.(free_map) 0 cnt false sec ∧
        (∀ j, j < sec → ¬ group_at s.(free_map) 0 cnt false j) ∧
        (∀ j, 0 <= j → bit s'.(free_map) j =
           if in_range sec cnt j then true else bit s.(free_map) j) ∧
        fm_synced i s'
    | None =>
        (∀ j, 0 <= j → bit s'.(free_map) j = bit s.(free_map) j) ∧
        (mem_ok s → ∀ j, ¬ group_at s.(free_map) 0 cnt false j)
    end ∧
    ∀ x, x < base i ∨ base i + byte_cnt (bit_cnt s.(free_map)) <= x →
      disk_byte s'.(fs_device) x = disk_byte s.(fs_device) x.
Proof.
  intros Hfm Hwf Hfile Hc. pose proof (fm_nn _ _ Hfile) as Hnn.
  destruct (free_map_allocate_ok s i cnt) as (r & s' & E & Hst & Hr); [by auto..|].
  exists r, s'. split; [done|]. split.
  - destruct r; [|done]. destruct Hr as (? & ? & ? & ?). by auto.
  - intros x Hx. destruct Hst as (_ & _ & _ & _ & bs & k & Hk & Hsp). rewrite Hsp.
    destruct (Z.leb_spec (base i) x), (Z.ltb_spec x (base i + k)); simpl; done || lia.
Qed.

(** The free map of a device of 64 sectors, with the map's own data in sector
    20, sectors 0, 1, 4 and 20 in use and the file open. *)
Definition demo_fm_inode : inode := mk_inode 0 1 false 0 (mk_inode_disk 20 8 0 []).
Definition demo_fm_fs : fs :=
  mk_fs (mk_block BLOCK_FILESYS 64 ∅ 0 0) (mk_bitmap 64 [1048595; 0]) 2 [1]
    {[ 1 := demo_fm_inode ]} {[ 2 := mk_file 1 0 false ]} ∅ 3 [] (replicate 20 0).

Lemma demo_fm_wf : fm_wf demo_fm_fs.(free_map).
Proof. by repeat (split || constructor). Qed.

Lemma demo_fm_disk_wf : disk_wf demo_fm_fs.(fs_device).
Proof. by repeat split. Qed.

Lemma demo_fm_file : fm_file demo_fm_fs demo_fm_inode.
Proof. split; [done| |done|done|done]. by exists (mk_file 1 0 false), 1. Qed.

(** Three sectors do not fit at 2; the first run of three is at 5. *)
Lemma free_map_allocate_exact_witness :
  (fst <$> free_map_allocate 3 demo_fm_fs) = Ok (Some 5) ∧
  ∃ r s', free_map_allocate 3 demo_fm_fs = Ok (r, s') ∧
    ∀ x, x < 10240 → disk_byte s'.(fs_device) x = disk_byte demo_fm_fs.(fs_device) x.
Proof.
  split; [by vm_compute|].
  destruct (free_map_allocate_exact demo_fm_fs demo_fm_inode 3) as (r & s' & E & _ & H);
    [apply demo_fm_wf|apply demo_fm_disk_wf|apply demo_fm_file|done|].
  exists r, s'. split; [done|]. intros x Hx. apply H. left; exact Hx.
Defined.

(** Releasing the sectors just allocated gives back the free map as it was,
    in memory and, with memory available, in the free map file; releasing
    sectors that are not all allocated stops the kernel. *)
Theorem free_map_release_allocate s i cnt sec s1 :
  fm_wf s.(free_map) → disk_wf s.(fs_device) → fm_file s i → 0 <= cnt →
  free_map_allocate cnt s = Ok (Some sec, s1) →
  (∃ s2, free_map_release sec cnt s1 = Ok (tt, s2) ∧
     (∀ j, 0 <= j → bit s2.(free_map) j = bit s.(free_map) j) ∧
     (mem_ok s → fm_synced i s2)) ∧
  (0 < cnt → free_map_release sec cnt s = Panic).
Proof.
  intros Hfm Hwf Hfile Hc Hal.
  destruct (free_map_allocate_ok s i cnt) as (r & s' & E & Hst & Hr); [by auto..|].
  rewrite Hal in E. injection E as <- <-. destruct Hr as (Hg & _ & Hbit & _).
  destruct Hst as (Hw & Hfm' & Hbc & _ & _). destruct Hg as (Hg1 & Hg2 & Hrun). split.
  - assert (Hfile' : fm_file s1 i).
    { destruct Hw as (d & o & p & Hs1 & Ht & Hsz & _). destruct Hfile as [H0 H1 H2 H3 H4].
      rewrite Hs1. split; [done|done|done|cbn; by rewrite Hbc|]. cbn.
      unfold inode_fits in *. cbn in Hsz. by rewrite Hsz. }
    destruct (free_map_release_ok s1 i sec cnt) as (s2 & E & _ & Hbit2 & Hsync);
      [done|by apply (writes_wf _ _ Hw)|done|done|done|lia| |].
    { intros j Hj. rewrite Hbit by lia. unfold in_range.
      by rewrite (proj2 (Z.leb_le _ _)), (proj2 (Z.ltb_lt _ _)) by lia. }
    exists s2. split; [done|]. split.
    + intros j Hj. rewrite Hbit2, Hbit by done.
      destruct (in_range sec cnt j) eqn:Hir; [|done]. symmetry. apply Hrun.
      unfold in_range in Hir. apply andb_prop in Hir as [?%Z.leb_le ?%Z.ltb_lt]. lia.
    + intros Hm. apply Hsync. by apply (writes_mem _ _ Hw).
  - intros Hpos. unfold free_map_release. rewrite run_gets. pose proof Hfm as (Hbw & _).
    destruct (bitmap_contains_ok (free_map s) sec cnt Hbw Hg1 Hc ltac:(lia) false) as (r & E & Hr).
    destruct r.
    + rewrite (run_lift _ _ _ false) by (unfold bitmap_all; by rewrite E). done.
    + exfalso. destruct Hr as [Hr _]. specialize (Hr eq_refl sec ltac:(lia)).
      by rewrite (Hrun sec ltac:(lia)) in Hr.
Qed.

Lemma free_map_release_allocate_witness :
  ∃ s1, free_map_allocate 3 demo_fm_fs = Ok (Some 5, s1) ∧
    free_map_release 5 3 demo_fm_fs = Panic ∧
    ∃ s2, free_map_release 5 3 s1 = Ok (tt, s2) ∧
      ∀ j, 0 <= j → bit s2.(free_map) j = bit demo_fm_fs.(free_map) j.
Proof.
  destruct (free_map_allocate 3 demo_fm_fs) as [[r s1]| | |] eqn:E;
    pose proof E as E0; vm_compute in E; try discriminate.
  injection E as <- E1. exists s1. split; [done|].
  destruct (free_map_release_allocate demo_fm_fs demo_fm_inode 3 5 s1)
    as ((s2 & H1 & H2 & _) & H3);
    [apply demo_fm_wf|apply demo_fm_disk_wf|apply demo_fm_file|done|exact E0|].
  split; [by apply H3|]. by exists s2.
Defined.
