(* ===== verification/Inode.v ===== *)
(** * Inodes: filesys/inode.c, creation, opening and closing

    The on-disk inode as the 512 bytes of its sector, and the list of open
    inodes, in which two openers of a sector share one structure.  The kernel
    list open_inodes is the sequence of its elements (LinkedList.v relates the
    operations of list.c to sequences).  A freed structure leaves its store, so
    that a later use of the pointer is [Wild]. *)

From S2P Require Import Prelude Bitmap FsState InodeIO FreeMap.

Open Scope Z_scope.

(** ** Definitions *)

Definition INODE_MAGIC : Z := 1229868868.

(** The sector of an on-disk inode. *)
Definition inode_bytes (d : inode_disk) : list Z :=
  le32 d.(start) ++ le32 d.(length_) ++ le32 d.(magic) ++ d.(unused).

Definition bytes_inode (bs : list Z) : inode_disk :=
  mk_inode_disk (un32 (take 4 bs)) (i32 (un32 (take 4 (drop 4 bs))))
    (un32 (take 4 (drop 8 bs))) (drop 12 bs).

(** [DIV_ROUND_UP (size, BLOCK_SECTOR_SIZE)], computed in [int] and converted
    to [size_t]. *)
Definition bytes_to_sectors (size : Z) : Z :=
  u32 (Z.quot (i32 (i32 (size + BLOCK_SECTOR_SIZE) - 1)) BLOCK_SECTOR_SIZE).

Definition inode_init : M unit := modify (set_open_inodes []).

Definition inode_create (sector length : Z) : M bool :=
  fASSERT (0 <=? length);;
  disk_inode ← malloc;
  if disk_inode =? NULL then mret false
  else
    let sectors := bytes_to_sectors length in
    r ← free_map_allocate sectors;
    match r with
    | None => mret false
    | Some start =>
        block_write sector
          (inode_bytes (mk_inode_disk start length INODE_MAGIC (replicate 500 0)));;
        when (0 <? sectors)
          (for_st (Z.to_nat sectors) 0 (λ i, block_write (u32 (start + i)) zero_sector));;
        mret true
    end.

Definition inode_reopen (ip : Z) : M Z :=
  if ip =? NULL then mret ip
  else
    i ← get_inode ip;
    put_inode ip (mk_inode i.(sector) (i32 (i.(open_cnt) + 1)) i.(removed)
                    i.(deny_write_cnt) i.(data));;
    mret ip.

(** The search of inode_open() through the list of open inodes. *)
Fixpoint find_inode (l : list Z) (sec : Z) : M (option Z) :=
  match l with
  | [] => mret None
  | ip :: l =>
      i ← get_inode ip;
      if i.(sector) =? sec then mret (Some ip) else find_inode l sec
  end.

Definition inode_open (sec : Z) : M Z :=
  l ← gets open_inodes;
  r ← find_inode l sec;
  match r with
  | Some ip => inode_reopen ip
  | None =>
      ip ← malloc;
      if ip =? NULL then mret NULL
      else
        l ← gets open_inodes;
        modify (set_open_inodes (ip :: l));;
        b ← block_read sec;
        put_inode ip (mk_inode sec 1 false 0 (bytes_inode b));;
        mret ip
  end.

Definition inode_close (ip : Z) : M unit :=
  if ip =? NULL then mret tt
  else
    i ← get_inode ip;
    let i := mk_inode i.(sector) (i32 (i.(open_cnt) - 1)) i.(removed)
               i.(deny_write_cnt) i.(data) in
    put_inode ip i;;
    if i.(open_cnt) =? 0 then
      l ← gets open_inodes;
      lift (if bool_decide (ip ∈ l) then Ok tt else Wild);;
      modify (set_open_inodes (List.filter (λ q, negb (q =? ip)) l));;
      when i.(removed)
        (free_map_release i.(sector) 1;;
         free_map_release i.(data).(start) (bytes_to_sectors i.(data).(length_)));;
      m ← gets inodes;
      modify (set_inodes (delete ip m))
    else mret tt.

Definition inode_remove (ip : Z) : M unit :=
  fASSERT (negb (ip =? NULL));;
  i ← get_inode ip;
  put_inode ip (mk_inode i.(sector) i.(open_cnt) true i.(deny_write_cnt) i.(data)).

(** ** The on-disk inode *)

Lemma inode_bytes_roundtrip d :
  is_u32 d.(start) → is_i32 d.(length_) → is_u32 d.(magic) →
  bytes_inode (inode_bytes d) = d.
Proof.
  intros Hs Hl Hm. destruct d as [st ln mg un]. cbn in Hs, Hl, Hm.
  change (bytes_inode (inode_bytes (mk_inode_disk st ln mg un))) with
    (mk_inode_disk (un32 (le32 st)) (i32 (un32 (le32 ln))) (un32 (le32 mg)) un).
  rewrite !un32_le32, i32_u32, i32_small, !u32_small by done. done.
Qed.

Lemma length_inode_bytes st ln mg :
  length (inode_bytes (mk_inode_disk st ln mg (replicate 500 0))) = 512%nat.
Proof. done. Qed.

Lemma bytes_to_sectors_ok n :
  0 <= n < 2147483648 - 512 → bytes_to_sectors n = (n + 511) / 512.
Proof.
  intros Hn. unfold bytes_to_sectors, BLOCK_SECTOR_SIZE.
  rewrite (i32_small (n + 512)), i32_small, Z.quot_div_nonneg by lia.
  replace (n + 512 - 1) with (n + 511) by lia. rewrite u32_small by zdm. done.
Qed.

(** ** The table of open inodes *)

(** The open inodes are exactly the listed ones, no two on the same sector, each
    with an opener; pointers are below the next one to be allocated. *)
Record itab (s : fs) : Prop := {
  it_nodup : NoDup s.(open_inodes);
  it_open : ∀ ip, ip ∈ s.(open_inodes) ↔ is_Some (s.(inodes) !! ip);
  it_ptr : ∀ ip, ip ∈ s.(open_inodes) → 0 < ip < s.(brk);
  it_cnt : map_Forall (λ _ i, 1 <= i.(open_cnt)) s.(inodes);
  it_inj : ∀ ip jp i j, s.(inodes) !! ip = Some i → s.(inodes) !! jp = Some j →
             i.(sector) = j.(sector) → ip = jp;
  it_brk : 0 < s.(brk) }.

Lemma get_inode_ok ip i s : s.(inodes) !! ip = Some i → get_inode ip s = Ok (i, s).
Proof. intros H. unfold get_inode. by rewrite run_gets, H. Qed.

Lemma find_inode_hit s l sec ip i :
  (∀ jp, jp ∈ l → is_Some (s.(inodes) !! jp)) →
  (∀ jp j, s.(inodes) !! jp = Some j → j.(sector) = sec → jp = ip) →
  s.(inodes) !! ip = Some i → i.(sector) = sec → ip ∈ l →
  find_inode l sec s = Ok (Some ip, s).
Proof.
  intros Hall Huniq Hi Hsec. induction l as [|jp l IH]; intros Hin; [by apply not_elem_of_nil in Hin|].
  destruct (Hall jp) as [j Hj]; [set_solver|]. cbn [find_inode].
  rewrite (run_bind _ _ _ _ _ (get_inode_ok _ _ _ Hj)).
  destruct (Z.eqb_spec (sector j) sec) as [E|E].
  - by rewrite (Huniq jp j Hj E).
  - apply IH; [set_solver|]. apply elem_of_cons in Hin as [->|]; [congruence|done].
Qed.

Lemma find_inode_miss s l sec :
  (∀ jp, jp ∈ l → is_Some (s.(inodes) !! jp)) →
  (∀ jp j, s.(inodes) !! jp = Some j → j.(sector) ≠ sec) →
  find_inode l sec s = Ok (None, s).
Proof.
  intros Hall Hno. induction l as [|jp l IH]; [done|].
  destruct (Hall jp) as [j Hj]; [set_solver|]. cbn [find_inode].
  rewrite (run_bind _ _ _ _ _ (get_inode_ok _ _ _ Hj)).
  rewrite (proj2 (Z.eqb_neq _ _)) by by eapply Hno. apply IH. set_solver.
Qed.

(** The number of openers of the inode at a sector. *)
Definition opens (s : fs) (sec : Z) : Z :=
  from_option (λ i, i.(open_cnt)) 0
    (snd <$> List.find (λ '(_, i), i.(sector) =? sec) (map_to_list s.(inodes))).

Lemma find_sector (l : list (Z * inode)) ip i :
  (ip, i) ∈ l →
  (∀ jp j, (jp, j) ∈ l → j.(sector) = i.(sector) → (jp, j) = (ip, i)) →
  List.find (λ '(_, j), j.(sector) =? i.(sector)) l = Some (ip, i).
Proof.
  induction l as [|[jp j] l IH]; intros Hin Hu; [by apply not_elem_of_nil in Hin|]. simpl.
  destruct (Z.eqb_spec (sector j) (sector i)) as [E|E].
  - by rewrite (Hu jp j ltac:(set_solver) E).
  - apply elem_of_cons in Hin as [[= -> ->]|Hin]; [done|]. apply IH; [done|].
    intros. apply Hu; [set_solver|done].
Qed.

Lemma opens_hit s ip i :
  (∀ jp j, s.(inodes) !! jp = Some j → j.(sector) = i.(sector) → jp = ip) →
  s.(inodes) !! ip = Some i → opens s i.(sector) = i.(open_cnt).
Proof.
  intros Hu Hi. unfold opens. rewrite (find_sector _ ip i); [done|by apply elem_of_map_to_list|].
  intros jp j Hj%elem_of_map_to_list E. rewrite (Hu jp j Hj E) in Hj |- *. congruence.
Qed.

Lemma opens_miss s sec :
  (∀ jp j, s.(inodes) !! jp = Some j → j.(sector) ≠ sec) → opens s sec = 0.
Proof.
  intros Hno. unfold opens. destruct (List.find _ _) as [[jp j]|] eqn:E; [|done].
  apply List.find_some in E as [Hin E%Z.eqb_eq].
  apply list_elem_of_In, elem_of_map_to_list in Hin. by destruct (Hno jp j Hin).
Qed.

Lemma sector_cases s sec :
  (∃ ip i, s.(inodes) !! ip = Some i ∧ i.(sector) = sec) ∨
  (∀ jp j, s.(inodes) !! jp = Some j → j.(sector) ≠ sec).
Proof.
  destruct (List.find (λ '(_, i), sector i =? sec) (map_to_list (inodes s))) as [[ip i]|] eqn:E.
  - left. apply List.find_some in E as [Hin E%Z.eqb_eq].
    apply list_elem_of_In, elem_of_map_to_list in Hin. eauto.
  - right. intros jp j Hj. pose proof (List.find_none _ _ E (jp, j)) as H. simpl in H.
    apply Z.eqb_neq, H, list_elem_of_In, elem_of_map_to_list. done.
Qed.

(** Tables that agree on the inodes of a sector agree on its openers. *)
Lemma opens_same s s' sec :
  itab s → itab s' →
  (∀ jp j, j.(sector) = sec → s.(inodes) !! jp = Some j ↔ s'.(inodes) !! jp = Some j) →
  opens s' sec = opens s sec.
Proof.
  intros Ht Ht' Hag. destruct (sector_cases s sec) as [(ip & i & Hi & <-)|Hno].
  - assert (Hi' : inodes s' !! ip = Some i) by by apply Hag.
    rewrite !(opens_hit _ ip i); [done|..]; try done; intros; by eauto using it_inj.
  - rewrite !opens_miss; [done|done|]. intros jp j Hj E. apply (Hno jp j); [|done].
    by apply Hag.
Qed.

Lemma malloc_ok s :
  mem_ok s → ∃ s', malloc s = Ok (s.(brk), s') ∧ mem_ok s' ∧
    s' = set_brk (s.(brk) + 1) (set_oom (tail s.(oom)) s).
Proof.
  intros [Hm Hb]. unfold malloc. destruct s as [d fm fmf oi is_ fl ds b [|[] l] j]; cbn in *.
  - eexists. split; [done|]. split; [split; cbn; [done|lia]|done].
  - set_solver.
  - eexists. split; [done|]. split; [split; cbn; [set_solver|lia]|done].
Qed.

(** Replacing a structure of the table by one of the same sector. *)
Lemma itab_update s ip i i' :
  itab s → s.(inodes) !! ip = Some i → i'.(sector) = i.(sector) → 1 <= i'.(open_cnt) →
  itab (set_inodes (<[ip := i']> s.(inodes)) s).
Proof.
  intros [H1 H2 H3 H4 H5 H6] Hi Hsec Hcnt. split; cbn; [done| |done| | |done].
  - intros jp. rewrite H2, lookup_insert_is_Some.
    destruct (decide (ip = jp)) as [->|]; naive_solver.
  - by apply map_Forall_insert_2.
  - intros jp kp j k Hj Hk E.
    apply lookup_insert_Some in Hj as [[<- <-]|[Hne Hj]];
      apply lookup_insert_Some in Hk as [[<- <-]|[Hne' Hk]]; [done|..];
      eapply H5; eauto; congruence.
Qed.

Lemma opens_update s ip i i' sec :
  itab s → s.(inodes) !! ip = Some i → i'.(sector) = i.(sector) → 1 <= i'.(open_cnt) →
  opens (set_inodes (<[ip := i']> s.(inodes)) s) sec =
    if sec =? i.(sector) then i'.(open_cnt) else opens s sec.
Proof.
  intros Ht Hi Hsec Hcnt. pose proof (itab_update s ip i i' Ht Hi Hsec Hcnt) as Ht'.
  destruct (Z.eqb_spec sec (sector i)) as [->|Hne].
  - rewrite <-Hsec. apply (opens_hit _ ip); [|by cbn; rewrite lookup_insert_eq].
    intros jp j Hj E. eapply (it_inj _ Ht'); eauto. by cbn; rewrite lookup_insert_eq.
  - apply opens_same; [done..|]. intros jp j Hj. cbn. rewrite lookup_insert_Some.
    split; [|naive_solver congruence]. intros Hj'. right. split; [|done].
    intros ->. congruence.
Qed.

Lemma inode_open_hit s ip i :
  itab s → s.(inodes) !! ip = Some i → is_i32 (i.(open_cnt) + 1) →
  inode_open i.(sector) s =
    Ok (ip, set_inodes (<[ip := mk_inode i.(sector) (i.(open_cnt) + 1) i.(removed)
                                 i.(deny_write_cnt) i.(data)]> s.(inodes)) s).
Proof.
  intros Ht Hi Hr. unfold inode_open. rewrite run_gets.
  assert (Hin : ip ∈ open_inodes s) by (apply (it_open _ Ht); eauto).
  rewrite (run_bind _ _ s (Some ip) s).
  - unfold inode_reopen. pose proof (it_ptr _ Ht ip Hin).
    rewrite (proj2 (Z.eqb_neq _ _)) by lia.
    rewrite (run_bind _ _ _ _ _ (get_inode_ok _ _ _ Hi)). rewrite i32_small by done. done.
  - eapply find_inode_hit; eauto using it_inj. intros jp Hjp. by apply (it_open _ Ht).
Qed.

Lemma inode_open_miss s sec :
  itab s → mem_ok s → sec < s.(fs_device).(b_size) →
  (∀ jp j, s.(inodes) !! jp = Some j → j.(sector) ≠ sec) →
  ∃ s', inode_open sec s = Ok (s.(brk), s') ∧ mem_ok s' ∧
    s'.(inodes) = <[s.(brk) := mk_inode sec 1 false 0
                     (bytes_inode (sector_at s.(fs_device) sec))]> s.(inodes) ∧
    s'.(open_inodes) = s.(brk) :: s.(open_inodes) ∧ s'.(brk) = s.(brk) + 1 ∧
    s'.(fs_device).(sectors) = s.(fs_device).(sectors) ∧
    s'.(fs_device).(b_size) = s.(fs_device).(b_size) ∧
    s'.(fs_device).(b_type) = s.(fs_device).(b_type) ∧
    s'.(free_map) = s.(free_map) ∧ s'.(free_map_file) = s.(free_map_file) ∧
    s'.(files) = s.(files) ∧ s'.(dirs) = s.(dirs) ∧ s'.(junk) = s.(junk).
Proof.
  intros Ht Hm Hsec Hno. unfold inode_open. rewrite run_gets.
  rewrite (run_bind _ _ s None s); cycle 1.
  { apply find_inode_miss; [|done]. intros jp Hjp. by apply (it_open _ Ht). }
  destruct (malloc_ok s Hm) as (s1 & E & Hm1 & Hs1).
  rewrite (run_bind _ _ _ _ _ E). destruct Hm as [_ Hb].
  rewrite (proj2 (Z.eqb_neq _ _)) by lia. rewrite run_gets, run_modify.
  erewrite run_bind by (apply block_read_ok; rewrite Hs1; exact Hsec).
  unfold put_inode. eexists. split; [reflexivity|]. rewrite Hs1. cbn. by rewrite Hs1 in Hm1.
Qed.

(** A fresh structure at the head of the list. *)
Lemma itab_add s s' p i :
  itab s → p = s.(brk) → s'.(inodes) = <[p := i]> s.(inodes) →
  s'.(open_inodes) = p :: s.(open_inodes) → s'.(brk) = s.(brk) + 1 →
  1 <= i.(open_cnt) →
  (∀ jp j, s.(inodes) !! jp = Some j → j.(sector) ≠ i.(sector)) → itab s'.
Proof.
  intros [H1 H2 H3 H4 H5 H6] -> Hi Ho Hb Hcnt Hno. split; rewrite ?Hi, ?Ho, ?Hb; [|..|lia].
  - constructor; [|done]. intros Hin%H3. lia.
  - intros ip. rewrite elem_of_cons, H2, lookup_insert_is_Some.
    destruct (decide (brk s = ip)) as [->|]; naive_solver.
  - intros ip [->|Hin]%elem_of_cons; [lia|]. apply H3 in Hin. lia.
  - by apply map_Forall_insert_2.
  - intros jp kp j k Hj Hk E.
    apply lookup_insert_Some in Hj as [[<- <-]|[Hne Hj]];
      apply lookup_insert_Some in Hk as [[<- <-]|[Hne' Hk]]; [done|..].
    + exfalso. eapply Hno; eauto.
    + exfalso. eapply Hno; eauto.
    + by eapply H5.
Qed.

Lemma itab_del s s' p i :
  itab s → s.(inodes) !! p = Some i → s'.(inodes) = delete p s.(inodes) →
  s'.(open_inodes) = List.filter (λ q, negb (q =? p)) s.(open_inodes) →
  s.(brk) <= s'.(brk) → itab s'.
Proof.
  intros [H1 H2 H3 H4 H5 H6] Hp Hi Ho Hb.
  assert (Hel : ∀ q, q ∈ open_inodes s' ↔ q ∈ open_inodes s ∧ q ≠ p).
  { intros q. rewrite Ho, !list_elem_of_In, List.filter_In, negb_true_iff, Z.eqb_neq. done. }
  split; rewrite ?Hi; [|..|lia].
  - rewrite Ho. apply NoDup_ListNoDup, List.NoDup_filter, NoDup_ListNoDup. done.
  - intros q. rewrite Hel, H2, lookup_delete_is_Some. naive_solver.
  - intros q Hq%Hel. destruct Hq as [Hq%H3 _]. lia.
  - by apply map_Forall_delete.
  - intros jp kp j k Hj%lookup_delete_Some Hk%lookup_delete_Some E.
    eapply H5; [apply Hj|apply Hk|done].
Qed.

(** ** Properties *)


Lemma demo_fm_itab : itab demo_fm_fs.
Proof.
  split; cbn; [by apply NoDup_singleton| | | | |done].
  - intros ip. rewrite list_elem_of_singleton, lookup_singleton_is_Some. naive_solver.
  - intros ip ->%list_elem_of_singleton. done.
  - by apply map_Forall_singleton.
  - intros ip jp i j [<- _]%lookup_singleton_Some [<- _]%lookup_singleton_Some. done.
Qed.


Lemma fm_step_file j s s' : fm_step j s s' → fm_file s j → fm_file s' j.
Proof.
  intros (Hw & _ & Hbc & _) [H0 H1 H2 H3 H4].
  destruct Hw as (d & o & p & Hs' & Ht & Hsz & _). rewrite Hs'.
  split; [done|done|done|cbn; by rewrite Hbc|].
  unfold inode_fits in *. cbn in Hsz |- *. by rewrite Hsz.
Qed.

Lemma fm_step_wf j s s' : fm_step j s s' → disk_wf s.(fs_device) → disk_wf s'.(fs_device).
Proof. intros (Hw & _) H. by apply (writes_wf _ _ Hw). Qed.

Lemma fm_step_table j s s' :
  fm_step j s s' → s'.(inodes) = s.(inodes) ∧ s'.(open_inodes) = s.(open_inodes) ∧
                   s.(brk) <= s'.(brk).
Proof. intros ((d & o & p & -> & _ & _ & _ & _ & Hp) & _). done. Qed.

(** The state in which the last opener of [ip] has been taken off the list. *)
Definition unlisted (s : fs) (ip : Z) (i : inode) : fs :=
  set_open_inodes (List.filter (λ q, negb (q =? ip)) s.(open_inodes))
    (set_inodes (<[ip := mk_inode i.(sector) 0 i.(removed) i.(deny_write_cnt) i.(data)]>
                   s.(inodes)) s).

Lemma inode_close_last_run s ip i :
  itab s → s.(inodes) !! ip = Some i → i.(open_cnt) = 1 →
  inode_close ip s =
    (when i.(removed)
       (free_map_release i.(sector) 1;;
        free_map_release i.(data).(start) (bytes_to_sectors i.(data).(length_)));;
     m ← gets inodes; modify (set_inodes (delete ip m))) (unlisted s ip i).
Proof.
  intros Ht Hi Hc. assert (Hin : ip ∈ open_inodes s) by (apply (it_open _ Ht); eauto).
  pose proof (it_ptr _ Ht ip Hin). unfold inode_close.
  rewrite (proj2 (Z.eqb_neq _ _)) by lia.
  rewrite (run_bind _ _ _ _ _ (get_inode_ok _ _ _ Hi)). rewrite Hc.
  change (i32 (1 - 1)) with 0. unfold put_inode.
  rewrite (run_bind _ _ s tt (set_inodes (<[ip := mk_inode (sector i) 0 (removed i)
    (deny_write_cnt i) (data i)]> (inodes s)) s)) by done.
  cbn [open_cnt Z.eqb]. rewrite run_gets, (run_lift _ _ _ tt).
  - rewrite run_modify. done.
  - cbn. by rewrite bool_decide_eq_true_2.
Qed.

(** The two releases of a removed inode. *)
Lemma release_both s j sec st n :
  fm_wf s.(free_map) → disk_wf s.(fs_device) → fm_file s j →
  0 <= n → 0 <= sec → sec + 1 <= bit_cnt s.(free_map) →
  0 <= st → st + n <= bit_cnt s.(free_map) →
  run_of s.(free_map) sec 1 true → run_of s.(free_map) st n true →
  in_range st n sec = false →
  ∃ s', (free_map_release sec 1;; free_map_release st n) s = Ok (tt, s') ∧
    s'.(inodes) = s.(inodes) ∧ s'.(open_inodes) = s.(open_inodes) ∧ s.(brk) <= s'.(brk) ∧
    ∀ k, 0 <= k → bit s'.(free_map) k =
      if (k =? sec) || in_range st n k then false else bit s.(free_map) k.
Proof.
  intros Hfm Hwf Hfile Hn Hs0 Hs1 Hd0 Hd1 Hrs Hrd Hdis.
  destruct (free_map_release_ok s j sec 1) as (s2 & E2 & Hst2 & Hb2 & _); [done || lia..|].
  pose proof (fm_step_table _ _ _ Hst2) as (Ht2 & Ho2 & Hbr2).
  pose proof Hst2 as (_ & Hfm2 & Hbc2 & _).
  assert (Hone : ∀ k, in_range sec 1 k = (k =? sec)).
  { intros k. unfold in_range. destruct (Z.leb_spec sec k), (Z.ltb_spec k (sec + 1)),
      (Z.eqb_spec k sec); simpl; done || lia. }
  destruct (free_map_release_ok s2 j st n) as (s3 & E3 & Hst3 & Hb3 & _);
    [done|by eapply fm_step_wf|by eapply fm_step_file|done|done|by rewrite Hbc2|..].
  { intros k Hk. rewrite Hb2, Hone by lia. destruct (Z.eqb_spec k sec) as [->|]; [|by apply Hrd].
    unfold in_range in Hdis.
    by rewrite (proj2 (Z.leb_le _ _)), (proj2 (Z.ltb_lt _ _)) in Hdis by lia. }
  pose proof (fm_step_table _ _ _ Hst3) as (Ht3 & Ho3 & Hbr3).
  exists s3. split; [by erewrite run_bind by exact E2|].
  split; [congruence|]. split; [congruence|]. split; [lia|].
  intros k Hk. rewrite Hb3, Hb2, Hone by done. by destruct (in_range st n k), (k =? sec).
Qed.


(** The table with a removed file at sector 4, of 700 bytes in sectors 5 and 6. *)
Definition demo_removed : inode := mk_inode 4 1 true 0 (mk_inode_disk 5 700 0 []).
Definition demo_close_fs : fs :=
  set_brk 4 (set_open_inodes [3; 1] (set_inodes (<[3 := demo_removed]> demo_fm_fs.(inodes))
    (set_free_map (mk_bitmap 64 [1048691; 0]) demo_fm_fs))).

Lemma demo_close_itab : itab demo_close_fs.
Proof.
  split; cbn [demo_close_fs set_brk set_open_inodes set_inodes open_inodes inodes brk]; [| | | | |done].
  - apply NoDup_cons. split; [set_solver|apply NoDup_singleton].
  - intros ip. cbn. rewrite lookup_insert_is_Some, lookup_singleton_is_Some.
    rewrite elem_of_cons, list_elem_of_singleton. destruct (decide (3 = ip)); naive_solver.
  - intros ip [->| ->%list_elem_of_singleton]%elem_of_cons; done.
  - apply map_Forall_insert_2; [done|]. by apply map_Forall_singleton.
  - change (inodes demo_fm_fs) with ({[ 1 := demo_fm_inode ]} : gmap Z inode).
    intros ip jp i j [[<- <-]|[_ [<- <-]%lookup_singleton_Some]]%lookup_insert_Some
      [[<- <-]|[_ [<- <-]%lookup_singleton_Some]]%lookup_insert_Some; done.
Qed.


(** ** Creating a file *)

Lemma sector_at_written s n b x :
  sector_at (written s n b).(fs_device) x = if x =? n then b else sector_at s.(fs_device) x.
Proof.
  unfold sector_at; cbn. destruct (Z.eqb_spec x n) as [->|].
  - by rewrite lookup_insert_eq.
  - by rewrite lookup_insert_ne.
Qed.

(** Clearing the data sectors. *)
Lemma zero_sectors s st n :
  disk_wf s.(fs_device) → 0 <= st → 0 <= n → st + n <= s.(fs_device).(b_size) →
  ∃ s', for_st (Z.to_nat n) 0 (λ i, block_write (u32 (st + i)) zero_sector) s = Ok (tt, s') ∧
    writes s s' ∧
    ∀ x, sector_at s'.(fs_device) x =
      if in_range st n x then zero_sector else sector_at s.(fs_device) x.
Proof.
  intros Hwf Hst Hn Hle.
  destruct (for_st_inv (λ i s', writes s s' ∧ ∀ x, sector_at s'.(fs_device) x =
      if in_range st i x then zero_sector else sector_at s.(fs_device) x)
    (λ i, block_write (u32 (st + i)) zero_sector) (Z.to_nat n) 0 s) as (s' & E & Hw & Hx).
  - intros i s1 Hi [Hw Hx]. pose proof (writes_wf _ _ Hw Hwf) as (_ & Hsz & Hty).
    assert (Hbs : b_size (fs_device s1) = b_size (fs_device s)).
    { destruct Hw as (d & ? & ? & -> & _ & H & _). exact H. }
    rewrite u32_small by lia. rewrite block_write_ok by (done || lia).
    eexists. split; [done|]. split; [etrans; [exact Hw|]; by apply written_writes|].
    intros x. rewrite sector_at_written, Hx. unfold in_range.
    destruct (Z.eqb_spec x (st + i)), (Z.leb_spec st x), (Z.ltb_spec x (st + i)),
      (Z.ltb_spec x (st + (i + 1))); simpl; done || lia.
  - split; [done|]. intros x. unfold in_range.
    destruct (Z.leb_spec st x), (Z.ltb_spec x (st + 0)); simpl; done || lia.
  - rewrite Z.add_0_l, Z2Nat.id in Hx by done. by exists s'.
Qed.

(** A sector that does not meet the free map's file keeps its contents. *)
Lemma spliced_sector d a bs k d' x :
  spliced d a bs k d' → disk_wf d → disk_wf d' →
  512 * x + 512 <= a ∨ a + k <= 512 * x → sector_at d' x = sector_at d x.
Proof.
  intros Hsp Hwf Hwf' Hx. rewrite !sector_whole by done. eapply spliced_bytes_ne; [done|]. lia.
Qed.

Lemma zero_bytes d st n k :
  (∀ x, st <= x < st + n → sector_at d x = zero_sector) → 0 <= k <= 512 * n →
  disk_bytes d (512 * st) k = replicate (Z.to_nat k) 0.
Proof.
  intros Hz Hk. apply list_eq_same_length with (n := Z.to_nat k);
    [by rewrite length_replicate|by rewrite length_disk_bytes|].
  intros j x y Hj. rewrite disk_bytes_lookup by lia. intros [= <-] Hy%lookup_replicate.
  destruct Hy as [-> _]. unfold disk_byte. rewrite Hz by zdm.
  apply lookup_total_replicate_2. zdm.
Qed.

Lemma inode_create_ok s j sec len :
  fm_wf s.(free_map) → disk_wf s.(fs_device) → fm_file s j → mem_ok s →
  bit_cnt s.(free_map) = s.(fs_device).(b_size) →
  0 <= len < 2147483136 → 0 <= sec < s.(fs_device).(b_size) →
  bit s.(free_map) sec = true →
  let n := (len + 511) / 512 in
  ∃ r s', inode_create sec len s = Ok (r, s') ∧ mem_ok s' ∧ fm_file s' j ∧
    disk_wf s'.(fs_device) ∧ fm_wf s'.(free_map) ∧
    s'.(inodes) = s.(inodes) ∧ s'.(open_inodes) = s.(open_inodes) ∧ s.(brk) <= s'.(brk) ∧
    s'.(fs_device).(b_size) = s.(fs_device).(b_size) ∧
    if r then ∃ st,
      group_at s.(free_map) 0 n false st ∧
      (∀ k, 0 <= k → bit s'.(free_map) k =
         if in_range st n k then true else bit s.(free_map) k) ∧
      sector_at s'.(fs_device) sec =
        inode_bytes (mk_inode_disk st len INODE_MAGIC (replicate 500 0)) ∧
      (∀ x, st <= x < st + n → sector_at s'.(fs_device) x = zero_sector) ∧
      ∀ x, x ≠ sec → in_range st n x = false →
        512 * x + 512 <= base j ∨ base j + byte_cnt (bit_cnt s.(free_map)) <= 512 * x →
        sector_at s'.(fs_device) x = sector_at s.(fs_device) x
    else ∀ k, ¬ group_at s.(free_map) 0 n false k.
Proof.
  intros Hfm Hwf Hfile Hm Hbc Hlen Hsec Hused n.
  assert (Hn : 0 <= n <= 4194304) by (unfold n; zdm).
  unfold inode_create, fASSERT. rewrite (run_lift _ _ _ tt) by (apply ASSERT_true, Z.leb_le; lia).
  destruct (malloc_ok s Hm) as (s1 & E1 & Hm1 & Hs1). rewrite (run_bind _ _ _ _ _ E1).
  rewrite (proj2 (Z.eqb_neq _ _)) by (destruct Hm; lia).
  rewrite (bytes_to_sectors_ok len) by lia. fold n.
  assert (Hfile1 : fm_file s1 j) by (rewrite Hs1; destruct Hfile; by split).
  destruct (free_map_allocate_ok s1 j n) as (r & s2 & E2 & Hst & Hr);
    [by rewrite Hs1|by rewrite Hs1|by right|lia|].
  rewrite (run_bind _ _ _ _ _ E2).
  pose proof (fm_step_file _ _ _ Hst Hfile1) as Hfile2.
  pose proof (fm_step_table _ _ _ Hst) as (Hi2 & Ho2 & Hb2).
  assert (Hwf2 : disk_wf (fs_device s2)) by (eapply fm_step_wf; [done|]; by rewrite Hs1).
  pose proof Hst as (Hw2 & Hfm2 & _).
  assert (Hsz2 : b_size (fs_device s2) = b_size (fs_device s)).
  { destruct Hw2 as (d & ? & ? & -> & _ & H & _). rewrite Hs1 in H. exact H. }
  assert (Hm2 : mem_ok s2) by by apply (writes_mem _ _ Hw2).
  rewrite Hs1 in Hi2, Ho2, Hb2, Hr; cbn in Hi2, Ho2, Hb2, Hr.
  destruct r as [st|]; cycle 1.
  { exists false, s2. split; [done|]. do 8 (split; [done || lia|]). apply Hr. by rewrite <-Hs1. }
  destruct Hr as (Hg & _ & Hbit & _). pose proof Hg as (Hg1 & Hg2 & Hg3).
  erewrite run_bind by (apply block_write_ok; [lia|apply Hwf2]).
  set (s3 := written s2 sec _).
  assert (Hw3 : writes s2 s3) by by apply written_writes.
  destruct (zero_sectors s3 st n) as (s4 & E4 & Hw4 & Hx4);
    [by eapply writes_wf|lia|lia|cbn; lia|].
  assert (Hw : writes s2 s4) by by etrans.
  exists true, s4. split.
  { destruct (Z.ltb_spec 0 n) as [Hpos|Hz]; cbn [when].
    - by rewrite (run_bind _ _ _ _ _ E4).
    - assert (n = 0) as Hn0 by lia. rewrite Hn0 in E4. cbn in E4. injection E4 as <-. done. }
  pose proof Hw as (d & o & p & Hs4 & Hty & Hsz & Hdwf & Ho & Hp).
  split; [by eapply writes_mem|]. split.
  { rewrite Hs4. destruct Hfile2 as [F0 F1 F2 F3 F4]. split; [done..|].
    cbn. unfold inode_fits in *. by rewrite Hsz. }
  split; [by eapply writes_wf|]. rewrite (writes_free_map _ _ Hw). split; [done|].
  rewrite (writes_inodes _ _ Hw). split; [done|].
  split; [by rewrite Hs4|]. split; [rewrite Hs4; cbn; lia|]. split; [by rewrite Hs4; cbn; congruence|].
  exists st. split; [done|]. split; [done|]. split.
  - rewrite Hx4. destruct (in_range st n sec) eqn:Hir.
    + exfalso. unfold in_range in Hir. apply andb_prop in Hir as [?%Z.leb_le ?%Z.ltb_lt].
      by rewrite (Hg3 sec) in Hused by lia.
    + unfold s3. by rewrite sector_at_written, Z.eqb_refl.
  - split.
    + intros x Hx. rewrite Hx4. unfold in_range.
      by rewrite (proj2 (Z.leb_le _ _)), (proj2 (Z.ltb_lt _ _)) by lia.
    + intros x Hne Hir Hfar. rewrite Hx4, Hir. unfold s3.
      rewrite sector_at_written, (proj2 (Z.eqb_neq _ _)) by done.
      destruct Hst as (_ & _ & _ & _ & bs & k & Hk & Hsp). rewrite Hs1 in Hk, Hsp; cbn in Hk, Hsp.
      eapply spliced_sector; [done|done|done|]. lia.
Qed.

(** A file just created opens with the requested length and reads as zeros:
    after a successful inode_create() of LENGTH bytes at a sector not yet open,
    inode_open() of the sector returns an inode of that length whose
    inode_read_at() of all its bytes gives zeros, whatever the disk held before;
    and inode_create() fails only when no run of free sectors is long enough
    (memory being available). *)
Theorem inode_create_open_zero s j sec len :
  itab s → fm_wf s.(free_map) → disk_wf s.(fs_device) → fm_file s j → mem_ok s →
  bit_cnt s.(free_map) = s.(fs_device).(b_size) →
  0 <= len < 2147483136 → 0 <= sec < s.(fs_device).(b_size) →
  bit s.(free_map) sec = true → opens s sec = 0 →
  ∃ r s1, inode_create sec len s = Ok (r, s1) ∧
    (r = false → ∀ k, ¬ group_at s.(free_map) 0 ((len + 511) / 512) false k) ∧
    (r = true → ∃ ip s2 s3, inode_open sec s1 = Ok (ip, s2) ∧
       inode_length ip s2 = Ok (len, s2) ∧
       inode_read_at ip len 0 s2 = Ok (replicate (Z.to_nat len) 0, s3)).
Proof.
  intros Ht Hfm Hwf Hfile Hm Hbc Hlen Hsec Hused Hop.
  destruct (inode_create_ok s j sec len) as
    (r & s1 & E1 & Hm1 & Hf1 & Hwf1 & Hfm1 & Hi1 & Ho1 & Hb1 & Hsz1 & Hr); [done..|].
  exists r, s1. split; [done|]. destruct r; (split; [done|]); [intros _|done].
  destruct Hr as (st & (Hg1 & Hg2 & _) & _ & Hins & Hz & _).
  assert (Hno : ∀ jp j, inodes s1 !! jp = Some j → sector j ≠ sec).
  { rewrite Hi1. destruct (sector_cases s sec) as [(q & i & Hi & <-)|]; [|done].
    rewrite (opens_hit s q i) in Hop by eauto using it_inj.
    pose proof (it_cnt _ Ht _ _ Hi) as Hc. cbn in Hc. lia. }
  assert (Ht1 : itab s1).
  { destruct Ht as [T1 T2 T3 T4 T5 T6]. split; rewrite ?Hi1, ?Ho1; [done..| |done|done|lia].
    intros q Hq%T3. lia. }
  destruct (inode_open_miss s1 sec Ht1 Hm1 ltac:(lia) Hno) as
    (s2 & E2 & Hm2 & Hi2 & _ & Hb2 & Hsec2 & Hsz2 & Hty2 & _).
  pose proof Hwf as (_ & Hszr & _).
  rewrite Hins in Hi2. rewrite inode_bytes_roundtrip in Hi2 by (cbn; unfold INODE_MAGIC; zdm).
  assert (Hget : inodes s2 !! brk s1 = Some (mk_inode sec 1 false 0
    (mk_inode_disk st len INODE_MAGIC (replicate 500 0)))) by by rewrite Hi2, lookup_insert_eq.
  assert (Hnn : brk s1 ≠ NULL) by (destruct Hm1; lia).
  destruct (inode_read_at_ok _ (brk s1) Hnn s2 len 0 Hget) as (out & s3 & E3 & _ & k & -> & _ & Hk).
  { split; cbn; [lia|]. split; [lia|]. rewrite Hsz2. lia. }
  { unfold disk_wf. rewrite Hsec2, Hsz2, Hty2. exact Hwf1. }
  { lia. }
  { lia. }
  exists (brk s1), s2, s3. split; [done|]. split; [by rewrite (inode_length_ok _ _ _ Hget)|].
  rewrite E3, (Hk Hm2). unfold avail, base; cbn [data start length_].
  rewrite Z.add_0_r. do 2 f_equal.
  rewrite (zero_bytes _ st ((len + 511) / 512)) by
    (zdm || (intros x Hx; unfold sector_at; rewrite Hsec2; by apply Hz)).
  f_equal. lia.
Qed.

(** A file of 600 bytes at sector 4 of the demonstration device. *)
Lemma inode_create_open_zero_witness :
  ∃ s1 ip s2 s3, inode_create 4 600 demo_fm_fs = Ok (true, s1) ∧
    inode_open 4 s1 = Ok (ip, s2) ∧ inode_read_at ip 600 0 s2 = Ok (replicate 600 0, s3).
Proof.
  destruct (inode_create_open_zero demo_fm_fs demo_fm_inode 4 600)
    as (r & s1 & E & _ & H);
    [apply demo_fm_itab|apply demo_fm_wf|apply demo_fm_disk_wf|apply demo_fm_file
    |split; [set_solver|done]|done|done|done|done|done|].
  assert (r = true) as ->.
  { assert ((fst <$> inode_create 4 600 demo_fm_fs) = Ok true) as Hr by by vm_compute.
    rewrite E in Hr. by injection Hr. }
  destruct (H eq_refl) as (ip & s2 & s3 & E2 & _ & E3).
  exists s1, ip, s2, s3. split; [done|]. split; [done|]. exact E3.
Defined.
