(* ===== verification/File.v ===== *)
(** * Open files: filesys/file.c

    A file is a position on an inode it owns a reference to.  file_read_at()
    and file_write_at() are in FreeMap.v. *)

From S2P Require Import Prelude Bitmap FsState InodeIO FreeMap Inode.

Open Scope Z_scope.

(** ** Definitions *)

Definition file_open (ip : Z) : M Z :=
  fp ← malloc;
  if negb (ip =? NULL) && negb (fp =? NULL) then
    put_file fp (mk_file ip 0 false);;
    mret fp
  else
    inode_close ip;;
    mret NULL.

Definition file_reopen (fp : Z) : M Z :=
  f ← get_file fp;
  ip ← inode_reopen f.(f_inode);
  file_open ip.

Definition file_get_inode (fp : Z) : M Z :=
  f ← get_file fp; mret f.(f_inode).

Definition file_read (fp size : Z) : M (list Z) :=
  f ← get_file fp;
  bs ← inode_read_at f.(f_inode) size f.(pos);
  put_file fp (mk_file f.(f_inode) (i32 (f.(pos) + Z.of_nat (length bs))) f.(deny_write));;
  mret bs.

Definition file_write (fp : Z) (buffer : list Z) (size : Z) : M Z :=
  f ← get_file fp;
  n ← inode_write_at f.(f_inode) buffer size f.(pos);
  put_file fp (mk_file f.(f_inode) (i32 (f.(pos) + n)) f.(deny_write));;
  mret n.

Definition file_deny_write (fp : Z) : M unit :=
  fASSERT (negb (fp =? NULL));;
  f ← get_file fp;
  when (negb f.(deny_write))
    (put_file fp (mk_file f.(f_inode) f.(pos) true);; inode_deny_write f.(f_inode)).

Definition file_allow_write (fp : Z) : M unit :=
  fASSERT (negb (fp =? NULL));;
  f ← get_file fp;
  when f.(deny_write)
    (put_file fp (mk_file f.(f_inode) f.(pos) false);; inode_allow_write f.(f_inode)).

Definition file_close (fp : Z) : M unit :=
  if fp =? NULL then mret tt
  else
    file_allow_write fp;;
    f ← get_file fp;
    inode_close f.(f_inode);;
    m ← gets files;
    modify (set_files (delete fp m)).

Definition file_length (fp : Z) : M Z :=
  fASSERT (negb (fp =? NULL));;
  f ← get_file fp; inode_length f.(f_inode).

Definition file_seek (fp new_pos : Z) : M unit :=
  fASSERT (negb (fp =? NULL));;
  fASSERT (0 <=? new_pos);;
  f ← get_file fp;
  put_file fp (mk_file f.(f_inode) new_pos f.(deny_write)).

Definition file_tell (fp : Z) : M Z :=
  fASSERT (negb (fp =? NULL));;
  f ← get_file fp; mret f.(pos).

(** ** Theory *)

Lemma get_file_ok fp f s : s.(files) !! fp = Some f → get_file fp s = Ok (f, s).
Proof. intros H. unfold get_file. by rewrite run_gets, H. Qed.

Lemma put_file_ok fp f s : put_file fp f s = Ok (tt, set_files (<[fp := f]> s.(files)) s).
Proof. done. Qed.

Lemma not_null p : p ≠ NULL → ASSERT (negb (p =? NULL)) = Ok tt.
Proof. intros. apply ASSERT_true. by rewrite (proj2 (Z.eqb_neq _ _)). Qed.

Section file.
Context (fp ip : Z) (i : inode) (Hfp : fp ≠ NULL) (Hip : ip ≠ NULL).

(** File [fp] is open at position [p] on the inode [i] at [ip]. *)
Record at_pos (s : fs) (p : Z) : Prop := {
  ap_file : ∃ dw, s.(files) !! fp = Some (mk_file ip p dw);
  ap_inode : s.(inodes) !! ip = Some i;
  ap_fits : inode_fits s.(fs_device) i;
  ap_disk : disk_wf s.(fs_device);
  ap_mem : mem_ok s }.

Lemma writes_files s s' : writes s s' → s'.(files) = s.(files).
Proof. by intros (? & ? & ? & -> & _). Qed.

Lemma file_seek_ok s p p' :
  at_pos s p → 0 <= p' → ∃ s', file_seek fp p' s = Ok (tt, s') ∧ at_pos s' p' ∧
    s'.(fs_device) = s.(fs_device).
Proof.
  intros [(dw & Hf) H2 H3 H4 H5] Hp. unfold file_seek, fASSERT.
  rewrite (run_lift _ _ _ _ (not_null _ Hfp)).
  rewrite (run_lift _ _ _ tt) by (apply ASSERT_true, Z.leb_le; lia).
  rewrite (run_bind _ _ _ _ _ (get_file_ok _ _ _ Hf)), put_file_ok.
  eexists. split; [done|]. split; [|done]. split; [|done..].
  exists dw. apply lookup_insert_eq.
Qed.

Lemma file_write_ok s p buf :
  at_pos s p → i.(deny_write_cnt) = 0 → 0 <= p < 2147483648 →
  Z.of_nat (length buf) < 2147483648 →
  let n := avail i (Z.of_nat (length buf)) p in
  ∃ s', file_write fp buf (Z.of_nat (length buf)) s = Ok (n, s') ∧ at_pos s' (p + n) ∧
    spliced s.(fs_device) (base i + p) buf n s'.(fs_device).
Proof.
  intros [(dw & Hf) Hi Hfit Hwf Hm] Hdw Hp Hl n. pose proof Hfit as (_ & Hlen & _).
  destruct (inode_write_at_ok i ip Hip s buf (Z.of_nat (length buf)) p)
    as (k & s1 & E & Hw & Hk & Hkm & Hsp); [done || lia..|].
  specialize (Hkm Hm). fold n in Hkm. subst k.
  unfold file_write. rewrite (run_bind _ _ _ _ _ (get_file_ok _ _ _ Hf)). cbn [f_inode pos].
  rewrite (run_bind _ _ _ _ _ E). erewrite run_bind by apply put_file_ok.
  eexists. split; [done|]. split; [|done]. cbn [deny_write].
  rewrite i32_small by (unfold n, avail in *; lia).
  split; cbn.
  - exists dw. apply lookup_insert_eq.
  - by rewrite (writes_inodes _ _ Hw).
  - by eapply (writes_fits _ _ _ Hw).
  - by eapply (writes_wf _ _ Hw).
  - by apply (writes_mem _ _ Hw).
Qed.

Lemma file_read_ok s p size :
  at_pos s p → 0 <= p < 2147483648 → 0 <= size < 2147483648 →
  let n := avail i size p in
  ∃ s', file_read fp size s = Ok (disk_bytes s.(fs_device) (base i + p) n, s') ∧
    at_pos s' (p + n) ∧
    ∀ a k, disk_bytes s'.(fs_device) a k = disk_bytes s.(fs_device) a k.
Proof.
  intros [(dw & Hf) Hi Hfit Hwf Hm] Hp Hl n. pose proof Hfit as (_ & Hlen & _).
  destruct (inode_read_at_ok i ip Hip s size p) as (out & s1 & E & Hq & k & -> & Hk & Hkm);
    [done..|]. specialize (Hkm Hm). fold n in Hkm. subst k.
  unfold file_read. rewrite (run_bind _ _ _ _ _ (get_file_ok _ _ _ Hf)). cbn [f_inode pos].
  rewrite (run_bind _ _ _ _ _ E). erewrite run_bind by apply put_file_ok.
  eexists. split; [done|]. rewrite length_disk_bytes, Z2Nat.id by lia.
  rewrite i32_small by (unfold n, avail in *; lia).
  split; [|intros a k; cbn; by apply quiet_disk]. split; cbn.
  - exists dw. apply lookup_insert_eq.
  - by rewrite (quiet_inodes _ _ Hq).
  - by eapply (quiet_fits _ _ _ Hq).
  - by eapply (quiet_wf _ _ Hq).
  - by apply (quiet_mem _ _ Hq).
Qed.
End file.

(** ** Properties *)

(** The position of an open file: after file_seek() to any non-negative
    offset, file_write() stores the part of the buffer that fits before the end
    of the file and moves the position by as much, as file_tell() reports;
    seeking back, file_read() returns the bytes written and moves the position
    again.  A negative offset stops the kernel. *)
Theorem file_seek_write_read fp ip i s p0 p buf :
  fp ≠ NULL → ip ≠ NULL → at_pos fp ip i s p0 → i.(deny_write_cnt) = 0 →
  0 <= p < 2147483648 → Z.of_nat (length buf) < 2147483648 →
  let n := avail i (Z.of_nat (length buf)) p in
  (∃ s', (file_seek fp p;;
          k ← file_write fp buf (Z.of_nat (length buf));
          t ← file_tell fp;
          file_seek fp p;;
          bs ← file_read fp k;
          t' ← file_tell fp;
          mret (k, t, bs, t')) s
     = Ok ((n, p + n, take (Z.to_nat n) buf, p + n), s')) ∧
  ∀ q, q < 0 → file_seek fp q s = Panic.
Proof.
  intros Hfp Hip Hap Hdw Hp Hl n.
  assert (Hn : 0 <= n <= Z.of_nat (length buf)) by (unfold n, avail; lia).
  assert (Htell : ∀ s p, at_pos fp ip i s p → file_tell fp s = Ok (p, s)).
  { intros s1 p1 [(dw & Hf) _ _ _ _]. unfold file_tell, fASSERT.
    rewrite (run_lift _ _ _ _ (not_null _ Hfp)).
    by rewrite (run_bind _ _ _ _ _ (get_file_ok _ _ _ Hf)). }
  split; cycle 1.
  { intros q Hq. unfold file_seek, fASSERT. rewrite (run_lift _ _ _ _ (not_null _ Hfp)).
    rewrite (proj2 (Z.leb_gt _ _)) by lia. done. }
  destruct (file_seek_ok fp ip i Hfp s p0 p Hap ltac:(lia)) as (s1 & E1 & H1 & _).
  destruct (file_write_ok fp ip i Hip s1 p buf H1 Hdw Hp Hl) as (s2 & E2 & H2 & Hsp).
  destruct (file_seek_ok fp ip i Hfp s2 _ p H2 ltac:(lia)) as (s3 & E3 & H3 & Hd).
  destruct (file_read_ok fp ip i Hip s3 p n H3 Hp ltac:(lia)) as (s4 & E4 & H4 & _).
  fold n in E2, H2, Hsp.
  assert (Hn' : avail i n p = n) by (unfold n, avail in *; lia). rewrite Hn' in E4, H4.
  rewrite Hd, (spliced_bytes _ _ _ _ _ Hsp) in E4 by lia.
  exists s4. rewrite (run_bind _ _ _ _ _ E1), (run_bind _ _ _ _ _ E2),
    (run_bind _ _ _ _ _ (Htell _ _ H2)), (run_bind _ _ _ _ _ E3), (run_bind _ _ _ _ _ E4),
    (run_bind _ _ _ _ _ (Htell _ _ H4)). done.
Qed.

(** A file open on the inode of 1300 bytes of InodeIO.v, at position 5. *)
Definition demo_open_fs : fs := set_files {[ 7 := mk_file 1 5 false ]} demo_fs.

Lemma demo_at_pos : at_pos 7 1 demo_inode demo_open_fs 5.
Proof. split; [by exists false|done|done|apply demo_disk_wf|split; [set_solver|done]]. Qed.

(** Writing four bytes at 1298 stores two. *)
Lemma file_seek_write_read_witness :
  avail demo_inode 4 1298 = 2 ∧ file_seek 7 (-1) demo_open_fs = Panic ∧
  ∃ s', (file_seek 7 1298;; k ← file_write 7 [1; 2; 3; 4] 4; t ← file_tell 7;
         file_seek 7 1298;; bs ← file_read 7 k; t' ← file_tell 7;
         mret (k, t, bs, t')) demo_open_fs = Ok ((2, 1300, [1; 2], 1300), s').
Proof.
  destruct (file_seek_write_read 7 1 demo_inode demo_open_fs 5 1298 [1; 2; 3; 4])
    as ((s' & E) & Hneg); [done|done|apply demo_at_pos|done|done|done|].
  split; [done|]. split; [by apply Hneg|]. exists s'. exact E.
Defined.
