(* ===== verification/Directory.v ===== *)
(** * Directories: filesys/directory.c

    A directory is a file of 20-byte entries.  A directory entry on the stack
    is its 20 bytes, since dir_add() writes back the bytes that an earlier read
    left after the name.  Names are C strings without their terminator. *)

From S2P Require Import Prelude Bitmap FsState InodeIO FreeMap Inode.

Open Scope Z_scope.

(** ** Definitions *)

Definition NAME_MAX : Z := 14.

(** [sizeof (struct dir_entry)]: 4 bytes of sector, 15 of name, 1 of in_use. *)
Definition ENTRY_SIZE : Z := 20.

Definition e_inode_sector (e : list Z) : Z := un32 (take 4 e).
Definition e_in_use (e : list Z) : bool := negb ((e !!! 19%nat) =? 0).

(** [!strcmp (name, buf)] for a name without NUL bytes; comparing past the end
    of the memory of [buf] is [Wild]. *)
Fixpoint str_eq (name buf : list Z) : outcome bool :=
  match name, buf with
  | _, [] => Wild
  | [], b :: _ => Ok (b =? 0)
  | c :: name, b :: buf => if c =? b then str_eq name buf else Ok false
  end.

(** [strlcpy (e.name, name, sizeof e.name)] for a name that fits. *)
Definition set_name (e name : list Z) : list Z :=
  take 4 e ++ name ++ [0] ++ drop (5 + length name) e.
Definition set_in_use (e : list Z) (v : bool) : list Z :=
  take 19 e ++ [if v then 1 else 0].
Definition set_sector (e : list Z) (sec : Z) : list Z := le32 sec ++ drop 4 e.

Definition dir_create (sec entry_cnt : Z) : M bool :=
  inode_create sec (i32 (u32 (entry_cnt * ENTRY_SIZE))).

Definition dir_open (ip : Z) : M Z :=
  dp ← malloc;
  if negb (ip =? NULL) && negb (dp =? NULL) then
    put_dir dp (mk_dir ip 0);;
    mret dp
  else
    inode_close ip;;
    mret NULL.

Definition dir_open_root : M Z :=
  ip ← inode_open ROOT_DIR_SECTOR; dir_open ip.

Definition dir_reopen (dp : Z) : M Z :=
  d ← get_dir dp;
  ip ← inode_reopen d.(d_inode);
  dir_open ip.

Definition dir_close (dp : Z) : M unit :=
  if dp =? NULL then mret tt
  else
    d ← get_dir dp;
    inode_close d.(d_inode);;
    m ← gets dirs;
    modify (set_dirs (delete dp m)).

Definition dir_get_inode (dp : Z) : M Z :=
  d ← get_dir dp; mret d.(d_inode).

(** Reading entries one after the other ends at the latest at the end of the
    directory's file. *)
Definition entry_fuel (ip : Z) : M nat :=
  n ← inode_length ip; mret (S (S (Z.to_nat n))).

(** [inode_read_at (ip, &e, sizeof e, ofs)]: the new contents of [e] and whether
    all of it was read. *)
Definition read_entry (ip : Z) (e : list Z) (ofs : Z) : M (list Z * bool) :=
  bs ← inode_read_at ip ENTRY_SIZE (i32 ofs);
  mret (bs ++ drop (length bs) e, Z.of_nat (length bs) =? ENTRY_SIZE).

(** The entry for [name] and its offset. *)
Definition lookup_ (dp : Z) (name : list Z) : M (option (list Z * Z)) :=
  fASSERT (negb (dp =? NULL));;
  d ← get_dir dp;
  e ← gets junk;
  fuel ← entry_fuel d.(d_inode);
  loop_st fuel (λ '(e, ofs),
    '(e, ok) ← read_entry d.(d_inode) e ofs;
    if negb ok then mret (inr None)
    else
      hit ← (if e_in_use e then lift (str_eq name (drop 4 e)) else mret false);
      if (hit : bool) then mret (inr (Some (e, ofs)))
      else mret (inl (e, u32 (ofs + ENTRY_SIZE)))) (e, 0).

(** The inode pointer stored in *INODE; the function returns whether it is not
    null. *)
Definition dir_lookup (dp : Z) (name : list Z) : M Z :=
  r ← lookup_ dp name;
  match r with
  | Some (e, _) => inode_open (e_inode_sector e)
  | None => mret NULL
  end.

Definition dir_add (dp : Z) (name : list Z) (inode_sector : Z) : M bool :=
  fASSERT (negb (dp =? NULL));;
  if (Z.of_nat (length name) =? 0) || (NAME_MAX <? Z.of_nat (length name)) then mret false
  else
    r ← lookup_ dp name;
    match r with
    | Some _ => mret false
    | None =>
        d ← get_dir dp;
        e ← gets junk;
        fuel ← entry_fuel d.(d_inode);
        '(e, ofs) ← loop_st fuel (λ '(e, ofs),
          '(e, ok) ← read_entry d.(d_inode) e ofs;
          if negb ok then mret (inr (e, ofs))
          else if negb (e_in_use e) then mret (inr (e, ofs))
          else mret (inl (e, i32 (ofs + ENTRY_SIZE)))) (e, 0);
        let e := set_in_use e true in
        let e := set_name e name in
        let e := set_sector e inode_sector in
        n ← inode_write_at d.(d_inode) e ENTRY_SIZE ofs;
        mret (n =? ENTRY_SIZE)
    end.

Definition dir_remove (dp : Z) (name : list Z) : M bool :=
  r ← lookup_ dp name;
  match r with
  | None => inode_close NULL;; mret false
  | Some (e, ofs) =>
      ip ← inode_open (e_inode_sector e);
      success ←
        (if ip =? NULL then mret false
         else
           d ← get_dir dp;
           n ← inode_write_at d.(d_inode) (set_in_use e false) ENTRY_SIZE (i32 ofs);
           if negb (n =? ENTRY_SIZE) then mret false
           else inode_remove ip;; mret true);
      inode_close ip;;
      mret success
  end.

(** The name of the next entry in use, or [None] at the end of the directory. *)
Definition dir_readdir (dp : Z) : M (option (list Z)) :=
  d ← get_dir dp;
  e ← gets junk;
  fuel ← entry_fuel d.(d_inode);
  loop_st fuel (λ e,
    d ← get_dir dp;
    '(e, ok) ← read_entry d.(d_inode) e d.(d_pos);
    if negb ok then mret (inr None)
    else
      put_dir dp (mk_dir d.(d_inode) (i32 (d.(d_pos) + ENTRY_SIZE)));;
      if e_in_use e
      then name ← lift (c_str (drop 4 e)); mret (inr (Some (take 14 name)))
      else mret (inl e)) e.

(** ** Names *)

Lemma str_eq_spec name buf nm :
  c_str buf = Ok nm → 0 ∉ name → str_eq name buf = Ok (bool_decide (name = nm)).
Proof.
  revert name nm. induction buf as [|b buf IH]; intros name nm Hc H0; [done|].
  cbn [c_str] in Hc. destruct (Z.eqb_spec b 0) as [->|Hb].
  - injection Hc as <-. destruct name as [|c name]; [done|]. cbn.
    rewrite (proj2 (Z.eqb_neq _ _)) by set_solver. done.
  - apply bind_Ok in Hc as (cs & Hcs & [= <-]).
    destruct name as [|c name]; cbn [str_eq].
    + by rewrite (proj2 (Z.eqb_neq _ _)).
    + destruct (Z.eqb_spec c b) as [->|Hne].
      * rewrite (IH name cs) by (done || set_solver). f_equal.
        apply bool_decide_ext. split; congruence.
      * by rewrite bool_decide_false by congruence.
Qed.

Lemma c_str_name name rest : 0 ∉ name → c_str (name ++ 0 :: rest) = Ok name.
Proof.
  induction name as [|c name IH]; intros H; [done|]. cbn.
  rewrite (proj2 (Z.eqb_neq _ _)) by set_solver. rewrite IH by set_solver. done.
Qed.

(** ** The entries of a directory *)

Definition dir_len (i : inode) : Z := i.(data).(length_) / 20.

(** The whole entries in the data of inode [i]. *)
Definition ents (d : block) (i : inode) : list (list Z) :=
  (λ k, disk_bytes d (base i + 20 * k) 20) <$> seqZ 0 (dir_len i).

(** An entry in use holds a terminated name. *)
Definition ent_name (e : list Z) : option (list Z) :=
  if e_in_use e then match c_str (drop 4 e) with Ok nm => Some nm | _ => None end
  else None.

Definition ent_ok (e : list Z) : Prop := e_in_use e = true → is_Some (ent_name e).

(** The first entry with a name, from entry [k] on. *)
Fixpoint dir_find (name : list Z) (l : list (list Z)) (k : Z) : option (list Z * Z) :=
  match l with
  | [] => None
  | e :: l =>
      if bool_decide (ent_name e = Some name) then Some (e, 20 * k)
      else dir_find name l (k + 1)
  end.

(** The first entry that is not in use, or the end. *)
Fixpoint free_slot (l : list (list Z)) : nat :=
  match l with
  | [] => O
  | e :: l => if e_in_use e then S (free_slot l) else O
  end.

Lemma length_ents d i : length (ents d i) = Z.to_nat (dir_len i).
Proof. unfold ents. by rewrite length_fmap, length_seqZ. Qed.

Lemma ents_lookup d i (k : nat) :
  Z.of_nat k < dir_len i → ents d i !! k = Some (disk_bytes d (base i + 20 * Z.of_nat k) 20).
Proof. intros. unfold ents. by rewrite list_lookup_fmap, lookup_seqZ_lt by lia. Qed.

Lemma quiet_ents s s' i : quiet s s' → ents s'.(fs_device) i = ents s.(fs_device) i.
Proof. by intros (? & ? & ? & -> & _). Qed.

Lemma quiet_dirs s s' : quiet s s' → s'.(dirs) = s.(dirs) ∧ s'.(junk) = s.(junk).
Proof. by intros (? & ? & ? & -> & _). Qed.

(** An open directory [dp] on inode [i], on a device with memory available. *)
Record open_dir (s : fs) (dp ip : Z) (i : inode) : Prop := {
  od_dp : dp ≠ NULL;
  od_dir : ∃ p, s.(dirs) !! dp = Some (mk_dir ip p);
  od_ip : ip ≠ NULL;
  od_inode : s.(inodes) !! ip = Some i;
  od_deny : i.(deny_write_cnt) = 0;
  od_fits : inode_fits s.(fs_device) i;
  od_disk : disk_wf s.(fs_device);
  od_len : i.(data).(length_) < 2147483628;
  od_mem : mem_ok s;
  od_junk : length s.(junk) = 20%nat }.

Lemma quiet_open_dir s s' dp ip i : quiet s s' → open_dir s dp ip i → open_dir s' dp ip i.
Proof.
  intros Hq [H1 H2 H3 H4 H5 H6 H7 H8 H9 H10]. destruct (quiet_dirs _ _ Hq) as [Hd Hj].
  split; rewrite ?Hd, ?Hj, ?(quiet_inodes _ _ Hq);
    eauto using quiet_fits, quiet_wf, quiet_mem.
Qed.

Section dir.
Context (dp ip : Z) (i : inode).

(** Reading entry [k]. *)
Lemma read_entry_ok s e k :
  open_dir s dp ip i → length e = 20%nat → 0 <= k <= dir_len i →
  ∃ e' s', read_entry ip e (20 * k) s = Ok ((e', bool_decide (k < dir_len i)), s') ∧
    quiet s s' ∧ length e' = 20%nat ∧
    (k < dir_len i → ents s.(fs_device) i !! Z.to_nat k = Some e').
Proof.
  intros [_ _ Hip Hi _ Hfit Hwf Hl Hm _] He Hk. pose proof Hfit as (_ & Hl0 & _).
  assert (20 * dir_len i <= length_ (data i)) by (unfold dir_len; zdm).
  destruct (inode_read_at_ok i ip Hip s 20 (20 * k)) as (out & s' & E & Hq & n & -> & _ & Hn);
    [done..|lia|lia|]. specialize (Hn Hm).
  unfold read_entry, ENTRY_SIZE. rewrite i32_small by lia.
  rewrite (run_bind _ _ _ _ _ E). eexists _, s'. split.
  { unfold mret, st_ret. repeat f_equal. rewrite length_disk_bytes. unfold avail in Hn.
    destruct (decide (k < dir_len i)) as [Hlt|Hge].
    - rewrite bool_decide_true by done. apply Z.eqb_eq. lia.
    - rewrite bool_decide_false by done. apply Z.eqb_neq. unfold dir_len in *. zdm. }
  split; [done|]. unfold avail in Hn. split.
  { rewrite length_app, length_drop, length_disk_bytes. lia. }
  intros Hlt. rewrite ents_lookup by lia. rewrite Z2Nat.id by lia.
  assert (n = 20) as -> by lia. rewrite drop_ge, app_nil_r by (rewrite length_disk_bytes; lia).
  done.
Qed.

Lemma dir_find_skip name l k (n : nat) :
  (∀ m e, (m < n)%nat → l !! m = Some e → ent_name e ≠ Some name) →
  dir_find name l k = dir_find name (drop n l) (k + Z.of_nat n).
Proof.
  revert k n. induction l as [|e l IH]; intros k n Hno; [by rewrite drop_nil|].
  destruct n as [|n]; [by rewrite Z.add_0_r|]. cbn [dir_find drop].
  rewrite bool_decide_false by (apply (Hno 0%nat e); [lia|done]).
  rewrite (IH (k + 1) n); [f_equal; lia|]. intros m e' Hm He'.
  apply (Hno (S m) e'); [lia|done].
Qed.

Lemma lookup_ok s name :
  open_dir s dp ip i → 0 ∉ name → Forall ent_ok (ents s.(fs_device) i) →
  ∃ s', lookup_ dp name s = Ok (dir_find name (ents s.(fs_device) i) 0, s') ∧ quiet s s'.
Proof.
  intros Ho H0 Hok. pose proof Ho as [Hdp (p & Hd) Hip Hi _ Hfit Hwf Hl Hm Hj].
  pose proof Hfit as (_ & Hl0 & _).
  assert (Hdl : 0 <= dir_len i ∧ 20 * dir_len i <= length_ (data i)) by (unfold dir_len; zdm).
  set (l := ents (fs_device s) i) in *.
  unfold lookup_, fASSERT. rewrite (run_lift _ _ _ tt) by
    (apply ASSERT_true; by rewrite (proj2 (Z.eqb_neq _ _))).
  rewrite (run_bind _ _ s (mk_dir ip p) s) by (unfold get_dir; by rewrite run_gets, Hd).
  rewrite run_gets. cbn [d_inode].
  rewrite (run_bind _ _ s (S (S (Z.to_nat (length_ (data i))))) s) by
    (unfold entry_fuel; by rewrite (run_bind _ _ _ _ _ (inode_length_ok _ _ _ Hi))).
  destruct (loop_st_total
    (λ n '(e, ofs) s1, ∃ k, quiet s s1 ∧ length e = 20%nat ∧ ofs = 20 * k ∧
       0 <= k <= dir_len i ∧ n = S (Z.to_nat (length_ (data i) - ofs)) ∧
       ∀ (m : nat) e', (m < Z.to_nat k)%nat → l !! m = Some e' → ent_name e' ≠ Some name)
    (λ r s1, r = dir_find name l 0 ∧ quiet s s1)
    (λ '(e, ofs), '(e, ok) ← read_entry ip e ofs;
      if negb ok then mret (inr None)
      else hit ← (if e_in_use e then lift (str_eq name (drop 4 e)) else mret false);
           if (hit : bool) then mret (inr (Some (e, ofs)))
           else mret (inl (e, u32 (ofs + ENTRY_SIZE)))))
    with (n := S (Z.to_nat (length_ (data i)))) (fuel := S (S (Z.to_nat (length_ (data i)))))
      (l := (junk s, 0)) (s := s) as (r & s' & E & -> & Hq); [|exists 0; repeat split; try done; lia|lia|eauto].
  intros n [e ofs] s1 (k & Hq & He & -> & Hk & -> & Hno).
  destruct (read_entry_ok s1 e k) as (e' & s2 & E & Hq2 & He' & Hent);
    [by eapply quiet_open_dir|done|done|].
  rewrite (run_bind _ _ _ _ _ E). rewrite (quiet_ents _ _ _ Hq) in Hent. fold l in Hent.
  case_bool_decide as Hlt; cbn [negb]; cycle 1.
  { eexists _, _. split; [done|]. split; [|by etrans].
    rewrite (dir_find_skip _ _ _ (Z.to_nat k)) by done.
    rewrite drop_ge; [done|]. unfold l. rewrite length_ents. lia. }
  specialize (Hent Hlt).
  assert (Hhit : (if e_in_use e' then lift (str_eq name (drop 4 e')) else mret false) s2 =
                 Ok (bool_decide (ent_name e' = Some name), s2)).
  { pose proof (Forall_lookup_1 _ _ _ _ Hok Hent) as Heok. unfold ent_ok, ent_name in *.
    destruct (e_in_use e'); [|done]. destruct (Heok eq_refl) as [nm Hnm].
    destruct (c_str (drop 4 e')) as [nm'| | |] eqn:Ec; try done.
    unfold lift. rewrite (str_eq_spec _ _ _ Ec H0). cbn. do 2 f_equal.
    apply bool_decide_ext. split; congruence. }
  rewrite (run_bind _ _ _ _ _ Hhit). case_bool_decide as Hn.
  - eexists _, _. split; [done|]. split; [|by etrans].
    rewrite (dir_find_skip _ _ _ (Z.to_nat k)) by done.
    rewrite (drop_S _ _ _ Hent). cbn [dir_find]. rewrite bool_decide_true by done.
    do 2 f_equal. lia.
  - eexists _, _. split; [done|]. cbn beta iota. exists (S (Z.to_nat (length_ (data i) - 20 * (k + 1)))).
    unfold ENTRY_SIZE. rewrite u32_small by lia. split; [lia|]. exists (k + 1).
    split; [by etrans|]. split; [done|]. split; [lia|]. split; [lia|]. split; [do 2 f_equal; lia|].
    intros m e1 Hm1 He1. destruct (decide (m = Z.to_nat k)) as [->|]; [congruence|].
    apply (Hno m); [lia|done].
Qed.
End dir.

(** ** A directory as a finite map from names to sectors *)

Definition ent_pair (e : list Z) : option (list Z * Z) :=
  (λ nm, (nm, e_inode_sector e)) <$> ent_name e.

Definition dir_map (l : list (list Z)) : gmap (list Z) Z := list_to_map (omap ent_pair l).

(** Names are terminated and no name is used twice. *)
Definition dir_ok (l : list (list Z)) : Prop :=
  Forall ent_ok l ∧ NoDup (omap ent_name l).

Lemma omap_ent_pair l : (omap ent_pair l).*1 = omap ent_name l.
Proof.
  induction l as [|e l IH]; [done|]. cbn. unfold ent_pair at 1.
  destruct (ent_name e); cbn; by rewrite IH.
Qed.

Lemma dir_find_spec name l k :
  match dir_find name l k with
  | Some (e, ofs) => ∃ m : nat, ofs = 20 * (k + Z.of_nat m) ∧ l !! m = Some e ∧
                                ent_name e = Some name
  | None => name ∉ omap ent_name l
  end.
Proof.
  revert k. induction l as [|e l IH]; intros k; cbn [dir_find]; [apply not_elem_of_nil|].
  case_bool_decide as He.
  - exists 0%nat. split; [lia|done].
  - specialize (IH (k + 1)). destruct (dir_find name l (k + 1)) as [[e' ofs]|].
    + destruct IH as (m & -> & Hm & Hn). exists (S m). split; [lia|done].
    + intros Hin. apply IH. apply list_elem_of_omap in Hin as (x & Hx & Hn).
      apply list_elem_of_omap. apply elem_of_cons in Hx as [->|Hx]; [congruence|eauto].
Qed.

Lemma dir_map_None l (name : list Z) : name ∉ omap ent_name l → dir_map l !! name = None.
Proof. intros H. apply not_elem_of_list_to_map_1. by rewrite omap_ent_pair. Qed.

Lemma dir_map_Some l name (m : nat) e :
  dir_ok l → l !! m = Some e → ent_name e = Some name →
  dir_map l !! name = Some (e_inode_sector e).
Proof.
  intros [_ Hnd] Hm Hn. apply elem_of_list_to_map_1; [by rewrite omap_ent_pair|].
  apply list_elem_of_omap. exists e. split; [by eapply list_elem_of_lookup_2|].
  unfold ent_pair. by rewrite Hn.
Qed.

(** The names at both sides of an entry. *)
Lemma ents_split (l : list (list Z)) (m : nat) e :
  l !! m = Some e → l = take m l ++ e :: drop (S m) l ∧
    ∀ e', <[m := e']> l = take m l ++ e' :: drop (S m) l.
Proof.
  intros Hm. split; [symmetry; by apply take_drop_middle|].
  intros e'. apply insert_take_drop. by eapply lookup_lt_Some.
Qed.

Lemma dir_map_set_app A B e e' name sec :
  dir_ok (A ++ e :: B) → ent_name e = None → name ∉ omap ent_name (A ++ e :: B) →
  ent_name e' = Some name → e_inode_sector e' = sec →
  dir_ok (A ++ e' :: B) ∧ dir_map (A ++ e' :: B) = <[name := sec]> (dir_map (A ++ e :: B)).
Proof.
  intros [Hok Hnd] He Hfresh He' Hsec. unfold dir_ok, dir_map.
  rewrite !omap_app in *. cbn in *.
  replace (ent_pair e) with (@None (list Z * Z)) by (unfold ent_pair; by rewrite He).
  replace (ent_pair e') with (Some (name, sec)) by (unfold ent_pair; by rewrite He', Hsec).
  rewrite He, He' in *. repeat split.
  - apply Forall_app in Hok as [HA HB%Forall_cons_1]. apply Forall_app. split; [done|].
    constructor; [|apply HB]. intros _. by rewrite He'.
  - apply NoDup_app in Hnd as (HA & HAB & HB). apply NoDup_app. split; [done|].
    split; [|constructor; [set_solver|done]]. intros x Hx. apply not_elem_of_cons. set_solver.
  - rewrite !list_to_map_app. cbn. rewrite insert_union_r; [done|].
    apply not_elem_of_list_to_map_1. rewrite omap_ent_pair. set_solver.
Qed.

Lemma dir_map_unset_app A B e e' name :
  dir_ok (A ++ e :: B) → ent_name e = Some name → e_in_use e' = false →
  dir_ok (A ++ e' :: B) ∧ dir_map (A ++ e' :: B) = delete name (dir_map (A ++ e :: B)).
Proof.
  intros [Hok Hnd] He He'. unfold dir_ok, dir_map.
  assert (Hn' : ent_name e' = None) by (unfold ent_name; by rewrite He').
  rewrite !omap_app in *. cbn in *.
  replace (ent_pair e) with (Some (name, e_inode_sector e)) by (unfold ent_pair; by rewrite He).
  replace (ent_pair e') with (@None (list Z * Z)) by (unfold ent_pair; by rewrite Hn').
  rewrite He, Hn' in *.
  apply NoDup_app in Hnd as (HA & HAB & [Hx HB]%NoDup_cons). repeat split.
  - apply Forall_app in Hok as [HA' HB'%Forall_cons_1]. apply Forall_app. split; [done|].
    constructor; [|apply HB']. intros E. congruence.
  - apply NoDup_app. set_solver.
  - rewrite !list_to_map_app. cbn. rewrite delete_union, delete_insert_eq.
    rewrite !delete_id; [done|..]; apply not_elem_of_list_to_map_1;
      rewrite omap_ent_pair; set_solver.
Qed.

Lemma dir_map_set l (m : nat) e e' name sec :
  dir_ok l → l !! m = Some e → ent_name e = None → name ∉ omap ent_name l →
  ent_name e' = Some name → e_inode_sector e' = sec →
  dir_ok (<[m := e']> l) ∧ dir_map (<[m := e']> l) = <[name := sec]> (dir_map l).
Proof.
  intros Hok Hm. destruct (ents_split l m e Hm) as [Hl Hins]. rewrite Hins.
  pose proof (dir_map_set_app (take m l) (drop (S m) l) e e' name sec) as H.
  rewrite <-Hl in H. auto.
Qed.

Lemma dir_map_unset l (m : nat) e e' name :
  dir_ok l → l !! m = Some e → ent_name e = Some name → e_in_use e' = false →
  dir_ok (<[m := e']> l) ∧ dir_map (<[m := e']> l) = delete name (dir_map l).
Proof.
  intros Hok Hm. destruct (ents_split l m e Hm) as [Hl Hins]. rewrite Hins.
  pose proof (dir_map_unset_app (take m l) (drop (S m) l) e e' name) as H.
  rewrite <-Hl in H. auto.
Qed.

(** The entry that dir_add() writes. *)
Lemma new_entry_ok e name sec :
  length e = 20%nat → 0 ∉ name → (0 < length name ≤ 14)%nat → is_u32 sec →
  let e' := set_sector (set_name (set_in_use e true) name) sec in
  length e' = 20%nat ∧ ent_name e' = Some name ∧ e_inode_sector e' = sec.
Proof.
  intros He H0 Hl Hs. cbn zeta.
  set (e1 := set_in_use e true).
  assert (H1 : length e1 = 20%nat) by (unfold e1, set_in_use; by rewrite length_app, length_take, He).
  assert (H19 : e1 !! 19%nat = Some 1).
  { unfold e1, set_in_use. rewrite lookup_app_r by (rewrite length_take; lia).
    rewrite length_take, He. done. }
  set (e2 := set_name e1 name).
  assert (Hd : drop 4 e2 = name ++ 0 :: drop (5 + length name) e1).
  { unfold e2, set_name. rewrite drop_app_ge by (rewrite length_take; lia).
    rewrite length_take, H1. done. }
  assert (H2 : length e2 = 20%nat).
  { unfold e2, set_name. rewrite !length_app, length_take, length_drop, H1. cbn [length]. lia. }
  assert (Hd3 : drop 4 (set_sector e2 sec) = drop 4 e2) by done.
  split; [unfold set_sector; rewrite length_app, length_drop; cbn [length le32]; lia|].
  split; [|unfold e_inode_sector; change (take 4 (set_sector e2 sec)) with (le32 sec);
           by rewrite un32_le32, u32_small].
  unfold ent_name, e_in_use. rewrite list_lookup_total_alt.
  replace (set_sector e2 sec !! 19%nat) with (drop 4 e2 !! 15%nat)
    by (rewrite <-Hd3, lookup_drop; done).
  rewrite Hd, lookup_app_r by lia. change (0 :: ?x) with ([0] ++ x).
  rewrite lookup_app_r by (simpl; lia). rewrite lookup_drop.
  assert (Hix : (5 + length name + (15 - length name - length [0%Z]) = 19)%nat) by (simpl; lia).
  rewrite Hix.
  rewrite H19. cbn [from_option Z.eqb negb default]. rewrite Hd3, Hd.
  change ([0] ++ ?x) with (0 :: x). by rewrite c_str_name.
Qed.

Lemma ents_written d i e' (m : nat) d' :
  spliced d (base i + 20 * Z.of_nat m) e' 20 d' → length e' = 20%nat →
  Z.of_nat m < dir_len i → ents d' i = <[m := e']> (ents d i).
Proof.
  intros Hsp He Hm. apply list_eq_same_length with (n := Z.to_nat (dir_len i));
    [by rewrite length_insert, length_ents|by rewrite length_ents|].
  intros k x y Hk. rewrite ents_lookup by lia. intros [= <-].
  destruct (decide (m = k)) as [->|Hne].
  - rewrite list_lookup_insert_eq by (rewrite length_ents; lia). intros [= <-].
    rewrite (spliced_bytes _ _ _ _ _ Hsp) by lia. apply take_ge. lia.
  - rewrite list_lookup_insert_ne, ents_lookup by (done || lia). intros [= <-].
    eapply spliced_bytes_ne; [done|]. lia.
Qed.

Lemma ents_past d i bs a k d' :
  spliced d a bs k d' → base i + 20 * dir_len i <= a → ents d' i = ents d i.
Proof.
  intros Hsp Ha. unfold ents. apply list_fmap_ext. intros m x Hx.
  apply lookup_seqZ in Hx as [-> Hx]. eapply spliced_bytes_ne; [done|]. lia.
Qed.

Lemma free_slot_spec l :
  (free_slot l ≤ length l)%nat ∧
  (∀ e, l !! free_slot l = Some e → e_in_use e = false) ∧
  (∀ m e, (m < free_slot l)%nat → l !! m = Some e → e_in_use e = true).
Proof.
  induction l as [|x l (IH1 & IH2 & IH3)]; cbn [free_slot]; [split; [done|]; split; [done|]; lia|].
  destruct (e_in_use x) eqn:Hx.
  - split; [simpl; lia|]. split; [done|]. intros [|m] e Hm He; [by injection He as <-|].
    eapply IH3; [|done]. lia.
  - split; [simpl; lia|]. split; [|lia]. by intros e [= <-].
Qed.

Section add.
Context (dp ip : Z) (i : inode).

(** The search for a free slot. *)
Definition slot_loop : list Z * Z → M (list Z * Z + list Z * Z) := λ '(e, ofs),
  '(e, ok) ← read_entry ip e ofs;
  if negb ok then mret (inr (e, ofs))
  else if negb (e_in_use e) then mret (inr (e, ofs))
  else mret (inl (e, i32 (ofs + ENTRY_SIZE))).

Lemma slot_loop_ok s :
  open_dir s dp ip i →
  ∃ e s', loop_st (S (S (Z.to_nat (length_ (data i))))) slot_loop (junk s, 0) s =
      Ok ((e, 20 * Z.of_nat (free_slot (ents s.(fs_device) i))), s') ∧
    quiet s s' ∧ length e = 20%nat.
Proof.
  intros Ho. pose proof Ho as [_ _ _ _ _ (_ & Hl0 & _) _ Hl _ Hj].
  assert (Hdl : 0 <= dir_len i ∧ 20 * dir_len i <= length_ (data i)) by (unfold dir_len; zdm).
  set (l := ents (fs_device s) i) in *. destruct (free_slot_spec l) as (Hf1 & Hf2 & Hf3).
  assert (Hlen : length l = Z.to_nat (dir_len i)) by apply length_ents.
  destruct (loop_st_total
    (λ n '(e, ofs) s1, ∃ k, quiet s s1 ∧ length e = 20%nat ∧ ofs = 20 * k ∧
       0 <= k <= Z.of_nat (free_slot l) ∧ n = S (Z.to_nat (length_ (data i) - ofs)))
    (λ r s1, ∃ e, r = (e, 20 * Z.of_nat (free_slot l)) ∧ quiet s s1 ∧ length e = 20%nat) slot_loop)
    with (n := S (Z.to_nat (length_ (data i)))) (fuel := S (S (Z.to_nat (length_ (data i)))))
      (l := (junk s, 0)) (s := s) as (r & s' & E & e & -> & Hq & He);
    [|exists 0; repeat split; try done; lia|lia|eauto].
  intros n [e ofs] s1 (k & Hq & He & -> & Hk & ->). unfold slot_loop.
  destruct (read_entry_ok dp ip i s1 e k) as (e' & s2 & E & Hq2 & He' & Hent);
    [by eapply quiet_open_dir|done|lia|].
  rewrite (run_bind _ _ _ _ _ E). rewrite (quiet_ents _ _ _ Hq) in Hent. fold l in Hent.
  assert (Hq' : quiet s s2) by by etrans.
  case_bool_decide as Hlt; cbn [negb]; cycle 1.
  { eexists _, _. split; [done|]. exists e'. split; [do 2 f_equal; lia|done]. }
  specialize (Hent Hlt). destruct (e_in_use e') eqn:Hu; cbn [negb].
  - assert (Z.to_nat k ≠ free_slot l) by (intros Hx; rewrite Hx in Hent; apply Hf2 in Hent; congruence).
    eexists _, _. split; [done|]. cbn beta iota. unfold ENTRY_SIZE. rewrite i32_small by lia.
    eexists. split; [|exists (k + 1); split; [done|]; split; [done|]; split; [lia|];
      split; [lia|reflexivity]]. lia.
  - assert (¬ (Z.to_nat k < free_slot l)%nat) by (intros Hx; by specialize (Hf3 _ _ Hx Hent); congruence).
    eexists _, _. split; [done|]. exists e'. split; [do 2 f_equal; lia|done].
Qed.

Lemma dir_add_ok s name sec :
  open_dir s dp ip i → dir_ok (ents s.(fs_device) i) → 0 ∉ name → is_u32 sec →
  let l := ents s.(fs_device) i in
  ∃ r s', dir_add dp name sec s = Ok (r, s') ∧ writes s s' ∧
    (r = true ↔ (0 < length name ≤ 14)%nat ∧ dir_map l !! name = None ∧
                (free_slot l < length l)%nat) ∧
    dir_ok (ents s'.(fs_device) i) ∧
    dir_map (ents s'.(fs_device) i) = if r then <[name := sec]> (dir_map l) else dir_map l.
Proof.
  intros Ho Hok H0 Hsec l. pose proof Ho as [Hdp (p & Hd) Hip Hi Hdw Hfit Hwf Hl Hm Hj].
  unfold dir_add, fASSERT. rewrite (run_lift _ _ _ tt) by
    (apply ASSERT_true; by rewrite (proj2 (Z.eqb_neq _ _))).
  destruct ((Z.of_nat (length name) =? 0) || (NAME_MAX <? Z.of_nat (length name))) eqn:Hnm.
  { exists false, s. split; [done|]. split; [done|]. split; [|done]. split; [done|].
    intros (Hn & _). unfold NAME_MAX in Hnm. apply orb_true_iff in Hnm.
    rewrite Z.eqb_eq, Z.ltb_lt in Hnm. lia. }
  apply orb_false_iff in Hnm as [Hn1%Z.eqb_neq Hn2%Z.ltb_ge]. unfold NAME_MAX in Hn2.
  destruct (lookup_ok dp ip i s name Ho H0 (proj1 Hok)) as (s1 & E1 & Hq1).
  rewrite (run_bind _ _ _ _ _ E1). fold l. pose proof (dir_find_spec name l 0) as Hfind.
  destruct (dir_find name l 0) as [[e ofs]|].
  { exists false, s1. split; [done|]. split; [by apply quiet_writes|].
    rewrite (quiet_ents _ _ _ Hq1). split; [|done]. split; [done|]. intros (_ & Hnone & _).
    destruct Hfind as (m & _ & Hlm & Hen). by rewrite (dir_map_Some l name m e) in Hnone. }
  assert (Hd1 : dirs s1 !! dp = Some (mk_dir ip p)) by (by rewrite (proj1 (quiet_dirs _ _ Hq1))).
  pose proof (quiet_open_dir _ _ _ _ _ Hq1 Ho) as Ho1.
  rewrite (run_bind _ _ s1 (mk_dir ip p) s1) by (unfold get_dir; by rewrite run_gets, Hd1).
  rewrite run_gets. cbn [d_inode].
  rewrite (run_bind _ _ s1 (S (S (Z.to_nat (length_ (data i))))) s1) by
    (unfold entry_fuel; by rewrite (run_bind _ _ _ _ _ (inode_length_ok _ _ _ (od_inode _ _ _ _ Ho1)))).
  destruct (slot_loop_ok s1 Ho1) as (e & s2 & E2 & Hq2 & He).
  fold slot_loop. rewrite (run_bind _ _ _ _ _ E2). rewrite (quiet_ents _ _ _ Hq1). fold l.
  destruct (new_entry_ok e name sec He H0 ltac:(lia) Hsec) as (He1 & He2 & He3).
  set (e' := set_sector _ _) in *.
  assert (Hq : quiet s s2) by by etrans.
  destruct (free_slot_spec l) as (Hf1 & Hf2 & _). pose proof (length_ents (fs_device s) i) as Hlen.
  fold l in Hlen. pose proof Hfit as (_ & Hl0 & _).
  assert (Hdl : 0 <= dir_len i ∧ length_ (data i) < 20 * dir_len i + 20 ∧
                20 * dir_len i <= length_ (data i)) by (unfold dir_len; zdm).
  destruct (inode_write_at_ok i ip Hip s2 e' 20 (20 * Z.of_nat (free_slot l)))
    as (k & s3 & E3 & Hw & Hk & Hkm & Hsp); [|done|..].
  { by rewrite (quiet_inodes _ _ Hq). }
  { by eapply quiet_fits. }
  { by eapply quiet_wf. }
  { lia. }
  { lia. }
  { lia. }
  specialize (Hkm (quiet_mem _ _ Hq Hm)). unfold avail in Hkm.
  unfold ENTRY_SIZE. exists (k =? 20), s3. split; [by rewrite (run_bind _ _ _ _ _ E3)|].
  split; [etrans; [by apply quiet_writes|done]|].
  destruct (decide (free_slot l < length l)%nat) as [Hslot|Hfull].
  - assert (k = 20) as -> by lia. cbn [Z.eqb Pos.eqb].
    rewrite (ents_written _ _ e' (free_slot l) _ Hsp) by (done || lia).
    rewrite (quiet_ents _ _ _ Hq). fold l.
    destruct (lookup_lt_is_Some_2 _ _ Hslot) as [e0 He0].
    destruct (dir_map_set l (free_slot l) e0 e' name sec) as [H1 H2]; [done|done| |done..|].
    { unfold ent_name. by rewrite (Hf2 _ He0). }
    split; [|done]. split; [|done]. intros _. split; [lia|]. split; [by apply dir_map_None|done].
  - rewrite (proj2 (Z.eqb_neq _ _)) by lia.
    rewrite (ents_past _ i _ _ _ _ Hsp) by lia. rewrite (quiet_ents _ _ _ Hq).
    split; [|done]. split; [done|]. intros (_ & _ & ?). lia.
Qed.
End add.

Lemma quiet_itab s s' : quiet s s' → itab s → itab s'.
Proof.
  intros (? & ? & p & -> & _ & Hp) [T1 T2 T3 T4 T5 T6]. split; cbn; [done..| |done|done|lia].
  intros q Hq%T3. lia.
Qed.

Lemma set_in_use_false e : length e = 20%nat → e_in_use (set_in_use e false) = false.
Proof.
  intros He. unfold e_in_use, set_in_use. rewrite list_lookup_total_alt.
  rewrite lookup_app_r by (rewrite length_take; lia). by rewrite length_take, He.
Qed.

(** ** Properties *)



(** Removing a file that somebody has open takes its name out of the
    directory and marks its inode removed, but keeps the inode and all its
    sectors: the opener's pointer stays valid and the free map is unchanged.
    Removing a name that is not there fails and changes nothing on disk. *)
Theorem dir_remove_open dp ip i s name :
  open_dir s dp ip i → dir_ok (ents s.(fs_device) i) → 0 ∉ name → itab s →
  let l := ents s.(fs_device) i in
  (dir_map l !! name = None → ∃ s', dir_remove dp name s = Ok (false, s') ∧ quiet s s') ∧
  (∀ fp fi, s.(inodes) !! fp = Some fi → dir_map l !! name = Some fi.(sector) → fp ≠ ip →
     fi.(open_cnt) < 2147483647 →
     ∃ s', dir_remove dp name s = Ok (true, s') ∧
       dir_ok (ents s'.(fs_device) i) ∧
       dir_map (ents s'.(fs_device) i) = delete name (dir_map l) ∧
       s'.(inodes) = <[fp := mk_inode fi.(sector) fi.(open_cnt) true fi.(deny_write_cnt)
                               fi.(data)]> s.(inodes) ∧
       s'.(free_map) = s.(free_map)).
Proof.
  intros Ho Hok H0 Ht l. pose proof Ho as [Hdp (p & Hd) Hip Hi Hdw Hfit Hwf Hl Hm Hj].
  destruct (lookup_ok dp ip i s name Ho H0 (proj1 Hok)) as (s1 & E1 & Hq1). fold l in E1.
  pose proof (dir_find_spec name l 0) as Hf. split.
  { intros Hnone. unfold dir_remove. rewrite (run_bind _ _ _ _ _ E1).
    destruct (dir_find name l 0) as [[e ofs]|]; [|by exists s1].
    destruct Hf as (m & _ & Hlm & Hn). by rewrite (dir_map_Some l name m e) in Hnone. }
  intros fp fi Hfi Hmap Hne Hmax. unfold dir_remove. rewrite (run_bind _ _ _ _ _ E1).
  destruct (dir_find name l 0) as [[e ofs]|]; [|by rewrite (dir_map_None l name) in Hmap].
  destruct Hf as (m & -> & Hlm & Hn).
  rewrite (dir_map_Some l name m e) in Hmap by done. injection Hmap as Hsec. rewrite Hsec.
  pose proof (quiet_itab _ _ Hq1 Ht) as Ht1. pose proof (it_cnt _ Ht _ _ Hfi) as Hc; cbn in Hc.
  assert (Hfi1 : inodes s1 !! fp = Some fi) by by rewrite (quiet_inodes _ _ Hq1).
  rewrite (run_bind _ _ _ _ _ (inode_open_hit s1 fp fi Ht1 Hfi1 ltac:(lia))).
  set (s2 := set_inodes _ s1).
  assert (Hfp : 0 < fp) by (apply (it_ptr _ Ht), (it_open _ Ht); eauto).
  rewrite (proj2 (Z.eqb_neq fp NULL)) by lia.
  assert (Hd2 : dirs s2 !! dp = Some (mk_dir ip p)) by (cbn; by rewrite (proj1 (quiet_dirs _ _ Hq1))).
  assert (Hi2 : inodes s2 !! ip = Some i).
  { cbn. rewrite lookup_insert_ne by done. by rewrite (quiet_inodes _ _ Hq1). }
  assert (Hm' : Z.of_nat m < dir_len i).
  { apply lookup_lt_Some in Hlm. unfold l in Hlm. rewrite length_ents in Hlm. lia. }
  pose proof Hfit as (_ & Hl0 & _).
  assert (Hdl : 20 * dir_len i <= length_ (data i)) by (unfold dir_len; zdm).
  assert (He : length e = 20%nat).
  { unfold l in Hlm. rewrite ents_lookup in Hlm by done. injection Hlm as <-. apply length_disk_bytes. }
  destruct (inode_write_at_ok i ip Hip s2 (set_in_use e false) 20 (20 * Z.of_nat m))
    as (k & s3 & E3 & Hw & Hk & Hkm & Hsp); [done|done|..].
  { by eapply (quiet_fits _ _ _ Hq1). }
  { by eapply (quiet_wf _ _ Hq1). }
  { lia. }
  { unfold set_in_use. rewrite length_app, length_take, He. done. }
  { lia. }
  specialize (Hkm (quiet_mem _ _ Hq1 Hm)). unfold avail in Hkm. assert (k = 20) as -> by lia.
  rewrite (run_bind _ _ s2 true (set_inodes (<[fp := mk_inode (sector fi) (open_cnt fi + 1) true
    (deny_write_cnt fi) (data fi)]> (inodes s3)) s3)); cycle 1.
  { rewrite (run_bind _ _ s2 (mk_dir ip p) s2) by (unfold get_dir; by rewrite run_gets, Hd2).
    rewrite i32_small by lia. rewrite Z.add_0_l. cbn [d_inode]. unfold ENTRY_SIZE.
    rewrite (run_bind _ _ _ _ _ E3). cbn [Z.eqb Pos.eqb negb].
    unfold inode_remove, fASSERT.
    erewrite run_bind; [reflexivity|].
    rewrite (run_lift _ _ _ tt) by (apply ASSERT_true; by rewrite (proj2 (Z.eqb_neq _ _)) by lia).
    erewrite run_bind by (apply get_inode_ok; rewrite (writes_inodes _ _ Hw); apply lookup_insert_eq).
    done. }
  set (s4 := set_inodes _ s3).
  eexists. split.
  { unfold inode_close. rewrite (proj2 (Z.eqb_neq fp NULL)) by lia.
    erewrite run_bind; [reflexivity|].
    erewrite run_bind by (apply get_inode_ok; apply lookup_insert_eq). cbn [open_cnt].
    rewrite i32_small by lia. replace (open_cnt fi + 1 - 1) with (open_cnt fi) by lia.
    unfold put_inode. erewrite run_bind by (rewrite run_gets; reflexivity).
    rewrite (proj2 (Z.eqb_neq _ _)) by lia. reflexivity. }
  cbn [set_inodes fs_device inodes free_map s4].
  rewrite (ents_written _ _ (set_in_use e false) m _ Hsp); [|..|done].
  - cbn [s2 set_inodes fs_device]. rewrite (quiet_ents _ _ _ Hq1). fold l.
    destruct (dir_map_unset l m e (set_in_use e false) name Hok Hlm Hn) as [H1 H2];
      [by apply set_in_use_false|].
    split; [done|]. split; [done|]. rewrite (writes_inodes _ _ Hw). cbn [s2 set_inodes inodes].
    rewrite !insert_insert_eq, (quiet_inodes _ _ Hq1). split; [done|].
    rewrite (writes_free_map _ _ Hw). by destruct Hq1 as (? & ? & ? & -> & _).
  - unfold set_in_use. rewrite length_app, length_take, He. done.
Qed.

(** A directory with room for 16 entries at sectors 30 and following, whose
    first entry names the file AB at sector 4, which is open. *)
Definition demo_dir_inode : inode := mk_inode 1 1 false 0 (mk_inode_disk 30 40 0 []).
Definition demo_file_inode : inode := mk_inode 4 1 false 0 (mk_inode_disk 5 700 0 []).
Definition demo_entry : list Z := le32 4 ++ [65; 66] ++ replicate 13 0 ++ [1].
Definition demo_dir_fs : fs :=
  mk_fs (mk_block BLOCK_FILESYS 64 {[ 30 := demo_entry ++ replicate 492 0 ]} 0 0)
    (mk_bitmap 64 [1073741939; 0]) NULL [3; 1]
    (<[3 := demo_file_inode]> {[ 1 := demo_dir_inode ]}) ∅ {[ 2 := mk_dir 1 0 ]} 4 []
    (replicate 20 0).

Lemma demo_open_dir : open_dir demo_dir_fs 2 1 demo_dir_inode.
Proof.
  split; [done|by exists 0|done|done|done|done| |done|split; [set_solver|done]|done].
  split; [by apply map_Forall_singleton|done].
Qed.

Lemma demo_ents : ents demo_dir_fs.(fs_device) demo_dir_inode = [demo_entry; replicate 20 0].
Proof. by vm_compute. Qed.

Lemma demo_dir_ok : dir_ok (ents demo_dir_fs.(fs_device) demo_dir_inode).
Proof.
  rewrite demo_ents. split; [|by vm_compute; apply NoDup_singleton].
  constructor; [by intros _; exists [65; 66]|]. by constructor.
Qed.

Lemma demo_dir_itab : itab demo_dir_fs.
Proof.
  split; cbn [demo_dir_fs open_inodes inodes brk]; [| | | | |done].
  - apply NoDup_cons. split; [set_solver|apply NoDup_singleton].
  - intros ip. rewrite lookup_insert_is_Some, lookup_singleton_is_Some.
    rewrite elem_of_cons, list_elem_of_singleton. destruct (decide (3 = ip)); naive_solver.
  - intros ip [->| ->%list_elem_of_singleton]%elem_of_cons; done.
  - apply map_Forall_insert_2; [done|]. by apply map_Forall_singleton.
  - intros ip jp i j [[<- <-]|[_ [<- <-]%lookup_singleton_Some]]%lookup_insert_Some
      [[<- <-]|[_ [<- <-]%lookup_singleton_Some]]%lookup_insert_Some; done.
Qed.



Lemma dir_remove_open_witness :
  ∃ s', dir_remove 2 [65; 66] demo_dir_fs = Ok (true, s') ∧
    dir_map (ents s'.(fs_device) demo_dir_inode) = ∅ ∧
    s'.(free_map) = demo_dir_fs.(free_map).
Proof.
  destruct (dir_remove_open 2 1 demo_dir_inode demo_dir_fs [65; 66]) as (_ & H);
    [apply demo_open_dir|apply demo_dir_ok|set_solver|apply demo_dir_itab|].
  destruct (H 3 demo_file_inode) as (s' & E & _ & Hm & _ & Hf); [done|by rewrite demo_ents|done|done|].
  exists s'. split; [done|]. split; [|done]. rewrite Hm, demo_ents. by vm_compute.
Defined.
