(* ===== verification/Filesys.v ===== *)
(** * The file system: filesys/filesys.c, and the free map file

    Formatting and opening the file system, and creating, opening and removing
    files by name in the root directory. *)

From S2P Require Import Prelude Bitmap FsState InodeIO FreeMap Inode File Directory.

Open Scope Z_scope.

(** ** Definitions *)

Definition free_map_open : M unit :=
  ip ← inode_open FREE_MAP_SECTOR;
  fp ← file_open ip;
  modify (set_free_map_file fp);;
  if fp =? NULL then lift Panic
  else
    fm ← gets free_map;
    '(fm, ok) ← bitmap_read fm fp;
    modify (set_free_map fm);;
    if (ok : bool) then mret tt else lift Panic.

Definition free_map_close : M unit :=
  fp ← gets free_map_file; file_close fp.

Definition free_map_create : M unit :=
  fm ← gets free_map;
  ok ← inode_create FREE_MAP_SECTOR (i32 (bitmap_file_size fm));
  if negb ok then lift Panic
  else
    ip ← inode_open FREE_MAP_SECTOR;
    fp ← file_open ip;
    modify (set_free_map_file fp);;
    if fp =? NULL then lift Panic
    else
      fm ← gets free_map;
      ok ← bitmap_write fm fp;
      if negb ok then lift Panic else mret tt.

Definition do_format : M unit :=
  free_map_create;;
  ok ← dir_create ROOT_DIR_SECTOR 16;
  if negb ok then lift Panic
  else free_map_close.

(** filesys_init() on the device that block_get_role (BLOCK_FILESYS) returns. *)
Definition filesys_init (role : option block) (garbage : list Z) (format : bool) : M unit :=
  match role with
  | None => lift Panic
  | Some d =>
      modify (set_device d);;
      inode_init;;
      free_map_init garbage;;
      when format do_format;;
      free_map_open
  end.

Definition filesys_done : M unit := free_map_close.

Definition filesys_create (name : list Z) (initial_size : Z) : M bool :=
  dp ← dir_open_root;
  '(success, inode_sector) ←
    (if dp =? NULL then mret (false, 0)
     else
       r ← free_map_allocate 1;
       match r with
       | None => mret (false, 0)
       | Some inode_sector =>
           ok ← inode_create inode_sector initial_size;
           if negb ok then mret (false, inode_sector)
           else ok ← dir_add dp name inode_sector; mret (ok, inode_sector)
       end);
  when (negb success && negb (inode_sector =? 0)) (free_map_release inode_sector 1);;
  dir_close dp;;
  mret success.

Definition filesys_open (name : list Z) : M Z :=
  dp ← dir_open_root;
  ip ← (if dp =? NULL then mret NULL else dir_lookup dp name);
  dir_close dp;;
  file_open ip.

Definition filesys_remove (name : list Z) : M bool :=
  dp ← dir_open_root;
  success ← (if dp =? NULL then mret false else dir_remove dp name);
  dir_close dp;;
  mret success.

(** ** Properties *)

(** A freshly formatted file system of 64 sectors. *)
Definition blank_fs : fs :=
  mk_fs (mk_block BLOCK_FILESYS 64 ∅ 0 0) (mk_bitmap 0 []) NULL [] ∅ ∅ ∅ 1 [] (replicate 20 0).

Definition formatted : M unit :=
  filesys_init (Some (mk_block BLOCK_FILESYS 64 ∅ 0 0)) [5; 6] true.

(** A file name can be created, opened, written, read back and removed on a
    freshly formatted file system, and the removed file's sectors are released
    when its last opener closes it. *)
Example filesys_lifecycle :
  (formatted;;
   created ← filesys_create [65; 66] 100;
   fp ← filesys_open [65; 66];
   n ← file_write fp [1; 2; 3] 3;
   file_seek fp 1;;
   bs ← file_read fp 4;
   before ← gets free_map;
   gone ← filesys_remove [65; 66];
   again ← filesys_open [65; 66];
   held ← gets free_map;
   file_close fp;;
   after ← gets free_map;
   mret (created, n, bs, gone, again, (before, held, after))) blank_fs
  ≫= (λ r, Ok (fst r))
  = Ok (true, 3, [2; 3; 0; 0], true, NULL,
        (mk_bitmap 64 [63; 0], mk_bitmap 64 [63; 0], mk_bitmap 64 [15; 0])).
Proof. by vm_compute. Qed.

(** Filesys_create() of a name that already exists fails but leaks: the data
    sectors that inode_create() allocated for it stay marked in the free map,
    although no inode refers to them. *)
Example filesys_create_duplicate_leaks :
  (formatted;;
   filesys_create [65; 66] 1000;;
   before ← gets free_map;
   again ← filesys_create [65; 66] 1000;
   after ← gets free_map;
   mret (again, before, after)) blank_fs
  ≫= (λ r, Ok (fst r))
  = Ok (false, mk_bitmap 64 [127; 0], mk_bitmap 64 [895; 0]).
Proof. by vm_compute. Qed.
