(* ===== verification/FsFrame.v ===== *)
(** * What the file system never does: memory it handed out stays handed out

    malloc() hands out pointers in increasing order, so that a pointer below
    [brk] is never handed out again.  [Grows] says this of an operation; its
    instances follow the structure of the code. *)

From S2P Require Import Prelude Bitmap FsState InodeIO FreeMap Inode File Directory Filesys.

Open Scope Z_scope.

Class Grows {A} (m : M A) : Prop := grows : ∀ s a s', m s = Ok (a, s') → s.(brk) <= s'.(brk).

#[export] Instance grows_ret {A} (a : A) : Grows (mret a).
Proof. intros s b s' [= <- <-]. lia. Qed.

#[export] Instance grows_bind {A B} (m : M A) (f : A → M B) :
  Grows m → (∀ a, Grows (f a)) → Grows (m ≫= f).
Proof.
  intros Hm Hf s b s2 H. apply run_bind_inv in H as (a & s1 & H1 & H2).
  apply Hm in H1. apply Hf in H2. lia.
Qed.

#[export] Instance grows_gets {A} (f : fs → A) : Grows (gets f).
Proof. intros s b s' [= <- <-]. lia. Qed.

#[export] Instance grows_lift {A} (m : outcome A) : Grows (lift m).
Proof. intros s b s' H. unfold lift in H. apply bind_Ok in H as (a & _ & [= _ <-]). lia. Qed.

#[export] Instance grows_assert c : Grows (fASSERT c).
Proof. apply grows_lift. Qed.

Lemma grows_modify (f : fs → fs) : (∀ s, s.(brk) <= (f s).(brk)) → Grows (modify f).
Proof. intros Hf s b s' [= <- <-]. apply Hf. Qed.

#[export] Instance grows_when c (m : M unit) : Grows m → Grows (when c m).
Proof. intros Hm. destruct c; [done|apply grows_ret]. Qed.

Lemma loop_grows {L R} n (body : L → M (L + R)) :
  (∀ l, Grows (body l)) → ∀ l, Grows (loop_st n body l).
Proof.
  intros Hb. induction n as [|n IH]; intros l s r s' H; [done|].
  unfold loop_st in H. cbn [loop] in H. apply bind_Ok in H as ([[l1 s1]|[x s1]] & H1 & H2).
  - apply bind_Ok in H1 as ([[l2|x] s2] & H1 & H3); simplify_eq.
    apply Hb in H1. apply IH in H2. lia.
  - apply bind_Ok in H1 as ([[l2|x'] s2] & H1 & H3); simplify_eq. by apply Hb in H1.
Qed.

#[export] Instance grows_loop {L R} n (body : L → M (L + R)) l :
  (∀ l, Grows (body l)) → Grows (loop_st n body l).
Proof. intros. by apply loop_grows. Qed.

#[export] Instance grows_for n i (body : Z → M unit) : (∀ j, Grows (body j)) → Grows (for_st n i body).
Proof.
  intros Hb. revert i. induction n as [|n IH]; intros i; [apply grows_ret|]. cbn [for_st].
  apply grows_bind; [apply Hb|]. intros _. apply IH.
Qed.

#[export] Instance grows_malloc : Grows malloc.
Proof.
  intros s a s' H. unfold malloc in H. destruct s.(oom) as [|[] l]; simplify_eq; simpl; lia.
Qed.

(** Go through the structure of an operation. *)
Ltac grows := intros; cbv zeta; repeat
  first [ apply _ | apply grows_bind; intros | apply grows_loop; intros
        | apply grows_for; intros | apply grows_when
        | apply grows_modify; intros; simpl; lia
        | match goal with |- Grows (match ?x with _ => _ end) => destruct x end ].

#[export] Instance grows_block_read n : Grows (block_read n).
Proof. unfold block_read. grows. Qed.
#[export] Instance grows_block_write n b : Grows (block_write n b).
Proof. unfold block_write. grows. Qed.
#[export] Instance grows_get_inode p : Grows (get_inode p).
Proof. unfold get_inode. grows. Qed.
#[export] Instance grows_put_inode p i : Grows (put_inode p i).
Proof. unfold put_inode. grows. Qed.
#[export] Instance grows_get_file p : Grows (get_file p).
Proof. unfold get_file. grows. Qed.
#[export] Instance grows_put_file p i : Grows (put_file p i).
Proof. unfold put_file. grows. Qed.
#[export] Instance grows_get_dir p : Grows (get_dir p).
Proof. unfold get_dir. grows. Qed.
#[export] Instance grows_put_dir p i : Grows (put_dir p i).
Proof. unfold put_dir. grows. Qed.
#[export] Instance grows_byte_to_sector p i : Grows (byte_to_sector p i).
Proof. unfold byte_to_sector. grows. Qed.
#[export] Instance grows_inode_length p : Grows (inode_length p).
Proof. unfold inode_length. grows. Qed.
#[export] Instance grows_get_bounce b : Grows (get_bounce b).
Proof. unfold get_bounce. grows. Qed.
#[export] Instance grows_inode_read_at p n o : Grows (inode_read_at p n o).
Proof. unfold inode_read_at. grows. Qed.
#[export] Instance grows_inode_write_at p b n o : Grows (inode_write_at p b n o).
Proof. unfold inode_write_at. grows. Qed.
#[export] Instance grows_inode_deny p : Grows (inode_deny_write p).
Proof. unfold inode_deny_write. grows. Qed.
#[export] Instance grows_inode_allow p : Grows (inode_allow_write p).
Proof. unfold inode_allow_write. grows. Qed.
#[export] Instance grows_file_write_at p b n o : Grows (file_write_at p b n o).
Proof. unfold file_write_at. grows. Qed.
#[export] Instance grows_bitmap_write b p : Grows (bitmap_write b p).
Proof. unfold bitmap_write. grows. Qed.
#[export] Instance grows_free_map_allocate n : Grows (free_map_allocate n).
Proof. unfold free_map_allocate. grows. Qed.
#[export] Instance grows_free_map_release a n : Grows (free_map_release a n).
Proof. unfold free_map_release. grows. Qed.
#[export] Instance grows_inode_create a n : Grows (inode_create a n).
Proof. unfold inode_create. grows. Qed.
#[export] Instance grows_inode_reopen p : Grows (inode_reopen p).
Proof. unfold inode_reopen. grows. Qed.
#[export] Instance grows_find_inode l n : Grows (find_inode l n).
Proof. induction l as [|p l IH]; cbn [find_inode]; grows. Qed.
#[export] Instance grows_inode_open n : Grows (inode_open n).
Proof. unfold inode_open. grows. Qed.
#[export] Instance grows_inode_close p : Grows (inode_close p).
Proof. unfold inode_close. grows. Qed.
#[export] Instance grows_inode_remove p : Grows (inode_remove p).
Proof. unfold inode_remove. grows. Qed.
#[export] Instance grows_file_open p : Grows (file_open p).
Proof. unfold file_open. grows. Qed.
#[export] Instance grows_file_read p n : Grows (file_read p n).
Proof. unfold file_read. grows. Qed.
#[export] Instance grows_file_write p b n : Grows (file_write p b n).
Proof. unfold file_write. grows. Qed.
#[export] Instance grows_file_allow p : Grows (file_allow_write p).
Proof. unfold file_allow_write. grows. Qed.
#[export] Instance grows_file_close p : Grows (file_close p).
Proof. unfold file_close. grows. Qed.
#[export] Instance grows_file_length p : Grows (file_length p).
Proof. unfold file_length. grows. Qed.
#[export] Instance grows_file_seek p n : Grows (file_seek p n).
Proof. unfold file_seek. grows. Qed.
#[export] Instance grows_file_tell p : Grows (file_tell p).
Proof. unfold file_tell. grows. Qed.
#[export] Instance grows_dir_open p : Grows (dir_open p).
Proof. unfold dir_open. grows. Qed.
#[export] Instance grows_dir_open_root : Grows dir_open_root.
Proof. unfold dir_open_root. grows. Qed.
#[export] Instance grows_dir_close p : Grows (dir_close p).
Proof. unfold dir_close. grows. Qed.
#[export] Instance grows_entry_fuel p : Grows (entry_fuel p).
Proof. unfold entry_fuel. grows. Qed.
#[export] Instance grows_read_entry p e o : Grows (read_entry p e o).
Proof. unfold read_entry. grows. Qed.
#[export] Instance grows_lookup p n : Grows (lookup_ p n).
Proof. unfold lookup_. grows. Qed.
#[export] Instance grows_dir_lookup p n : Grows (dir_lookup p n).
Proof. unfold dir_lookup. grows. Qed.
#[export] Instance grows_dir_add p n i : Grows (dir_add p n i).
Proof. unfold dir_add. grows. Qed.
#[export] Instance grows_dir_remove p n : Grows (dir_remove p n).
Proof. unfold dir_remove. grows. Qed.
#[export] Instance grows_filesys_create n z : Grows (filesys_create n z).
Proof. unfold filesys_create. grows. Qed.
#[export] Instance grows_filesys_open n : Grows (filesys_open n).
Proof. unfold filesys_open. grows. Qed.
#[export] Instance grows_filesys_remove n : Grows (filesys_remove n).
Proof. unfold filesys_remove. grows. Qed.
