(* ===== verification/Vaddr.v ===== *)
(** * Virtual addresses and page table entries: threads/vaddr.h, threads/pte.h

    Addresses are 32-bit unsigned; the bit masks are written as the code has
    them, with the arithmetic readings that the rest of the development uses. *)

From S2P Require Import Prelude.

Open Scope Z_scope.

(** ** Definitions *)

Definition BITMASK (shift cnt : Z) : Z := u32 (Z.shiftl (Z.shiftl 1 cnt - 1) shift).

Definition PGBITS : Z := 12.
Definition PGSIZE : Z := Z.shiftl 1 PGBITS.
Definition PGMASK : Z := BITMASK 0 PGBITS.
Definition PTBITS : Z := 10.
Definition PTMASK : Z := BITMASK 12 PTBITS.

Definition pg_ofs (va : Z) : Z := Z.land va PGMASK.
Definition pg_no (va : Z) : Z := Z.shiftr va PGBITS.
Definition pg_round_up (va : Z) : Z := Z.land (u32 (va + PGSIZE - 1)) (u32 (Z.lnot PGMASK)).
Definition pg_round_down (va : Z) : Z := Z.land va (u32 (Z.lnot PGMASK)).

Definition PHYS_BASE : Z := 3221225472.

Definition is_user_vaddr (vaddr : Z) : bool := vaddr <? PHYS_BASE.
Definition is_kernel_vaddr (vaddr : Z) : bool := PHYS_BASE <=? vaddr.

Definition ptov (paddr : Z) : outcome Z :=
  ASSERT (paddr <? PHYS_BASE);; Ok (u32 (paddr + PHYS_BASE)).
Definition vtop (vaddr : Z) : outcome Z :=
  ASSERT (is_kernel_vaddr vaddr);; Ok (u32 (vaddr - PHYS_BASE)).

Definition pt_no (va : Z) : Z := Z.shiftr (Z.land va PTMASK) 12.
Definition pd_no (va : Z) : Z := Z.shiftr va 22.

Definition PTE_ADDR : Z := 4294963200.
Definition PTE_P : Z := 1.
Definition PTE_W : Z := 2.
Definition PTE_U : Z := 4.
Definition PTE_A : Z := 32.
Definition PTE_D : Z := 64.

Definition pde_create (pt : Z) : outcome Z :=
  ASSERT (pg_ofs pt =? 0);;
  p ← vtop pt;
  Ok (Z.lor (Z.lor (Z.lor p PTE_U) PTE_P) PTE_W).

Definition pde_get_pt (pde : Z) : outcome Z :=
  ASSERT (negb (Z.land pde PTE_P =? 0));;
  ptov (Z.land pde PTE_ADDR).

Definition pte_create_kernel (page : Z) (writable : bool) : outcome Z :=
  ASSERT (pg_ofs page =? 0);;
  p ← vtop page;
  Ok (Z.lor (Z.lor p PTE_P) (if writable then PTE_W else 0)).

Definition pte_create_user (page : Z) (writable : bool) : outcome Z :=
  p ← pte_create_kernel page writable; Ok (Z.lor p PTE_U).

Definition pte_get_page (pte : Z) : outcome Z := ptov (Z.land pte PTE_ADDR).

(** ** Arithmetic readings *)

Lemma pg_ofs_mod va : pg_ofs va = va mod 4096.
Proof.
  unfold pg_ofs. change PGMASK with (Z.ones 12). rewrite Z.land_ones by lia. done.
Qed.

Lemma pg_no_div va : pg_no va = va / 4096.
Proof. unfold pg_no, PGBITS. by rewrite Z.shiftr_div_pow2 by lia. Qed.

(** Clearing the low twelve bits of a 32-bit address. *)
Lemma land_high va : is_u32 va → Z.land va PTE_ADDR = va - va mod 4096.
Proof.
  intros Hva. change PTE_ADDR with (Z.ldiff (Z.ones 32) (Z.ones 12)).
  rewrite Z.land_comm, Z.ldiff_land, <-Z.land_assoc, (Z.land_comm (Z.lnot _)), Z.land_assoc.
  rewrite (Z.land_comm (Z.ones 32)), Z.land_ones, Z.mod_small by lia.
  rewrite <-Z.ldiff_land. pose proof (Z.ldiff_ones_r va 12 ltac:(lia)) as H. rewrite H.
  rewrite Z.shiftr_div_pow2, Z.shiftl_mul_pow2 by lia. change (2 ^ 12) with 4096. zdm.
Qed.

Lemma pg_round_down_eq va : is_u32 va → pg_round_down va = va - va mod 4096.
Proof. intros. change (pg_round_down va) with (Z.land va PTE_ADDR). by apply land_high. Qed.

Lemma pg_round_up_eq va :
  0 <= va <= 4294963200 → pg_round_up va = (va + 4095) / 4096 * 4096.
Proof.
  intros Hva. unfold pg_round_up. change (u32 (Z.lnot PGMASK)) with PTE_ADDR.
  change (va + PGSIZE - 1) with (va + 4096 - 1). rewrite u32_small by lia.
  rewrite land_high by lia. zdm.
Qed.

Lemma pt_no_div va : is_u32 va → pt_no va = va / 4096 mod 1024.
Proof.
  intros Hva. unfold pt_no. rewrite Z.shiftr_land.
  change (Z.shiftr PTMASK 12) with (Z.ones 10). rewrite Z.land_ones by lia.
  by rewrite Z.shiftr_div_pow2 by lia.
Qed.

Lemma pd_no_div va : pd_no va = va / 4194304.
Proof. unfold pd_no. by rewrite Z.shiftr_div_pow2 by lia. Qed.

(** Adding flag bits to a page-aligned address. *)
Lemma lor_aligned a f : 0 <= a → a mod 4096 = 0 → 0 <= f < 4096 → Z.lor a f = a + f.
Proof.
  intros Ha Hal Hf.
  assert (H : Z.land a f = 0).
  { apply Z.bits_inj'. intros k Hk. rewrite Z.land_spec, Z.bits_0.
    destruct (decide (k < 12)) as [Hlt|Hge].
    - replace a with (a / 4096 * 2 ^ 12) by (change (2 ^ 12) with 4096; zdm).
      rewrite Z.mul_pow2_bits_low by lia. done.
    - rewrite (Z.bits_above_log2 f k), andb_false_r; [done|lia|].
      destruct (decide (f = 0)) as [->|]; [simpl; lia|].
      assert (Z.log2 f < 12) by (apply Z.log2_lt_pow2; lia). lia. }
  rewrite <-Z.lxor_lor by done. symmetry. by apply Z.add_nocarry_lxor.
Qed.

Lemma vtop_ok va : PHYS_BASE <= va < 4294967296 → vtop va = Ok (va - PHYS_BASE).
Proof.
  intros. unfold vtop, is_kernel_vaddr. rewrite ASSERT_true by (apply Z.leb_le; lia). simpl.
  f_equal. apply u32_small. unfold PHYS_BASE in *. lia.
Qed.

Lemma ptov_ok pa : 0 <= pa < 1073741824 → ptov pa = Ok (pa + PHYS_BASE).
Proof.
  intros. unfold ptov. rewrite ASSERT_true by (apply Z.ltb_lt; unfold PHYS_BASE; lia). simpl.
  f_equal. apply u32_small. unfold PHYS_BASE. lia.
Qed.

(** A user address. *)
Definition user_va (va : Z) : Prop := 0 <= va < PHYS_BASE.

#[export] Instance user_va_dec va : Decision (user_va va).
Proof. unfold user_va. apply _. Defined.

(** A kernel page: aligned and within the kernel's mapping of physical memory. *)
Definition kernel_page (p : Z) : Prop :=
  PHYS_BASE <= p < 4294967296 ∧ p mod 4096 = 0.

Lemma pde_create_ok pt :
  kernel_page pt →
  pde_create pt = Ok (pt - PHYS_BASE + 7) ∧ pde_get_pt (pt - PHYS_BASE + 7) = Ok pt.
Proof.
  intros [Hr Ha].
  assert (Hm : (pt - PHYS_BASE) mod 4096 = 0) by (unfold PHYS_BASE; zdm).
  split.
  - unfold pde_create. rewrite ASSERT_true by (rewrite pg_ofs_mod; by apply Z.eqb_eq).
    rewrite bind_ret, vtop_ok, bind_ret by done. f_equal.
    rewrite <-!Z.lor_assoc. change (Z.lor PTE_U (Z.lor PTE_P PTE_W)) with 7.
    apply lor_aligned; lia.
  - assert (Hp : Z.land (pt - PHYS_BASE + 7) PTE_P = 1).
    { change PTE_P with (Z.ones 1). rewrite Z.land_ones by lia. change (2 ^ 1) with 2. zdm. }
    unfold pde_get_pt. rewrite Hp. simpl. rewrite land_high by (unfold PHYS_BASE in *; lia).
    replace (pt - PHYS_BASE + 7 - (pt - PHYS_BASE + 7) mod 4096) with (pt - PHYS_BASE) by zdm.
    rewrite ptov_ok by (unfold PHYS_BASE in *; lia). f_equal. lia.
Qed.

Lemma pte_create_ok kpage w :
  kernel_page kpage →
  let f := if (w : bool) then 7 else 5 in
  pte_create_user kpage w = Ok (kpage - PHYS_BASE + f) ∧
  pte_get_page (kpage - PHYS_BASE + f) = Ok kpage ∧
  Z.land (kpage - PHYS_BASE + f) PTE_P = 1.
Proof.
  intros [Hr Ha] f.
  assert (Hm : (kpage - PHYS_BASE) mod 4096 = 0) by (unfold PHYS_BASE; zdm).
  assert (Hf : 0 <= f < 4096) by (unfold f; destruct w; lia).
  split; [|split].
  - unfold pte_create_user, pte_create_kernel.
    rewrite ASSERT_true by (rewrite pg_ofs_mod; by apply Z.eqb_eq).
    rewrite bind_ret, vtop_ok, !bind_ret by done. f_equal.
    rewrite <-!Z.lor_assoc.
    replace (Z.lor PTE_P (Z.lor (if w then PTE_W else 0) PTE_U)) with f by by destruct w.
    apply lor_aligned; lia.
  - unfold pte_get_page. rewrite land_high by (unfold PHYS_BASE in *; lia).
    replace (kpage - PHYS_BASE + f - (kpage - PHYS_BASE + f) mod 4096)
      with (kpage - PHYS_BASE) by zdm.
    rewrite ptov_ok by (unfold PHYS_BASE in *; lia). f_equal. lia.
  - change PTE_P with (Z.ones 1). rewrite Z.land_ones by lia. change (2 ^ 1) with 2.
    unfold f. destruct w; zdm.
Qed.
