(* ===== verification/Selectors.v ===== *)
(** * Segment selectors: threads/loader.h and userprog/gdt.h

    The code and data segments of the kernel and of user programs, which the
    descriptor tables define (Descriptors.v) and the handlers of exceptions and
    the start of a process name (Exception.v, StartProcess.v). *)

From S2P Require Import Prelude.

Open Scope Z_scope.

Definition SEL_NULL : Z := 0.
Definition SEL_KCSEG : Z := 8.
Definition SEL_KDSEG : Z := 16.
Definition SEL_UCSEG : Z := 27.
Definition SEL_UDSEG : Z := 35.
Definition SEL_TSS : Z := 40.
Definition SEL_CNT : Z := 6.
