(* ===== verification/UserMem.v ===== *)
(** * User memory as the system calls see it

    The interface between the system calls of Syscall.v and the access to user
    memory of Exception.v: the operations get_user() and put_user(), and what a
    component that provides them promises about the addresses that are mapped.
    An operation yields [None] when it ends the thread. *)

From S2P Require Import Prelude Vaddr.

Open Scope Z_scope.

Class UserMem (S : Type) := {
  um_get_user : Z → st S (option Z);
  um_put_user : Z → Z → st S (option bool) }.

Class UserMemSpec (S : Type) {UM : UserMem S} := {
  um_ok : S → Prop;
  um_byte : S → Z → option Z;
  um_writable : S → Z → bool;
  um_byte_range : ∀ s va b, um_byte s va = Some b → is_u8 b;
  um_get_spec : ∀ s va b,
    um_ok s → user_va va → um_byte s va = Some b → um_get_user va s = Ok (Some b, s);
  um_put_spec : ∀ s va b,
    um_ok s → user_va va → is_Some (um_byte s va) → um_writable s va = true →
    ∃ s', um_put_user va b s = Ok (Some true, s') ∧ um_ok s' ∧
      (∀ x, user_va x → um_writable s' x = um_writable s x) ∧
      (∀ x, user_va x → um_byte s' x = if x =? va then Some (u8 b) else um_byte s x) }.

Section usermem.
Context {S : Type} {UM : UserMem S} {UMS : UserMemSpec S}.

(** The bytes [bs] are at user address [va]. *)
Definition user_bytes (s : S) (va : Z) (bs : list Z) : Prop :=
  user_va va ∧ va + Z.of_nat (length bs) <= PHYS_BASE ∧
  ∀ i b, bs !! i = Some b → um_byte s (va + Z.of_nat i) = Some b.

(** The [n] bytes at user address [va] are mapped and may be written. *)
Definition user_buffer (s : S) (va n : Z) : Prop :=
  user_va va ∧ va + n <= PHYS_BASE ∧
  ∀ i, 0 <= i < n → is_Some (um_byte s (va + i)) ∧ um_writable s (va + i) = true.

(** Two states of user memory that differ at most in [n] bytes at [va]. *)
Definition user_same_but (va n : Z) (s s' : S) : Prop :=
  (∀ x, user_va x → um_writable s' x = um_writable s x) ∧
  (∀ x, user_va x → x < va ∨ va + n <= x → um_byte s' x = um_byte s x) ∧
  (∀ x, user_va x → is_Some (um_byte s x) → is_Some (um_byte s' x)).

Lemma user_same_but_refl va n s : user_same_but va n s s.
Proof. done. Qed.

Lemma user_bytes_lookup s va bs (i : nat) :
  user_bytes s va bs → (i < length bs)%nat →
  user_va (va + Z.of_nat i) ∧ ∃ b, bs !! i = Some b ∧ um_byte s (va + Z.of_nat i) = Some b.
Proof.
  intros ([V0 V1] & H1 & H2) Hi. split; [unfold user_va, PHYS_BASE in *; lia|].
  destruct (lookup_lt_is_Some_2 bs i Hi) as [b Hb]. eauto.
Qed.
End usermem.
