(* ===== verification/Thread.v ===== *)
(** * Threads: threads/thread.c, with the interrupt level of threads/interrupt.c

    The state of the scheduler: the threads by the address of their page, the
    run queue, the list of all threads, the interrupt level and whether an
    external interrupt is being handled.

    A call of schedule() runs another thread in the middle of a C function; the
    rest of that function runs when the thread is scheduled again.  Each thread
    therefore carries the stack of the functions it has yet to finish, as a list
    of [frame]s: a function that may switch pushes the frame of what follows,
    and [resume] (Synch.v) runs the topmost frame of the running thread.  The
    kernel lists are the sequences of their elements. *)

From S2P Require Import Prelude Vaddr.

Open Scope Z_scope.

(** ** Data *)

Abbreviation NULL := 0%Z (only parsing).

Inductive thread_status :=
| THREAD_RUNNING | THREAD_READY | THREAD_BLOCKED | THREAD_DYING.

#[export] Instance thread_status_eq_dec : EqDecision thread_status.
Proof. solve_decision. Defined.

(** The semaphores of the kernel: free-standing ones, the one inside each lock,
    and the one that cond_wait() keeps on the stack of the waiting thread. *)
Inductive sid := SUser (n : Z) | SLock (l : Z) | SWaiter (t : Z).

#[export] Instance sid_eq_dec : EqDecision sid.
Proof. solve_decision. Defined.

#[export] Instance sid_countable : Countable sid.
Proof.
  apply (inj_countable'
    (λ s, match s with SUser n => inl n | SLock l => inr (inl l) | SWaiter t => inr (inr t) end)
    (λ x, match x with inl n => SUser n | inr (inl l) => SLock l | inr (inr t) => SWaiter t end)).
  by intros [].
Defined.

(** What a thread has yet to do in functions that it has not returned from. *)
Inductive frame :=
| FStart                          (* kernel_thread(): before the thread function *)
| FYield (old_level : bool)       (* thread_yield(): after schedule() *)
| FIret                           (* return from an interrupt *)
| FIdle                           (* idle(): before intr_disable() *)
| FHalt                           (* idle(): after thread_block() *)
| FDown (s : sid) (old_level : bool) (* sema_down(): the head of its loop *)
| FHolder (l : Z)                 (* lock_acquire(): after sema_down() *)
| FUp (s : sid)                   (* lock_release(): before sema_up() *)
| FDownCall (t : Z)               (* cond_wait(): before sema_down() of its semaphore *)
| FAcquire (l : Z).               (* cond_wait(): before lock_acquire() *)

Record thread := mk_thread {
  tid : Z;
  status : thread_status;
  name : list Z;
  stack : Z;
  priority : Z;
  next_fd : Z;
  pagedir : Z;
  t_magic : Z;
  frames : list frame }.

Record semaphore := mk_sema { value : Z; waiters : list Z }.

Record kst := mk_kst {
  threads : gmap Z thread;
  running : Z;
  ready_list : list Z;
  all_list : list Z;
  idle_thread : Z;
  initial_thread : Z;
  intr_on : bool;
  in_external_intr : bool;
  yield_on_return : bool;
  thread_ticks : Z;
  idle_ticks : Z;
  kernel_ticks : Z;
  user_ticks : Z;
  ticks : Z;
  next_tid : Z;
  semas : gmap sid semaphore;
  holders : gmap Z Z;
  conds : gmap Z (list Z) }.

Definition with_threads (m : gmap Z thread) (s : kst) : kst :=
  mk_kst m s.(running) s.(ready_list) s.(all_list) s.(idle_thread) s.(initial_thread)
    s.(intr_on) s.(in_external_intr) s.(yield_on_return) s.(thread_ticks) s.(idle_ticks)
    s.(kernel_ticks) s.(user_ticks) s.(ticks) s.(next_tid) s.(semas) s.(holders) s.(conds).
Definition with_running (t : Z) (s : kst) : kst :=
  mk_kst s.(threads) t s.(ready_list) s.(all_list) s.(idle_thread) s.(initial_thread)
    s.(intr_on) s.(in_external_intr) s.(yield_on_return) s.(thread_ticks) s.(idle_ticks)
    s.(kernel_ticks) s.(user_ticks) s.(ticks) s.(next_tid) s.(semas) s.(holders) s.(conds).
Definition with_ready (l : list Z) (s : kst) : kst :=
  mk_kst s.(threads) s.(running) l s.(all_list) s.(idle_thread) s.(initial_thread)
    s.(intr_on) s.(in_external_intr) s.(yield_on_return) s.(thread_ticks) s.(idle_ticks)
    s.(kernel_ticks) s.(user_ticks) s.(ticks) s.(next_tid) s.(semas) s.(holders) s.(conds).
Definition with_all (l : list Z) (s : kst) : kst :=
  mk_kst s.(threads) s.(running) s.(ready_list) l s.(idle_thread) s.(initial_thread)
    s.(intr_on) s.(in_external_intr) s.(yield_on_return) s.(thread_ticks) s.(idle_ticks)
    s.(kernel_ticks) s.(user_ticks) s.(ticks) s.(next_tid) s.(semas) s.(holders) s.(conds).
Definition with_intr (b : bool) (s : kst) : kst :=
  mk_kst s.(threads) s.(running) s.(ready_list) s.(all_list) s.(idle_thread)
    s.(initial_thread) b s.(in_external_intr) s.(yield_on_return) s.(thread_ticks)
    s.(idle_ticks) s.(kernel_ticks) s.(user_ticks) s.(ticks) s.(next_tid) s.(semas)
    s.(holders) s.(conds).
Definition with_external (b y : bool) (s : kst) : kst :=
  mk_kst s.(threads) s.(running) s.(ready_list) s.(all_list) s.(idle_thread)
    s.(initial_thread) s.(intr_on) b y s.(thread_ticks) s.(idle_ticks) s.(kernel_ticks)
    s.(user_ticks) s.(ticks) s.(next_tid) s.(semas) s.(holders) s.(conds).
Definition with_ticks (tt_ it kt ut tk : Z) (s : kst) : kst :=
  mk_kst s.(threads) s.(running) s.(ready_list) s.(all_list) s.(idle_thread)
    s.(initial_thread) s.(intr_on) s.(in_external_intr) s.(yield_on_return) tt_ it kt ut tk
    s.(next_tid) s.(semas) s.(holders) s.(conds).
Definition with_tid (n : Z) (s : kst) : kst :=
  mk_kst s.(threads) s.(running) s.(ready_list) s.(all_list) s.(idle_thread)
    s.(initial_thread) s.(intr_on) s.(in_external_intr) s.(yield_on_return) s.(thread_ticks)
    s.(idle_ticks) s.(kernel_ticks) s.(user_ticks) s.(ticks) n s.(semas) s.(holders) s.(conds).
Definition with_semas (m : gmap sid semaphore) (s : kst) : kst :=
  mk_kst s.(threads) s.(running) s.(ready_list) s.(all_list) s.(idle_thread)
    s.(initial_thread) s.(intr_on) s.(in_external_intr) s.(yield_on_return) s.(thread_ticks)
    s.(idle_ticks) s.(kernel_ticks) s.(user_ticks) s.(ticks) s.(next_tid) m s.(holders) s.(conds).
Definition with_holders (m : gmap Z Z) (s : kst) : kst :=
  mk_kst s.(threads) s.(running) s.(ready_list) s.(all_list) s.(idle_thread)
    s.(initial_thread) s.(intr_on) s.(in_external_intr) s.(yield_on_return) s.(thread_ticks)
    s.(idle_ticks) s.(kernel_ticks) s.(user_ticks) s.(ticks) s.(next_tid) s.(semas) m s.(conds).
Definition with_conds (m : gmap Z (list Z)) (s : kst) : kst :=
  mk_kst s.(threads) s.(running) s.(ready_list) s.(all_list) s.(idle_thread)
    s.(initial_thread) s.(intr_on) s.(in_external_intr) s.(yield_on_return) s.(thread_ticks)
    s.(idle_ticks) s.(kernel_ticks) s.(user_ticks) s.(ticks) s.(next_tid) s.(semas)
    s.(holders) m.

Abbreviation K := (st kst).

Definition kASSERT (c : bool) : K unit := lift (ASSERT c).

Definition get_thread (t : Z) : K thread :=
  m ← gets threads; lift (deref (m !! t)).
Definition put_thread (t : Z) (th : thread) : K unit :=
  m ← gets threads; modify (with_threads (<[t := th]> m)).

Definition set_status (th : thread) (x : thread_status) : thread :=
  mk_thread th.(tid) x th.(name) th.(stack) th.(priority) th.(next_fd) th.(pagedir)
    th.(t_magic) th.(frames).
Definition set_frames (th : thread) (l : list frame) : thread :=
  mk_thread th.(tid) th.(status) th.(name) th.(stack) th.(priority) th.(next_fd)
    th.(pagedir) th.(t_magic) l.

(** ** Interrupt level *)

Definition intr_get_level : K bool := gets intr_on.
Definition intr_context : K bool := gets in_external_intr.

Definition intr_enable : K bool :=
  old ← intr_get_level;
  ctx ← intr_context;
  kASSERT (negb ctx);;
  modify (with_intr true);;
  mret old.

Definition intr_disable : K bool :=
  old ← intr_get_level;
  modify (with_intr false);;
  mret old.

Definition intr_set_level (level : bool) : K bool :=
  if level then intr_enable else intr_disable.

Definition intr_yield_on_return : K unit :=
  ctx ← intr_context;
  kASSERT ctx;;
  modify (with_external true true).

(** ** Threads *)

Definition THREAD_MAGIC : Z := 3446325067.
Definition TIME_SLICE : Z := 4.
Definition PRI_MIN : Z := 0.
Definition PRI_DEFAULT : Z := 31.
Definition PRI_MAX : Z := 63.
Definition TID_ERROR : Z := -1.

(** The thread whose page the stack pointer is in. *)
Definition running_thread : K Z := gets running.

Definition is_thread (t : Z) : K bool :=
  if t =? NULL then mret false
  else th ← get_thread t; mret (th.(t_magic) =? THREAD_MAGIC).

Definition thread_current : K Z :=
  t ← running_thread;
  ok ← is_thread t;
  kASSERT ok;;
  th ← get_thread t;
  kASSERT (bool_decide (th.(status) = THREAD_RUNNING));;
  mret t.

Definition push_frame (f : frame) : K unit :=
  t ← running_thread;
  th ← get_thread t;
  put_thread t (set_frames th (f :: th.(frames))).

Definition next_thread_to_run : K Z :=
  l ← gets ready_list;
  match l with
  | [] => gets idle_thread
  | t :: l => modify (with_ready l);; mret t
  end.

(** Runs on the stack of the thread switched to.  Activating its page tables
    changes nothing here; a dying thread's page is freed. *)
Definition thread_schedule_tail (prev : Z) : K unit :=
  cur ← running_thread;
  level ← intr_get_level;
  kASSERT (negb level);;
  th ← get_thread cur;
  put_thread cur (set_status th THREAD_RUNNING);;
  modify (λ s, with_ticks 0 s.(idle_ticks) s.(kernel_ticks) s.(user_ticks) s.(ticks) s);;
  if prev =? NULL then mret tt
  else
    p ← get_thread prev;
    init ← gets initial_thread;
    if bool_decide (p.(status) = THREAD_DYING) && negb (prev =? init) then
      kASSERT (negb (prev =? cur));;
      m ← gets threads;
      modify (with_threads (delete prev m))
    else mret tt.

Definition schedule : K unit :=
  cur ← running_thread;
  next ← next_thread_to_run;
  level ← intr_get_level;
  kASSERT (negb level);;
  th ← get_thread cur;
  kASSERT (bool_decide (th.(status) ≠ THREAD_RUNNING));;
  ok ← is_thread next;
  kASSERT ok;;
  if negb (cur =? next) then
    modify (with_running next);;
    thread_schedule_tail cur
  else thread_schedule_tail NULL.

Definition thread_block : K unit :=
  ctx ← intr_context;
  kASSERT (negb ctx);;
  level ← intr_get_level;
  kASSERT (negb level);;
  t ← thread_current;
  th ← get_thread t;
  put_thread t (set_status th THREAD_BLOCKED);;
  schedule.

Definition thread_unblock (t : Z) : K unit :=
  ok ← is_thread t;
  kASSERT ok;;
  old_level ← intr_disable;
  th ← get_thread t;
  kASSERT (bool_decide (th.(status) = THREAD_BLOCKED));;
  l ← gets ready_list;
  modify (with_ready (l ++ [t]));;
  put_thread t (set_status th THREAD_READY);;
  intr_set_level old_level;;
  mret tt.

Definition thread_yield : K unit :=
  cur ← thread_current;
  ctx ← intr_context;
  kASSERT (negb ctx);;
  old_level ← intr_disable;
  idle ← gets idle_thread;
  when (negb (cur =? idle))
    (l ← gets ready_list; modify (with_ready (l ++ [cur])));;
  push_frame (FYield old_level);;
  th ← get_thread cur;
  put_thread cur (set_status th THREAD_READY);;
  schedule.

(** thread_exit() after process_exit(). *)
Definition thread_exit : K unit :=
  ctx ← intr_context;
  kASSERT (negb ctx);;
  intr_disable;;
  cur ← thread_current;
  l ← gets all_list;
  lift (if bool_decide (cur ∈ l) then Ok tt else Wild);;
  modify (with_all (List.filter (λ q, negb (q =? cur)) l));;
  th ← get_thread cur;
  put_thread cur (set_status th THREAD_DYING);;
  schedule.

(** The zeroed page with the fields set; the name is cut to 15 characters. *)
Definition init_thread (t : Z) (nm : list Z) (prio : Z) : K unit :=
  kASSERT (negb (t =? NULL));;
  kASSERT ((PRI_MIN <=? prio) && (prio <=? PRI_MAX));;
  put_thread t (mk_thread 0 THREAD_BLOCKED (take 15 nm) (t + PGSIZE) prio 2 NULL
                  THREAD_MAGIC []);;
  old_level ← intr_disable;
  l ← gets all_list;
  modify (with_all (l ++ [t]));;
  intr_set_level old_level;;
  mret tt.

(** next_tid is only touched under tid_lock: the critical section is one step. *)
Definition allocate_tid : K Z :=
  n ← gets next_tid;
  modify (with_tid (i32 (n + 1)));;
  mret n.

(** alloc_frame() for each of the three frames that thread_create() builds, of
    12, 4 and 28 bytes. *)
Definition alloc_frame (t size : Z) : K Z :=
  ok ← is_thread t;
  kASSERT ok;;
  kASSERT (size mod 4 =? 0);;
  th ← get_thread t;
  put_thread t (mk_thread th.(tid) th.(status) th.(name) (th.(stack) - size)
                  th.(priority) th.(next_fd) th.(pagedir) th.(t_magic) th.(frames));;
  mret (th.(stack) - size).

(** thread_create() of a thread function that is not null; [page] is what
    palloc_get_page() returned. *)
Definition thread_create (page : Z) (nm : list Z) (prio : Z) : K Z :=
  if page =? NULL then mret TID_ERROR
  else
    init_thread page nm prio;;
    n ← allocate_tid;
    th ← get_thread page;
    put_thread page (mk_thread n th.(status) th.(name) th.(stack) th.(priority)
                       th.(next_fd) th.(pagedir) th.(t_magic) [FStart]);;
    alloc_frame page 12;;
    alloc_frame page 4;;
    alloc_frame page 28;;
    thread_unblock page;;
    mret n.

Definition thread_tick : K unit :=
  t ← thread_current;
  idle ← gets idle_thread;
  th ← get_thread t;
  modify (λ s,
    if t =? idle then
      with_ticks s.(thread_ticks) (i64 (s.(idle_ticks) + 1)) s.(kernel_ticks) s.(user_ticks)
        s.(ticks) s
    else if negb (th.(pagedir) =? NULL) then
      with_ticks s.(thread_ticks) s.(idle_ticks) s.(kernel_ticks) (i64 (s.(user_ticks) + 1))
        s.(ticks) s
    else
      with_ticks s.(thread_ticks) s.(idle_ticks) (i64 (s.(kernel_ticks) + 1)) s.(user_ticks)
        s.(ticks) s);;
  modify (λ s, with_ticks (u32 (s.(thread_ticks) + 1)) s.(idle_ticks) s.(kernel_ticks)
                 s.(user_ticks) s.(ticks) s);;
  n ← gets thread_ticks;
  when (TIME_SLICE <=? n) intr_yield_on_return.

(** timer_interrupt() of devices/timer.c. *)
Definition timer_interrupt : K unit :=
  modify (λ s, with_ticks s.(thread_ticks) s.(idle_ticks) s.(kernel_ticks) s.(user_ticks)
                 (i64 (s.(ticks) + 1)) s);;
  thread_tick.

(** intr_handler() for the external interrupt whose handler is given.  The
    processor has turned interrupts off on entry; FIret stands for the return
    from the interrupt, which turns them on again. *)
Definition intr_handler (handler : K unit) : K unit :=
  modify (with_intr false);;
  push_frame FIret;;
  level ← intr_get_level;
  kASSERT (negb level);;
  ctx ← intr_context;
  kASSERT (negb ctx);;
  modify (with_external true false);;
  handler;;
  level ← intr_get_level;
  kASSERT (negb level);;
  ctx ← intr_context;
  kASSERT ctx;;
  y ← gets yield_on_return;
  modify (with_external false y);;
  when y thread_yield.

(** idle(), from the point where its loop starts. *)
Definition idle_step : K unit :=
  intr_disable;;
  push_frame FHalt;;
  thread_block.

Definition thread_set_priority (new_priority : Z) : K unit :=
  t ← thread_current;
  th ← get_thread t;
  put_thread t (mk_thread th.(tid) th.(status) th.(name) th.(stack) new_priority
                  th.(next_fd) th.(pagedir) th.(t_magic) th.(frames)).

Definition thread_get_priority : K Z :=
  t ← thread_current; th ← get_thread t; mret th.(priority).

Definition thread_tid : K Z :=
  t ← thread_current; th ← get_thread t; mret th.(tid).

Definition thread_name : K (list Z) :=
  t ← thread_current; th ← get_thread t; mret th.(name).
