(* ===== verification/Synch.v ===== *)
(** * Synchronisation: threads/synch.c, and the interleaving of threads

    Semaphores, locks and condition variables over the scheduler of Thread.v.
    A step of the machine is one of: the running thread continues a function it
    has not finished ([resume]), it calls a kernel function, or a timer
    interrupt arrives.  Between two steps with interrupts on, another thread may
    run; what the code does with interrupts off is one step. *)

From S2P Require Import Prelude Vaddr Thread.

Open Scope Z_scope.

(** ** Definitions *)

Definition get_sema (x : sid) : K semaphore :=
  m ← gets semas; lift (deref (m !! x)).
Definition put_sema (x : sid) (v : semaphore) : K unit :=
  m ← gets semas; modify (with_semas (<[x := v]> m)).

Definition sema_init (x : sid) (v : Z) : K unit := put_sema x (mk_sema v []).

(** The loop of sema_down(), entered with interrupts off: the frame stays while
    the thread sleeps. *)
Definition sema_down_loop (x : sid) (old_level : bool) (rest : list frame) : K unit :=
  v ← get_sema x;
  if v.(value) =? 0 then
    t ← thread_current;
    put_sema x (mk_sema v.(value) (v.(waiters) ++ [t]));;
    thread_block
  else
    put_sema x (mk_sema (u32 (v.(value) - 1)) v.(waiters));;
    t ← running_thread;
    th ← get_thread t;
    put_thread t (set_frames th rest);;
    intr_set_level old_level;;
    mret tt.

Definition sema_down (x : sid) : K unit :=
  ctx ← intr_context;
  kASSERT (negb ctx);;
  old_level ← intr_disable;
  push_frame (FDown x old_level).

Definition sema_try_down (x : sid) : K bool :=
  old_level ← intr_disable;
  v ← get_sema x;
  success ←
    (if 0 <? v.(value) then
       put_sema x (mk_sema (u32 (v.(value) - 1)) v.(waiters));; mret true
     else mret false);
  intr_set_level old_level;;
  mret success.

Definition sema_up (x : sid) : K unit :=
  old_level ← intr_disable;
  v ← get_sema x;
  match v.(waiters) with
  | [] => mret tt
  | t :: l => put_sema x (mk_sema v.(value) l);; thread_unblock t
  end;;
  v ← get_sema x;
  put_sema x (mk_sema (u32 (v.(value) + 1)) v.(waiters));;
  intr_set_level old_level;;
  mret tt.

Definition holder (l : Z) : K Z :=
  m ← gets holders; lift (deref (m !! l)).
Definition set_holder (l t : Z) : K unit :=
  m ← gets holders; lift (deref (m !! l));; modify (with_holders (<[l := t]> m)).

Definition lock_init (l : Z) : K unit :=
  m ← gets holders;
  modify (with_holders (<[l := NULL]> m));;
  sema_init (SLock l) 1.

Definition lock_held_by_current_thread (l : Z) : K bool :=
  h ← holder l;
  t ← thread_current;
  mret (h =? t).

Definition lock_acquire (l : Z) : K unit :=
  ctx ← intr_context;
  kASSERT (negb ctx);;
  held ← lock_held_by_current_thread l;
  kASSERT (negb held);;
  push_frame (FHolder l);;
  sema_down (SLock l).

Definition lock_try_acquire (l : Z) : K bool :=
  held ← lock_held_by_current_thread l;
  kASSERT (negb held);;
  success ← sema_try_down (SLock l);
  when success (push_frame (FHolder l));;
  mret success.

Definition lock_release (l : Z) : K unit :=
  held ← lock_held_by_current_thread l;
  kASSERT held;;
  set_holder l NULL;;
  push_frame (FUp (SLock l)).

Definition get_cond (c : Z) : K (list Z) :=
  m ← gets conds; lift (deref (m !! c)).
Definition put_cond (c : Z) (l : list Z) : K unit :=
  m ← gets conds; modify (with_conds (<[c := l]> m)).

Definition cond_init (c : Z) : K unit := put_cond c [].

Definition cond_wait (c l : Z) : K unit :=
  ctx ← intr_context;
  kASSERT (negb ctx);;
  held ← lock_held_by_current_thread l;
  kASSERT held;;
  t ← thread_current;
  sema_init (SWaiter t) 0;;
  w ← get_cond c;
  put_cond c (w ++ [t]);;
  push_frame (FAcquire l);;
  push_frame (FDownCall t);;
  lock_release l.

Definition cond_signal (c l : Z) : K unit :=
  ctx ← intr_context;
  kASSERT (negb ctx);;
  held ← lock_held_by_current_thread l;
  kASSERT held;;
  w ← get_cond c;
  match w with
  | [] => mret tt
  | t :: w => put_cond c w;; sema_up (SWaiter t)
  end.

(** Each call of cond_signal() takes one waiter off the list. *)
Definition cond_broadcast (c l : Z) : K unit :=
  w ← get_cond c;
  loop_st (S (length w)) (λ _ : unit,
    w ← get_cond c;
    match w with
    | [] => mret (inr tt)
    | _ => cond_signal c l;; mret (inl tt)
    end) tt.

(** The running thread continues its innermost unfinished function. *)
Definition resume : K unit :=
  t ← running_thread;
  th ← get_thread t;
  match th.(frames) with
  | [] => mret tt
  | f :: rest =>
      match f with
      | FDown x old => sema_down_loop x old rest
      | _ =>
          put_thread t (set_frames th rest);;
          match f with
          | FStart => intr_enable;; mret tt
          | FYield old => intr_set_level old;; mret tt
          | FIret => modify (with_intr true)
          | FIdle => idle_step
          | FHalt => modify (with_intr true);; push_frame FIdle
          | FHolder l => cur ← thread_current; set_holder l cur
          | FUp x => sema_up x
          | FDownCall w => sema_down (SWaiter w)
          | FAcquire l => lock_acquire l
          | FDown _ _ => mret tt
          end
      end
  end.

(** Calls that a thread makes when it has finished all others.  Semaphores
    inside locks and of condition variables are private to this file. *)
Inductive op :=
| OpDown (n : Z) | OpTryDown (n : Z) | OpUp (n : Z)
| OpAcquire (l : Z) | OpTryAcquire (l : Z) | OpRelease (l : Z)
| OpWait (c l : Z) | OpSignal (c l : Z) | OpBroadcast (c l : Z)
| OpYield | OpExit | OpCreate (page : Z) (nm : list Z) (prio : Z).

Definition run_op (o : op) : K unit :=
  match o with
  | OpDown n => sema_down (SUser n)
  | OpTryDown n => sema_try_down (SUser n);; mret tt
  | OpUp n => sema_up (SUser n)
  | OpAcquire l => lock_acquire l
  | OpTryAcquire l => lock_try_acquire l;; mret tt
  | OpRelease l => lock_release l
  | OpWait c l => cond_wait c l
  | OpSignal c l => cond_signal c l
  | OpBroadcast c l => cond_broadcast c l
  | OpYield => thread_yield
  | OpExit => thread_exit
  | OpCreate page nm prio => thread_create page nm prio;; mret tt
  end.

Definition busy (s : kst) : bool :=
  match s.(threads) !! s.(running) with
  | Some th => negb (bool_decide (th.(frames) = []))
  | None => false
  end.

(** palloc_get_page() returns a page that no thread occupies. *)
Definition fresh_page (o : op) (s : kst) : Prop :=
  match o with OpCreate page _ _ => s.(threads) !! page = None | _ => True end.

Inductive step : kst → kst → Prop :=
| step_resume s s' : busy s = true → resume s = Ok (tt, s') → step s s'
| step_call s o s' :
    busy s = false → s.(intr_on) = true → fresh_page o s → run_op o s = Ok (tt, s') →
    step s s'
| step_timer s s' :
    s.(intr_on) = true → intr_handler timer_interrupt s = Ok (tt, s') → step s s'.

(** ** What the scheduler leaves alone *)

(** The frames of every thread. *)
Definition fr (s : kst) : gmap Z (list frame) := frames <$> s.(threads).
Arguments fr _ : simpl never.

(** The part of the state that locks are about. *)
Definition same_locks (s s' : kst) : Prop :=
  fr s' = fr s ∧ s'.(semas) = s.(semas) ∧ s'.(holders) = s.(holders) ∧
  s'.(conds) = s.(conds).

Definition keeps {A} (m : K A) : Prop :=
  ∀ s a s', m s = Ok (a, s') → same_locks s s'.

#[export] Instance same_locks_preorder : PreOrder same_locks.
Proof.
  split; [by intros s|]. intros s1 s2 s3 (? & ? & ? & ?) (? & ? & ? & ?).
  unfold same_locks. repeat split; congruence.
Qed.

Lemma keeps_ret {A} (a : A) : keeps (mret a).
Proof. by intros s x s' [= <- <-]. Qed.

Lemma keeps_bind {A B} (m : K A) (f : A → K B) :
  keeps m → (∀ a, keeps (f a)) → keeps (m ≫= f).
Proof.
  intros Hm Hf s b s' H. apply run_bind_inv in H as (a & s1 & H1 & H2).
  etrans; [by eapply Hm|by eapply Hf].
Qed.

Lemma keeps_gets {A} (g : kst → A) : keeps (gets g).
Proof. by intros s a s' [= <- <-]. Qed.

Lemma keeps_lift {A} (m : outcome A) : keeps (lift m).
Proof. intros s a s' H. unfold lift in H. by destruct m; simplify_eq/=. Qed.

Lemma keeps_modify g : (∀ s, same_locks s (g s)) → keeps (modify g).
Proof. intros H s [] s' [= <-]. apply H. Qed.

Lemma keeps_when c m : keeps m → keeps (when c m).
Proof. intros H. destruct c; [done|apply keeps_ret]. Qed.

(** Replacing a thread by one with the same frames. *)
Lemma keeps_update t (g : thread → thread) :
  (∀ th, frames (g th) = frames th) →
  keeps (th ← get_thread t; put_thread t (g th)).
Proof.
  intros Hg s [] s' H. apply run_bind_inv in H as (th & s1 & H1 & H2).
  unfold get_thread in H1. rewrite run_gets in H1. unfold lift in H1.
  destruct (threads s !! t) as [th'|] eqn:E; simplify_eq/=.
  unfold put_thread in H2. rewrite run_gets in H2. injection H2 as <-.
  split; [|done]. unfold fr; cbn. rewrite fmap_insert, Hg.
  apply insert_id. by rewrite lookup_fmap, E.
Qed.

Lemma st_bind_assoc {S A B C} (m : st S A) (f : A → st S B) (g : B → st S C) s :
  ((m ≫= f) ≫= g) s = (m ≫= λ a, f a ≫= g) s.
Proof. unfold mbind, st_bind. by destruct (m s) as [[]| | |]. Qed.

(** The same, followed by more. *)
Lemma keeps_update_bind {A} t (g : thread → thread) (k : K A) :
  (∀ th, frames (g th) = frames th) → keeps k →
  keeps (th ← get_thread t; put_thread t (g th);; k).
Proof.
  intros Hg Hk s a s' H.
  assert (H' : ((th ← get_thread t; put_thread t (g th)) ;; k) s = Ok (a, s')).
  { rewrite st_bind_assoc. exact H. }
  revert H'. apply keeps_bind; [by apply keeps_update|by intros []].
Qed.

Ltac keeps_tac :=
  repeat first
    [ apply keeps_ret | apply keeps_gets | apply keeps_lift
    | apply keeps_modify; intros; by repeat split
    | apply keeps_when
    | apply keeps_update; done
    | apply keeps_update_bind; [done|]
    | progress (unfold kASSERT)
    | apply keeps_bind; [|intros ?] 
    | case_match ].

Lemma keeps_intr_enable : keeps intr_enable.
Proof. unfold intr_enable, intr_get_level, intr_context. keeps_tac. Qed.
Lemma keeps_intr_disable : keeps intr_disable.
Proof. unfold intr_disable, intr_get_level. keeps_tac. Qed.
Lemma keeps_intr_set_level b : keeps (intr_set_level b).
Proof. destruct b; [apply keeps_intr_enable|apply keeps_intr_disable]. Qed.
Lemma keeps_get_thread t : keeps (get_thread t).
Proof. unfold get_thread. keeps_tac. Qed.
Lemma keeps_is_thread t : keeps (is_thread t).
Proof. unfold is_thread, get_thread. keeps_tac. Qed.
Lemma keeps_thread_current : keeps thread_current.
Proof. unfold thread_current, running_thread, is_thread, get_thread. keeps_tac. Qed.
Lemma keeps_next : keeps next_thread_to_run.
Proof. unfold next_thread_to_run. keeps_tac. Qed.

(** Taking a successful run apart. *)
Ltac run_inv H :=
  lazymatch type of H with
  | (gets _ ≫= _) _ = _ => rewrite run_gets in H; cbn beta in H
  | (modify _ ≫= _) _ = _ => rewrite run_modify in H; cbn beta in H
  | (_ ≫= _) _ = _ =>
      let a := fresh "a" in let s := fresh "s" in let H1 := fresh "R" in
      apply run_bind_inv in H as (a & s & H1 & H)
  end.

(** Case analysis on the list that a run matches on. *)
Ltac case_list H :=
  lazymatch type of H with context [match ?w with [] => _ | _ => _ end] => destruct w end.

Lemma get_thread_inv t s th s' :
  get_thread t s = Ok (th, s') → s' = s ∧ s.(threads) !! t = Some th.
Proof.
  unfold get_thread. rewrite run_gets. unfold lift.
  destruct (threads s !! t) as [x|]; simpl; [|done]. by intros [= <- <-].
Qed.

Lemma lift_inv {A} (m : outcome A) (s : kst) a s' : lift m s = Ok (a, s') → s' = s ∧ m = Ok a.
Proof. unfold lift. by destruct m; simpl; intros; simplify_eq. Qed.

Lemma kASSERT_inv c s u s' : kASSERT c s = Ok (u, s') → s' = s ∧ c = true.
Proof. intros [-> H]%lift_inv. split; [done|]. by apply ASSERT_Ok in H. Qed.

Lemma put_thread_inv t th s u s' :
  put_thread t th s = Ok (u, s') → s' = with_threads (<[t := th]> s.(threads)) s.
Proof. by intros [= <- <-]. Qed.

Lemma is_thread_inv t s b s' : is_thread t s = Ok (b, s') → s' = s.
Proof.
  unfold is_thread. destruct (t =? NULL); [by intros [= <- <-]|]. intros H. run_inv H.
  apply get_thread_inv in R as [-> _]. by injection H as <- <-.
Qed.

Lemma is_thread_null t s s' : is_thread t s = Ok (true, s') → t ≠ NULL.
Proof. by intros H ->. Qed.

Lemma thread_current_inv s t s' :
  thread_current s = Ok (t, s') →
  s' = s ∧ t = s.(running) ∧
  ∃ th, s.(threads) !! t = Some th ∧ th.(status) = THREAD_RUNNING ∧ t ≠ NULL.
Proof.
  unfold thread_current, running_thread. intros H. run_inv H.
  apply run_bind_inv in H as (ok & s0 & Hok & H).
  pose proof (is_thread_inv _ _ _ _ Hok) as ->. run_inv H. apply kASSERT_inv in R as [-> ->].
  apply is_thread_null in Hok.
  run_inv H. apply get_thread_inv in R as [-> Hth]. run_inv H.
  apply kASSERT_inv in R as [-> Hs%bool_decide_eq_true]. injection H as <- <-. eauto 6.
Qed.

Lemma push_frame_inv f s u s' :
  push_frame f s = Ok (u, s') → ∃ th, s.(threads) !! s.(running) = Some th ∧
    s' = with_threads (<[s.(running) := set_frames th (f :: th.(frames))]> s.(threads)) s.
Proof.
  unfold push_frame, running_thread. intros H. run_inv H. run_inv H.
  apply get_thread_inv in R as [-> Hth]. apply put_thread_inv in H as ->. eauto.
Qed.

(** What a switch may do to the locks: at most lose the frames of a dying
    thread. *)
Definition switch_locks (t : Z) (s s' : kst) : Prop :=
  s'.(semas) = s.(semas) ∧ s'.(holders) = s.(holders) ∧ s'.(conds) = s.(conds) ∧
  (fr s' = fr s ∨
   t ≠ NULL ∧ fr s' = delete t (fr s) ∧ ∃ th, s.(threads) !! t = Some th ∧ th.(status) = THREAD_DYING).

Lemma tail_switch prev s u s' :
  thread_schedule_tail prev s = Ok (u, s') → switch_locks prev s s'.
Proof.
  unfold thread_schedule_tail, running_thread. intros H. run_inv H. run_inv H.
  injection R as <- <-. run_inv H. apply kASSERT_inv in R as [-> _].
  run_inv H. apply get_thread_inv in R as [-> Hcur]. run_inv H. apply put_thread_inv in R as ->.
  rewrite run_modify in H.
  assert (Hfr : frames <$> <[running s := set_status a0 THREAD_RUNNING]> (threads s) =
                frames <$> threads s).
  { rewrite fmap_insert. apply insert_id. by rewrite lookup_fmap, Hcur. }
  destruct (Z.eqb_spec prev NULL) as [|Hnn]; [by injection H as <- <-; repeat split; left|].
  run_inv H. apply get_thread_inv in R as [-> Hp]. cbn in Hp. run_inv H.
  destruct (bool_decide _ && _) eqn:Hdy; cycle 1; [by injection H as <- <-; repeat split; left|].
  run_inv H. apply kASSERT_inv in R as [-> Hne%negb_true_iff%Z.eqb_neq].
  injection H as <- <-. repeat split. right. cbn in Hp.
  rewrite lookup_insert_ne in Hp by done.
  split; [done|].
  split; [unfold fr; cbn; by rewrite fmap_delete, Hfr|]. exists a2. split; [done|].
  by apply andb_prop in Hdy as [?%bool_decide_eq_true _].
Qed.

Lemma schedule_switch s u s' : schedule s = Ok (u, s') → switch_locks s.(running) s s'.
Proof.
  unfold schedule, running_thread. intros H. run_inv H. run_inv H.
  pose proof (keeps_next _ _ _ R) as (K1 & K2 & K3 & K4).
  assert (Hth : threads s0 = threads s).
  { revert R. unfold next_thread_to_run. intros R. run_inv R. destruct (ready_list s).
    - by injection R as <- <-.
    - rewrite run_modify in R. by injection R as <- <-. }
  run_inv H. injection R0 as <- <-. run_inv H. apply kASSERT_inv in R0 as [-> _].
  run_inv H. apply get_thread_inv in R0 as [-> Hcur]. run_inv H.
  apply kASSERT_inv in R0 as [-> _]. run_inv H. apply is_thread_inv in R0 as ->.
  run_inv H. apply kASSERT_inv in R0 as [-> _].
  assert (Hgo : ∀ s1, threads s1 = threads s0 → semas s1 = semas s0 → holders s1 = holders s0 →
    conds s1 = conds s0 → switch_locks (running s) s1 s' → switch_locks (running s) s s').
  { intros s1 E1 E2 E3 E4 (H1 & H2 & H3 & H4). unfold switch_locks, fr in *.
    rewrite E1, Hth in H4. repeat split; congruence || done. }
  destruct (running s =? a); cbn [negb] in H.
  - apply (Hgo s0); [done..|]. apply tail_switch in H as (H1 & H2 & H3 & [H4|[H4 _]]); [|done].
    repeat split; [done..|by left].
  - rewrite run_modify in H. eapply Hgo; [..|by eapply tail_switch]; done.
Qed.

Lemma keeps_unblock t : keeps (thread_unblock t).
Proof.
  intros s u s' H. unfold thread_unblock in H. run_inv H. apply is_thread_inv in R as ->.
  run_inv H. apply kASSERT_inv in R as [-> _]. run_inv H.
  pose proof (keeps_intr_disable _ _ _ R) as HK.
  run_inv H. apply get_thread_inv in R0 as [-> Hth]. run_inv H. apply kASSERT_inv in R0 as [-> _].
  rewrite run_gets, run_modify in H. run_inv H. apply put_thread_inv in R0 as ->.
  run_inv H. apply keeps_intr_set_level in R0. injection H as <- <-.
  etrans; [exact HK|]. etrans; [|exact R0]. repeat split. unfold fr; cbn.
  rewrite fmap_insert. apply insert_id. by rewrite lookup_fmap, Hth.
Qed.

(** A switch away from a thread that is not dying. *)
Lemma schedule_keeps s u s' th :
  schedule s = Ok (u, s') → s.(threads) !! s.(running) = Some th →
  th.(status) ≠ THREAD_DYING → same_locks s s'.
Proof.
  intros H Hth Hst. apply schedule_switch in H as (H1 & H2 & H3 & [H4|(_ & _ & th' & Hth' & Hd)]).
  - by repeat split.
  - congruence.
Qed.

Lemma keeps_block : keeps thread_block.
Proof.
  intros s u s' H. unfold thread_block in H. run_inv H. injection R as <- <-.
  run_inv H. apply kASSERT_inv in R as [-> _]. run_inv H. injection R as <- <-.
  run_inv H. apply kASSERT_inv in R as [-> _].
  run_inv H. apply thread_current_inv in R as (-> & -> & _).
  run_inv H. apply get_thread_inv in R as [-> Hth]. run_inv H. apply put_thread_inv in R as ->.
  etrans; [|eapply (schedule_keeps _ _ _ _ H); [by apply lookup_insert_eq|done]].
  repeat split. unfold fr; cbn. rewrite fmap_insert. apply insert_id. by rewrite lookup_fmap, Hth.
Qed.

(** Only the frames of thread [t] change, to [fs]. *)
Definition set_fr (t : Z) (fs : list frame) (s s' : kst) : Prop :=
  fr s' = <[t := fs]> (fr s) ∧ s'.(semas) = s.(semas) ∧ s'.(holders) = s.(holders) ∧
  s'.(conds) = s.(conds).

Lemma set_fr_same t fs s1 s2 s3 : set_fr t fs s1 s2 → same_locks s2 s3 → set_fr t fs s1 s3.
Proof. intros (? & ? & ? & ?) (? & ? & ? & ?). unfold set_fr. repeat split; congruence. Qed.

Lemma same_set_fr t fs s1 s2 s3 : same_locks s1 s2 → set_fr t fs s2 s3 → set_fr t fs s1 s3.
Proof. intros (? & ? & ? & ?) (? & ? & ? & ?). unfold set_fr. repeat split; congruence. Qed.

Lemma set_fr_trans t fs fs' s1 s2 s3 :
  set_fr t fs s1 s2 → set_fr t fs' s2 s3 → set_fr t fs' s1 s3.
Proof.
  intros (E & ? & ? & ?) (E' & ? & ? & ?). unfold set_fr. rewrite E, insert_insert_eq in E'.
  repeat split; congruence.
Qed.

Lemma fr_lookup s t th : s.(threads) !! t = Some th → fr s !! t = Some th.(frames).
Proof. intros H. unfold fr. by rewrite lookup_fmap, H. Qed.

Lemma put_frames_fr t th fs s :
  s.(threads) !! t = Some th →
  set_fr t fs s (with_threads (<[t := set_frames th fs]> s.(threads)) s).
Proof. intros H. repeat split. unfold fr; cbn. by rewrite fmap_insert. Qed.

Lemma push_fr f s u s' :
  push_frame f s = Ok (u, s') → ∃ fs, fr s !! s.(running) = Some fs ∧
    set_fr s.(running) (f :: fs) s s' ∧ s'.(running) = s.(running).
Proof.
  intros (th & Hth & ->)%push_frame_inv. exists (frames th).
  split; [by apply fr_lookup|]. split; [by apply put_frames_fr|done].
Qed.

Lemma yield_fr s u s' :
  thread_yield s = Ok (u, s') → ∃ fs, fr s !! s.(running) = Some fs ∧
    set_fr s.(running) (FYield s.(intr_on) :: fs) s s'.
Proof.
  unfold thread_yield. intros H. run_inv H. apply thread_current_inv in R as (-> & -> & _).
  run_inv H. injection R as <- <-. run_inv H. apply kASSERT_inv in R as [-> _].
  run_inv H. injection R as <- <-. run_inv H. run_inv H.
  assert (HR : same_locks (with_intr false s) s0 ∧ running s0 = running s).
  { destruct (negb _); [|by injection R as _ <-]. unfold when in R. rewrite run_gets in R.
    by injection R as _ <-. }
  destruct HR as [HR Hrun]. run_inv H. apply push_frame_inv in R0 as (th & Hth & ->).
  run_inv H. apply get_thread_inv in R0 as [-> Hth2]. run_inv H. apply put_thread_inv in R0 as ->.
  rewrite Hrun in Hth. cbn in Hth2. rewrite Hrun, lookup_insert_eq in Hth2. injection Hth2 as <-.
  exists (frames th). split.
  { apply (fr_lookup) in Hth. destruct HR as [E _]. by rewrite <-Hth, E. }
  eapply (same_set_fr _ _ _ s0); [exact HR|].
  eapply set_fr_same; [|eapply (schedule_keeps _ _ _ _ H); [cbn; rewrite Hrun; by apply lookup_insert_eq|done]].
  repeat split. unfold fr; cbn. rewrite Hrun, insert_insert_eq, fmap_insert. done.
Qed.

Lemma keeps_thread_tick : keeps thread_tick.
Proof.
  unfold thread_tick. apply keeps_bind; [apply keeps_thread_current|intros t].
  apply keeps_bind; [apply keeps_gets|intros i]. apply keeps_bind; [apply keeps_get_thread|intros th].
  apply keeps_bind; [apply keeps_modify; intros s; by repeat case_match|intros _].
  unfold intr_yield_on_return, intr_context. keeps_tac.
Qed.

Lemma tick_running s u s' : timer_interrupt s = Ok (u, s') → s'.(running) = s.(running).
Proof.
  unfold timer_interrupt, thread_tick. intros H. rewrite run_modify in H. run_inv H.
  apply thread_current_inv in R as (-> & _). rewrite run_gets in H. run_inv H.
  apply get_thread_inv in R as [-> _]. rewrite !run_modify, run_gets in H.
  match type of H with when _ _ ?s1 = _ => assert (Hr : running s1 = running s) by
    by cbn; repeat case_match end.
  destruct (TIME_SLICE <=? _); unfold when in H; [|injection H as _ <-; exact Hr].
  unfold intr_yield_on_return, intr_context in H. rewrite run_gets in H. run_inv H.
  apply kASSERT_inv in R as [-> _]. injection H as _ <-. exact Hr.
Qed.

(** A timer interrupt pushes frames that have nothing to do with locks. *)
Lemma timer_fr s u s' :
  intr_handler timer_interrupt s = Ok (u, s') → ∃ fs, fr s !! s.(running) = Some fs ∧
    (set_fr s.(running) (FIret :: fs) s s' ∨
     ∃ b, set_fr s.(running) (FYield b :: FIret :: fs) s s').
Proof.
  unfold intr_handler. intros H. rewrite run_modify in H. run_inv H.
  apply push_fr in R as (fs & Hfs & Hset & Hrun). cbn in Hrun, Hfs.
  run_inv H. injection R as <- <-. run_inv H. apply kASSERT_inv in R as [-> _].
  run_inv H. injection R as <- <-. run_inv H. apply kASSERT_inv in R as [-> _].
  rewrite run_modify in H. run_inv H.
  assert (HR : same_locks s0 s1).
  { etrans; [|eapply keeps_bind; [..|exact R]]; [by repeat split|by apply keeps_modify|].
    intros ?. apply keeps_thread_tick. }
  pose proof (tick_running _ _ _ R) as Hrun1. cbn in Hrun1. clear R.
  run_inv H. injection R as <- <-. run_inv H. apply kASSERT_inv in R as [-> _].
  run_inv H. injection R as <- <-. run_inv H. apply kASSERT_inv in R as [-> _].
  rewrite run_gets, run_modify in H. exists fs. split; [exact Hfs|].
  assert (Hset1 : set_fr (running s) (FIret :: fs) s (with_external false (yield_on_return s1) s1)).
  { eapply set_fr_same; [exact Hset|]. etrans; [exact HR|]. by repeat split. }
  destruct (yield_on_return s1); unfold when in H; [right|left; by injection H as _ <-].
  apply yield_fr in H as (fs' & Hfs' & Hy). cbn in Hfs', Hy. rewrite Hrun1, Hrun in Hfs', Hy.
  destruct Hset1 as (E & _). rewrite E, lookup_insert_eq in Hfs'. injection Hfs' as <-.
  eexists. eapply set_fr_trans; [|exact Hy]. eapply set_fr_same; [exact Hset|].
  etrans; [exact HR|]. by repeat split.
Qed.

(** ** The token of a lock *)

(** How many units of lock [l] a pending function stands for: one between
    sema_down() and setting the holder, one between clearing the holder and
    sema_up(); an unfinished sema_down() takes its unit later. *)
Definition tokf (l : Z) (f : frame) : Z :=
  match f with
  | FHolder l' => if l =? l' then 1 else 0
  | FUp (SLock l') => if l =? l' then 1 else 0
  | FDown (SLock l') _ => if l =? l' then -1 else 0
  | _ => 0
  end.

Definition tok (l : Z) (fs : list frame) : Z := foldr (λ f n, tokf l f + n) 0 fs.

(** A sema_down() of a lock is always on behalf of its lock_acquire(). *)
Fixpoint wf_frames (fs : list frame) : Prop :=
  match fs with
  | [] => True
  | f :: rest =>
      wf_frames rest ∧
      match f with
      | FDown (SLock l) _ => head rest = Some (FHolder l)
      | _ => True
      end
  end.

Lemma tok_nonneg_aux l fs :
  wf_frames fs → 0 <= tok l fs ∧ (head fs = Some (FHolder l) → 1 <= tok l fs).
Proof.
  induction fs as [|f fs IH]; [by cbn; split; [lia|]|]. intros [Hwf Hf].
  destruct (IH Hwf) as [H0 H1]. cbn [tok foldr head]. fold (tok l fs). split.
  - destruct f; cbn [tokf]; try lia; try (destruct s); try lia; case_match; try lia.
    apply Z.eqb_eq in H as ->. specialize (H1 Hf). lia.
  - intros [= ->]. cbn [tokf]. rewrite Z.eqb_refl. lia.
Qed.

Lemma tok_nonneg l fs : wf_frames fs → 0 <= tok l fs.
Proof. intros H. by apply tok_nonneg_aux. Qed.

Definition total (g : list frame → Z) (m : gmap Z (list frame)) : Z :=
  map_fold (λ _ fs n, g fs + n) 0 m.

Lemma total_insert g m t fs :
  m !! t = None → total g (<[t := fs]> m) = g fs + total g m.
Proof.
  intros Hn. unfold total. rewrite map_fold_insert_L; [done| |done]. intros. lia.
Qed.

Lemma total_update g m t fs fs' :
  m !! t = Some fs → total g (<[t := fs']> m) = total g m - g fs + g fs'.
Proof.
  intros Hm. rewrite <-(insert_id m t fs) at 2 by done.
  rewrite <-!(insert_delete_eq m t).
  rewrite !total_insert by apply lookup_delete_eq. lia.
Qed.

Lemma total_delete g m t fs :
  m !! t = Some fs → total g (delete t m) = total g m - g fs.
Proof.
  intros Hm. rewrite <-(insert_id m t fs) at 2 by done. rewrite <-(insert_delete_eq m t).
  rewrite total_insert by apply lookup_delete_eq. lia.
Qed.

Lemma total_nonneg g m :
  map_Forall (λ _ fs, 0 <= g fs) m → 0 <= total g m.
Proof.
  induction m as [|t fs m Hn IH] using map_ind; [done|].
  intros H. apply map_Forall_insert in H as [H1 H2]; [|done]. rewrite total_insert by done.
  specialize (IH H2). lia.
Qed.

Lemma total_ge g m t fs :
  map_Forall (λ _ fs, 0 <= g fs) m → m !! t = Some fs → g fs <= total g m.
Proof.
  intros H Hm. pose proof (total_delete g m t fs Hm).
  pose proof (total_nonneg g (delete t m) (map_Forall_delete _ _ _ H)). lia.
Qed.

Definition held (h : Z) : Z := if h =? NULL then 0 else 1.

(** The lock invariant: of each lock there is one unit, which is in its
    semaphore, with its holder, or with a thread on its way in or out. *)
Definition lock_inv (s : kst) : Prop :=
  map_Forall (λ _ fs, wf_frames fs) (fr s) ∧
  ∀ l h, s.(holders) !! l = Some h →
    ∃ v, s.(semas) !! SLock l = Some v ∧ 0 <= v.(value) ∧
      v.(value) + held h + total (tok l) (fr s) = 1.

Lemma lock_inv_tok s l : lock_inv s → map_Forall (λ _ fs, 0 <= tok l fs) (fr s).
Proof. intros [H _]. eapply map_Forall_impl; [exact H|]. intros t fs. apply tok_nonneg. Qed.

Lemma lock_inv_same s s' : same_locks s s' → lock_inv s → lock_inv s'.
Proof. intros (E1 & E2 & E3 & _) [H1 H2]. split; [by rewrite E1|]. by rewrite E1, E2, E3. Qed.

(** Every step changes the frames of one thread, and the semaphore and holder of
    a lock, so that the sum stays. *)
Lemma lock_inv_change s s' t fs fs' :
  lock_inv s → fr s !! t = Some fs → fr s' = <[t := fs']> (fr s) → wf_frames fs' →
  (∀ l h', s'.(holders) !! l = Some h' → ∃ h v v',
     s.(holders) !! l = Some h ∧ s.(semas) !! SLock l = Some v ∧
     s'.(semas) !! SLock l = Some v' ∧ 0 <= v'.(value) ∧
     v'.(value) + held h' + tok l fs' = v.(value) + held h + tok l fs) →
  lock_inv s'.
Proof.
  intros [H1 H2] Hfs Hfr Hwf Hch. split.
  - rewrite Hfr. by apply map_Forall_insert_2.
  - intros l h' Hh'. destruct (Hch l h' Hh') as (h & v & v' & Hh & Hv & Hv' & Hpos & Hsum).
    exists v'. split; [done|]. split; [done|].
    destruct (H2 l h Hh) as (w & Hw & _ & Htot). assert (w = v) as -> by congruence.
    rewrite Hfr, (total_update _ _ _ fs) by done. lia.
Qed.

(** Frames that carry no token come and go freely. *)
Lemma lock_inv_frames s s' t fs fs' :
  lock_inv s → fr s !! t = Some fs → set_fr t fs' s s' → wf_frames fs' →
  (∀ l, tok l fs' = tok l fs) → lock_inv s'.
Proof.
  intros H Hfs (E1 & E2 & E3 & _) Hwf Htok. eapply lock_inv_change; eauto.
  intros l h' Hh'. rewrite E3 in Hh'. destruct H as [_ H2].
  destruct (H2 l h' Hh') as (v & Hv & Hpos & _). exists h', v, v. rewrite E2, Htok. done.
Qed.

Lemma wf_of s t fs : lock_inv s → fr s !! t = Some fs → wf_frames fs.
Proof. intros [H _] Hfs. by apply (H _ _ Hfs). Qed.

(** A thread with a token shows that the lock is not free. *)
Lemma lock_inv_bound s t fs l h v :
  lock_inv s → fr s !! t = Some fs → s.(holders) !! l = Some h →
  s.(semas) !! SLock l = Some v → v.(value) + held h + tok l fs <= 1 ∧ 0 <= v.(value).
Proof.
  intros Hinv Hfs Hh Hv. pose proof (total_ge _ _ _ _ (lock_inv_tok s l Hinv) Hfs).
  destruct Hinv as [_ H2]. destruct (H2 l h Hh) as (w & Hw & Hp & Hsum).
  assert (w = v) as -> by congruence. lia.
Qed.

Lemma lock_inv_sema s s' t fs fs' x v v' :
  lock_inv s → fr s !! t = Some fs → fr s' = <[t := fs']> (fr s) → wf_frames fs' →
  s.(semas) !! x = Some v → s'.(semas) = <[x := v']> s.(semas) →
  s'.(holders) = s.(holders) →
  (∀ l h, x = SLock l → s.(holders) !! l = Some h →
     0 <= v'.(value) ∧ v'.(value) + tok l fs' = v.(value) + tok l fs) →
  (∀ l, x ≠ SLock l → tok l fs' = tok l fs) →
  lock_inv s'.
Proof.
  intros Hinv Hfs Hfr Hwf Hv Hsem Hh Heq Hne. eapply lock_inv_change; eauto.
  intros l h Hl. rewrite Hh in Hl. pose proof Hinv as [_ H2].
  destruct (H2 l h Hl) as (w & Hw & Hpos & _).
  destruct (decide (x = SLock l)) as [->|Hx].
  - destruct (Heq l h eq_refl Hl) as [Hp He]. exists h, v, v'.
    rewrite Hsem, lookup_insert_eq. repeat split; try done. lia.
  - exists h, w, w. rewrite Hsem, lookup_insert_ne by done. rewrite (Hne l Hx). done.
Qed.

Lemma get_sema_inv x s v s' :
  get_sema x s = Ok (v, s') → s' = s ∧ s.(semas) !! x = Some v.
Proof.
  unfold get_sema. rewrite run_gets. intros [-> H]%lift_inv. split; [done|].
  by destruct (semas s !! x); simplify_eq/=.
Qed.

Lemma put_sema_inv x v s u s' :
  put_sema x v s = Ok (u, s') → s' = with_semas (<[x := v]> s.(semas)) s.
Proof. by intros [= <- <-]. Qed.

(** Only the semaphore [x] changes, to [v]. *)
Definition set_sema (x : sid) (v : semaphore) (s s' : kst) : Prop :=
  fr s' = fr s ∧ s'.(semas) = <[x := v]> s.(semas) ∧ s'.(holders) = s.(holders) ∧
  s'.(conds) = s.(conds).

Lemma sema_up_inv x s u s' :
  sema_up x s = Ok (u, s') → ∃ v, s.(semas) !! x = Some v ∧
    set_sema x (mk_sema (u32 (v.(value) + 1)) (tail v.(waiters))) s s'.
Proof.
  unfold sema_up. intros H. run_inv H. pose proof (keeps_intr_disable _ _ _ R) as HK. clear R.
  run_inv H. apply get_sema_inv in R as [-> Hv].
  destruct HK as (K1 & K2 & K3 & K4). exists a0. split; [by rewrite <-K2|].
  run_inv H.
  assert (HR : fr s1 = fr s0 ∧ holders s1 = holders s0 ∧ conds s1 = conds s0 ∧
    semas s1 = <[x := mk_sema (value a0) (tail (waiters a0))]> (semas s0)).
  { destruct (waiters a0) as [|t w] eqn:E.
    - injection R as _ <-. repeat split. cbn. rewrite <-E. symmetry. apply insert_id.
      by destruct a0.
    - run_inv R. apply put_sema_inv in R0 as ->. apply keeps_unblock in R as (U1 & U2 & U3 & U4).
      cbn in *. repeat split; done. }
  destruct HR as (R1 & R2 & R3 & R4).
  run_inv H. apply get_sema_inv in R0 as [-> Hv1]. run_inv H. apply put_sema_inv in R0 as ->.
  run_inv H. apply keeps_intr_set_level in R0 as (L1 & L2 & L3 & L4). injection H as _ <-.
  rewrite R4, lookup_insert_eq in Hv1. injection Hv1 as <-. cbn in *.
  unfold set_sema. rewrite L1, L2, L3, L4. cbn. rewrite R4, insert_insert_eq, R2, R3, K2, K3, K4.
  repeat split. transitivity (fr s1); [done|congruence].
Qed.

Lemma set_level_running b s u s' :
  intr_set_level b s = Ok (u, s') → s'.(running) = s.(running).
Proof.
  destruct b; [|by intros [= _ <-]].
  unfold intr_set_level, intr_enable, intr_get_level, intr_context.
  rewrite !run_gets. intros H. run_inv H. apply kASSERT_inv in R as [-> _].
  by injection H as _ <-.
Qed.

Lemma sema_try_down_inv x s b s' :
  sema_try_down x s = Ok (b, s') → ∃ v, s.(semas) !! x = Some v ∧
    s'.(running) = s.(running) ∧
    if b then 0 < v.(value) ∧ set_sema x (mk_sema (u32 (v.(value) - 1)) v.(waiters)) s s'
    else same_locks s s'.
Proof.
  unfold sema_try_down. intros H. run_inv H. injection R as <- <-.
  run_inv H. apply get_sema_inv in R as [-> Hv]. cbn in Hv. exists a. split; [done|].
  pose proof set_level_running as Hlev.
  run_inv H. run_inv H. destruct (Z.ltb_spec 0 (value a)) as [Hpos|Hz].
  - run_inv R. apply put_sema_inv in R1 as ->. injection R as <- <-.
    pose proof (Hlev _ _ _ _ R0) as Hr. apply keeps_intr_set_level in R0 as (L1 & L2 & L3 & L4).
    injection H as <- <-. split; [done|]. split; [done|]. unfold set_sema.
    rewrite L1, L2, L3, L4. done.
  - injection R as <- <-. pose proof (Hlev _ _ _ _ R0) as Hr. apply keeps_intr_set_level in R0.
    injection H as <- <-. split; [done|]. etrans; [|exact R0]. done.
Qed.

(** ** Every step keeps the lock invariant *)

Lemma sema_down_fr x s u s' :
  sema_down x s = Ok (u, s') → ∃ fs, fr s !! s.(running) = Some fs ∧
    set_fr s.(running) (FDown x s.(intr_on) :: fs) s s'.
Proof.
  unfold sema_down. intros H. run_inv H. injection R as <- <-.
  run_inv H. apply kASSERT_inv in R as [-> _]. run_inv H. injection R as <- <-.
  apply push_fr in H as (fs & Hfs & Hset & _). exists fs. split; [exact Hfs|].
  eapply same_set_fr; [|exact Hset]. done.
Qed.

Lemma held_inv l s b s' :
  lock_held_by_current_thread l s = Ok (b, s') →
  s' = s ∧ s.(running) ≠ NULL ∧ ∃ h, s.(holders) !! l = Some h ∧ b = (h =? s.(running)).
Proof.
  unfold lock_held_by_current_thread, holder. intros H. run_inv H. rewrite run_gets in R.
  apply lift_inv in R as [-> R]. run_inv H.
  apply thread_current_inv in R0 as (-> & -> & th & _ & _ & Hnn).
  injection H as <- <-. split; [done|]. split; [done|].
  destruct (holders s !! l); simplify_eq/=. eauto.
Qed.

Lemma lock_acquire_fr l s u s' :
  lock_acquire l s = Ok (u, s') → ∃ fs, fr s !! s.(running) = Some fs ∧
    set_fr s.(running) (FDown (SLock l) s.(intr_on) :: FHolder l :: fs) s s'.
Proof.
  unfold lock_acquire. intros H. run_inv H. injection R as <- <-.
  run_inv H. apply kASSERT_inv in R as [-> _]. run_inv H. apply held_inv in R as [-> _].
  run_inv H. apply kASSERT_inv in R as [-> _]. run_inv H.
  pose proof R as R'. apply push_frame_inv in R' as (th & _ & Hs0).
  apply push_fr in R as (fs & Hfs & Hset & Hrun).
  apply sema_down_fr in H as (fs' & Hfs' & Hset').
  exists fs. split; [done|]. rewrite Hrun in *.
  destruct Hset as (E & Hrest). rewrite E, lookup_insert_eq in Hfs'. injection Hfs' as <-.
  assert (intr_on s0 = intr_on s) as Hi by by rewrite Hs0. rewrite Hi in Hset'.
  eapply set_fr_trans; [split; [exact E|exact Hrest]|exact Hset'].
Qed.

Lemma lock_acquire_inv l s u s' :
  lock_inv s → lock_acquire l s = Ok (u, s') → lock_inv s'.
Proof.
  intros Hinv (fs & Hfs & Hset)%lock_acquire_fr. pose proof (wf_of _ _ _ Hinv Hfs).
  eapply lock_inv_frames; eauto; [done|]. intros l'. cbn. fold (tok l' fs). destruct (l' =? l); lia.
Qed.

(** Frames without a token. *)
Definition neutral (f : frame) : Prop :=
  match f with
  | FHolder _ | FUp (SLock _) | FDown (SLock _) _ => False
  | _ => True
  end.

Lemma neutral_tok f l : neutral f → tokf l f = 0.
Proof. by destruct f as [| | | | |[]| |[]| |]. Qed.

Lemma lock_inv_push f fs t s s' :
  lock_inv s → fr s !! t = Some fs → set_fr t (f :: fs) s s' → neutral f → lock_inv s'.
Proof.
  intros Hinv Hfs Hset Hn. pose proof (wf_of _ _ _ Hinv Hfs) as Hwf.
  eapply lock_inv_frames; eauto.
  - split; [done|]. by destruct f as [| | | | |[]| |[]| |].
  - intros l. cbn. rewrite neutral_tok by done. fold (tok l fs). lia.
Qed.

Lemma lock_inv_pop f fs t s s' :
  lock_inv s → fr s !! t = Some (f :: fs) → set_fr t fs s s' → neutral f → lock_inv s'.
Proof.
  intros Hinv Hfs Hset Hn. pose proof (wf_of _ _ _ Hinv Hfs) as [Hwf _].
  eapply lock_inv_frames; eauto. intros l. cbn. rewrite neutral_tok by done. fold (tok l fs). lia.
Qed.

Lemma set_holder_inv l t s u s' :
  set_holder l t s = Ok (u, s') →
  ∃ h, s.(holders) !! l = Some h ∧ s' = with_holders (<[l := t]> s.(holders)) s.
Proof.
  unfold set_holder. rewrite run_gets. intros H. run_inv H. apply lift_inv in R as [-> R].
  injection H as _ <-. destruct (holders s !! l); simplify_eq/=. eauto.
Qed.

(** lock_release() moves the token from the holder to the pending sema_up(). *)
Lemma lock_release_inv l s u s' :
  lock_inv s → lock_release l s = Ok (u, s') → lock_inv s'.
Proof.
  unfold lock_release. intros Hinv H. run_inv H. apply held_inv in R as (-> & Hnn & h & Hh & ->).
  run_inv H. apply kASSERT_inv in R as [-> Hc%Z.eqb_eq]. subst h.
  run_inv H. apply set_holder_inv in R as (hh & _ & ->).
  apply push_fr in H as (fs & Hfs & (E1 & E2 & E3 & _) & _). cbn in *.
  change (fr (with_holders _ s)) with (fr s) in Hfs, E1.
  pose proof (wf_of _ _ _ Hinv Hfs) as Hwf.
  eapply lock_inv_change; eauto; [done|]. intros l' h'. rewrite E3, E2. cbn.
  intros [[<- <-]|[Hne Hl']]%lookup_insert_Some.
  - destruct Hinv as [_ H2]. destruct (H2 l _ Hh) as (v & Hv & Hp & _).
    exists (running s), v, v. repeat split; try done. cbn. rewrite Z.eqb_refl.
    unfold held. rewrite (proj2 (Z.eqb_neq _ _)) by done. fold (tok l fs). cbn. lia.
  - destruct Hinv as [_ H2]. destruct (H2 l' _ Hl') as (v & Hv & Hp & _).
    exists h', v, v. repeat split; try done. cbn. rewrite (proj2 (Z.eqb_neq _ _)) by done.
    fold (tok l' fs). lia.
Qed.

Lemma lock_inv_set_sema x v s s' :
  lock_inv s → fr s' = fr s → s'.(semas) = <[x := v]> s.(semas) →
  s'.(holders) = s.(holders) → (∀ l, x ≠ SLock l) → lock_inv s'.
Proof.
  intros [H1 H2] E1 E2 E3 Hx. split; [by rewrite E1|].
  intros l h. rewrite E3, E2, E1. intros Hl. rewrite lookup_insert_ne by done. by apply H2.
Qed.

Lemma try_acquire_inv l s u s' :
  lock_inv s → lock_try_acquire l s = Ok (u, s') → lock_inv s'.
Proof.
  unfold lock_try_acquire. intros Hinv H. run_inv H. apply held_inv in R as (-> & _ & h & Hh & ->).
  run_inv H. apply kASSERT_inv in R as [-> _]. run_inv H.
  apply sema_try_down_inv in R as (v & Hv & Hrun & Hb). run_inv H. injection H as -> <-.
  destruct u; unfold when in R; [|injection R as _ <-; by eapply lock_inv_same].
  destruct Hb as (Hpos & S1 & S2 & S3 & S4).
  apply push_fr in R as (fs & Hfs & (E1 & E2 & E3 & _) & _).
  rewrite S1, Hrun in Hfs. rewrite S1, Hrun in E1.
  pose proof (wf_of _ _ _ Hinv Hfs) as Hwf.
  pose proof (tok_nonneg l fs Hwf) as Htok.
  destruct (lock_inv_bound _ _ _ l h v Hinv Hfs Hh Hv) as [Hle _].
  assert (held h = 0 ∨ held h = 1) by (unfold held; case_match; lia).
  eapply (lock_inv_sema s s1 _ fs _ (SLock l) v); eauto; [done|by rewrite E2, S2|congruence|..].
  - intros l' h' [= <-] Hh'. cbn. rewrite Z.eqb_refl, u32_small by lia. fold (tok l fs). lia.
  - intros l' Hne. cbn. rewrite (proj2 (Z.eqb_neq _ _)) by congruence. fold (tok l' fs). lia.
Qed.

Lemma cond_wait_inv c l s u s' :
  lock_inv s → cond_wait c l s = Ok (u, s') → lock_inv s'.
Proof.
  unfold cond_wait. intros Hinv H. run_inv H. injection R as <- <-.
  run_inv H. apply kASSERT_inv in R as [-> _]. run_inv H. apply held_inv in R as [-> _].
  run_inv H. apply kASSERT_inv in R as [-> _]. run_inv H.
  apply thread_current_inv in R as (-> & -> & _). run_inv H. apply put_sema_inv in R as ->.
  run_inv H. unfold get_cond in R. rewrite run_gets in R. apply lift_inv in R as [-> _].
  run_inv H. unfold put_cond in R. rewrite run_gets in R. injection R as _ <-.
  match type of H with (_ ≫= _) ?s1 = _ => assert (H1 : lock_inv s1) end.
  { by apply (lock_inv_set_sema (SWaiter (running s)) (mk_sema 0 []) s). }
  run_inv H. apply push_fr in R as (fs & Hfs & Hset & _).
  assert (H2 : lock_inv s0) by by eapply (lock_inv_push (FAcquire l)).
  run_inv H. apply push_fr in R as (fs' & Hfs' & Hset' & _).
  assert (H3 : lock_inv s1) by by eapply (lock_inv_push (FDownCall _)).
  by eapply lock_release_inv.
Qed.

Lemma sema_up_other_inv x s u s' :
  (∀ l, x ≠ SLock l) → lock_inv s → sema_up x s = Ok (u, s') → lock_inv s'.
Proof. intros Hx Hinv (v & Hv & ? & ? & ? & _)%sema_up_inv. by eapply lock_inv_set_sema. Qed.

Lemma cond_signal_inv c l s u s' :
  lock_inv s → cond_signal c l s = Ok (u, s') → lock_inv s'.
Proof.
  unfold cond_signal. intros Hinv H. run_inv H. injection R as <- <-.
  run_inv H. apply kASSERT_inv in R as [-> _]. run_inv H. apply held_inv in R as [-> _].
  run_inv H. apply kASSERT_inv in R as [-> _].
  run_inv H. unfold get_cond in R. rewrite run_gets in R. apply lift_inv in R as [-> _].
  case_list H; [by injection H as _ <-|].
  run_inv H. unfold put_cond in R. rewrite run_gets in R. injection R as _ <-.
  eapply (sema_up_other_inv (SWaiter z)); [done| |exact H]. exact Hinv.
Qed.

(** What every iteration of a loop keeps, the loop keeps. *)
Lemma loop_st_keeps {S L R} (P : S → Prop) (body : L → st S (L + R)) fuel l s x s' :
  (∀ l s r s', P s → body l s = Ok (r, s') → P s') →
  P s → loop_st fuel body l s = Ok (x, s') → P s'.
Proof.
  intros Hb. revert l s. induction fuel as [|fuel IH]; intros l s HP; [done|].
  unfold loop_st. cbn [loop]. destruct (body l s) as [[r s1]| | |] eqn:E; try done.
  apply Hb in E; [|done]. destruct r as [l'|y]; cbn.
  - by apply IH.
  - by intros [= <- <-].
Qed.

Lemma cond_broadcast_inv c l s u s' :
  lock_inv s → cond_broadcast c l s = Ok (u, s') → lock_inv s'.
Proof.
  unfold cond_broadcast. intros Hinv H. run_inv H.
  unfold get_cond in R. rewrite run_gets in R. apply lift_inv in R as [-> _].
  eapply (loop_st_keeps lock_inv); [|exact Hinv|exact H]. clear. intros [] s r s' Hinv H.
  run_inv H. unfold get_cond in R. rewrite run_gets in R. apply lift_inv in R as [-> _].
  case_list H; [by injection H as _ <-|]. run_inv H.
  injection H as _ <-. by eapply cond_signal_inv.
Qed.

Lemma thread_exit_inv s u s' :
  lock_inv s → fr s !! s.(running) = Some [] → thread_exit s = Ok (u, s') → lock_inv s'.
Proof.
  unfold thread_exit. intros Hinv Hfs H. run_inv H. injection R as <- <-.
  run_inv H. apply kASSERT_inv in R as [-> _]. run_inv H. injection R as _ <-.
  run_inv H. apply thread_current_inv in R as (-> & -> & _). rewrite run_gets in H. run_inv H.
  apply lift_inv in R as [-> _]. rewrite run_modify in H. run_inv H.
  apply get_thread_inv in R as [-> Hth]. run_inv H. apply put_thread_inv in R as ->.
  apply schedule_switch in H as (H1 & H2 & _ & H3). cbn in Hth, H1, H2, H3.
  assert (Hfr : fr s' = fr s ∨ fr s' = delete (running s) (fr s)).
  { assert (E : frames <$> <[running s := set_status a2 THREAD_DYING]> (threads s) = fr s).
    { rewrite fmap_insert. apply insert_id. by apply (fr_lookup _ _ _ Hth). }
    destruct H3 as [H3|(_ & H3 & _)]; [left|right]; rewrite H3; unfold fr at 1; cbn; by rewrite E. }
  destruct Hinv as [I1 I2]. destruct Hfr as [E|E]; split; rewrite ?E, ?H2, ?H1.
  - done.
  - done.
  - by apply map_Forall_delete.
  - intros l h Hl. destruct (I2 l h Hl) as (v & Hv & Hp & Hs). exists v.
    split; [done|]. split; [done|]. rewrite (total_delete _ _ _ []) by done. cbn. lia.
Qed.

Lemma alloc_frame_keeps t n : keeps (alloc_frame t n).
Proof.
  intros s z s' H. unfold alloc_frame in H. run_inv H. apply is_thread_inv in R as ->.
  run_inv H. apply kASSERT_inv in R as [-> _]. run_inv H. apply kASSERT_inv in R as [-> _].
  run_inv H. apply get_thread_inv in R as [-> Hth]. run_inv H. apply put_thread_inv in R as ->.
  injection H as _ <-. repeat split. unfold fr; cbn. rewrite fmap_insert. apply insert_id.
  by rewrite lookup_fmap, Hth.
Qed.

Lemma init_thread_fr t nm prio s u s' :
  init_thread t nm prio s = Ok (u, s') → set_fr t [] s s'.
Proof.
  unfold init_thread. intros H. run_inv H. apply kASSERT_inv in R as [-> _].
  run_inv H. apply kASSERT_inv in R as [-> _]. run_inv H. apply put_thread_inv in R as ->.
  run_inv H. pose proof (keeps_intr_disable _ _ _ R) as HK. clear R.
  rewrite run_gets, run_modify in H. run_inv H. apply keeps_intr_set_level in R.
  injection H as _ <-. eapply set_fr_same; [|etrans; [exact HK|exact R]].
  repeat split. unfold fr; cbn. by rewrite fmap_insert.
Qed.

Lemma thread_create_fr page nm prio s u s' :
  thread_create page nm prio s = Ok (u, s') →
  same_locks s s' ∨ set_fr page [FStart] s s'.
Proof.
  unfold thread_create. destruct (page =? NULL); [left; by injection H as _ <-|].
  intros H. right. run_inv H. apply init_thread_fr in R as Hset. clear R.
  run_inv H. injection R as _ <-. run_inv H. apply get_thread_inv in R as [-> Hth].
  run_inv H. apply put_thread_inv in R as ->.
  run_inv H. apply alloc_frame_keeps in R. run_inv H. apply alloc_frame_keeps in R0.
  run_inv H. apply alloc_frame_keeps in R1. run_inv H. apply keeps_unblock in R2.
  injection H as _ <-.
  eapply set_fr_same; [|etrans; [exact R|]; etrans; [exact R0|]; etrans; [exact R1|exact R2]].
  eapply set_fr_trans; [exact Hset|]. repeat split. unfold fr; cbn. by rewrite fmap_insert.
Qed.

Lemma thread_create_inv page nm prio s u s' :
  lock_inv s → s.(threads) !! page = None → thread_create page nm prio s = Ok (u, s') →
  lock_inv s'.
Proof.
  intros Hinv Hnew [HK|(E1 & E2 & E3 & _)]%thread_create_fr; [by eapply lock_inv_same|].
  assert (Hn : fr s !! page = None) by (unfold fr; by rewrite lookup_fmap, Hnew).
  destruct Hinv as [I1 I2]. split; rewrite ?E1, ?E2, ?E3.
  - by apply map_Forall_insert_2.
  - intros l h Hl. destruct (I2 l h Hl) as (v & Hv & Hp & Hs). exists v.
    split; [done|]. split; [done|]. rewrite total_insert by done. cbn. lia.
Qed.

(** The loop of sema_down(): it goes to sleep, or takes a unit. *)
Lemma sema_down_loop_inv x old rest s u s' :
  lock_inv s → fr s !! s.(running) = Some (FDown x old :: rest) →
  sema_down_loop x old rest s = Ok (u, s') → lock_inv s'.
Proof.
  unfold sema_down_loop. intros Hinv Hfs H. run_inv H. apply get_sema_inv in R as [-> Hv].
  pose proof (wf_of _ _ _ Hinv Hfs) as [Hwf Hhd]. destruct (Z.eqb_spec (value a) 0) as [E|E].
  - run_inv H. apply thread_current_inv in R as (-> & -> & _). run_inv H.
    apply put_sema_inv in R as ->. eapply lock_inv_same; [by eapply keeps_block|].
    eapply (lock_inv_sema s _ (running s) (FDown x old :: rest) (FDown x old :: rest) x a);
      [done|done| |by split|done|reflexivity|done| |done].
    + symmetry. by apply insert_id.
    + intros l h -> Hl. cbn. split; [|done].
      destruct Hinv as [_ I2]. destruct (I2 l h Hl) as (w & Hw & Hp & _). congruence.
  - run_inv H. apply put_sema_inv in R as ->. run_inv H. injection R as <- <-. cbn in H.
    run_inv H. apply get_thread_inv in R as [-> Hth]. cbn in Hth. run_inv H.
    apply put_thread_inv in R as ->. run_inv H. apply keeps_intr_set_level in R.
    injection H as _ <-. eapply lock_inv_same; [exact R|].
    eapply (lock_inv_sema s _ (running s) (FDown x old :: rest) rest x a);
      [done|done|unfold fr; cbn; by rewrite fmap_insert|done|done|reflexivity|done| |].
    + intros l h -> Hl.
      destruct (lock_inv_bound _ _ _ l h a Hinv Hfs Hl Hv) as [Hb Hp].
      pose proof (tok_nonneg l _ (wf_of _ _ _ Hinv Hfs)).
      assert (0 <= held h) by (unfold held; case_match; lia).
      cbn. rewrite Z.eqb_refl, u32_small by lia. fold (tok l rest). lia.
    + intros l Hx. cbn. destruct x as [n|l'|t]; cbn; [|rewrite (proj2 (Z.eqb_neq _ _)) by congruence|];
        fold (tok l rest); lia.
Qed.

Lemma lock_inv_neutral_push f s u s' :
  neutral f → lock_inv s → push_frame f s = Ok (u, s') → lock_inv s'.
Proof. intros Hf Hinv (fs & Hfs & Hset & _)%push_fr. by eapply (lock_inv_push f). Qed.

Lemma idle_step_inv s u s' : lock_inv s → idle_step s = Ok (u, s') → lock_inv s'.
Proof.
  unfold idle_step. intros Hinv H. run_inv H. injection R as _ <-. run_inv H.
  eapply lock_inv_same; [by eapply keeps_block|].
  eapply (lock_inv_neutral_push FHalt); [done| |exact R]. exact Hinv.
Qed.

Lemma sema_down_other_inv x s u s' :
  (∀ l, x ≠ SLock l) → lock_inv s → sema_down x s = Ok (u, s') → lock_inv s'.
Proof.
  intros Hx Hinv (fs & Hfs & Hset)%sema_down_fr. eapply (lock_inv_push (FDown x _)); eauto.
  destruct x; [done|by destruct (Hx l)|done].
Qed.

(** lock_acquire() after its sema_down(): the holder takes over the token. *)
Lemma set_holder_step s l rest th u s' :
  lock_inv s → fr s !! s.(running) = Some (FHolder l :: rest) → s.(running) ≠ NULL →
  set_holder l s.(running) (with_threads (<[s.(running) := set_frames th rest]> s.(threads)) s)
    = Ok (u, s') →
  lock_inv s'.
Proof.
  intros Hinv Hfs Hnn (h & Hh & ->)%set_holder_inv. cbn in Hh.
  pose proof (wf_of _ _ _ Hinv Hfs) as [Hwf _].
  eapply (lock_inv_change s _ (running s)); [done|exact Hfs|unfold fr; cbn; by rewrite fmap_insert|done|].
  intros l' h'. cbn. pose proof Hinv as [_ I2].
  intros [[<- <-]|[Hne Hl']]%lookup_insert_Some.
  - destruct (I2 l h Hh) as (v & Hv & Hp & _). exists h, v, v.
    destruct (lock_inv_bound _ _ _ l h v Hinv Hfs Hh Hv) as [Hb _].
    pose proof (tok_nonneg l rest Hwf). cbn in Hb. fold (tok l rest) in Hb.
    cbn. fold (tok l rest). rewrite Z.eqb_refl in *.
    repeat split; try done. unfold held in *. rewrite (proj2 (Z.eqb_neq _ _) Hnn).
    destruct (h =? NULL); lia.
  - destruct (I2 l' h' Hl') as (v & Hv & Hp & _). exists h', v, v. repeat split; try done.
    cbn. rewrite (proj2 (Z.eqb_neq _ _)) by done. fold (tok l' rest). lia.
Qed.

(** lock_release() before its sema_up(): the token goes back to the semaphore. *)
Lemma sema_up_step s l rest s1 u s' :
  lock_inv s → fr s !! s.(running) = Some (FUp (SLock l) :: rest) →
  set_fr s.(running) rest s s1 → sema_up (SLock l) s1 = Ok (u, s') → lock_inv s'.
Proof.
  intros Hinv Hfs (E1 & E2 & E3 & _) (v & Hv & S1 & S2 & S3 & _)%sema_up_inv.
  pose proof (wf_of _ _ _ Hinv Hfs) as [Hwf _]. rewrite E2 in Hv.
  eapply (lock_inv_sema s s' (running s) (FUp (SLock l) :: rest) rest (SLock l) v);
    [done|done|congruence|done|done|by rewrite S2, E2|congruence|..].
  - intros l' h [= <-] Hl. destruct (lock_inv_bound _ _ _ l h v Hinv Hfs Hl Hv) as [Hb Hp].
    pose proof (tok_nonneg l rest Hwf). assert (0 <= held h) by (unfold held; case_match; lia).
    cbn in Hb. rewrite Z.eqb_refl in Hb. fold (tok l rest) in Hb.
    cbn. rewrite Z.eqb_refl, u32_small by lia. fold (tok l rest). lia.
  - intros l' Hne. cbn. rewrite (proj2 (Z.eqb_neq _ _)) by congruence. fold (tok l' rest). lia.
Qed.

Lemma resume_inv s u s' : lock_inv s → resume s = Ok (u, s') → lock_inv s'.
Proof.
  unfold resume, running_thread. intros Hinv H. run_inv H. run_inv H.
  apply get_thread_inv in R as [-> Hth]. pose proof (fr_lookup _ _ _ Hth) as Hfs.
  destruct (frames a) as [|f rest] eqn:Ef; [by injection H as _ <-|].
  pose proof (put_frames_fr _ _ rest _ Hth) as Hset.
  destruct f as [|old| | | |x old|l|x|w|l]; [..|by eapply sema_down_loop_inv| | | |];
    run_inv H; apply put_thread_inv in R as ->; set (s1 := with_threads _ s) in *.
  - run_inv H. injection H as _ <-. eapply lock_inv_same; [by eapply keeps_intr_enable|].
    by eapply (lock_inv_pop FStart).
  - run_inv H. injection H as _ <-. eapply lock_inv_same; [by eapply keeps_intr_set_level|].
    by eapply (lock_inv_pop (FYield old)).
  - injection H as _ <-. eapply (lock_inv_pop FIret); [exact Hinv|done|exact Hset|done].
  - eapply idle_step_inv; [|exact H]. by eapply (lock_inv_pop FIdle).
  - rewrite run_modify in H. eapply (lock_inv_neutral_push FIdle); [done| |exact H].
    eapply (lock_inv_pop FHalt); [exact Hinv|done|exact Hset|done].
  - run_inv H. apply thread_current_inv in R as (-> & -> & th & _ & _ & Hnn).
    by eapply set_holder_step.
  - destruct x as [n|l|t]; [|by eapply sema_up_step|].
    + eapply (sema_up_other_inv (SUser n)); [done| |exact H].
      by eapply (lock_inv_pop (FUp (SUser n))).
    + eapply (sema_up_other_inv (SWaiter t)); [done| |exact H].
      by eapply (lock_inv_pop (FUp (SWaiter t))).
  - eapply (sema_down_other_inv (SWaiter w)); [done| |exact H].
    by eapply (lock_inv_pop (FDownCall w)).
  - eapply lock_acquire_inv; [|exact H]. by eapply (lock_inv_pop (FAcquire l)).
Qed.

Lemma run_op_inv o s u s' :
  lock_inv s → busy s = false → fresh_page o s → run_op o s = Ok (u, s') → lock_inv s'.
Proof.
  intros Hinv Hb Hfresh H. destruct o as [n|n|n|l|l|l|c l|c l|c l| | |page nm prio];
    cbn [run_op] in H.
  - by eapply (sema_down_other_inv (SUser n)).
  - run_inv H. injection H as _ <-. apply sema_try_down_inv in R as (v & Hv & _ & Hr).
    destruct a as [|]; [|by eapply lock_inv_same]. destruct Hr as (_ & ? & ? & ? & _).
    by eapply (lock_inv_set_sema (SUser n)).
  - by eapply (sema_up_other_inv (SUser n)).
  - by eapply lock_acquire_inv.
  - run_inv H. injection H as _ <-. by eapply try_acquire_inv.
  - by eapply lock_release_inv.
  - by eapply cond_wait_inv.
  - by eapply cond_signal_inv.
  - by eapply cond_broadcast_inv.
  - apply yield_fr in H as (fs & Hfs & Hset). by eapply (lock_inv_push (FYield _)).
  - eapply thread_exit_inv; [done| |exact H]. unfold busy in Hb.
    assert (∃ th, threads s !! running s = Some th) as [th Hth].
    { clear Hb. unfold thread_exit in H. run_inv H. injection R as <- <-. run_inv H.
      apply kASSERT_inv in R as [-> _]. run_inv H. injection R as _ <-. run_inv H.
      apply thread_current_inv in R as (_ & -> & th & Hth & _). by exists th. }
    rewrite Hth in Hb. rewrite (fr_lookup _ _ _ Hth). f_equal.
    apply negb_false_iff in Hb. by apply bool_decide_eq_true in Hb.
  - run_inv H. injection H as _ <-. by eapply thread_create_inv.
Qed.

Lemma step_inv s s' : lock_inv s → step s s' → lock_inv s'.
Proof.
  intros Hinv Hst. revert Hinv. destruct Hst as [s1 s2 Hb H|s1 o s2 Hb _ Hf H|s1 s2 _ H]; intros Hinv.
  - by eapply resume_inv.
  - by eapply run_op_inv.
  - apply timer_fr in H as (fs & Hfs & [Hset|[b Hset]]).
    + by eapply (lock_inv_push FIret).
    + pose proof (wf_of _ _ _ Hinv Hfs). by eapply lock_inv_frames; eauto.
Qed.

(** ** Properties *)

(** Thread [t] has the lock [l]: it is the holder, or it is inside
    lock_acquire() past the semaphore or inside lock_release() before it. *)
Definition owns (s : kst) (l t : Z) : Prop :=
  (s.(holders) !! l = Some t ∧ t ≠ NULL) ∨
  (∃ fs, fr s !! t = Some fs ∧ 1 <= tok l fs).

(** C2: mutual exclusion: from any state in which every lock has its one unit,
    whatever the threads call (semaphores, locks, condition variables, yielding,
    creating threads, exiting) and wherever timer interrupts fall, at most one
    thread has a lock at any time, and while one has it the semaphore of the
    lock is 0, so that lock_try_acquire() fails and lock_acquire() waits. *)
Theorem lock_mutual_exclusion s0 s l h t1 t2 :
  lock_inv s0 → rtc step s0 s → s.(holders) !! l = Some h →
  owns s l t1 → owns s l t2 →
  t1 = t2 ∧ ∃ v, s.(semas) !! SLock l = Some v ∧ v.(value) = 0.
Proof.
  intros H0 Hsteps Hh Ho1 Ho2.
  assert (Hinv : lock_inv s) by (induction Hsteps; eauto using step_inv).
  pose proof (lock_inv_tok s l Hinv) as Hnn. pose proof Hinv as [_ I2].
  destruct (I2 l h Hh) as (v & Hv & Hp & Hsum).
  assert (Hone : ∀ t fs, fr s !! t = Some fs → 1 <= tok l fs →
    held h = 0 ∧ value v = 0 ∧ total (tok l) (delete t (fr s)) <= 0).
  { intros t fs Hfs Ht. pose proof (total_delete (tok l) _ _ _ Hfs).
    pose proof (total_nonneg (tok l) (delete t (fr s)) (map_Forall_delete _ _ _ Hnn)).
    assert (0 <= held h) by (unfold held; case_match; lia). lia. }
  assert (Hheld : ∀ t, holders s !! l = Some t → t ≠ NULL → held h = 1).
  { intros t Ht Hn. unfold held. by rewrite (proj2 (Z.eqb_neq _ _)) by congruence. }
  pose proof (total_nonneg (tok l) (fr s) Hnn).
  destruct Ho1 as [[E1 N1]|(fs1 & F1 & T1)], Ho2 as [[E2 N2]|(fs2 & F2 & T2)].
  - split; [congruence|]. exists v. split; [done|]. specialize (Hheld _ E1 N1). lia.
  - specialize (Hheld _ E1 N1). destruct (Hone _ _ F2 T2). lia.
  - specialize (Hheld _ E2 N2). destruct (Hone _ _ F1 T1). lia.
  - destruct (Hone _ _ F1 T1) as (_ & Hv0 & Htot). split; [|by exists v].
    destruct (decide (t1 = t2)) as [|Hne]; [done|]. exfalso.
    pose proof (total_ge (tok l) (delete t1 (fr s)) t2 fs2) as Hge.
    specialize (Hge (map_Forall_delete _ _ _ Hnn)). rewrite lookup_delete_ne in Hge by done.
    specialize (Hge F2). lia.
Qed.

(** Two threads and the idle thread, a free lock at 10. *)
Definition demo_thread (x : thread_status) (fs : list frame) : thread :=
  mk_thread 1 x [] 0 31 2 NULL THREAD_MAGIC fs.
Definition demo_kst : kst :=
  mk_kst (<[1 := demo_thread THREAD_RUNNING []]> (<[2 := demo_thread THREAD_READY [FStart]]>
           {[ 3 := demo_thread THREAD_BLOCKED [FHalt] ]}))
    1 [2] [1; 2; 3] 3 1 true false false 0 0 0 0 0 4
    {[ SLock 10 := mk_sema 1 [] ]} {[ 10 := NULL ]} ∅.

Lemma demo_lock_inv : lock_inv demo_kst.
Proof.
  split.
  { unfold fr; cbn [threads demo_kst]. rewrite !fmap_insert, map_fmap_singleton.
    apply map_Forall_insert_2; [done|]. apply map_Forall_insert_2; [done|].
    by apply map_Forall_singleton. }
  cbn [holders semas demo_kst]. intros l h [<- <-]%lookup_singleton_Some.
  eexists. split; [apply lookup_insert_eq|]. by vm_compute.
Qed.

(** Thread 1 acquires the lock, is preempted by yielding, and thread 2 starts and
    tries to acquire it: it sleeps on the semaphore, and thread 1 still holds the
    lock. *)
Definition demo_run : K unit :=
  lock_acquire 10;; resume;; resume;; thread_yield;; resume;; lock_acquire 10;; resume.

Lemma lock_mutual_exclusion_witness :
  ∃ s, rtc step demo_kst s ∧ s.(running) = 1 ∧ owns s 10 1 ∧
    s.(semas) !! SLock 10 = Some (mk_sema 0 [2]) ∧ ∀ t, owns s 10 t → t = 1.
Proof.
  destruct (demo_run demo_kst) as [[[] s]| | |] eqn:E; [|by vm_compute in E..].
  assert (Hs : running s = 1 ∧ holders s !! 10 = Some 1 ∧
               semas s !! SLock 10 = Some (mk_sema 0 [2])).
  { vm_compute in E. injection E as <-. by vm_compute. }
  destruct Hs as (Hr & Hh & Hsem).
  assert (Hsteps : rtc step demo_kst s).
  { unfold demo_run in E.
    do 6 (let a := fresh "a" in let s := fresh "s" in let R := fresh "R" in
          apply run_bind_inv in E as (a & s & R & E); destruct a).
    eapply rtc_l; [by eapply (step_call _ (OpAcquire 10)); [..|exact R]|].
    vm_compute in R; injection R as <-.
    eapply rtc_l; [by eapply step_resume; [|exact R0]|]. vm_compute in R0; injection R0 as <-.
    eapply rtc_l; [by eapply step_resume; [|exact R1]|]. vm_compute in R1; injection R1 as <-.
    eapply rtc_l; [by eapply (step_call _ OpYield); [..|exact R2]|].
    vm_compute in R2; injection R2 as <-.
    eapply rtc_l; [by eapply step_resume; [|exact R3]|]. vm_compute in R3; injection R3 as <-.
    eapply rtc_l; [by eapply (step_call _ (OpAcquire 10)); [..|exact R4]|].
    vm_compute in R4; injection R4 as <-.
    apply rtc_once. by eapply step_resume; [|exact E]. }
  clear E. assert (Ho : owns s 10 1) by (left; split; [exact Hh|lia]).
  exists s. split; [exact Hsteps|]. split; [exact Hr|]. split; [exact Ho|].
  split; [exact Hsem|]. intros t Ht. by destruct (lock_mutual_exclusion demo_kst s 10 1 t 1 demo_lock_inv Hsteps Hh Ht Ho).
Defined.

(** ** The run queue *)

Lemma get_thread_ok t th s : s.(threads) !! t = Some th → get_thread t s = Ok (th, s).
Proof. intros H. unfold get_thread. by rewrite run_gets, H. Qed.

Lemma is_thread_ok t th s :
  t ≠ NULL → s.(threads) !! t = Some th → th.(t_magic) = THREAD_MAGIC →
  is_thread t s = Ok (true, s).
Proof.
  intros Hn Ht Hm. unfold is_thread. rewrite (proj2 (Z.eqb_neq _ _)) by done.
  rewrite (run_bind _ _ _ _ _ (get_thread_ok _ _ _ Ht)), Hm. done.
Qed.

Lemma kASSERT_ok (c : bool) {A} (k : unit → K A) s : c = true → (kASSERT c ≫= k) s = k tt s.
Proof. by intros ->. Qed.

(** [next] is what next_thread_to_run() returns, leaving [l] in the queue. *)
Definition next_is (s : kst) (next : Z) (l : list Z) : Prop :=
  s.(ready_list) = next :: l ∨ (s.(ready_list) = [] ∧ s.(idle_thread) = next ∧ l = []).

Lemma schedule_ok s next l th nth :
  s.(intr_on) = false → s.(threads) !! s.(running) = Some th →
  th.(status) ≠ THREAD_RUNNING → th.(status) ≠ THREAD_DYING → next_is s next l →
  next ≠ NULL → s.(threads) !! next = Some nth → nth.(t_magic) = THREAD_MAGIC →
  schedule s = Ok (tt, with_ticks 0 s.(idle_ticks) s.(kernel_ticks) s.(user_ticks) s.(ticks)
    (with_threads (<[next := set_status nth THREAD_RUNNING]> s.(threads))
       (with_running next (with_ready l s)))).
Proof.
  intros Hi Hth Hr Hd Hnext Hn Hnth Hmg. unfold schedule, running_thread. rewrite run_gets.
  rewrite (run_bind _ _ _ next (with_ready l s)); cycle 1.
  { unfold next_thread_to_run. rewrite run_gets. destruct Hnext as [E|(E & <- & ->)]; rewrite E; [done|].
    destruct s; cbn in E |- *. by subst. }
  unfold intr_get_level. rewrite run_gets. cbn [intr_on with_ready]. rewrite Hi.
  rewrite kASSERT_ok by done.
  erewrite run_bind by (apply get_thread_ok; exact Hth).
  rewrite kASSERT_ok by by apply bool_decide_eq_true.
  erewrite run_bind by (eapply is_thread_ok; [done|exact Hnth|done]).
  rewrite kASSERT_ok by done.
  assert (Htail : ∀ prev s1, intr_on s1 = false → threads s1 = threads s → running s1 = next →
    (prev = NULL ∨ prev = running s ∧ prev ≠ next) →
    thread_schedule_tail prev s1 = Ok (tt, with_ticks 0 (idle_ticks s1) (kernel_ticks s1)
      (user_ticks s1) (ticks s1)
      (with_threads (<[next := set_status nth THREAD_RUNNING]> (threads s)) s1))).
  { intros prev s1 Hi1 Ht1 Hr1 Hp. unfold thread_schedule_tail, running_thread, intr_get_level.
    rewrite run_gets, run_gets, Hi1. rewrite kASSERT_ok by done. rewrite Hr1.
    erewrite run_bind by (apply get_thread_ok; rewrite Ht1; exact Hnth).
    rewrite (run_bind _ _ s1 tt (with_threads (<[next := set_status nth THREAD_RUNNING]> (threads s)) s1))
      by (unfold put_thread; rewrite run_gets, Ht1; done).
    rewrite run_modify. destruct Hp as [->|[-> Hne]]; [done|].
    destruct (Z.eqb_spec (running s) NULL) as [|Hnn]; [done|].
    erewrite run_bind by (apply get_thread_ok; cbn; rewrite lookup_insert_ne by done; exact Hth).
    rewrite run_gets, bool_decide_false by done. done. }
  destruct (Z.eqb_spec (running s) next) as [E|E]; cbn [negb].
  - rewrite (Htail NULL (with_ready l s)) by (done || by left). cbn.
    replace (with_running next (with_ready l s)) with (with_ready l s); [done|].
    rewrite <-E. by destruct s.
  - rewrite run_modify. rewrite (Htail (running s)) by (done || by right). done.
Qed.

(** The running thread and those waiting for the processor, in order. *)
Definition queue (s : kst) : list Z := s.(running) :: s.(ready_list).

(** A state between two functions of the running thread: it runs, and the queued
    threads and the idle thread can be switched to. *)
Record quiescent (s : kst) : Prop := {
  q_cur : ∃ th, s.(threads) !! s.(running) = Some th ∧ th.(status) = THREAD_RUNNING;
  q_ctx : s.(in_external_intr) = false;
  q_idle : s.(running) ≠ s.(idle_thread);
  q_ready : ∀ t, t ∈ s.(idle_thread) :: queue s →
    t ≠ NULL ∧ ∃ th, s.(threads) !! t = Some th ∧ th.(t_magic) = THREAD_MAGIC }.

Lemma thread_current_ok s : quiescent s → thread_current s = Ok (s.(running), s).
Proof.
  intros [(th & Hth & Hst) _ _ Hr]. unfold thread_current, running_thread. rewrite run_gets.
  destruct (Hr (running s)) as (Hnn & th' & Hth' & Hm); [set_solver|].
  assert (th' = th) as -> by congruence.
  rewrite (run_bind _ _ _ _ _ (is_thread_ok _ _ _ Hnn Hth Hm)), kASSERT_ok by done.
  rewrite (run_bind _ _ _ _ _ (get_thread_ok _ _ _ Hth)).
  rewrite kASSERT_ok by by apply bool_decide_eq_true. done.
Qed.

Lemma queue_magic s : quiescent s → ∀ th, s.(threads) !! s.(running) = Some th →
  s.(running) ≠ NULL ∧ th.(t_magic) = THREAD_MAGIC.
Proof.
  intros [_ _ _ Hr] th Hth. destruct (Hr (running s)) as (Hnn & th' & Hth' & Hm).
  { unfold queue. rewrite !elem_of_cons. auto. }
  split; [done|]. congruence.
Qed.

(** A thread of the queue is still there when the running thread's changed. *)
Lemma queue_target s next th' :
  quiescent s → next ∈ s.(idle_thread) :: queue s → th'.(t_magic) = THREAD_MAGIC →
  next ≠ NULL ∧ ∃ nth, <[s.(running) := th']> s.(threads) !! next = Some nth ∧
                       nth.(t_magic) = THREAD_MAGIC.
Proof.
  intros [_ _ _ Hr] Hin Hm. destruct (Hr next Hin) as (Hn & nth & Hnth & Hnm).
  split; [done|]. destruct (decide (running s = next)) as [->|].
  - rewrite lookup_insert_eq. eauto.
  - rewrite lookup_insert_ne by done. eauto.
Qed.

Lemma yield_queue s :
  quiescent s →
  ∃ s', thread_yield s = Ok (tt, s') ∧ queue s' = tail (queue s) ++ [hd NULL (queue s)].
Proof.
  intros Hq. pose proof Hq as [(th & Hth & Hst) Hctx Hidle Hready].
  destruct (queue_magic s Hq th Hth) as [Hnn Hm].
  unfold thread_yield. rewrite (run_bind _ _ _ _ _ (thread_current_ok s Hq)).
  unfold intr_context. rewrite run_gets, Hctx. rewrite kASSERT_ok by done.
  rewrite (run_bind _ _ s (intr_on s) (with_intr false s)) by done. rewrite run_gets.
  cbn [idle_thread with_intr]. rewrite (proj2 (Z.eqb_neq _ _)) by done. cbn [negb when].
  rewrite (run_bind _ _ _ tt (with_ready (ready_list s ++ [running s]) (with_intr false s))) by done.
  set (th1 := set_frames th (FYield (intr_on s) :: frames th)).
  rewrite (run_bind _ _ _ tt (with_threads (<[running s := th1]> (threads s))
    (with_ready (ready_list s ++ [running s]) (with_intr false s)))); cycle 1.
  { unfold push_frame, running_thread. rewrite run_gets.
    erewrite run_bind by (apply get_thread_ok; exact Hth). done. }
  erewrite run_bind by (apply get_thread_ok; apply lookup_insert_eq).
  rewrite (run_bind _ _ _ tt (with_threads (<[running s := set_status th1 THREAD_READY]> (threads s))
    (with_ready (ready_list s ++ [running s]) (with_intr false s)))); cycle 1.
  { unfold put_thread. rewrite run_gets. cbn. by rewrite insert_insert_eq. }
  set (s1 := with_threads _ _).
  destruct (ready_list s ++ [running s]) as [|next l] eqn:El;
    [by apply app_eq_nil in El as [_ ?]|].
  assert (Hin : next ∈ queue s).
  { unfold queue. destruct (ready_list s); injection El as <- <-; set_solver. }
  destruct (queue_target s next (set_status th1 THREAD_READY) Hq) as (Hn & nth & Hnth & Hnm);
    [set_solver|done|].
  eexists. split.
  { eapply (schedule_ok s1 next l); [done|apply lookup_insert_eq|done|done|by left|done..]. }
  unfold queue; cbn. by rewrite <-El.
Qed.

Lemma unblock_queue s t th :
  quiescent s → t ≠ NULL → s.(threads) !! t = Some th → th.(t_magic) = THREAD_MAGIC →
  th.(status) = THREAD_BLOCKED →
  ∃ s', thread_unblock t s = Ok (tt, s') ∧ queue s' = queue s ++ [t] ∧
    s'.(intr_on) = s.(intr_on).
Proof.
  intros [_ Hctx _ _] Hn Ht Htm Hts. unfold thread_unblock.
  rewrite (run_bind _ _ _ _ _ (is_thread_ok _ _ _ Hn Ht Htm)), kASSERT_ok by done.
  rewrite (run_bind _ _ s (intr_on s) (with_intr false s)) by done.
  erewrite run_bind by (apply get_thread_ok; exact Ht).
  rewrite kASSERT_ok by by apply bool_decide_eq_true.
  rewrite run_gets, run_modify. unfold put_thread.
  erewrite run_bind by (rewrite run_gets; reflexivity).
  unfold intr_set_level, intr_enable, intr_disable, intr_get_level, intr_context.
  destruct (intr_on s) eqn:Ei.
  + erewrite run_bind by (rewrite !run_gets, kASSERT_ok by (cbn; by rewrite Hctx);
      rewrite run_modify; reflexivity).
    eexists. split; [reflexivity|]. done.
  + erewrite run_bind by (rewrite run_gets, run_modify; reflexivity).
    eexists. split; [reflexivity|]. done.
Qed.

Lemma block_queue s :
  quiescent s → s.(intr_on) = false →
  ∃ s', thread_block s = Ok (tt, s') ∧
    queue s' = if decide (s.(ready_list) = []) then [s.(idle_thread)] else tail (queue s).
Proof.
  intros Hq. pose proof Hq as [(th & Hth & Hst) Hctx Hidle Hready].
  destruct (queue_magic s Hq th Hth) as [Hnn Hm].
  intros Hoff. unfold thread_block, intr_context, intr_get_level.
  rewrite run_gets, Hctx, kASSERT_ok by done. rewrite run_gets, Hoff, kASSERT_ok by done.
  rewrite (run_bind _ _ _ _ _ (thread_current_ok s Hq)).
  erewrite run_bind by (apply get_thread_ok; exact Hth).
  unfold put_thread. erewrite run_bind by (rewrite run_gets; reflexivity).
  set (s1 := with_threads _ s).
  assert (∃ next l, next_is s1 next l ∧ next ∈ idle_thread s :: queue s ∧
    next :: l = if decide (ready_list s = []) then [idle_thread s] else tail (queue s))
    as (next & l & Hnext & Hin & Hres).
  { unfold next_is, queue; cbn. destruct (ready_list s) as [|next l].
    - exists (idle_thread s), []. rewrite decide_True by done.
      split; [by right|]. split; [|done]. rewrite !elem_of_cons. by left.
    - exists next, l. rewrite decide_False by done.
      split; [by left|]. split; [|done]. rewrite !elem_of_cons. auto. }
  destruct (queue_target s next (set_status th THREAD_BLOCKED) Hq Hin) as (Hn & nth & Hnth & Hnm);
    [done|].
  eexists. split.
  { eapply (schedule_ok s1 next l); [done|apply lookup_insert_eq|done|done|done|done..]. }
  unfold queue; cbn. exact Hres.
Qed.

(** The run queue is first come, first served: thread_yield() rotates the
    queue, so the thread that waited longest runs next and the one that yields
    goes last; thread_unblock() adds a sleeping thread at the end and does not
    preempt; thread_block() gives the processor to the first in the queue, or to
    the idle thread when nobody waits. *)
Theorem ready_queue_fifo s :
  quiescent s →
  (∃ s', thread_yield s = Ok (tt, s') ∧ queue s' = tail (queue s) ++ [hd NULL (queue s)]) ∧
  (∀ t th, t ≠ NULL → s.(threads) !! t = Some th → th.(t_magic) = THREAD_MAGIC →
     th.(status) = THREAD_BLOCKED →
     ∃ s', thread_unblock t s = Ok (tt, s') ∧ queue s' = queue s ++ [t] ∧
       s'.(intr_on) = s.(intr_on)) ∧
  (s.(intr_on) = false →
     ∃ s', thread_block s = Ok (tt, s') ∧
       queue s' = if decide (s.(ready_list) = []) then [s.(idle_thread)] else tail (queue s)).
Proof.
  intros Hq. split; [by apply yield_queue|].
  split; [intros t th; by apply unblock_queue|by apply block_queue].
Qed.

Lemma demo_quiescent : quiescent demo_kst.
Proof.
  split; [by eexists|done|done|].
  intros t Ht. change (idle_thread demo_kst :: queue demo_kst) with [3; 1; 2] in Ht.
  rewrite !elem_of_cons in Ht.
  destruct Ht as [->|[->|[->|Ht]]]; [split; [lia|by eexists]..|by apply not_elem_of_nil in Ht].
Qed.

Lemma ready_queue_fifo_witness :
  queue demo_kst = [1; 2] ∧
  ∃ s', thread_yield demo_kst = Ok (tt, s') ∧ queue s' = [2; 1].
Proof.
  split; [reflexivity|].
  destruct (ready_queue_fifo demo_kst demo_quiescent) as ((s' & E & H) & _).
  exists s'. split; [exact E|exact H].
Defined.
