(* ===== verification/Palloc.v ===== *)
(** * The page allocator: threads/palloc.c

    Two pools of pages, each with its bitmap of pages in use.  The contents of a
    page are its 1024 words; a page not in the store has contents that do not
    matter.  The bitmap is only searched while the pool's lock is held, so that
    each function is one step. *)

From S2P Require Import Prelude Bitmap Vaddr.

Open Scope Z_scope.

(** ** Definitions *)

Abbreviation NULL := 0%Z (only parsing).

Record pool := mk_pool { used_map : bitmap; pool_base : Z }.

Record pst := mk_pst {
  kernel_pool : pool;
  user_pool : pool;
  pmem : gmap Z (list Z) }.

Abbreviation P := (st pst).

Definition PAL_ASSERT : Z := 1.
Definition PAL_ZERO : Z := 2.
Definition PAL_USER : Z := 4.

Definition flag (flags f : Z) : bool := negb (Z.land flags f =? 0).

(** memset() of whole pages: [cnt] pages from [page] on, each word [w]. *)
Fixpoint fill_pages (m : gmap Z (list Z)) (page : Z) (cnt : nat) (w : Z) : gmap Z (list Z) :=
  match cnt with
  | O => m
  | S n => fill_pages (<[page := replicate 1024 w]> m) (page + PGSIZE) n w
  end.

Definition with_pool (user : bool) (p : pool) (s : pst) : pst :=
  if user then mk_pst s.(kernel_pool) p s.(pmem) else mk_pst p s.(user_pool) s.(pmem).
Definition with_pmem (m : gmap Z (list Z)) (s : pst) : pst :=
  mk_pst s.(kernel_pool) s.(user_pool) m.
Definition get_pool (user : bool) (s : pst) : pool :=
  if user then s.(user_pool) else s.(kernel_pool).

Definition palloc_get_multiple (flags page_cnt : Z) : P Z :=
  if page_cnt =? 0 then mret NULL
  else
    let user := flag flags PAL_USER in
    pl ← gets (get_pool user);
    '(m, page_idx) ← lift (bitmap_scan_and_flip pl.(used_map) 0 page_cnt false);
    modify (with_pool user (mk_pool m pl.(pool_base)));;
    let pages := if negb (page_idx =? BITMAP_ERROR)
                 then u32 (pl.(pool_base) + PGSIZE * page_idx) else NULL in
    if negb (pages =? NULL) then
      when (flag flags PAL_ZERO)
        (modify (λ s, with_pmem (fill_pages s.(pmem) pages (Z.to_nat page_cnt) 0) s));;
      mret pages
    else if flag flags PAL_ASSERT then lift Panic
    else mret pages.

Definition palloc_get_page (flags : Z) : P Z := palloc_get_multiple flags 1.

Definition page_from_pool (pl : pool) (page : Z) : bool :=
  let page_no := pg_no page in
  let start_page := pg_no pl.(pool_base) in
  let end_page := u32 (start_page + bitmap_size pl.(used_map)) in
  (start_page <=? page_no) && (page_no <? end_page).

(** NOT_REACHED() stops the kernel. *)
Definition palloc_free_multiple (pages page_cnt : Z) : P unit :=
  lift (ASSERT (pg_ofs pages =? 0));;
  if (pages =? NULL) || (page_cnt =? 0) then mret tt
  else
    k ← gets kernel_pool;
    u ← gets user_pool;
    if page_from_pool k pages || page_from_pool u pages then
      let user := negb (page_from_pool k pages) in
      pl ← gets (get_pool user);
      let page_idx := u32 (pg_no pages - pg_no pl.(pool_base)) in
      modify (λ s, with_pmem (fill_pages s.(pmem) pages (Z.to_nat page_cnt) 3435973836) s);;
      all ← lift (bitmap_all pl.(used_map) page_idx page_cnt);
      lift (ASSERT all);;
      m ← lift (bitmap_set_multiple pl.(used_map) page_idx page_cnt false);
      modify (with_pool user (mk_pool m pl.(pool_base)))
    else lift Panic.

Definition palloc_free_page (page : Z) : P unit := palloc_free_multiple page 1.

(** init_pool() of [page_cnt] pages at [base]; [garbage] is what the elements of
    the bitmap held. *)
Definition init_pool (base page_cnt : Z) (garbage : list Z) : outcome pool :=
  let bm_pages := u32 (bitmap_buf_size page_cnt + PGSIZE - 1) / PGSIZE in
  if page_cnt <? bm_pages then Panic
  else
    let page_cnt := page_cnt - bm_pages in
    b ← bitmap_create_in_buf page_cnt garbage (u32 (bm_pages * PGSIZE));
    Ok (mk_pool b (base + bm_pages * PGSIZE)).

(** palloc_init() on a machine with [init_ram_pages] pages. *)
Definition palloc_init (init_ram_pages user_page_limit : Z) (g1 g2 : list Z)
  : outcome (pool * pool) :=
  free_start ← ptov (1024 * 1024);
  free_end ← ptov (u32 (init_ram_pages * PGSIZE));
  let free_pages := (free_end - free_start) / PGSIZE in
  let user_pages := free_pages / 2 in
  let user_pages := if user_page_limit <? user_pages then user_page_limit else user_pages in
  let kernel_pages := free_pages - user_pages in
  k ← init_pool free_start kernel_pages g1;
  u ← init_pool (free_start + kernel_pages * PGSIZE) user_pages g2;
  Ok (k, u).

(** ** Theory *)

(** The pages of a pool lie in the kernel's mapping of physical memory. *)
Definition pool_wf (pl : pool) : Prop :=
  wf pl.(used_map) ∧ pl.(pool_base) mod 4096 = 0 ∧ PHYS_BASE <= pl.(pool_base) ∧
  pl.(pool_base) + 4096 * bit_cnt pl.(used_map) <= 4294967296 - 4096.

(** Page [k] of a pool. *)
Definition page_at (pl : pool) (k : Z) : Z := pl.(pool_base) + 4096 * k.

Definition pools_wf (s : pst) : Prop :=
  pool_wf s.(kernel_pool) ∧ pool_wf s.(user_pool) ∧
  (page_at s.(kernel_pool) (bit_cnt s.(kernel_pool).(used_map)) <= s.(user_pool).(pool_base) ∨
   page_at s.(user_pool) (bit_cnt s.(user_pool).(used_map)) <= s.(kernel_pool).(pool_base)).

(** Whether the page that address [p] is in is in use. *)
Definition used (s : pst) (p : Z) : bool :=
  if page_from_pool s.(kernel_pool) p
  then bit s.(kernel_pool).(used_map) (pg_no p - pg_no s.(kernel_pool).(pool_base))
  else if page_from_pool s.(user_pool) p
  then bit s.(user_pool).(used_map) (pg_no p - pg_no s.(user_pool).(pool_base))
  else false.

(** Address [p] is in one of the [cnt] pages at [pages]. *)
Definition among (pages cnt p : Z) : bool := (pages <=? p) && (p <? pages + 4096 * cnt).

Lemma get_pool_wf s user : pools_wf s → pool_wf (get_pool user s).
Proof. intros (H1 & H2 & _). by destruct user. Qed.

Lemma with_pool_same s user b :
  (get_pool user (with_pool user (mk_pool b (get_pool user s).(pool_base)) s))
    = mk_pool b (get_pool user s).(pool_base).
Proof. by destruct user. Qed.

Lemma with_pool_other s user pl : get_pool (negb user) (with_pool user pl s) = get_pool (negb user) s.
Proof. by destruct user. Qed.

Lemma pools_wf_update s user b :
  pools_wf s → wf b → bit_cnt b = bit_cnt (get_pool user s).(used_map) →
  pools_wf (with_pool user (mk_pool b (get_pool user s).(pool_base)) s).
Proof.
  intros ((K1 & K2 & K3 & K4) & (U1 & U2 & U3 & U4) & Hd) Hb Hc.
  destruct user; unfold pools_wf, pool_wf, page_at in *; cbn in *; rewrite ?Hc; auto 10.
Qed.

Lemma get_pool_pmem user m s : get_pool user (with_pmem m s) = get_pool user s.
Proof. by destruct user. Qed.

(** Which page of which pool an address is. *)
Lemma page_from_pool_ok pl k :
  pool_wf pl → 0 <= k < bit_cnt pl.(used_map) →
  page_from_pool pl (page_at pl k) = true ∧
  u32 (pg_no (page_at pl k) - pg_no pl.(pool_base)) = k ∧
  pg_ofs (page_at pl k) = 0 ∧ page_at pl k ≠ NULL.
Proof.
  intros (Hw & Ha & Hb & Hs) Hk. pose proof (wf_cnt _ Hw).
  unfold page_from_pool, page_at, bitmap_size, PHYS_BASE in *.
  rewrite !pg_no_div, pg_ofs_mod. split; [|split; [|split]].
  - rewrite u32_small by zdm. apply andb_true_intro. rewrite Z.leb_le, Z.ltb_lt. zdm.
  - rewrite u32_small by zdm. zdm.
  - zdm.
  - lia.
Qed.

Lemma page_other_pool s user k :
  pools_wf s → 0 <= k < bit_cnt (get_pool user s).(used_map) →
  page_from_pool (get_pool (negb user) s) (page_at (get_pool user s) k) = false.
Proof.
  intros ((K1 & K2 & K3 & K4) & (U1 & U2 & U3 & U4) & Hd) Hk.
  pose proof (wf_cnt _ K1). pose proof (wf_cnt _ U1).
  unfold page_from_pool, page_at, bitmap_size, PHYS_BASE in *.
  apply andb_false_iff. rewrite Z.leb_gt, Z.ltb_ge, !pg_no_div.
  destruct user; cbn in *; rewrite u32_small by zdm; zdm.
Qed.

Lemma fill_pages_other m p n w a :
  (∀ i, (i < n)%nat → a ≠ p + 4096 * Z.of_nat i) → fill_pages m p n w !! a = m !! a.
Proof.
  revert m p. induction n as [|n IH]; intros m p Ha; [done|]. cbn [fill_pages].
  change PGSIZE with 4096. rewrite IH.
  - apply lookup_insert_ne. specialize (Ha 0%nat ltac:(lia)). lia.
  - intros i Hi. specialize (Ha (S i) ltac:(lia)). lia.
Qed.

Lemma fill_pages_in m p n w i :
  (i < n)%nat → fill_pages m p n w !! (p + 4096 * Z.of_nat i) = Some (replicate 1024 w).
Proof.
  revert m p i. induction n as [|n IH]; intros m p i Hi; [lia|]. cbn [fill_pages].
  change PGSIZE with 4096. destruct i as [|i].
  - rewrite fill_pages_other by (intros; lia). replace (p + 4096 * Z.of_nat 0) with p by lia.
    apply lookup_insert_eq.
  - replace (p + 4096 * Z.of_nat (S i)) with (p + 4096 + 4096 * Z.of_nat i) by lia.
    apply IH. lia.
Qed.

Lemma from_pool_range pl p :
  pool_wf pl → is_u32 p →
  page_from_pool pl p = (pl.(pool_base) <=? p) && (p <? page_at pl (bit_cnt pl.(used_map))).
Proof.
  intros (Hw & Ha & Hb & Hs) Hp. pose proof (wf_cnt _ Hw).
  unfold page_from_pool, page_at, bitmap_size, PHYS_BASE in *. rewrite !pg_no_div.
  rewrite u32_small by zdm. f_equal.
  - destruct (Z.leb_spec (pool_base pl / 4096) (p / 4096)), (Z.leb_spec (pool_base pl) p); zdm.
  - destruct (Z.ltb_spec (p / 4096) (pool_base pl / 4096 + bit_cnt (used_map pl))),
      (Z.ltb_spec p (pool_base pl + 4096 * bit_cnt (used_map pl))); zdm.
Qed.

(** Changing the bits of a range of one pool changes the use of those pages. *)
Lemma used_update s user b idx cnt v :
  pools_wf s → wf b → bit_cnt b = bit_cnt (get_pool user s).(used_map) →
  0 <= idx → 0 <= cnt → idx + cnt <= bit_cnt b →
  (∀ j, 0 <= j → bit b j = if in_range idx cnt j then v else bit (get_pool user s).(used_map) j) →
  let s' := with_pool user (mk_pool b (get_pool user s).(pool_base)) s in
  ∀ p, is_u32 p →
    used s' p = if among (page_at (get_pool user s) idx) cnt p then v else used s p.
Proof.
  intros Hp Hb Hc H0 Hcnt Hle Hbit s' p Hu.
  pose proof (pools_wf_update s user b Hp Hb Hc) as Hp'. fold s' in Hp'.
  pose proof Hp as (Hk & Huu & Hd). pose proof Hp' as (Hk' & Hu' & _).
  pose proof Hk as (_ & KA & KB & KC). pose proof Huu as (_ & UA & UB & UC).
  unfold used. rewrite !from_pool_range by done. rewrite !pg_no_div.
  unfold among, in_range, page_at, PHYS_BASE in *. subst s'. destruct user; cbn in *; rewrite ?Hc in *.
  all: repeat match goal with
    | |- context [?x <=? ?y] => destruct (Z.leb_spec x y)
    | |- context [?x <? ?y] => destruct (Z.ltb_spec x y) end; cbn [andb]; try done; try lia.
  all: rewrite Hbit by zdm; repeat match goal with
    | |- context [?x <=? ?y] => destruct (Z.leb_spec x y)
    | |- context [?x <? ?y] => destruct (Z.ltb_spec x y) end; cbn [andb]; try done; zdm.
Qed.

Lemma palloc_get_ok s flags cnt :
  pools_wf s → 0 < cnt →
  let user := flag flags PAL_USER in
  let pl := get_pool user s in
  (∃ s' idx, palloc_get_multiple flags cnt s = Ok (page_at pl idx, s') ∧
     0 <= idx ∧ idx + cnt <= bit_cnt pl.(used_map) ∧
     run_of pl.(used_map) idx cnt false ∧ pools_wf s' ∧
     (get_pool user s').(pool_base) = pl.(pool_base) ∧
     bit_cnt (get_pool user s').(used_map) = bit_cnt pl.(used_map) ∧
     run_of (get_pool user s').(used_map) idx cnt true ∧
     (∀ p, is_u32 p → used s' p = if among (page_at pl idx) cnt p then true else used s p) ∧
     s'.(pmem) = if flag flags PAL_ZERO
                 then fill_pages s.(pmem) (page_at pl idx) (Z.to_nat cnt) 0 else s.(pmem)) ∨
  ((∀ i, ¬ group_at pl.(used_map) 0 cnt false i) ∧
   palloc_get_multiple flags cnt s =
     if flag flags PAL_ASSERT then Panic else Ok (NULL, s)).
Proof.
  intros Hp Hcnt user pl. pose proof (get_pool_wf s user Hp) as Hpl. fold pl in Hpl.
  pose proof Hpl as (Hw & Ha & Hb & Hs). pose proof (wf_cnt _ Hw).
  unfold palloc_get_multiple. rewrite (proj2 (Z.eqb_neq _ _)) by lia. fold user. cbv zeta.
  rewrite run_gets. fold pl.
  destruct (bitmap_scan_and_flip_ok (used_map pl) 0 cnt false Hw ltac:(lia) ltac:(lia))
    as (b & r & E & Hwb & Hbc & Hr).
  rewrite (run_lift _ _ _ _ E), run_modify. destruct Hr as [(-> & -> & Hno)|(Hlt & Hg & _ & Hbit)].
  - right. split; [done|]. cbn [negb Z.eqb BITMAP_ERROR Pos.eqb].
    destruct (flag flags PAL_ASSERT); [done|]. unfold mret, st_ret. do 2 f_equal.
    unfold pl. destruct s as [[] [] ?], user; done.
  - left. destruct Hg as (Hg1 & Hg2 & Hg3). unfold PHYS_BASE in *.
    set (s1 := with_pool user (mk_pool b (pool_base pl)) s).
    rewrite (proj2 (Z.eqb_neq r _)) by lia. cbn [negb]. change PGSIZE with 4096.
    rewrite u32_small by lia. fold (page_at pl r).
    rewrite (proj2 (Z.eqb_neq _ _)) by (unfold page_at; lia). cbn [negb].
    assert (Hrun : run_of b r cnt true).
    { intros j Hj. rewrite Hbit by lia. unfold in_range.
      by rewrite (proj2 (Z.leb_le _ _)), (proj2 (Z.ltb_lt _ _)) by lia. }
    exists (if flag flags PAL_ZERO then with_pmem (fill_pages (pmem s1) (page_at pl r) (Z.to_nat cnt) 0) s1
            else s1), r.
    assert (Hpm : pmem s1 = pmem s) by (unfold s1; by destruct user).
    assert (Hgp : get_pool user s1 = mk_pool b (pool_base pl)) by apply with_pool_same.
    assert (Hus : ∀ p, is_u32 p → used s1 p = if among (page_at pl r) cnt p then true else used s p)
      by (intros p Hp'; by apply (used_update s user b r cnt true); try lia).
    assert (Hp1 : pools_wf s1) by by apply pools_wf_update.
    split; [by destruct (flag flags PAL_ZERO)|]. split; [done|]. split; [done|].
    split; [done|].
    destruct (flag flags PAL_ZERO); rewrite ?get_pool_pmem, ?Hgp; cbn [used_map pool_base pmem];
      rewrite ?Hpm; do 5 (split; [done|]); done.
Qed.

Lemma palloc_free_ok s user idx cnt :
  pools_wf s → 0 < cnt → 0 <= idx → idx + cnt <= bit_cnt (get_pool user s).(used_map) →
  let pages := page_at (get_pool user s) idx in
  (run_of (get_pool user s).(used_map) idx cnt true →
   ∃ s', palloc_free_multiple pages cnt s = Ok (tt, s') ∧ pools_wf s' ∧
     (get_pool user s').(pool_base) = (get_pool user s).(pool_base) ∧
     bit_cnt (get_pool user s').(used_map) = bit_cnt (get_pool user s).(used_map) ∧
     run_of (get_pool user s').(used_map) idx cnt false ∧
     (∀ p, is_u32 p → used s' p = if among pages cnt p then false else used s p) ∧
     s'.(pmem) = fill_pages s.(pmem) pages (Z.to_nat cnt) 3435973836 ∧
     get_pool (negb user) s' = get_pool (negb user) s) ∧
  (¬ run_of (get_pool user s).(used_map) idx cnt true →
   palloc_free_multiple pages cnt s = Panic).
Proof.
  intros Hp Hcnt Hi Hle pages. pose proof (get_pool_wf s user Hp) as Hpl.
  pose proof Hpl as (Hw & _).
  destruct (page_from_pool_ok (get_pool user s) idx Hpl ltac:(lia)) as (Hfrom & Hidx & Hofs & Hnn).
  pose proof (page_other_pool s user idx Hp ltac:(lia)) as Hother.
  set (s1 := with_pmem (fill_pages (pmem s) pages (Z.to_nat cnt) 3435973836) s).
  assert (Hpre : palloc_free_multiple pages cnt s =
    (all ← lift (bitmap_all (used_map (get_pool user s)) idx cnt);
     lift (ASSERT all);;
     m ← lift (bitmap_set_multiple (used_map (get_pool user s)) idx cnt false);
     modify (with_pool user (mk_pool m (pool_base (get_pool user s))))) s1).
  { unfold palloc_free_multiple. rewrite (run_lift _ _ _ tt) by (apply ASSERT_true, Z.eqb_eq; done).
    rewrite !(proj2 (Z.eqb_neq _ _)) by (done || lia). cbn [orb]. rewrite !run_gets.
    unfold pages in *. destruct user; cbn [get_pool negb] in *; rewrite ?Hfrom, ?Hother; cbn [orb negb];
      rewrite run_gets, run_modify; cbn [get_pool]; rewrite Hidx; done. }
  rewrite Hpre.
  destruct (bitmap_contains_ok _ idx cnt Hw Hi ltac:(lia) Hle false) as (r & Er & Hr).
  assert (Hall : bitmap_all (used_map (get_pool user s)) idx cnt = Ok (negb r))
    by (unfold bitmap_all; by rewrite Er).
  rewrite (run_lift _ _ _ _ Hall). split.
  - intros Hrun. apply Hr in Hrun as ->. rewrite (run_lift _ _ _ tt) by done.
    destruct (bitmap_set_multiple_ok _ idx cnt Hw Hi ltac:(lia) Hle false) as (b & E & Hb & Hc & Hbit).
    rewrite (run_lift _ _ _ _ E). eexists. split; [done|].
    assert (Hg1 : get_pool user s1 = get_pool user s) by apply get_pool_pmem.
    rewrite <-Hg1 in Hc, Hbit |- *.
    split; [by apply pools_wf_update|]. rewrite with_pool_same. cbn [pool_base used_map].
    split; [done|]. split; [done|]. split.
    { intros j Hj. rewrite Hbit by lia. unfold in_range.
      by rewrite (proj2 (Z.leb_le _ _)), (proj2 (Z.ltb_lt _ _)) by lia. }
    split.
    + intros p Hu. rewrite (used_update s1 user b idx cnt false) by (done || lia || congruence).
      rewrite Hg1. done.
    + split; [by destruct user|]. rewrite with_pool_other. apply get_pool_pmem.
  - intros Hno. destruct r; [done|]. destruct Hno. by apply Hr.
Qed.

(** A page of a pool is in use exactly when its bit is set. *)
Lemma used_page_at s user k :
  pools_wf s → 0 <= k < bit_cnt (get_pool user s).(used_map) →
  used s (page_at (get_pool user s) k) = bit (get_pool user s).(used_map) k.
Proof.
  intros Hp Hk. pose proof (get_pool_wf s user Hp) as Hpl. pose proof Hpl as (Hw & Ha & Hb & Hs).
  destruct (page_from_pool_ok _ k Hpl Hk) as (Hf & _).
  pose proof (page_other_pool s user k Hp Hk) as Hoth.
  assert (Hno : pg_no (page_at (get_pool user s) k) - pg_no (pool_base (get_pool user s)) = k).
  { unfold page_at. rewrite !pg_no_div. zdm. }
  unfold used. destruct user; cbn [get_pool negb] in *; by rewrite ?Hoth, Hf, Hno.
Qed.

(** Addresses within one page are used or free together. *)
Lemma used_same_page s kp q : kp mod 4096 = 0 → among kp 1 q = true → used s q = used s kp.
Proof.
  intros Ha H. unfold among in H. apply andb_true_iff in H as [A1 A2].
  apply Z.leb_le in A1. apply Z.ltb_lt in A2.
  unfold used, page_from_pool. rewrite !pg_no_div. by replace (q / 4096) with (kp / 4096) by zdm.
Qed.

Lemma among_self kp : among kp 1 kp = true.
Proof. unfold among. apply andb_true_iff. split; [apply Z.leb_le|apply Z.ltb_lt]; lia. Qed.

(** Two states of a pool. *)
Definition same_size (pl pl' : pool) : Prop :=
  pl'.(pool_base) = pl.(pool_base) ∧ bit_cnt pl'.(used_map) = bit_cnt pl.(used_map).

(** One page: either a page that was free, or the pool is full. *)
Lemma palloc_page_ok s flags :
  pools_wf s →
  let pl := get_pool (flag flags PAL_USER) s in
  (∃ s' page, palloc_get_page flags s = Ok (page, s') ∧ pools_wf s' ∧ kernel_page page ∧
     used s page = false ∧
     (∀ p, is_u32 p → used s' p = if among page 1 p then true else used s p) ∧
     s'.(pmem) = (if flag flags PAL_ZERO then <[page := replicate 1024 0]> s.(pmem) else s.(pmem)) ∧
     page_from_pool pl page = true ∧ same_size pl (get_pool (flag flags PAL_USER) s')) ∨
  ((∀ i, 0 <= i < bit_cnt pl.(used_map) → bit pl.(used_map) i = true) ∧
   palloc_get_page flags s = if flag flags PAL_ASSERT then Panic else Ok (NULL, s)).
Proof.
  intros Hp pl. set (user := flag flags PAL_USER) in *.
  pose proof (get_pool_wf s user Hp) as Hpl. fold pl in Hpl. pose proof Hpl as (Hw & Ha & Hb & Hs).
  unfold palloc_get_page. destruct (palloc_get_ok s flags 1 Hp ltac:(lia)) as
    [(s' & idx & E & Hi & Hle & Hfree & Hp' & Hbs & Hcs & _ & Hus & Hpm)|[Hno E]];
    fold user in E; fold pl in E; [left|right].
  - fold user in Hus, Hfree, Hpm, Hle. fold pl in Hus, Hfree, Hpm, Hle.
    exists s', (page_at pl idx). split; [done|]. split; [done|]. split.
    { unfold kernel_page, page_at, PHYS_BASE in *. split; [lia|zdm]. }
    destruct (page_from_pool_ok pl idx Hpl ltac:(lia)) as (Hfrom & _).
    split; [|done]. unfold pl. rewrite used_page_at by (done || fold pl; lia). apply Hfree. lia.
  - split; [|done]. intros i Hi. destruct (bit (used_map pl) i) eqn:Eb; [done|].
    destruct (Hno i). split; [lia|]. split; [fold user pl; lia|]. intros j Hj. fold user pl.
    by replace j with i by lia.
Qed.

Lemma palloc_get_page_ok s flags :
  pools_wf s → flag flags PAL_ASSERT = false →
  let pl := get_pool (flag flags PAL_USER) s in
  (∃ s' page, palloc_get_page flags s = Ok (page, s') ∧ pools_wf s' ∧ kernel_page page ∧
     used s page = false ∧
     (∀ p, is_u32 p → used s' p = if among page 1 p then true else used s p) ∧
     s'.(pmem) = (if flag flags PAL_ZERO then <[page := replicate 1024 0]> s.(pmem) else s.(pmem)) ∧
     page_from_pool pl page = true ∧ same_size pl (get_pool (flag flags PAL_USER) s')) ∨
  ((∀ i, 0 <= i < bit_cnt pl.(used_map) → bit pl.(used_map) i = true) ∧
   palloc_get_page flags s = Ok (NULL, s)).
Proof. intros Hp Hna. pose proof (palloc_page_ok s flags Hp) as H. by rewrite Hna in H. Qed.

(** Allocation leaves the other pool alone. *)
Lemma palloc_get_other s flags cnt r s' :
  palloc_get_multiple flags cnt s = Ok (r, s') →
  get_pool (negb (flag flags PAL_USER)) s' = get_pool (negb (flag flags PAL_USER)) s.
Proof.
  unfold palloc_get_multiple. destruct (cnt =? 0); [by intros [= <- <-]|]. cbv zeta. rewrite run_gets.
  destruct (bitmap_scan_and_flip _ _ _ _) as [[m idx]| | |] eqn:E; try done.
  rewrite (run_lift _ _ _ (m, idx)) by done. rewrite run_modify.
  destruct (negb (_ =? NULL)).
  - destruct (flag flags PAL_ZERO); intros [= <- <-]; rewrite ?get_pool_pmem; apply with_pool_other.
  - destruct (flag flags PAL_ASSERT); [done|]. intros [= <- <-]. apply with_pool_other.
Qed.

(** An aligned page that is in use is a page of one of the pools. *)
Lemma used_is_page s p :
  pools_wf s → is_u32 p → p mod 4096 = 0 → used s p = true →
  ∃ user k, 0 <= k < bit_cnt (get_pool user s).(used_map) ∧ p = page_at (get_pool user s) k ∧
    bit (get_pool user s).(used_map) k = true.
Proof.
  intros Hp Hu Ha Hused. pose proof Hp as (Hk & Huu & _).
  pose proof Hk as (_ & KA & _). pose proof Huu as (_ & UA & _). unfold used in Hused.
  rewrite !from_pool_range, !pg_no_div in Hused by done.
  destruct (_ && _) eqn:E1 in Hused; [|destruct (_ && _) eqn:E2 in Hused; [|done]].
  - exists false, (p / 4096 - pool_base (kernel_pool s) / 4096). cbn [get_pool].
    apply andb_true_iff in E1 as [? ?]. unfold page_at in *.
    split; [zdm|]. split; [zdm|done].
  - exists true, (p / 4096 - pool_base (user_pool s) / 4096). cbn [get_pool].
    apply andb_true_iff in E2 as [? ?]. unfold page_at in *.
    split; [zdm|]. split; [zdm|done].
Qed.

Lemma palloc_free_page_ok s p :
  pools_wf s → is_u32 p → p mod 4096 = 0 → used s p = true →
  ∃ s', palloc_free_page p s = Ok (tt, s') ∧ pools_wf s' ∧
    (∀ q, is_u32 q → used s' q = if among p 1 q then false else used s q) ∧
    s'.(pmem) = <[p := replicate 1024 3435973836]> s.(pmem) ∧
    (page_from_pool s.(user_pool) p = true →
     same_size s.(user_pool) s'.(user_pool) ∧ s'.(kernel_pool) = s.(kernel_pool)) ∧
    same_size s.(kernel_pool) s'.(kernel_pool) ∧ same_size s.(user_pool) s'.(user_pool).
Proof.
  intros Hp Hu Ha Hused. destruct (used_is_page s p Hp Hu Ha Hused) as (user & k & Hk & -> & Hbit).
  destruct (palloc_free_ok s user k 1 Hp ltac:(lia) ltac:(lia) ltac:(lia)) as [H _].
  destruct H as (s' & E & Hp' & Hb & Hc & _ & Hus & Hpm & Ho').
  { intros j Hj. by replace j with k by lia. }
  exists s'. do 4 (split; [done|]). pose proof (page_other_pool s user k Hp Hk) as Ho.
  destruct user; cbn [get_pool negb] in *; (split; [|by rewrite Ho']).
  - intros _. split; [by split|done].
  - intros Hf. congruence.
Qed.

(** ** Properties *)


(** A kernel pool of 40 pages, the first three in use, and a user pool of 8. *)
Definition demo_pst : pst :=
  mk_pst (mk_pool (mk_bitmap 40 [7; 0]) 3222274048) (mk_pool (mk_bitmap 8 [0]) 3223322624) ∅.

Lemma demo_pools_wf : pools_wf demo_pst.
Proof. by repeat (split || constructor). Qed.


(** Pages that were just allocated can be freed, which makes exactly those
    pages free again and overwrites them with 0xcc bytes; freeing them a second
    time stops the kernel. *)
Theorem palloc_free_get s flags cnt pages s1 :
  pools_wf s → 0 < cnt → palloc_get_multiple flags cnt s = Ok (pages, s1) → pages ≠ NULL →
  ∃ s2, palloc_free_multiple pages cnt s1 = Ok (tt, s2) ∧ pools_wf s2 ∧
    (∀ p, is_u32 p → used s2 p = if among pages cnt p then false else used s p) ∧
    (∀ i : nat, Z.of_nat i < cnt →
       s2.(pmem) !! (pages + 4096 * Z.of_nat i) = Some (replicate 1024 3435973836)) ∧
    palloc_free_multiple pages cnt s2 = Panic.
Proof.
  intros Hp Hcnt E Hnn. set (user := flag flags PAL_USER).
  destruct (palloc_get_ok s flags cnt Hp Hcnt) as
    [(s' & idx & E' & Hi & Hle & _ & Hp' & Hb & Hc & Hrun & Hus & _)|[_ H]]; cycle 1.
  { rewrite E in H. by destruct (flag flags PAL_ASSERT); simplify_eq. }
  rewrite E in E'. injection E' as -> <-. fold user in Hb, Hc, Hrun, Hus, Hle |- *.
  assert (Hpg : page_at (get_pool user s) idx = page_at (get_pool user s1) idx)
    by (unfold page_at; by rewrite Hb).
  rewrite Hpg in *. rewrite <-Hc in Hle.
  destruct (palloc_free_ok s1 user idx cnt Hp' Hcnt Hi Hle) as [H _].
  destruct (H Hrun) as (s2 & E2 & Hp2 & Hb2 & Hc2 & Hrun2 & Hus2 & Hpm2 & _).
  exists s2. split; [done|]. split; [done|]. split; [|split].
  - intros p Hu. rewrite Hus2, Hus by done. by destruct (among _ cnt p).
  - intros i Hi'. rewrite Hpm2. apply fill_pages_in. lia.
  - assert (Hpg2 : page_at (get_pool user s1) idx = page_at (get_pool user s2) idx)
      by (unfold page_at; by rewrite Hb2).
    rewrite Hpg2. rewrite <-Hc2 in Hle.
    destruct (palloc_free_ok s2 user idx cnt Hp2 Hcnt Hi Hle) as [_ H2]. apply H2.
    intros Hr. specialize (Hr idx ltac:(lia)). by rewrite (Hrun2 idx ltac:(lia)) in Hr.
Qed.

Lemma palloc_free_get_witness :
  ∃ s1 s2, palloc_get_multiple 0 2 demo_pst = Ok (3222286336, s1) ∧
    palloc_free_multiple 3222286336 2 s1 = Ok (tt, s2) ∧
    palloc_free_multiple 3222286336 2 s2 = Panic.
Proof.
  destruct (palloc_get_multiple 0 2 demo_pst) as [[pages s1]| | |] eqn:E;
    [|by vm_compute in E..].
  assert (pages = 3222286336) as -> by (vm_compute in E; congruence).
  destruct (palloc_free_get demo_pst 0 2 3222286336 s1 demo_pools_wf) as (s2 & E2 & _ & _ & _ & E3);
    [done|exact E|done|].
  exists s1, s2. done.
Defined.
