(* ===== verification/Malloc.v ===== *)
(** * The block allocator: threads/malloc.c

    Blocks of 16 to 1024 bytes come from arenas, pages divided into blocks of one
    size with a header of 12 bytes; larger ones are whole pages behind such a
    header.  The state has the pages of Palloc.v, the arena headers by the address
    of their page, and the descriptors with their free lists, sequences of block
    addresses.  A page that holds no arena header fails the check of the magic
    number, as a freed page does.  The contents of blocks are not modelled, so
    that realloc() does not show its copy and calloc() not its zeros.  A
    descriptor is only used while its lock is held, so that each function is one
    step. *)

From S2P Require Import Prelude Bitmap Vaddr Palloc.

Open Scope Z_scope.

(** ** Definitions *)

Record desc := mk_desc { block_size : Z; blocks_per_arena : Z; free_list : list Z }.

(** [a_desc] is the index of the descriptor, or [None] for a big block. *)
Record arena := mk_arena { a_desc : option nat; free_cnt : Z }.

Record hst := mk_hst { h_pal : pst; descs : list desc; arenas : gmap Z arena }.

Abbreviation H := (st hst).

Definition use_pages {A} (m : P A) : H A := λ s,
  match m s.(h_pal) with
  | Ok (a, p) => Ok (a, mk_hst p s.(descs) s.(arenas))
  | Panic => Panic | Wild => Wild | NoFuel => NoFuel
  end.

(** sizeof (struct arena). *)
Definition ARENA_SIZE : Z := 12.

Definition get_desc (i : nat) : H desc := l ← gets descs; lift (deref (l !! i)).
Definition put_desc (i : nat) (d : desc) : H unit :=
  modify (λ s, mk_hst s.(h_pal) (<[i := d]> s.(descs)) s.(arenas)).
Definition set_free (d : desc) (l : list Z) : desc := mk_desc d.(block_size) d.(blocks_per_arena) l.

(** The header at an address whose magic number is right. *)
Definition get_arena (a : Z) : H arena :=
  m ← gets arenas; match m !! a with Some ar => mret ar | None => lift Panic end.
Definition put_arena (a : Z) (ar : arena) : H unit :=
  modify (λ s, mk_hst s.(h_pal) s.(descs) (<[a := ar]> s.(arenas))).
Definition drop_arena (a : Z) : H unit :=
  modify (λ s, mk_hst s.(h_pal) s.(descs) (delete a s.(arenas))).

Definition block_to_arena (b : Z) : H Z :=
  let a := pg_round_down b in
  lift (ASSERT (negb (a =? NULL)));;
  ar ← get_arena a;
  match ar.(a_desc) with
  | Some i => d ← get_desc i; lift (ASSERT (u32 (pg_ofs b - ARENA_SIZE) mod d.(block_size) =? 0))
  | None => lift (ASSERT (pg_ofs b =? ARENA_SIZE))
  end;;
  mret a.

Definition arena_to_block (a idx : Z) : H Z :=
  lift (ASSERT (negb (a =? NULL)));;
  ar ← get_arena a;
  match ar.(a_desc) with
  | Some i =>
      d ← get_desc i;
      lift (ASSERT (idx <? d.(blocks_per_arena)));;
      mret (a + ARENA_SIZE + idx * d.(block_size))
  | None => lift Wild
  end.

(** malloc_init(): the sizes are the powers of two from 16 to less than half a
    page. *)
Fixpoint make_descs (fuel : nat) (size : Z) : list desc :=
  match fuel with
  | O => []
  | S n => if size <? PGSIZE / 2
           then mk_desc size ((PGSIZE - ARENA_SIZE) / size) [] :: make_descs n (2 * size)
           else []
  end.

Definition malloc_init : H unit := modify (λ s, mk_hst s.(h_pal) (make_descs 10 16) s.(arenas)).

(** The index of the first descriptor with blocks of at least SIZE bytes. *)
Fixpoint find_desc (l : list desc) (size : Z) (i : nat) : option nat :=
  match l with
  | [] => None
  | d :: l => if size <=? d.(block_size) then Some i else find_desc l size (S i)
  end.

(** Putting the blocks of a new arena on the free list of its descriptor. *)
Definition add_blocks (a : Z) (i : nat) (n : Z) : H unit :=
  for_st (Z.to_nat n) 0 (λ k,
    b ← arena_to_block a k;
    d ← get_desc i;
    put_desc i (set_free d (d.(free_list) ++ [b]))).

Definition new_arena (i : nat) (d : desc) : H bool :=
  a ← use_pages (palloc_get_page 0);
  if a =? NULL then mret false
  else
    put_arena a (mk_arena (Some i) d.(blocks_per_arena));;
    add_blocks a i d.(blocks_per_arena);;
    mret true.

(** Taking the first block of a free list. *)
Definition take_block (i : nat) : H Z :=
  d ← get_desc i;
  match d.(free_list) with
  | [] => lift Panic
  | b :: l =>
      put_desc i (set_free d l);;
      a ← block_to_arena b;
      ar ← get_arena a;
      put_arena a (mk_arena ar.(a_desc) (u32 (ar.(free_cnt) - 1)));;
      mret b
  end.

Definition malloc (size : Z) : H Z :=
  if size =? 0 then mret NULL
  else
    l ← gets descs;
    match find_desc l size 0 with
    | None =>
        let page_cnt := u32 (u32 (size + ARENA_SIZE) + PGSIZE - 1) / PGSIZE in
        a ← use_pages (palloc_get_multiple 0 page_cnt);
        if a =? NULL then mret NULL
        else put_arena a (mk_arena None page_cnt);; mret (a + ARENA_SIZE)
    | Some i =>
        d ← get_desc i;
        ok ← (match d.(free_list) with [] => new_arena i d | _ => mret true end);
        if negb ok then mret NULL else take_block i
    end.

Definition calloc (a b : Z) : H Z :=
  let size := u32 (a * b) in
  if (size <? a) || (size <? b) then mret NULL else malloc size.

Definition block_size_of (block : Z) : H Z :=
  a ← block_to_arena block;
  ar ← get_arena a;
  match ar.(a_desc) with
  | Some i => d ← get_desc i; mret d.(block_size)
  | None => mret (u32 (PGSIZE * ar.(free_cnt) - pg_ofs block))
  end.

(** Taking the blocks of an arena off the free list. *)
Definition remove_blocks (a : Z) (i : nat) (n : Z) : H unit :=
  for_st (Z.to_nat n) 0 (λ k,
    b ← arena_to_block a k;
    d ← get_desc i;
    put_desc i (set_free d (filter (λ x, x ≠ b) d.(free_list)))).

Definition free (p : Z) : H unit :=
  if p =? NULL then mret tt
  else
    a ← block_to_arena p;
    ar ← get_arena a;
    match ar.(a_desc) with
    | Some i =>
        d ← get_desc i;
        put_desc i (set_free d (p :: d.(free_list)));;
        let cnt := u32 (ar.(free_cnt) + 1) in
        put_arena a (mk_arena ar.(a_desc) cnt);;
        if d.(blocks_per_arena) <=? cnt then
          lift (ASSERT (cnt =? d.(blocks_per_arena)));;
          remove_blocks a i d.(blocks_per_arena);;
          use_pages (palloc_free_page a);;
          drop_arena a
        else mret tt
    | None =>
        use_pages (palloc_free_multiple a ar.(free_cnt));;
        drop_arena a
    end.

Definition realloc (old_block new_size : Z) : H Z :=
  if new_size =? 0 then free old_block;; mret NULL
  else
    new_block ← malloc new_size;
    (if negb (old_block =? NULL) && negb (new_block =? NULL) then
       block_size_of old_block;; free old_block
     else mret tt);;
    mret new_block.

(** ** Runs of pages

    [n] pages from [a] on that have been taken from the kernel pool. *)
Definition pages_ok (s : pst) (a n : Z) : Prop :=
  ∃ idx, a = page_at s.(kernel_pool) idx ∧ 0 <= idx ∧ 1 <= n ∧ idx + n <= bit_cnt s.(kernel_pool).(used_map) ∧
    ∀ k, 0 <= k < n → used s (a + 4096 * k) = true.

Definition apart (a n b m : Z) : Prop := a + 4096 * n <= b ∨ b + 4096 * m <= a.

Lemma pages_ok_range s a n : pools_wf s → pages_ok s a n → kernel_page a ∧ a + 4096 * n <= 4294967296 - 4096 ∧ 1 <= n.
Proof.
  intros ((_ & Ha & Hb & Hs) & _) (idx & -> & Hi & Hn & Hle & _). unfold page_at, kernel_page, PHYS_BASE in *.
  split; [split; [lia|zdm]|lia].
Qed.

(** The same run when the pool has changed elsewhere. *)
Lemma pages_ok_mono s s' a n :
  pages_ok s a n → same_size s.(kernel_pool) s'.(kernel_pool) →
  (∀ k, 0 <= k < n → used s' (a + 4096 * k) = true) → pages_ok s' a n.
Proof.
  intros (idx & -> & Hi & Hn & Hle & _) [Hb Hc] Hu. exists idx. unfold page_at in *. rewrite Hb, Hc. done.
Qed.

Lemma get_pages_ok s n :
  pools_wf s → 0 < n →
  (∃ a s', palloc_get_multiple 0 n s = Ok (a, s') ∧ pools_wf s' ∧ pages_ok s' a n ∧
     ∀ b m, pages_ok s b m → pages_ok s' b m ∧ apart a n b m) ∨
  palloc_get_multiple 0 n s = Ok (NULL, s).
Proof.
  intros Hp Hn. pose proof Hp as ((Hw & Ha & Hb & Hs) & _).
  destruct (palloc_get_ok s 0 n Hp Hn) as [(s' & idx & E & Hi & Hle & Hrun & Hp' & Hb' & Hc' & _ & Hu & _)|[_ E]];
    [left|by right].
  change (get_pool (flag 0 PAL_USER)) with kernel_pool in *.
  exists (page_at s.(kernel_pool) idx), s'. split; [done|]. split; [done|].
  assert (Hpg : ∀ k, page_at s.(kernel_pool) idx + 4096 * k = page_at s.(kernel_pool) (idx + k))
    by (intros; unfold page_at; lia).
  assert (Hrange : ∀ k, 0 <= k < bit_cnt s.(kernel_pool).(used_map) → is_u32 (page_at s.(kernel_pool) k))
    by (intros; unfold page_at, PHYS_BASE in *; lia).
  split.
  - exists idx. unfold page_at. rewrite Hb', Hc'. do 4 (split; [done || lia|]). intros k Hk.
    fold (page_at s.(kernel_pool) idx). rewrite Hu by (rewrite Hpg; apply Hrange; lia).
    unfold among. by rewrite (proj2 (Z.leb_le _ _)), (proj2 (Z.ltb_lt _ _)) by lia.
  - intros b m Hbm. pose proof Hbm as (j & Ej & Hj & Hm & Hjm & Hjk). split.
    + apply (pages_ok_mono s s' b m Hbm); [done|]. intros k Hk. rewrite Hu.
      * destruct (among _ _ _); [done|auto].
      * rewrite Ej. replace (page_at _ j + 4096 * k) with (page_at s.(kernel_pool) (j + k)) by (unfold page_at; lia).
        apply Hrange. lia.
    + (* a common page would be both free and in use *)
      unfold apart. rewrite Ej. unfold page_at.
      destruct (decide (idx + n <= j)) as [|H1]; [left; lia|].
      destruct (decide (j + m <= idx)) as [|H2]; [right; lia|]. exfalso.
      set (k := Z.max idx j). specialize (Hjk (k - j) ltac:(unfold k; lia)).
      replace (b + 4096 * (k - j)) with (page_at (get_pool false s) k) in Hjk by (subst b; unfold page_at; cbn; lia).
      rewrite used_page_at in Hjk by (done || (cbn; unfold k; lia)). cbn [get_pool] in Hjk. rewrite (Hrun k) in Hjk by (unfold k; lia). done.
Qed.

Lemma free_pages_ok s a n :
  pools_wf s → pages_ok s a n →
  ∃ s', palloc_free_multiple a n s = Ok (tt, s') ∧ pools_wf s' ∧
    ∀ b m, pages_ok s b m → apart a n b m → pages_ok s' b m.
Proof.
  intros Hp (idx & -> & Hi & Hn & Hle & Hu). pose proof Hp as ((Hw & Ha & Hb & Hs) & _).
  destruct (palloc_free_ok s false idx n Hp ltac:(lia) Hi Hle) as [H _].
  destruct H as (s' & E & Hp' & Hb' & Hc' & _ & Hu' & _).
  { intros k Hk. specialize (Hu (k - idx) ltac:(lia)).
    replace (page_at _ idx + 4096 * (k - idx)) with (page_at (get_pool false s) k) in Hu by (unfold page_at; cbn; lia).
    by rewrite used_page_at in Hu by (done || (cbn in *; lia)). }
  cbn [get_pool] in *. exists s'. split; [done|]. split; [done|]. intros b m Hbm Hap.
  pose proof Hbm as (j & Ej & Hj & Hm & Hjm & Hjk). apply (pages_ok_mono s s' b m Hbm); [done|].
  intros k Hk. rewrite Hu'.
  - unfold among. unfold apart in Hap.
    destruct (Z.leb_spec (page_at s.(kernel_pool) idx) (b + 4096 * k)), (Z.ltb_spec (b + 4096 * k) (page_at s.(kernel_pool) idx + 4096 * n));
      cbn [andb]; auto. lia.
  - rewrite Ej. unfold page_at, PHYS_BASE in *. lia.
Qed.

(** ** The heap *)

(** The blocks of an arena of descriptor [d] at [a]. *)
Definition blocks (a : Z) (d : desc) : list Z :=
  (λ k, a + 12 + k * d.(block_size)) <$> seqZ 0 d.(blocks_per_arena).

Definition desc_ok (d : desc) : Prop :=
  16 <= d.(block_size) <= 1024 ∧ d.(blocks_per_arena) = 4084 / d.(block_size).

Lemma desc_ok_bounds d : desc_ok d → 3 <= d.(blocks_per_arena) ∧ 12 + d.(blocks_per_arena) * d.(block_size) <= 4096.
Proof.
  intros [Hs Hb]. rewrite Hb. pose proof (Z.mul_div_le 4084 d.(block_size) ltac:(lia)).
  split; [apply Z.div_le_lower_bound; lia|lia].
Qed.

Lemma elem_of_blocks a d b :
  b ∈ blocks a d ↔ ∃ k, b = a + 12 + k * d.(block_size) ∧ 0 <= k < d.(blocks_per_arena).
Proof.
  unfold blocks. rewrite list_elem_of_fmap. split.
  - intros (k & -> & Hk%elem_of_seqZ). exists k. split; [done|lia].
  - intros (k & -> & Hk). exists k. split; [done|]. apply elem_of_seqZ. lia.
Qed.

Lemma NoDup_blocks a d : desc_ok d → NoDup (blocks a d).
Proof.
  intros [Hs _]. apply NoDup_fmap_2_strong; [|apply NoDup_seqZ]. intros x y _ _ E. nia.
Qed.

Lemma length_blocks a d : 0 <= d.(blocks_per_arena) → Z.of_nat (length (blocks a d)) = d.(blocks_per_arena).
Proof. intros. unfold blocks. rewrite length_fmap, length_seqZ. lia. Qed.

(** A block lies in the page of its arena. *)
Lemma block_page a d b :
  desc_ok d → a mod 4096 = 0 → b ∈ blocks a d →
  a + 12 <= b ∧ b + d.(block_size) <= a + 4096 ∧ b - b mod 4096 = a ∧ (b mod 4096 - 12) mod d.(block_size) = 0.
Proof.
  intros Hd Ha (k & -> & Hk)%elem_of_blocks. destruct (desc_ok_bounds d Hd) as [H3 Hfit]. destruct Hd as [Hs _].
  assert (Hkb : 0 <= k * d.(block_size) ∧ k * d.(block_size) + d.(block_size) <= d.(blocks_per_arena) * d.(block_size)) by nia.
  assert (Hm : (a + 12 + k * d.(block_size)) mod 4096 = 12 + k * d.(block_size)) by (set (x := k * _) in *; clearbody x; zdm).
  rewrite Hm. split; [lia|]. split; [lia|]. split; [lia|].
  replace (12 + k * d.(block_size) - 12) with (k * d.(block_size)) by lia. by apply Z_mod_mult.
Qed.

(** How many pages an arena is. *)
Definition npages (ar : arena) : Z := match ar.(a_desc) with Some _ => 1 | None => ar.(free_cnt) end.

(** The free blocks of the arena at [a] in a free list. *)
Definition free_in (a : Z) (l : list Z) : list Z := filter (λ b, b - b mod 4096 = a) l.

(** The invariant: arenas are runs of pages of their own, free blocks are blocks
    of arenas of their descriptor, and the headers count them. *)
Record heap_ok (s : hst) : Prop := {
  ho_pools : pools_wf s.(h_pal);
  ho_desc : ∀ i d, s.(descs) !! i = Some d → desc_ok d;
  ho_pages : ∀ a ar, s.(arenas) !! a = Some ar → pages_ok s.(h_pal) a (npages ar);
  ho_apart : ∀ a b ar br, s.(arenas) !! a = Some ar → s.(arenas) !! b = Some br → a ≠ b →
    apart a (npages ar) b (npages br);
  ho_count : ∀ a i n, s.(arenas) !! a = Some (mk_arena (Some i) n) →
    ∃ d, s.(descs) !! i = Some d ∧ n = Z.of_nat (length (free_in a d.(free_list)));
  ho_free : ∀ i d b, s.(descs) !! i = Some d → b ∈ d.(free_list) →
    ∃ a n, s.(arenas) !! a = Some (mk_arena (Some i) n) ∧ b ∈ blocks a d;
  ho_nodup : ∀ i d, s.(descs) !! i = Some d → NoDup d.(free_list) }.

(** Every arena has a block in use. *)
Definition busy (s : hst) (a : Z) : Prop :=
  ∀ i n d, s.(arenas) !! a = Some (mk_arena (Some i) n) → s.(descs) !! i = Some d → n < d.(blocks_per_arena).

Definition heap_wf (s : hst) : Prop := heap_ok s ∧ ∀ a, busy s a.

(** The block of [n] bytes at [p] is in use, and belongs to the arena at [a]. *)
Definition live_at (s : hst) (a : Z) (ar : arena) (p n : Z) : Prop :=
  match ar.(a_desc) with
  | Some i => ∃ d, s.(descs) !! i = Some d ∧ p ∈ blocks a d ∧ p ∉ d.(free_list) ∧ n = d.(block_size)
  | None => p = a + 12 ∧ n = 4096 * ar.(free_cnt) - 12
  end.

Definition live (s : hst) (p n : Z) : Prop := ∃ a ar, s.(arenas) !! a = Some ar ∧ live_at s a ar p n.

Lemma arena_page s a ar : heap_ok s → s.(arenas) !! a = Some ar → kernel_page a ∧ 1 <= npages ar.
Proof. intros Hs Ha. destruct (pages_ok_range _ _ _ (ho_pools _ Hs) (ho_pages _ Hs a ar Ha)) as (H & _ & H'). done. Qed.

(** A block in use lies within its arena. *)
Lemma live_within s a ar p n :
  heap_ok s → s.(arenas) !! a = Some ar → live_at s a ar p n →
  a + 12 <= p ∧ p + n <= a + 4096 * npages ar ∧ 0 < n.
Proof.
  intros Hs Ha Hl. destruct (arena_page s a ar Hs Ha) as [[_ Hm] Hn].
  unfold live_at, npages in *. destruct (a_desc ar) as [i|].
  - destruct Hl as (d & Hd & Hb & _ & ->). pose proof (ho_desc _ Hs i d Hd) as Hok.
    destruct (block_page a d p Hok Hm Hb) as (H1 & H2 & _). destruct Hok. lia.
  - destruct Hl as [-> ->]. lia.
Qed.

(** Two blocks of an arena are the same or do not overlap. *)
Lemma blocks_disjoint a d p q :
  desc_ok d → p ∈ blocks a d → q ∈ blocks a d → p = q ∨ p + d.(block_size) <= q ∨ q + d.(block_size) <= p.
Proof.
  intros [Hd _] (k & -> & Hk)%elem_of_blocks (l & -> & Hl)%elem_of_blocks.
  destruct (Z.lt_trichotomy k l) as [Hkl | [-> | Hkl]]; [right; left|by left|right; right]; nia.
Qed.

(** Blocks in use do not overlap. *)
Lemma live_disjoint s p n q m :
  heap_ok s → live s p n → live s q m → p = q ∧ n = m ∨ p + n <= q ∨ q + m <= p.
Proof.
  intros Hs (a & ar & Ha & Hp) (b & br & Hb & Hq).
  destruct (live_within s a ar p n Hs Ha Hp) as (Wp & Wp' & _), (live_within s b br q m Hs Hb Hq) as (Wq & Wq' & _).
  destruct (decide (a = b)) as [<- | Hne].
  - assert (ar = br) as <- by congruence. unfold live_at in *. destruct (a_desc ar) as [i|].
    + destruct Hp as (d & Hd & Hpb & _ & ->), Hq as (d' & Hd' & Hqb & _ & ->). assert (d = d') as <- by congruence.
      destruct (blocks_disjoint a d p q (ho_desc _ Hs i d Hd) Hpb Hqb) as [-> | H]; auto.
    + destruct Hp as [-> ->], Hq as [-> ->]. by left.
  - destruct (ho_apart _ Hs a b ar br Ha Hb Hne); right; [left|right]; lia.
Qed.

(** ** Taking and giving back blocks *)

Lemma run_get_desc {A} (f : desc → H A) s i d : s.(descs) !! i = Some d → (get_desc i ≫= f) s = f d s.
Proof. intros Hd. unfold get_desc, gets, mbind, st_bind. by rewrite Hd. Qed.

Lemma run_get_arena {A} (f : arena → H A) s a ar : s.(arenas) !! a = Some ar → (get_arena a ≫= f) s = f ar s.
Proof. intros Ha. unfold get_arena, gets, mbind, st_bind. by rewrite Ha. Qed.

Lemma block_to_arena_ok s a ar p n :
  kernel_page a → s.(arenas) !! a = Some ar →
  match ar.(a_desc) with
  | Some i => ∃ d, s.(descs) !! i = Some d ∧ desc_ok d ∧ p ∈ blocks a d
  | None => p = a + 12 ∧ n = 4096 * ar.(free_cnt) - 12
  end → block_to_arena p s = Ok (a, s).
Proof.
  intros [Hk Hm] Ha Hp. unfold PHYS_BASE in Hk.
  assert (pg_round_down p = a ∧ pg_ofs p = p mod 4096) as [Hrd Hof].
  { rewrite pg_ofs_mod. split; [|done]. destruct (a_desc ar) as [i|].
    - destruct Hp as (d & _ & Hd & Hb). destruct (block_page a d p Hd Hm Hb) as (? & ? & ? & _).
      rewrite pg_round_down_eq; zdm.
    - destruct Hp as [-> _]. rewrite pg_round_down_eq; zdm. }
  unfold block_to_arena. rewrite Hrd, Hof. cbv zeta.
  rewrite (run_lift _ _ _ tt) by (rewrite (proj2 (Z.eqb_neq _ _)) by lia; done).
  rewrite (run_get_arena _ _ _ _ Ha).
  destruct (a_desc ar) as [i|].
  - destruct Hp as (d & Hdi & Hd & Hb). destruct (block_page a d p Hd Hm Hb) as (H1 & H2 & H3 & H4).
    destruct Hd as [Hs _]. pose proof (Z.mod_pos_bound p 4096 ltac:(lia)).
    unfold mbind at 1, st_bind at 1. rewrite (run_get_desc _ _ _ _ Hdi). unfold ARENA_SIZE. rewrite u32_small by lia. by rewrite H4.
  - destruct Hp as [-> _]. rewrite (proj2 (Z.eqb_eq _ _)) by (unfold ARENA_SIZE; zdm). done.
Qed.

Lemma free_in_cons a b l : free_in a (b :: l) = if decide (b - b mod 4096 = a) then b :: free_in a l else free_in a l.
Proof. done. Qed.

(** The free blocks of an arena are blocks of it, so the count is at most their
    number; when it is reached, all are free. *)
Lemma free_in_blocks s a i n d :
  heap_ok s → s.(arenas) !! a = Some (mk_arena (Some i) n) → s.(descs) !! i = Some d →
  n = Z.of_nat (length (free_in a d.(free_list))) ∧ 0 <= n <= d.(blocks_per_arena) ∧
  (n = d.(blocks_per_arena) → ∀ b, b ∈ blocks a d → b ∈ d.(free_list)).
Proof.
  intros Hs Ha Hd. pose proof (ho_desc _ Hs i d Hd) as Hok. pose proof (desc_ok_bounds d Hok) as [H3 _].
  destruct (ho_count _ Hs a i n Ha) as (d' & Hd' & Hn). assert (d' = d) as -> by congruence.
  assert (Hsub : free_in a (free_list d) ⊆+ blocks a d).
  { apply NoDup_submseteq; [apply NoDup_filter, (ho_nodup _ Hs i d Hd)|].
    intros b (Hb & Hin)%list_elem_of_filter. destruct (ho_free _ Hs i d b Hd Hin) as (a' & n' & Ha' & Hblk).
    destruct (arena_page s a' _ Hs Ha') as [[_ Hm] _]. destruct (block_page a' d b Hok Hm Hblk) as (_ & _ & Hpg & _).
    by assert (a' = a) as -> by lia. }
  pose proof (submseteq_length _ _ Hsub) as Hlen. pose proof (length_blocks a d ltac:(lia)) as Hlb.
  split; [done|]. split; [lia|]. intros E b Hb.
  assert (free_in a (free_list d) ≡ₚ blocks a d) as Hp by (apply submseteq_length_Permutation; [done|lia]).
  rewrite <- Hp in Hb. by apply list_elem_of_filter in Hb as [_ ?].
Qed.

(** A new free list of one descriptor, and a new count of one arena. *)
Definition refill (s : hst) (i : nat) (d : desc) (l : list Z) (a n : Z) : hst :=
  mk_hst s.(h_pal) (<[i := set_free d l]> s.(descs)) (<[a := mk_arena (Some i) n]> s.(arenas)).

Lemma refill_desc s i d l a n j e :
  s.(descs) !! i = Some d → (refill s i d l a n).(descs) !! j = Some e →
  j = i ∧ e = set_free d l ∨ j ≠ i ∧ s.(descs) !! j = Some e.
Proof.
  intros Hd. cbn. destruct (decide (j = i)) as [-> | Hne].
  - rewrite list_lookup_insert_eq by (by eapply lookup_lt_Some). intros [= <-]. by left.
  - rewrite list_lookup_insert_ne by done. by right.
Qed.

Lemma refill_desc_eq s i d l a n :
  s.(descs) !! i = Some d → (refill s i d l a n).(descs) !! i = Some (set_free d l).
Proof. intros Hd. apply list_lookup_insert_eq. by eapply lookup_lt_Some. Qed.

Lemma refill_desc_ne s i d l a n j : j ≠ i → (refill s i d l a n).(descs) !! j = s.(descs) !! j.
Proof. intros. cbn. by apply list_lookup_insert_ne. Qed.

Lemma refill_ok s i d l a n0 n :
  heap_ok s → s.(descs) !! i = Some d → s.(arenas) !! a = Some (mk_arena (Some i) n0) →
  NoDup l → (∀ b, b ∈ l → b ∈ d.(free_list) ∨ b ∈ blocks a d) →
  (∀ a', a' ≠ a → free_in a' l = free_in a' d.(free_list)) → n = Z.of_nat (length (free_in a l)) →
  heap_ok (refill s i d l a n).
Proof.
  intros Hs Hd Ha Hl Hin Hoth Hn.
  assert (Har : ∀ x ar, (refill s i d l a n).(arenas) !! x = Some ar →
    ∃ ar0, s.(arenas) !! x = Some ar0 ∧ npages ar = npages ar0).
  { intros x ar. cbn. destruct (decide (x = a)) as [-> | Hne].
    - rewrite lookup_insert_eq. intros [= <-]. eauto.
    - rewrite lookup_insert_ne by done. eauto. }
  assert (Hold : ∀ x j m, s.(arenas) !! x = Some (mk_arena (Some j) m) →
    ∃ m', (refill s i d l a n).(arenas) !! x = Some (mk_arena (Some j) m')).
  { intros x j m Hx. cbn. destruct (decide (x = a)) as [-> | Hne].
    - rewrite lookup_insert_eq. rewrite Ha in Hx. injection Hx as <- _. eauto.
    - rewrite lookup_insert_ne by done. eauto. }
  split.
  - apply (ho_pools _ Hs).
  - intros j e He. destruct (refill_desc _ _ _ _ _ _ _ _ Hd He) as [[-> ->] | [_ He']]; [|by eapply ho_desc].
    apply (ho_desc _ Hs i d Hd).
  - intros x ar Hx. destruct (Har x ar Hx) as (ar0 & Hx0 & ->). by apply (ho_pages _ Hs).
  - intros x y ar br Hx Hy Hne. destruct (Har x ar Hx) as (? & ? & ->), (Har y br Hy) as (? & ? & ->).
    by apply (ho_apart _ Hs).
  - intros x j m. destruct (decide (x = a)) as [-> | Hne]; cbn [refill arenas].
    + rewrite lookup_insert_eq. intros [= <- <-]. rewrite refill_desc_eq by done. by eexists.
    + rewrite lookup_insert_ne by done. intros Hx. destruct (ho_count _ Hs x j m Hx) as (e & He & ->).
      destruct (decide (j = i)) as [-> | Hji].
      * rewrite refill_desc_eq by done. eexists. split; [done|]. assert (e = d) as -> by congruence. cbn [set_free free_list]. by rewrite Hoth.
      * rewrite refill_desc_ne by done. eauto.
  - intros j e b He Hb. destruct (refill_desc _ _ _ _ _ _ _ _ Hd He) as [[-> ->] | [_ He']].
    + destruct (Hin b Hb) as [Hb' | Hb'].
      * destruct (ho_free _ Hs i d b Hd Hb') as (x & m & Hx & Hblk). destruct (Hold x i m Hx) as (m' & Hm'). eauto.
      * exists a, n. cbn. by rewrite lookup_insert_eq.
    + destruct (ho_free _ Hs j e b He' Hb) as (x & m & Hx & Hblk). destruct (Hold x j m Hx) as (m' & Hm'). eauto.
  - intros j e He. destruct (refill_desc _ _ _ _ _ _ _ _ Hd He) as [[-> ->] | [_ He']]; [done|by eapply ho_nodup].
Qed.

(** The blocks in use afterwards. *)
Lemma live_refill s i d l a n0 n q m :
  s.(descs) !! i = Some d → s.(arenas) !! a = Some (mk_arena (Some i) n0) →
  live (refill s i d l a n) q m ↔
  ∃ x ar, s.(arenas) !! x = Some ar ∧
    match ar.(a_desc) with
    | Some j => ∃ e, s.(descs) !! j = Some e ∧ q ∈ blocks x e ∧
        q ∉ (if decide (j = i) then l else e.(free_list)) ∧ m = e.(block_size)
    | None => live_at s x ar q m
    end.
Proof.
  intros Hd Ha.
  assert (Hat : ∀ x ar, live_at (refill s i d l a n) x ar q m ↔
    match ar.(a_desc) with
    | Some j => ∃ e, s.(descs) !! j = Some e ∧ q ∈ blocks x e ∧
        q ∉ (if decide (j = i) then l else e.(free_list)) ∧ m = e.(block_size)
    | None => live_at s x ar q m
    end).
  { intros x ar. unfold live_at. destruct (a_desc ar) as [j|]; [|done]. destruct (decide (j = i)) as [-> | Hne].
    - rewrite refill_desc_eq, Hd by done. split; intros (e & [= <-] & H); eauto.
    - by rewrite refill_desc_ne. }
  assert (Hd0 : ∀ x ar, live_at (refill s i d l a n) x ar q m →
    ∀ k, live_at (refill s i d l a n) x (mk_arena ar.(a_desc) k) q m ∨ ar.(a_desc) = None).
  { intros x ar H k. unfold live_at in *. cbn [a_desc]. destruct (a_desc ar); auto. }
  unfold live. setoid_rewrite <- Hat. split; intros (x & ar & Hx & Hl).
  - destruct (decide (x = a)) as [-> | Hne].
    + cbn in Hx. rewrite lookup_insert_eq in Hx. injection Hx as <-.
      exists a, (mk_arena (Some i) n0). split; [done|]. by destruct (Hd0 _ _ Hl n0).
    + cbn in Hx. rewrite lookup_insert_ne in Hx by done. eauto.
  - destruct (decide (x = a)) as [-> | Hne].
    + rewrite Ha in Hx. injection Hx as <-. exists a, (mk_arena (Some i) n). cbn [refill arenas]. rewrite lookup_insert_eq.
      split; [done|]. by destruct (Hd0 _ _ Hl n).
    + exists x, ar. cbn [refill arenas]. by rewrite lookup_insert_ne.
Qed.

(** A block belongs to one arena. *)
Lemma blocks_arena s a b d e ar br p :
  heap_ok s → s.(arenas) !! a = Some ar → s.(arenas) !! b = Some br → desc_ok d → desc_ok e →
  p ∈ blocks a d → p ∈ blocks b e → a = b.
Proof.
  intros Hs Ha Hb Hd He Hp Hq. destruct (arena_page s a ar Hs Ha) as [[_ Ma] _], (arena_page s b br Hs Hb) as [[_ Mb] _].
  destruct (block_page a d p Hd Ma Hp) as (_ & _ & <- & _). by destruct (block_page b e p He Mb Hq) as (_ & _ & <- & _).
Qed.

(** The busy arenas stay so, but for the one refilled. *)
Lemma busy_refill s i d l a n x :
  s.(descs) !! i = Some d → busy s x → x ≠ a ∨ n < d.(blocks_per_arena) → busy (refill s i d l a n) x.
Proof.
  intros Hd Hb Hx j m e. destruct (decide (x = a)) as [-> | Hne]; cbn [refill arenas].
  - rewrite lookup_insert_eq. intros [= <- <-]. rewrite refill_desc_eq by done. intros [= <-]. cbn. by destruct Hx.
  - rewrite lookup_insert_ne by done. intros Hj He.
    destruct (refill_desc s i d l a n _ _ Hd He) as [[-> ->] | [_ He']]; [|by apply (Hb j)].
    by apply (Hb i m d).
Qed.

Lemma take_block_ok s i d b l :
  heap_ok s → s.(descs) !! i = Some d → d.(free_list) = b :: l →
  ∃ a n, take_block i s = Ok (b, refill s i d l a n) ∧ heap_ok (refill s i d l a n) ∧
    n < d.(blocks_per_arena) ∧ s.(arenas) !! a = Some (mk_arena (Some i) (n + 1)) ∧ b ∈ blocks a d ∧
    ∀ q m, live (refill s i d l a n) q m ↔ live s q m ∨ q = b ∧ m = d.(block_size).
Proof.
  intros Hs Hd Hl. pose proof (ho_desc _ Hs i d Hd) as Hok. pose proof (ho_nodup _ Hs i d Hd) as Hnd.
  destruct (ho_free _ Hs i d b Hd ltac:(rewrite Hl; by left)) as (a & n0 & Ha & Hb).
  destruct (arena_page s a _ Hs Ha) as [Hk _]. pose proof Hk as [Hkb Hkm].
  destruct (block_page a d b Hok Hkm Hb) as (_ & _ & Hpg & _).
  destruct (free_in_blocks s a i n0 d Hs Ha Hd) as (Hn0 & Hbd & _).
  rewrite Hl, free_in_cons, decide_True in Hn0 by done. cbn [length] in Hn0. rewrite Hl in Hnd.
  apply NoDup_cons in Hnd as [Hbl Hnd]. exists a, (n0 - 1).
  assert (Hlen : (length (free_in a l) ≤ length (blocks a d))%nat) by (pose proof (length_blocks a d); lia).
  assert (0 < blocks_per_arena d < 4096).
  { destruct (desc_ok_bounds d Hok), Hok as [? ->]. zdm. }
  split.
  { unfold take_block. rewrite (run_get_desc _ _ _ _ Hd).
    rewrite Hl. unfold put_desc. rewrite run_modify.
    erewrite run_bind; [|apply (block_to_arena_ok _ a (mk_arena (Some i) n0) b 0 Hk); [exact Ha|]; exists (set_free d l); cbn [descs];
      by rewrite list_lookup_insert_eq by (by eapply lookup_lt_Some)].
    rewrite (run_get_arena _ _ a (mk_arena (Some i) n0)) by exact Ha. cbn [free_cnt]. by rewrite u32_small by lia. }
  split; [|split; [lia|split; [by replace (n0 - 1 + 1) with n0 by lia|split; [done|]]]].
  - apply (refill_ok s i d l a n0); try done.
    + intros x Hx. left. rewrite Hl. by right.
    + intros a' Hne. rewrite Hl, free_in_cons, decide_False; [done|congruence].
    + lia.
  - intros q m. rewrite (live_refill s i d l a n0) by done. split.
    + intros (x & ar & Hx & Hq). destruct (a_desc ar) as [j|] eqn:Ej.
      * destruct Hq as (e & He & Hqb & Hql & ->). destruct (decide (j = i)) as [-> | Hne].
        -- assert (e = d) as -> by congruence. destruct (decide (q = b)) as [-> | Hqne]; [by right|left].
           exists x, ar. split; [done|]. unfold live_at. rewrite Ej. exists d. rewrite Hl, not_elem_of_cons. done.
        -- left. exists x, ar. split; [done|]. unfold live_at. rewrite Ej. eauto.
      * left. by exists x, ar.
    + intros [(x & ar & Hx & Hq) | [-> ->]].
      * exists x, ar. split; [done|]. destruct (a_desc ar) as [j|] eqn:Ej; [|done]. unfold live_at in Hq. rewrite Ej in Hq.
        destruct Hq as (e & He & Hqb & Hql & ->). exists e. do 2 (split; [done|]). split; [|done].
        destruct (decide (j = i)) as [-> |]; [|done]. assert (e = d) as -> by congruence. rewrite Hl in Hql. set_solver.
      * exists a, (mk_arena (Some i) n0). split; [done|]. cbn. exists d. rewrite decide_True by done. done.
Qed.

(** A new arena of descriptor [i] at [a], whose pages came with [p]. *)
Definition grown (s : hst) (p : pst) (i : nat) (d : desc) (a : Z) : hst :=
  mk_hst p (<[i := set_free d (blocks a d)]> s.(descs)) (<[a := mk_arena (Some i) d.(blocks_per_arena)]> s.(arenas)).

Lemma arena_to_block_ok s a i n d k :
  kernel_page a → s.(arenas) !! a = Some (mk_arena (Some i) n) → s.(descs) !! i = Some d → k < d.(blocks_per_arena) →
  arena_to_block a k s = Ok (a + 12 + k * d.(block_size), s).
Proof.
  intros [Hk _] Ha Hd Hlt. unfold PHYS_BASE in Hk. unfold arena_to_block.
  rewrite (run_lift _ _ _ tt) by (rewrite (proj2 (Z.eqb_neq _ _)) by lia; done).
  rewrite (run_get_arena _ _ _ _ Ha). cbn [a_desc]. rewrite (run_get_desc _ _ _ _ Hd).
  by rewrite (run_lift _ _ _ tt) by (apply ASSERT_true, Z.ltb_lt; done).
Qed.

Lemma add_blocks_ok p ds m a i d :
  kernel_page a → m !! a = Some (mk_arena (Some i) d.(blocks_per_arena)) → ds !! i = Some d →
  0 <= d.(blocks_per_arena) → d.(free_list) = [] →
  add_blocks a i d.(blocks_per_arena) (mk_hst p ds m) = Ok (tt, mk_hst p (<[i := set_free d (blocks a d)]> ds) m).
Proof.
  intros Hk Ha Hd Hn Hl. pose proof (lookup_lt_Some _ _ _ Hd) as Hlt. unfold add_blocks.
  edestruct (for_st_inv (λ k s, s = mk_hst p (<[i := set_free d ((λ k, a + 12 + k * d.(block_size)) <$> seqZ 0 k)]> ds) m))
    as (s' & E & Hs').
  3: { rewrite E. rewrite Hs'. unfold blocks. rewrite Z.add_0_l, Z2Nat.id by done. done. }
  - intros k s Hkr ->. set (e := set_free d _).
    assert (He : (<[i := e]> ds) !! i = Some e) by (by apply list_lookup_insert_eq).
    rewrite (run_bind _ _ _ _ _ (arena_to_block_ok (mk_hst p (<[i := e]> ds) m) a i _ e k Hk Ha He ltac:(cbn; lia))).
    rewrite (run_get_desc _ (mk_hst p (<[i := e]> ds) m) i e He). subst e.
    eexists. split; [done|]. cbn [h_pal descs arenas]. unfold set_free. cbn [block_size blocks_per_arena free_list].
    rewrite list_insert_insert_eq. do 3 f_equal. rewrite seqZ_app, fmap_app by lia. done.
  - cbn. f_equal. rewrite list_insert_id; [done|]. rewrite Hd. destruct d. by simplify_eq/=.
Qed.

(** The memory of a new arena was not part of the heap. *)
Lemma fresh_arena s a n :
  (∀ b m, pages_ok s.(h_pal) b m → apart a n b m) → heap_ok s → 0 < n → s.(arenas) !! a = None.
Proof.
  intros Hap Hs Hn. destruct (s.(arenas) !! a) as [ar|] eqn:Ha; [|done]. pose proof (ho_pages _ Hs a ar Ha) as Hp.
  destruct (Hap a (npages ar) Hp); destruct (arena_page s a ar Hs Ha); lia.
Qed.

(** Adding one arena to the heap keeps what the invariant says of pages. *)
Lemma arenas_grow s p a ar :
  heap_ok s → pages_ok p a (npages ar) →
  (∀ b m, pages_ok s.(h_pal) b m → pages_ok p b m ∧ apart a (npages ar) b m) →
  (∀ b br, <[a := ar]> s.(arenas) !! b = Some br → pages_ok p b (npages br)) ∧
  (∀ b c br cr, <[a := ar]> s.(arenas) !! b = Some br → <[a := ar]> s.(arenas) !! c = Some cr → b ≠ c →
     apart b (npages br) c (npages cr)).
Proof.
  intros Hs Hp Hold. split.
  - intros b br [[<- <-] | [Hne Hb]]%lookup_insert_Some; [done|]. by apply Hold, ho_pages.
  - intros b c br cr [[<- <-] | [Hne Hb]]%lookup_insert_Some [[<- <-] | [Hne' Hc]]%lookup_insert_Some Hbc; [done| | |].
    + by apply Hold, ho_pages.
    + destruct (Hold b (npages br) (ho_pages _ Hs b br Hb)) as [_ [H | H]]; [by right|by left].
    + by apply (ho_apart _ Hs).
Qed.

Lemma filter_all {A} (P : A → Prop) `{!∀ x, Decision (P x)} (l : list A) : (∀ x, x ∈ l → P x) → filter P l = l.
Proof.
  induction l as [|x l IH]; intros Hl; [done|]. rewrite filter_cons_True by (apply Hl; left). f_equal.
  apply IH. intros. apply Hl. by right.
Qed.

Lemma filter_none_of {A} (P : A → Prop) `{!∀ x, Decision (P x)} (l : list A) : (∀ x, x ∈ l → ¬ P x) → filter P l = [].
Proof.
  induction l as [|x l IH]; intros Hl; [done|]. rewrite filter_cons_False by (apply Hl; left).
  apply IH. intros. apply Hl. by right.
Qed.

Lemma free_in_blocks_eq a b d :
  desc_ok d → b mod 4096 = 0 → free_in a (blocks b d) = if decide (a = b) then blocks b d else [].
Proof.
  intros Hd Hm. assert (Hin : ∀ x, x ∈ blocks b d → x - x mod 4096 = b) by (intros; by eapply block_page).
  destruct (decide (a = b)) as [-> | Hne].
  - by apply filter_all.
  - apply filter_none_of. intros x Hx E. apply Hne. by rewrite <- E, Hin.
Qed.

Lemma grown_ok s p i d a :
  heap_ok s → s.(descs) !! i = Some d → d.(free_list) = [] → pools_wf p → pages_ok p a 1 →
  (∀ b m, pages_ok s.(h_pal) b m → pages_ok p b m ∧ apart a 1 b m) →
  heap_ok (grown s p i d a) ∧ ∀ q m, live (grown s p i d a) q m ↔ live s q m.
Proof.
  intros Hs Hd Hl Hp Ha Hold. pose proof (ho_desc _ Hs i d Hd) as Hok. pose proof (lookup_lt_Some _ _ _ Hd) as Hlt.
  pose proof (fresh_arena s a 1 ltac:(intros; by apply Hold) Hs ltac:(lia)) as Hfr.
  destruct (pages_ok_range p a 1 Hp Ha) as ([_ Hm] & _ & _).
  destruct (arenas_grow s p a (mk_arena (Some i) (blocks_per_arena d)) Hs Ha Hold) as [Hpg Hap].
  assert (Hdesc : ∀ j e, (grown s p i d a).(descs) !! j = Some e →
    j = i ∧ e = set_free d (blocks a d) ∨ j ≠ i ∧ s.(descs) !! j = Some e)
    by (intros; by apply (refill_desc s i d _ a 0)).
  assert (Hdi : (grown s p i d a).(descs) !! i = Some (set_free d (blocks a d))) by (by apply list_lookup_insert_eq).
  assert (Hdn : ∀ j, j ≠ i → (grown s p i d a).(descs) !! j = s.(descs) !! j)
    by (intros; by apply list_lookup_insert_ne).
  split; [split|]; try done.
  - intros j e He. destruct (Hdesc j e He) as [[-> ->] | [_ He']]; [done|by eapply ho_desc].
  - intros b j n Hb0. cbn [grown arenas] in Hb0. apply lookup_insert_Some in Hb0 as [[<- [= <- <-]] | [Hne Hb]].
    + exists (set_free d (blocks a d)). split; [done|]. cbn [set_free free_list].
      rewrite free_in_blocks_eq, decide_True by done. rewrite length_blocks; [done|]. pose proof (desc_ok_bounds d Hok). lia.
    + destruct (ho_count _ Hs b j n Hb) as (e & He & ->). destruct (decide (j = i)) as [-> | Hji].
      * exists (set_free d (blocks a d)). split; [done|]. assert (e = d) as -> by congruence. cbn [set_free free_list].
        rewrite free_in_blocks_eq, decide_False by done. by rewrite Hl.
      * rewrite Hdn by done. eauto.
  - intros j e b He Hb. destruct (Hdesc j e He) as [[-> ->] | [Hne He']].
    + exists a, (blocks_per_arena d). split; [apply lookup_insert_eq|done].
    + destruct (ho_free _ Hs j e b He' Hb) as (c & n & Hc & Hblk). exists c, n. split; [|done].
      cbn [grown arenas]. apply lookup_insert_Some. right. split; [|done]. by intros ->; rewrite Hfr in Hc.
  - intros j e He. destruct (Hdesc j e He) as [[-> ->] | [_ He']]; [by apply NoDup_blocks|by eapply ho_nodup].
  - assert (Hat : ∀ b ar q m, s.(arenas) !! b = Some ar → live_at (grown s p i d a) b ar q m ↔ live_at s b ar q m).
    { intros b ar q m Hb. unfold live_at. destruct (a_desc ar) as [j|]; [|done]. destruct (decide (j = i)) as [-> | Hji].
      - rewrite Hdi, Hd. split; intros (e & [= <-] & Hq & Hf & ->); eexists; (split; [done|]); (split; [done|]); (split; [|done]).
        + rewrite Hl. apply not_elem_of_nil.
        + cbn. intros Hqa. destruct (arena_page s b ar Hs Hb) as [[_ Hbm] _].
          destruct (block_page b d q Hok Hbm Hq) as (_ & _ & E1 & _), (block_page a d q Hok Hm Hqa) as (_ & _ & E2 & _).
          assert (a = b) as -> by lia. by rewrite Hfr in Hb.
      - by rewrite Hdn. }
    intros q m. unfold live. split; intros (b & ar & Hb & Hq).
    + cbn [grown arenas] in Hb. apply lookup_insert_Some in Hb as [[<- <-] | [Hne Hb]]; [|exists b, ar; split; [done|by apply Hat]].
      destruct Hq as (e & He & Hqb & Hqf & _). rewrite Hdi in He. by injection He as <-.
    + exists b, ar. split; [|by apply Hat]. cbn [grown arenas]. apply lookup_insert_Some. right. split; [|done]. by intros ->; rewrite Hfr in Hb.
Qed.

Lemma live_range s p n : heap_ok s → live s p n → PHYS_BASE + 12 <= p ∧ p + n <= 4294967296 - 4096 ∧ 0 < n.
Proof.
  intros Hs (a & ar & Ha & Hp). destruct (live_within s a ar p n Hs Ha Hp) as (H1 & H2 & H3).
  destruct (pages_ok_range _ _ _ (ho_pools _ Hs) (ho_pages _ Hs a ar Ha)) as ([Hk _] & Hr & _). lia.
Qed.

(** A free block is not in use. *)
Lemma free_not_live s i d b m : heap_ok s → s.(descs) !! i = Some d → b ∈ d.(free_list) → ¬ live s b m.
Proof.
  intros Hs Hd Hb (a & ar & Ha & Hl). destruct (ho_free _ Hs i d b Hd Hb) as (c & n & Hc & Hblk).
  destruct (live_within s a ar b m Hs Ha Hl) as (H1 & H2 & H3). pose proof (ho_desc _ Hs i d Hd) as Hok.
  destruct (arena_page s c _ Hs Hc) as [[_ Hm] _]. destruct (block_page c d b Hok Hm Hblk) as (H4 & H5 & _).
  destruct Hok as [Hbs _]. destruct (decide (c = a)) as [-> | Hne].
  - rewrite Hc in Ha. injection Ha as <-. destruct Hl as (e & He & _ & Hf & _). cbn in He. by assert (e = d) as -> by congruence.
  - destruct (ho_apart _ Hs c a _ ar Hc Ha Hne) as [H6 | H6]; cbn [npages a_desc] in *; lia.
Qed.

Lemma find_desc_ok l size i j :
  find_desc l size i = Some j → ∃ d, (i ≤ j)%nat ∧ l !! (j - i)%nat = Some d ∧ size <= d.(block_size).
Proof.
  revert i. induction l as [|d l IH]; intros i; [done|]. cbn [find_desc]. destruct (Z.leb_spec size (block_size d)).
  - intros [= <-]. exists d. by rewrite Nat.sub_diag.
  - intros E. destruct (IH (S i) E) as (e & Hle & He & Hs). exists e. split; [lia|].
    replace (j - i)%nat with (S (j - S i)) by lia. done.
Qed.

(** What malloc() promises of a block it returns. *)
Definition allocated (s s' : hst) (size p n : Z) : Prop :=
  heap_wf s' ∧ size <= n ∧ (∀ q m, live s' q m ↔ live s q m ∨ q = p ∧ m = n) ∧
  ∀ q m, live s q m → p + n <= q ∨ q + m <= p.

Lemma allocated_intro s s' size p n :
  heap_wf s' → size <= n → (∀ q m, live s' q m ↔ live s q m ∨ q = p ∧ m = n) → (∀ m, ¬ live s p m) →
  allocated s s' size p n.
Proof.
  intros Hs Hn Hl Hf. split; [done|]. split; [done|]. split; [done|]. intros q m Hq.
  destruct (live_disjoint s' p n q m (proj1 Hs)) as [[-> _] | H]; [apply Hl; by right|apply Hl; by left| |done].
  by destruct (Hf m).
Qed.

(** What taking a block needs to leave every arena with a block in use. *)
Definition almost_busy (s : hst) (i : nat) (d : desc) : Prop :=
  ∀ a, busy s a ∨ ∃ m b, s.(arenas) !! a = Some (mk_arena (Some i) m) ∧ head d.(free_list) = Some b ∧ b ∈ blocks a d.

Lemma take_block_allocated s s0 i d size :
  heap_ok s → s.(descs) !! i = Some d → d.(free_list) ≠ [] → size <= d.(block_size) →
  (∀ q m, live s q m ↔ live s0 q m) →
  almost_busy s i d →
  ∃ p n s', take_block i s = Ok (p, s') ∧ allocated s0 s' size p n.
Proof.
  intros Hs Hd Hne Hsz Heq Hbusy. unfold almost_busy in Hbusy. destruct (free_list d) as [|b l] eqn:Hl; [done|].
  destruct (take_block_ok s i d b l Hs Hd Hl) as (a & n & E & Hs' & Hn & Ha & Hba & Hlive).
  exists b, (block_size d), (refill s i d l a n). split; [done|].
  assert (Hfr : ∀ m, ¬ live s b m) by (intros m; apply (free_not_live s i d b m Hs Hd); rewrite Hl; by left).
  apply allocated_intro; [split; [done|]|done|intros; rewrite Hlive, Heq; done|by intros m Hm%Heq; apply (Hfr m)].
  intros x. destruct (decide (x = a)) as [-> | Hxa].
  - intros j m e. cbn [refill arenas]. rewrite lookup_insert_eq. intros [= <- <-].
    rewrite refill_desc_eq by done. intros [= <-]. done.
  - apply busy_refill; [done| |by left]. destruct (Hbusy x) as [|(m & b' & Hx & [= <-] & Hb)]; [done|].
    pose proof (ho_desc _ Hs i d Hd) as Hok. destruct Hxa. by apply (blocks_arena s x a d d _ _ b Hs Hx Ha).
Qed.

(** malloc() of a big block. *)
Lemma big_ok s a p n :
  heap_wf s → pools_wf p → pages_ok p a n →
  (∀ b m, pages_ok s.(h_pal) b m → pages_ok p b m ∧ apart a n b m) →
  let s' := mk_hst p s.(descs) (<[a := mk_arena None n]> s.(arenas)) in
  heap_wf s' ∧ (∀ q m, live s' q m ↔ live s q m ∨ q = a + 12 ∧ m = 4096 * n - 12) ∧ ∀ m, ¬ live s (a + 12) m.
Proof.
  intros [Hs Hbusy] Hp Ha Hold s'. destruct (pages_ok_range p a n Hp Ha) as (Hk & _ & Hn).
  pose proof (fresh_arena s a n ltac:(intros; by apply Hold) Hs ltac:(lia)) as Hfr.
  destruct (arenas_grow s p a (mk_arena None n) Hs Ha Hold) as [Hpg Hap].
  assert (Hold' : ∀ x ar, s.(arenas) !! x = Some ar → s'.(arenas) !! x = Some ar).
  { intros x ar Hx. cbn. apply lookup_insert_Some. right. split; [|done]. by intros ->; rewrite Hfr in Hx. }
  assert (Hnew : ∀ x i m, s'.(arenas) !! x = Some (mk_arena (Some i) m) → s.(arenas) !! x = Some (mk_arena (Some i) m)).
  { intros x i m Hx. cbn in Hx. by apply lookup_insert_Some in Hx as [[_ [=]] | [_ ?]]. }
  split; [split; [split|]|split]; try done.
  - apply (ho_desc _ Hs).
  - intros x i m Hx. by apply (ho_count _ Hs x), Hnew.
  - intros i d b Hd Hb. destruct (ho_free _ Hs i d b Hd Hb) as (x & m & Hx & Hblk). eauto.
  - apply (ho_nodup _ Hs).
  - intros x i m d Hx Hd. by apply (Hbusy x i m d); [apply Hnew|].
  - intros q m. split.
    + intros (x & ar & Hx & Hq). cbn in Hx. apply lookup_insert_Some in Hx as [[<- <-] | [_ Hx]]; [by right|left].
      by exists x, ar.
    + intros [(x & ar & Hx & Hq) | [-> ->]]; [exists x, ar; eauto|].
      exists a, (mk_arena None n). cbn. by rewrite lookup_insert_eq.
  - intros m (x & ar & Hx & Hq). destruct (live_within s x ar _ m Hs Hx Hq) as (H1 & H2 & H3).
    destruct (Hold x (npages ar) (ho_pages _ Hs x ar Hx)) as [_ [H4 | H4]]; lia.
Qed.

(** A request that does not wrap around gets enough pages. *)
Lemma page_cnt_ok size :
  0 < size < 4294963189 → let n := u32 (u32 (size + ARENA_SIZE) + PGSIZE - 1) / PGSIZE in 0 < n ∧ size <= 4096 * n - 12.
Proof. intros Hs. cbv zeta. unfold ARENA_SIZE. change PGSIZE with 4096. rewrite (u32_small (size + 12)), u32_small by lia. zdm. Qed.

Lemma use_pages_eta s : mk_hst s.(h_pal) s.(descs) s.(arenas) = s.
Proof. by destruct s. Qed.

Lemma run_new_arena s i d a p :
  kernel_page a → s.(descs) !! i = Some d → 0 <= d.(blocks_per_arena) → d.(free_list) = [] →
  palloc_get_multiple 0 1 s.(h_pal) = Ok (a, p) → new_arena i d s = Ok (true, grown s p i d a).
Proof.
  intros Hk Hd Hb Hl E. unfold new_arena, palloc_get_page.
  rewrite (run_bind _ _ s a (mk_hst p s.(descs) s.(arenas))) by (unfold use_pages; by rewrite E).
  destruct Hk as [Hkb Hkm]. unfold PHYS_BASE in Hkb. rewrite (proj2 (Z.eqb_neq _ _)) by lia. unfold put_arena. rewrite run_modify.
  by rewrite (run_bind _ _ _ _ _ (add_blocks_ok p _ _ a i d (conj Hkb Hkm) (lookup_insert_eq _ _ _) Hd Hb Hl)).
Qed.

Lemma new_arena_ok s i d :
  heap_wf s → s.(descs) !! i = Some d → d.(free_list) = [] →
  new_arena i d s = Ok (false, s) ∨
  ∃ s1 d1, new_arena i d s = Ok (true, s1) ∧ heap_ok s1 ∧ s1.(descs) !! i = Some d1 ∧
    d1.(block_size) = d.(block_size) ∧ d1.(free_list) ≠ [] ∧ (∀ q m, live s1 q m ↔ live s q m) ∧ almost_busy s1 i d1.
Proof.
  intros [Hok Hbusy] Hd Hl. pose proof (ho_desc _ Hok i d Hd) as Hdok. pose proof (desc_ok_bounds d Hdok) as [H3 _].
  destruct (get_pages_ok s.(h_pal) 1 (ho_pools _ Hok) ltac:(lia)) as [(a & p & E & Hp & Ha & Hold) | E].
  - right. destruct (pages_ok_range p a 1 Hp Ha) as (Hk & _).
    destruct (grown_ok s p i d a Hok Hd Hl Hp Ha Hold) as [Hg Hlive].
    exists (grown s p i d a), (set_free d (blocks a d)).
    split; [by apply run_new_arena; try lia|]. split; [done|].
    split; [apply list_lookup_insert_eq; by eapply lookup_lt_Some|]. split; [done|].
    destruct (blocks a d) as [|b l] eqn:Eb; [pose proof (length_blocks a d); rewrite Eb in *; cbn in *; lia|].
    split; [done|]. split; [done|]. intros x. destruct (decide (x = a)) as [-> | Hxa].
    + right. exists (blocks_per_arena d), b. cbn. rewrite lookup_insert_eq.
      do 2 (split; [done|]). change (b ∈ blocks a d). rewrite Eb. by left.
    + left. intros j m e. cbn. rewrite lookup_insert_ne by done. intros Hx He.
      destruct (refill_desc s i d _ a 0 _ _ Hd He) as [[-> ->] | [_ He']]; [|by apply (Hbusy x j m e)].
      by apply (Hbusy x i m d).
  - left. unfold new_arena, palloc_get_page.
    rewrite (run_bind _ _ s NULL s) by (unfold use_pages; rewrite E, use_pages_eta; done). done.
Qed.

Lemma malloc_allocates (s : hst) (size : Z) :
  heap_wf s → 0 < size < 4294963189 →
  malloc size s = Ok (NULL, s) ∨
  ∃ p n s', malloc size s = Ok (p, s') ∧ allocated s s' size p n.
Proof.
  intros Hs Hsz. pose proof Hs as [Hok Hbusy]. unfold malloc. rewrite (proj2 (Z.eqb_neq _ _)) by lia. rewrite run_gets.
  destruct (find_desc (descs s) size 0) as [i|] eqn:Ef.
  - destruct (find_desc_ok _ _ _ _ Ef) as (d & _ & Hd & Hle). rewrite Nat.sub_0_r in Hd.
    rewrite (run_get_desc _ _ _ _ Hd). destruct (free_list d) as [|b l] eqn:Hl.
    + destruct (new_arena_ok s i d Hs Hd Hl) as [E | (s1 & d1 & E & H1 & Hd1 & Hb & Hne & Hlive & Hab)];
        rewrite (run_bind _ _ _ _ _ E); [by left|right; cbn [negb]].
      by apply (take_block_allocated s1 s i d1); try lia.
    + right. rewrite (run_bind _ _ s true s) by done. cbn [negb].
      apply (take_block_allocated s s i d); try done; [by rewrite Hl|by left].
  - destruct (page_cnt_ok size Hsz) as [Hn Hfit]. set (n := _ / PGSIZE) in *. clearbody n.
    destruct (get_pages_ok s.(h_pal) n (ho_pools _ Hok) Hn) as [(a & p & E & Hp & Ha & Hold) | E].
    + right. destruct (pages_ok_range p a n Hp Ha) as ([Hk _] & _). unfold PHYS_BASE in Hk.
      rewrite (run_bind _ _ s a (mk_hst p s.(descs) s.(arenas))) by (unfold use_pages; by rewrite E).
      rewrite (proj2 (Z.eqb_neq _ _)) by lia. unfold put_arena. rewrite run_modify.
      exists (a + 12), (4096 * n - 12), (mk_hst p s.(descs) (<[a := mk_arena None n]> s.(arenas))).
      split; [done|]. destruct (big_ok s a p n Hs Hp Ha Hold) as (Hs' & Hlive & Hfr). by apply allocated_intro.
    + left. by rewrite (run_bind _ _ s NULL s) by (unfold use_pages; rewrite E, use_pages_eta; done).
Qed.

(** *** Giving blocks back *)

Lemma remove_blocks_ok p ds m a i n d :
  kernel_page a → m !! a = Some (mk_arena (Some i) n) → ds !! i = Some d → 0 <= d.(blocks_per_arena) →
  remove_blocks a i d.(blocks_per_arena) (mk_hst p ds m) =
    Ok (tt, mk_hst p (<[i := set_free d (filter (λ x, x ∉ blocks a d) d.(free_list))]> ds) m).
Proof.
  intros Hk Ha Hd Hn. pose proof (lookup_lt_Some _ _ _ Hd) as Hlt. unfold remove_blocks.
  set (blk := λ k, a + 12 + k * d.(block_size)).
  edestruct (for_st_inv (λ k s, s = mk_hst p (<[i := set_free d (filter (λ x, x ∉ blk <$> seqZ 0 k) d.(free_list))]> ds) m))
    as (s' & E & Hs').
  3: { rewrite E. rewrite Hs'. by rewrite Z.add_0_l, Z2Nat.id by done. }
  - intros k s Hkr ->. set (e := set_free d _).
    assert (He : (<[i := e]> ds) !! i = Some e) by (by apply list_lookup_insert_eq).
    rewrite (run_bind _ _ _ _ _ (arena_to_block_ok (mk_hst p (<[i := e]> ds) m) a i _ e k Hk Ha He ltac:(cbn; lia))).
    rewrite (run_get_desc _ (mk_hst p (<[i := e]> ds) m) i e He). subst e.
    eexists. split; [done|]. cbn [h_pal descs arenas]. unfold set_free. cbn [block_size blocks_per_arena free_list].
    rewrite list_insert_insert_eq. do 3 f_equal. rewrite list_filter_filter. apply list_filter_iff. intros x.
    rewrite seqZ_app, fmap_app, not_elem_of_app by lia. rewrite (and_comm (x ∉ _ <$> seqZ 0 k)).
    change (blk <$> seqZ (0 + k) 1) with [blk k]. by rewrite list_elem_of_singleton.
  - f_equal. rewrite list_insert_id; [done|]. rewrite Hd. destruct d as [bs bpa l]. unfold set_free. cbn. do 2 f_equal.
    symmetry. apply filter_all. intros x _. apply not_elem_of_nil.
Qed.

(** Arena [a] of descriptor [i] is gone. *)
Definition shrunk (s : hst) (p : pst) (i : nat) (d : desc) (a : Z) : hst :=
  mk_hst p (<[i := set_free d (filter (λ x, x ∉ blocks a d) d.(free_list))]> s.(descs)) (delete a s.(arenas)).

(** Giving up the pages of one arena. *)
Lemma arenas_shrink s p a ar :
  heap_ok s → s.(arenas) !! a = Some ar → (∀ b m, pages_ok s.(h_pal) b m → apart a (npages ar) b m → pages_ok p b m) →
  (∀ b br, delete a s.(arenas) !! b = Some br → pages_ok p b (npages br)) ∧
  (∀ b c br cr, delete a s.(arenas) !! b = Some br → delete a s.(arenas) !! c = Some cr → b ≠ c →
     apart b (npages br) c (npages cr)).
Proof.
  intros Hs Ha Hold. split.
  - intros b br [Hne Hb]%lookup_delete_Some. apply Hold; [by apply (ho_pages _ Hs)|by apply (ho_apart _ Hs)].
  - intros b c br cr [Hne Hb]%lookup_delete_Some [Hne' Hc]%lookup_delete_Some Hbc. by apply (ho_apart _ Hs).
Qed.

Lemma shrunk_ok s p i d a n :
  heap_ok s → s.(descs) !! i = Some d → s.(arenas) !! a = Some (mk_arena (Some i) n) → pools_wf p →
  (∀ b m, pages_ok s.(h_pal) b m → apart a 1 b m → pages_ok p b m) →
  heap_ok (shrunk s p i d a).
Proof.
  intros Hs Hd Ha Hp Hold. pose proof (ho_desc _ Hs i d Hd) as Hok.
  destruct (arenas_shrink s p a _ Hs Ha Hold) as [Hpg Hap]. destruct (arena_page s a _ Hs Ha) as [[_ Hm] _].
  set (l := filter (λ x, x ∉ blocks a d) d.(free_list)).
  assert (Hdesc : ∀ j e, (shrunk s p i d a).(descs) !! j = Some e →
    j = i ∧ e = set_free d l ∨ j ≠ i ∧ s.(descs) !! j = Some e) by (intros; by apply (refill_desc s i d l a 0)).
  split; try done.
  - intros j e He. destruct (Hdesc j e He) as [[-> ->] | [_ He']]; [done|by eapply ho_desc].
  - intros b j m Hb. cbn [shrunk arenas] in Hb. apply lookup_delete_Some in Hb as [Hne Hb].
    destruct (ho_count _ Hs b j m Hb) as (e & He & ->). cbn [shrunk descs]. destruct (decide (j = i)) as [-> | Hji].
    + assert (e = d) as -> by congruence. exists (set_free d l). rewrite list_lookup_insert_eq by (by eapply lookup_lt_Some).
      split; [done|]. cbn [set_free free_list]. unfold l, free_in. rewrite list_filter_filter. do 2 f_equal.
      apply list_filter_iff. intros x. split; [|by intros []]. intros Hx. split; [done|]. intros Hxa.
      destruct (block_page a d x Hok Hm Hxa) as (_ & _ & E & _). congruence.
    + rewrite list_lookup_insert_ne by done. eauto.
  - intros j e b He Hb. destruct (Hdesc j e He) as [[-> ->] | [Hne He']].
    + apply list_elem_of_filter in Hb as [Hba Hb]. destruct (ho_free _ Hs i d b Hd Hb) as (c & m & Hc & Hblk).
      exists c, m. split; [|done]. apply lookup_delete_Some. split; [|done]. by intros ->.
    + destruct (ho_free _ Hs j e b He' Hb) as (c & m & Hc & Hblk). exists c, m. split; [|done].
      apply lookup_delete_Some. split; [|done]. intros ->. rewrite Ha in Hc. by injection Hc as <- _.
  - intros j e He. destruct (Hdesc j e He) as [[-> ->] | [_ He']]; [apply NoDup_filter|]; by eapply ho_nodup.
Qed.

Lemma live_shrunk s p i d a n q m :
  heap_ok s → s.(descs) !! i = Some d → s.(arenas) !! a = Some (mk_arena (Some i) n) →
  (∀ b, b ∈ blocks a d → b ∈ d.(free_list)) → live (shrunk s p i d a) q m ↔ live s q m.
Proof.
  intros Hs Hd Ha Hall. pose proof (ho_desc _ Hs i d Hd) as Hok.
  assert (Hat : ∀ b ar, a ≠ b → s.(arenas) !! b = Some ar → live_at (shrunk s p i d a) b ar q m ↔ live_at s b ar q m).
  { intros b ar Hab Hb. unfold live_at. destruct (a_desc ar) as [j|]; [|done]. cbn [shrunk descs]. destruct (decide (j = i)) as [-> | Hji].
    - rewrite list_lookup_insert_eq, Hd by (by eapply lookup_lt_Some).
      split; intros (e & [= <-] & Hq & Hf & ->); eexists; (split; [done|]); (split; [done|]); (split; [|done]).
      + intros Hqf. apply Hf. apply list_elem_of_filter. split; [|done]. intros Hqa. apply Hab.
        by apply (blocks_arena s a b d d _ _ q Hs Ha Hb).
      + by intros [_ ?]%list_elem_of_filter.
    - by rewrite list_lookup_insert_ne. }
  unfold live. split; intros (b & ar & Hb & Hq).
  - cbn [shrunk arenas] in Hb. apply lookup_delete_Some in Hb as [Hne Hb]. exists b, ar. split; [done|]. by apply Hat.
  - destruct (decide (a = b)) as [<- | Hne].
    + rewrite Ha in Hb. injection Hb as <-. destruct Hq as (e & He & Hqb & Hqf & _). cbn in He.
      assert (e = d) as -> by congruence. by destruct (Hqf (Hall q Hqb)).
    + exists b, ar. split; [by apply lookup_delete_Some|]. by apply Hat.
Qed.

(** Putting a block on the free list. *)
Lemma push_block_ok s i d a n p :
  heap_ok s → s.(descs) !! i = Some d → s.(arenas) !! a = Some (mk_arena (Some i) n) →
  p ∈ blocks a d → p ∉ d.(free_list) →
  heap_ok (refill s i d (p :: d.(free_list)) a (n + 1)) ∧
  ∀ q m, live (refill s i d (p :: d.(free_list)) a (n + 1)) q m ↔ live s q m ∧ q ≠ p.
Proof.
  intros Hs Hd Ha Hp Hf. pose proof (ho_desc _ Hs i d Hd) as Hok. destruct (arena_page s a _ Hs Ha) as [[_ Hm] _].
  destruct (block_page a d p Hok Hm Hp) as (Hp1 & Hp2 & Hpg & _). destruct (free_in_blocks s a i n d Hs Ha Hd) as (Hn & _).
  split.
  - apply (refill_ok s i d _ a n); try done.
    + apply NoDup_cons. split; [done|]. by apply (ho_nodup _ Hs i d).
    + intros b [-> | Hb]%elem_of_cons; [by right|by left].
    + intros a' Hne. rewrite free_in_cons, decide_False by congruence. done.
    + rewrite free_in_cons, decide_True by done. cbn [length]. lia.
  - intros q m. rewrite (live_refill s i d _ a n) by done. split.
    + intros (x & ar & Hx & Hq). destruct (a_desc ar) as [j|] eqn:Ej.
      * destruct Hq as (e & He & Hqb & Hqf & ->). destruct (decide (j = i)) as [-> | Hji].
        -- assert (e = d) as -> by congruence. apply not_elem_of_cons in Hqf as [Hne Hqf].
           split; [|done]. exists x, ar. split; [done|]. unfold live_at. rewrite Ej. eauto.
        -- split; [exists x, ar; split; [done|]; unfold live_at; rewrite Ej; eauto|]. intros ->.
           assert (x = a) as -> by (by apply (blocks_arena s x a e d _ _ p Hs Hx Ha (ho_desc _ Hs j e He))).
           rewrite Ha in Hx. injection Hx as <-. cbn in Ej. congruence.
      * split; [by exists x, ar|]. intros ->. destruct (live_within s x ar p m Hs Hx Hq) as (W1 & W2 & W3).
        assert (x ≠ a) as Hxa by (intros ->; rewrite Ha in Hx; injection Hx as <-; done). destruct Hok as [Hbs _].
        destruct (ho_apart _ Hs x a ar _ Hx Ha Hxa) as [W4 | W4]; cbn [npages a_desc] in *; lia.
    + intros [(x & ar & Hx & Hq) Hne]. exists x, ar. split; [done|]. unfold live_at in *. destruct (a_desc ar) as [j|] eqn:Ej; [|done].
      destruct Hq as (e & He & Hqb & Hqf & ->). exists e. do 2 (split; [done|]). split; [|done].
      destruct (decide (j = i)) as [-> |]; [|done]. assert (e = d) as -> by congruence. by apply not_elem_of_cons.
Qed.

(** What free() promises. *)
Definition freed (s s' : hst) (p : Z) : Prop :=
  heap_wf s' ∧ ∀ q m, live s' q m ↔ live s q m ∧ q ≠ p.

Lemma free_small s a i n d p :
  heap_wf s → s.(arenas) !! a = Some (mk_arena (Some i) n) → s.(descs) !! i = Some d →
  p ∈ blocks a d → p ∉ d.(free_list) → ∃ s', free p s = Ok (tt, s') ∧ freed s s' p.
Proof.
  intros [Hs Hbusy] Ha Hd Hp Hf. pose proof (ho_desc _ Hs i d Hd) as Hok. destruct (arena_page s a _ Hs Ha) as [Hk _].
  destruct (block_page a d p Hok (proj2 Hk) Hp) as (Hp1 & _). pose proof Hk as [Hkb _]. unfold PHYS_BASE in Hkb.
  pose proof (Hbusy a i n d Ha Hd) as Hlt. destruct (free_in_blocks s a i n d Hs Ha Hd) as (_ & Hn0 & _).
  destruct (push_block_ok s i d a n p Hs Hd Ha Hp Hf) as [H1 Hl1]. set (s1 := refill s i d _ a (n + 1)) in *.
  assert (Hd1 : s1.(descs) !! i = Some (set_free d (p :: d.(free_list)))) by (by apply refill_desc_eq).
  assert (Ha1 : s1.(arenas) !! a = Some (mk_arena (Some i) (n + 1))) by apply lookup_insert_eq.
  assert (Hbpa : 0 <= blocks_per_arena d < 4096) by (destruct (desc_ok_bounds d Hok), Hok as [? ->]; zdm).
  assert (Hrun : free p s = (if d.(blocks_per_arena) <=? n + 1 then
      lift (ASSERT (n + 1 =? d.(blocks_per_arena)));; remove_blocks a i d.(blocks_per_arena);;
      use_pages (palloc_free_page a);; drop_arena a else mret tt) s1).
  { unfold free. rewrite (proj2 (Z.eqb_neq _ _)) by lia.
    rewrite (run_bind _ _ _ _ _ (block_to_arena_ok s a _ p 0 Hk Ha (ex_intro _ d (conj Hd (conj Hok Hp))))).
    rewrite (run_get_arena _ _ _ _ Ha). cbn [a_desc]. rewrite (run_get_desc _ _ _ _ Hd).
    unfold put_desc, put_arena. rewrite run_modify. cbn [free_cnt]. rewrite u32_small by lia. by rewrite run_modify. }
  rewrite Hrun. destruct (Z.leb_spec (blocks_per_arena d) (n + 1)) as [Hfull | Hnot].
  - rewrite (run_lift _ _ _ tt) by (apply ASSERT_true, Z.eqb_eq; lia).
    destruct (free_pages_ok s1.(h_pal) a 1 (ho_pools _ H1) (ho_pages _ H1 a _ Ha1)) as (pp & Ep & Hpp & Hold).
    destruct (free_in_blocks s1 a i (n + 1) _ H1 Ha1 Hd1) as (_ & _ & Hall). specialize (Hall ltac:(cbn; lia)).
    exists (shrunk s1 pp i (set_free d (p :: d.(free_list))) a). split; [|split; [split|]].
    + rewrite (run_bind _ _ _ _ _ (remove_blocks_ok s1.(h_pal) s1.(descs) s1.(arenas) a i _ _ Hk Ha1 Hd1 ltac:(cbn; lia))).
      rewrite (run_bind _ _ _ tt (mk_hst pp (shrunk s1 pp i (set_free d (p :: d.(free_list))) a).(descs) s1.(arenas)));
        [done|]. unfold use_pages, palloc_free_page. cbn [h_pal]. by rewrite Ep.
    + by apply (shrunk_ok s1 pp i _ a (n + 1)).
    + intros x j m e Hx He. cbn [shrunk arenas] in Hx. apply lookup_delete_Some in Hx as [Hne Hx].
      assert (Hbx : busy s1 x) by (apply busy_refill; auto).
      destruct (refill_desc s1 i _ _ a 0 _ _ Hd1 He) as [[-> ->] | [_ He']]; [|by apply (Hbx j m e)].
      by apply (Hbx i m _ Hx Hd1).
    + intros q m. rewrite (live_shrunk s1 pp i _ a (n + 1)) by done. apply Hl1.
  - exists s1. split; [done|]. split; [|done]. split; [done|]. intros x. apply busy_refill; [done..|].
    right. lia.
Qed.

Lemma free_big s a n :
  heap_wf s → s.(arenas) !! a = Some (mk_arena None n) → ∃ s', free (a + 12) s = Ok (tt, s') ∧ freed s s' (a + 12).
Proof.
  intros [Hs Hbusy] Ha. destruct (arena_page s a _ Hs Ha) as [Hk Hn]. pose proof Hk as [Hkb _]. unfold PHYS_BASE in Hkb.
  destruct (free_pages_ok s.(h_pal) a n (ho_pools _ Hs) (ho_pages _ Hs a _ Ha)) as (p & Ep & Hp & Hold).
  exists (mk_hst p s.(descs) (delete a s.(arenas))). split; [|split; [split; [split|]|]]; unfold busy; cbn [arenas descs h_pal]; try done.
  - unfold free. rewrite (proj2 (Z.eqb_neq _ _)) by lia.
    rewrite (run_bind _ _ _ _ _ (block_to_arena_ok s a _ (a + 12) _ Hk Ha (conj eq_refl eq_refl))).
    rewrite (run_get_arena _ _ _ _ Ha). cbn [a_desc free_cnt].
    by rewrite (run_bind _ _ _ tt (mk_hst p s.(descs) s.(arenas))) by (unfold use_pages; by rewrite Ep).
  - apply (ho_desc _ Hs).
  - by apply (arenas_shrink s p a _ Hs Ha Hold).
  - by apply (arenas_shrink s p a _ Hs Ha Hold).
  - intros b i m [_ Hb]%lookup_delete_Some. by apply (ho_count _ Hs b).
  - intros i d b Hd Hb. destruct (ho_free _ Hs i d b Hd Hb) as (c & m & Hc & Hblk). exists c, m. split; [|done].
    apply lookup_delete_Some. split; [|done]. by intros ->; rewrite Ha in Hc.
  - apply (ho_nodup _ Hs).
  - intros b i m d [_ Hb]%lookup_delete_Some Hd. by apply (Hbusy b i m d).
  - intros q m. unfold live. cbn [arenas]. split.
    + intros (b & ar & [Hne Hb]%lookup_delete_Some & Hq). split; [by exists b, ar|]. intros ->.
      destruct (live_within s b ar _ m Hs Hb Hq) as (W1 & W2 & W3). cbn [npages a_desc] in *.
      destruct (ho_apart _ Hs a b _ ar Ha Hb Hne) as [W4 | W4]; cbn [npages a_desc] in *; lia.
    + intros [(b & ar & Hb & Hq) Hne]. exists b, ar. split; [|done]. apply lookup_delete_Some. split; [|done].
      intros ->. rewrite Ha in Hb. injection Hb as <-. by destruct Hq as [-> _].
Qed.

(** ** The contract *)

(** The heap as it is after palloc_init() and malloc_init(). *)
Lemma malloc_init_wf p : pools_wf p → heap_wf (mk_hst p (make_descs 10 16) ∅).
Proof.
  intros Hp. assert (Hd : Forall (λ d, desc_ok d ∧ d.(free_list) = []) (make_descs 10 16)) by (repeat constructor; done).
  rewrite Forall_lookup in Hd. split; [split|]; cbn [arenas descs h_pal]; try done.
  - intros i d Hi. by apply (Hd i).
  - intros i d b Hi Hb. destruct (Hd i d Hi) as [_ E]. rewrite E in Hb. by apply not_elem_of_nil in Hb.
  - intros i d Hi. destruct (Hd i d Hi) as [_ ->]. constructor.
Qed.

Lemma block_size_ok s p n : heap_ok s → live s p n → block_size_of p s = Ok (n, s).
Proof.
  intros Hs (a & [[i|] k] & Ha & Hp); destruct (arena_page s a _ Hs Ha) as [Hk Hn]; unfold block_size_of.
  - destruct Hp as (d & Hd & Hb & _ & ->). pose proof (ho_desc _ Hs i d Hd) as Hok.
    rewrite (run_bind _ _ _ _ _ (block_to_arena_ok s a _ p 0 Hk Ha (ex_intro _ d (conj Hd (conj Hok Hb))))).
    rewrite (run_get_arena _ _ _ _ Ha). cbn [a_desc]. by rewrite (run_get_desc _ _ _ _ Hd).
  - destruct Hp as [-> ->]. rewrite (run_bind _ _ _ _ _ (block_to_arena_ok s a _ (a + 12) _ Hk Ha (conj eq_refl eq_refl))).
    rewrite (run_get_arena _ _ _ _ Ha). cbn [a_desc free_cnt npages] in *.
    destruct (pages_ok_range _ _ _ (ho_pools _ Hs) (ho_pages _ Hs a _ Ha)) as ([Hkb Hkm] & Hr & _).
    cbn [npages a_desc free_cnt] in Hr. unfold PHYS_BASE in Hkb. rewrite pg_ofs_mod. change PGSIZE with 4096.
    replace ((a + 12) mod 4096) with 12 by zdm. by rewrite u32_small by lia.
Qed.

Lemma free_frees s p n : heap_wf s → live s p n → ∃ s', free p s = Ok (tt, s') ∧ freed s s' p.
Proof.
  intros Hs (a & [[i|] k] & Ha & Hp).
  - destruct Hp as (d & Hd & Hb & Hf & _). by apply (free_small s a i k d p).
  - destruct Hp as [-> _]. by apply (free_big s a k).
Qed.

(** C26: malloc() of a size that does not wrap around either returns a null pointer
    and leaves the heap as it is, or returns a block of at least that many bytes
    which overlaps no block in use and is the only one that comes into use. *)
Theorem malloc_refines (s : hst) (size : Z) :
  heap_wf s → 0 < size < 4294963189 →
  malloc size s = Ok (NULL, s) ∨
  ∃ p n s', malloc size s = Ok (p, s') ∧ heap_wf s' ∧ size <= n ∧
    (∀ q m, live s' q m ↔ live s q m ∨ q = p ∧ m = n) ∧ ∀ q m, live s q m → p + n <= q ∨ q + m <= p.
Proof. apply malloc_allocates. Qed.


(** A size within 11 of 2^32 is rounded up past the word, so that the block
    returned has 4084 bytes; and calloc() takes a product that does not fit in a
    word for a small one. *)
Theorem malloc_size_wraps (s : hst) (size : Z) :
  heap_wf s → 4294967285 <= size < 4294967296 →
  (malloc size s = Ok (NULL, s) ∨ ∃ p s', malloc size s = Ok (p, s') ∧ heap_wf s' ∧ ∀ m, live s' p m ↔ m = 4084) ∧
  calloc 65537 65537 s = malloc 131073 s.
Proof.
  intros Hs Hsz. split; [|done]. pose proof Hs as [Hok _]. unfold malloc. rewrite (proj2 (Z.eqb_neq _ _)) by lia. rewrite run_gets.
  destruct (find_desc (descs s) size 0) as [i|] eqn:Ef.
  - destruct (find_desc_ok _ _ _ _ Ef) as (d & _ & Hd & Hle). destruct (ho_desc _ Hok _ d Hd). lia.
  - replace (u32 (u32 (size + ARENA_SIZE) + PGSIZE - 1) / PGSIZE) with 1
      by (unfold ARENA_SIZE, u32; change PGSIZE with 4096; zdm).
    destruct (get_pages_ok s.(h_pal) 1 (ho_pools _ Hok) ltac:(lia)) as [(a & p & E & Hp & Ha & Hold) | E].
    + right. destruct (pages_ok_range p a 1 Hp Ha) as ([Hk _] & _). unfold PHYS_BASE in Hk.
      rewrite (run_bind _ _ s a (mk_hst p s.(descs) s.(arenas))) by (unfold use_pages; by rewrite E).
      rewrite (proj2 (Z.eqb_neq _ _)) by lia. unfold put_arena. rewrite run_modify.
      exists (a + 12), (mk_hst p s.(descs) (<[a := mk_arena None 1]> s.(arenas))).
      split; [done|]. destruct (big_ok s a p 1 Hs Hp Ha Hold) as (Hs' & Hlive & Hfr). split; [done|].
      intros m. rewrite Hlive. specialize (Hfr m). split; [|by right]. intros [| [_ ->]]; [done|lia].
    + left. by rewrite (run_bind _ _ s NULL s) by (unfold use_pages; rewrite E, use_pages_eta; done).
Qed.

(** ** Concrete heaps *)

(** A heap in which one big block of a page is in use. *)
Definition demo_heap : hst := mk_hst demo_pst (make_descs 10 16) {[3222274048 := mk_arena None 1]}.

Lemma demo_heap_wf : heap_wf demo_heap.
Proof.
  destruct (malloc_init_wf demo_pst demo_pools_wf) as [H0 _].
  assert (Hone : ∀ a ar, demo_heap.(arenas) !! a = Some ar → a = 3222274048 ∧ ar = mk_arena None 1)
    by (intros a ar; cbn [demo_heap arenas]; intros [<- <-]%lookup_singleton_Some; done).
  split; [split|].
  - apply (ho_pools _ H0).
  - apply (ho_desc _ H0).
  - intros a ar [-> ->]%Hone. exists 0. repeat split; try done. intros k Hk. assert (k = 0) as -> by (cbn in Hk; lia).
    by vm_compute.
  - by intros a b ar br [-> ->]%Hone [-> ->]%Hone.
  - by intros a i n [_ [=]]%Hone.
  - intros i d b Hd Hb. by destruct (ho_free _ H0 i d b Hd Hb) as (a & n & Ha & _).
  - apply (ho_nodup _ H0).
  - by intros a i n d [_ [=]]%Hone.
Qed.

Lemma demo_live : live demo_heap 3222274060 4084.
Proof. exists 3222274048, (mk_arena None 1). split; [apply lookup_singleton_eq|done]. Qed.

Lemma malloc_refines_witness :
  fst <$> malloc 100 demo_heap = Ok 3222286348 ∧
  ∃ p n s', malloc 100 demo_heap = Ok (p, s') ∧ heap_wf s' ∧ 100 <= n.
Proof.
  split; [by vm_compute|].
  destruct (malloc_refines demo_heap 100 demo_heap_wf ltac:(lia)) as [E | (p & n & s' & E & Hs' & Hn & _)]; [|exact (ex_intro _ p (ex_intro _ n (ex_intro _ s' (conj E (conj Hs' Hn)))))].
  exfalso. apply (f_equal (fmap fst)) in E. vm_compute in E. discriminate.
Defined.


Lemma malloc_size_wraps_witness :
  ∃ p s', malloc 4294967295 demo_heap = Ok (p, s') ∧ ∀ m, live s' p m ↔ m = 4084.
Proof.
  destruct (malloc_size_wraps demo_heap 4294967295 demo_heap_wf ltac:(lia)) as [[E | (p & s' & E & _ & Hl)] _]; [|exact (ex_intro _ p (ex_intro _ s' (conj E Hl)))].
  exfalso. apply (f_equal (fmap fst)) in E. vm_compute in E. discriminate.
Defined.
