(* ===== verification/Pagedir.v ===== *)
(** * Page directories: userprog/pagedir.c

    Page directories and page tables are pages of 1024 words in the store of
    Palloc.v, walked by address as the code walks them.  [cr3] is the processor's
    page directory base register; every load of it flushes the translation
    lookaside buffer, which [flushes] counts.  The kernel's page directory and
    the size of memory are fixed at boot. *)

From S2P Require Import Prelude Bitmap Vaddr Palloc.

Open Scope Z_scope.

(** ** Definitions *)

Record pgst := mk_pgst { palloc : pst; cr3 : Z; flushes : Z }.

Abbreviation G := (st pgst).

(** Calling the page allocator. *)
Definition use_palloc {A} (m : P A) : G A := λ s,
  match m s.(palloc) with
  | Ok (a, p) => Ok (a, mk_pgst p s.(cr3) s.(flushes))
  | Panic => Panic | Wild => Wild | NoFuel => NoFuel
  end.

Definition page_of (a : Z) : Z := a - a mod 4096.
Definition word_of (a : Z) : nat := Z.to_nat (a mod 4096 / 4).

Definition get32 (m : gmap Z (list Z)) (a : Z) : option Z :=
  m !! page_of a ≫= λ w, w !! word_of a.

Definition load32 (a : Z) : G Z :=
  s ← gets palloc; lift (deref (get32 s.(pmem) a)).
Definition store32 (a v : Z) : G unit :=
  s ← gets palloc;
  w ← lift (deref (s.(pmem) !! page_of a));
  modify (λ g, mk_pgst (with_pmem (<[page_of a := <[word_of a := v]> w]> s.(pmem)) s)
                 g.(cr3) g.(flushes)).

Section pagedir.
Context (init_page_dir init_ram_pages : Z).

Definition pagedir_activate (pd : Z) : G unit :=
  let pd := if pd =? NULL then init_page_dir else pd in
  p ← lift (vtop pd);
  modify (λ g, mk_pgst g.(palloc) p (g.(flushes) + 1)).

Definition active_pd : G Z :=
  c ← gets cr3; lift (ptov c).

Definition invalidate_pagedir (pd : Z) : G unit :=
  a ← active_pd;
  when (a =? pd) (pagedir_activate pd).

Definition pagedir_create : G Z :=
  pd ← use_palloc (palloc_get_page 0);
  if pd =? NULL then mret NULL
  else
    s ← gets palloc;
    w ← lift (deref (s.(pmem) !! init_page_dir));
    modify (λ g, mk_pgst (with_pmem (<[pd := w]> s.(pmem)) s) g.(cr3) g.(flushes));;
    mret pd.

(** The addresses of the words of a page, from its start on. *)
Definition for_words (n : nat) (page : Z) (body : Z → G unit) : G unit :=
  for_st n 0 (λ i, body (page + 4 * i)).

Definition pagedir_destroy (pd : Z) : G unit :=
  if pd =? NULL then mret tt
  else
    lift (ASSERT (negb (pd =? init_page_dir)));;
    for_words (Z.to_nat (pd_no PHYS_BASE)) pd (λ a,
      pde ← load32 a;
      when (negb (Z.land pde PTE_P =? 0))
        (pt ← lift (pde_get_pt pde);
         for_words 1024 pt (λ b,
           pte ← load32 b;
           when (negb (Z.land pte PTE_P =? 0))
             (page ← lift (pte_get_page pte); use_palloc (palloc_free_page page)));;
         use_palloc (palloc_free_page pt)));;
    use_palloc (palloc_free_page pd).

Definition lookup_page (pd vaddr : Z) (create : bool) : G Z :=
  lift (ASSERT (negb (pd =? NULL)));;
  lift (ASSERT (negb create || is_user_vaddr vaddr));;
  let pde_at := pd + 4 * pd_no vaddr in
  pde ← load32 pde_at;
  ok ← (if pde =? 0 then
          if create then
            pt ← use_palloc (palloc_get_page PAL_ZERO);
            if pt =? NULL then mret false
            else pde ← lift (pde_create pt); store32 pde_at pde;; mret true
          else mret false
        else mret true);
  if (ok : bool) then
    pde ← load32 pde_at;
    pt ← lift (pde_get_pt pde);
    mret (pt + 4 * pt_no vaddr)
  else mret NULL.

Definition pagedir_set_page (pd upage kpage : Z) (writable : bool) : G bool :=
  lift (ASSERT (pg_ofs upage =? 0));;
  lift (ASSERT (pg_ofs kpage =? 0));;
  lift (ASSERT (is_user_vaddr upage));;
  k ← lift (vtop kpage);
  lift (ASSERT (Z.shiftr k 12 <? init_ram_pages));;
  lift (ASSERT (negb (pd =? init_page_dir)));;
  pte ← lookup_page pd upage true;
  if negb (pte =? NULL) then
    v ← load32 pte;
    lift (ASSERT (Z.land v PTE_P =? 0));;
    v ← lift (pte_create_user kpage writable);
    store32 pte v;;
    mret true
  else mret false.

Definition pagedir_get_page (pd uaddr : Z) : G Z :=
  lift (ASSERT (is_user_vaddr uaddr));;
  pte ← lookup_page pd uaddr false;
  if pte =? NULL then mret NULL
  else
    v ← load32 pte;
    if negb (Z.land v PTE_P =? 0)
    then p ← lift (pte_get_page v); mret (p + pg_ofs uaddr)
    else mret NULL.

Definition pagedir_clear_page (pd upage : Z) : G unit :=
  lift (ASSERT (pg_ofs upage =? 0));;
  lift (ASSERT (is_user_vaddr upage));;
  pte ← lookup_page pd upage false;
  if pte =? NULL then mret tt
  else
    v ← load32 pte;
    if negb (Z.land v PTE_P =? 0) then
      store32 pte (Z.land v (u32 (Z.lnot PTE_P)));;
      invalidate_pagedir pd
    else mret tt.

(** pagedir_is_dirty() and pagedir_is_accessed(): a flag of the entry. *)
Definition pte_flag (f pd vpage : Z) : G bool :=
  pte ← lookup_page pd vpage false;
  if pte =? NULL then mret false
  else v ← load32 pte; mret (negb (Z.land v f =? 0)).

(** pagedir_set_dirty() and pagedir_set_accessed(). *)
Definition set_pte_flag (f pd vpage : Z) (b : bool) : G unit :=
  pte ← lookup_page pd vpage false;
  if pte =? NULL then mret tt
  else
    v ← load32 pte;
    if b then store32 pte (Z.lor v f)
    else store32 pte (Z.land v (u32 (Z.lnot f)));; invalidate_pagedir pd.

Definition pagedir_is_dirty := pte_flag PTE_D.
Definition pagedir_set_dirty := set_pte_flag PTE_D.
Definition pagedir_is_accessed := pte_flag PTE_A.
Definition pagedir_set_accessed := set_pte_flag PTE_A.

End pagedir.

(** ** Theory *)

Lemma page_of_word p k : p mod 4096 = 0 → 0 <= k < 1024 → page_of (p + 4 * k) = p.
Proof. intros. unfold page_of. zdm. Qed.

Lemma word_of_word p k : p mod 4096 = 0 → 0 <= k < 1024 → word_of (p + 4 * k) = Z.to_nat k.
Proof. intros. unfold word_of. f_equal. zdm. Qed.

(** A page of 1024 words. *)
Definition table (m : gmap Z (list Z)) (p : Z) (w : list Z) : Prop :=
  m !! p = Some w ∧ length w = 1024%nat.

Lemma load32_ok p k w v s :
  p mod 4096 = 0 → 0 <= k < 1024 → s.(palloc).(pmem) !! p = Some w → w !! Z.to_nat k = Some v →
  load32 (p + 4 * k) s = Ok (v, s).
Proof.
  intros Ha Hk Hm Hv. unfold load32, get32. rewrite run_gets, page_of_word, word_of_word by done.
  rewrite Hm. simpl. by rewrite Hv.
Qed.

Lemma store32_ok p k w v s :
  p mod 4096 = 0 → 0 <= k < 1024 → s.(palloc).(pmem) !! p = Some w →
  store32 (p + 4 * k) v s =
    Ok (tt, mk_pgst (with_pmem (<[p := <[Z.to_nat k := v]> w]> s.(palloc).(pmem)) s.(palloc))
              s.(cr3) s.(flushes)).
Proof.
  intros Ha Hk Hm. unfold store32. rewrite run_gets, page_of_word, word_of_word by done.
  rewrite (run_lift _ _ _ w) by by rewrite Hm. done.
Qed.

(** The page table that entry [k] of a page directory refers to. *)
Definition pd_tab (w : list Z) (k : Z) : option Z :=
  match w !! Z.to_nat k with
  | Some pde =>
      if pde =? 0 then None
      else match pde_get_pt pde with Ok pt => Some pt | _ => None end
  | None => None
  end.

(** The page a page table entry maps. *)
Definition entry_frame (v : Z) : option Z :=
  if Z.land v PTE_P =? 0 then None
  else match pte_get_page v with Ok p => Some p | _ => None end.

Definition pte_ok (v : Z) : Prop := Z.land v PTE_P ≠ 0 → ∃ p, pte_get_page v = Ok p.

(** The entry of a page that is present. *)
Definition entry_pte (v : Z) : option Z := if Z.land v PTE_P =? 0 then None else Some v.

Lemma entry_pte_frame v : entry_pte v ≫= entry_frame = entry_frame v.
Proof. unfold entry_pte, entry_frame. by destruct (Z.land v PTE_P =? 0) eqn:E; cbn; rewrite ?E. Qed.

(** The page table entry of a user address whose page is present. *)
Definition pte_at (m : gmap Z (list Z)) (pd va : Z) : option Z :=
  w ← m !! pd; pt ← pd_tab w (va / 4194304); u ← m !! pt;
  v ← u !! Z.to_nat (va / 4096 mod 1024); entry_pte v.

(** The specification of an address space: which page of kernel memory, if any,
    a user address is in. *)
Definition frame_of (m : gmap Z (list Z)) (pd va : Z) : option Z :=
  pte_at m pd va ≫= entry_frame.

(** A page directory of a process: its user entries are empty or refer to page
    tables of its own, in pages that are in use. *)
Record pd_wf (s : pst) (pd : Z) (w : list Z) : Prop := {
  pd_page : kernel_page pd;
  pd_table : table s.(pmem) pd w;
  pd_used : used s pd = true;
  pd_entry : ∀ k pde, 0 <= k < 768 → w !! Z.to_nat k = Some pde → pde ≠ 0 →
    ∃ pt u, pde_get_pt pde = Ok pt ∧ kernel_page pt ∧ pt ≠ pd ∧ used s pt = true ∧
      table s.(pmem) pt u ∧ Forall pte_ok u;
  pd_inj : ∀ k k' pt, 0 <= k < 768 → 0 <= k' < 768 →
    pd_tab w k = Some pt → pd_tab w k' = Some pt → k = k' }.

Lemma user_pd_no va : user_va va → 0 <= va / 4194304 < 768.
Proof. unfold user_va, PHYS_BASE. intros. zdm. Qed.

Lemma same_page va va' :
  va / 4096 = va' / 4096 ↔ va / 4194304 = va' / 4194304 ∧ va / 4096 mod 1024 = va' / 4096 mod 1024.
Proof. split; [intros; split; zdm|intros [? ?]; zdm]. Qed.

Lemma kernel_page_u32 p : kernel_page p → is_u32 p.
Proof. unfold kernel_page, PHYS_BASE. intros [? ?]. lia. Qed.

(** What an entry of a well-formed page directory is. *)
Lemma pd_tab_cases s pd w k :
  pd_wf s pd w → 0 <= k < 768 →
  (w !! Z.to_nat k = Some 0 ∧ pd_tab w k = None) ∨
  (∃ pde pt u, w !! Z.to_nat k = Some pde ∧ pde ≠ 0 ∧ pde_get_pt pde = Ok pt ∧
     pd_tab w k = Some pt ∧ kernel_page pt ∧ pt ≠ pd ∧ used s pt = true ∧
     table s.(pmem) pt u ∧ Forall pte_ok u).
Proof.
  intros Hw Hk. destruct (pd_table _ _ _ Hw) as [_ Hl].
  destruct (lookup_lt_is_Some_2 w (Z.to_nat k)) as [pde Hpde]; [lia|].
  unfold pd_tab. rewrite Hpde. destruct (Z.eqb_spec pde 0) as [->|Hn]; [by left|right].
  destruct (pd_entry _ _ _ Hw k pde Hk Hpde Hn) as (pt & u & E & H). exists pde, pt, u.
  by rewrite E.
Qed.

Lemma entry_frame_ok v :
  pte_ok v → Z.land v PTE_P ≠ 0 → ∃ p, pte_get_page v = Ok p ∧ entry_frame v = Some p.
Proof.
  intros Hv Hp. destruct (Hv Hp) as [p E]. exists p. split; [done|].
  unfold entry_frame. by rewrite (proj2 (Z.eqb_neq _ _)), E by done.
Qed.

(** *** Storing an entry of a page table *)

Section store_entry.
Context (s : pst) (pd : Z) (w : list Z) (k pt : Z) (u : list Z) (j : nat) (v : Z).
Context (Hw : pd_wf s pd w) (Hk : 0 <= k < 768) (Hpt : pd_tab w k = Some pt)
  (Hu : s.(pmem) !! pt = Some u) (Hj : (j < 1024)%nat) (Hv : pte_ok v).

Lemma tab_facts : pt ≠ pd ∧ kernel_page pt ∧ length u = 1024%nat ∧ Forall pte_ok u.
Proof.
  destruct (pd_tab_cases _ _ _ _ Hw Hk) as [[_ E]|(pde & pt' & u' & _ & _ & _ & E & Hp & Hn & _ & [Ht Hl] & F)].
  - by rewrite Hpt in E.
  - rewrite Hpt in E. injection E as <-. rewrite Hu in Ht. by injection Ht as <-.
Qed.

Lemma store_entry_wf : pd_wf (with_pmem (<[pt := <[j := v]> u]> s.(pmem)) s) pd w.
Proof.
  destruct tab_facts as (Hn & Hp & Hl & F). destruct Hw as [P1 [T1 T2] P3 P4 P5].
  split; [done| |done| |done].
  - split; [|done]. cbn. by rewrite lookup_insert_ne.
  - intros k' pde Hk' Hpde Hnz. destruct (P4 k' pde Hk' Hpde Hnz) as (pt' & u' & E & Q1 & Q2 & Q3 & [Q4 Q5] & Q6).
    destruct (decide (pt' = pt)) as [->|Hne].
    + exists pt, (<[j := v]> u). do 4 (split; [done|]). split; [split|].
      * cbn. apply lookup_insert_eq.
      * by rewrite length_insert.
      * by apply Forall_insert.
    + exists pt', u'. do 4 (split; [done|]). split; [split|done]; [|done].
      cbn. by rewrite lookup_insert_ne by congruence.
Qed.

Lemma store_entry_pte va :
  user_va va →
  pte_at (<[pt := <[j := v]> u]> s.(pmem)) pd va =
    if (va / 4194304 =? k) && (Z.to_nat (va / 4096 mod 1024) =? j)%nat then entry_pte v
    else pte_at s.(pmem) pd va.
Proof.
  intros Hva. pose proof (user_pd_no va Hva) as Hk'. destruct tab_facts as (Hn & Hp & Hl & F).
  unfold pte_at. rewrite lookup_insert_ne by done.
  destruct (pd_table _ _ _ Hw) as [-> _]. cbn.
  destruct (pd_tab w (va / 4194304)) as [pt'|] eqn:E; cbn.
  - destruct (Z.eqb_spec (va / 4194304) k) as [Ek|Ek]; cbn [andb].
    + rewrite Ek, Hpt in E. injection E as <-. rewrite lookup_insert_eq, Hu. cbn.
      destruct (Nat.eqb_spec (Z.to_nat (va / 4096 mod 1024)) j) as [->|Ej].
      * by rewrite list_lookup_insert_eq by lia.
      * by rewrite list_lookup_insert_ne by done.
    + rewrite lookup_insert_ne; [done|]. intros ->. destruct Ek. by apply (pd_inj _ _ _ Hw _ _ pt').
  - destruct (Z.eqb_spec (va / 4194304) k) as [Ek|Ek]; [|done]. by rewrite Ek, Hpt in E.
Qed.
End store_entry.

(** How an operation may change memory and the page directory: the user pool is left
    alone, pages in use stay in use, pages that are neither the page directory nor its page tables keep
    their contents, and page tables are only added, in pages that were free; the
    entries of the page directory are writable if they were. *)
Record pd_extends (pd : Z) (s : pst) (w : list Z) (s' : pst) (w' : list Z) : Prop := {
  pe_user : s'.(user_pool) = s.(user_pool);
  pe_used : ∀ p, kernel_page p → used s p = true → used s' p = true;
  pe_mem : ∀ p, kernel_page p → used s p = true → p ≠ pd → (∀ k, 0 <= k < 768 → pd_tab w k ≠ Some p) →
    s'.(pmem) !! p = s.(pmem) !! p;
  pe_tabs : ∀ k pt, 0 <= k < 768 → pd_tab w' k = Some pt → pd_tab w k = Some pt ∨ used s pt = false;
  pe_pde : (∀ k pde, 0 <= k < 768 → w !! Z.to_nat k = Some pde → pde ≠ 0 → Z.land pde PTE_W ≠ 0) →
    ∀ k pde, 0 <= k < 768 → w' !! Z.to_nat k = Some pde → pde ≠ 0 → Z.land pde PTE_W ≠ 0 }.

Lemma pd_extends_refl pd s w : pd_extends pd s w s w.
Proof. split; auto. Qed.

(** The writable flag is bit 1. *)
Lemma land_W_bit v : (Z.land v PTE_W =? 0) = negb (Z.testbit v 1).
Proof.
  assert (E : Z.land v PTE_W = if Z.testbit v 1 then 2 else 0); [|rewrite E; by destruct (Z.testbit v 1)].
  apply Z.bits_inj'. intros n Hn. rewrite Z.land_spec. change PTE_W with (2 ^ 1).
  rewrite Z.pow2_bits_eqb by lia. destruct (Z.eqb_spec 1 n) as [<-|Hne].
  - rewrite andb_true_r. by destruct (Z.testbit v 1).
  - rewrite andb_false_r. destruct (Z.testbit v 1); [|by rewrite Z.bits_0].
    change 2 with (2 ^ 1). rewrite Z.pow2_bits_eqb by lia. symmetry. by apply Z.eqb_neq.
Qed.

Lemma pte_writable kpage (writable : bool) :
  kernel_page kpage →
  (Z.land (kpage - PHYS_BASE + (if writable then 7 else 5)) PTE_W =? 0) = negb writable.
Proof.
  intros [_ Ha]. rewrite land_W_bit. f_equal.
  destruct writable; [apply Z.testbit_true|apply Z.testbit_false]; try lia; change (2 ^ 1) with 2;
    unfold PHYS_BASE; zdm.
Qed.

(** *** Adding a page table *)

Section new_table.
Context (s s1 : pst) (pd : Z) (w : list Z) (k pt : Z).
Context (Hw : pd_wf s pd w) (Hk : 0 <= k < 768) (Hno : pd_tab w k = None)
  (Hp : kernel_page pt) (Hfree : used s pt = false)
  (Hused : ∀ p, is_u32 p → used s1 p = if among pt 1 p then true else used s p)
  (Hmem : s1.(pmem) = <[pt := replicate 1024 0]> s.(pmem)) (Huser : s1.(user_pool) = s.(user_pool)).

Let w' := <[Z.to_nat k := pt - PHYS_BASE + 7]> w.
Let m' := <[pd := w']> s1.(pmem).

Lemma used_ne p : used s p = true → p ≠ pt.
Proof. congruence. Qed.

Lemma used_mono p : kernel_page p → used s p = true → used s1 p = true.
Proof. intros Hkp Hu. rewrite Hused by by apply kernel_page_u32. by destruct (among pt 1 p). Qed.

Lemma used_new : used s1 pt = true.
Proof.
  rewrite Hused by by apply kernel_page_u32. unfold among.
  by rewrite (proj2 (Z.leb_le _ _)), (proj2 (Z.ltb_lt _ _)) by lia.
Qed.

Lemma new_tab k' : 0 <= k' → pd_tab w' k' = if k' =? k then Some pt else pd_tab w k'.
Proof.
  intros Hk'. destruct (pd_table _ _ _ Hw) as [_ Hl]. unfold pd_tab, w'.
  destruct (Z.eqb_spec k' k) as [->|Hne].
  - rewrite list_lookup_insert_eq by lia. destruct (pde_create_ok pt Hp) as [_ ->].
    rewrite (proj2 (Z.eqb_neq _ _)); [done|]. destruct Hp. lia.
  - by rewrite list_lookup_insert_ne by lia.
Qed.

Lemma new_table_wf : pd_wf (with_pmem m' s1) pd w'.
Proof.
  destruct (pd_table _ _ _ Hw) as [T1 T2]. pose proof (used_ne pd (pd_used _ _ _ Hw)) as Hne.
  split.
  - apply (pd_page _ _ _ Hw).
  - split; [apply lookup_insert_eq|]. unfold w'. by rewrite length_insert.
  - apply used_mono; [apply (pd_page _ _ _ Hw)|apply (pd_used _ _ _ Hw)].
  - intros k' pde Hk' Hpde Hnz. cbn [with_pmem pmem]. unfold m'. destruct (decide (k' = k)) as [->|Hkk].
    + exists pt, (replicate 1024 0). unfold w' in Hpde. rewrite list_lookup_insert_eq in Hpde by lia.
      injection Hpde as <-. split; [apply pde_create_ok; done|]. do 2 (split; [done|]).
      split; [apply used_new|]. split; [split; [|done]|].
      * rewrite lookup_insert_ne, Hmem by done. apply lookup_insert_eq.
      * apply Forall_replicate. by intros [].
    + unfold w' in Hpde. rewrite list_lookup_insert_ne in Hpde by lia.
      destruct (pd_entry _ _ _ Hw k' pde Hk' Hpde Hnz) as (pt' & u & E & Q1 & Q2 & Q3 & [Q4 Q5] & Q6).
      exists pt', u. do 3 (split; [done|]). split; [by apply used_mono|]. split; [split; [|done]|done].
      pose proof (used_ne pt' Q3). by rewrite lookup_insert_ne, Hmem, lookup_insert_ne by congruence.
  - intros a b q Ha Hb. rewrite !new_tab by lia.
    assert (Hx : ∀ c, 0 <= c < 768 → pd_tab w c ≠ Some pt).
    { intros c Hc E. destruct (pd_tab_cases _ _ _ _ Hw Hc) as [[_ E']|(? & q' & ? & _ & _ & _ & E' & _ & _ & U & _)].
      - congruence.
      - rewrite E in E'. injection E' as <-. congruence. }
    destruct (Z.eqb_spec a k), (Z.eqb_spec b k); intros E1 E2; simplify_eq; try done.
    + by destruct (Hx b).
    + by destruct (Hx a).
    + by apply (pd_inj _ _ _ Hw _ _ q).
Qed.

Lemma new_table_pte va : user_va va → pte_at m' pd va = pte_at s.(pmem) pd va.
Proof.
  intros Hva. pose proof (user_pd_no va Hva) as Hk'. unfold pte_at, m'.
  rewrite lookup_insert_eq. destruct (pd_table _ _ _ Hw) as [-> Hl]. cbn. rewrite new_tab by lia.
  pose proof (used_ne pd (pd_used _ _ _ Hw)) as Hne.
  destruct (Z.eqb_spec (va / 4194304) k) as [->|Hkk].
  - rewrite Hno. cbn. rewrite lookup_insert_ne, Hmem, lookup_insert_eq by done. cbn -[replicate].
    rewrite lookup_replicate_2 by zdm. done.
  - destruct (pd_tab_cases _ _ _ _ Hw Hk') as [[_ ->]|(? & q & ? & _ & _ & _ & -> & _ & Q2 & Q3 & _)]; [done|].
    cbn. pose proof (used_ne q Q3). by rewrite lookup_insert_ne, Hmem, lookup_insert_ne by congruence.
Qed.

Lemma new_table_extends : pd_extends pd s w (with_pmem m' s1) w'.
Proof.
  split; [done|..].
  - intros p Hkp Hu. by apply used_mono.
  - intros p _ Hu Hne _. cbn [with_pmem pmem]. unfold m'. pose proof (used_ne p Hu).
    by rewrite lookup_insert_ne, Hmem, lookup_insert_ne by congruence.
  - intros k' q Hk'. rewrite new_tab by lia. destruct (k' =? k); [|by left].
    intros [= <-]. by right.
  - intros Hp' k' pde Hk' Hpde Hnz. destruct (pd_table _ _ _ Hw) as [_ Hl]. unfold w' in Hpde.
    destruct (decide (k' = k)) as [->|Hkk].
    + rewrite list_lookup_insert_eq in Hpde by lia. injection Hpde as <-.
      apply Z.eqb_neq. by rewrite (pte_writable pt true).
    + rewrite list_lookup_insert_ne in Hpde by lia. by apply (Hp' k').
Qed.
End new_table.

(** *** The operations *)

Lemma lookup_page_found s pd w va pt create :
  pd_wf s.(palloc) pd w → user_va va → pd_tab w (va / 4194304) = Some pt →
  lookup_page pd va create s = Ok (pt + 4 * (va / 4096 mod 1024), s).
Proof.
  intros Hw Hva Hpt. pose proof (user_pd_no va Hva) as Hk. unfold user_va, PHYS_BASE in Hva.
  destruct (pd_page _ _ _ Hw) as [Hr Ha]. destruct (pd_table _ _ _ Hw) as [Hm Hl].
  destruct (pd_tab_cases _ _ _ _ Hw Hk) as [[_ E]|(pde & q & u & E1 & Hn & E2 & E3 & _)]; [congruence|].
  rewrite Hpt in E3. injection E3 as <-. unfold PHYS_BASE in *.
  unfold lookup_page. rewrite (run_lift _ _ _ tt) by (apply ASSERT_true, negb_true_iff, Z.eqb_neq; lia).
  rewrite (run_lift _ _ _ tt).
  2:{ apply ASSERT_true, orb_true_iff. right. apply Z.ltb_lt. unfold PHYS_BASE. lia. }
  cbv zeta. rewrite pd_no_div, pt_no_div by lia.
  assert (L : load32 (pd + 4 * (va / 4194304)) s = Ok (pde, s)) by (eapply load32_ok; (done || lia)).
  rewrite (run_bind _ _ _ _ _ L). rewrite (proj2 (Z.eqb_neq _ _)) by done.
  rewrite (run_bind _ _ _ true s) by done.
  rewrite (run_bind _ _ _ _ _ L). by rewrite (run_lift _ _ _ _ E2).
Qed.

Lemma lookup_page_none s pd w va :
  pd_wf s.(palloc) pd w → user_va va → pd_tab w (va / 4194304) = None →
  lookup_page pd va false s = Ok (NULL, s).
Proof.
  intros Hw Hva Hpt. pose proof (user_pd_no va Hva) as Hk. unfold user_va, PHYS_BASE in Hva.
  destruct (pd_page _ _ _ Hw) as [Hr Ha]. destruct (pd_table _ _ _ Hw) as [Hm Hl].
  destruct (pd_tab_cases _ _ _ _ Hw Hk) as [[E0 _]|(pde & q & u & E1 & Hn & E2 & E3 & _)]; [|congruence].
  unfold PHYS_BASE in *.
  unfold lookup_page. rewrite (run_lift _ _ _ tt) by (apply ASSERT_true, negb_true_iff, Z.eqb_neq; lia).
  rewrite (run_lift _ _ _ tt) by done.
  cbv zeta. rewrite pd_no_div.
  assert (L : load32 (pd + 4 * (va / 4194304)) s = Ok (0, s)) by (eapply load32_ok; (done || lia)).
  rewrite (run_bind _ _ _ _ _ L). by rewrite (run_bind _ _ _ false s).
Qed.

Definition kernel_pool_full (s : pst) : Prop :=
  ∀ i, 0 <= i < bit_cnt s.(kernel_pool).(used_map) → bit s.(kernel_pool).(used_map) i = true.

(** With CREATE, a page table is made when there is none. *)
Lemma lookup_page_create s pd w va :
  pools_wf s.(palloc) → pd_wf s.(palloc) pd w → user_va va →
  (∃ s' w' pt u, lookup_page pd va true s = Ok (pt + 4 * (va / 4096 mod 1024), s') ∧
     pools_wf s'.(palloc) ∧ pd_wf s'.(palloc) pd w' ∧ s'.(cr3) = s.(cr3) ∧ s'.(flushes) = s.(flushes) ∧
     pd_tab w' (va / 4194304) = Some pt ∧ s'.(palloc).(pmem) !! pt = Some u ∧
     (∀ va', user_va va' → pte_at s'.(palloc).(pmem) pd va' = pte_at s.(palloc).(pmem) pd va') ∧
     pd_extends pd s.(palloc) w s'.(palloc) w') ∨
  (pd_tab w (va / 4194304) = None ∧ kernel_pool_full s.(palloc) ∧ lookup_page pd va true s = Ok (NULL, s)).
Proof.
  intros Hp Hw Hva. pose proof (user_pd_no va Hva) as Hk.
  destruct (pd_tab_cases _ _ _ _ Hw Hk) as [[E0 Hno]|(pde & q & u & E1 & Hn & E2 & E3 & _ & _ & _ & [Hu _] & _)].
  2:{ left. exists s, w, q, u. split; [by eapply lookup_page_found|].
      do 7 (split; [done|]). apply pd_extends_refl. }
  pose proof Hva as Hva'. unfold user_va, PHYS_BASE in Hva'.
  pose proof (pd_page _ _ _ Hw) as [Hr Ha]. pose proof (pd_table _ _ _ Hw) as [Hm Hl].
  assert (L : load32 (pd + 4 * (va / 4194304)) s = Ok (0, s)) by (eapply load32_ok; (done || lia)).
  assert (Hpre : ∀ r s2, (pt ← use_palloc (palloc_get_page PAL_ZERO);
            if pt =? NULL then mret false
            else pde ← lift (pde_create pt); store32 (pd + 4 * (va / 4194304)) pde;; mret true) s = Ok (r, s2) →
    lookup_page pd va true s =
      (if (r : bool) then pde ← load32 (pd + 4 * (va / 4194304)); pt ← lift (pde_get_pt pde);
         mret (pt + 4 * (va / 4096 mod 1024))
       else mret NULL) s2).
  { intros r s2 E. unfold PHYS_BASE in Hr. unfold lookup_page.
    rewrite (run_lift _ _ _ tt) by (apply ASSERT_true, negb_true_iff, Z.eqb_neq; lia).
    rewrite (run_lift _ _ _ tt) by (apply ASSERT_true, Z.ltb_lt; unfold PHYS_BASE; lia).
    cbv zeta. rewrite pd_no_div, pt_no_div by lia. rewrite (run_bind _ _ _ _ _ L).
    rewrite Z.eqb_refl. by rewrite (run_bind _ _ _ _ _ E). }
  destruct (palloc_get_page_ok s.(palloc) PAL_ZERO Hp eq_refl) as
    [(s1 & pt & E & Hp1 & Hkp & Hfree & Hused & Hmem & _)|[Hfull E]]; [left|right].
  - change (flag PAL_ZERO PAL_ZERO) with true in Hmem. cbv iota in Hmem.
    pose proof (used_ne _ _ Hfree pd (pd_used _ _ _ Hw)) as Hne.
    set (g1 := mk_pgst s1 s.(cr3) s.(flushes)).
    assert (Hm1 : s1.(pmem) !! pd = Some w) by (rewrite Hmem, lookup_insert_ne by done; done).
    set (w' := <[Z.to_nat (va / 4194304) := pt - PHYS_BASE + 7]> w).
    set (g2 := mk_pgst (with_pmem (<[pd := w']> s1.(pmem)) s1) s.(cr3) s.(flushes)).
    destruct (pde_create_ok pt Hkp) as [C1 C2].
    assert (Hk0 : pt ≠ 0) by (unfold kernel_page, PHYS_BASE in Hkp; lia).
    rewrite (Hpre true g2).
    2:{ assert (Eu : use_palloc (palloc_get_page PAL_ZERO) s = Ok (pt, g1))
          by (unfold use_palloc; by rewrite E).
        rewrite (run_bind _ _ _ _ _ Eu). rewrite (proj2 (Z.eqb_neq _ _)) by done.
        rewrite (run_lift _ _ _ _ C1).
        assert (Es : store32 (pd + 4 * (va / 4194304)) (pt - PHYS_BASE + 7) g1 = Ok (tt, g2))
          by (apply (store32_ok pd _ w _ g1); (done || lia)).
        by rewrite (run_bind _ _ _ _ _ Es). }
    exists g2, w', pt, (replicate 1024 0). split.
    { erewrite run_bind; [|eapply (load32_ok pd _ w'); [done|lia|apply lookup_insert_eq|]].
      - by rewrite (run_lift _ _ _ _ C2).
      - unfold w'. apply list_lookup_insert_eq. lia. }
    split; [by destruct s1|]. split; [by apply (new_table_wf s.(palloc))|]. do 2 (split; [done|]).
    split; [|split; [|split]].
    + unfold w'. rewrite (new_tab s.(palloc) pd) by (done || lia). by rewrite Z.eqb_refl.
    + cbn [g2 palloc with_pmem pmem]. rewrite lookup_insert_ne, Hmem by done. apply lookup_insert_eq.
    + intros va' Hva''. by apply (new_table_pte s.(palloc)).
    + apply (new_table_extends s.(palloc)); try done. exact (palloc_get_other _ _ _ _ _ E).
  - split; [done|]. split; [done|]. rewrite (Hpre false s); [done|].
    assert (Eu : use_palloc (palloc_get_page PAL_ZERO) s = Ok (NULL, s))
      by (unfold use_palloc; rewrite E; by destruct s).
    by rewrite (run_bind _ _ _ _ _ Eu).
Qed.

Lemma pagedir_get_page_ok s pd w va :
  pd_wf s.(palloc) pd w → user_va va →
  pagedir_get_page pd va s =
    Ok (match frame_of s.(palloc).(pmem) pd va with
        | Some p => p + va mod 4096 | None => NULL end, s).
Proof.
  intros Hw Hva. pose proof (user_pd_no va Hva) as Hk. pose proof (pd_table _ _ _ Hw) as [Hm Hl].
  unfold pagedir_get_page. rewrite (run_lift _ _ _ tt)
    by (apply ASSERT_true, Z.ltb_lt; unfold user_va in Hva; lia).
  unfold frame_of, pte_at. rewrite Hm. cbn.
  destruct (pd_tab_cases _ _ _ _ Hw Hk) as
    [[E0 Hno]|(pde & pt & u & E1 & Hn & E2 & E3 & [Hr Ha] & _ & _ & [Hu Hlu] & F)].
  - rewrite Hno. by rewrite (run_bind _ _ _ _ _ (lookup_page_none _ _ _ _ Hw Hva Hno)).
  - rewrite E3. cbn. rewrite Hu. cbn.
    rewrite (run_bind _ _ _ _ _ (lookup_page_found _ _ _ _ _ false Hw Hva E3)).
    unfold PHYS_BASE in Hr. rewrite (proj2 (Z.eqb_neq _ _)) by zdm.
    destruct (lookup_lt_is_Some_2 u (Z.to_nat (va / 4096 mod 1024))) as [v Hv]; [zdm|].
    rewrite Hv. cbn. assert (Hk2 : 0 <= va / 4096 mod 1024 < 1024) by zdm.
    rewrite (run_bind _ _ _ _ _ (load32_ok pt _ u v s Ha Hk2 Hu Hv)).
    destruct (Z.eqb_spec (Z.land v PTE_P) 0) as [Ez|Ez]; cbn [negb].
    + unfold entry_pte. by rewrite Ez.
    + rewrite entry_pte_frame. destruct (entry_frame_ok v) as (p & Ep & ->); [by eapply Forall_lookup_1|done|].
      rewrite (run_lift _ _ _ _ Ep). by rewrite pg_ofs_mod.
Qed.

Lemma same_page_test va upage :
  (va / 4194304 =? upage / 4194304) &&
    (Z.to_nat (va / 4096 mod 1024) =? Z.to_nat (upage / 4096 mod 1024))%nat
  = (va / 4096 =? upage / 4096).
Proof.
  apply eq_true_iff_eq. rewrite andb_true_iff, !Z.eqb_eq, Nat.eqb_eq, same_page.
  split; intros [? ?]; (split; [done|]); zdm.
Qed.

(** Replacing the entry of a mapped or unmapped page whose table exists. *)
Lemma store_pte_ok s pd w upage pt u v :
  pd_wf s.(palloc) pd w → user_va upage → pd_tab w (upage / 4194304) = Some pt →
  s.(palloc).(pmem) !! pt = Some u → pte_ok v →
  ∃ s', store32 (pt + 4 * (upage / 4096 mod 1024)) v s = Ok (tt, s') ∧ pd_wf s'.(palloc) pd w ∧
    (pools_wf s.(palloc) → pools_wf s'.(palloc)) ∧ s'.(cr3) = s.(cr3) ∧ s'.(flushes) = s.(flushes) ∧
    (∀ va, user_va va → pte_at s'.(palloc).(pmem) pd va =
       if va / 4096 =? upage / 4096 then entry_pte v else pte_at s.(palloc).(pmem) pd va) ∧
    pd_extends pd s.(palloc) w s'.(palloc) w.
Proof.
  intros Hw Hva Hpt Hu Hv. pose proof (user_pd_no _ Hva) as Hk.
  destruct (tab_facts _ _ _ _ _ _ Hw Hk Hpt Hu) as (_ & [_ Ha] & _).
  eexists. split; [apply (store32_ok pt _ u v s); [done|zdm|done]|].
  split; [apply (store_entry_wf _ _ _ _ _ _ _ _ Hw Hk Hpt Hu); done|].
  split; [by destruct s as [[] ? ?]|]. do 2 (split; [done|]).
  split.
  - intros va Hva'. cbn [palloc with_pmem pmem].
    rewrite (store_entry_pte _ _ _ _ _ _ _ _ Hw Hk Hpt Hu) by (done || zdm).
    by rewrite same_page_test.
  - split; [done|done| |by left|done]. intros p _ Hus Hne Hnt. cbn [palloc with_pmem pmem].
    rewrite lookup_insert_ne; [done|]. intros <-. by apply (Hnt _ Hk).
Qed.

Lemma load_pte_ok s pd w va pt u :
  pd_wf s.(palloc) pd w → user_va va → pd_tab w (va / 4194304) = Some pt →
  s.(palloc).(pmem) !! pt = Some u →
  ∃ v, load32 (pt + 4 * (va / 4096 mod 1024)) s = Ok (v, s) ∧ pte_ok v ∧
    pt + 4 * (va / 4096 mod 1024) ≠ NULL ∧ pte_at s.(palloc).(pmem) pd va = entry_pte v.
Proof.
  intros Hw Hva Hpt Hu. pose proof (user_pd_no _ Hva) as Hk.
  destruct (tab_facts _ _ _ _ _ _ Hw Hk Hpt Hu) as (_ & [Hr Ha] & Hl & F).
  destruct (lookup_lt_is_Some_2 u (Z.to_nat (va / 4096 mod 1024))) as [v Hv]; [zdm|].
  exists v. split; [apply (load32_ok pt _ u); (done || zdm)|].
  split; [by eapply Forall_lookup_1|]. split; [unfold PHYS_BASE in Hr; zdm|].
  unfold pte_at. rewrite (proj1 (pd_table _ _ _ Hw)). cbn. rewrite Hpt. cbn. rewrite Hu. cbn.
  by rewrite Hv.
Qed.

Lemma entry_frame_none v : pte_ok v → entry_frame v = None → Z.land v PTE_P = 0.
Proof.
  intros Hv E. destruct (decide (Z.land v PTE_P = 0)) as [|Hn]; [done|].
  destruct (entry_frame_ok v Hv Hn) as (p & _ & E'). congruence.
Qed.

Lemma clear_present v : Z.land (Z.land v (u32 (Z.lnot PTE_P))) PTE_P = 0.
Proof. rewrite <-Z.land_assoc. change (Z.land (u32 (Z.lnot PTE_P)) PTE_P) with 0. apply Z.land_0_r. Qed.

Lemma pd_extends_trans pd s w s1 w1 s2 w2 :
  pd_extends pd s w s1 w1 → pd_extends pd s1 w1 s2 w2 →
  (∀ k pt, 0 <= k < 768 → pd_tab w2 k = Some pt → used s1 pt = false → used s pt = false) →
  pd_extends pd s w s2 w2.
Proof.
  intros [P1 U1 M1 T1 D1] [P2 U2 M2 T2 D2] Hf.
  split; [congruence|intros p Hp Hu; auto| | |intros Hd; exact (D2 (D1 Hd))].
  - intros p Hkp Hu Hne Hnt. assert (Hnt1 : ∀ k, 0 <= k < 768 → pd_tab w1 k ≠ Some p).
    { intros k Hk E. destruct (T1 k p Hk E) as [E'|E']; [by apply (Hnt k)|congruence]. }
    rewrite M2, M1 by auto. done.
  - intros k pt Hk E. destruct (T2 k pt Hk E) as [E'|E']; [auto|right; by apply (Hf k)].
Qed.

(** Invalidating a page directory flushes the buffer when it is the active one. *)
Lemma invalidate_pagedir_ok init_pd pd s :
  kernel_page pd → 0 <= s.(cr3) < 1073741824 →
  invalidate_pagedir init_pd pd s =
    Ok (tt, mk_pgst s.(palloc) s.(cr3)
              (s.(flushes) + if s.(cr3) + PHYS_BASE =? pd then 1 else 0)).
Proof.
  intros [Hr _] Hc. unfold invalidate_pagedir, active_pd.
  rewrite (run_bind _ _ _ (s.(cr3) + PHYS_BASE) s) by by rewrite run_gets, ptov_ok by done.
  destruct (Z.eqb_spec (s.(cr3) + PHYS_BASE) pd) as [Eq|Eq]; cbn [when].
  - unfold pagedir_activate. rewrite (proj2 (Z.eqb_neq _ _)) by (unfold PHYS_BASE in Hr; lia).
    rewrite (run_lift _ _ _ _ (vtop_ok pd Hr)). unfold modify. do 3 f_equal. lia.
  - destruct s; cbn. by rewrite Z.add_0_r.
Qed.

Lemma frame_of_pte m m' pd pd' va va' :
  pte_at m pd va = pte_at m' pd' va' → frame_of m pd va = frame_of m' pd' va'.
Proof. intros E. unfold frame_of. by rewrite E. Qed.

Lemma frame_of_same_page m pd va va' : va / 4096 = va' / 4096 → frame_of m pd va = frame_of m pd va'.
Proof. intros H. apply frame_of_pte. unfold pte_at. apply same_page in H as H'. destruct H' as [-> _]. by rewrite H. Qed.

Lemma frame_of_entry m pd va v : pte_at m pd va = entry_pte v → frame_of m pd va = entry_frame v.
Proof. intros E. unfold frame_of. by rewrite E, entry_pte_frame. Qed.

Lemma no_table_no_pte s pd w va :
  pd_wf s pd w → pd_tab w (va / 4194304) = None → pte_at s.(pmem) pd va = None.
Proof. intros Hw E. unfold pte_at. rewrite (proj1 (pd_table _ _ _ Hw)). cbn. by rewrite E. Qed.

Lemma pagedir_set_page_ok init_pd ram s pd w upage kpage writable :
  pools_wf s.(palloc) → pd_wf s.(palloc) pd w → pd ≠ init_pd →
  user_va upage → upage mod 4096 = 0 → kernel_page kpage → (kpage - PHYS_BASE) / 4096 < ram →
  (frame_of s.(palloc).(pmem) pd upage ≠ None →
   pagedir_set_page init_pd ram pd upage kpage writable s = Panic) ∧
  (frame_of s.(palloc).(pmem) pd upage = None →
   (∃ s' w' v, pagedir_set_page init_pd ram pd upage kpage writable s = Ok (true, s') ∧
      pools_wf s'.(palloc) ∧ pd_wf s'.(palloc) pd w' ∧ s'.(cr3) = s.(cr3) ∧
      entry_pte v = Some v ∧ entry_frame v = Some kpage ∧ (Z.land v PTE_W =? 0) = negb writable ∧
      (∀ va, user_va va → pte_at s'.(palloc).(pmem) pd va =
         if va / 4096 =? upage / 4096 then Some v else pte_at s.(palloc).(pmem) pd va) ∧
      pd_extends pd s.(palloc) w s'.(palloc) w') ∨
   (kernel_pool_full s.(palloc) ∧ pagedir_set_page init_pd ram pd upage kpage writable s = Ok (false, s))).
Proof.
  intros Hp Hw Hpd Hva Ha Hkp Hram. pose proof Hkp as [Hr Ha'].
  assert (Hpre : pagedir_set_page init_pd ram pd upage kpage writable s =
    (pte ← lookup_page pd upage true;
     if negb (pte =? NULL) then
       v ← load32 pte; lift (ASSERT (Z.land v PTE_P =? 0));;
       v ← lift (pte_create_user kpage writable); store32 pte v;; mret true
     else mret false) s).
  { unfold pagedir_set_page. rewrite !(run_lift _ _ _ tt); try (apply ASSERT_true).
    - rewrite (run_lift _ _ _ _ (vtop_ok _ Hr)), !(run_lift _ _ _ tt); [done|apply ASSERT_true..].
      + by apply negb_true_iff, Z.eqb_neq.
      + apply Z.ltb_lt. by rewrite Z.shiftr_div_pow2.
    - apply Z.ltb_lt. apply Hva.
    - by rewrite pg_ofs_mod, Ha'.
    - by rewrite pg_ofs_mod, Ha. }
  rewrite Hpre. clear Hpre.
  destruct (lookup_page_create s pd w upage Hp Hw Hva) as
    [(s1 & w1 & pt & u & E & Hp1 & Hw1 & Hc1 & _ & Ht & Hu & Hf & He)|(Hno & Hfull & E)].
  - destruct (load_pte_ok _ _ _ _ _ _ Hw1 Hva Ht Hu) as (v & El & Hv & Hnn & Hfv).
    rewrite <-(frame_of_pte _ _ _ _ _ _ (Hf _ Hva)), (frame_of_entry _ _ _ _ Hfv).
    rewrite (run_bind _ _ _ _ _ E), (proj2 (Z.eqb_neq _ _) Hnn).
    cbn [negb]. rewrite (run_bind _ _ _ _ _ El). split.
    + unfold entry_frame. by destruct (Z.eqb_spec (Z.land v PTE_P) 0) as [Ez|Ez].
    + intros Hn. left. rewrite (entry_frame_none v Hv Hn).
      rewrite (run_lift _ _ _ tt) by done.
      destruct (pte_create_ok kpage writable Hkp) as (C1 & C2 & C3).
      rewrite (run_lift _ _ _ _ C1). set (nv := kpage - PHYS_BASE + (if writable then 7 else 5)) in *.
      destruct (store_pte_ok _ _ _ _ _ _ nv Hw1 Hva Ht Hu)
        as (s2 & Es & Hw2 & Hp2 & Hc2 & _ & Hf2 & He2); [by intros _; eexists|].
      exists s2, w1, nv. rewrite (run_bind _ _ _ _ _ Es). split; [done|]. split; [auto|]. split; [done|].
      split; [congruence|]. assert (Ev : entry_pte nv = Some nv) by (unfold entry_pte; by rewrite C3).
      split; [done|]. split; [unfold entry_frame; by rewrite C3, C2|]. split; [|split].
      * by apply pte_writable.
      * intros va Hva'. rewrite Hf2, Hf, Ev by done. done.
      * eapply pd_extends_trans; [exact He|exact He2|].
        intros k q Hk Hq Hus. destruct (pd_tab_cases _ _ _ _ Hw1 Hk) as [[_ E']|(? & q' & ? & _ & _ & _ & E' & _ & _ & Hu' & _)];
          [congruence|]. rewrite Hq in E'. injection E' as <-. congruence.
  - rewrite (run_bind _ _ _ _ _ E). split; [|intros _; by right].
    intros Hx. destruct Hx. unfold frame_of. by rewrite (no_table_no_pte _ _ _ _ Hw Hno).
Qed.

(** ** Properties *)

(** A process with its page directory in the first page of the kernel pool and a
    page table in the second, which maps 0x08048000 to the first page of the
    user pool. *)
Definition demo_pd : Z := 3222274048.
Definition demo_pgst : pgst :=
  mk_pgst (with_pmem (<[demo_pd := <[32%nat := demo_pd + 4096 - PHYS_BASE + 7]> (replicate 1024 0)]>
                     (<[demo_pd + 4096 := <[72%nat := 3223322624 - PHYS_BASE + 7]> (replicate 1024 0)]> ∅))
             demo_pst) (demo_pd - PHYS_BASE) 0.

Lemma demo_pd_tab k :
  0 <= k < 768 →
  pd_tab (<[32%nat := demo_pd + 4096 - PHYS_BASE + 7]> (replicate 1024 0)) k =
    if k =? 32 then Some (demo_pd + 4096) else None.
Proof.
  intros Hk. unfold pd_tab. destruct (Z.eqb_spec k 32) as [->|Hn].
  - by vm_compute.
  - by rewrite list_lookup_insert_ne, lookup_replicate_2 by lia.
Qed.

Lemma demo_pd_wf :
  pd_wf demo_pgst.(palloc) demo_pd (<[32%nat := demo_pd + 4096 - PHYS_BASE + 7]> (replicate 1024 0)).
Proof.
  split.
  - unfold kernel_page, demo_pd, PHYS_BASE. split; [lia|done].
  - split; [done|]. by rewrite length_insert, length_replicate.
  - by vm_compute.
  - intros k pde Hk Hpde Hnz. destruct (decide (k = 32)) as [->|Hn].
    + rewrite list_lookup_insert_eq in Hpde by (rewrite length_replicate; lia). injection Hpde as <-.
      exists (demo_pd + 4096), (<[72%nat := 3223322624 - PHYS_BASE + 7]> (replicate 1024 0)).
      split; [by vm_compute|]. split; [unfold kernel_page, demo_pd, PHYS_BASE; split; [lia|done]|].
      split; [unfold demo_pd; lia|]. split; [by vm_compute|]. split; [split; [done|]|].
      * by rewrite length_insert, length_replicate.
      * apply Forall_insert; [apply Forall_replicate; by intros []|].
        intros _. exists 3223322624. by vm_compute.
    + by rewrite list_lookup_insert_ne, lookup_replicate_2 in Hpde by lia; simplify_eq.
  - intros k k' pt Hk Hk'. rewrite !demo_pd_tab by done.
    destruct (Z.eqb_spec k 32), (Z.eqb_spec k' 32); intros; simplify_eq; done.
Qed.



(** Pagedir_clear_page() removes exactly one page from the address space:
    pagedir_get_page() then fails for every address of the page and translates
    every other user address as before.  The translation lookaside buffer is
    flushed when a mapping was removed from the active page directory. *)
Theorem pagedir_clear_page_unmaps init_pd s pd w upage :
  pd_wf s.(palloc) pd w → user_va upage → upage mod 4096 = 0 →
  0 <= s.(cr3) < 1073741824 →
  ∃ s', pagedir_clear_page init_pd pd upage s = Ok (tt, s') ∧ pd_wf s'.(palloc) pd w ∧
    s'.(cr3) = s.(cr3) ∧
    (∀ va, user_va va → pagedir_get_page pd va s' =
       Ok (if va / 4096 =? upage / 4096 then NULL
           else match frame_of s.(palloc).(pmem) pd va with
                | Some p => p + va mod 4096 | None => NULL end, s')) ∧
    s'.(flushes) = s.(flushes) +
      (if bool_decide (frame_of s.(palloc).(pmem) pd upage ≠ None) && (s.(cr3) + PHYS_BASE =? pd)
       then 1 else 0).
Proof.
  intros Hw Hva Ha Hc. pose proof (user_pd_no _ Hva) as Hk.
  assert (Hpre : ∀ r, lookup_page pd upage false s = Ok (r, s) →
    pagedir_clear_page init_pd pd upage s =
    (if r =? NULL then mret tt
     else
       v ← load32 r;
       if negb (Z.land v PTE_P =? 0) then
         store32 r (Z.land v (u32 (Z.lnot PTE_P)));; invalidate_pagedir init_pd pd
       else mret tt) s).
  { intros r E. unfold pagedir_clear_page. rewrite !(run_lift _ _ _ tt); try (apply ASSERT_true).
    - by rewrite (run_bind _ _ _ _ _ E).
    - apply Z.ltb_lt. apply Hva.
    - by rewrite pg_ofs_mod, Ha. }
  assert (Hsame : frame_of s.(palloc).(pmem) pd upage = None →
    ∀ va, user_va va → pagedir_get_page pd va s =
       Ok (if va / 4096 =? upage / 4096 then NULL
           else match frame_of s.(palloc).(pmem) pd va with
                | Some p => p + va mod 4096 | None => NULL end, s)).
  { intros Hn va Hva'. rewrite (pagedir_get_page_ok _ _ _ _ Hw Hva').
    destruct (Z.eqb_spec (va / 4096) (upage / 4096)) as [Eq|]; [|done].
    apply same_page in Eq as [E1 E2]. unfold frame_of, pte_at in Hn |- *. by rewrite E1, E2, Hn. }
  destruct (pd_tab_cases _ _ _ _ Hw Hk) as
    [[_ Hno]|(_ & pt & u & _ & _ & _ & Ht & _ & _ & _ & [Hu _] & _)].
  - assert (Hn : frame_of s.(palloc).(pmem) pd upage = None).
    { unfold frame_of. by rewrite (no_table_no_pte _ _ _ _ Hw Hno). }
    exists s. rewrite (Hpre _ (lookup_page_none _ _ _ _ Hw Hva Hno)), Hn.
    do 3 (split; [done|]). split; [by apply Hsame|]. cbn. lia.
  - destruct (load_pte_ok _ _ _ _ _ _ Hw Hva Ht Hu) as (v & El & Hv & Hnn & Hfv).
    rewrite (Hpre _ (lookup_page_found _ _ _ _ _ false Hw Hva Ht)), (proj2 (Z.eqb_neq _ _) Hnn).
    rewrite (run_bind _ _ _ _ _ El). destruct (Z.eqb_spec (Z.land v PTE_P) 0) as [Ez|Ez]; cbn [negb].
    + assert (Hn : frame_of s.(palloc).(pmem) pd upage = None)
        by (rewrite (frame_of_entry _ _ _ _ Hfv); unfold entry_frame; by rewrite Ez).
      exists s. rewrite Hn. do 3 (split; [done|]). split; [by apply Hsame|]. cbn. lia.
    + destruct (store_pte_ok _ _ _ _ _ _ (Z.land v (u32 (Z.lnot PTE_P))) Hw Hva Ht Hu)
        as (s2 & Es & Hw2 & Hp2 & Hc2 & Hf2 & Hfr & _); [by intros []; apply clear_present|].
      rewrite (run_bind _ _ _ _ _ Es).
      destruct (entry_frame_ok v Hv Ez) as (p & _ & Hp). rewrite (frame_of_entry _ _ _ _ Hfv), Hp.
      rewrite bool_decide_true by done. cbn [andb].
      assert (Hget : ∀ g, g.(palloc) = s2.(palloc) → ∀ va, user_va va → pagedir_get_page pd va g =
       Ok (if va / 4096 =? upage / 4096 then NULL
           else match frame_of s.(palloc).(pmem) pd va with
                | Some p => p + va mod 4096 | None => NULL end, g)).
      { intros g Eg va Hva'. rewrite (pagedir_get_page_ok _ _ w) by (rewrite ?Eg; done).
        specialize (Hfr va Hva'). rewrite Eg. unfold frame_of in *. rewrite Hfr.
        destruct (va / 4096 =? upage / 4096); [|done].
        unfold entry_pte. by rewrite clear_present. }
      rewrite invalidate_pagedir_ok by (rewrite ?Hc2; done || apply (pd_page _ _ _ Hw)).
      eexists. split; [done|]. cbn [palloc cr3 flushes]. split; [done|]. split; [done|].
      split; [by apply Hget|]. by rewrite Hc2, Hf2.
Qed.

Lemma pagedir_clear_page_unmaps_witness :
  pagedir_get_page demo_pd 134512650 demo_pgst = Ok (3223322634, demo_pgst) ∧
  ∃ s', pagedir_clear_page 0 demo_pd 134512640 demo_pgst = Ok (tt, s') ∧
    pagedir_get_page demo_pd 134512650 s' = Ok (NULL, s') ∧ s'.(flushes) = 1.
Proof.
  split; [by vm_compute|].
  destruct (pagedir_clear_page_unmaps 0 demo_pgst demo_pd _ 134512640 demo_pd_wf)
    as (s' & E & _ & _ & G & F); [unfold user_va, PHYS_BASE; lia|done|by vm_compute|].
  exists s'. split; [exact E|]. split.
  - rewrite G by (unfold user_va, PHYS_BASE; lia). f_equal.
  - rewrite F. by vm_compute.
Defined.
