(* ===== verification/CString.v ===== *)
(** * Strings and memory blocks: lib/string.c

    Memory is a map from addresses to bytes; an address that is not in the map
    may not be touched.  Pointer arithmetic is on [Z] and wrapped at 32 bits when
    the pointer is followed.  A loop that runs to the end of a string is given as
    fuel one more than the number of bytes there are: a loop that takes longer
    has wrapped around a memory without a null byte and never ends.  The
    [save_ptr] of strtok_r() is passed and returned by value. *)

From S2P Require Import Prelude.

Open Scope Z_scope.

(** ** Definitions *)

Abbreviation mem := (gmap Z Z).
Abbreviation M := (st mem).
Abbreviation NUL := 0%Z (only parsing).

Definition load8 (m : mem) (a : Z) : outcome Z := deref (m !! u32 a).

Definition store8 (a v : Z) : M unit := λ m,
  _ ← deref (m !! u32 a); Ok (tt, <[u32 a := u8 v]> m).

(** Calling a function that only reads memory. *)
Definition reads {A} (f : mem → outcome A) : M A := λ m, a ← f m; Ok (a, m).

Definition string_fuel (m : mem) : nat := S (size m).

Definition memcpy (dst_ src_ sz : Z) : M Z :=
  lift (ASSERT (negb (dst_ =? NUL) || (sz =? 0)));;
  lift (ASSERT (negb (src_ =? NUL) || (sz =? 0)));;
  for_st (Z.to_nat sz) 0 (λ i,
    b ← reads (λ m, load8 m (src_ + i)); store8 (dst_ + i) b);;
  mret dst_.

Definition memmove (dst_ src_ sz : Z) : M Z :=
  lift (ASSERT (negb (dst_ =? NUL) || (sz =? 0)));;
  lift (ASSERT (negb (src_ =? NUL) || (sz =? 0)));;
  if dst_ <? src_ then
    for_st (Z.to_nat sz) 0 (λ i,
      b ← reads (λ m, load8 m (src_ + i)); store8 (dst_ + i) b);;
    mret (u32 (dst_ + sz))
  else
    for_st (Z.to_nat sz) 0 (λ i,
      b ← reads (λ m, load8 m (src_ + sz - 1 - i)); store8 (dst_ + sz - 1 - i) b);;
    mret dst_.

Definition memcmp (m : mem) (a_ b_ sz : Z) : outcome Z :=
  ASSERT (negb (a_ =? NUL) || (sz =? 0));;
  ASSERT (negb (b_ =? NUL) || (sz =? 0));;
  r ← for_find (Z.to_nat sz) 0 (λ i,
        a ← load8 m (a_ + i); b ← load8 m (b_ + i);
        Ok (if negb (a =? b) then Some (if b <? a then 1 else -1) else None));
  Ok (default 0 r).

Definition strcmp (m : mem) (a_ b_ : Z) : outcome Z :=
  ASSERT (negb (a_ =? NUL));;
  ASSERT (negb (b_ =? NUL));;
  loop (string_fuel m) (λ i,
    a ← load8 m (a_ + i); b ← load8 m (b_ + i);
    if negb (a =? 0) && (a =? b) then Ok (inl (i + 1))
    else Ok (inr (if a <? b then -1 else if b <? a then 1 else 0))) 0.

Definition memchr (m : mem) (block_ ch_ sz : Z) : outcome Z :=
  let ch := u8 ch_ in
  ASSERT (negb (block_ =? NUL) || (sz =? 0));;
  r ← for_find (Z.to_nat sz) 0 (λ i,
        b ← load8 m (block_ + i); Ok (if b =? ch then Some (u32 (block_ + i)) else None));
  Ok (default NUL r).

Definition strchr (m : mem) (string c_ : Z) : outcome Z :=
  let c := u8 c_ in
  ASSERT (negb (string =? NUL));;
  loop (string_fuel m) (λ string,
    b ← load8 m string;
    if b =? c then Ok (inr (u32 string))
    else if b =? 0 then Ok (inr NUL)
    else Ok (inl (string + 1))) string.

Definition strcspn (m : mem) (string stop : Z) : outcome Z :=
  loop (string_fuel m) (λ length,
    b ← load8 m (string + length);
    if negb (b =? 0) then
      r ← strchr m stop b;
      if negb (r =? NUL) then Ok (inr length) else Ok (inl (length + 1))
    else Ok (inr length)) 0.

Definition strpbrk (m : mem) (string stop : Z) : outcome Z :=
  loop (string_fuel m) (λ string,
    b ← load8 m string;
    if negb (b =? 0) then
      r ← strchr m stop b;
      if negb (r =? NUL) then Ok (inr (u32 string)) else Ok (inl (string + 1))
    else Ok (inr NUL)) string.

Definition strrchr (m : mem) (string c_ : Z) : outcome Z :=
  let c := u8 c_ in
  loop (string_fuel m) (λ '(string, p),
    b ← load8 m string;
    if negb (b =? 0) then Ok (inl (string + 1, if b =? c then u32 string else p))
    else Ok (inr p)) (string, NUL).

Definition strspn (m : mem) (string skip : Z) : outcome Z :=
  loop (string_fuel m) (λ length,
    b ← load8 m (string + length);
    if negb (b =? 0) then
      r ← strchr m skip b;
      if r =? NUL then Ok (inr length) else Ok (inl (length + 1))
    else Ok (inr length)) 0.

Definition strlen (m : mem) (string : Z) : outcome Z :=
  ASSERT (negb (string =? NUL));;
  loop (string_fuel m) (λ p,
    b ← load8 m p;
    if negb (b =? 0) then Ok (inl (p + 1)) else Ok (inr (u32 (p - string)))) string.

Definition strstr (m : mem) (haystack needle : Z) : outcome Z :=
  haystack_len ← strlen m haystack;
  needle_len ← strlen m needle;
  if needle_len <=? haystack_len then
    r ← for_find (Z.to_nat (haystack_len - needle_len + 1)) 0 (λ i,
          c ← memcmp m (haystack + i) needle needle_len;
          Ok (if c =? 0 then Some (u32 (haystack + i)) else None));
    Ok (default NUL r)
  else Ok NUL.

(** strtok_r(): the token and the new value of *SAVE_PTR. *)
Definition strtok_r (s delimiters save : Z) : M (Z * Z) :=
  lift (ASSERT (negb (delimiters =? NUL)));;
  let s := if s =? NUL then save else s in
  lift (ASSERT (negb (s =? NUL)));;
  r ← reads (λ m, loop (string_fuel m) (λ s,
        b ← load8 m s;
        d ← strchr m delimiters b;
        if negb (d =? NUL) then if b =? 0 then Ok (inr (false, s)) else Ok (inl (s + 1))
        else Ok (inr (true, s))) s);
  match r with
  | (false, s) => mret (NUL, u32 s)
  | (true, s) =>
      let token := s in
      s ← reads (λ m, loop (string_fuel m) (λ s,
            b ← load8 m s;
            d ← strchr m delimiters b;
            if d =? NUL then Ok (inl (s + 1)) else Ok (inr s)) s);
      b ← reads (λ m, load8 m s);
      if negb (b =? 0) then store8 s 0;; mret (u32 token, u32 (s + 1))
      else mret (u32 token, u32 s)
  end.

Definition memset (dst_ value sz : Z) : M Z :=
  lift (ASSERT (negb (dst_ =? NUL) || (sz =? 0)));;
  for_st (Z.to_nat sz) 0 (λ i, store8 (dst_ + i) value);;
  mret dst_.

Definition strnlen (m : mem) (string maxlen : Z) : outcome Z :=
  loop (string_fuel m) (λ length,
    b ← load8 m (string + length);
    if negb (b =? 0) && (length <? maxlen) then Ok (inl (length + 1)) else Ok (inr length)) 0.

Definition strlcpy (dst src sz : Z) : M Z :=
  lift (ASSERT (negb (dst =? NUL)));;
  lift (ASSERT (negb (src =? NUL)));;
  src_len ← reads (λ m, strlen m src);
  when (0 <? sz)
    (let dst_len := sz - 1 in
     let dst_len := if src_len <? dst_len then src_len else dst_len in
     memcpy dst src dst_len;;
     store8 (dst + dst_len) 0);;
  mret src_len.

Definition strlcat (dst src sz : Z) : M Z :=
  lift (ASSERT (negb (dst =? NUL)));;
  lift (ASSERT (negb (src =? NUL)));;
  src_len ← reads (λ m, strlen m src);
  dst_len ← reads (λ m, strlen m dst);
  when ((0 <? sz) && (dst_len <? sz))
    (let copy_cnt := sz - dst_len - 1 in
     let copy_cnt := if src_len <? copy_cnt then src_len else copy_cnt in
     memcpy (dst + dst_len) src copy_cnt;;
     store8 (dst + dst_len + copy_cnt) 0);;
  mret (u32 (src_len + dst_len)).

(** ** Blocks of memory *)

Fixpoint write_bytes (m : mem) (a : Z) (bs : list Z) : mem :=
  match bs with
  | [] => m
  | b :: bs => write_bytes (<[a := b]> m) (a + 1) bs
  end.

(** The bytes [bs] are at address [a]. *)
Definition bytes_at (m : mem) (a : Z) (bs : list Z) : Prop :=
  ∀ i : nat, (i < length bs)%nat → m !! (a + Z.of_nat i) = bs !! i.

(** The block of [n] bytes at [a] is there and does not wrap around. *)
Definition block (m : mem) (a n : Z) : Prop :=
  0 < a ∧ a + n <= 4294967296 ∧ ∀ i, 0 <= i < n → is_Some (m !! (a + i)).

(** [s] is the string at address [p]. *)
Definition cstr (m : mem) (p : Z) (s : list Z) : Prop :=
  bytes_at m p (s ++ [0]) ∧ Forall (λ b, 0 < b < 256) s ∧
  0 < p ∧ p + Z.of_nat (length s) < 4294967296.

Lemma write_bytes_lookup m a bs x :
  write_bytes m a bs !! x =
    if decide (a <= x < a + Z.of_nat (length bs)) then bs !! Z.to_nat (x - a) else m !! x.
Proof.
  revert m a. induction bs as [|b bs IH]; intros m a; cbn [write_bytes length].
  - case_decide; [lia|done].
  - rewrite IH. repeat case_decide; try lia.
    + replace (Z.to_nat (x - a)) with (S (Z.to_nat (x - (a + 1)))) by lia. done.
    + replace x with a by lia. by rewrite lookup_insert_eq, Z.sub_diag.
    + by rewrite lookup_insert_ne by lia.
Qed.

Lemma write_bytes_app m a bs bs' :
  write_bytes m a (bs ++ bs') = write_bytes (write_bytes m a bs) (a + Z.of_nat (length bs)) bs'.
Proof.
  revert m a. induction bs as [|b bs IH]; intros m a; cbn [write_bytes length app].
  - by rewrite Z.add_0_r.
  - rewrite IH. f_equal. lia.
Qed.

Lemma write_bytes_at m a bs : bytes_at (write_bytes m a bs) a bs.
Proof.
  intros i Hi. rewrite write_bytes_lookup, decide_True by lia. f_equal. lia.
Qed.

Lemma write_bytes_frame m a bs p ps :
  p + Z.of_nat (length ps) <= a ∨ a + Z.of_nat (length bs) <= p →
  bytes_at m p ps → bytes_at (write_bytes m a bs) p ps.
Proof. intros Hd Hp i Hi. rewrite write_bytes_lookup, decide_False by lia. by apply Hp. Qed.

Lemma write_bytes_block m a bs p n : block m p n → block (write_bytes m a bs) p n.
Proof.
  intros (H1 & H2 & H3). split; [done|]. split; [done|]. intros i Hi.
  rewrite write_bytes_lookup. case_decide; [apply lookup_lt_is_Some_2; lia|by apply H3].
Qed.

Lemma bytes_at_app m a xs ys :
  bytes_at m a (xs ++ ys) ↔ bytes_at m a xs ∧ bytes_at m (a + Z.of_nat (length xs)) ys.
Proof.
  unfold bytes_at. rewrite length_app. split.
  - intros H. split; intros i Hi.
    + rewrite H, lookup_app_l by lia. done.
    + specialize (H (length xs + i)%nat ltac:(lia)).
      rewrite lookup_app_r in H by lia. replace (length xs + i - length xs)%nat with i in H by lia.
      rewrite <-H. f_equal. lia.
  - intros [H1 H2] i Hi. destruct (decide (i < length xs)%nat).
    + by rewrite lookup_app_l, H1 by lia.
    + rewrite lookup_app_r, <-H2 by lia. f_equal. lia.
Qed.

Lemma bytes_at_size m a bs : bytes_at m a bs → (length bs <= size m)%nat.
Proof.
  intros H. rewrite <-(size_dom (D := gset Z)).
  replace (length bs) with (size (list_to_set (seqZ a (Z.of_nat (length bs))) : gset Z)).
  - apply subseteq_size. intros x Hx. apply elem_of_list_to_set, elem_of_seqZ in Hx.
    apply elem_of_dom. specialize (H (Z.to_nat (x - a)) ltac:(lia)).
    replace (a + Z.of_nat (Z.to_nat (x - a))) with x in H by lia. rewrite H.
    apply lookup_lt_is_Some_2. lia.
  - rewrite size_list_to_set by apply NoDup_seqZ. rewrite length_seqZ. lia.
Qed.

Lemma load8_ok m a v : is_u32 a → m !! a = Some v → load8 m a = Ok v.
Proof. intros Ha H. unfold load8. by rewrite u32_small, H. Qed.

Lemma store8_ok m a v : is_u32 a → is_Some (m !! a) → store8 a v m = Ok (tt, <[a := u8 v]> m).
Proof. intros Ha [x H]. unfold store8. by rewrite u32_small, H. Qed.

Lemma run_reads {A B} (f : mem → outcome A) (k : A → M B) m a :
  f m = Ok a → (reads f ≫= k) m = k a m.
Proof. intros E. apply run_bind. unfold reads. by rewrite E. Qed.

(** A loop that scans memory from [p] to the first place where it leaves. *)
Lemma loop_scan {R} (body : Z → outcome (Z + R)) fuel p (k : nat) r :
  (∀ i : nat, (i < k)%nat → body (p + Z.of_nat i) = Ok (inl (p + Z.of_nat i + 1))) →
  body (p + Z.of_nat k) = Ok (inr r) → (k < fuel)%nat → loop fuel body p = Ok r.
Proof.
  revert fuel p. induction k as [|k IH]; intros fuel p Hs Hl Hf; (destruct fuel as [|fuel]; [lia|]);
    cbn [loop].
  - rewrite Z.add_0_r in Hl. by rewrite Hl.
  - pose proof (Hs 0%nat ltac:(lia)) as H0. rewrite Z.add_0_r in H0. rewrite H0. cbn.
    apply IH; [|by replace (p + 1 + Z.of_nat k) with (p + Z.of_nat (S k)) by lia|lia].
    intros i Hi. specialize (Hs (S i) ltac:(lia)).
    by replace (p + 1 + Z.of_nat i) with (p + Z.of_nat (S i)) by lia.
Qed.

(** ** Strings *)

Lemma cstr_load m p s (i : nat) :
  cstr m p s → (i <= length s)%nat → load8 m (p + Z.of_nat i) = Ok (default 0 (s !! i)).
Proof.
  intros (Hb & _ & H0 & H1) Hi. unfold load8. rewrite u32_small by lia.
  rewrite (Hb i) by (rewrite length_app; simpl; lia).
  destruct (decide (i < length s)%nat) as [Hlt|Hge].
  - rewrite lookup_app_l by done. destruct (lookup_lt_is_Some_2 s i Hlt) as [b ->]. done.
  - replace i with (length s) by lia. rewrite list_lookup_middle by done.
    by rewrite (lookup_ge_None_2 s) by done.
Qed.

Lemma cstr_fuel m p s : cstr m p s → (length s < string_fuel m)%nat.
Proof.
  intros (Hb & _). apply bytes_at_size in Hb. rewrite length_app in Hb. simpl in Hb.
  unfold string_fuel. lia.
Qed.

Lemma cstr_nz m p s i b : cstr m p s → s !! i = Some b → 0 < b < 256.
Proof. intros (_ & F & _) H. by eapply Forall_lookup_1 in F. Qed.

Lemma strlen_ok m p s : cstr m p s → strlen m p = Ok (Z.of_nat (length s)).
Proof.
  intros Hs. pose proof Hs as (_ & _ & H0 & H1). unfold strlen.
  rewrite ASSERT_true by (apply negb_true_iff, Z.eqb_neq; lia). rewrite bind_ret.
  apply (loop_scan _ _ _ (length s)); [| |by eapply cstr_fuel].
  - intros i Hi. rewrite (cstr_load _ _ _ _ Hs) by lia.
    destruct (lookup_lt_is_Some_2 s i Hi) as [b Hb]. rewrite Hb. cbn.
    pose proof (cstr_nz _ _ _ _ _ Hs Hb). by rewrite (proj2 (Z.eqb_neq b 0)) by lia.
  - rewrite (cstr_load _ _ _ _ Hs) by lia. rewrite (lookup_ge_None_2 s) by lia. cbn.
    do 2 f_equal. rewrite u32_small by lia. lia.
Qed.

(** Where strchr() stops. *)
Fixpoint index_of (c : Z) (s : list Z) : nat :=
  match s with
  | [] => 0
  | b :: s => if b =? c then 0 else S (index_of c s)
  end.

Lemma index_of_spec c s :
  (index_of c s <= length s)%nat ∧
  (∀ i b, (i < index_of c s)%nat → s !! i = Some b → b ≠ c) ∧
  (s !! index_of c s = if bool_decide (c ∈ s) then Some c else None).
Proof.
  induction s as [|b s (IH1 & IH2 & IH3)]; cbn [index_of length].
  - split; [lia|]. split; [intros; lia|]. by rewrite bool_decide_false by by apply not_elem_of_nil.
  - destruct (Z.eqb_spec b c) as [->|Hn].
    + split; [lia|]. split; [intros; lia|]. rewrite bool_decide_true by apply list_elem_of_here. done.
    + split; [lia|]. split.
      * intros [|i] x Hi Hx; [by injection Hx as <-|]. eapply IH2; [|done]. lia.
      * change ((b :: s) !! S (index_of c s)) with (s !! index_of c s). rewrite IH3. destruct (decide (c ∈ s)) as [Hin|Hin].
        -- by rewrite !bool_decide_true by (by apply list_elem_of_further || done).
        -- assert (c ∉ b :: s) by (rewrite elem_of_cons; intros [->|]; done).
           by rewrite !bool_decide_false by done.
Qed.

Lemma strchr_ok m p s c :
  cstr m p s → is_u8 c →
  strchr m p c = Ok (if bool_decide (c ∈ s) || (c =? 0) then p + Z.of_nat (index_of c s) else NUL).
Proof.
  intros Hs Hc. pose proof Hs as (_ & _ & H0 & H1). unfold strchr. rewrite u8_small by done.
  rewrite ASSERT_true by (apply negb_true_iff, Z.eqb_neq; lia). rewrite bind_ret.
  destruct (index_of_spec c s) as (I1 & I2 & I3). pose proof (cstr_fuel _ _ _ Hs).
  apply (loop_scan _ _ _ (index_of c s)); [| |lia].
  - intros i Hi. rewrite (cstr_load _ _ _ _ Hs) by lia.
    destruct (lookup_lt_is_Some_2 s i ltac:(lia)) as [b Hb]. rewrite Hb. cbn.
    pose proof (cstr_nz _ _ _ _ _ Hs Hb).
    by rewrite (proj2 (Z.eqb_neq b c)), (proj2 (Z.eqb_neq b 0)) by (exact (I2 i b Hi Hb) || lia).
  - rewrite (cstr_load _ _ _ _ Hs) by lia. rewrite I3. destruct (bool_decide (c ∈ s)); cbn.
    + rewrite Z.eqb_refl, u32_small by lia. done.
    + destruct (decide (c = 0)) as [->|Hn]; cbn; [by rewrite u32_small by lia|].
      destruct c; done.
Qed.

(** strchr() as a test for membership. *)
Lemma strchr_test m p s c :
  cstr m p s → is_u8 c →
  ∃ r, strchr m p c = Ok r ∧ (r =? NUL) = negb (bool_decide (c ∈ s) || (c =? 0)).
Proof.
  intros Hs Hc. rewrite (strchr_ok _ _ _ _ Hs Hc). eexists. split; [done|].
  pose proof Hs as (_ & _ & H0 & _). destruct (_ || _); [|done]. apply Z.eqb_neq. lia.
Qed.

(** ** Copying *)

(** A loop that writes the bytes [bs] from [dst] on, in order. *)
Lemma for_copy m dst (body : Z → M unit) bs n :
  n = length bs →
  (∀ i b, bs !! i = Some b → let m' := write_bytes m dst (take i bs) in
     body (Z.of_nat i) m' = Ok (tt, <[dst + Z.of_nat i := b]> m')) →
  for_st n 0 body m = Ok (tt, write_bytes m dst bs).
Proof.
  intros -> Hb.
  destruct (for_st_inv (λ j m', m' = write_bytes m dst (take (Z.to_nat j) bs)) body (length bs) 0 m)
    as (m' & E & Hm'); [| |].
  - intros j m' Hj ->. destruct (lookup_lt_is_Some_2 bs (Z.to_nat j)) as [b Hbs]; [lia|].
    pose proof (Hb _ _ Hbs) as E. cbv zeta in E. rewrite Z2Nat.id in E by lia.
    eexists. split; [exact E|]. replace (Z.to_nat (j + 1)) with (S (Z.to_nat j)) by lia.
    rewrite (take_S_r _ _ _ Hbs), write_bytes_app, length_take. cbn [write_bytes]. f_equal. lia.
  - done.
  - rewrite E, Hm'. rewrite take_ge by lia. done.
Qed.

(** The same from the end backwards. *)
Lemma for_copy_back m dst (body : Z → M unit) bs n :
  n = length bs →
  (∀ i b, bs !! i = Some b →
     let m' := write_bytes m (dst + Z.of_nat i + 1) (drop (S i) bs) in
     body (Z.of_nat (length bs) - 1 - Z.of_nat i) m' = Ok (tt, <[dst + Z.of_nat i := b]> m')) →
  for_st n 0 body m = Ok (tt, write_bytes m dst bs).
Proof.
  intros -> Hb.
  destruct (for_st_inv (λ j m', m' = write_bytes m (dst + Z.of_nat (length bs) - j)
      (drop (length bs - Z.to_nat j) bs)) body (length bs) 0 m) as (m' & E & Hm'); [| |].
  - intros j m' Hj ->. set (i := (length bs - 1 - Z.to_nat j)%nat).
    destruct (lookup_lt_is_Some_2 bs i) as [b Hbs]; [lia|].
    pose proof (Hb _ _ Hbs) as E. cbv zeta in E.
    replace (Z.of_nat (length bs) - 1 - Z.of_nat i) with j in E by lia.
    replace (dst + Z.of_nat (length bs) - j) with (dst + Z.of_nat i + 1) by lia.
    replace (length bs - Z.to_nat j)%nat with (S i) by lia.
    eexists. split; [exact E|]. replace (length bs - Z.to_nat (j + 1))%nat with i by lia.
    replace (dst + Z.of_nat (length bs) - (j + 1)) with (dst + Z.of_nat i) by lia.
    rewrite (drop_S bs b i Hbs). cbn [write_bytes].
    apply map_eq. intros x. rewrite write_bytes_lookup.
    destruct (decide (x = dst + Z.of_nat i)) as [->|Hx].
    + rewrite lookup_insert_eq, decide_False by lia. by rewrite lookup_insert_eq.
    + rewrite lookup_insert_ne, write_bytes_lookup by done. by rewrite lookup_insert_ne by done.
  - replace (length bs - Z.to_nat 0)%nat with (length bs) by lia. by rewrite drop_ge by lia.
  - rewrite E, Hm'. f_equal. f_equal. f_equal; [lia|].
    by replace (length bs - Z.to_nat (0 + Z.of_nat (length bs)))%nat with 0%nat by lia.
Qed.

(** One step of a copy. *)
Lemma copy_byte m' src dst b :
  is_u32 src → is_u32 dst → m' !! src = Some b → is_u8 b → is_Some (m' !! dst) →
  (b ← reads (λ m, load8 m src); store8 dst b) m' = Ok (tt, <[dst := b]> m').
Proof.
  intros Hs Hd Hm Hb Hx. rewrite (run_reads _ _ _ _ (load8_ok _ _ _ Hs Hm)).
  rewrite store8_ok by done. by rewrite u8_small.
Qed.

Section copy.
Context (m : mem) (dst src : Z) (bs : list Z).
Context (Hsrc : bytes_at m src bs) (Hb : Forall (λ b, is_u8 b) bs)
  (Hblock : block m dst (Z.of_nat (length bs))) (Hs0 : 0 < src)
  (Hs1 : src + Z.of_nat (length bs) <= 4294967296).

Lemma asserts_ok {B} (k : M B) :
  (lift (ASSERT (negb (dst =? NUL) || (Z.of_nat (length bs) =? 0)));;
   lift (ASSERT (negb (src =? NUL) || (Z.of_nat (length bs) =? 0)));; k) m = k m.
Proof.
  destruct Hblock as (H0 & _). rewrite !(run_lift _ _ _ tt); [done|apply ASSERT_true..];
    by rewrite (proj2 (Z.eqb_neq _ _)) by lia.
Qed.

(** Copying forwards is right when the destination does not begin inside the
    source. *)
Lemma copy_forward :
  dst <= src ∨ src + Z.of_nat (length bs) <= dst →
  for_st (Z.to_nat (Z.of_nat (length bs))) 0 (λ i,
    b ← reads (λ m, load8 m (src + i)); store8 (dst + i) b) m = Ok (tt, write_bytes m dst bs).
Proof.
  intros Hd. destruct Hblock as (H0 & H1 & H2). apply for_copy; [lia|]. intros i b Hi m'.
  pose proof (lookup_lt_Some _ _ _ Hi) as Hlt. apply copy_byte; [lia|lia| | |].
  - unfold m'. rewrite write_bytes_lookup, length_take, decide_False by lia. by rewrite Hsrc.
  - by eapply Forall_lookup_1 in Hb.
  - apply (write_bytes_block _ _ _ _ _ Hblock). lia.
Qed.

Lemma memcpy_ok :
  dst <= src ∨ src + Z.of_nat (length bs) <= dst →
  memcpy dst src (Z.of_nat (length bs)) m = Ok (dst, write_bytes m dst bs).
Proof.
  intros Hd. unfold memcpy. rewrite asserts_ok. by rewrite (run_bind _ _ _ _ _ (copy_forward Hd)).
Qed.

Lemma memmove_ok :
  memmove dst src (Z.of_nat (length bs)) m =
    Ok (if dst <? src then u32 (dst + Z.of_nat (length bs)) else dst, write_bytes m dst bs).
Proof.
  unfold memmove. rewrite asserts_ok. destruct (Z.ltb_spec dst src) as [Hlt|Hge].
  - by rewrite (run_bind _ _ _ _ _ (copy_forward ltac:(lia))).
  - destruct Hblock as (H0 & H1 & H2). erewrite run_bind; [done|].
    apply for_copy_back; [lia|]. intros i b Hi m'. pose proof (lookup_lt_Some _ _ _ Hi) as Hl.
    replace (src + Z.of_nat (length bs) - 1 - (Z.of_nat (length bs) - 1 - Z.of_nat i))
      with (src + Z.of_nat i) by lia.
    replace (dst + Z.of_nat (length bs) - 1 - (Z.of_nat (length bs) - 1 - Z.of_nat i))
      with (dst + Z.of_nat i) by lia.
    apply copy_byte; [lia|lia| | |].
    + unfold m'. rewrite write_bytes_lookup, decide_False by lia. by rewrite Hsrc.
    + by eapply Forall_lookup_1 in Hb.
    + apply (write_bytes_block _ _ _ _ _ Hblock). lia.
Qed.
End copy.

Lemma memset_ok m dst v n :
  0 <= n → block m dst n → memset dst v n m = Ok (dst, write_bytes m dst (replicate (Z.to_nat n) (u8 v))).
Proof.
  intros Hn Hblock. pose proof Hblock as (H0 & H1 & H2). unfold memset.
  rewrite (run_lift _ _ _ tt) by (apply ASSERT_true; by rewrite (proj2 (Z.eqb_neq _ _)) by lia).
  erewrite run_bind; [done|]. apply for_copy; [by rewrite length_replicate|].
  intros i b Hi m'. apply lookup_replicate in Hi as [-> Hi].
  apply store8_ok; [lia|]. apply (write_bytes_block _ _ _ _ _ Hblock). lia.
Qed.

(** ** Tokens *)

(** The length of the longest prefix of [s] whose bytes all satisfy [f]. *)
Fixpoint run_len (f : Z → bool) (s : list Z) : nat :=
  match s with
  | [] => 0
  | b :: s => if f b then S (run_len f s) else 0
  end.

Lemma run_len_spec f s :
  (run_len f s <= length s)%nat ∧
  (∀ i b, (i < run_len f s)%nat → s !! i = Some b → f b = true) ∧
  (∀ b, s !! run_len f s = Some b → f b = false).
Proof.
  induction s as [|c s (IH1 & IH2 & IH3)]; cbn [run_len length].
  - split; [lia|]. split; [intros; lia|done].
  - destruct (f c) eqn:E.
    + split; [lia|]. split; [|done]. intros [|i] b Hi Hb; [by injection Hb as <-|].
      apply (IH2 i); [lia|done].
    + split; [lia|]. split; [intros; lia|]. by intros b [= <-].
Qed.

Definition is_delim (D : list Z) (b : Z) : bool := bool_decide (b ∈ D).

(** The next token of [s] and what follows the delimiter after it. *)
Definition next_token (D s : list Z) : option (list Z * list Z) :=
  let s1 := drop (run_len (is_delim D) s) s in
  match s1 with
  | [] => None
  | _ => let n := run_len (λ b, negb (is_delim D b)) s1 in Some (take n s1, drop (S n) s1)
  end.

Lemma cstr_default m p s i : cstr m p s → is_u8 (default 0 (s !! i)).
Proof.
  intros Hs. destruct (s !! i) as [b|] eqn:E; cbn; [|lia].
  pose proof (cstr_nz _ _ _ _ _ Hs E). lia.
Qed.

Lemma cstr_drop m p s k :
  cstr m p s → (k <= length s)%nat → cstr m (p + Z.of_nat k) (drop k s).
Proof.
  intros (Hb & F & H0 & H1) Hk. split; [|split; [by apply Forall_drop|rewrite length_drop; lia]].
  rewrite <-(take_drop k s), <-app_assoc, bytes_at_app, length_take in Hb.
  destruct Hb as [_ Hb]. by replace (k `min` length s)%nat with k in Hb by lia.
Qed.

(** Ending a string early. *)
Lemma cstr_cut m p s n :
  cstr m p s → (n <= length s)%nat → cstr (<[p + Z.of_nat n := 0]> m) p (take n s).
Proof.
  intros (Hb & F & H0 & H1) Hn. split; [|split; [by apply Forall_take|rewrite length_take; lia]].
  intros i Hi. rewrite length_app, length_take in Hi. simpl in Hi.
  destruct (decide (i = n)) as [->|Hne].
  - rewrite lookup_insert_eq. rewrite lookup_app_r by (rewrite length_take; lia).
    rewrite length_take. by replace (n - n `min` length s)%nat with 0%nat by lia.
  - rewrite lookup_insert_ne by lia. rewrite Hb by (rewrite length_app; simpl; lia).
    rewrite !lookup_app_l by (rewrite ?length_take; lia). by rewrite lookup_take_lt by lia.
Qed.

Lemma cstr_frame m p s x v :
  cstr m p s → x < p ∨ p + Z.of_nat (length s) < x → cstr (<[x := v]> m) p s.
Proof.
  intros (Hb & H) Hx. split; [|done]. intros i Hi. pose proof Hi as Hi'. rewrite length_app in Hi'. simpl in Hi'.
  rewrite lookup_insert_ne by lia. by apply Hb.
Qed.

Section strtok.
Context (m : mem) (d p q save : Z) (D s : list Z).
Context (HD : cstr m d D) (Hs : cstr m p s) (Hq : (if q =? NUL then save else q) = p).

Let k := run_len (is_delim D) s.

(** Skipping delimiters. *)
Lemma strtok_skip :
  loop (string_fuel m) (λ s,
    b ← load8 m s; d ← strchr m d b;
    if negb (d =? NUL) then if b =? 0 then Ok (inr (false, s)) else Ok (inl (s + 1))
    else Ok (inr (true, s))) p = Ok (negb (k =? length s)%nat, p + Z.of_nat k).
Proof.
  destruct (run_len_spec (is_delim D) s) as (K1 & K2 & K3). fold k in K1, K2, K3.
  pose proof (cstr_fuel _ _ _ Hs). apply (loop_scan _ _ _ k); [| |lia].
  - intros i Hi. rewrite (cstr_load _ _ _ _ Hs) by lia. rewrite bind_ret.
    destruct (strchr_test _ _ _ (default 0 (s !! i)) HD ltac:(by eapply cstr_default)) as (r & -> & Hr).
    rewrite bind_ret, Hr. destruct (lookup_lt_is_Some_2 s i ltac:(lia)) as [b Hb].
    rewrite Hb. cbn. pose proof (K2 i b Hi Hb) as Hd. unfold is_delim in Hd. rewrite Hd. cbn.
    pose proof (cstr_nz _ _ _ _ _ Hs Hb). by rewrite (proj2 (Z.eqb_neq b 0)) by lia.
  - rewrite (cstr_load _ _ _ _ Hs) by lia. rewrite bind_ret.
    destruct (strchr_test _ _ _ (default 0 (s !! k)) HD ltac:(by eapply cstr_default)) as (r & -> & Hr).
    rewrite bind_ret, Hr. destruct (s !! k) as [b|] eqn:Hb; cbn.
    + pose proof (K3 b eq_refl) as Hd. unfold is_delim in Hd. rewrite Hd.
      pose proof (cstr_nz _ _ _ _ _ Hs Hb). rewrite (proj2 (Z.eqb_neq b 0)) by lia. cbn.
      apply lookup_lt_Some in Hb. by rewrite (proj2 (Nat.eqb_neq _ _)) by lia.
    + apply lookup_ge_None in Hb. rewrite (proj2 (Nat.eqb_eq k _)) by lia. rewrite orb_true_r. done.
Qed.

(** Skipping to the end of the token. *)
Lemma strtok_end :
  let n := run_len (λ b, negb (is_delim D b)) s in
  loop (string_fuel m) (λ s,
    b ← load8 m s; d ← strchr m d b;
    if d =? NUL then Ok (inl (s + 1)) else Ok (inr s)) p = Ok (p + Z.of_nat n).
Proof.
  intros n. destruct (run_len_spec (λ b, negb (is_delim D b)) s) as (K1 & K2 & K3).
  fold n in K1, K2, K3. pose proof (cstr_fuel _ _ _ Hs). apply (loop_scan _ _ _ n); [| |lia].
  - intros i Hi. rewrite (cstr_load _ _ _ _ Hs) by lia. rewrite bind_ret.
    destruct (strchr_test _ _ _ (default 0 (s !! i)) HD ltac:(by eapply cstr_default)) as (r & -> & Hr).
    rewrite bind_ret, Hr. destruct (lookup_lt_is_Some_2 s i ltac:(lia)) as [b Hb].
    rewrite Hb. cbn. pose proof (K2 i b Hi Hb) as Hd. apply negb_true_iff in Hd.
    unfold is_delim in Hd. rewrite Hd. pose proof (cstr_nz _ _ _ _ _ Hs Hb).
    by rewrite (proj2 (Z.eqb_neq b 0)) by lia.
  - rewrite (cstr_load _ _ _ _ Hs) by lia. rewrite bind_ret.
    destruct (strchr_test _ _ _ (default 0 (s !! n)) HD ltac:(by eapply cstr_default)) as (r & -> & Hr).
    rewrite bind_ret, Hr. destruct (s !! n) as [b|] eqn:Hb; cbn.
    + pose proof (K3 b eq_refl) as Hd. apply negb_false_iff in Hd. unfold is_delim in Hd. by rewrite Hd.
    + by rewrite orb_true_r.
Qed.
End strtok.

Lemma strtok_r_ok m d p q save D s :
  cstr m d D → cstr m p s → (if q =? NUL then save else q) = p →
  match next_token D s with
  | None => strtok_r q d save m = Ok ((NUL, p + Z.of_nat (length s)), m)
  | Some (tok, rest) =>
      ∃ t save', strtok_r q d save m = Ok ((t, save'), <[t + Z.of_nat (length tok) := 0]> m) ∧
        tok ≠ [] ∧ cstr (<[t + Z.of_nat (length tok) := 0]> m) t tok ∧
        cstr (<[t + Z.of_nat (length tok) := 0]> m) save' rest ∧
        p <= t ∧ t + Z.of_nat (length tok) <= save' ∧
        save' + Z.of_nat (length rest) = p + Z.of_nat (length s) ∧
        t = p + Z.of_nat (run_len (is_delim D) s)
  end.
Proof.
  intros HD Hs Hq. pose proof Hs as (_ & _ & H0 & H1). pose proof HD as (_ & _ & Hd0 & _).
  set (k := run_len (is_delim D) s).
  destruct (run_len_spec (is_delim D) s) as (K1 & K2 & K3). fold k in K1, K2, K3.
  unfold strtok_r. rewrite (run_lift _ _ _ tt) by (apply ASSERT_true, negb_true_iff, Z.eqb_neq; lia).
  cbv zeta. rewrite Hq. rewrite (run_lift _ _ _ tt) by (apply ASSERT_true, negb_true_iff, Z.eqb_neq; lia).
  rewrite (run_reads _ _ _ _ (strtok_skip m d p D s HD Hs)). fold k.
  unfold next_token. fold k. destruct (drop k s) as [|c s1] eqn:Ed.
  - apply (f_equal length) in Ed. rewrite length_drop in Ed. simpl in Ed.
    rewrite (proj2 (Nat.eqb_eq k _)) by lia. cbn [negb].
    rewrite u32_small by lia. by replace k with (length s) by lia.
  - pose proof (cstr_drop _ _ _ _ Hs K1) as Hs1. rewrite Ed in Hs1. set (s' := c :: s1) in *.
    assert (Hl : (length s = k + length s')%nat).
    { apply (f_equal length) in Ed. rewrite length_drop in Ed. lia. }
    rewrite (proj2 (Nat.eqb_neq k _)) by (unfold s' in Hl; simpl in Hl; lia). cbn [negb].
    rewrite (run_reads _ _ _ _ (strtok_end m d _ D s' HD Hs1)). cbv zeta.
    set (n := run_len (λ b, negb (is_delim D b)) s').
    destruct (run_len_spec (λ b, negb (is_delim D b)) s') as (N1 & N2 & N3). fold n in N1, N2, N3.
    assert (Hn : (0 < n)%nat).
    { unfold n, s'. cbn [run_len]. destruct (is_delim D c) eqn:E; [|cbn; lia].
      rewrite (K3 c) in E; [done|]. rewrite <-(Nat.add_0_r k), <-lookup_drop, Ed. done. }
    rewrite (run_reads _ _ _ _ (cstr_load _ _ _ _ Hs1 N1)).
    exists (p + Z.of_nat k).
    rewrite length_take. replace (n `min` length s')%nat with n by lia.
    assert (Ht : take n s' ≠ []) by (unfold s'; destruct n; [lia|done]).
    clearbody n s'. pose proof (cstr_cut _ _ _ _ Hs1 N1) as Hcut.
    destruct (s' !! n) as [b|] eqn:Eb.
    + change (default 0 (Some b)) with b. pose proof (cstr_nz _ _ _ _ _ Hs1 Eb). rewrite (proj2 (Z.eqb_neq b 0)) by lia. cbn [negb].
      apply lookup_lt_Some in Eb as Hlt. rewrite (run_bind _ _ _ tt (<[p + Z.of_nat k + Z.of_nat n := 0]> m)).
      2:{ apply store8_ok; [lia|]. destruct Hs1 as (Hb & _). rewrite Hb by (rewrite length_app; simpl; lia).
          apply lookup_lt_is_Some_2. rewrite length_app. simpl. lia. }
      eexists. rewrite !u32_small by lia. split; [done|]. do 2 (split; [done|]). split.
      * apply cstr_frame; [|lia]. replace (p + Z.of_nat k + Z.of_nat n + 1) with (p + Z.of_nat k + Z.of_nat (S n)) by lia.
        apply cstr_drop; [done|lia].
      * rewrite length_drop. repeat split; lia.
    + apply lookup_ge_None in Eb. change (default 0 None) with 0.
      assert (n = length s') as -> by lia. cbn [negb Z.eqb].
      assert (Hid : <[p + Z.of_nat k + Z.of_nat (length s') := 0]> m = m).
      { apply insert_id. destruct Hs1 as (Hb & _). rewrite Hb by (rewrite length_app; simpl; lia).
        by apply list_lookup_middle. }
      rewrite Hid in Hcut |- *. eexists. rewrite !u32_small by lia. split; [done|]. do 2 (split; [done|]).
      rewrite drop_ge by lia. split; [|simpl; repeat split; lia].
      rewrite <-(drop_ge s' (length s')) by lia. by apply cstr_drop.
Qed.

(** The words of a string: the maximal runs of bytes that are not delimiters. *)
Fixpoint words (D s : list Z) : list (list Z) :=
  match s with
  | [] => []
  | c :: s' =>
      if is_delim D c then words D s'
      else match s' with
           | [] => [[c]]
           | d :: _ =>
               if is_delim D d then [c] :: words D s'
               else match words D s' with w :: ws => (c :: w) :: ws | [] => [[c]] end
           end
  end.

Lemma words_skip D s : words D (drop (run_len (is_delim D) s) s) = words D s.
Proof.
  induction s as [|c s IH]; [done|]. cbn [run_len].
  destruct (is_delim D c) eqn:E; [|done]. cbn [drop]. rewrite IH. cbn [words]. by rewrite E.
Qed.

Lemma words_token D c s :
  is_delim D c = false →
  let n := run_len (λ b, negb (is_delim D b)) (c :: s) in
  words D (c :: s) = take n (c :: s) :: words D (drop n (c :: s)).
Proof.
  revert c. induction s as [|d s IH]; intros c Hc; cbn [run_len]; rewrite Hc; cbn [negb].
  - cbn. by rewrite Hc.
  - change (words D (c :: d :: s)) with
      (if is_delim D c then words D (d :: s)
       else if is_delim D d then [c] :: words D (d :: s)
       else match words D (d :: s) with w :: ws => (c :: w) :: ws | [] => [[c]] end).
    rewrite Hc. destruct (is_delim D d) eqn:Hd.
    + cbn [negb take drop]. done.
    + specialize (IH d Hd). cbv zeta in IH. cbn [run_len] in IH. rewrite Hd in IH. cbn [negb] in IH.
      rewrite IH. done.
Qed.

Lemma words_delim D s : 
  let n := run_len (λ b, negb (is_delim D b)) s in words D (drop (S n) s) = words D (drop n s).
Proof.
  intros n. destruct (run_len_spec (λ b, negb (is_delim D b)) s) as (_ & _ & N3). fold n in N3.
  destruct (s !! n) as [b|] eqn:E.
  - rewrite (drop_S s b n E). cbn [words]. specialize (N3 b eq_refl). apply negb_false_iff in N3.
    by rewrite N3.
  - apply lookup_ge_None in E. by rewrite !drop_ge by lia.
Qed.

(** The words are what strtok_r() yields one after the other. *)
Lemma words_next D s :
  words D s = match next_token D s with None => [] | Some (tok, rest) => tok :: words D rest end.
Proof.
  rewrite <-words_skip. unfold next_token.
  destruct (run_len_spec (is_delim D) s) as (_ & _ & K3).
  destruct (drop (run_len (is_delim D) s) s) as [|c s1] eqn:E; [done|].
  rewrite words_delim. apply words_token. apply K3.
  rewrite <-(Nat.add_0_r (run_len _ s)), <-lookup_drop, E. done.
Qed.

Lemma words_length D s :
  (sum_list_with (λ w, S (length w)) (words D s) <= S (length s))%nat.
Proof.
  assert (H : ∀ s, (sum_list_with (λ w, S (length w)) (words D s) <= S (length s))%nat ∧
    (match s with d :: _ => is_delim D d = true | [] => True end →
     sum_list_with (λ w, S (length w)) (words D s) <= length s)%nat).
  { clear s. induction s as [|c s [IH1 IH2]]; [simpl; lia|]. cbn [words length].
    destruct (is_delim D c) eqn:Hc; [split; [lia|intros _; lia]|].
    split; [|done]. destruct s as [|d s]; [simpl; lia|].
    destruct (is_delim D d) eqn:Hd.
    - cbn [sum_list_with length]. specialize (IH2 eq_refl). simpl in IH2 |- *. lia.
    - destruct (words D (d :: s)) as [|w ws] eqn:Ew; [simpl; lia|].
      cbn [sum_list_with length] in *. simpl in *. lia. }
  apply H.
Qed.

(** ** Bounded copies and comparisons *)

Lemma cstr_bytes m p s n :
  cstr m p s → bytes_at m p (take n s) ∧ Forall (λ b, is_u8 b) (take n s).
Proof.
  intros (Hb & F & _). split.
  - rewrite <-(take_drop n s), <-app_assoc in Hb. by apply bytes_at_app in Hb as [Hb _].
  - apply Forall_take. eapply Forall_impl; [done|]. simpl. lia.
Qed.

Lemma strlcpy_ok m dst src s sz :
  cstr m src s → 0 < sz → sz <= 4294967296 →
  let c := take (Z.to_nat (sz - 1)) s in
  block m dst (Z.of_nat (length c) + 1) →
  dst + Z.of_nat (length c) < src ∨ src + Z.of_nat (length s) < dst →
  strlcpy dst src sz m = Ok (Z.of_nat (length s), write_bytes m dst (c ++ [0])).
Proof.
  intros Hs Hsz Hmax c Hblock Hd. pose proof Hs as (_ & _ & H0 & H1).
  pose proof Hblock as (B0 & B1 & B2).
  assert (Hlen : (if Z.of_nat (length s) <? sz - 1 then Z.of_nat (length s) else sz - 1) = Z.of_nat (length c)).
  { unfold c. rewrite length_take. destruct (Z.ltb_spec (Z.of_nat (length s)) (sz - 1)); lia. }
  unfold strlcpy. rewrite !(run_lift _ _ _ tt) by (apply ASSERT_true, negb_true_iff, Z.eqb_neq; lia).
  rewrite (run_reads _ _ _ _ (strlen_ok _ _ _ Hs)). rewrite (proj2 (Z.ltb_lt _ _)) by lia.
  cbn [when]. cbv zeta. rewrite Hlen. destruct (cstr_bytes _ _ _ (Z.to_nat (sz - 1)) Hs) as [Hb F].
  fold c in Hb, F. assert (Hc : (length c <= length s)%nat) by (unfold c; rewrite length_take; lia).
  rewrite (run_bind _ _ _ tt (write_bytes m dst (c ++ [0]))); [done|].
  rewrite (run_bind _ _ _ _ _ (memcpy_ok m dst src c Hb F
    ltac:(split; [done|split; [lia|intros; apply B2; lia]]) ltac:(lia) ltac:(lia) ltac:(lia))).
  rewrite store8_ok; [|lia|].
  - by rewrite write_bytes_app.
  - apply (write_bytes_block _ _ _ _ _ Hblock). lia.
Qed.

(** Lexicographic order of strings, as a sign. *)
Fixpoint lex (a b : list Z) : Z :=
  match a, b with
  | [], [] => 0
  | [], _ => -1
  | _, [] => 1
  | x :: a, y :: b => if x <? y then -1 else if y <? x then 1 else lex a b
  end.

Lemma strcmp_loop m p q a b fuel (k : nat) :
  cstr m p a → cstr m q b → (k <= length a)%nat → (k <= length b)%nat →
  (length a - k < fuel)%nat →
  loop fuel (λ i,
    x ← load8 m (p + i); y ← load8 m (q + i);
    if negb (x =? 0) && (x =? y) then Ok (inl (i + 1))
    else Ok (inr (if x <? y then -1 else if y <? x then 1 else 0))) (Z.of_nat k)
  = Ok (lex (drop k a) (drop k b)).
Proof.
  intros Ha Hb. revert k. induction fuel as [|fuel IH]; intros k Hka Hkb Hf; [lia|]. cbn [loop].
  rewrite (cstr_load _ _ _ _ Ha), (cstr_load _ _ _ _ Hb) by lia. cbn [mbind outcome_bind].
  destruct (a !! k) as [x|] eqn:Ex, (b !! k) as [y|] eqn:Ey; cbn [default from_option id].
  all: try (pose proof (cstr_nz _ _ _ _ _ Ha Ex); apply lookup_lt_Some in Ex as Lx).
  all: try (pose proof (cstr_nz _ _ _ _ _ Hb Ey); apply lookup_lt_Some in Ey as Ly).
  all: try (apply lookup_ge_None in Ex).
  all: try (apply lookup_ge_None in Ey).
  - rewrite (drop_S a x k Ex), (drop_S b y k Ey). cbn [lex].
    rewrite (proj2 (Z.eqb_neq x 0)) by lia. cbn [negb andb]. change (id x) with x. change (id y) with y.
    destruct (Z.eqb_spec x y) as [->|Hn].
    + cbn [mbind outcome_bind]. rewrite Z.ltb_irrefl.
      replace (Z.of_nat k + 1) with (Z.of_nat (S k)) by lia. apply IH; lia.
    + cbn. destruct (Z.ltb_spec x y); [done|]. by rewrite (proj2 (Z.ltb_lt y x)) by lia.
  - rewrite (drop_S a x k Ex), (drop_ge b) by lia. cbn [lex]. change (id x) with x.
    rewrite (proj2 (Z.eqb_neq x 0)) by lia. cbn.
    by rewrite (proj2 (Z.ltb_ge x 0)), (proj2 (Z.ltb_lt 0 x)) by lia.
  - rewrite (drop_S b y k Ey), (drop_ge a) by lia. cbn [lex]. change (id y) with y. cbn.
    by rewrite (proj2 (Z.ltb_lt 0 y)) by lia.
  - by rewrite !drop_ge by lia.
Qed.

Lemma strcmp_ok m p q a b : cstr m p a → cstr m q b → strcmp m p q = Ok (lex a b).
Proof.
  intros Ha Hb. pose proof Ha as (_ & _ & A0 & _). pose proof Hb as (_ & _ & B0 & _). unfold strcmp.
  rewrite !ASSERT_true by (apply negb_true_iff, Z.eqb_neq; lia). rewrite !bind_ret.
  apply (strcmp_loop m p q a b _ 0 Ha Hb); [lia|lia|].
  pose proof (cstr_fuel _ _ _ Ha). lia.
Qed.

(** ** Properties *)

(** C24: memmove() copies correctly whichever way the blocks overlap: the bytes the
    source held before the call are at the destination afterwards and no other
    byte of memory changes.  It returns the destination when it copies
    backwards, and the address just past the destination when it copies
    forwards. *)
Theorem memmove_overlap m dst src bs :
  bytes_at m src bs → Forall (λ b, is_u8 b) bs → block m dst (Z.of_nat (length bs)) →
  0 < src → src + Z.of_nat (length bs) <= 4294967296 →
  ∃ r m', memmove dst src (Z.of_nat (length bs)) m = Ok (r, m') ∧ bytes_at m' dst bs ∧
    (∀ x, x < dst ∨ dst + Z.of_nat (length bs) <= x → m' !! x = m !! x) ∧
    r = if dst <? src then u32 (dst + Z.of_nat (length bs)) else dst.
Proof.
  intros H1 H2 H3 H4 H5. eexists _, _. split; [by apply memmove_ok|]. split; [apply write_bytes_at|].
  split; [|done]. intros x Hx. by rewrite write_bytes_lookup, decide_False by lia.
Qed.

(** Eight bytes 1 to 8 at address 16, and 0 around them. *)
Definition demo_mem : mem := write_bytes ∅ 8 [0;0;0;0;0;0;0;0;1;2;3;4;5;6;7;8;0;0;0;0].

Lemma memmove_overlap_witness :
  ∃ r m', memmove 18 16 6 demo_mem = Ok (r, m') ∧ bytes_at m' 18 [1;2;3;4;5;6] ∧ r = 18 ∧
    m' !! 16 = Some 1 ∧ m' !! 24 = Some 0.
Proof.
  destruct (memmove_overlap demo_mem 18 16 [1;2;3;4;5;6]) as (r & m' & E & Hb & Hf & Hr).
  - intros i Hi. do 6 (destruct i as [|i]; [done|]). simpl in Hi. lia.
  - repeat constructor; lia.
  - split; [lia|]. split; [simpl; lia|]. intros i Hi. simpl in Hi.
    assert (i = 0 ∨ i = 1 ∨ i = 2 ∨ i = 3 ∨ i = 4 ∨ i = 5) as Hc by lia.
    destruct Hc as [-> | [-> | [-> | [-> | [-> | ->]]]]]; by eexists.
  - lia.
  - simpl. lia.
  - exists r, m'. split; [exact E|]. split; [done|]. split; [exact Hr|].
    rewrite !Hf by (simpl; lia). done.
Defined.

(** Strtok_r() takes the next token off a string.  With no token left it
    returns a null pointer and changes nothing.  Otherwise it returns a pointer
    to the token, which is not empty, is null-terminated in place and contains
    no delimiter; the saved pointer is a string holding what follows the
    delimiter; and the byte that ends the token is the only one that is
    written. *)
Theorem strtok_r_next m d p q save D s :
  cstr m d D → cstr m p s → (if q =? NUL then save else q) = p →
  match next_token D s with
  | None => Forall (λ b, b ∈ D) s ∧ ∃ save', strtok_r q d save m = Ok ((NUL, save'), m)
  | Some (tok, rest) =>
      ∃ t save' m', strtok_r q d save m = Ok ((t, save'), m') ∧
        tok ≠ [] ∧ Forall (λ b, b ∉ D) tok ∧ cstr m' t tok ∧ cstr m' save' rest ∧
        p <= t ∧ t + Z.of_nat (length tok) <= save' ∧
        save' + Z.of_nat (length rest) = p + Z.of_nat (length s) ∧
        ∀ x, x ≠ t + Z.of_nat (length tok) → m' !! x = m !! x
  end.
Proof.
  intros HD Hs Hq. pose proof (strtok_r_ok m d p q save D s HD Hs Hq) as H.
  unfold next_token in *. destruct (run_len_spec (is_delim D) s) as (K1 & K2 & K3).
  destruct (drop _ s) as [|c s1] eqn:Ed.
  - split; [|by eauto]. apply Forall_lookup_2. intros i b Hb.
    apply (f_equal length) in Ed. rewrite length_drop in Ed. simpl in Ed.
    eapply bool_decide_eq_true_1, (K2 i); [|done]. apply lookup_lt_Some in Hb. lia.
  - destruct H as (t & save' & E & Ht & C1 & C2 & I1 & I2 & I3 & _).
    eexists t, save', _. split; [exact E|]. split; [done|]. split; [|split; [done|split; [done|]]].
    + apply Forall_lookup_2. intros i b Hb. apply lookup_take_Some in Hb as [Hb Hi].
      destruct (run_len_spec (λ b, negb (is_delim D b)) (c :: s1)) as (_ & N2 & _).
      specialize (N2 i b Hi Hb). by apply negb_true_iff, bool_decide_eq_false_1 in N2.
    + do 3 (split; [done|]). intros x Hx. by rewrite lookup_insert_ne.
Qed.

(** The string ["  ab c"] at address 16 and the string [" "] at address 8. *)
Definition demo_str : mem := write_bytes (write_bytes ∅ 8 [32; 0]) 16 [32; 32; 97; 98; 32; 99; 0].

Lemma demo_cstr : cstr demo_str 8 [32] ∧ cstr demo_str 16 [32; 32; 97; 98; 32; 99].
Proof.
  split; (split; [|split; [repeat constructor; lia|simpl; lia]]);
    intros i Hi; simpl in Hi; do 8 (destruct i as [|i]; [done|]); lia.
Qed.

Lemma strtok_r_next_witness :
  ∃ t save m', strtok_r 16 8 0 demo_str = Ok ((t, save), m') ∧ cstr m' t [97; 98] ∧ cstr m' save [99].
Proof.
  destruct demo_cstr as [HD Hs].
  destruct (strtok_r_next demo_str 8 16 16 0 [32] [32; 32; 97; 98; 32; 99] HD Hs)
    as (t & save & m' & E & _ & _ & C1 & C2 & _); [done|].
  exists t, save, m'. split; [exact E|]. split; [exact C1|exact C2].
Defined.

(** Strlcpy() never writes past SIZE bytes and always leaves a string:
    it returns the length of the source, the destination holds its first
    SIZE - 1 bytes and a terminator, and no other byte changes. *)
Theorem strlcpy_bounded m dst src s sz :
  cstr m src s → 0 < sz → sz <= 4294967296 →
  let n := Z.min (Z.of_nat (length s)) (sz - 1) in
  block m dst (n + 1) → dst + n < src ∨ src + Z.of_nat (length s) < dst →
  ∃ m', strlcpy dst src sz m = Ok (Z.of_nat (length s), m') ∧
    cstr m' dst (take (Z.to_nat n) s) ∧ cstr m' src s ∧
    (∀ x, x < dst ∨ dst + sz <= x → m' !! x = m !! x).
Proof.
  intros Hs H1 H2 n Hb Hd. assert (Hc : take (Z.to_nat n) s = take (Z.to_nat (sz - 1)) s).
  { unfold n. destruct (decide (Z.of_nat (length s) <= sz - 1)).
    - rewrite !take_ge by lia. done.
    - f_equal. lia. }
  assert (Hl : Z.of_nat (length (take (Z.to_nat (sz - 1)) s)) = n) by (rewrite length_take; lia).
  eexists. split; [apply strlcpy_ok; rewrite ?Hl; done|]. rewrite Hc.
  pose proof Hs as (Hbs & F & S0 & S1). destruct Hb as (B0 & B1 & _).
  split; [|split].
  - split; [apply write_bytes_at|]. split; [by apply Forall_take|lia].
  - split; [|done]. apply write_bytes_frame; [|done]. rewrite !length_app. simpl. lia.
  - intros x Hx. rewrite write_bytes_lookup, length_app, decide_False by (simpl; lia). done.
Qed.

Lemma strlcpy_bounded_witness :
  ∃ m', strlcpy 8 16 2 demo_str = Ok (6, m') ∧ cstr m' 8 [32] ∧ cstr m' 16 [32; 32; 97; 98; 32; 99].
Proof.
  destruct demo_cstr as [_ Hs].
  destruct (strlcpy_bounded demo_str 8 16 [32; 32; 97; 98; 32; 99] 2 Hs)
    as (m' & E & C1 & C2 & _); [lia|lia| |simpl; lia|].
  - split; [lia|]. split; [simpl; lia|]. intros i Hi. simpl in Hi.
    assert (i = 0 ∨ i = 1) as [-> | ->] by lia; by eexists.
  - exists m'. split; [exact E|]. split; [exact C1|exact C2].
Defined.
