(* ===== verification/Paging.v ===== *)
(** * The kernel's page directory: paging_init() of threads/init.c

    On the pages of words of Pagedir.v.  [_start] and [_end_kernel_text] are the
    addresses that the linker gives to the ends of the kernel's text, and
    [init_ram_pages] is the size of memory that the loader found.  bss_init(),
    which clears the uninitialised data of the kernel, is on the bytes of memory
    of CString.v. *)

From S2P Require Import Prelude Bitmap Vaddr Palloc Pagedir.
From S2P Require CString.

Open Scope Z_scope.

(** ** Definitions *)

Definition bss_init (_start_bss _end_bss : Z) : CString.M unit :=
  CString.memset _start_bss 0 (u32 (_end_bss - _start_bss));; mret tt.

Section paging.
Context (_start _end_kernel_text init_ram_pages : Z).

(** The loop over the pages of memory, from [page] on, with [n] to go. *)
Fixpoint paging_loop (n : nat) (page pd pt : Z) : G unit :=
  match n with
  | O => mret tt
  | S n =>
      let paddr := u32 (page * PGSIZE) in
      vaddr ← lift (ptov paddr);
      let pde_idx := pd_no vaddr in
      let pte_idx := pt_no vaddr in
      let in_kernel_text := (_start <=? vaddr) && (vaddr <? _end_kernel_text) in
      pde ← load32 (pd + 4 * pde_idx);
      pt ← (if pde =? 0 then
              pt ← use_palloc (palloc_get_page (Z.lor PAL_ASSERT PAL_ZERO));
              pde ← lift (pde_create pt);
              store32 (pd + 4 * pde_idx) pde;;
              mret pt
            else mret pt);
      pte ← lift (pte_create_kernel vaddr (negb in_kernel_text));
      store32 (pt + 4 * pte_idx) pte;;
      paging_loop n (page + 1) pd pt
  end.

(** The result is init_page_dir. *)
Definition paging_init : G Z :=
  pd ← use_palloc (palloc_get_page (Z.lor PAL_ASSERT PAL_ZERO));
  paging_loop (Z.to_nat init_ram_pages) 0 pd NULL;;
  p ← lift (vtop pd);
  modify (λ g, mk_pgst g.(palloc) p (g.(flushes) + 1));;
  mret pd.

(** ** The tables that are built *)

(** The entry for page [k] of memory. *)
Definition kernel_pte (k : Z) : Z :=
  let va := PHYS_BASE + 4096 * k in
  4096 * k + (if (_start <=? va) && (va <? _end_kernel_text) then 1 else 3).

(** Page table [i] when the first [page] pages are mapped. *)
Definition tab_words (page i : Z) : list Z :=
  (λ j, if 1024 * i + j <? page then kernel_pte (1024 * i + j) else 0) <$> seqZ 0 1024.

Definition dir_words (tabs : list Z) : list Z :=
  replicate 768 0 ++ ((λ t, t - PHYS_BASE + 7) <$> tabs) ++ replicate (256 - length tabs) 0.

(** A free page of the kernel pool. *)
Definition spare (s : pst) (p : Z) : Prop :=
  kernel_page p ∧ used s p = false ∧ page_from_pool s.(kernel_pool) p = true.

Definition spares (s : pst) (n : nat) : Prop :=
  ∃ l, NoDup l ∧ (n <= length l)%nat ∧ Forall (spare s) l.

Record mapped (m0 : gmap Z (list Z)) (u0 : Z → bool) (pd page : Z) (tabs : list Z) (s : pst) : Prop := {
  mp_wf : pools_wf s;
  mp_nodup : NoDup (pd :: tabs);
  mp_pages : Forall (λ t, kernel_page t ∧ used s t = true ∧ u0 t = false) (pd :: tabs);
  mp_dir : s.(pmem) !! pd = Some (dir_words tabs);
  mp_tab : ∀ (i : nat) t, tabs !! i = Some t → s.(pmem) !! t = Some (tab_words page (Z.of_nat i));
  mp_mem : ∀ q, q ∉ pd :: tabs → s.(pmem) !! q = m0 !! q;
  mp_used : ∀ q, kernel_page q → u0 q = true → used s q = true }.

(** ** Allocation *)

Lemma spares_full s n : pools_wf s → spares s (S n) → ¬ ∀ i, 0 <= i < bit_cnt s.(kernel_pool).(used_map) → bit s.(kernel_pool).(used_map) i = true.
Proof.
  intros Hp (l & _ & Hl & Hs) Hfull. destruct l as [|p l]; [cbn in Hl; lia|]. apply Forall_cons in Hs as [([Hr Ha] & Hu & Hf) _].
  unfold used in Hu. rewrite Hf in Hu. destruct Hp as (Hk & _). pose proof Hk as (_ & KA & KB & KS).
  unfold PHYS_BASE in *. rewrite from_pool_range in Hf by (exact Hk || lia). apply andb_true_iff in Hf as [H1 H2].
  rewrite Hfull in Hu; [done|]. rewrite !pg_no_div. unfold page_at in *. zdm.
Qed.

(** Taking one of several free pages. *)
Lemma take_spare s n :
  pools_wf s → spares s (S n) →
  ∃ s' t, palloc_get_page (Z.lor PAL_ASSERT PAL_ZERO) s = Ok (t, s') ∧ pools_wf s' ∧ kernel_page t ∧ used s t = false ∧
    (∀ p, is_u32 p → used s' p = if among t 1 p then true else used s p) ∧
    s'.(pmem) = <[t := replicate 1024 0]> s.(pmem) ∧ spares s' n.
Proof.
  intros Hp Hs. destruct (palloc_page_ok s (Z.lor PAL_ASSERT PAL_ZERO) Hp) as
    [(s' & t & E & Hp' & Ht & Hfree & Hus & Hm & Hfrom & Hsz)|[Hfull _]]; cycle 1.
  { destruct (spares_full s n Hp Hs Hfull). }
  exists s', t. repeat (split; [done|]). destruct Hs as (l & Hnd & Hl & Hall).
  exists (List.filter (λ p, negb (p =? t)) l). split; [by apply NoDup_ListNoDup, List.NoDup_filter, NoDup_ListNoDup|]. split.
  - clear -Hnd Hl. revert n Hl. induction Hnd as [|p l Hp Hnd IH]; intros n Hl; cbn in *; [lia|].
    destruct (Z.eqb_spec p t) as [->|]; cbn; [|destruct n; [lia|]; specialize (IH n); lia].
    assert (Hid : List.filter (λ p, negb (p =? t)) l = l).
    { clear -Hp. induction l as [|q l IH]; [done|]. cbn. rewrite (proj2 (Z.eqb_neq q t)) by set_solver. cbn. rewrite IH; [done|set_solver]. }
    rewrite Hid. lia.
  - apply Forall_forall. intros q Hq. apply list_elem_of_In, List.filter_In in Hq as [Hq Hne].
    apply list_elem_of_In in Hq. rewrite Forall_forall in Hall. destruct (Hall q Hq) as (Hkq & Huq & Hfq).
    apply negb_true_iff, Z.eqb_neq in Hne. split; [done|]. split.
    + pose proof Hkq as [Hqr Hqa]. pose proof Ht as [Htr Hta]. unfold PHYS_BASE in *. rewrite Hus by lia.
      destruct (among t 1 q) eqn:Ea; [|done]. unfold among in Ea. apply andb_true_iff in Ea as [?%Z.leb_le ?%Z.ltb_lt]. zdm.
    + change (same_size s.(kernel_pool) s'.(kernel_pool)) in Hsz. destruct Hsz as [E1 E2]. unfold page_from_pool, bitmap_size in *. by rewrite E1, E2.
Qed.

(** ** The words of the tables *)

Lemma length_dir_words tabs : (length tabs <= 256)%nat → length (dir_words tabs) = 1024%nat.
Proof. intros H. unfold dir_words. rewrite !length_app, !length_replicate, length_fmap. lia. Qed.

Lemma dir_words_lookup tabs k :
  (length tabs <= 256)%nat → 0 <= k < 1024 →
  dir_words tabs !! Z.to_nat k = Some (default 0 ((λ t, t - PHYS_BASE + 7) <$> (if k <? 768 then None else tabs !! Z.to_nat (k - 768)))).
Proof.
  intros Hl Hk. unfold dir_words. destruct (Z.ltb_spec k 768).
  - rewrite lookup_app_l by (rewrite length_replicate; lia). by rewrite lookup_replicate_2 by lia.
  - rewrite lookup_app_r by (rewrite length_replicate; lia). rewrite length_replicate.
    replace (Z.to_nat k - 768)%nat with (Z.to_nat (k - 768)) by lia.
    destruct (decide (Z.to_nat (k - 768) < length tabs)%nat) as [Hlt | Hge].
    + rewrite lookup_app_l by (rewrite length_fmap; lia). rewrite list_lookup_fmap.
      destruct (lookup_lt_is_Some_2 tabs _ Hlt) as [t ->]. done.
    + rewrite lookup_app_r by (rewrite length_fmap; lia). rewrite length_fmap.
      rewrite lookup_replicate_2 by lia. by rewrite lookup_ge_None_2 by lia.
Qed.

Lemma dir_words_insert tabs t :
  (length tabs < 256)%nat → <[Z.to_nat (768 + Z.of_nat (length tabs)) := t - PHYS_BASE + 7]> (dir_words tabs) = dir_words (tabs ++ [t]).
Proof.
  intros Hl. unfold dir_words. rewrite fmap_app, length_app. cbn [fmap list_fmap length].
  rewrite insert_app_r_alt by (rewrite length_replicate; lia). rewrite length_replicate.
  rewrite insert_app_r_alt by (rewrite length_fmap; lia). rewrite length_fmap, <- app_assoc. do 2 f_equal.
  replace (256 - length tabs)%nat with (S (256 - (length tabs + 1))) by lia.
  by replace (Z.to_nat (768 + Z.of_nat (length tabs)) - 768 - length tabs)%nat with 0%nat by lia.
Qed.

Lemma length_tab_words page i : length (tab_words page i) = 1024%nat.
Proof. unfold tab_words. by rewrite length_fmap, length_seqZ. Qed.

Lemma tab_words_lookup page i j :
  0 <= j < 1024 → tab_words page i !! Z.to_nat j = Some (if 1024 * i + j <? page then kernel_pte (1024 * i + j) else 0).
Proof.
  intros Hj. unfold tab_words. rewrite list_lookup_fmap, lookup_seqZ_lt by lia. cbn. by rewrite Z2Nat.id by lia.
Qed.

Lemma tab_words_insert page :
  0 <= page → <[Z.to_nat (page mod 1024) := kernel_pte page]> (tab_words page (page / 1024)) = tab_words (page + 1) (page / 1024).
Proof.
  intros Hp. apply list_eq_same_length with (n := 1024%nat); [by rewrite length_tab_words|by rewrite length_insert, length_tab_words|].
  intros j x y Hj Hx Hy. replace j with (Z.to_nat (Z.of_nat j)) in Hx, Hy by lia.
  rewrite tab_words_lookup in Hy by lia. injection Hy as <-.
  destruct (decide (Z.of_nat j = page mod 1024)) as [E | E].
  - rewrite E, list_lookup_insert_eq in Hx by (rewrite length_tab_words; zdm). injection Hx as <-.
    rewrite E. replace (1024 * (page / 1024) + page mod 1024) with page by zdm. by rewrite (proj2 (Z.ltb_lt _ _)) by lia.
  - rewrite list_lookup_insert_ne, tab_words_lookup in Hx by zdm. injection Hx as <-.
    destruct (Z.ltb_spec (1024 * (page / 1024) + Z.of_nat j) page), (Z.ltb_spec (1024 * (page / 1024) + Z.of_nat j) (page + 1)); done || zdm.
Qed.

(** Only the table of a page changes when it is mapped. *)
Lemma tab_words_other page i : 0 <= page → i ≠ page / 1024 → tab_words (page + 1) i = tab_words page i.
Proof.
  intros Hp Hi. unfold tab_words. apply list_fmap_ext. intros k j Hj. apply lookup_seqZ in Hj as [-> Hk].
  destruct (Z.ltb_spec (1024 * i + (0 + Z.of_nat k)) page), (Z.ltb_spec (1024 * i + (0 + Z.of_nat k)) (page + 1)); done || zdm.
Qed.

Lemma tab_words_new page : page mod 1024 = 0 → tab_words page (page / 1024) = replicate 1024 0.
Proof.
  intros Hm. symmetry. apply replicate_as_elem_of. split; [apply length_tab_words|].
  intros x (k & Hk)%list_elem_of_lookup. assert (Hl := lookup_lt_Some _ _ _ Hk). rewrite length_tab_words in Hl.
  replace k with (Z.to_nat (Z.of_nat k)) in Hk by lia. rewrite tab_words_lookup in Hk by lia. injection Hk as <-.
  by rewrite (proj2 (Z.ltb_ge _ _)) by zdm.
Qed.

(** ** The loop *)

Lemma page_addr page :
  0 <= page < 262144 →
  let va := PHYS_BASE + 4096 * page in
  ptov (u32 (page * PGSIZE)) = Ok va ∧ pd_no va = 768 + page / 1024 ∧ pt_no va = page mod 1024 ∧
  pte_create_kernel va (negb ((_start <=? va) && (va <? _end_kernel_text))) = Ok (kernel_pte page).
Proof.
  intros Hp va. unfold va. change PGSIZE with 4096.
  assert (Hva : PHYS_BASE <= PHYS_BASE + 4096 * page < 4294967296) by (unfold PHYS_BASE; lia).
  split; [rewrite u32_small, ptov_ok by lia; f_equal; lia|].
  split; [rewrite pd_no_div; unfold PHYS_BASE; zdm|].
  split; [rewrite pt_no_div by (unfold PHYS_BASE in *; lia); unfold PHYS_BASE; zdm|].
  unfold pte_create_kernel, kernel_pte. rewrite ASSERT_true by (rewrite pg_ofs_mod; apply Z.eqb_eq; unfold PHYS_BASE; zdm).
  rewrite bind_ret, vtop_ok, bind_ret by done. rewrite <- Z.lor_assoc.
  replace (PHYS_BASE + 4096 * page - PHYS_BASE) with (4096 * page) by lia. f_equal.
  destruct (_ && _); cbn [negb]; change (Z.lor PTE_P _) with 1 || change (Z.lor PTE_P PTE_W) with 3; apply lor_aligned; zdm.
Qed.

Section loop.
Context (m0 : gmap Z (list Z)) (u0 : Z → bool) (pd : Z).

Lemma map_page page tabs (s : pst) pt :
  mapped m0 u0 pd page tabs s → 0 <= page → tabs !! Z.to_nat (page / 1024) = Some pt →
  mapped m0 u0 pd (page + 1) tabs
    (with_pmem (<[pt := <[Z.to_nat (page mod 1024) := kernel_pte page]> (tab_words page (page / 1024))]> s.(pmem)) s).
Proof.
  intros [H1 H2 H3 H4 H5 H6 H7] Hp Ht. pose proof (list_elem_of_lookup_2 _ _ _ Ht) as Hin.
  pose proof H2 as [Hpd Hnd]%NoDup_cons. split; [done|done|done| | | |done]; cbn [pmem with_pmem].
  - rewrite lookup_insert_ne by (intros ->; done). done.
  - intros i t Hi. destruct (decide (i = Z.to_nat (page / 1024))) as [-> | Hne].
    + rewrite Ht in Hi. injection Hi as <-. rewrite lookup_insert_eq, Z2Nat.id by zdm. by rewrite tab_words_insert.
    + rewrite lookup_insert_ne by (intros ->; apply Hne; by eapply NoDup_lookup).
      rewrite tab_words_other by (done || lia). by apply H5.
  - intros q Hq. rewrite lookup_insert_ne by set_solver. by apply H6.
Qed.

Lemma add_table page tabs (g : pgst) n :
  mapped m0 u0 pd page tabs g.(palloc) → page mod 1024 = 0 → Z.of_nat (length tabs) = page / 1024 → (length tabs < 256)%nat →
  spares g.(palloc) (S n) →
  ∃ t s', (pt ← use_palloc (palloc_get_page (Z.lor PAL_ASSERT PAL_ZERO));
           pde ← lift (pde_create pt);
           store32 (pd + 4 * (768 + page / 1024)) pde;;
           mret pt) g = Ok (t, mk_pgst s' g.(cr3) g.(flushes)) ∧
    mapped m0 u0 pd page (tabs ++ [t]) s' ∧ spares s' n.
Proof.
  intros [H1 H2 H3 H4 H5 H6 H7] Hm Hlen Hlt Hs.
  destruct (take_spare g.(palloc) n H1 Hs) as (s1 & t & E & Hp1 & Ht & Hfree & Hus & Hm1 & Hs1).
  assert (Hnew : t ∉ pd :: tabs).
  { intros Hin. rewrite Forall_forall in H3. destruct (H3 t Hin) as (_ & Hu & _). congruence. }
  assert (Hkeep : ∀ q, q ≠ t → s1.(pmem) !! q = g.(palloc).(pmem) !! q) by (intros q Hq; rewrite Hm1; by rewrite lookup_insert_ne).
  assert (Hdir : s1.(pmem) !! pd = Some (dir_words tabs)) by (rewrite Hkeep; [done|set_solver]).
  assert (Hpd : kernel_page pd) by (apply Forall_cons in H3 as [[? _] _]; done).
  assert (Hused : ∀ q, kernel_page q → used (palloc g) q = true → used s1 q = true).
  { intros q [Hq _] Hu. unfold PHYS_BASE in Hq. rewrite Hus by lia. by destruct (among t 1 q). }
  exists t. eexists. split.
  { unfold use_palloc at 1. erewrite run_bind by (by rewrite E). rewrite (run_lift _ _ _ _ (proj1 (pde_create_ok t Ht))).
    erewrite run_bind by (apply store32_ok; [by destruct Hpd|lia|exact Hdir]). done. }
  cbn [palloc]. split; [|done]. rewrite <- Hlen, dir_words_insert by done.
  split; cbn [pmem with_pmem].
  - done.
  - rewrite app_comm_cons, NoDup_app. split; [done|]. split; [set_solver|apply NoDup_singleton].
  - rewrite app_comm_cons. apply Forall_app. split.
    + eapply Forall_impl; [exact H3|]. cbn. intros q (Hq & Hu & Hu0). split; [done|]. split; [by apply Hused|done].
    + apply Forall_singleton. split; [done|]. split.
      * change (used s1 t = true). destruct Ht as [Hr _]. unfold PHYS_BASE in Hr. rewrite Hus by lia. unfold among.
        by rewrite (proj2 (Z.leb_le _ _)), (proj2 (Z.ltb_lt _ _)) by lia.
      * destruct (u0 t) eqn:E0; [|done]. by rewrite (H7 t Ht E0) in Hfree.
  - apply lookup_insert_eq.
  - intros i q Hi. apply lookup_app_Some in Hi as [Hi | [Hi Hq]].
    + assert (q ∈ tabs) by (by eapply list_elem_of_lookup_2). rewrite lookup_insert_ne by (intros ->; apply NoDup_cons in H2 as [? _]; done).
      rewrite Hkeep by set_solver. by apply H5.
    + apply list_lookup_singleton_Some in Hq as [Hi0 <-]. assert (i = length tabs) as -> by lia.
      rewrite lookup_insert_ne by set_solver. rewrite Hm1, lookup_insert_eq, Hlen. f_equal. symmetry. by apply tab_words_new.
  - intros q Hq. rewrite lookup_insert_ne by set_solver. rewrite Hkeep by set_solver. apply H6. set_solver.
  - intros q Hq Hu. by apply Hused, H7.
Qed.

Lemma paging_loop_ok n page pt tabs (g : pgst) :
  mapped m0 u0 pd page tabs g.(palloc) → 0 <= page → page + Z.of_nat n <= 262144 →
  Z.of_nat (length tabs) = (page + 1023) / 1024 → (page mod 1024 ≠ 0 → last tabs = Some pt) →
  spares g.(palloc) (Z.to_nat ((page + Z.of_nat n + 1023) / 1024 - (page + 1023) / 1024)) →
  ∃ s' tabs', paging_loop n page pd pt g = Ok (tt, mk_pgst s' g.(cr3) g.(flushes)) ∧
    mapped m0 u0 pd (page + Z.of_nat n) tabs' s' ∧ Z.of_nat (length tabs') = (page + Z.of_nat n + 1023) / 1024.
Proof.
  revert page pt tabs g. induction n as [|n IH]; intros page pt tabs g Hmap Hp Hle Hlen Hlast Hs.
  { exists g.(palloc), tabs. rewrite Z.add_0_r. split; [by destruct g|done]. }
  destruct (page_addr page ltac:(lia)) as (E1 & E2 & E3 & E4). cbn [paging_loop]. rewrite (run_lift _ _ _ _ E1).
  rewrite E2, E3. pose proof (mp_pages _ _ _ _ _ _ Hmap) as [([_ Hpd] & _) _]%Forall_cons.
  assert (Hl256 : (length tabs <= 256)%nat) by zdm.
  assert (Hdl := dir_words_lookup tabs (768 + page / 1024) Hl256 ltac:(zdm)).
  rewrite (run_bind _ _ _ _ _ (load32_ok pd (768 + page / 1024) _ _ g Hpd ltac:(zdm) (mp_dir _ _ _ _ _ _ Hmap) Hdl)).
  rewrite (proj2 (Z.ltb_ge _ 768)) by zdm. replace (768 + page / 1024 - 768) with (page / 1024) by lia.
  set (need := Z.to_nat ((page + 1 + Z.of_nat n + 1023) / 1024 - (page + 1 + 1023) / 1024)).
  assert (Hstep : ∃ t s1 tabs1,
    (if default 0 ((λ t, t - PHYS_BASE + 7) <$> tabs !! Z.to_nat (page / 1024)) =? 0
     then pt ← use_palloc (palloc_get_page (Z.lor PAL_ASSERT PAL_ZERO));
          pde ← lift (pde_create pt); store32 (pd + 4 * (768 + page / 1024)) pde;; mret pt
     else mret pt) g = Ok (t, mk_pgst s1 g.(cr3) g.(flushes)) ∧ mapped m0 u0 pd page tabs1 s1 ∧
    tabs1 !! Z.to_nat (page / 1024) = Some t ∧ last tabs1 = Some t ∧ Z.of_nat (length tabs1) = page / 1024 + 1 ∧ spares s1 need).
  { destruct (decide (page mod 1024 = 0)) as [Hm | Hm].
    - assert (Hl : Z.of_nat (length tabs) = page / 1024) by zdm. rewrite lookup_ge_None_2 by zdm. cbn [fmap option_fmap option_map default Z.eqb].
      destruct (add_table page tabs g need Hmap Hm Hl ltac:(zdm)) as (t & s1 & E & Hmap1 & Hs1).
      { replace (S need) with (Z.to_nat ((page + Z.of_nat (S n) + 1023) / 1024 - (page + 1023) / 1024)); [done|]. unfold need. zdm. }
      exists t, s1, (tabs ++ [t]). split; [done|]. split; [done|]. split; [|split; [by rewrite last_snoc|split; [rewrite length_app; cbn; lia|done]]].
      rewrite lookup_app_r by zdm. by replace (Z.to_nat (page / 1024) - length tabs)%nat with 0%nat by zdm.
    - specialize (Hlast Hm). assert (Hl : Z.of_nat (length tabs) = page / 1024 + 1) by zdm.
      assert (Ht : tabs !! Z.to_nat (page / 1024) = Some pt).
      { rewrite last_lookup in Hlast. by replace (Z.to_nat (page / 1024)) with (Init.Nat.pred (length tabs)) by lia. }
      pose proof (mp_pages _ _ _ _ _ _ Hmap) as [_ Hall]%Forall_cons. rewrite Forall_forall in Hall.
      destruct (Hall pt ltac:(by eapply list_elem_of_lookup_2)) as ([Hr _] & _). rewrite Ht. change (default 0 ((λ t, t - PHYS_BASE + 7) <$> Some pt)) with (pt - PHYS_BASE + 7).
      rewrite (proj2 (Z.eqb_neq (pt - PHYS_BASE + 7) 0)) by lia. exists pt, g.(palloc), tabs. split; [by destruct g|].
      split; [done|]. split; [done|]. split; [done|]. split; [done|].
      replace need with (Z.to_nat ((page + Z.of_nat (S n) + 1023) / 1024 - (page + 1023) / 1024)); [done|]. unfold need. f_equal. zdm. }
  destruct Hstep as (t & s1 & tabs1 & E & Hmap1 & Ht & Hl1 & Hlen1 & Hs1). rewrite (run_bind _ _ _ _ _ E), (run_lift _ _ _ _ E4).
  pose proof (mp_pages _ _ _ _ _ _ Hmap1) as [_ Hall]%Forall_cons. rewrite Forall_forall in Hall.
  destruct (Hall t ltac:(by eapply list_elem_of_lookup_2)) as ([_ Hta] & _).
  pose proof (mp_tab _ _ _ _ _ _ Hmap1 _ _ Ht) as Htab. rewrite Z2Nat.id in Htab by zdm.
  erewrite run_bind by (apply store32_ok; [done|zdm|exact Htab]). cbn [palloc cr3 flushes].
  pose proof (map_page page tabs1 s1 t Hmap1 Hp Ht) as Hmap2. set (s2 := with_pmem _ s1) in *.
  destruct (IH (page + 1) t tabs1 (mk_pgst s2 g.(cr3) g.(flushes))) as (s' & tabs' & El & Hm' & Hl');
    [done|lia|lia|zdm|done|done|]. rewrite El.
  exists s', tabs'. replace (page + Z.of_nat (S n)) with (page + 1 + Z.of_nat n) by lia. done.
Qed.
End loop.

(** ** The address space *)

(** The walk of the tables. *)
Lemma mapped_pte m0 u0 pd page tabs s va :
  mapped m0 u0 pd page tabs s → 0 <= page <= 262144 → Z.of_nat (length tabs) = (page + 1023) / 1024 → is_u32 va →
  pte_at s.(pmem) pd va =
    if (PHYS_BASE <=? va) && (va <? PHYS_BASE + 4096 * page) then Some (kernel_pte ((va - PHYS_BASE) / 4096)) else None.
Proof.
  intros Hm Hp Hlen Hva. unfold pte_at. rewrite (mp_dir _ _ _ _ _ _ Hm). cbn [mbind option_bind].
  assert (Hl256 : (length tabs <= 256)%nat) by zdm. unfold pd_tab. rewrite dir_words_lookup by (done || zdm).
  destruct (Z.ltb_spec (va / 4194304) 768) as [Hlow | Hhigh].
  { rewrite (proj2 (Z.leb_gt _ _)) by (unfold PHYS_BASE; zdm). done. }
  rewrite (proj2 (Z.leb_le _ _)) by (unfold PHYS_BASE; zdm). cbn [andb].
  set (k := (va - PHYS_BASE) / 4096). assert (Hk : 0 <= k) by (unfold k, PHYS_BASE; zdm).
  assert (Ek : va / 4194304 - 768 = k / 1024) by (unfold k, PHYS_BASE; zdm).
  assert (Ej : va / 4096 mod 1024 = k mod 1024) by (unfold k, PHYS_BASE; zdm). rewrite Ek, Ej.
  assert (Hlt : (va <? PHYS_BASE + 4096 * page) = (k <? page)).
  { unfold k. destruct (Z.ltb_spec va (PHYS_BASE + 4096 * page)), (Z.ltb_spec ((va - PHYS_BASE) / 4096) page); done || zdm. }
  rewrite Hlt. destruct (tabs !! Z.to_nat (k / 1024)) as [t|] eqn:Ht.
  - pose proof (mp_pages _ _ _ _ _ _ Hm) as [_ Hall]%Forall_cons. rewrite Forall_forall in Hall.
    destruct (Hall t ltac:(by eapply list_elem_of_lookup_2)) as (Hkt & _). pose proof Hkt as [Hr _].
    change (default 0 ((λ t, t - PHYS_BASE + 7) <$> Some t)) with (t - PHYS_BASE + 7).
    rewrite (proj2 (Z.eqb_neq (t - PHYS_BASE + 7) 0)) by lia. rewrite (proj2 (pde_create_ok t Hkt)). cbn [mbind option_bind].
    rewrite (mp_tab _ _ _ _ _ _ Hm _ _ Ht). cbn [mbind option_bind]. rewrite tab_words_lookup by zdm. cbn [mbind option_bind]. rewrite Z2Nat.id by zdm.
    replace (1024 * (k / 1024) + k mod 1024) with k by zdm. destruct (Z.ltb_spec k page); [|done].
    unfold entry_pte. assert (E1 : Z.land (kernel_pte k) PTE_P = 1); [|by rewrite E1].
    change PTE_P with (Z.ones 1). rewrite Z.land_ones by lia. change (2 ^ 1) with 2. unfold kernel_pte. destruct (_ && _); zdm.
  - apply lookup_ge_None_1 in Ht. rewrite (proj2 (Z.ltb_ge k page)) by zdm. done.
Qed.

(** The first state of the loop. *)
Lemma mapped_start (s0 s : pst) pd :
  pools_wf s → kernel_page pd → used s0 pd = false →
  (∀ p, is_u32 p → used s p = if among pd 1 p then true else used s0 p) → s.(pmem) = <[pd := replicate 1024 0]> s0.(pmem) →
  mapped s0.(pmem) (used s0) pd 0 [] s.
Proof.
  intros Hp Hpd Hfree Hus Hm. pose proof Hpd as [Hr _]. unfold PHYS_BASE in Hr. split.
  - done.
  - apply NoDup_singleton.
  - apply Forall_singleton. split; [done|]. split; [|done]. rewrite Hus by lia. unfold among.
    by rewrite (proj2 (Z.leb_le _ _)), (proj2 (Z.ltb_lt _ _)) by lia.
  - rewrite Hm. apply lookup_insert_eq.
  - done.
  - intros q Hq. rewrite Hm. apply lookup_insert_ne. set_solver.
  - intros q [Hq _] Hu. unfold PHYS_BASE in Hq. rewrite Hus by lia. by destruct (among pd 1 q).
Qed.

(** The directory has no user pages, and is as userprog/pagedir.c expects one. *)
Lemma mapped_pd_wf m0 u0 pd page tabs s : mapped m0 u0 pd page tabs s → (length tabs <= 256)%nat → pd_wf s pd (dir_words tabs).
Proof.
  intros Hm Hl. pose proof (mp_pages _ _ _ _ _ _ Hm) as [(Hk & Hu & _) _]%Forall_cons.
  assert (H0 : ∀ k, 0 <= k < 768 → dir_words tabs !! Z.to_nat k = Some 0).
  { intros k Hk'. rewrite dir_words_lookup by lia. by rewrite (proj2 (Z.ltb_lt _ _)) by lia. }
  split; [done|split; [apply Hm|by apply length_dir_words]|done| |].
  - intros k pde Hk' E Hn. rewrite H0 in E by done. congruence.
  - intros k k' pt Hk' _ E. unfold pd_tab in E. by rewrite H0 in E.
Qed.
End paging.

(** ** Properties *)

(** C39: paging_init() maps all of physical memory for the kernel.  With enough free
    pages for the directory and one table for every 1024 pages of memory it
    returns a page directory in which every kernel address of a page of memory
    is mapped to that page, present and out of reach of user programs, and
    writable unless the page starts in the kernel's text; no other address is
    mapped, and so the directory is well-formed for userprog/pagedir.c.  The
    directory is made active, and pages that were in use are not touched. *)
Theorem paging_init_maps _start _end_kernel_text init_ram_pages (g : pgst) :
  pools_wf g.(palloc) → 0 <= init_ram_pages <= 262144 →
  spares g.(palloc) (S (Z.to_nat ((init_ram_pages + 1023) / 1024))) →
  ∃ pd s' w, paging_init _start _end_kernel_text init_ram_pages g = Ok (pd, mk_pgst s' (pd - PHYS_BASE) (g.(flushes) + 1)) ∧
    pools_wf s' ∧ pd_wf s' pd w ∧
    (∀ va, is_u32 va → pte_at s'.(pmem) pd va =
       if (PHYS_BASE <=? va) && (va <? PHYS_BASE + 4096 * init_ram_pages) then
         let page := va - va mod 4096 in
         Some (page - PHYS_BASE + if (_start <=? page) && (page <? _end_kernel_text) then PTE_P else PTE_P + PTE_W)
       else None) ∧
    ∀ q, kernel_page q → used g.(palloc) q = true → used s' q = true ∧ s'.(pmem) !! q = g.(palloc).(pmem) !! q.
Proof.
  intros Hp Hram Hs. destruct (take_spare g.(palloc) _ Hp Hs) as (s1 & pd & E & Hp1 & Hpd & Hfree & Hus & Hm1 & Hs1).
  pose proof (mapped_start _start _end_kernel_text _ _ _ Hp1 Hpd Hfree Hus Hm1) as Hmap.
  destruct (paging_loop_ok _start _end_kernel_text _ _ pd (Z.to_nat init_ram_pages) 0 NULL [] (mk_pgst s1 g.(cr3) g.(flushes)) Hmap)
    as (s' & tabs & El & Hm & Hlen); [lia|lia|done|done| |].
  { rewrite Z2Nat.id by lia. cbn [palloc]. by replace ((0 + init_ram_pages + 1023) / 1024 - (0 + 1023) / 1024) with ((init_ram_pages + 1023) / 1024) by zdm. }
  rewrite Z2Nat.id, Z.add_0_l in Hm, Hlen by lia.
  exists pd, s', (dir_words tabs). split; [|split; [apply Hm|split; [|split]]].
  - unfold paging_init, use_palloc. erewrite run_bind by (by rewrite E). rewrite (run_bind _ _ _ _ _ El).
    by rewrite (run_lift _ _ _ _ (vtop_ok pd (proj1 Hpd))).
  - eapply mapped_pd_wf; [done|zdm].
  - intros va Hva. rewrite (mapped_pte _ _ _ _ _ _ _ _ va Hm Hram Hlen Hva). destruct (_ && _) eqn:Ein; [|done].
    apply andb_true_iff in Ein as [?%Z.leb_le _]. cbv zeta. unfold kernel_pte.
    replace (PHYS_BASE + 4096 * ((va - PHYS_BASE) / 4096)) with (va - va mod 4096) by (unfold PHYS_BASE; zdm).
    replace (4096 * ((va - PHYS_BASE) / 4096)) with (va - va mod 4096 - PHYS_BASE) by (unfold PHYS_BASE; zdm).
    by destruct (_ && _).
  - intros q Hq Hu. split; [by apply (mp_used _ _ _ _ _ _ _ _ Hm)|]. apply (mp_mem _ _ _ _ _ _ _ _ Hm).
    intros Hin. pose proof (mp_pages _ _ _ _ _ _ _ _ Hm) as Hall. rewrite Forall_forall in Hall.
    destruct (Hall q Hin) as (_ & _ & Hf). congruence.
Qed.

Lemma paging_init_maps_witness :
  ∃ pd s', paging_init 3221356544 3221483520 1500 (mk_pgst demo_pst 0 0) = Ok (pd, mk_pgst s' (pd - PHYS_BASE) 1) ∧
    pte_at s'.(pmem) pd 3221356600 = Some 131073 ∧ pte_at s'.(pmem) pd 3227365480 = Some 6139907 ∧ pte_at s'.(pmem) pd 3227369472 = None.
Proof.
  destruct (paging_init_maps 3221356544 3221483520 1500 (mk_pgst demo_pst 0 0) demo_pools_wf) as (pd & s' & w & E & _ & _ & Hva & _).
  - lia.
  - exists [3222286336; 3222290432; 3222294528]. split; [apply (bool_decide_unpack _); by vm_compute|]. split; [apply Nat.leb_le; by vm_compute|].
    repeat (apply Forall_cons; split; [split; [split; [unfold PHYS_BASE; lia|done]|split; by vm_compute]|]). by apply Forall_nil.
  - exists pd, s'. split; [exact E|]. rewrite !Hva by lia. repeat split; by vm_compute.
Defined.
