(* ===== verification/Stdio.v ===== *)
(** * Formatted output: lib/stdio.c, with atoi() of lib/stdlib.c and lib/ctype.h

    A format is the sequence of its characters up to the null byte, so that
    [[]] is the position of the null byte, and advancing from there leaves the
    string.  The variable arguments are the 32-bit words of the stack from the
    first argument on, of which a 64-bit argument takes two.  Strings that are
    arguments lie in the memory of CString.v.  The output function is called with
    one character after the other and does not change what is formatted, so that
    the formatting functions return the characters of these calls.  Signed
    arithmetic wraps around. *)

From Stdlib Require Import Ascii String.
From S2P Require Import Prelude CString.

Open Scope Z_scope.

(** ** Definitions *)

Definition ch (a : ascii) : Z := Z.of_N (N_of_ascii a).
Arguments ch _%_char.

Fixpoint lit (s : string) : list Z :=
  match s with EmptyString => [] | String a s => ch a :: lit s end.
Arguments lit _%_string.

(** *** lib/ctype.h *)
Definition isdigit (c : Z) : bool := (ch "0" <=? c) && (c <=? ch "9").
Definition isspace (c : Z) : bool :=
  (c =? ch " ") || (c =? 12) || (c =? 10) || (c =? 13) || (c =? 9) || (c =? 11).
Definition isprint (c : Z) : bool := (32 <=? c) && (c <? 127).

(** *** Conversions *)
Definition MINUS : Z := 1.
Definition PLUS : Z := 2.
Definition SPACE : Z := 4.
Definition POUND : Z := 8.
Definition ZERO : Z := 16.
Definition GROUP : Z := 32.

Inductive arg_type := CHAR | SHORT | INT | INTMAX | LONG | LONGLONG | PTRDIFFT | SIZET.

Record printf_conversion := mk_conv { flags : Z; width : Z; precision : Z; type : arg_type }.

Definition has (flags f : Z) : bool := negb (Z.land flags f =? 0).

Record integer_base := mk_base { base : Z; digits : list Z; x_char : Z; group : Z }.

Definition base_d : integer_base := mk_base 10 (lit "0123456789") 0 3.
Definition base_o : integer_base := mk_base 8 (lit "01234567") 0 3.
Definition base_x : integer_base := mk_base 16 (lit "0123456789abcdef") (ch "x") 4.
Definition base_X : integer_base := mk_base 16 (lit "0123456789ABCDEF") (ch "X") 4.

(** *** Arguments *)
Definition i8 (z : Z) : Z := let u := u8 z in if u <? 128 then u else u - 256.
Definition i16 (z : Z) : Z := let u := u16 z in if u <? 32768 then u else u - 65536.

(** va_arg() of a type of 32 and of 64 bits. *)
Definition va_word (args : list Z) : outcome (Z * list Z) :=
  match args with w :: l => Ok (w, l) | [] => Wild end.
Definition va_word2 (args : list Z) : outcome (Z * list Z) :=
  match args with w :: v :: l => Ok (w + 4294967296 * v, l) | _ => Wild end.

Definition SIZE_MAX : Z := 4294967295.

Definition signed_arg (t : arg_type) (args : list Z) : outcome (Z * list Z) :=
  match t with
  | INTMAX | LONGLONG => '(w, l) ← va_word2 args; Ok (i64 w, l)
  | _ =>
      '(w, l) ← va_word args;
      Ok (match t with
          | CHAR => i8 w
          | SHORT => i16 w
          | SIZET => if SIZE_MAX / 2 <? w then w - SIZE_MAX - 1 else w
          | _ => i32 w
          end, l)
  end.

Definition unsigned_arg (t : arg_type) (args : list Z) : outcome (Z * list Z) :=
  match t with
  | INTMAX | LONGLONG => va_word2 args
  | _ =>
      '(w, l) ← va_word args;
      Ok (match t with
          | CHAR => u8 w
          | SHORT => u16 w
          | PTRDIFFT => Z.land (u64 (i32 w)) (Z.lor (Z.shiftl 2147483647 1) 1)
          | _ => w
          end, l)
  end.

(** *** Parsing *)

(** The character at a position of a format. *)
Definition cur (f : list Z) : Z := match f with [] => 0 | c :: _ => c end.

Definition flag_of (c : Z) : option Z :=
  if c =? ch "-" then Some MINUS
  else if c =? ch "+" then Some PLUS
  else if c =? ch " " then Some SPACE
  else if c =? ch "#" then Some POUND
  else if c =? ch "0" then Some ZERO
  else if c =? ch "'" then Some GROUP
  else None.

Fixpoint parse_flags (f : list Z) (flags : Z) : Z * list Z :=
  match f with
  | [] => (flags, [])
  | c :: r => match flag_of c with Some b => parse_flags r (Z.lor flags b) | None => (flags, f) end
  end.

(** The loops over the digits of a width or a precision. *)
Fixpoint parse_number (f : list Z) (n : Z) : Z * list Z :=
  match f with
  | [] => (n, [])
  | c :: r => if isdigit c then parse_number r (i32 (i32 (i32 (n * 10) + c) - ch "0")) else (n, f)
  end.

Definition parse_width (f : list Z) (flags : Z) (args : list Z) : outcome (Z * Z * list Z * list Z) :=
  '(width, f, args) ←
    (if cur f =? ch "*" then '(w, args) ← va_word args; Ok (i32 w, tail f, args)
     else let '(w, f) := parse_number f 0 in Ok (w, f, args));
  Ok (if width <? 0 then (i32 (- width), Z.lor flags MINUS, f, args) else (width, flags, f, args)).

Definition parse_precision (f : list Z) (args : list Z) : outcome (Z * list Z * list Z) :=
  if cur f =? ch "." then
    let f := tail f in
    '(p, f, args) ←
      (if cur f =? ch "*" then '(w, args) ← va_word args; Ok (i32 w, tail f, args)
       else let '(p, f) := parse_number f 0 in Ok (p, f, args));
    Ok (if p <? 0 then -1 else p, f, args)
  else Ok (-1, f, args).

Definition parse_type (f : list Z) : arg_type * list Z :=
  if cur f =? ch "h" then
    if cur (tail f) =? ch "h" then (CHAR, tail (tail f)) else (SHORT, tail f)
  else if cur f =? ch "j" then (INTMAX, tail f)
  else if cur f =? ch "l" then
    if cur (tail f) =? ch "l" then (LONGLONG, tail (tail f)) else (LONG, tail f)
  else if cur f =? ch "t" then (PTRDIFFT, tail f)
  else if cur f =? ch "z" then (SIZET, tail f)
  else (INT, f).

Definition parse_conversion (f : list Z) (args : list Z)
  : outcome (printf_conversion * list Z * list Z) :=
  let '(fl, f) := parse_flags f 0 in
  let fl := if has fl MINUS then Z.land fl (Z.lnot ZERO) else fl in
  let fl := if has fl PLUS then Z.land fl (Z.lnot SPACE) else fl in
  '(width, fl, f, args) ← parse_width f fl args;
  '(precision, f, args) ← parse_precision f args;
  let fl := if 0 <=? precision then Z.land fl (Z.lnot ZERO) else fl in
  let '(t, f) := parse_type f in
  Ok (mk_conv fl width precision t, f, args).

(** *** Formatting *)

Definition output_dup (c cnt : Z) : list Z := replicate (Z.to_nat cnt) c.

(** Storing a character at the end of what is in buf[64]. *)
Definition put_buf (buf : list Z) (c : Z) : outcome (list Z) :=
  if (length buf <? 64)%nat then Ok (buf ++ [c]) else Wild.

(** One turn of the loop that accumulates digits. *)
Definition digit_step (b : integer_base) (fl : Z) : Z * Z * list Z → outcome (Z * Z * list Z + list Z) :=
  λ '(value, digit_cnt, buf),
    if 0 <? value then
      buf ← (if has fl GROUP && (0 <? digit_cnt) && (digit_cnt mod b.(group) =? 0)
             then put_buf buf (ch ",") else Ok buf);
      d ← deref (b.(digits) !! Z.to_nat (value mod b.(base)));
      buf ← put_buf buf d;
      Ok (inl (value / b.(base), digit_cnt + 1, buf))
    else Ok (inr buf).

Definition digit_loop (b : integer_base) (fl value : Z) : outcome (list Z) :=
  loop 65 (digit_step b fl) (value, 0, []).

Definition zero_loop (precision : Z) (buf : list Z) : outcome (list Z) :=
  loop 65 (λ buf,
    if (Z.of_nat (length buf) <? precision) && (length buf <? 63)%nat
    then buf ← put_buf buf (ch "0"); Ok (inl buf) else Ok (inr buf)) buf.

Definition sign_char (is_signed negative : bool) (fl : Z) : Z :=
  if is_signed then
    if has fl PLUS then if negative then ch "-" else ch "+"
    else if has fl SPACE then if negative then ch "-" else ch " "
    else if negative then ch "-" else 0
  else 0.

Definition format_integer (value : Z) (is_signed negative : bool) (b : integer_base) (c : printf_conversion)
  : outcome (list Z) :=
  let fl := c.(flags) in
  let sign := sign_char is_signed negative fl in
  let x := if has fl POUND && negb (value =? 0) then b.(x_char) else 0 in
  buf ← digit_loop b fl value;
  buf ← zero_loop (if c.(precision) <? 0 then 1 else c.(precision)) buf;
  buf ← (if has fl POUND && (b.(base) =? 8) && negb (default 0 (last buf) =? ch "0")
         then put_buf buf (ch "0") else Ok buf);
  let pad_cnt := c.(width) - Z.of_nat (length buf) - (if negb (x =? 0) then 2 else 0)
                 - (if negb (sign =? 0) then 1 else 0) in
  let pad_cnt := if pad_cnt <? 0 then 0 else pad_cnt in
  Ok ((if Z.land fl (Z.lor MINUS ZERO) =? 0 then output_dup (ch " ") pad_cnt else []) ++
      (if negb (sign =? 0) then [sign] else []) ++
      (if negb (x =? 0) then [ch "0"; x] else []) ++
      (if has fl ZERO then output_dup (ch "0") pad_cnt else []) ++
      rev buf ++
      (if has fl MINUS then output_dup (ch " ") pad_cnt else [])).

Definition format_string (s : list Z) (c : printf_conversion) : list Z :=
  let length := Z.of_nat (length s) in
  let pad := output_dup (ch " ") (c.(width) - length) in
  (if (length <? c.(width)) && negb (has c.(flags) MINUS) then pad else []) ++ s ++
  (if (length <? c.(width)) && has c.(flags) MINUS then pad else []).

(** The [n] bytes at [p]. *)
Fixpoint load_bytes (m : mem) (p : Z) (n : nat) : outcome (list Z) :=
  match n with
  | O => Ok []
  | S n => b ← load8 m p; l ← load_bytes m (p + 1) n; Ok (b :: l)
  end.

(** The characters that %s formats: at most PRECISION of those at [s]. *)
Definition string_arg (m : mem) (s precision : Z) : outcome (list Z) :=
  if s =? NUL then Ok (if u32 precision <? 6 then take (Z.to_nat (u32 precision)) (lit "(null)") else lit "(null)")
  else n ← strnlen m s (u32 precision); load_bytes m s (Z.to_nat n).

(** The switch over the conversion character.  [self] is __printf(). *)
Definition convert (self : list Z → list Z → outcome (list Z)) (m : mem)
    (c : printf_conversion) (conv : Z) (args : list Z) : outcome (list Z * list Z) :=
  if (conv =? ch "d") || (conv =? ch "i") then
    '(value, args) ← signed_arg c.(type) args;
    out ← format_integer (u64 (if value <? 0 then i64 (- value) else value)) true (value <? 0) base_d c;
    Ok (out, args)
  else if (conv =? ch "o") || (conv =? ch "u") || (conv =? ch "x") || (conv =? ch "X") then
    '(value, args) ← unsigned_arg c.(type) args;
    let b := if conv =? ch "o" then base_o else if conv =? ch "u" then base_d
             else if conv =? ch "x" then base_x else base_X in
    out ← format_integer value false false b c;
    Ok (out, args)
  else if conv =? ch "c" then
    '(w, args) ← va_word args; Ok (format_string [u8 w] c, args)
  else if conv =? ch "s" then
    '(s, args) ← va_word args;
    l ← string_arg m s c.(precision);
    Ok (format_string l c, args)
  else if conv =? ch "p" then
    '(p, args) ← va_word args;
    out ← format_integer p false false base_x (mk_conv POUND c.(width) c.(precision) c.(type));
    Ok (out, args)
  else if (conv =? ch "f") || (conv =? ch "e") || (conv =? ch "E") || (conv =? ch "g")
          || (conv =? ch "G") || (conv =? ch "n") then
    out ← self (lit "<<no %%%c in kernel>>") [conv]; Ok (out, args)
  else
    out ← self (lit "<<no %%%c conversion>>") [conv]; Ok (out, args).

(** The loop of __vprintf(), from a position of the format. *)
Fixpoint vprintf_loop (fuel : nat) (m : mem) (f args : list Z) : outcome (list Z) :=
  match fuel with
  | O => NoFuel
  | S n =>
      match f with
      | [] => Ok []
      | c :: f =>
          if negb (c =? ch "%") then out ← vprintf_loop n m f args; Ok (c :: out)
          else if cur f =? ch "%" then out ← vprintf_loop n m (tail f) args; Ok (ch "%" :: out)
          else
            '(c, f, args) ← parse_conversion f args;
            '(out, args) ← convert (vprintf_loop n m) m c (cur f) args;
            match f with
            | [] => Wild
            | _ :: f => rest ← vprintf_loop n m f args; Ok (out ++ rest)
            end
      end
  end.

(** Enough for every character and for the message of a bad conversion. *)
Definition vprintf_fuel (f : list Z) : nat := (length f + 32)%nat.

Definition vprintf (m : mem) (f args : list Z) : outcome (list Z) := vprintf_loop (vprintf_fuel f) m f args.

(** *** Output to a buffer *)
Record vsnprintf_aux := mk_aux { aux_p : Z; aux_length : Z; aux_max : Z }.

Definition vsnprintf_helper (c : Z) (a : vsnprintf_aux) : M vsnprintf_aux :=
  let length := i32 (a.(aux_length) + 1) in
  if a.(aux_length) <? a.(aux_max)
  then store8 a.(aux_p) c;; mret (mk_aux (u32 (a.(aux_p) + 1)) length a.(aux_max))
  else mret (mk_aux a.(aux_p) length a.(aux_max)).

Fixpoint helper_calls (l : list Z) (a : vsnprintf_aux) : M vsnprintf_aux :=
  match l with [] => mret a | c :: l => a ← vsnprintf_helper c a; helper_calls l a end.

Definition vsnprintf (buffer buf_size : Z) (f args : list Z) : M Z :=
  out ← reads (λ m, vprintf m f args);
  a ← helper_calls out (mk_aux buffer 0 (i32 (if 0 <? buf_size then buf_size - 1 else 0)));
  when (0 <? buf_size) (store8 a.(aux_p) 0);;
  mret a.(aux_length).

(** *** atoi() *)
Fixpoint skip_space (s : list Z) : list Z :=
  match s with [] => [] | c :: r => if isspace c then skip_space r else s end.

Fixpoint atoi_digits (s : list Z) (value : Z) : Z :=
  match s with
  | [] => value
  | c :: r => if isdigit c then atoi_digits r (i32 (i32 (value * 10) - (c - ch "0"))) else value
  end.

Definition atoi (s : list Z) : Z :=
  let s := skip_space s in
  let negative := cur s =? ch "-" in
  let s := if (cur s =? ch "+") || negative then tail s else s in
  let value := atoi_digits s 0 in
  if negative then value else i32 (- value).

(** printf() and snprintf() pass their arguments on. *)
Definition printf (m : mem) (f args : list Z) : outcome (list Z) := vprintf m f args.
Definition snprintf (buffer buf_size : Z) (f args : list Z) : M Z := vsnprintf buffer buf_size f args.

(** *** Dumps and sizes *)

(** Printing once for each [i] of a range. *)
Fixpoint print_each (n : nat) (i : Z) (p : Z → outcome (list Z)) : outcome (list Z) :=
  match n with
  | O => Ok []
  | S n => o ← p i; rest ← print_each n (i + 1) p; Ok (o ++ rest)
  end.

(** One line of a dump of [n] bytes at [buf], from column [start] to [end_]. *)
Definition hex_line (m : mem) (ofs buf start end_ : Z) (ascii : bool) : outcome (list Z) :=
  let blank n s := print_each (Z.to_nat n) 0 (λ _, printf m (lit s) []) in
  head ← printf m (lit "%08jx  ") [ofs - ofs mod 16; 0];
  left ← blank start "   "%string;
  bytes ← print_each (Z.to_nat (end_ - start)) start (λ i,
            b ← load8 m (buf + (i - start));
            printf m (lit "%02hhx%c") [b; if i =? 16 / 2 - 1 then ch "-" else ch " "]);
  text ← (if ascii then
            right ← blank (16 - end_) "   "%string;
            bar ← printf m (lit "|") [];
            l ← blank start " "%string;
            chars ← print_each (Z.to_nat (end_ - start)) start (λ i,
                      b ← load8 m (buf + (i - start));
                      printf m (lit "%c") [if isprint b then b else ch "."]);
            r ← blank (16 - end_) " "%string;
            Ok (right ++ bar ++ l ++ chars ++ r ++ bar)
          else Ok []);
  Ok (head ++ left ++ bytes ++ text ++ [10]).

Definition hex_dump (m : mem) (ofs buf size : Z) (ascii : bool) : outcome (list Z) :=
  loop (S (Z.to_nat size)) (λ '(ofs, buf, size, out),
    if 0 <? size then
      let start := ofs mod 16 in
      let end_ := if size <? 16 - start then start + size else 16 in
      let n := end_ - start in
      line ← hex_line m ofs buf start end_ ascii;
      Ok (inl (u32 (ofs + n), u32 (buf + n), size - n, out ++ line))
    else Ok (inr out)) (ofs, buf, size, []).

Fixpoint human_unit (size : Z) (factors : list string) : Z * string :=
  match factors with
  | f :: ((_ :: _) as rest) => if 1024 <=? size then human_unit (size / 1024) rest else (size, f)
  | f :: [] => (size, f)
  | [] => (size, EmptyString)
  end.

(** The unit's name is a literal, which the model prints itself. *)
Definition print_human_readable_size (m : mem) (size : Z) : outcome (list Z) :=
  if size =? 1 then printf m (lit "1 byte") []
  else
    let '(size, f) := human_unit size ["bytes"; "kB"; "MB"; "GB"; "TB"]%string in
    n ← printf m (lit "%llu ") [u32 size; size / 4294967296];
    Ok (n ++ lit f).

(** ** Integers *)

(** The number that digits stand for, the lowest first. *)
Definition from_digits (base : Z) (ds : list Z) : Z := foldr (λ d a, d + base * a) 0 ds.

Definition digit_char (b : integer_base) (d : Z) : Z := default 0 (b.(digits) !! Z.to_nat d).

Definition base_ok (b : integer_base) : Prop :=
  8 <= b.(base) <= 16 ∧ Z.of_nat (length b.(digits)) = b.(base) ∧ ch "," ∉ b.(digits).

Lemma bases_ok : base_ok base_d ∧ base_ok base_o ∧ base_ok base_x ∧ base_ok base_X.
Proof. repeat split; try done; by apply (bool_decide_unpack _). Qed.

Lemma put_buf_ok buf c : (length buf < 64)%nat → put_buf buf c = Ok (buf ++ [c]).
Proof. intros H. unfold put_buf. by rewrite (proj2 (Nat.ltb_lt _ _)). Qed.

Lemma from_digits_snoc b ds d : from_digits b (ds ++ [d]) = from_digits b ds + b ^ Z.of_nat (length ds) * d.
Proof.
  induction ds as [|e ds IH]; [cbn; lia|]. cbn [app from_digits foldr length]. fold (from_digits b (ds ++ [d])).
  fold (from_digits b ds). rewrite IH, Nat2Z.inj_succ, Z.pow_succ_r by lia. lia.
Qed.

Lemma from_digits_nonneg b ds : 0 < b → Forall (λ d, 0 <= d < b) ds → 0 <= from_digits b ds.
Proof. intros Hb. induction 1 as [|d ds Hd _ IH]; [done|]. cbn. unfold from_digits in IH. nia. Qed.

(** What the loop over the digits has done after [ds]. *)
Definition digits_inv (b : integer_base) (fl V : Z) (n : nat) (s : Z * Z * list Z) : Prop :=
  let '(v, cnt, buf) := s in
  ∃ ds, 0 <= v < 8 ^ Z.of_nat n ∧ cnt = Z.of_nat (length ds) ∧ (length ds + n <= 22)%nat ∧
    (length buf <= 2 * length ds)%nat ∧ Forall (λ d, 0 <= d < b.(base)) ds ∧
    V = from_digits b.(base) ds + b.(base) ^ cnt * v ∧ (ds = [] ∨ b.(base) ^ (cnt - 1) <= V) ∧
    filter (λ c, c ≠ ch ",") buf = digit_char b <$> ds ∧ (has fl GROUP = false → buf = digit_char b <$> ds).

Lemma digit_step_ok b fl V n v cnt buf :
  base_ok b → digits_inv b fl V n (v, cnt, buf) → 0 < v →
  ∃ r, digit_step b fl (v, cnt, buf) = Ok (inl r) ∧ ∃ n', (n' < n)%nat ∧ digits_inv b fl V n' r.
Proof.
  intros (Hb & Hlen & Hcomma) (ds & Hv & -> & Hn & Hl & Hds & HVd & Htop & Hf & Hg) Hpos.
  destruct n as [|n]; [cbn in Hv; lia|]. cbn [digit_step]. rewrite (proj2 (Z.ltb_lt _ _)) by done.
  set (g := has fl GROUP && _ && _).
  assert (∃ buf', (if g then put_buf buf (ch ",") else Ok buf) = Ok buf' ∧ (length buf' <= S (length buf))%nat ∧
    filter (λ c, c ≠ ch ",") buf' = filter (λ c, c ≠ ch ",") buf ∧ (has fl GROUP = false → buf' = buf))
    as (buf' & -> & Hl' & Hf' & Hg').
  { destruct g eqn:Eg; [|by exists buf; repeat split; lia]. exists (buf ++ [ch ","]). rewrite put_buf_ok by lia.
    split; [done|]. rewrite length_app, filter_app. split; [cbn; lia|].
    split; [rewrite filter_cons_False by (intros H; by apply H); by rewrite app_nil_r|]. unfold g in Eg. intros G. by rewrite G in Eg. }
  assert (Hd : 0 <= v mod b.(base) < b.(base)) by (apply Z.mod_pos_bound; lia). set (d := v mod b.(base)) in *.
  destruct (lookup_lt_is_Some_2 b.(digits) (Z.to_nat d)) as [x Hx]; [lia|]. rewrite Hx. cbn [mbind outcome_bind deref].
  rewrite put_buf_ok by lia. eexists. split; [done|]. exists n. split; [lia|].
  assert (Hdc : digit_char b d = x) by (unfold digit_char; by rewrite Hx).
  exists (ds ++ [d]). rewrite !length_app, fmap_app, Forall_app, filter_app, from_digits_snoc. cbn [length fmap list_fmap].
  split; [split; [apply Z.div_pos; lia|]|]; [|split; [lia|split; [lia|split; [lia|split; [by split; [|constructor]|]]]]].
  - rewrite Nat2Z.inj_succ, Z.pow_succ_r in Hv by lia. apply Z.div_lt_upper_bound; [lia|].
    apply (Z.lt_le_trans _ (8 * 8 ^ Z.of_nat n)); [lia|]. apply Z.mul_le_mono_nonneg_r; [apply Z.pow_nonneg|]; lia.
  - split; [|split; [|split]].
    + rewrite HVd, Z.pow_add_r, Z.pow_1_r by lia. pose proof (Z.div_mod v b.(base) ltac:(lia)) as E. fold d in E.
      rewrite E at 1. ring.
    + right. replace (Z.of_nat (length ds) + 1 - 1) with (Z.of_nat (length ds)) by lia. rewrite HVd.
      pose proof (from_digits_nonneg b.(base) ds ltac:(lia) Hds). pose proof (Z.pow_nonneg b.(base) (Z.of_nat (length ds)) ltac:(lia)). nia.
    + rewrite Hf', Hf, filter_cons_True, filter_nil, Hdc; [done|]. intros ->. by apply Hcomma, (list_elem_of_lookup_2 _ (Z.to_nat d)).
    + intros G. by rewrite (Hg' G), (Hg G), Hdc.
Qed.

Lemma digit_loop_ok b fl V :
  base_ok b → is_u64 V →
  ∃ buf ds, digit_loop b fl V = Ok buf ∧ (length buf <= 44)%nat ∧ Forall (λ d, 0 <= d < b.(base)) ds ∧
    V = from_digits b.(base) ds ∧ (ds = [] ∨ b.(base) ^ (Z.of_nat (length ds) - 1) <= V) ∧
    filter (λ c, c ≠ ch ",") buf = digit_char b <$> ds ∧ (has fl GROUP = false → buf = digit_char b <$> ds).
Proof.
  intros Hb HV. unfold digit_loop.
  destruct (loop_total (digits_inv b fl V) (λ buf, ∃ ds, (length buf <= 44)%nat ∧ Forall (λ d, 0 <= d < b.(base)) ds ∧
    V = from_digits b.(base) ds ∧ (ds = [] ∨ b.(base) ^ (Z.of_nat (length ds) - 1) <= V) ∧
    filter (λ c, c ≠ ch ",") buf = digit_char b <$> ds ∧ (has fl GROUP = false → buf = digit_char b <$> ds)) (digit_step b fl)) with (n := 22%nat) (fuel := 65%nat) (s := (V, 0, @nil Z))
    as (buf & -> & ds & H).
  - intros n [[v cnt] buf] Hi. destruct (decide (0 < v)) as [Hpos | Hz].
    + destruct (digit_step_ok b fl V n v cnt buf Hb Hi Hpos) as (r & -> & H). by exists (inl r).
    + destruct Hi as (ds & Hv & -> & Hn & Hl & Hds & HVd & Htop & Hf & Hg). exists (inr buf). cbn [digit_step].
      rewrite (proj2 (Z.ltb_ge _ _)) by lia. split; [done|]. exists ds. split; [lia|]. split; [done|].
      split; [|done]. rewrite HVd. replace v with 0 by lia. lia.
  - exists []. cbn. repeat split; try done; try lia.
  - lia.
  - by exists buf, ds.
Qed.

Lemma zero_loop_ok p buf :
  (length buf <= 63)%nat → ∃ k, zero_loop p buf = Ok (buf ++ replicate k (ch "0")) ∧ (length buf + k <= 63)%nat ∧
    (k = 0%nat ∨ Z.of_nat (length buf + k) <= p).
Proof.
  intros Hl. unfold zero_loop.
  edestruct (loop_total (λ n l, ∃ k, l = buf ++ replicate k (ch "0") ∧ (length l + n = 63)%nat ∧ (k = 0%nat ∨ Z.of_nat (length l) <= p))
    (λ l, ∃ k, l = buf ++ replicate k (ch "0") ∧ (length l <= 63)%nat ∧ (k = 0%nat ∨ Z.of_nat (length l) <= p)))
    with (n := (63 - length buf)%nat) (fuel := 65%nat) (s := buf)
    as (r & E & k & -> & Hk); [| | |rewrite E; exists k; rewrite length_app, length_replicate in Hk; done].
  - intros n l (k & -> & Hn & Hp). set (l := buf ++ _) in *. cbv beta.
    destruct (Z.ltb_spec (Z.of_nat (length l)) p); cbn [andb]; [|exists (inr l); split; [done|]; exists k; split; [done|split; [lia|done]]].
    destruct (Nat.ltb_spec (length l) 63); [|exists (inr l); split; [done|]; exists k; split; [done|split; [lia|done]]].
    rewrite put_buf_ok by lia. eexists (inl _). split; [done|]. exists (n - 1)%nat. split; [lia|].
    exists (S k). rewrite length_app. cbn [length]. split; [|split; [lia|right; lia]]. unfold l.
    by rewrite <- app_assoc, <- replicate_cons_app.
  - exists 0%nat. rewrite app_nil_r. split; [done|]. split; [lia|by left].
  - lia.
Qed.

Lemma rev_pad {A} (l : list A) j x : rev (l ++ replicate j x) = replicate j x ++ rev l.
Proof.
  rewrite rev_app_distr. f_equal. induction j as [|j IH]; [done|]. rewrite replicate_S_end at 1.
  by rewrite rev_app_distr, IH.
Qed.

Lemma filter_rev {A} (P : A → Prop) `{!∀ x, Decision (P x)} (l : list A) : filter P (rev l) = rev (filter P l).
Proof.
  induction l as [|x l IH]; [done|]. cbn [rev]. rewrite filter_app, IH, filter_cons.
  rewrite filter_cons, filter_nil. case_decide; [done|by rewrite app_nil_r].
Qed.

Lemma filter_zeros k : filter (λ c, c ≠ ch ",") (replicate k (ch "0")) = replicate k (ch "0").
Proof. induction k as [|k IH]; [done|]. cbn [replicate]. by rewrite filter_cons_True, IH. Qed.

(** At least one place of a conversion takes the padding. *)
Lemma pad_somewhere fl : Z.land fl (Z.lor MINUS ZERO) = 0 ∨ has fl ZERO = true ∨ has fl MINUS = true.
Proof.
  unfold has. rewrite Z.land_lor_distr_r, Z.lor_eq_0_iff.
  destruct (Z.eqb_spec (Z.land fl ZERO) 0), (Z.eqb_spec (Z.land fl MINUS) 0); cbn; auto.
Qed.

(** What an integer conversion prints: padding, sign, prefix and digits. *)
Lemma format_integer_shape value sg neg b c :
  base_ok b → is_u64 value →
  ∃ (p1 p2 p3 k : nat) x body ds,
    format_integer value sg neg b c =
      Ok (replicate p1 (ch " ") ++ (if sign_char sg neg c.(flags) =? 0 then [] else [sign_char sg neg c.(flags)]) ++
          x ++ replicate p2 (ch "0") ++ body ++ replicate p3 (ch " ")) ∧
    (x = [] ∨ b.(x_char) ≠ 0 ∧ x = [ch "0"; b.(x_char)]) ∧ Forall (λ d, 0 <= d < b.(base)) ds ∧ value = from_digits b.(base) ds ∧
    filter (λ c, c ≠ ch ",") body = replicate k (ch "0") ++ rev (digit_char b <$> ds) ∧
    (has c.(flags) GROUP = false → body = replicate k (ch "0") ++ rev (digit_char b <$> ds)) ∧
    (ds = [] ∨ b.(base) ^ (Z.of_nat (length ds) - 1) <= value) ∧
    (has c.(flags) POUND = false → has c.(flags) GROUP = false →
       k = 0%nat ∨ Z.of_nat (length ds + k) <= if c.(precision) <? 0 then 1 else c.(precision)) ∧
    let n := Z.of_nat (length (if sign_char sg neg c.(flags) =? 0 then [] else [sign_char sg neg c.(flags)])
                       + length x + length body) in
    c.(width) <= n + Z.of_nat (p1 + p2 + p3) ∧
    (has c.(flags) ZERO = true → has c.(flags) MINUS = false → p1 = 0%nat ∧ p3 = 0%nat ∧ n + Z.of_nat p2 = Z.max n c.(width)).
Proof.
  intros Hb Hv. unfold format_integer. destruct (digit_loop_ok b c.(flags) value Hb Hv) as (buf & ds & -> & Hl & Hds & Hval & Htop & Hf & Hg).
  cbn [mbind outcome_bind]. set (pr := if precision c <? 0 then _ else _).
  destruct (zero_loop_ok pr buf ltac:(lia)) as (k & -> & Hk & Hpr). cbn [mbind outcome_bind].
  set (buf1 := buf ++ _). set (q := has (flags c) POUND && (base b =? 8) && _).
  assert (∃ j, (if q then put_buf buf1 (ch "0") else Ok buf1) = Ok (buf ++ replicate j (ch "0")) ∧ (q = false → j = k)) as (j & -> & Hjk).
  { destruct q eqn:Eq; [|by exists k]. exists (S k). split; [|done]. rewrite put_buf_ok by (unfold buf1; rewrite length_app, length_replicate; lia).
    unfold buf1. by rewrite <- app_assoc, <- replicate_cons_app. }
  cbn [mbind outcome_bind]. set (body := buf ++ replicate j _).
  set (sign := sign_char sg neg (flags c)). set (x := if _ && negb (value =? 0) then x_char b else 0).
  set (pad := if _ <? 0 then 0 else _).
  exists (if Z.land (flags c) (Z.lor MINUS ZERO) =? 0 then Z.to_nat pad else 0%nat),
    (if has (flags c) ZERO then Z.to_nat pad else 0%nat), (if has (flags c) MINUS then Z.to_nat pad else 0%nat), j,
    (if negb (x =? 0) then [ch "0"; x] else []), (rev body), ds.
  split; [|split; [|split; [done|split; [done|split; [|split; [|split; [done|split; [|cbv zeta; split]]]]]]]].
  - f_equal. unfold output_dup. destruct (sign =? 0); cbn [negb]; repeat case_match; by rewrite ?app_nil_r.
  - unfold x. destruct (_ && negb (value =? 0)); [|by left]. destruct (Z.eqb_spec (x_char b) 0); [by left|by right].
  - unfold body. by rewrite rev_pad, filter_app, filter_zeros, filter_rev, Hf.
  - intros G. unfold body. by rewrite rev_pad, (Hg G).
  - intros P G. rewrite Hjk by (unfold q; by rewrite P). rewrite (Hg G), length_fmap in Hpr. fold pr. lia.
  - rewrite length_rev. destruct (pad_somewhere (flags c)) as [-> | [-> | ->]]; cbn [Z.eqb];
      unfold pad; destruct (sign =? 0), (x =? 0); cbn [negb length]; repeat case_match; lia.
  - intros HZ HM. rewrite HZ, HM, length_rev. rewrite (proj2 (Z.eqb_neq _ _)).
    + do 2 (split; [done|]). unfold pad. destruct (sign =? 0), (x =? 0); cbn [negb length]; repeat case_match; lia.
    + unfold has in *. rewrite Z.land_lor_distr_r, Z.lor_eq_0_iff. intros [_ E]. by rewrite E in HZ.
Qed.

(** ** Printing and parsing decimal numbers *)

Lemma digit_char_d d : 0 <= d < 10 → digit_char base_d d = 48 + d.
Proof.
  intros Hd. assert (d = 0 ∨ d = 1 ∨ d = 2 ∨ d = 3 ∨ d = 4 ∨ d = 5 ∨ d = 6 ∨ d = 7 ∨ d = 8 ∨ d = 9) as H by lia.
  by repeat (destruct H as [-> | H]; [done|]); subst.
Qed.

(** Digits from the highest on, after [a]. *)
Definition big_endian (a : Z) (ds : list Z) : Z := foldl (λ a d, 10 * a + d) a ds.

Lemma big_endian_rev ds : big_endian 0 (rev ds) = from_digits 10 ds.
Proof.
  unfold big_endian. induction ds as [|d ds IH]; [done|]. cbn [rev from_digits foldr]. rewrite foldl_app, IH. cbn.
  unfold from_digits. lia.
Qed.

Lemma big_endian_ge a ds : 0 <= a → Forall (λ d, 0 <= d < 10) ds → a <= big_endian a ds.
Proof.
  intros Ha Hds. revert a Ha. induction Hds as [|d ds Hd _ IH]; intros a Ha; [done|]. cbn. specialize (IH (10 * a + d)).
  unfold big_endian in IH. lia.
Qed.

Lemma atoi_digits_num ds rest a :
  Forall (λ d, 0 <= d < 10) ds → 0 <= a → big_endian a ds <= 2147483648 →
  atoi_digits ((digit_char base_d <$> ds) ++ rest) (- a) = atoi_digits rest (- big_endian a ds).
Proof.
  intros Hds. revert a. induction Hds as [|d ds Hd Hds IH]; intros a Ha Hle; [done|]. cbn [fmap list_fmap app atoi_digits].
  rewrite digit_char_d by done. change (ch "0") with 48.
  pose proof (big_endian_ge (10 * a + d) ds ltac:(lia) Hds) as Hge. cbn [big_endian foldl] in Hle.
  fold (big_endian (10 * a + d) ds) in Hle. unfold isdigit. change (ch "0") with 48. change (ch "9") with 57.
  rewrite !(proj2 (Z.leb_le _ _)) by lia. cbn [andb]. rewrite (i32_small (- a * 10)) by lia. rewrite i32_small by lia.
  replace (- a * 10 - (48 + d - 48)) with (- (10 * a + d)) by lia. by rewrite IH by lia.
Qed.

Lemma atoi_digits_zeros k rest : atoi_digits (replicate k (ch "0") ++ rest) 0 = atoi_digits rest 0.
Proof. induction k as [|k IH]; [done|]. apply IH. Qed.

Lemma atoi_digits_spaces k a : atoi_digits (replicate k (ch " ")) a = a.
Proof. by destruct k. Qed.

Lemma skip_spaces k rest : skip_space (replicate k (ch " ") ++ rest) = skip_space rest.
Proof. induction k as [|k IH]; [done|]. apply IH. Qed.

Lemma fmap_rev {A B} (f : A → B) l : f <$> rev l = rev (f <$> l).
Proof. induction l as [|x l IH]; [done|]. cbn [rev]. by rewrite fmap_app, IH. Qed.

(** The digits of a number, with leading zeros and trailing spaces. *)
Lemma atoi_digits_ok j ds p v :
  Forall (λ d, 0 <= d < 10) ds → from_digits 10 ds = v → v <= 2147483648 →
  atoi_digits (replicate j (ch "0") ++ rev (digit_char base_d <$> ds) ++ replicate p (ch " ")) 0 = - v.
Proof.
  intros Hds Hv Hle. rewrite atoi_digits_zeros, <- fmap_rev. rewrite <- big_endian_rev in Hv.
  rewrite (atoi_digits_num (rev ds) _ 0); [by rewrite atoi_digits_spaces, Hv|by apply Forall_rev|lia|lia].
Qed.

Lemma skip_digits j ds p :
  Forall (λ d, 0 <= d < 10) ds →
  let l := replicate j (ch "0") ++ rev (digit_char base_d <$> ds) ++ replicate p (ch " ") in
  let s := skip_space l in atoi_digits s 0 = atoi_digits l 0 ∧ cur s ≠ ch "+" ∧ cur s ≠ ch "-".
Proof.
  intros Hds. cbv zeta. destruct j as [|j]; [|done]. cbn [replicate app]. rewrite <- fmap_rev.
  assert (Forall (λ d, 0 <= d < 10) (rev ds)) as Hr by (by apply List.Forall_rev).
  destruct (rev ds) as [|d r]; cbn [fmap list_fmap app].
  - rewrite <- (app_nil_r (replicate p _)). rewrite skip_spaces. rewrite app_nil_r, atoi_digits_spaces. done.
  - apply Forall_cons in Hr as [Hd _]. rewrite digit_char_d by done.
    assert (Hsp : isspace (48 + d) = false).
    { unfold isspace. change (ch " ") with 32. rewrite !(proj2 (Z.eqb_neq _ _)) by lia. done. }
    cbn [skip_space]. rewrite Hsp. change (ch "+") with 43. change (ch "-") with 45. cbn [cur]. split; [done|lia].
Qed.

(** atoi() reads back what an integer conversion without grouping prints. *)
Lemma atoi_format c v :
  has c.(flags) GROUP = false → is_i32 v →
  ∃ out, format_integer (Z.abs v) true (v <? 0) base_d c = Ok out ∧ atoi out = v.
Proof.
  intros Hg Hv. destruct bases_ok as [Hb _].
  destruct (format_integer_shape (Z.abs v) true (v <? 0) base_d c Hb ltac:(lia))
    as (p1 & p2 & p3 & k & x & body & ds & -> & Hx & Hds & Hval & _ & Hbody & _).
  destruct Hx as [-> | [Hx _]]; [|done]. rewrite (Hbody Hg). clear body Hbody. change (base base_d) with 10 in *.
  eexists. split; [done|]. set (sign := sign_char _ _ _).
  set (l := replicate (p2 + k) (ch "0") ++ rev (digit_char base_d <$> ds) ++ replicate p3 (ch " ")).
  match goal with |- atoi ?o = _ => replace o with (replicate p1 (ch " ") ++ (if sign =? 0 then [] else [sign]) ++ l)
    by (unfold l; rewrite replicate_add; by rewrite <- !app_assoc) end.
  assert (Hl : atoi_digits l 0 = - Z.abs v) by (apply atoi_digits_ok; [done|done|lia]).
  destruct (skip_digits (p2 + k) ds p3 Hds) as (Hs & Hplus & Hminus). fold l in Hs, Hplus, Hminus.
  assert (Hsig : v < 0 ∧ sign = ch "-" ∨ 0 <= v ∧ (sign = ch "+" ∨ sign = ch " " ∨ sign = 0)).
  { unfold sign, sign_char. destruct (Z.ltb_spec v 0); [left|right]; (split; [done|]); repeat case_match; auto. }
  unfold atoi. rewrite skip_spaces.
  destruct Hsig as [[Hn ->] | [Hn [-> | [-> | ->]]]].
  - change (skip_space _) with (ch "-" :: l). change (atoi_digits l 0 = v). lia.
  - change (skip_space _) with (ch "+" :: l). change (i32 (- atoi_digits l 0) = v). rewrite Hl, i32_small; lia.
  - change (skip_space _) with (skip_space l). rewrite !(proj2 (Z.eqb_neq _ _)) by done. cbn [orb].
    rewrite Hs, Hl, i32_small; lia.
  - change (skip_space _) with (skip_space l). rewrite !(proj2 (Z.eqb_neq _ _)) by done. cbn [orb].
    rewrite Hs, Hl, i32_small; lia.
Qed.

Lemma i32_of_u32 v : is_i32 v → i32 (u32 v) = v.
Proof. intros Hv. unfold i32, u32. case_match; zdm. Qed.

Lemma u64_abs v : is_i32 v → u64 (if v <? 0 then i64 (- v) else v) = Z.abs v.
Proof. intros Hv. destruct (Z.ltb_spec v 0); [rewrite i64_small by lia|]; rewrite u64_small; lia. Qed.

(** ** Termination *)

(** An outcome that the fuel does not decide. *)
Definition decided {A} (o : outcome A) : Prop := o ≠ NoFuel ∧ o ≠ Panic.

Lemma decided_bind {A B} (o : outcome A) (f : A → outcome B) :
  decided o → (∀ a, o = Ok a → decided (f a)) → decided (o ≫= f).
Proof. intros [Hn Hp] Hf. destruct o; [by apply Hf|done..]. Qed.

Lemma decided_Ok {A} (a : A) : decided (Ok a).
Proof. done. Qed.

Lemma decided_Wild {A} : decided (@Wild A).
Proof. done. Qed.

#[local] Hint Resolve decided_Ok decided_Wild : pintos.

Lemma parse_flags_length f fl : (length (parse_flags f fl).2 <= length f)%nat.
Proof. revert fl. induction f as [|c f IH]; intros fl; [done|]. cbn [parse_flags]. destruct (flag_of c); [|done]. cbn. etrans; [apply IH|lia]. Qed.

Lemma parse_number_length f n : (length (parse_number f n).2 <= length f)%nat.
Proof. revert n. induction f as [|c f IH]; intros n; [done|]. cbn [parse_number]. destruct (isdigit c); [|done]. cbn. etrans; [apply IH|lia]. Qed.

Lemma tail_length {A} (f : list A) : (length (tail f) <= length f)%nat.
Proof. destruct f; cbn; lia. Qed.

Abbreviation arg_words l := (Forall (λ w, is_u32 w) l).

(** An outcome that cannot be, or a wild one. *)
Ltac stuck := match goal with H : decided _ |- _ => by destruct H | |- _ => by split end.

(** What the parsing steps leave: no more characters, and arguments of words. *)
Lemma va_word_ok args : arg_words args → decided (va_word args) ∧ ∀ w l, va_word args = Ok (w, l) → is_u32 w ∧ arg_words l.
Proof. intros Hw. destruct args as [|x k]; cbn; [by split|]. apply Forall_cons in Hw. split; [done|]. by intros w l [= <- <-]. Qed.

Lemma va_word2_ok args : arg_words args → decided (va_word2 args) ∧ ∀ w l, va_word2 args = Ok (w, l) → is_u64 w ∧ arg_words l.
Proof.
  intros Hw. destruct args as [|x [|y k]]; cbn; [by split..|]. rewrite !Forall_cons in Hw. destruct Hw as (Hx & Hy & Hk).
  split; [done|]. intros w l [= <- <-]. split; [lia|done].
Qed.

Lemma parse_width_ok f fl args :
  arg_words args → decided (parse_width f fl args) ∧
  ∀ w fl' f' args', parse_width f fl args = Ok (w, fl', f', args') → (length f' <= length f)%nat ∧ arg_words args'.
Proof.
  intros Hw. unfold parse_width. destruct (cur f =? ch "*").
  - destruct (va_word_ok args Hw) as [Hd Hok]. destruct (va_word args) as [[w l]| | |]; [|stuck..]. cbn.
    destruct (Hok w l eq_refl) as [_ Hl]. split; [done|]. pose proof (tail_length f).
    by destruct (i32 w <? 0); intros ? ? ? ? [= _ _ <- <-].
  - pose proof (parse_number_length f 0) as Hl. destruct (parse_number f 0) as [w f']. cbn in *. split; [done|].
    by destruct (w <? 0); intros ? ? ? ? [= _ _ <- <-].
Qed.

Lemma parse_precision_ok f args :
  arg_words args → decided (parse_precision f args) ∧
  ∀ p f' args', parse_precision f args = Ok (p, f', args') → (length f' <= length f)%nat ∧ arg_words args'.
Proof.
  intros Hw. unfold parse_precision. destruct (cur f =? ch "."); [|split; [done|by intros ? ? ? [= _ <- <-]]].
  pose proof (tail_length f) as Ht. destruct (cur (tail f) =? ch "*").
  - destruct (va_word_ok args Hw) as [Hd Hok]. destruct (va_word args) as [[w l]| | |]; [|stuck..]. cbn.
    destruct (Hok w l eq_refl) as [_ Hl]. split; [done|]. pose proof (tail_length (tail f)).
    intros ? ? ? [= _ <- <-]. split; [lia|done].
  - pose proof (parse_number_length (tail f) 0) as Hl. destruct (parse_number (tail f) 0) as [w f']. cbn in *. split; [done|].
    intros ? ? ? [= _ <- <-]. split; [lia|done].
Qed.

Lemma parse_type_length f : (length (parse_type f).2 <= length f)%nat.
Proof.
  unfold parse_type. pose proof (tail_length f). pose proof (tail_length (tail f)). repeat case_match; cbn; lia.
Qed.

Lemma parse_conversion_ok f args :
  arg_words args → decided (parse_conversion f args) ∧
  ∀ c f' args', parse_conversion f args = Ok (c, f', args') → (length f' <= length f)%nat ∧ arg_words args'.
Proof.
  intros Hw. unfold parse_conversion. pose proof (parse_flags_length f 0) as H1. destruct (parse_flags f 0) as [fl f1]. cbn in H1.
  set (fl' := if has _ PLUS then _ else _). destruct (parse_width_ok f1 fl' args Hw) as [D1 P1].
  destruct (parse_width f1 fl' args) as [[[[w fl2] f2] a2]| | |]; [|stuck..]. cbn [mbind outcome_bind].
  destruct (P1 _ _ _ _ eq_refl) as [H2 Hw2]. destruct (parse_precision_ok f2 a2 Hw2) as [D2 P2].
  destruct (parse_precision f2 a2) as [[[p f3] a3]| | |]; [|stuck..]. cbn [mbind outcome_bind].
  destruct (P2 _ _ _ eq_refl) as [H3 Hw3]. pose proof (parse_type_length f3) as H4. destruct (parse_type f3) as [t f4]. cbn in H4.
  split; [done|]. intros ? ? ? [= _ <- <-]. split; [lia|done].
Qed.

Lemma format_integer_decided value sg neg b c : base_ok b → is_u64 value → decided (format_integer value sg neg b c).
Proof.
  intros Hb Hv. destruct (format_integer_shape value sg neg b c Hb Hv) as (p1 & p2 & p3 & k & x & body & ds & -> & _). done.
Qed.

Lemma signed_arg_ok t args :
  arg_words args → decided (signed_arg t args) ∧
  ∀ v l, signed_arg t args = Ok (v, l) → arg_words l.
Proof.
  intros Hw. destruct (va_word_ok args Hw) as [D1 P1], (va_word2_ok args Hw) as [D2 P2].
  destruct t; cbn [signed_arg]; match goal with
    | |- context [va_word2] => clear D1 P1; destruct (va_word2 args) as [[w l]| | |]
    | |- _ => clear D2 P2; destruct (va_word args) as [[w l]| | |] end; try stuck; cbn; (split; [done|]); intros ? ? [= _ <-]; naive_solver.
Qed.

Lemma unsigned_arg_ok t args :
  arg_words args → decided (unsigned_arg t args) ∧
  ∀ v l, unsigned_arg t args = Ok (v, l) → is_u64 v ∧ arg_words l.
Proof.
  intros Hw. destruct (va_word_ok args Hw) as [D1 P1], (va_word2_ok args Hw) as [D2 P2].
  destruct t; cbn [unsigned_arg]; try (by split); clear D2 P2; (destruct (va_word args) as [[w l]| | |]; [|stuck..]);
    cbn; (split; [done|]); intros ? ? [= <- <-]; destruct (P1 w l eq_refl) as [Hr Hl]; (split; [|done]).
  all: try (unfold u8, u16; zdm); try lia. change (Z.lor _ 1) with (Z.ones 32). rewrite Z.land_ones by lia. cbn. zdm.
Qed.

Lemma load_bytes_decided m p n : decided (load_bytes m p n).
Proof.
  revert p. induction n as [|n IH]; intros p; [done|]. cbn [load_bytes]. apply decided_bind.
  - unfold load8. by destruct (m !! _).
  - intros b _. by apply decided_bind; [apply IH|].
Qed.

(** The messages for conversions that are not supported. *)
Lemma bad_conversion n m conv :
  (24 < n)%nat → decided (vprintf_loop n m (lit "<<no %%%c in kernel>>") [conv]) ∧
  decided (vprintf_loop n m (lit "<<no %%%c conversion>>") [conv]).
Proof. intros Hn. do 25 (destruct n as [|n]; [lia|]). done. Qed.

(** A conversion that ends in the output of [o]. *)
Lemma out_args_ok (o : outcome (list Z)) (g : list Z → list Z) (l : list Z) :
  decided o → arg_words l →
  decided (out ← o; Ok (g out, l)) ∧ ∀ out l', (out ← o; Ok (g out, l)) = Ok (out, l') → arg_words l'.
Proof. intros Hd Hl. destruct o; [|stuck..]. cbn. split; [done|]. by intros ? ? [= _ <-]. Qed.

Lemma convert_decided n m c conv args :
  (∀ s k, decided (strnlen m s k)) → (24 < n)%nat → arg_words args →
  decided (convert (vprintf_loop n m) m c conv args) ∧
  ∀ out l, convert (vprintf_loop n m) m c conv args = Ok (out, l) → arg_words l.
Proof.
  intros Hstr Hn Hw. destruct bases_ok as (Bd & Bo & Bx & BX). unfold convert.
  destruct (_ || (conv =? ch "i")).
  { destruct (signed_arg_ok (type c) args Hw) as [D P]. destruct (signed_arg (type c) args) as [[v l]| | |]; [|stuck..].
    cbn [mbind outcome_bind]. apply (out_args_ok _ (λ o, o)); [|by eapply P]. apply format_integer_decided; [done|]. apply u64_range. }
  destruct (_ || (conv =? ch "X")).
  { destruct (unsigned_arg_ok (type c) args Hw) as [D P]. destruct (unsigned_arg (type c) args) as [[v l]| | |]; [|stuck..].
    cbn [mbind outcome_bind]. destruct (P v l eq_refl) as [Hv Hl]. apply (out_args_ok _ (λ o, o)); [|done].
    apply format_integer_decided; [|done]. repeat case_match; done. }
  destruct (va_word_ok args Hw) as [D P]. destruct (bad_conversion n m conv Hn) as [B1 B2].
  repeat match goal with
  | |- context [if ?b then _ else _] =>
      match b with context [conv =? _] => destruct b end
  end.
  - destruct (va_word args) as [[w l]| | |]; [|stuck..]. cbn [mbind outcome_bind]. split; [done|].
    intros ? ? [= _ <-]. by destruct (P w l eq_refl).
  - destruct (va_word args) as [[w l]| | |]; [|stuck..]. cbn [mbind outcome_bind]. destruct (P w l eq_refl) as [_ Hl].
    apply (out_args_ok (string_arg m w (precision c)) (λ o, format_string o c)); [|done]. unfold string_arg.
    destruct (w =? NUL); [done|]. apply decided_bind; [apply Hstr|]. intros. apply load_bytes_decided.
  - destruct (va_word args) as [[w l]| | |]; [|stuck..]. cbn [mbind outcome_bind]. destruct (P w l eq_refl) as [Hr Hl].
    apply (out_args_ok _ (λ o, o)); [|done]. apply format_integer_decided; [done|lia].
  - by apply (out_args_ok _ (λ o, o)).
  - by apply (out_args_ok _ (λ o, o)).
Qed.

Lemma vprintf_loop_decided m n f args :
  (∀ s k, decided (strnlen m s k)) → arg_words args → (length f + 30 < n)%nat → decided (vprintf_loop n m f args).
Proof.
  intros Hstr. revert f args. induction n as [|n IH]; intros f args Hw Hn; [lia|]. destruct f as [|c f]; [done|].
  cbn [vprintf_loop]. cbn [length] in Hn. destruct (negb (c =? ch "%")).
  { apply decided_bind; [apply IH; [done|lia]|done]. }
  pose proof (tail_length f). destruct (cur f =? ch "%").
  { apply decided_bind; [apply IH; [done|lia]|done]. }
  destruct (parse_conversion_ok f args Hw) as [D P]. destruct (parse_conversion f args) as [[[cv f'] a]| | |]; [|stuck..].
  cbn [mbind outcome_bind]. destruct (P _ _ _ eq_refl) as [Hl Ha].
  destruct (convert_decided n m cv (cur f') a Hstr ltac:(lia) Ha) as [D2 P2].
  destruct (convert (vprintf_loop n m) m cv (cur f') a) as [[out a']| | |]; [|stuck..]. cbn [mbind outcome_bind].
  destruct f' as [|c' f']; [done|]. apply decided_bind; [|done]. apply IH; [by eapply P2|]. cbn in Hl. lia.
Qed.

Lemma loop_no_panic {S R} fuel (body : S → outcome (S + R)) s : (∀ s, body s ≠ Panic) → loop fuel body s ≠ Panic.
Proof.
  intros Hb. revert s. induction fuel as [|fuel IH]; intros s; [done|]. cbn [loop]. specialize (Hb s).
  destruct (body s) as [[s'|r]| | |]; [apply IH|done..].
Qed.

(** Formatted output comes to an end for every format and every arguments: the
    loop of __vprintf() always advances, the message for an unknown conversion has
    only known ones, and no integer conversion overruns its 64-byte buffer or
    trips a check.  What remains is reading past the arguments, a string or the
    format. *)
Theorem vprintf_terminates (m : mem) (f args : list Z) :
  (∀ s k, strnlen m s k ≠ NoFuel) → Forall (λ w, is_u32 w) args →
  vprintf m f args = Wild ∨ ∃ out, vprintf m f args = Ok out.
Proof.
  intros Hstr Hw.
  assert (Hs : ∀ s k, decided (strnlen m s k)).
  { intros s k. split; [done|]. apply loop_no_panic. intros i. unfold load8. destruct (m !! _); cbn; [|done]. by case_match. }
  destruct (vprintf_loop_decided m (vprintf_fuel f) f args Hs Hw ltac:(unfold vprintf_fuel; lia)) as [H1 H2].
  unfold vprintf. destruct (vprintf_loop _ m f args); eauto; done.
Qed.

Lemma vprintf_terminates_witness :
  vprintf ∅ (lit "%5d %q%s") [7; 0] = Ok (lit "    7 <<no %q conversion>>(null)") ∧
  (vprintf ∅ (lit "100%") [] = Wild ∨ ∃ out, vprintf ∅ (lit "100%") [] = Ok out).
Proof.
  split; [by vm_compute|]. apply vprintf_terminates; [|constructor]. intros s k. unfold strnlen, string_fuel, load8.
  cbn [loop]. by rewrite lookup_empty.
Defined.

(** Characters that are not conversions are copied. *)
Lemma vprintf_plain n m p f args :
  Forall (λ c, c ≠ ch "%") p →
  vprintf_loop (length p + n) m (p ++ f) args = (out ← vprintf_loop n m f args; Ok (p ++ out)).
Proof.
  induction 1 as [|c p Hc _ IH]; [cbn [length app Nat.add]; by destruct (vprintf_loop n m f args)|].
  cbn [length app Nat.add vprintf_loop]. rewrite (proj2 (Z.eqb_neq _ _)) by done. cbn [negb]. rewrite IH.
  by destruct (vprintf_loop n m f args).
Qed.

(** A %u conversion between plain characters. *)
Lemma vprintf_u m p q v :
  Forall (λ c, c ≠ ch "%") p → Forall (λ c, c ≠ ch "%") q → is_u32 v → ∃ out, vprintf m (p ++ lit "%u" ++ q) [v] = Ok out.
Proof.
  intros Hp Hq Hv. unfold vprintf, vprintf_fuel. rewrite !length_app.
  replace (length p + (length (lit "%u") + length q) + 32)%nat with (length p + S (S (length q + S 31)))%nat by (cbn; lia).
  rewrite vprintf_plain by done. destruct bases_ok as (Bd & _).
  destruct (format_integer_shape v false false base_d (mk_conv 0 0 (-1) INT) Bd ltac:(lia)) as (p1 & p2 & p3 & k & x & body & ds & E & _).
  set (o := _ ++ _) in E. clearbody o.
  assert (vprintf_loop (S (S (length q + S 31))) m (lit "%u" ++ q) [v] =
    (rest ← vprintf_loop (S (length q + S 31)) m q []; Ok (o ++ rest))) as ->.
  { cbn [lit app vprintf_loop]. change (negb (ch "%" =? ch "%")) with false. cbn [cur].
    change (ch "u" =? ch "%") with false. cbv iota.
    change (parse_conversion (ch "u" :: q) [v]) with (Ok (mk_conv 0 0 (-1) INT, ch "u" :: q, [v])). cbn [mbind outcome_bind cur].
    unfold convert. change ((ch "u" =? ch "d") || (ch "u" =? ch "i")) with false.
    change ((ch "u" =? ch "o") || (ch "u" =? ch "u") || (ch "u" =? ch "x") || (ch "u" =? ch "X")) with true. cbv iota.
    unfold unsigned_arg. cbn [type va_word mbind outcome_bind]. change (ch "u" =? ch "o") with false.
    change (ch "u" =? ch "u") with true. cbv iota zeta. rewrite E. done. }
  rewrite <- (app_nil_r q). replace (S (length (q ++ []) + S 31))%nat with (length q + 33)%nat by (rewrite app_nil_r; lia).
  rewrite vprintf_plain by done. cbn. eauto.
Qed.

(** A format that is one %o conversion. *)
Lemma vprintf_octal m f args rest c v out :
  parse_conversion f args = Ok (c, [ch "o"], v :: rest) → cur f ≠ ch "%" → c.(type) = INT →
  format_integer v false false base_o c = Ok out → vprintf m (ch "%" :: f) args = Ok out.
Proof.
  intros E Hf Ht Eo. unfold vprintf.
  replace (vprintf_fuel (ch "%" :: f)) with (S (S (length f + 31))) by (unfold vprintf_fuel; cbn [length]; lia).
  cbn [vprintf_loop]. rewrite Z.eqb_refl. cbn [negb]. rewrite (proj2 (Z.eqb_neq _ _)) by done. rewrite E. cbn [mbind outcome_bind].
  unfold convert. cbn [cur]. change ((ch "o" =? ch "d") || (ch "o" =? ch "i")) with false. rewrite Z.eqb_refl. cbn [orb].
  unfold unsigned_arg. rewrite Ht. cbn [va_word mbind outcome_bind]. rewrite Eo. cbn. by rewrite app_nil_r.
Qed.



(** ** Output to a buffer *)

Lemma helper_calls_ok out m p len max :
  0 <= len → len + Z.of_nat (length out) < 2147483648 → block m p (Z.max 0 (max - len) + 1) →
  let w := take (Z.to_nat (max - len)) out in
  helper_calls out (mk_aux p len max) m =
    Ok (mk_aux (p + Z.of_nat (length w)) (len + Z.of_nat (length out)) max, write_bytes m p (u8 <$> w)).
Proof.
  revert m p len. induction out as [|c out IH]; intros m p len Hlen Hmax Hblk; cbv zeta; cbn [helper_calls length] in *.
  - rewrite take_nil. cbn. by rewrite !Z.add_0_r.
  - pose proof Hblk as (Hp & Hend & Hm). unfold vsnprintf_helper. cbn [aux_p aux_length aux_max].
    rewrite (i32_small (len + 1)) by lia. destruct (Z.ltb_spec len max) as [Hlt | Hge].
    + assert (is_Some (m !! p)) as Hpm by (specialize (Hm 0 ltac:(lia)); by rewrite Z.add_0_r in Hm).
      assert (block (<[p := u8 c]> m) (p + 1) (Z.max 0 (max - (len + 1)) + 1)) as Hblk'.
      { split; [lia|]. split; [lia|]. intros i Hi. rewrite lookup_insert_ne by lia.
        replace (p + 1 + i) with (p + (1 + i)) by lia. apply Hm. lia. }
      rewrite (run_bind _ _ m (mk_aux (p + 1) (len + 1) max) (<[p := u8 c]> m)).
      2:{ rewrite (run_bind _ _ _ _ _ (store8_ok m p c ltac:(lia) Hpm)). by rewrite u32_small by lia. }
      rewrite IH by (done || lia). replace (Z.to_nat (max - len)) with (S (Z.to_nat (max - (len + 1)))) by lia.
      cbn [take length fmap list_fmap write_bytes]. do 3 f_equal; lia.
    + rewrite (run_bind _ _ m (mk_aux p (len + 1) max) m) by done.
      rewrite IH; [|lia|lia|split; [lia|split; [lia|]]; intros i Hi; apply Hm; lia].
      replace (Z.to_nat (max - (len + 1))) with 0%nat by lia. replace (Z.to_nat (max - len)) with 0%nat by lia.
      cbn [take length fmap list_fmap write_bytes]. do 3 f_equal; lia.
Qed.

(** C29: vsnprintf() writes the first BUF_SIZE - 1 characters of the formatted text
    and a null byte after them, touches nothing outside of the buffer, and returns
    the length of the whole text. *)
Theorem vsnprintf_bounded (m : mem) (buffer buf_size : Z) (f args out : list Z) :
  0 < buf_size <= 2147483648 → block m buffer buf_size → vprintf m f args = Ok out →
  Z.of_nat (length out) < 2147483648 →
  vsnprintf buffer buf_size f args m =
    Ok (Z.of_nat (length out), write_bytes m buffer ((u8 <$> take (Z.to_nat (buf_size - 1)) out) ++ [0])) ∧
  ∀ a, ¬ buffer <= a < buffer + buf_size →
    write_bytes m buffer ((u8 <$> take (Z.to_nat (buf_size - 1)) out) ++ [0]) !! a = m !! a.
Proof.
  intros Hsz Hblk E Hout. pose proof Hblk as (Hp & Hend & Hm). split.
  - unfold vsnprintf. rewrite (run_reads _ _ _ _ E). rewrite (proj2 (Z.ltb_lt _ _)) by lia.
    rewrite i32_small by lia.
    rewrite (run_bind _ _ _ _ _ (helper_calls_ok out m buffer 0 (buf_size - 1) ltac:(lia) ltac:(lia)
      ltac:(by replace (Z.max 0 (buf_size - 1 - 0) + 1) with buf_size by lia))).
    rewrite Z.sub_0_r. set (w := take _ out). cbn [aux_p aux_length when].
    assert (Hw : 0 <= Z.of_nat (length w) <= buf_size - 1) by (unfold w; rewrite length_take; lia).
    rewrite (run_bind _ _ _ tt (write_bytes m buffer ((u8 <$> w) ++ [0]))); [by rewrite Z.add_0_l|].
    rewrite store8_ok; [by rewrite write_bytes_app, length_fmap|lia|].
    rewrite write_bytes_lookup. case_decide; [apply lookup_lt_is_Some_2; lia|]. apply Hm. lia.
  - intros a Ha. rewrite write_bytes_lookup, decide_False; [done|]. rewrite length_app, length_fmap, length_take. cbn [length]. lia.
Qed.

Lemma vsnprintf_bounded_witness :
  ∃ m', vsnprintf 8 4 (lit "%d!") [12345] demo_mem = Ok (6, m') ∧ bytes_at m' 8 (lit "123" ++ [0]).
Proof.
  destruct (vsnprintf_bounded demo_mem 8 4 (lit "%d!") [12345] (lit "12345!")) as [E _]; try done.
  { split; [done|]. split; [done|]. intros i Hi. assert (i = 0 ∨ i = 1 ∨ i = 2 ∨ i = 3) as [-> | [-> | [-> | ->]]] by lia;
      by apply (bool_decide_unpack _); vm_compute. }
  rewrite E. eexists. split; [done|]. apply write_bytes_at.
Defined.
