(* ===== verification/Ustar.v ===== *)
(** * Tar archives: lib/ustar.c

    A header is its 512 bytes; a file name is the sequence of its characters up to
    the null byte.  The octal fields are written by the model of snprintf(). *)

From Stdlib Require Import Ascii String.
From S2P Require Import Prelude CString Stdio.

Open Scope Z_scope.

(** ** Definitions *)

Definition USTAR_REGULAR : Z := ch "0".
Definition USTAR_DIRECTORY : Z := ch "5".
Definition USTAR_EOF : Z := -1.
Definition USTAR_HEADER_SIZE : Z := 512.

(** The fields of struct ustar_header: where they start and their sizes. *)
Record field := mk_field { f_ofs : nat; f_size : nat }.
Definition name := mk_field 0 100.
Definition mode := mk_field 100 8.
Definition uid := mk_field 108 8.
Definition gid := mk_field 116 8.
Definition size := mk_field 124 12.
Definition mtime := mk_field 136 12.
Definition chksum := mk_field 148 8.
Definition typeflag := mk_field 156 1.
Definition magic := mk_field 257 6.
Definition version := mk_field 263 2.
Definition uname := mk_field 265 32.
Definition gname := mk_field 297 32.
Definition prefix := mk_field 345 155.

Definition get_field (h : list Z) (f : field) : list Z := take f.(f_size) (drop f.(f_ofs) h).

(** Writing bytes at the start of a field. *)
Definition put_field (h : list Z) (f : field) (bs : list Z) : list Z :=
  take f.(f_ofs) h ++ bs ++ drop (f.(f_ofs) + length bs) h.

Definition in_chksum (i : nat) : bool := (148 <=? i)%nat && (i <? 156)%nat.

Definition calculate_chksum (h : list Z) : Z :=
  u32 (foldl Z.add 0 (imap (λ i b, if in_chksum i then ch " " else b) h)).

(** What is left after the first slash. *)
Fixpoint after_slash (s : list Z) : list Z :=
  match s with [] => [] | c :: s => if c =? ch "/" then s else after_slash s end.

Definition starts_with (p s : list Z) : bool := bool_decide (take (length p) s = p).

Definition antisocial (s : list Z) : bool :=
  starts_with (lit "/") s || starts_with (lit "./") s || starts_with (lit "../") s.

(** The loop takes at least one character in each turn. *)
Fixpoint strip_loop (fuel : nat) (s : list Z) : list Z :=
  match fuel with
  | O => s
  | S n => if antisocial s then strip_loop n (after_slash s) else s
  end.

Definition strip_antisocial_prefixes (file_name : list Z) : list Z :=
  let s := strip_loop (length file_name) file_name in
  if bool_decide (s = []) || bool_decide (s = lit "..") then lit "." else s.

(** strlcpy() and snprintf() into a field. *)
Definition strlcpy_field (h : list Z) (f : field) (s : list Z) : list Z :=
  put_field h f (take (f.(f_size) - 1) s ++ [0]).
Definition snprintf_field (h : list Z) (f : field) (format : list Z) (arg : Z) : outcome (list Z) :=
  out ← vprintf ∅ format [arg];
  Ok (put_field h f (take (f.(f_size) - 1) out ++ [0])).

(** memset (h, 0, sizeof *h). *)
Definition zero_header : list Z := replicate 512 0.

Definition ustar_make_header (file_name : list Z) (type sz : Z) : outcome (option (list Z)) :=
  ASSERT ((type =? USTAR_REGULAR) || (type =? USTAR_DIRECTORY));;
  let file_name := strip_antisocial_prefixes file_name in
  if (99 <? length file_name)%nat then Ok None
  else
    let h := zero_header in
    let h := strlcpy_field h name file_name in
    h ← snprintf_field h mode (lit "%07o") (if type =? USTAR_REGULAR then 420 else 493);
    let h := strlcpy_field h uid (lit "0000000") in
    let h := strlcpy_field h gid (lit "0000000") in
    h ← snprintf_field h size (lit "%011o") (u32 sz);
    h ← snprintf_field h mtime (lit "%011o") 1136102400;
    let h := put_field h typeflag [type] in
    let h := strlcpy_field h magic (lit "ustar") in
    let h := put_field h version (lit "00") in
    let h := strlcpy_field h gname (lit "root") in
    let h := strlcpy_field h uname (lit "root") in
    h ← snprintf_field h chksum (lit "%07o") (calculate_chksum h);
    Ok (Some h).

(** The field's value, or [None]. *)
Fixpoint parse_octal (s : list Z) (ofs : nat) (value : Z) : option Z :=
  match s with
  | [] => None
  | c :: s =>
      if (ch "0" <=? c) && (c <=? ch "7") then
        if 4294967295 / 8 <? value then None else parse_octal s (S ofs) (u32 (c - ch "0" + value * 8))
      else if (c =? ch " ") || (c =? 0) then if (0 <? ofs)%nat then Some value else None
      else None
  end.

Definition parse_octal_field (h : list Z) (f : field) : option Z := parse_octal (get_field h f) 0 0.

Definition is_all_zeros (block : list Z) : bool := forallb (λ b, b =? 0) block.

(** The string that starts in a field. *)
Fixpoint c_string (s : list Z) : list Z :=
  match s with [] => [] | c :: s => if c =? 0 then [] else c :: c_string s end.

Definition byte_at (h : list Z) (i : nat) : Z := default 0 (h !! i).

(** The file's name, type and size, or the error message. *)
Definition ustar_parse_header (h : list Z) : list Z + option (list Z) * Z * Z :=
  if is_all_zeros h then inr (None, USTAR_EOF, 0)
  else if negb (bool_decide (get_field h magic = lit "ustar" ++ [0])) then inl (lit "not a ustar archive")
  else if negb (byte_at h 263 =? ch "0") || negb (byte_at h 264 =? ch "0") then inl (lit "invalid ustar version")
  else match parse_octal_field h chksum with
  | None => inl (lit "corrupt chksum field")
  | Some c =>
      if negb (c =? calculate_chksum h) then inl (lit "checksum mismatch")
      else if negb (byte_at h 99 =? 0) || negb (byte_at h 345 =? 0) then inl (lit "file name too long")
      else
        let t := byte_at h 156 in
        if negb (t =? USTAR_REGULAR) && negb (t =? USTAR_DIRECTORY) then inl (lit "unimplemented file type")
        else
          match (if t =? USTAR_REGULAR then parse_octal_field h size else Some 0) with
          | None => inl (lit "corrupt file size field")
          | Some n =>
              if (t =? USTAR_REGULAR) && (2147483647 <? n) then inl (lit "file too large")
              else inr (Some (strip_antisocial_prefixes (c_string (get_field h name))), t, n)
          end
  end.

(** ** Octal numbers *)

Lemma from_digits_app0 b ds n : from_digits b (ds ++ replicate n 0) = from_digits b ds.
Proof.
  induction ds as [|d ds IH]; cbn.
  - induction n as [|n IH]; [done|]. cbn. unfold from_digits in IH. rewrite IH. lia.
  - unfold from_digits in IH. by rewrite IH.
Qed.

Lemma digit_char_o d : 0 <= d < 8 → digit_char base_o d = 48 + d.
Proof.
  intros Hd. assert (d = 0 ∨ d = 1 ∨ d = 2 ∨ d = 3 ∨ d = 4 ∨ d = 5 ∨ d = 6 ∨ d = 7) as H by lia.
  by repeat (destruct H as [-> | H]; [done|]); subst.
Qed.

Lemma fmap_digits ds : Forall (λ d, 0 <= d < 8) ds → digit_char base_o <$> ds = Z.add 48 <$> ds.
Proof. induction 1 as [|d ds Hd _ IH]; [done|]. cbn. by rewrite digit_char_o, IH. Qed.

(** What %0WIDTHo prints: WIDTH octal digits. *)
Lemma format_octal w v :
  1 <= w <= 21 → 0 <= v < 8 ^ w →
  ∃ ds, format_integer v false false base_o (mk_conv ZERO w (-1) INT) = Ok (rev (Z.add 48 <$> ds)) ∧
    Z.of_nat (length ds) = w ∧ Forall (λ d, 0 <= d < 8) ds ∧ from_digits 8 ds = v.
Proof.
  intros Hw Hv. destruct bases_ok as (_ & Bo & _). set (c := mk_conv ZERO w (-1) INT).
  assert (v < 8 ^ 21) by (apply (Z.lt_le_trans _ (8 ^ w)); [lia|apply Z.pow_le_mono_r; lia]).
  destruct (format_integer_shape v false false base_o c Bo ltac:(lia))
    as (p1 & p2 & p3 & k & x & body & ds & E & Hx & Hds & Hval & _ & Hbody & Htop & Hk & _ & Hp). rewrite E.
  destruct Hx as [-> | [Hx _]]; [|done]. specialize (Hbody eq_refl). specialize (Hk eq_refl eq_refl).
  destruct (Hp eq_refl eq_refl) as (-> & -> & Hlen). cbn in Hlen. change (base base_o) with 8 in *. change (width c) with w in Hlen.
  change (if precision c <? 0 then 1 else precision c) with 1 in Hk.
  assert (Hd : Z.of_nat (length ds) <= w).
  { destruct Htop as [-> | Ht]; [cbn; lia|]. apply Z.lt_succ_r, Z.lt_pred_lt_succ.
    apply (Z.pow_lt_mono_r_iff 8); lia. }
  subst body. rewrite !length_app, length_replicate, length_rev, length_fmap in Hlen.
  exists (ds ++ replicate (k + p2) 0). rewrite fmap_app, fmap_replicate, rev_pad, length_app, length_replicate.
  split; [|split; [lia|split; [|by rewrite from_digits_app0]]].
  - f_equal. cbn [replicate app]. change (sign_char false false (flags c) =? 0) with true. cbn [app]. rewrite app_nil_r.
    rewrite (Nat.add_comm k), replicate_add, <- app_assoc, (fmap_digits ds Hds). done.
  - apply Forall_app. split; [done|]. by apply Forall_replicate.
Qed.

Lemma printf_octal v :
  (0 <= v < 8 ^ 7 → ∃ ds, vprintf ∅ (lit "%07o") [v] = Ok (rev (Z.add 48 <$> ds)) ∧
     length ds = 7%nat ∧ Forall (λ d, 0 <= d < 8) ds ∧ from_digits 8 ds = v) ∧
  (0 <= v < 8 ^ 11 → ∃ ds, vprintf ∅ (lit "%011o") [v] = Ok (rev (Z.add 48 <$> ds)) ∧
     length ds = 11%nat ∧ Forall (λ d, 0 <= d < 8) ds ∧ from_digits 8 ds = v).
Proof.
  split; intros Hv.
  - destruct (format_octal 7 v ltac:(lia) Hv) as (ds & E & Hl & H). exists ds. split; [|split; [lia|done]].
    by apply (vprintf_octal ∅ (lit "07o") [v] [] (mk_conv ZERO 7 (-1) INT) v).
  - destruct (format_octal 11 v ltac:(lia) Hv) as (ds & E & Hl & H). exists ds. split; [|split; [lia|done]].
    by apply (vprintf_octal ∅ (lit "011o") [v] [] (mk_conv ZERO 11 (-1) INT) v).
Qed.

(** Reading octal digits back. *)
Definition octal_value (a : Z) (ds : list Z) : Z := foldl (λ a d, d + a * 8) a ds.

Lemma octal_value_rev ds : octal_value 0 (rev ds) = from_digits 8 ds.
Proof.
  unfold octal_value. induction ds as [|d ds IH]; [done|]. cbn [rev from_digits foldr]. rewrite foldl_app, IH. cbn.
  unfold from_digits. lia.
Qed.

Lemma octal_value_ge a ds : 0 <= a → Forall (λ d, 0 <= d < 8) ds → a <= octal_value a ds.
Proof.
  intros Ha Hds. revert a Ha. induction Hds as [|d ds Hd _ IH]; intros a Ha; [done|]. cbn. specialize (IH (d + a * 8)).
  unfold octal_value in IH. lia.
Qed.

Lemma parse_octal_ok ds rest n a :
  Forall (λ d, 0 <= d < 8) ds → 0 <= a → octal_value a ds < 4294967296 →
  parse_octal ((Z.add 48 <$> ds) ++ rest) n a = parse_octal rest (n + length ds) (octal_value a ds).
Proof.
  intros Hds. revert n a. induction Hds as [|d ds Hd Hds IH]; intros n a Ha Hlt; cbn [fmap list_fmap app parse_octal length].
  - by rewrite Nat.add_0_r.
  - pose proof (octal_value_ge (d + a * 8) ds ltac:(lia) Hds) as Hge. change (octal_value a (d :: ds)) with (octal_value (d + a * 8) ds) in *.
    change (ch "0") with 48. change (ch "7") with 55. rewrite !(proj2 (Z.leb_le _ _)) by lia. cbn [andb].
    rewrite (proj2 (Z.ltb_ge _ _)) by (change (4294967295 / 8) with 536870911; lia).
    replace (48 + d - 48 + a * 8) with (d + a * 8) by lia. rewrite u32_small by lia. rewrite IH by (done || lia). f_equal. lia.
Qed.

(** A field of octal digits, terminated. *)
Lemma parse_octal_digits ds rest :
  Forall (λ d, 0 <= d < 8) ds → from_digits 8 ds < 4294967296 → ds ≠ [] →
  parse_octal (rev (Z.add 48 <$> ds) ++ 0 :: rest) 0 0 = Some (from_digits 8 ds).
Proof.
  intros Hds Hv Hne. rewrite <- octal_value_rev in *. rewrite <- fmap_rev.
  rewrite parse_octal_ok by (done || by apply List.Forall_rev). rewrite length_rev. cbn. by destruct ds.
Qed.

(** ** Fields *)

(** A header that fields have been written to, in this order. *)
Definition build (puts : list (field * list Z)) (h : list Z) : list Z :=
  foldl (λ h p, put_field h p.1 p.2) h puts.

Lemma build_nil h : build [] h = h.
Proof. done. Qed.

Lemma build_cons f bs l h : build ((f, bs) :: l) h = build l (put_field h f bs).
Proof. done. Qed.

Lemma build_snoc l f bs h : build (l ++ [(f, bs)]) h = put_field (build l h) f bs.
Proof. unfold build. by rewrite foldl_app. Qed.

Definition fits (p : field * list Z) : Prop := (p.1.(f_ofs) + length p.2 <= 512)%nat.

(** Written elsewhere than in [n] bytes at [o]. *)
Definition misses (o n : nat) (p : field * list Z) : Prop :=
  (p.1.(f_ofs) + length p.2 <= o ∨ o + n <= p.1.(f_ofs))%nat.

Lemma put_length h f bs : length h = 512%nat → fits (f, bs) → length (put_field h f bs) = 512%nat.
Proof. intros Hh Hf. unfold fits in Hf. cbn in Hf. unfold put_field. rewrite !length_app, length_take, length_drop. lia. Qed.

Lemma put_lookup h f bs i :
  length h = 512%nat → fits (f, bs) →
  put_field h f bs !! i =
    if decide (f.(f_ofs) <= i < f.(f_ofs) + length bs)%nat then bs !! (i - f.(f_ofs))%nat else h !! i.
Proof.
  intros Hh Hf. unfold fits in Hf. cbn in Hf. unfold put_field. case_decide.
  - rewrite lookup_app_r by (rewrite length_take; lia). rewrite length_take, lookup_app_l by lia. f_equal. lia.
  - destruct (decide (i < f.(f_ofs))%nat).
    + rewrite lookup_app_l by (rewrite length_take; lia). by rewrite lookup_take_lt.
    + rewrite lookup_app_r by (rewrite length_take; lia). rewrite length_take, lookup_app_r by lia.
      rewrite lookup_drop. f_equal. lia.
Qed.

Lemma build_length puts h : length h = 512%nat → Forall fits puts → length (build puts h) = 512%nat.
Proof.
  intros Hh Hp. revert h Hh. induction Hp as [|[f bs] puts Hf _ IH]; intros h Hh; [done|]. by apply IH, put_length.
Qed.

Lemma build_lookup puts h i :
  length h = 512%nat → Forall fits puts → Forall (misses i 1) puts → build puts h !! i = h !! i.
Proof.
  intros Hh Hp. revert h Hh. induction Hp as [|[f bs] puts Hf _ IH]; intros h Hh Hm; [done|].
  apply Forall_cons in Hm as [Hm1 Hm]. change (build ((f, bs) :: puts) h) with (build puts (put_field h f bs)).
  rewrite IH by (done || by apply put_length). rewrite put_lookup, decide_False; [done| |done|done]. unfold misses in Hm1. cbn in *. lia.
Qed.

(** The last bytes written to a place. *)
Lemma build_get l1 f bs l2 h i :
  length h = 512%nat → Forall fits (l1 ++ (f, bs) :: l2) → Forall (misses (f.(f_ofs) + i) 1) l2 → (i < length bs)%nat →
  build (l1 ++ (f, bs) :: l2) h !! (f.(f_ofs) + i)%nat = bs !! i.
Proof.
  intros Hh Hf Hm Hi. apply Forall_app in Hf as [Hf1 [Hf Hf2]%Forall_cons]. unfold build. rewrite foldl_app.
  fold (build l1 h). pose proof (build_length l1 h Hh Hf1) as Hl. set (h1 := build l1 h) in *.
  change (build l2 (put_field h1 f bs) !! (f_ofs f + i)%nat = bs !! i).
  rewrite build_lookup by (done || by apply put_length). rewrite put_lookup, decide_True by (done || lia). f_equal. lia.
Qed.

(** The checksum does not depend on its field. *)
Lemma chksum_put h bs :
  length h = 512%nat → (length bs <= 8)%nat → calculate_chksum (put_field h chksum bs) = calculate_chksum h.
Proof.
  intros Hh Hb. unfold calculate_chksum. do 2 f_equal. apply list_eq. intros i. rewrite !list_lookup_imap.
  rewrite put_lookup by (done || (unfold fits; cbn; lia)). case_decide as Hi; [|done].
  cbn [chksum f_ofs] in Hi. unfold in_chksum. rewrite (proj2 (Nat.leb_le _ _)), (proj2 (Nat.ltb_lt _ _)) by lia.
  destruct (lookup_lt_is_Some_2 bs (i - f_ofs chksum)) as [x ->]; [cbn; lia|]. destruct (lookup_lt_is_Some_2 h i) as [y ->]; [lia|]. done.
Qed.

(** The sum of 512 bytes has at most 7 octal digits. *)
Lemma chksum_range h : length h = 512%nat → Forall (λ b, is_u8 b) h → 0 <= calculate_chksum h < 8 ^ 7.
Proof.
  intros Hh Hb. unfold calculate_chksum. set (l := imap _ h).
  assert (Hl : Forall (λ b, is_u8 b) l ∧ length l = 512%nat).
  { unfold l. split; [|by rewrite length_imap]. apply Forall_lookup. intros i x. rewrite list_lookup_imap.
    destruct (h !! i) as [y|] eqn:E; [|done]. intros [= <-]. destruct (in_chksum i); [done|].
    by eapply Forall_lookup_1 in Hb. }
  assert (Hs : ∀ a l, 0 <= a → Forall (λ b, is_u8 b) l → 0 <= foldl Z.add a l <= a + 255 * Z.of_nat (length l)).
  { intros a l' Ha Hb'. revert a Ha. induction Hb' as [|b l' Hb' _ IH]; intros a Ha; cbn [foldl length]; [lia|].
    specialize (IH (a + b)). lia. }
  destruct Hl as [Hl1 Hl2]. specialize (Hs 0 l ltac:(lia) Hl1). rewrite Hl2 in Hs. rewrite u32_small by lia. lia.
Qed.

(** ** File names *)

Lemma antisocial_slash s : antisocial s = true → (length (after_slash s) < length s)%nat.
Proof.
  assert (H : ∀ s, (length (after_slash s) <= length s)%nat) by (intros t; induction t as [|c r IH]; cbn; [lia|case_match; lia]).
  destruct s as [|c s]; [done|]. intros _. cbn. specialize (H s). case_match; lia.
Qed.

Lemma strip_loop_ok fuel s : (length s <= fuel)%nat → antisocial (strip_loop fuel s) = false.
Proof.
  revert s. induction fuel as [|n IH]; intros s Hs; [by destruct s; cbn in Hs; [|lia]|]. cbn [strip_loop].
  destruct (antisocial s) eqn:E; [|done]. apply IH. pose proof (antisocial_slash s E). lia.
Qed.

(** The loop only drops characters from the front. *)
Lemma strip_loop_suffix fuel s : ∃ p, s = p ++ strip_loop fuel s.
Proof.
  assert (H : ∀ s, ∃ p, s = p ++ after_slash s).
  { intros t. induction t as [|c r (p & E)]; [by exists []|]. cbn. case_match; [by exists [c]|]. exists (c :: p). by rewrite E at 1. }
  revert s. induction fuel as [|n IH]; intros s; [by exists []|]. cbn [strip_loop]. case_match; [|by exists []].
  destruct (H s) as (p & E), (IH (after_slash s)) as (q & E'). exists (p ++ q). rewrite <- app_assoc. by rewrite <- E', <- E.
Qed.

Lemma strip_loop_id fuel s : antisocial s = false → strip_loop fuel s = s.
Proof. intros E. destruct fuel; [done|]. cbn. by rewrite E. Qed.

(** A stripped name. *)
Definition stripped (s : list Z) : Prop := antisocial s = false ∧ s ≠ [] ∧ s ≠ lit "..".

Lemma strip_stripped s : stripped (strip_antisocial_prefixes s).
Proof.
  unfold strip_antisocial_prefixes. pose proof (strip_loop_ok (length s) s ltac:(lia)) as H. set (r := strip_loop _ s) in *.
  destruct (bool_decide_reflect (r = [])); cbn [orb]; [done|]. by destruct (bool_decide_reflect (r = lit "..")).
Qed.

Lemma strip_id s : stripped s → strip_antisocial_prefixes s = s.
Proof.
  intros (H1 & H2 & H3). unfold strip_antisocial_prefixes. rewrite strip_loop_id by done.
  by rewrite !bool_decide_eq_false_2.
Qed.

Lemma strip_chars s : Forall (λ c, 0 < c < 256) s → Forall (λ c, 0 < c < 256) (strip_antisocial_prefixes s).
Proof.
  intros Hs. unfold strip_antisocial_prefixes. destruct (strip_loop_suffix (length s) s) as (p & E). case_match; [by repeat constructor|].
  rewrite E in Hs. by apply Forall_app in Hs as [_ Hs].
Qed.

Lemma c_string_app s rest : Forall (λ c, 0 < c < 256) s → c_string (s ++ 0 :: rest) = s.
Proof. induction 1 as [|c s Hc _ IH]; [done|]. cbn. rewrite (proj2 (Z.eqb_neq _ _)) by lia. by rewrite IH. Qed.

(** ** Headers *)

Lemma zero_header_length : length zero_header = 512%nat.
Proof. done. Qed.

Lemma zero_header_bytes : Forall (λ b, is_u8 b) zero_header.
Proof. by apply Forall_replicate. Qed.

Lemma zero_header_lookup i : (i < 512)%nat → zero_header !! i = Some 0.
Proof. apply lookup_replicate_2. Qed.

#[local] Opaque zero_header.
#[local] Hint Resolve zero_header_length : core.

(** The fields of a header but the checksum. *)
Definition header_puts (n o1 os om : list Z) (type : Z) : list (field * list Z) :=
  [(name, n ++ [0]); (mode, o1 ++ [0]); (uid, lit "0000000" ++ [0]); (gid, lit "0000000" ++ [0]);
   (size, os ++ [0]); (mtime, om ++ [0]); (typeflag, [type]); (magic, lit "ustar" ++ [0]);
   (version, lit "00"); (gname, lit "root" ++ [0]); (uname, lit "root" ++ [0])].

(** Solves what is said of the places of fields. *)
Ltac places :=
  try match goal with p := header_puts _ _ _ _ _ |- _ => unfold p end; unfold header_puts; cbn [app tail take drop];
  repeat (apply Forall_cons; split; [unfold misses, fits; cbn [fst snd]; rewrite ?length_app; cbn; lia|]);
  by apply Forall_nil.

Section header.
  Context (n o1 os om oc : list Z) (type : Z).
  Context (Hn : (length n <= 99)%nat) (H1 : length o1 = 7%nat) (Hs : length os = 11%nat) (Hm : length om = 11%nat)
    (Hc : length oc = 7%nat).

Let puts := header_puts n o1 os om type.
Let h := build (puts ++ [(chksum, oc ++ [0])]) zero_header.

Lemma header_fits : Forall fits (puts ++ [(chksum, oc ++ [0])]).
Proof. places. Qed.

Lemma header_length : length h = 512%nat.
Proof. apply build_length; [done|apply header_fits]. Qed.

(** A field starts with what was written to it. *)
Lemma header_field l1 f bs l2 :
  puts ++ [(chksum, oc ++ [0])] = l1 ++ (f, bs) :: l2 → (length bs <= f.(f_size))%nat → Forall (misses f.(f_ofs) (length bs)) l2 →
  ∃ rest, get_field h f = bs ++ rest.
Proof.
  intros E Hl Hm2. pose proof header_fits as Hf. rewrite E in Hf.
  assert (h = build (l1 ++ (f, bs) :: l2) zero_header) as -> by (unfold h; by rewrite E).
  pose proof (build_length (l1 ++ (f, bs) :: l2) zero_header zero_header_length Hf) as Hlen. set (g := build _ zero_header) in *.
  assert (Ht : take (length bs) (get_field g f) = bs).
  { unfold get_field. rewrite take_take, Nat.min_l by done. apply list_eq. intros i.
    destruct (decide (i < length bs)%nat) as [Hi | Hi].
    - rewrite lookup_take_lt, lookup_drop by lia. apply build_get; [done|done| |done].
      eapply Forall_impl; [exact Hm2|]. unfold misses. cbn. lia.
    - rewrite (lookup_ge_None_2 bs) by lia. apply lookup_ge_None_2. rewrite length_take. lia. }
  exists (drop (length bs) (get_field g f)). rewrite <- Ht at 1. by rewrite take_drop.
Qed.

Lemma header_field_full l1 f bs l2 :
  puts ++ [(chksum, oc ++ [0])] = l1 ++ (f, bs) :: l2 → length bs = f.(f_size) → Forall (misses f.(f_ofs) (length bs)) l2 →
  get_field h f = bs.
Proof.
  intros E Hl Hm2. destruct (header_field l1 f bs l2 E ltac:(lia) Hm2) as (rest & Hr). rewrite Hr.
  assert (Hlen : (length (get_field h f) <= f.(f_size))%nat) by (unfold get_field; rewrite length_take; lia).
  rewrite Hr, length_app in Hlen. destruct rest; [by rewrite app_nil_r|cbn in Hlen; lia].
Qed.

Lemma header_magic : get_field h magic = lit "ustar" ++ [0].
Proof. by apply (header_field_full (take 7 puts) magic _ (drop 8 puts ++ [(chksum, oc ++ [0])])); [..|places]. Qed.

Lemma header_size : get_field h size = os ++ [0].
Proof. apply (header_field_full (take 4 puts) size _ (drop 5 puts ++ [(chksum, oc ++ [0])])); [done|rewrite length_app; cbn; lia|places]. Qed.

Lemma header_chksum : get_field h chksum = oc ++ [0].
Proof. apply (header_field_full puts chksum _ []); [done|rewrite length_app; cbn; lia|constructor]. Qed.

Lemma header_name : ∃ rest, get_field h name = n ++ 0 :: rest.
Proof.
  destruct (header_field [] name (n ++ [0]) (tail puts ++ [(chksum, oc ++ [0])])) as (rest & E);
    [done|rewrite length_app; cbn; lia|places|]. exists rest. by rewrite E, <- app_assoc.
Qed.

Lemma header_bytes : byte_at h 263 = ch "0" ∧ byte_at h 264 = ch "0" ∧ byte_at h 156 = type ∧ byte_at h 345 = 0 ∧ byte_at h 99 = 0.
Proof.
  unfold byte_at. pose proof header_fits as Hf.
  assert (Hv : ∀ i, (i < 2)%nat → h !! (f_ofs version + i)%nat = lit "00" !! i).
  { intros i Hi. apply (build_get (take 8 puts) version (lit "00") (drop 9 puts ++ [(chksum, oc ++ [0])])); [done|done| |done]. places. }
  assert (Ht : h !! 156%nat = Some type).
  { apply (build_get (take 6 puts) typeflag [type] (drop 7 puts ++ [(chksum, oc ++ [0])]) zero_header 0); [done|done| |cbn; lia]. places. }
  assert (Hp : h !! 345%nat = Some 0) by (unfold h; rewrite build_lookup by (done || places); apply zero_header_lookup; lia).
  assert (H99 : h !! 99%nat = Some 0).
  { destruct (decide (length n = 99)%nat) as [E | E].
    - replace 99%nat with (f_ofs name + 99)%nat by done.
      unfold h. rewrite (build_get [] name (n ++ [0]) (tail puts ++ [(chksum, oc ++ [0])])); [|done|done|places|rewrite length_app; cbn; lia].
      by rewrite lookup_app_r, E by lia.
    - unfold h. rewrite build_lookup; [apply zero_header_lookup; lia|done|done|places]. }
  assert (Hv0 : h !! 263%nat = Some (ch "0")) by (apply (Hv 0%nat); lia).
  assert (Hv1 : h !! 264%nat = Some (ch "0")) by (apply (Hv 1%nat); lia).
  by rewrite Ht, Hp, H99, Hv0, Hv1.
Qed.
End header.

Lemma build_bytes puts h :
  Forall (λ b, is_u8 b) h → Forall (λ p, Forall (λ b, is_u8 b) p.2) puts → Forall (λ b, is_u8 b) (build puts h).
Proof.
  intros Hh Hp. revert h Hh. induction Hp as [|[f bs] puts Hb _ IH]; intros h Hh; [done|]. apply IH. unfold put_field.
  rewrite !Forall_app. split; [by apply Forall_take|]. split; [done|by apply Forall_drop].
Qed.

Lemma octal_bytes ds : Forall (λ d, 0 <= d < 8) ds → Forall (λ b, is_u8 b) (rev (Z.add 48 <$> ds) ++ [0]).
Proof.
  intros Hd. apply Forall_app. split; [|by repeat constructor]. apply List.Forall_rev, Forall_fmap.
  eapply Forall_impl; [exact Hd|]. cbn. lia.
Qed.

Lemma lit_bytes s : Forall (λ b, is_u8 b) (lit s).
Proof.
  induction s as [|a s IH]; [constructor|]. cbn. constructor; [|done]. unfold ch.
  pose proof (N_ascii_bounded a). lia.
Qed.

Lemma octal_length ds : length (rev (Z.add 48 <$> ds)) = length ds.
Proof. by rewrite length_rev, length_fmap. Qed.

Lemma strlcpy_field_eq h f s : (length s < f.(f_size))%nat → strlcpy_field h f s = put_field h f (s ++ [0]).
Proof. intros Hs. unfold strlcpy_field. by rewrite take_ge by lia. Qed.

Lemma snprintf_field_eq h f format v out :
  vprintf ∅ format [v] = Ok out → (length out < f.(f_size))%nat → snprintf_field h f format v = Ok (put_field h f (out ++ [0])).
Proof. intros E Ho. unfold snprintf_field. rewrite E, bind_ret. by rewrite take_ge by lia. Qed.

(** What ustar_make_header() builds. *)
Lemma make_header_ok file_name type sz :
  type = USTAR_REGULAR ∨ type = USTAR_DIRECTORY → Forall (λ c, 0 < c < 256) file_name → 0 <= sz < 2147483648 →
  let n := strip_antisocial_prefixes file_name in (length n <= 99)%nat →
  ∃ o1 ds om dc, let h1 := build (header_puts n o1 (rev (Z.add 48 <$> ds)) om type) zero_header in
    ustar_make_header file_name type sz =
      Ok (Some (build (header_puts n o1 (rev (Z.add 48 <$> ds)) om type ++ [(chksum, rev (Z.add 48 <$> dc) ++ [0])]) zero_header)) ∧
    length o1 = 7%nat ∧ length om = 11%nat ∧ length ds = 11%nat ∧ length dc = 7%nat ∧
    Forall (λ d, 0 <= d < 8) ds ∧ Forall (λ d, 0 <= d < 8) dc ∧
    from_digits 8 ds = sz ∧ from_digits 8 dc = calculate_chksum h1 ∧ calculate_chksum h1 < 8 ^ 7.
Proof.
  intros Ht Hf Hsz n Hn. assert (Htb : is_u8 type) by (by destruct Ht as [-> | ->]). pose proof (strip_chars file_name Hf) as Hc. fold n in Hc.
  destruct (proj1 (printf_octal (if type =? USTAR_REGULAR then 420 else 493))) as (d1 & E1 & L1 & F1 & _);
    [by destruct (type =? USTAR_REGULAR)|].
  destruct (proj2 (printf_octal sz) ltac:(lia)) as (ds & Es & Ls & Fs & Vs).
  destruct (proj2 (printf_octal 1136102400) ltac:(lia)) as (dm & Em & Lm & Fm & _).
  exists (rev (Z.add 48 <$> d1)), ds, (rev (Z.add 48 <$> dm)).
  set (puts := header_puts n _ _ _ type). set (h1 := build puts zero_header).
  assert (Hfit : Forall fits puts) by (unfold puts; places || (unfold puts, header_puts;
    repeat (apply Forall_cons; split; [unfold fits; cbn [fst snd]; rewrite ?length_app, ?octal_length; cbn; lia|]); by apply Forall_nil)).
  assert (Hl1 : length h1 = 512%nat) by (by apply build_length).
  assert (Hb1 : Forall (λ b, is_u8 b) h1).
  { apply build_bytes; [apply zero_header_bytes|]. unfold puts, header_puts.
    rewrite !Forall_cons. cbn [snd]. rewrite (Forall_app _ n), !(Forall_app _ (lit _)).
    assert (H0 : Forall (λ b, is_u8 b) [0]) by (by repeat constructor).
    assert (Hnb : Forall (λ b, is_u8 b) n) by (eapply Forall_impl; [exact Hc|]; cbn; lia).
    pose proof lit_bytes. pose proof octal_bytes. repeat split; auto. }
  pose proof (chksum_range h1 Hl1 Hb1) as Hcr.
  destruct (proj1 (printf_octal (calculate_chksum h1)) Hcr) as (dc & Ec & Lc & Fc & Vc).
  exists dc. split; [|rewrite !octal_length; repeat (split; [done|]); by destruct Hcr].
  unfold ustar_make_header. rewrite ASSERT_true by (by destruct Ht as [-> | ->]). rewrite bind_ret. fold n.
  rewrite (proj2 (Nat.ltb_ge _ _)) by done. rewrite (u32_small sz) by lia.
  rewrite (snprintf_field_eq _ mode _ _ _ E1), bind_ret by (rewrite octal_length; cbn; lia).
  rewrite (snprintf_field_eq _ size _ _ _ Es), bind_ret by (rewrite octal_length; cbn; lia).
  rewrite (snprintf_field_eq _ mtime _ _ _ Em), bind_ret by (rewrite octal_length; cbn; lia).
  rewrite !strlcpy_field_eq by (cbn; lia).
  match goal with |- context [calculate_chksum ?x] =>
    assert (Eh : h1 = x) by (unfold h1, puts, header_puts; rewrite !build_cons, build_nil; reflexivity) end.
  rewrite <- Eh. clear Eh.
  rewrite (snprintf_field_eq _ chksum _ _ _ Ec), bind_ret by (rewrite octal_length; cbn; lia).
  by rewrite build_snoc.
Qed.

Lemma not_all_zeros h i x : h !! i = Some x → x ≠ 0 → is_all_zeros h = false.
Proof.
  intros Hi Hx. unfold is_all_zeros. apply not_true_iff_false. rewrite forallb_forall. intros H.
  apply Hx, Z.eqb_eq, H, list_elem_of_In. by eapply list_elem_of_lookup_2.
Qed.

(** Parsing a header that was built. *)
Lemma parse_built n o1 ds om dc type :
  (length n <= 99)%nat → length o1 = 7%nat → length om = 11%nat → length ds = 11%nat → length dc = 7%nat →
  Forall (λ d, 0 <= d < 8) ds → Forall (λ d, 0 <= d < 8) dc → Forall (λ c, 0 < c < 256) n →
  let puts := header_puts n o1 (rev (Z.add 48 <$> ds)) om type in
  from_digits 8 ds < 2147483648 → from_digits 8 dc = calculate_chksum (build puts zero_header) → from_digits 8 dc < 8 ^ 7 →
  type = USTAR_REGULAR ∨ type = USTAR_DIRECTORY →
  ustar_parse_header (build (puts ++ [(chksum, rev (Z.add 48 <$> dc) ++ [0])]) zero_header) =
    inr (Some (strip_antisocial_prefixes n), type, if type =? USTAR_REGULAR then from_digits 8 ds else 0).
Proof.
  intros Hn H1 Hm Hds Hdc Fs Fc Hc puts Hsz Hck Hck7 Ht.
  assert (Hos : length (rev (Z.add 48 <$> ds)) = 11%nat) by (by rewrite octal_length).
  assert (Hoc : length (rev (Z.add 48 <$> dc)) = 7%nat) by (by rewrite octal_length).
  destruct (header_bytes n o1 _ om _ type Hn H1 Hos Hm Hoc) as (B1 & B2 & B3 & B4 & B5).
  pose proof (header_magic n o1 _ om _ type Hn H1 Hos Hm Hoc) as Fm. pose proof (header_size n o1 _ om _ type Hn H1 Hos Hm Hoc) as Fsz.
  pose proof (header_chksum n o1 _ om _ type Hn H1 Hos Hm Hoc) as Fck. destruct (header_name n o1 _ om _ type Hn H1 Hos Hm Hoc) as (rest & Fn).
  assert (Hsum : calculate_chksum (build (puts ++ [(chksum, rev (Z.add 48 <$> dc) ++ [0])]) zero_header) = from_digits 8 dc).
  { rewrite build_snoc, Hck. apply chksum_put; [|rewrite length_app, octal_length; cbn; lia].
    apply build_length; [done|]. pose proof (header_fits n o1 _ om _ type Hn H1 Hos Hm Hoc) as Hf. by apply Forall_app in Hf as [Hf _]. }
  fold puts in B1, B2, B3, B4, B5, Fm, Fsz, Fck, Fn. set (h := build (puts ++ _) zero_header) in *. clearbody h.
  unfold ustar_parse_header. rewrite (not_all_zeros h 263 (ch "0")); [|unfold byte_at in B1; destruct (h !! 263%nat); [by f_equal|done]|done].
  rewrite Fm, bool_decide_eq_true_2, B1, B2 by done. unfold parse_octal_field. rewrite Fck, Fsz.
  rewrite !parse_octal_digits by (done || lia || by intros ->). rewrite Hsum, Z.eqb_refl, B5, B4, B3, Fn, c_string_app by done.
  destruct Ht as [Ht | Ht]; rewrite Ht.
  - rewrite !Z.eqb_refl. cbn [negb andb orb Z.eqb]. by rewrite (proj2 (Z.ltb_ge _ _)) by lia.
  - rewrite !Z.eqb_refl. done.
Qed.

(** A name that fits: the header is made, and parsed back. *)
Lemma make_parse_header (file_name : list Z) (type sz : Z) :
  type = USTAR_REGULAR ∨ type = USTAR_DIRECTORY → Forall (λ c, 0 < c < 256) file_name → 0 <= sz < 2147483648 →
  let n := strip_antisocial_prefixes file_name in (length n <= 99)%nat →
  ∃ h, ustar_make_header file_name type sz = Ok (Some h) ∧ length h = 512%nat ∧
    ustar_parse_header h = inr (Some n, type, if type =? USTAR_REGULAR then sz else 0).
Proof.
  intros Ht Hc Hsz n Hn.
  destruct (make_header_ok file_name type sz Ht Hc Hsz Hn) as (o1 & ds & om & dc & E & L1 & Lm & Ls & Lc & Fs & Fc & Vs & Vc & Hck).
  rewrite E. eexists. split; [done|]. fold n. split; [apply header_length; rewrite ?octal_length; done|].
  rewrite parse_built; try done; [|by apply strip_chars|rewrite Vs; lia|rewrite Vc; done].
  by rewrite (strip_id n (strip_stripped file_name)), Vs.
Qed.

(** The header that ustar_make_header() composes for a file or directory is
    parsed back by ustar_parse_header() to the stripped name, the type and the
    size; a stripped name starts with no slash, "./" or "../", and stripping it
    again changes nothing; a stripped name of more than 99 characters is refused. *)
Theorem ustar_roundtrip (file_name : list Z) (type sz : Z) :
  type = USTAR_REGULAR ∨ type = USTAR_DIRECTORY → Forall (λ c, 0 < c < 256) file_name → 0 <= sz < 2147483648 →
  let n := strip_antisocial_prefixes file_name in
  (antisocial n = false ∧ n ≠ [] ∧ n ≠ lit ".." ∧ strip_antisocial_prefixes n = n) ∧
  if (length n <=? 99)%nat then
    ∃ h, ustar_make_header file_name type sz = Ok (Some h) ∧ length h = 512%nat ∧
      ustar_parse_header h = inr (Some n, type, if type =? USTAR_REGULAR then sz else 0)
  else ustar_make_header file_name type sz = Ok None.
Proof.
  intros Ht Hc Hsz n. pose proof (strip_stripped file_name) as Hs. fold n in Hs. split; [destruct Hs as (H1 & H2 & H3); by rewrite strip_id|].
  destruct (Nat.leb_spec (length n) 99) as [Hn | Hn].
  - by apply make_parse_header.
  - unfold ustar_make_header. rewrite ASSERT_true by (by destruct Ht as [-> | ->]). rewrite bind_ret.
    by rewrite (proj2 (Nat.ltb_lt _ _)) by done.
Qed.

Lemma ustar_roundtrip_witness :
  ∃ h, ustar_make_header (lit "/../a/b") USTAR_REGULAR 1000 = Ok (Some h) ∧
    ustar_parse_header h = inr (Some (lit "a/b"), USTAR_REGULAR, 1000).
Proof.
  destruct (ustar_roundtrip (lit "/../a/b") USTAR_REGULAR 1000) as [_ H]; [by left|apply (bool_decide_unpack _); by vm_compute|lia|].
  change (strip_antisocial_prefixes (lit "/../a/b")) with (lit "a/b") in H.
  change (length (lit "a/b") <=? 99)%nat with true in H. cbv iota in H. destruct H as (h & E & _ & P). exists h. split; [exact E|exact P].
Defined.
