(* ===== verification/Partition.v ===== *)
(** * Block devices and partitions: devices/block.c, devices/partition.c

    The devices by the address of their structure, in the order of their
    registration, and the role of each.  The driver of a disk is its sectors; the
    driver of a partition names the device it is part of.  What is printed is
    appended to [console]; a %s of a name is written out.  [b_oom] lists the
    answers of the coming calls of malloc(), as in FsState.v. *)

From Stdlib Require Import Ascii String.
From S2P Require Import Prelude Bitmap CString Stdio FsState.

Open Scope Z_scope.

(** ** Definitions *)

Inductive driver := Disk (secs : gmap Z (list Z)) | Part (parent : Z) (first : Z).

Record bdev := mk_bdev {
  d_name : list Z;
  d_type : block_type;
  d_size : Z;
  d_driver : driver;
  d_reads : Z;
  d_writes : Z }.

Record bst := mk_bst {
  bdevs : gmap Z bdev;
  all_blocks : list Z;
  block_by_role : list Z;
  b_brk : Z;
  b_oom : list bool;
  console : list Z }.

Abbreviation B := (st bst).

Definition with_bdevs (m : gmap Z bdev) (s : bst) : bst :=
  mk_bst m s.(all_blocks) s.(block_by_role) s.(b_brk) s.(b_oom) s.(console).

Definition say (l : list Z) : B unit :=
  modify (λ s, mk_bst s.(bdevs) s.(all_blocks) s.(block_by_role) s.(b_brk) s.(b_oom) (s.(console) ++ l)).
Definition sayf (f args : list Z) : B unit := out ← lift (vprintf ∅ f args); say out.

Definition get_bdev (b : Z) : B bdev := m ← gets bdevs; lift (deref (m !! b)).
Definition put_bdev (b : Z) (d : bdev) : B unit := m ← gets bdevs; modify (with_bdevs (<[b := d]> m)).

Definition b_malloc : B Z := λ s,
  match s.(b_oom) with
  | true :: l => Ok (NULL, mk_bst s.(bdevs) s.(all_blocks) s.(block_by_role) s.(b_brk) l s.(console))
  | false :: l => Ok (s.(b_brk), mk_bst s.(bdevs) s.(all_blocks) s.(block_by_role) (s.(b_brk) + 1) l s.(console))
  | [] => Ok (s.(b_brk), mk_bst s.(bdevs) s.(all_blocks) s.(block_by_role) (s.(b_brk) + 1) [] s.(console))
  end.

(** *** devices/block.c *)

Definition BLOCK_ROLE_CNT : Z := 4.

Definition type_no (t : block_type) : Z :=
  match t with
  | BLOCK_KERNEL => 0 | BLOCK_FILESYS => 1 | BLOCK_SCRATCH => 2 | BLOCK_SWAP => 3
  | BLOCK_RAW => 4 | BLOCK_FOREIGN => 5
  end.

Definition block_type_name (t : block_type) : list Z :=
  match t with
  | BLOCK_KERNEL => lit "kernel" | BLOCK_FILESYS => lit "filesys" | BLOCK_SCRATCH => lit "scratch"
  | BLOCK_SWAP => lit "swap" | BLOCK_RAW => lit "raw" | BLOCK_FOREIGN => lit "foreign"
  end.

Definition block_get_role (role : block_type) : B Z :=
  lift (ASSERT (type_no role <? BLOCK_ROLE_CNT));;
  l ← gets block_by_role; lift (deref (l !! Z.to_nat (type_no role))).

Definition block_set_role (role : block_type) (b : Z) : B unit :=
  lift (ASSERT (type_no role <? BLOCK_ROLE_CNT));;
  modify (λ s, mk_bst s.(bdevs) s.(all_blocks) (<[Z.to_nat (type_no role) := b]> s.(block_by_role))
                 s.(b_brk) s.(b_oom) s.(console)).

Definition block_first : B Z := l ← gets all_blocks; mret (default NULL (head l)).

(** The device after [b] in a list. *)
Fixpoint after (b : Z) (l : list Z) : Z :=
  match l with
  | [] => NULL
  | x :: l => if x =? b then default NULL (head l) else after b l
  end.

Definition block_next (b : Z) : B Z := l ← gets all_blocks; mret (after b l).

Fixpoint find_name (name : list Z) (m : gmap Z bdev) (l : list Z) : outcome Z :=
  match l with
  | [] => Ok NULL
  | b :: l => d ← deref (m !! b); if bool_decide (d.(d_name) = name) then Ok b else find_name name m l
  end.

Definition block_get_by_name (name : list Z) : B Z :=
  m ← gets bdevs; l ← gets all_blocks; lift (find_name name m l).

Definition bcheck_sector (d : bdev) (sector : Z) : outcome unit :=
  if d.(d_size) <=? sector then Panic else Ok tt.

Definition count_read (b : Z) : B unit :=
  d ← get_bdev b;
  put_bdev b (mk_bdev d.(d_name) d.(d_type) d.(d_size) d.(d_driver) (u64 (d.(d_reads) + 1)) d.(d_writes)).
Definition count_write (b : Z) : B unit :=
  d ← get_bdev b;
  put_bdev b (mk_bdev d.(d_name) d.(d_type) d.(d_size) d.(d_driver) d.(d_reads) (u64 (d.(d_writes) + 1))).

(** block_read(), and partition_read() for a partition; the fuel bounds how
    deeply partitions are nested. *)
Fixpoint dev_read (fuel : nat) (b sector : Z) : B (list Z) :=
  match fuel with
  | O => lift NoFuel
  | S n =>
      d ← get_bdev b;
      lift (bcheck_sector d sector);;
      buffer ← (match d.(d_driver) with
                | Disk secs => mret (default zero_sector (secs !! sector))
                | Part parent first => dev_read n parent (u32 (first + sector))
                end);
      count_read b;;
      mret buffer
  end.

Fixpoint dev_write (fuel : nat) (b sector : Z) (buffer : list Z) : B unit :=
  match fuel with
  | O => lift NoFuel
  | S n =>
      d ← get_bdev b;
      lift (bcheck_sector d sector);;
      lift (ASSERT (bool_decide (d.(d_type) ≠ BLOCK_FOREIGN)));;
      match d.(d_driver) with
      | Disk secs =>
          put_bdev b (mk_bdev d.(d_name) d.(d_type) d.(d_size) (Disk (<[sector := buffer]> secs)) d.(d_reads) d.(d_writes))
      | Part parent first => dev_write n parent (u32 (first + sector)) buffer
      end;;
      count_write b
  end.

Definition block_print_stats : B unit :=
  for_st 4 0 (λ i,
    l ← gets block_by_role;
    b ← lift (deref (l !! Z.to_nat i));
    if b =? NULL then mret tt
    else
      d ← get_bdev b;
      say (d.(d_name) ++ lit " (" ++ block_type_name d.(d_type) ++ lit "): ");;
      sayf (lit "%llu reads, %llu writes") [u32 d.(d_reads); d.(d_reads) / 4294967296; u32 d.(d_writes); d.(d_writes) / 4294967296];;
      say [10]).

Definition block_register (name : list Z) (t : block_type) (extra_info : option (list Z)) (size : Z) (drv : driver) : B Z :=
  b ← b_malloc;
  if b =? NULL then lift Panic
  else
    let name := take 15 name in
    modify (λ s, mk_bst (<[b := mk_bdev name t size drv 0 0]> s.(bdevs)) (s.(all_blocks) ++ [b]) s.(block_by_role)
                   s.(b_brk) s.(b_oom) s.(console));;
    say name;;
    sayf (lit ": %'u sectors (") [size];;
    out ← lift (print_human_readable_size ∅ (size * 512));
    say (out ++ lit ")");;
    when (bool_decide (is_Some extra_info)) (say (lit ", " ++ default [] extra_info));;
    say [10];;
    mret b.

(** *** devices/partition.c *)

Definition type_names : list (Z * string) :=
  [ (0, "Empty"); (1, "FAT12"); (2, "XENIX root"); (3, "XENIX usr"); (4, "FAT16 <32M");
    (5, "Extended"); (6, "FAT16"); (7, "HPFS/NTFS"); (8, "AIX"); (9, "AIX bootable");
    (10, "OS/2 Boot Manager"); (11, "W95 FAT32"); (12, "W95 FAT32 (LBA)");
    (14, "W95 FAT16 (LBA)"); (15, "W95 Ext'd (LBA)"); (16, "OPUS"); (17, "Hidden FAT12");
    (18, "Compaq diagnostics"); (20, "Hidden FAT16 <32M"); (22, "Hidden FAT16");
    (23, "Hidden HPFS/NTFS"); (24, "AST SmartSleep"); (27, "Hidden W95 FAT32");
    (28, "Hidden W95 FAT32 (LBA)"); (30, "Hidden W95 FAT16 (LBA)"); (32, "Pintos OS kernel");
    (33, "Pintos file system"); (34, "Pintos scratch"); (35, "Pintos swap"); (36, "NEC DOS");
    (57, "Plan 9"); (60, "PartitionMagic recovery"); (64, "Venix 80286"); (65, "PPC PReP Boot");
    (66, "SFS"); (77, "QNX4.x"); (78, "QNX4.x 2nd part"); (79, "QNX4.x 3rd part");
    (80, "OnTrack DM"); (81, "OnTrack DM6 Aux1"); (82, "CP/M"); (83, "OnTrack DM6 Aux3");
    (84, "OnTrackDM6"); (85, "EZ-Drive"); (86, "Golden Bow"); (92, "Priam Edisk");
    (97, "SpeedStor"); (99, "GNU HURD or SysV"); (100, "Novell Netware 286");
    (101, "Novell Netware 386"); (112, "DiskSecure Multi-Boot"); (117, "PC/IX");
    (128, "Old Minix"); (129, "Minix / old Linux"); (130, "Linux swap / Solaris");
    (131, "Linux"); (132, "OS/2 hidden C: drive"); (133, "Linux extended");
    (134, "NTFS volume set"); (135, "NTFS volume set"); (136, "Linux plaintext");
    (142, "Linux LVM"); (147, "Amoeba"); (148, "Amoeba BBT"); (159, "BSD/OS");
    (160, "IBM Thinkpad hibernation"); (165, "FreeBSD"); (166, "OpenBSD"); (167, "NeXTSTEP");
    (168, "Darwin UFS"); (169, "NetBSD"); (171, "Darwin boot"); (183, "BSDI fs");
    (184, "BSDI swap"); (187, "Boot Wizard hidden"); (190, "Solaris boot"); (191, "Solaris");
    (193, "DRDOS/sec (FAT-12)"); (196, "DRDOS/sec (FAT-16 < 32M)"); (198, "DRDOS/sec (FAT-16)");
    (199, "Syrinx"); (218, "Non-FS data"); (219, "CP/M / CTOS / ..."); (222, "Dell Utility");
    (223, "BootIt"); (225, "DOS access"); (227, "DOS R/O"); (228, "SpeedStor");
    (235, "BeOS fs"); (238, "EFI GPT"); (239, "EFI (FAT-12/16/32)");
    (240, "Linux/PA-RISC boot"); (241, "SpeedStor"); (244, "SpeedStor"); (242, "DOS secondary");
    (253, "Linux raid autodetect"); (254, "LANstep"); (255, "BBT") ]%string.

Definition partition_type_name (t : Z) : list Z :=
  match list_find (λ x, x.1 = t) type_names with
  | Some (_, (_, n)) => lit n
  | None => lit "Unknown"
  end.

(** The 16-bit and 32-bit integers at an offset of a sector. *)
Definition byte (bs : list Z) (i : nat) : Z := default 0 (bs !! i).
Definition get16 (bs : list Z) (i : nat) : Z := byte bs i + 256 * byte bs (i + 1).
Definition get32 (bs : list Z) (i : nat) : Z := u32 (un32 (take 4 (drop i bs))).

Record partition_table_entry := mk_entry { e_type : Z; e_offset : Z; e_size : Z }.

(** Entry [i] of the table in a sector. *)
Definition table_entry (pt : list Z) (i : Z) : partition_table_entry :=
  let o := (446 + 16 * Z.to_nat i)%nat in
  mk_entry (byte pt (o + 4)) (get32 pt (o + 8)) (get32 pt (o + 12)).

Definition role_of (part_type : Z) : block_type :=
  if part_type =? 32 then BLOCK_KERNEL
  else if part_type =? 33 then BLOCK_FILESYS
  else if part_type =? 34 then BLOCK_SCRATCH
  else if part_type =? 35 then BLOCK_SWAP
  else BLOCK_FOREIGN.

Definition found_partition (b part_type start size part_nr : Z) : B unit :=
  d ← get_bdev b;
  nr ← lift (vprintf ∅ (lit "%d") [u32 part_nr]);
  if d.(d_size) <=? start then
    say (d.(d_name) ++ nr);; sayf (lit ": Partition starts past end of device (sector %u)") [start];; say [10]
  else if (u32 (start + size) <? start) || (d.(d_size) <? u32 (start + size)) then
    say (d.(d_name) ++ nr);;
    sayf (lit ": Partition end (%u) past end of device (%u)") [u32 (start + size); d.(d_size)];; say [10]
  else
    p ← b_malloc;
    if p =? NULL then lift Panic
    else
      hex ← lift (vprintf ∅ (lit " (%02x)") [part_type]);
      block_register (take 15 (d.(d_name) ++ nr)) (role_of part_type)
        (Some (take 127 (partition_type_name part_type ++ hex))) size (Part b start);;
      mret tt.

Definition is_extended (t : Z) : bool := (t =? 5) || (t =? 15) || (t =? 133) || (t =? 197).

(** The entries of a table from [i] on; [self] scans a nested table.  The number
    of partitions found so far is passed and returned. *)
Fixpoint scan_entries (self : Z → Z → Z → B Z) (b : Z) (d : bdev) (sector primary : Z) (pt : list Z)
    (k : nat) (i part_nr : Z) : B Z :=
  match k with
  | O => mret part_nr
  | S k =>
      let e := table_entry pt i in
      part_nr ←
        (if (e.(e_size) =? 0) || (e.(e_type) =? 0) then mret part_nr
         else if is_extended e.(e_type) then
           say d.(d_name);; sayf (lit ": Extended partition in sector %u") [sector];; say [10];;
           if sector =? 0 then self e.(e_offset) e.(e_offset) part_nr
           else self (u32 (e.(e_offset) + primary)) primary part_nr
         else
           found_partition b e.(e_type) (u32 (e.(e_offset) + sector)) e.(e_size) (part_nr + 1);;
           mret (part_nr + 1));
      scan_entries self b d sector primary pt k (i + 1) part_nr
  end.

(** The fuel bounds the depth of the recursion. *)
Fixpoint read_partition_table (fuel : nat) (b sector primary : Z) (part_nr : Z) : B Z :=
  match fuel with
  | O => lift NoFuel
  | S n =>
      d ← get_bdev b;
      if d.(d_size) <=? sector then
        say d.(d_name);; sayf (lit ": Partition table at sector %u past end of device.") [sector];; say [10];;
        mret part_nr
      else
        p ← b_malloc;
        if p =? NULL then lift Panic
        else
          pt ← dev_read 2 b 0;
          if negb (get16 pt 510 =? 43605) then
            say d.(d_name);;
            (if primary =? 0 then say (lit ": Invalid partition table signature")
             else sayf (lit ": Invalid extended partition table in sector %u") [sector]);;
            say [10];;
            mret part_nr
          else scan_entries (read_partition_table n b) b d sector primary pt 4 0 part_nr
  end.

Definition partition_scan (fuel : nat) (b : Z) : B unit :=
  part_nr ← read_partition_table fuel b 0 0 0;
  if part_nr =? 0 then
    d ← get_bdev b; say (d.(d_name) ++ lit ": Device contains no partitions" ++ [10])
  else mret tt.

(** ** Devices *)

Lemma run_get_bdev {A} (k : bdev → B A) s b d : s.(bdevs) !! b = Some d → (get_bdev b ≫= k) s = k d s.
Proof. intros Hd. unfold get_bdev, gets, mbind, st_bind. by rewrite Hd. Qed.

Lemma get_bdev_inv s b d s' : get_bdev b s = Ok (d, s') → s' = s ∧ s.(bdevs) !! b = Some d.
Proof. unfold get_bdev. rewrite run_gets. unfold lift. destruct (bdevs s !! b); cbn; [|done]. by intros [= <- <-]. Qed.

(** What a device is, apart from its counters and, for a disk, its sectors. *)
Definition shape (d : bdev) : list Z * block_type * Z * option (Z * Z) :=
  (d.(d_name), d.(d_type), d.(d_size), match d.(d_driver) with Disk _ => None | Part p f => Some (p, f) end).

(** A partition lies within a disk. *)
Definition within (m : gmap Z bdev) (d : bdev) : Prop :=
  0 <= d.(d_size) < 4294967296 ∧
  match d.(d_driver) with
  | Disk _ => True
  | Part p f => ∃ pd secs, m !! p = Some pd ∧ pd.(d_driver) = Disk secs ∧ 0 <= f ∧ f + d.(d_size) <= pd.(d_size)
  end.

Definition bdevs_wf (s : bst) : Prop :=
  0 < s.(b_brk) ∧ (∀ b d, s.(bdevs) !! b = Some d → b < s.(b_brk) ∧ within s.(bdevs) d) ∧
  ∀ b, b ∈ s.(all_blocks) → is_Some (s.(bdevs) !! b).

(** Changing the counters or the sectors of a device keeps every device. *)
Lemma within_same m m' d :
  (∀ b x, m !! b = Some x → ∃ x', m' !! b = Some x' ∧ shape x' = shape x) → within m d → within m' d.
Proof.
  intros Hm [Hs Hd]. split; [done|]. destruct (d_driver d) as [|p f]; [done|]. destruct Hd as (pd & secs & Hp & Hdr & Hf & Hle).
  destruct (Hm p pd Hp) as (pd' & Hp' & E). unfold shape in E. rewrite Hdr in E. injection E as _ _ Es Ed.
  destruct (d_driver pd') as [secs'|] eqn:Ed'; [|done]. exists pd', secs'. rewrite Es. done.
Qed.

Lemma put_same_wf s b d d' :
  bdevs_wf s → s.(bdevs) !! b = Some d → shape d' = shape d → bdevs_wf (with_bdevs (<[b := d']> s.(bdevs)) s).
Proof.
  intros (Hb & Hw & Ha) Hd E.
  assert (Hm : ∀ x y, s.(bdevs) !! x = Some y → ∃ y', <[b := d']> s.(bdevs) !! x = Some y' ∧ shape y' = shape y).
  { intros x y Hx. destruct (decide (x = b)) as [-> | Hne].
    - exists d'. rewrite lookup_insert_eq. assert (y = d) as -> by congruence. done.
    - exists y. by rewrite lookup_insert_ne. }
  split; [done|]. split; cbn.
  - intros x y Hx. apply lookup_insert_Some in Hx as [[<- <-] | [Hne Hx]].
    + destruct (Hw b d Hd) as [Hlt Hwd]. split; [done|]. apply (within_same s.(bdevs)); [done|].
      unfold shape in E. destruct Hwd as [Hs Hwd]. split; [by injection E as _ _ -> _|].
      injection E as _ _ -> Ed. destruct (d_driver d'), (d_driver d); simplify_eq; done.
    + destruct (Hw x y Hx) as [Hlt Hwd]. split; [done|]. by apply (within_same s.(bdevs)).
  - intros x Hx. destruct (decide (x = b)) as [-> | Hne]; [rewrite lookup_insert_eq; eauto|]. rewrite lookup_insert_ne by done. auto.
Qed.

(** ** Reading and writing *)

(** The sectors of a disk. *)
Definition disk_sector (m : gmap Z bdev) (b sector : Z) : option (list Z) :=
  match m !! b with
  | Some (mk_bdev _ _ _ (Disk secs) _ _) => Some (default zero_sector (secs !! sector))
  | _ => None
  end.

Lemma disk_read s b d secs sector :
  s.(bdevs) !! b = Some d → d.(d_driver) = Disk secs → sector < d.(d_size) →
  ∀ n, dev_read (S n) b sector s =
    Ok (default zero_sector (secs !! sector),
        with_bdevs (<[b := mk_bdev d.(d_name) d.(d_type) d.(d_size) d.(d_driver) (u64 (d.(d_reads) + 1)) d.(d_writes)]> s.(bdevs)) s).
Proof.
  intros Hd Hdr Hlt n. cbn [dev_read]. rewrite (run_get_bdev _ _ _ _ Hd). unfold bcheck_sector.
  rewrite (proj2 (Z.leb_gt _ _)) by done. rewrite (run_lift _ _ _ tt) by done. rewrite Hdr.
  rewrite (run_bind _ _ s (default zero_sector (secs !! sector)) s) by done. unfold count_read.
  erewrite run_bind; [done|]. rewrite (run_get_bdev _ _ _ _ Hd), Hdr. done.
Qed.

Lemma disk_write s b d secs sector buf :
  s.(bdevs) !! b = Some d → d.(d_driver) = Disk secs → d.(d_type) ≠ BLOCK_FOREIGN → sector < d.(d_size) →
  ∀ n, dev_write (S n) b sector buf s =
    Ok (tt, with_bdevs (<[b := mk_bdev d.(d_name) d.(d_type) d.(d_size) (Disk (<[sector := buf]> secs)) d.(d_reads)
                                 (u64 (d.(d_writes) + 1))]> s.(bdevs)) s).
Proof.
  intros Hd Hdr Ht Hlt n. cbn [dev_write]. rewrite (run_get_bdev _ _ _ _ Hd). unfold bcheck_sector.
  rewrite (proj2 (Z.leb_gt _ _)) by done. rewrite (run_lift _ _ _ tt) by done.
  rewrite (run_lift _ _ _ tt) by (by apply ASSERT_true, bool_decide_eq_true_2). rewrite Hdr.
  set (d1 := mk_bdev _ _ _ _ (d_reads d) (d_writes d)).
  rewrite (run_bind _ _ s tt (with_bdevs (<[b := d1]> s.(bdevs)) s)) by done. unfold count_write.
  rewrite (run_get_bdev _ _ b d1) by (cbn; apply lookup_insert_eq). unfold put_bdev. rewrite run_gets. cbn.
  by rewrite insert_insert_eq.
Qed.

(** The partition at [b] of the disk at [p]. *)
Record part_of (s : bst) (b : Z) (d : bdev) (p f : Z) (pd : bdev) (secs : gmap Z (list Z)) : Prop := {
  po_dev : s.(bdevs) !! b = Some d;
  po_drv : d.(d_driver) = Part p f;
  po_disk : s.(bdevs) !! p = Some pd;
  po_secs : pd.(d_driver) = Disk secs;
  po_fits : 0 <= f ∧ f + d.(d_size) <= pd.(d_size) ∧ pd.(d_size) < 4294967296 }.

Lemma part_of_ok s b d p f :
  bdevs_wf s → s.(bdevs) !! b = Some d → d.(d_driver) = Part p f → ∃ pd secs, part_of s b d p f pd secs ∧ b ≠ p.
Proof.
  intros (_ & Hw & _) Hd Hdr. destruct (Hw b d Hd) as [_ [_ Hwd]]. rewrite Hdr in Hwd. destruct Hwd as (pd & secs & Hp & Hpd & Hf & Hle).
  exists pd, secs. destruct (Hw p pd Hp) as [_ [Hs _]]. split; [split; try done; lia|]. intros ->. congruence.
Qed.

Lemma part_write s b d p f pd secs sector buf :
  part_of s b d p f pd secs → b ≠ p → d.(d_type) ≠ BLOCK_FOREIGN → pd.(d_type) ≠ BLOCK_FOREIGN → 0 <= sector < d.(d_size) →
  ∃ s' d' pd', dev_write 2 b sector buf s = Ok (tt, s') ∧ part_of s' b d' p f pd' (<[f + sector := buf]> secs) ∧
    shape d' = shape d ∧ shape pd' = shape pd ∧
    s' = with_bdevs (<[b := d']> (<[p := pd']> s.(bdevs))) s.
Proof.
  intros [Hd Hdr Hp Hpd (Hf & Hle & Hsz)] Hne Ht Hpt Hs. cbn [dev_write]. fold (dev_write 1).
  rewrite (run_get_bdev _ _ _ _ Hd). unfold bcheck_sector.
  rewrite (proj2 (Z.leb_gt _ _)) by lia. rewrite (run_lift _ _ _ tt) by done.
  rewrite (run_lift _ _ _ tt) by (by apply ASSERT_true, bool_decide_eq_true_2). rewrite Hdr, u32_small by lia.
  rewrite (run_bind _ _ _ _ _ (disk_write s p pd secs (f + sector) buf Hp Hpd Hpt ltac:(lia) 0)).
  set (pd' := mk_bdev (d_name pd) _ _ _ _ _). unfold count_write.
  rewrite (run_get_bdev _ _ b d) by (cbn; by rewrite lookup_insert_ne).
  set (d' := mk_bdev (d_name d) _ _ _ _ _). exists (with_bdevs (<[b := d']> (<[p := pd']> s.(bdevs))) s), d', pd'.
  split; [done|]. split; [|split; [done|split; [unfold shape, pd'; cbn; by rewrite Hpd|done]]].
  split; try done.
  - apply lookup_insert_eq.
  - cbn. rewrite lookup_insert_ne, lookup_insert_eq by done. done.
Qed.

Lemma part_read s b d p f pd secs sector :
  part_of s b d p f pd secs → b ≠ p → 0 <= sector < d.(d_size) →
  ∃ s', dev_read 2 b sector s = Ok (default zero_sector (secs !! (f + sector)), s').
Proof.
  intros [Hd Hdr Hp Hpd (Hf & Hle & Hsz)] Hne Hs. cbn [dev_read]. fold (dev_read 1).
  rewrite (run_get_bdev _ _ _ _ Hd). unfold bcheck_sector.
  rewrite (proj2 (Z.leb_gt _ _)) by lia. rewrite (run_lift _ _ _ tt) by done. rewrite Hdr, u32_small by lia.
  rewrite (run_bind _ _ _ _ _ (disk_read s p pd secs (f + sector) Hp Hpd ltac:(lia) 0)). unfold count_read.
  eexists. erewrite run_bind; [done|]. rewrite (run_get_bdev _ _ b d) by (cbn; by rewrite lookup_insert_ne). done.
Qed.

(** A sector of a partition is the sector of its disk at the partition's start:
    writing one succeeds, keeps every device well-formed, changes that sector of
    the disk and no other, and reading it back returns what was written; an
    access past the end of the partition stops the kernel. *)
Theorem partition_io (s : bst) (b p f sector : Z) (d : bdev) (buf : list Z) :
  bdevs_wf s → s.(bdevs) !! b = Some d → d.(d_driver) = Part p f → d.(d_type) ≠ BLOCK_FOREIGN →
  (∀ pd, s.(bdevs) !! p = Some pd → pd.(d_type) ≠ BLOCK_FOREIGN) → 0 <= sector →
  if sector <? d.(d_size) then
    ∃ s' s'', dev_write 2 b sector buf s = Ok (tt, s') ∧ bdevs_wf s' ∧ dev_read 2 b sector s' = Ok (buf, s'') ∧
      ∀ k, disk_sector s'.(bdevs) p k = if k =? f + sector then Some buf else disk_sector s.(bdevs) p k
  else dev_write 2 b sector buf s = Panic ∧ dev_read 2 b sector s = Panic.
Proof.
  intros Hw Hd Hdr Ht Hpt Hs0. destruct (part_of_ok s b d p f Hw Hd Hdr) as (pd & secs & Hpo & Hne).
  destruct (Z.ltb_spec sector d.(d_size)) as [Hs | Hs].
  - destruct (part_write s b d p f pd secs sector buf Hpo Hne Ht (Hpt pd (po_disk _ _ _ _ _ _ _ Hpo)) ltac:(lia))
      as (s' & d' & pd' & E & Hpo' & Sd & Sp & Es').
    assert (Hsz : d_size d' = d_size d) by (by injection Sd). destruct (part_read s' b d' p f pd' _ sector Hpo' Hne ltac:(lia)) as (s'' & Er).
    rewrite lookup_insert_eq in Er. exists s', s''. split; [done|]. split; [|split; [done|]].
    + rewrite Es'. pose proof (put_same_wf s p pd pd' Hw (po_disk _ _ _ _ _ _ _ Hpo) Sp) as H1.
      exact (put_same_wf _ b d d' H1 ltac:(cbn; by rewrite lookup_insert_ne) Sd).
    + intros k. unfold disk_sector. rewrite (po_disk _ _ _ _ _ _ _ Hpo'), (po_disk _ _ _ _ _ _ _ Hpo).
      pose proof (po_secs _ _ _ _ _ _ _ Hpo') as H1. pose proof (po_secs _ _ _ _ _ _ _ Hpo) as H2.
      destruct pd' as [? ? ? dr' ? ?], pd as [? ? ? dr ? ?]. cbn in H1, H2. subst dr' dr.
      destruct (Z.eqb_spec k (f + sector)) as [-> |]; [by rewrite lookup_insert_eq|by rewrite lookup_insert_ne by done].
  - cbn [dev_write dev_read]. rewrite !(run_get_bdev _ _ _ _ Hd). unfold bcheck_sector. by rewrite (proj2 (Z.leb_le _ _)) by done.
Qed.

(** ** Scanning *)

(** The disk at [b] of [size] sectors [secs], with memory left. *)
Definition disk_at (b size : Z) (secs : gmap Z (list Z)) (s : bst) : Prop :=
  s.(b_oom) = [] ∧ 0 < s.(b_brk) ∧
  ∃ d, s.(bdevs) !! b = Some d ∧ d.(d_driver) = Disk secs ∧ d.(d_size) = size.

Lemma run_say {A} (l : list Z) (k : unit → B A) s :
  (say l ≫= k) s = k tt (mk_bst s.(bdevs) s.(all_blocks) s.(block_by_role) s.(b_brk) s.(b_oom) (s.(console) ++ l)).
Proof. done. Qed.

Lemma run_sayf {A} p q v (k : unit → B A) s :
  Forall (λ c, c ≠ ch "%") p → Forall (λ c, c ≠ ch "%") q → is_u32 v →
  ∃ l, (sayf (p ++ lit "%u" ++ q) [v] ≫= k) s =
    k tt (mk_bst s.(bdevs) s.(all_blocks) s.(block_by_role) s.(b_brk) s.(b_oom) (s.(console) ++ l)).
Proof.
  intros Hp Hq Hv. destruct (vprintf_u ∅ p q v Hp Hq Hv) as (out & E). exists out.
  apply run_bind. unfold sayf. by rewrite (run_lift _ _ _ _ E).
Qed.

Lemma disk_at_malloc b size secs s :
  disk_at b size secs s → ∃ s', b_malloc s = Ok (s.(b_brk), s') ∧ s.(b_brk) ≠ NULL ∧ disk_at b size secs s'.
Proof.
  intros (Ho & Hb & d & Hd). unfold b_malloc. rewrite Ho. eexists. split; [done|]. split; [lia|].
  split; [done|]. split; [cbn; lia|]. by exists d.
Qed.

Lemma disk_at_read b size secs s :
  disk_at b size secs s → 0 < size → ∃ s', dev_read 2 b 0 s = Ok (default zero_sector (secs !! 0), s') ∧ disk_at b size secs s'.
Proof.
  intros (Ho & Hb & d & Hd & Hdr & Hs) Hsz. rewrite (disk_read s b d secs 0 Hd Hdr ltac:(lia)).
  eexists. split; [done|]. split; [done|]. split; [done|]. eexists. split; [apply lookup_insert_eq|done].
Qed.

(** An extended partition in the first entry of the table, whose sectors are on
    the disk: at every depth the table of sector 0 is read again. *)
Definition self_extended (pt : list Z) (o size : Z) : Prop :=
  get16 pt 510 = 43605 ∧ is_extended (table_entry pt 0).(e_type) = true ∧ (table_entry pt 0).(e_size) ≠ 0 ∧
  (table_entry pt 0).(e_offset) = o ∧ 0 < o ∧ 2 * o < size ∧ size < 4294967296.

Lemma scan_descends fuel b size secs o s sector primary nr :
  self_extended (default zero_sector (secs !! 0)) o size → disk_at b size secs s →
  sector = 0 ∨ primary = o ∧ (sector = o ∨ sector = 2 * o) →
  read_partition_table fuel b sector primary nr s = NoFuel.
Proof.
  intros Hse. revert s sector primary nr. induction fuel as [|n IH]; intros s sector primary nr Hdisk Hsec; [done|].
  destruct Hse as (Hsig & Hext & Hesz & Hofs & Ho & Hsz & H32) eqn:Eh. clear Eh.
  cbn [read_partition_table]. pose proof Hdisk as (_ & _ & d & Hd & _ & Hds). rewrite (run_get_bdev _ _ _ _ Hd).
  rewrite (proj2 (Z.leb_gt _ _)) by lia.
  destruct (disk_at_malloc _ _ _ _ Hdisk) as (s1 & E1 & Hnn & D1). rewrite (run_bind _ _ _ _ _ E1).
  rewrite (proj2 (Z.eqb_neq _ _)) by done.
  destruct (disk_at_read _ _ _ _ D1 ltac:(lia)) as (s2 & E2 & D2). rewrite (run_bind _ _ _ _ _ E2).
  set (pt := default zero_sector (secs !! 0)) in *. rewrite Hsig. cbn [Z.eqb negb Pos.eqb].
  assert (Ht : table_entry pt 0 = mk_entry (e_type (table_entry pt 0)) o (e_size (table_entry pt 0)))
    by (rewrite <- Hofs; by destruct (table_entry pt 0)).
  assert (Hty : (e_type (table_entry pt 0) =? 0) = false).
  { destruct (Z.eqb_spec (e_type (table_entry pt 0)) 0) as [E0|]; [by rewrite E0 in Hext|done]. }
  cbn [scan_entries]. rewrite (proj2 (Z.eqb_neq _ _) Hesz), Hty, Hext, Hofs. cbn [orb].
  match goal with |- (?m ≫= _) s2 = _ => assert (Hin : m s2 = NoFuel); [|unfold mbind at 1, st_bind at 1; by rewrite Hin] end.
  rewrite run_say.
  destruct (run_sayf (lit ": Extended partition in sector ") [] sector (λ _ : unit, say [10];;
    if sector =? 0 then read_partition_table n b o o nr else read_partition_table n b (u32 (o + primary)) primary nr)
    (mk_bst s2.(bdevs) s2.(all_blocks) s2.(block_by_role) s2.(b_brk) s2.(b_oom) (s2.(console) ++ d.(d_name)))) as (l & E3);
    [apply (bool_decide_unpack _); by vm_compute|constructor|lia|].
  refine (eq_trans E3 _). rewrite run_say. destruct Hsec as [-> | [-> Hsec]].
  - apply IH; [done|right; split; [done|by left]].
  - rewrite (proj2 (Z.eqb_neq _ _)) by lia. apply IH; [done|]. right. split; [done|]. right. rewrite u32_small; lia.
Qed.

(** *** What scanning keeps *)

(** The devices are well-formed and [b] is a disk. *)
Definition root_wf (b : Z) (s : bst) : Prop :=
  bdevs_wf s ∧ ∃ d secs, s.(bdevs) !! b = Some d ∧ d.(d_driver) = Disk secs.

Definition keeps_root (b : Z) {A} (m : B A) : Prop := ∀ s a s', root_wf b s → m s = Ok (a, s') → root_wf b s'.

Lemma keeps_root_ret b {A} (a : A) : keeps_root b (mret a).
Proof. by intros s x s' Hs [= <- <-]. Qed.

Lemma keeps_root_bind b {A C} (m : B A) (k : A → B C) :
  keeps_root b m → (∀ a, keeps_root b (k a)) → keeps_root b (m ≫= k).
Proof. intros Hm Hk s c s' Hs E. apply run_bind_inv in E as (a & s1 & E1 & E2). by eapply Hk, E2; eapply Hm, E1. Qed.

Lemma lift_same {A} (o : outcome A) (s : bst) a s' : lift o s = Ok (a, s') → s' = s.
Proof. intros E. unfold lift in E. by destruct o; simplify_eq/=. Qed.

Lemma keeps_root_lift b {A} (o : outcome A) : keeps_root b (lift o).
Proof. intros s a s' Hs E. unfold lift in E. by destruct o; simplify_eq/=. Qed.

Lemma keeps_root_gets b {A} (f : bst → A) : keeps_root b (gets f).
Proof. by intros s a s' Hs [= <- <-]. Qed.

Lemma keeps_root_say b l : keeps_root b (say l).
Proof. by intros s a s' Hs [= <- <-]. Qed.

Lemma keeps_root_sayf b f args : keeps_root b (sayf f args).
Proof. apply keeps_root_bind; [apply keeps_root_lift|intros; apply keeps_root_say]. Qed.

Lemma keeps_root_when b c m : keeps_root b m → keeps_root b (when c m).
Proof. intros Hm. destruct c; [done|apply keeps_root_ret]. Qed.

Lemma keeps_root_get b x : keeps_root b (get_bdev x).
Proof. by intros s a s' Hs [-> _]%get_bdev_inv. Qed.

Lemma keeps_root_malloc b : keeps_root b b_malloc.
Proof.
  intros s a s' [(Hb & Hw & Ha) Hd] E.
  assert (s'.(bdevs) = s.(bdevs) ∧ s'.(all_blocks) = s.(all_blocks) ∧ s.(b_brk) <= s'.(b_brk)) as (E1 & E2 & E3).
  { unfold b_malloc in E. destruct (b_oom s) as [|[] l]; injection E as <- <-; cbn; repeat split; lia. }
  unfold root_wf, bdevs_wf. rewrite E1, E2. split; [|done]. split; [lia|]. split; [|done].
  intros x d Hx. destruct (Hw x d Hx). split; [lia|done].
Qed.

Lemma keeps_root_put b x d d' s :
  root_wf b s → s.(bdevs) !! x = Some d → shape d' = shape d → root_wf b (with_bdevs (<[x := d']> s.(bdevs)) s).
Proof.
  intros [Hw (e & secs & He & Hdr)] Hx E. split; [by eapply put_same_wf|]. cbn. destruct (decide (b = x)) as [-> | Hne].
  - rewrite lookup_insert_eq. assert (e = d) as -> by congruence. unfold shape in E. rewrite Hdr in E. injection E as _ _ _ E.
    destruct (d_driver d') as [secs'|] eqn:E'; [|done]. eauto.
  - rewrite lookup_insert_ne by done. eauto.
Qed.

Lemma keeps_root_read b n x sector : keeps_root b (dev_read n x sector).
Proof.
  revert x sector. induction n as [|n IH]; intros x sector; cbn [dev_read]; [apply keeps_root_lift|].
  apply keeps_root_bind; [apply keeps_root_get|]. intros d. apply keeps_root_bind; [apply keeps_root_lift|]. intros _.
  apply keeps_root_bind; [by destruct (d_driver d); [apply keeps_root_ret|]|]. intros buf.
  apply keeps_root_bind; [|intros; apply keeps_root_ret].
  intros s a s' Hs E. unfold count_read in E. apply run_bind_inv in E as (e & s1 & [-> He]%get_bdev_inv & E).
  injection E as <- <-. by apply (keeps_root_put b x e).
Qed.

#[local] Hint Resolve keeps_root_ret keeps_root_lift keeps_root_when keeps_root_gets keeps_root_say keeps_root_sayf keeps_root_get
  keeps_root_malloc keeps_root_read : pintos.

(** The number of sectors a new partition has fits, so that it is within its disk. *)
Lemma register_ok b name t info size first d secs s a s' :
  root_wf b s → s.(bdevs) !! b = Some d → d.(d_driver) = Disk secs → 0 <= size → 0 <= first → first + size <= d.(d_size) →
  block_register name t info size (Part b first) s = Ok (a, s') → root_wf b s'.
Proof.
  intros Hr Hd Hdr Hs Hf Hle E. unfold block_register in E. apply run_bind_inv in E as (p & s1 & E1 & E).
  pose proof (keeps_root_malloc b s p s1 Hr E1) as Hr1.
  assert (p = NULL ∨ p = s.(b_brk) ∧ s1.(b_brk) = p + 1 ∧ s1.(bdevs) = s.(bdevs)) as Hp.
  { unfold b_malloc in E1. destruct (b_oom s) as [|[] l]; injection E1 as <- <-; auto. }
  destruct (Z.eqb_spec p NULL) as [|Hnn]; [done|]. destruct Hp as [|(-> & Hb1 & Hm1)]; [done|].
  pose proof Hr as [(Hb & Hw & Ha) _]. destruct Hr1 as [(_ & Hw1 & Ha1) _].
  rewrite run_modify in E. match type of E with ?k ?s2 = _ => assert (Hr2 : root_wf b s2) end.
  { assert (Hfresh : s1.(bdevs) !! s.(b_brk) = None).
    { destruct (s1.(bdevs) !! s.(b_brk)) as [x|] eqn:Ex; [|done]. rewrite Hm1 in Ex. destruct (Hw _ _ Ex). lia. }
    assert (Hbn : b ≠ s.(b_brk)) by (destruct (Hw b d Hd); lia).
    assert (Hsub : ∀ x y, s1.(bdevs) !! x = Some y → ∀ z, <[s.(b_brk) := z]> s1.(bdevs) !! x = Some y).
    { intros x y Hx z. apply lookup_insert_Some. right. split; [|done]. by intros <-; rewrite Hfresh in Hx. }
    split; [split; [cbn; lia|split]|]; cbn.
    - intros x y Hx. apply lookup_insert_Some in Hx as [[<- <-] | [Hne Hx]].
      + split; [lia|]. destruct (Hw b d Hd) as [_ [Hds _]]. split; [cbn; lia|]. cbn. exists d, secs.
        split; [apply Hsub; by rewrite Hm1|]. done.
      + destruct (Hw1 x y Hx) as [Hlt Hwi]. split; [done|]. apply (within_same s1.(bdevs)); [|done]. intros u v Hu. eauto.
    - intros x [Hx | ->%list_elem_of_singleton]%elem_of_app; [|rewrite lookup_insert_eq; eauto].
      destruct (Ha1 x Hx) as [y Hy]. eauto.
    - exists d, secs. split; [apply Hsub; by rewrite Hm1|done]. }
  revert E. match goal with |- ?k ?s2 = _ → _ => intros E; refine ((_ : keeps_root b k) s2 a s' Hr2 E) end.
  repeat (apply keeps_root_bind; [eauto with pintos|intros]). eauto with pintos.
Qed.

Lemma keeps_root_found b t start size nr : 0 <= start → 0 <= size < 4294967296 → keeps_root b (found_partition b t start size nr).
Proof.
  intros Hst Hsz s a s' Hr E. unfold found_partition in E. apply run_bind_inv in E as (d & s1 & [-> Hd]%get_bdev_inv & E).
  apply run_bind_inv in E as (out & s1 & E1 & E). apply lift_same in E1 as ->.
  pose proof Hr as [(_ & Hw & _) (d0 & secs & Hd0 & Hdr)]. assert (d0 = d) as -> by congruence. destruct (Hw b d Hd) as [_ [Hds _]].
  destruct (Z.leb_spec d.(d_size) start); [|destruct (_ || _) eqn:Ec].
  - revert E. match goal with |- ?k s = _ → _ => intros E; refine ((_ : keeps_root b k) s a s' Hr E) end.
    repeat (apply keeps_root_bind; [eauto with pintos|intros]). eauto with pintos.
  - revert E. match goal with |- ?k s = _ → _ => intros E; refine ((_ : keeps_root b k) s a s' Hr E) end.
    repeat (apply keeps_root_bind; [eauto with pintos|intros]). eauto with pintos.
  - apply orb_false_iff in Ec as [C1%Z.ltb_ge C2%Z.ltb_ge].
    assert (Hfit : start + size <= d.(d_size)) by (unfold u32 in *; zdm).
    apply run_bind_inv in E as (p & s1 & E1 & E). pose proof (keeps_root_malloc b s p s1 Hr E1) as Hr1.
    assert (Hd1 : s1.(bdevs) = s.(bdevs)) by (unfold b_malloc in E1; destruct (b_oom s) as [|[] l]; by injection E1 as <- <-).
    destruct (p =? NULL); [done|]. apply run_bind_inv in E as (hex & s2 & E2 & E). apply lift_same in E2 as ->.
    apply run_bind_inv in E as (q & s2 & E2 & E). injection E as <- <-.
    eapply (register_ok b _ _ _ size start d secs s1); [done|by rewrite Hd1|done|lia|lia|done|exact E2].
Qed.

Lemma keeps_root_entries self b d sector primary pt k i nr :
  (∀ x y z, keeps_root b (self x y z)) → keeps_root b (scan_entries self b d sector primary pt k i nr).
Proof.
  intros Hself. revert i nr. induction k as [|k IH]; intros i nr; cbn [scan_entries]; [apply keeps_root_ret|].
  apply keeps_root_bind; [|intros; apply IH]. case_match; [eauto with pintos|]. case_match.
  - repeat (apply keeps_root_bind; [eauto with pintos|intros]). by case_match.
  - apply keeps_root_bind; [|intros; apply keeps_root_ret]. apply keeps_root_found; cbn; apply u32_range.
Qed.

Lemma keeps_root_table n b sector primary nr : keeps_root b (read_partition_table n b sector primary nr).
Proof.
  revert sector primary nr. induction n as [|n IH]; intros sector primary nr; cbn [read_partition_table]; [apply keeps_root_lift|].
  apply keeps_root_bind; [eauto with pintos|]. intros d. case_match.
  { repeat (apply keeps_root_bind; [eauto with pintos|intros]). eauto with pintos. }
  apply keeps_root_bind; [eauto with pintos|]. intros p. case_match; [eauto with pintos|].
  apply keeps_root_bind; [eauto with pintos|]. intros pt. case_match.
  { repeat (apply keeps_root_bind; [eauto with pintos; case_match; eauto with pintos|intros]). eauto with pintos. }
  apply keeps_root_entries. intros. apply IH.
Qed.


(** ** Concrete disks *)

Definition demo_entry (t o n : Z) : list Z := [0; 0; 0; 0; t; 0; 0; 0] ++ le32 o ++ le32 n.
Definition demo_mbr (l : list Z) : list Z := replicate 446 0 ++ l ++ replicate (64 - length l) 0 ++ [85; 170].
Definition demo_disk (l : list Z) : bst :=
  mk_bst {[ 1 := mk_bdev (lit "hda") BLOCK_RAW 1000 (Disk {[ 0 := demo_mbr l ]}) 0 0 ]} [1] [0; 0; 0; 0] 2 [] [].

Lemma demo_part_disk_wf l : bdevs_wf (demo_disk l).
Proof.
  split; [done|]. split; cbn.
  - intros b d [<- <-]%lookup_singleton_Some. split; [lia|]. by split.
  - intros b ->%list_elem_of_singleton. rewrite lookup_singleton_eq. eauto.
Qed.


(** A partition of 200 sectors at sector 100. *)
Definition demo_part : bst :=
  mk_bst {[ 1 := mk_bdev (lit "hda") BLOCK_RAW 1000 (Disk ∅) 0 0; 2 := mk_bdev (lit "hda1") BLOCK_FILESYS 200 (Part 1 100) 0 0 ]}
    [1; 2] [0; 2; 0; 0] 3 [] [].

Lemma partition_io_witness :
  ∃ s' s'', dev_write 2 2 7 [1; 2; 3] demo_part = Ok (tt, s') ∧ dev_read 2 2 7 s' = Ok ([1; 2; 3], s'') ∧
    disk_sector s'.(bdevs) 1 107 = Some [1; 2; 3].
Proof.
  assert (Hm : ∀ b d, demo_part.(bdevs) !! b = Some d → b = 1 ∧ d = mk_bdev (lit "hda") BLOCK_RAW 1000 (Disk ∅) 0 0 ∨
    b = 2 ∧ d = mk_bdev (lit "hda1") BLOCK_FILESYS 200 (Part 1 100) 0 0).
  { intros b d. cbn [demo_part bdevs]. intros [[<- <-] | [_ [<- <-]%lookup_singleton_Some]]%lookup_insert_Some; auto. }
  assert (Hw : bdevs_wf demo_part).
  { split; [done|]. split.
    - intros b d [[-> ->] | [-> ->]]%Hm; (split; [done|]); (split; [done|]); cbn; [done|].
      exists (mk_bdev (lit "hda") BLOCK_RAW 1000 (Disk ∅) 0 0), ∅. done.
    - intros b Hb. assert (b = 1 ∨ b = 2) as [-> | ->] by (cbn in Hb; set_solver); by eexists. }
  destruct (partition_io demo_part 2 1 100 7 (mk_bdev (lit "hda1") BLOCK_FILESYS 200 (Part 1 100) 0 0) [1; 2; 3] Hw)
    as (s' & s'' & E1 & _ & E2 & E3); try done.
  { by intros pd [[_ ->] | [? _]]%Hm. }
  exists s', s''. split; [done|]. split; [done|]. rewrite E3. done.
Defined.
