(* ===== verification/Ide.v ===== *)
(** * The disk driver: devices/ide.c

    The driver runs against an interface to the ports of the machine, [AtaBus]:
    reading and writing a port, moving words through the data port, letting time
    pass, and the interrupt that the controller requests, if any.  [AtaSpec]
    says what the ATA standard promises of a channel with two disks; the
    theorems about reading and writing sectors are proved against it, and an
    executable controller at the end of the file implements it.

    A completion interrupt may arrive after a command has been written, after
    the data of a sector have been written, and whenever the driver sleeps;
    [sched] decides at which of these points it does.  A thread that waits for
    the completion semaphore lets time pass until an interrupt comes; without
    one it never returns ([NoFuel]).  The lock of a channel is taken by a thread
    that finds it free: the other users of Synch.v wait for it.  A disk is the
    pair of the number of its channel and its number on it. *)

From S2P Require Import Prelude Stdio.

Open Scope Z_scope.

(** ** The machine *)

Class AtaBus (H : Type) := {
  bus_inb : Z → H → Z * H;
  bus_outb : Z → Z → H → H;
  bus_insw : Z → nat → H → list Z * H;
  bus_outsw : Z → list Z → H → H;
  bus_pause : Z → H → H;
  bus_irq : H → option Z;
  bus_wait : H → H }.

(** ** Definitions *)

Definition STA_BSY : Z := 128.
Definition STA_DRDY : Z := 64.
Definition STA_DRQ : Z := 8.
Definition CTL_SRST : Z := 4.
Definition DEV_MBS : Z := 160.
Definition DEV_LBA : Z := 64.
Definition DEV_DEV : Z := 16.
Definition CMD_IDENTIFY_DEVICE : Z := 236.
Definition CMD_READ_SECTOR_RETRY : Z := 32.
Definition CMD_WRITE_SECTOR_RETRY : Z := 48.
Definition CHANNEL_CNT : Z := 2.

Record ata_disk := mk_ata { d_name : list Z; dev_no : Z; is_ata : bool }.

Record channel := mk_channel {
  c_name : list Z;
  reg_base : Z;
  c_irq : Z;
  c_lock : bool;
  expecting_interrupt : bool;
  completion_wait : Z;
  devices : list ata_disk }.

Definition reg_data (c : channel) : Z := c.(reg_base) + 0.
Definition reg_error (c : channel) : Z := c.(reg_base) + 1.
Definition reg_nsect (c : channel) : Z := c.(reg_base) + 2.
Definition reg_lbal (c : channel) : Z := c.(reg_base) + 3.
Definition reg_lbam (c : channel) : Z := c.(reg_base) + 4.
Definition reg_lbah (c : channel) : Z := c.(reg_base) + 5.
Definition reg_device (c : channel) : Z := c.(reg_base) + 6.
Definition reg_status (c : channel) : Z := c.(reg_base) + 7.
Definition reg_command (c : channel) : Z := reg_status c.
Definition reg_ctl (c : channel) : Z := c.(reg_base) + 518.
Definition reg_alt_status (c : channel) : Z := reg_ctl c.

Inductive message :=
| IdleTimeout (d : Z * Z)
| BusyWaiting (d : Z * Z)
| BusyOk
| BusyFailed
| IgnoringLarge (d : Z * Z) (bytes : Z)
| UnexpectedInterrupt (c : Z).

(** What block_register() is given. *)
Record registration := mk_reg {
  r_name : list Z; r_extra_info : list Z; r_size : Z; r_disk : Z * Z }.

Record ide (H : Type) := mk_ide {
  hw : H;
  channels : list channel;
  level_on : bool;
  sched : list bool;
  messages : list message;
  registered : list registration }.
Arguments mk_ide {H}. Arguments hw {H}. Arguments channels {H}. Arguments level_on {H}.
Arguments sched {H}. Arguments messages {H}. Arguments registered {H}.

Definition set_chan_lock (b : bool) (c : channel) : channel :=
  mk_channel c.(c_name) c.(reg_base) c.(c_irq) b c.(expecting_interrupt) c.(completion_wait) c.(devices).
Definition set_expecting (b : bool) (c : channel) : channel :=
  mk_channel c.(c_name) c.(reg_base) c.(c_irq) c.(c_lock) b c.(completion_wait) c.(devices).
Definition set_completion (v : Z) (c : channel) : channel :=
  mk_channel c.(c_name) c.(reg_base) c.(c_irq) c.(c_lock) c.(expecting_interrupt) v c.(devices).
Definition set_devices (l : list ata_disk) (c : channel) : channel :=
  mk_channel c.(c_name) c.(reg_base) c.(c_irq) c.(c_lock) c.(expecting_interrupt) c.(completion_wait) l.

Section driver.
Context {H : Type} `{AtaBus H}.
Abbreviation I := (st (ide H)).

Definition set_hw (h : H) (s : ide H) : ide H :=
  mk_ide h s.(channels) s.(level_on) s.(sched) s.(messages) s.(registered).
Definition set_channels (l : list channel) (s : ide H) : ide H :=
  mk_ide s.(hw) l s.(level_on) s.(sched) s.(messages) s.(registered).
Definition set_sched (l : list bool) (s : ide H) : ide H :=
  mk_ide s.(hw) s.(channels) s.(level_on) l s.(messages) s.(registered).
Definition say (m : message) : I unit := modify (λ s,
  mk_ide s.(hw) s.(channels) s.(level_on) s.(sched) (s.(messages) ++ [m]) s.(registered)).
Definition register (r : registration) : I unit := modify (λ s,
  mk_ide s.(hw) s.(channels) s.(level_on) s.(sched) s.(messages) (s.(registered) ++ [r])).

Definition get_chan (c : Z) : I channel :=
  l ← gets channels; lift (deref (l !! Z.to_nat c)).
Definition put_chan (c : Z) (x : channel) : I unit :=
  modify (λ s, set_channels (<[Z.to_nat c := x]> s.(channels)) s).

Definition in_b (port : Z) : I Z := λ s,
  let '(v, h) := bus_inb port s.(hw) in Ok (v, set_hw h s).
Definition insw (port : Z) (cnt : nat) : I (list Z) := λ s,
  let '(bs, h) := bus_insw port cnt s.(hw) in Ok (bs, set_hw h s).
Definition out_b (port v : Z) : I unit := modify (λ s, set_hw (bus_outb port (u8 v) s.(hw)) s).

(** The handler of the interrupt with the vector number [vec_no]. *)
Fixpoint find_irq (vec_no : Z) (i : Z) (l : list channel) : option Z :=
  match l with
  | [] => None
  | c :: l => if vec_no =? c.(c_irq) then Some i else find_irq vec_no (i + 1) l
  end.
Definition interrupt_handler (vec_no : Z) : I unit :=
  l ← gets channels;
  match find_irq vec_no 0 l with
  | None => lift Panic
  | Some c =>
      x ← get_chan c;
      if x.(expecting_interrupt) then
        in_b (reg_status x);;
        x ← get_chan c;
        put_chan c (set_completion (u32 (x.(completion_wait) + 1)) x)
      else say (UnexpectedInterrupt c)
  end.

Definition take_irq : I unit :=
  h ← gets hw;
  match bus_irq h with Some vec => interrupt_handler vec | None => mret tt end.

(** A point at which an interrupt may arrive. *)
Definition intr_point : I unit :=
  l ← gets sched;
  match l with
  | [] => mret tt
  | b :: l => modify (set_sched l);; when b take_irq
  end.

Definition sleep (ns : Z) : I unit :=
  modify (λ s, set_hw (bus_pause ns s.(hw)) s);; intr_point.
(** timer_nsleep(), timer_usleep() and timer_msleep(). *)
Definition nsleep (n : Z) : I unit := sleep n.
Definition usleep (n : Z) : I unit := sleep (1000 * n).
Definition msleep (n : Z) : I unit := sleep (1000000 * n).

(** sema_down (&c->completion_wait): the second turn of the loop follows an
    interrupt. *)
Fixpoint sema_down_completion (fuel : nat) (c : Z) : I unit :=
  match fuel with
  | O => lift NoFuel
  | S fuel =>
      x ← get_chan c;
      if 0 <? x.(completion_wait) then put_chan c (set_completion (u32 (x.(completion_wait) - 1)) x)
      else
        modify (λ s, set_hw (bus_wait s.(hw)) s);;
        take_irq;;
        sema_down_completion fuel c
  end.
Definition down_completion (c : Z) : I unit := sema_down_completion 2 c.

(** lock_acquire (&c->lock) and lock_release (&c->lock). *)
Definition lock_channel (c : Z) : I unit :=
  x ← get_chan c; lift (if x.(c_lock) then NoFuel else Ok tt);; put_chan c (set_chan_lock true x).
Definition unlock_channel (c : Z) : I unit :=
  x ← get_chan c; lift (ASSERT x.(c_lock));; put_chan c (set_chan_lock false x).

(** *** Low-level primitives *)

Fixpoint idle_loop (n : nat) (c : Z) : I bool :=
  match n with
  | O => mret false
  | S n =>
      x ← get_chan c;
      v ← in_b (reg_status x);
      if Z.land v (Z.lor STA_BSY STA_DRQ) =? 0 then mret true
      else usleep 10;; idle_loop n c
  end.
Definition wait_until_idle (d : Z * Z) : I unit :=
  ok ← idle_loop 1000 d.1;
  when (negb ok) (say (IdleTimeout d)).

Fixpoint busy_loop (n : nat) (i : Z) (d : Z * Z) : I bool :=
  match n with
  | O => say BusyFailed;; mret false
  | S n =>
      when (i =? 700) (say (BusyWaiting d));;
      x ← get_chan d.1;
      v ← in_b (reg_alt_status x);
      if Z.land v STA_BSY =? 0 then
        when (700 <=? i) (say BusyOk);;
        v ← in_b (reg_alt_status x);
        mret (negb (Z.land v STA_DRQ =? 0))
      else msleep 10;; busy_loop n (i + 1) d
  end.
Definition wait_while_busy (d : Z * Z) : I bool := busy_loop 3000 0 d.

Definition select_device (d : Z * Z) : I unit :=
  x ← get_chan d.1;
  let dev := if d.2 =? 1 then Z.lor DEV_MBS DEV_DEV else DEV_MBS in
  out_b (reg_device x) dev;;
  in_b (reg_alt_status x);;
  nsleep 400.

Definition select_device_wait (d : Z * Z) : I unit :=
  wait_until_idle d;; select_device d;; wait_until_idle d.

(** *** Sectors *)

Definition select_sector (d : Z * Z) (sec_no : Z) : I unit :=
  lift (ASSERT (sec_no <? 268435456));;
  select_device_wait d;;
  x ← get_chan d.1;
  out_b (reg_nsect x) 1;;
  out_b (reg_lbal x) sec_no;;
  out_b (reg_lbam x) (Z.shiftr sec_no 8);;
  out_b (reg_lbah x) (Z.shiftr sec_no 16);;
  out_b (reg_device x)
    (Z.lor (Z.lor (Z.lor DEV_MBS DEV_LBA) (if d.2 =? 1 then DEV_DEV else 0)) (Z.shiftr sec_no 24)).

Definition issue_pio_command (c command : Z) : I unit :=
  on ← gets level_on;
  lift (ASSERT on);;
  x ← get_chan c;
  put_chan c (set_expecting true x);;
  out_b (reg_command x) command;;
  intr_point.

Definition input_sector (c : Z) : I (list Z) :=
  x ← get_chan c; insw (reg_data x) 256.

Definition output_sector (c : Z) (sector : list Z) : I unit :=
  x ← get_chan c;
  modify (λ s, set_hw (bus_outsw (reg_data x) sector s.(hw)) s);;
  intr_point.

Definition ide_read (d : Z * Z) (sec_no : Z) : I (list Z) :=
  lock_channel d.1;;
  select_sector d sec_no;;
  issue_pio_command d.1 CMD_READ_SECTOR_RETRY;;
  down_completion d.1;;
  ok ← wait_while_busy d;
  if negb ok then lift Panic
  else
    buffer ← input_sector d.1;
    unlock_channel d.1;;
    mret buffer.

Definition ide_write (d : Z * Z) (sec_no : Z) (buffer : list Z) : I unit :=
  lock_channel d.1;;
  select_sector d sec_no;;
  issue_pio_command d.1 CMD_WRITE_SECTOR_RETRY;;
  ok ← wait_while_busy d;
  if negb ok then lift Panic
  else
    output_sector d.1 buffer;;
    down_completion d.1;;
    unlock_channel d.1.

(** *** Detection and identification *)

Definition get_disk (d : Z * Z) : I ata_disk :=
  x ← get_chan d.1; lift (deref (x.(devices) !! Z.to_nat d.2)).
Definition put_is_ata (d : Z * Z) (b : bool) : I unit :=
  x ← get_chan d.1;
  k ← get_disk d;
  put_chan d.1 (set_devices (<[Z.to_nat d.2 := mk_ata k.(d_name) k.(dev_no) b]> x.(devices)) x).

Fixpoint swap_pairs (l : list Z) : list Z :=
  match l with a :: b :: l => b :: a :: swap_pairs l | l => l end.

(** The loop that looks for the last character to keep: from [size] - 1 down. *)
Fixpoint trim (string : list Z) (size : nat) : nat :=
  match size with
  | O => 0
  | S n =>
      let c := default 0 (string !! n) in
      if negb (c =? 0) && negb (isspace c) then S n else trim string n
  end.

(** descramble_ata_string(): the string before the terminator that it writes. *)
Definition descramble_ata_string (string : list Z) : list Z :=
  let string := swap_pairs string in
  take (trim string (length string - 1)) string.

(** The characters that %s prints of a buffer. *)
Fixpoint until_nul (l : list Z) : list Z :=
  match l with [] => [] | b :: l => if b =? 0 then [] else b :: until_nul l end.

Definition model_text : list Z := [109; 111; 100; 101; 108; 32; 34].
Definition serial_text : list Z := [34; 44; 32; 115; 101; 114; 105; 97; 108; 32; 34].

Definition identify_ata_device (d : Z * Z) : I unit :=
  k ← get_disk d;
  lift (ASSERT k.(is_ata));;
  select_device_wait d;;
  issue_pio_command d.1 CMD_IDENTIFY_DEVICE;;
  down_completion d.1;;
  ok ← wait_while_busy d;
  if negb ok then put_is_ata d false
  else
    id ← input_sector d.1;
    let capacity := u32 (un32 (take 4 (drop 120 id))) in
    let model := descramble_ata_string (take 20 (drop 20 id)) in
    let serial := descramble_ata_string (take 40 (drop 54 id)) in
    let extra_info := take 127 (model_text ++ until_nul model ++ serial_text ++ until_nul serial ++ [34]) in
    if 2097152 <=? capacity then
      say (IgnoringLarge d (u32 (capacity * 512)));; put_is_ata d false
    else register (mk_reg k.(d_name) extra_info capacity d).

Definition check_device_type (d : Z * Z) : I bool :=
  x ← get_chan d.1;
  select_device d;;
  error ← in_b (reg_error x);
  lbam ← in_b (reg_lbam x);
  lbah ← in_b (reg_lbah x);
  status ← in_b (reg_status x);
  if (negb (error =? 1) && (negb (error =? 129) || (d.2 =? 1)))
     || (Z.land status STA_DRDY =? 0) || negb (Z.land status STA_BSY =? 0)
  then put_is_ata d false;; mret (negb (error =? 129))
  else put_is_ata d (((lbam =? 0) && (lbah =? 0)) || ((lbam =? 60) && (lbah =? 195)));; mret true.

Definition present_probe (d : Z * Z) : I bool :=
  x ← get_chan d.1;
  select_device d;;
  out_b (reg_nsect x) 85;; out_b (reg_lbal x) 170;;
  out_b (reg_nsect x) 170;; out_b (reg_lbal x) 85;;
  out_b (reg_nsect x) 85;; out_b (reg_lbal x) 170;;
  v ← in_b (reg_nsect x);
  if v =? 85 then w ← in_b (reg_lbal x); mret (w =? 170) else mret false.

Fixpoint slave_loop (n : nat) (x : channel) : I unit :=
  match n with
  | O => mret tt
  | S n =>
      v ← in_b (reg_nsect x);
      ok ← (if v =? 1 then w ← in_b (reg_lbal x); mret (w =? 1) else mret false);
      if (ok : bool) then mret tt else msleep 10;; slave_loop n x
  end.

Definition reset_channel (c : Z) : I unit :=
  x ← get_chan c;
  present0 ← present_probe (c, 0);
  present1 ← present_probe (c, 1);
  out_b (reg_ctl x) 0;;
  usleep 10;;
  out_b (reg_ctl x) CTL_SRST;;
  usleep 10;;
  out_b (reg_ctl x) 0;;
  msleep 150;;
  when present0 (select_device (c, 0);; wait_while_busy (c, 0);; mret tt);;
  when present1 (select_device (c, 1);; slave_loop 3000 x;; wait_while_busy (c, 1);; mret tt).

Definition init_disk (chan_no dev : Z) : ata_disk :=
  mk_ata [104; 100; 97 + chan_no * 2 + dev] dev false.

Definition init_channel (chan_no : Z) : channel :=
  mk_channel [105; 100; 101; 48 + chan_no] (if chan_no =? 0 then 496 else 368)
    (if chan_no =? 0 then 14 + 32 else 15 + 32) false false 0 [init_disk chan_no 0; init_disk chan_no 1].

Definition init_one (chan_no : Z) : I unit :=
  put_chan chan_no (init_channel chan_no);;
  reset_channel chan_no;;
  more ← check_device_type (chan_no, 0);
  when more (check_device_type (chan_no, 1);; mret tt);;
  for_st 2 0 (λ dev,
    k ← get_disk (chan_no, dev);
    when k.(is_ata) (identify_ata_device (chan_no, dev))).

(** The handlers are registered in Descriptors.v. *)
Definition ide_init : I unit := for_st (Z.to_nat CHANNEL_CNT) 0 init_one.
End driver.

(** ** A channel as the ATA standard describes it *)

(** A command goes through phases.  While the device is busy, a counter bounds
    the number of pauses until it is done. *)
Inductive phase :=
| Idle
| Reading (n : nat) (data : list Z)
| DataIn (data : list Z)
| Accepting (n : nat) (dev lba : Z)
| DataOut (dev lba : Z)
| Writing (n : nat) (dev lba : Z) (data : list Z).

Record ata_state := mk_ata_state {
  a_nsect : Z; a_lbal : Z; a_lbam : Z; a_lbah : Z; a_device : Z;
  a_phase : phase;
  a_intrq : bool;
  a_media : Z → Z → list Z }.

Definition set_phase (p : phase) (a : ata_state) : ata_state :=
  mk_ata_state a.(a_nsect) a.(a_lbal) a.(a_lbam) a.(a_lbah) a.(a_device) p a.(a_intrq) a.(a_media).
Definition set_intrq (b : bool) (a : ata_state) : ata_state :=
  mk_ata_state a.(a_nsect) a.(a_lbal) a.(a_lbam) a.(a_lbah) a.(a_device) a.(a_phase) b a.(a_media).
Definition set_media (m : Z → Z → list Z) (a : ata_state) : ata_state :=
  mk_ata_state a.(a_nsect) a.(a_lbal) a.(a_lbam) a.(a_lbah) a.(a_device) a.(a_phase) a.(a_intrq) m.
Definition set_reg (r v : Z) (a : ata_state) : ata_state :=
  mk_ata_state (if r =? 2 then v else a.(a_nsect)) (if r =? 3 then v else a.(a_lbal))
    (if r =? 4 then v else a.(a_lbam)) (if r =? 5 then v else a.(a_lbah))
    (if r =? 6 then v else a.(a_device)) a.(a_phase) a.(a_intrq) a.(a_media).

(** The sector and the device that the registers select. *)
Definition a_lba (a : ata_state) : Z :=
  a.(a_lbal) + 256 * a.(a_lbam) + 65536 * a.(a_lbah) + 16777216 * (a.(a_device) mod 16).
Definition a_dev (a : ata_state) : Z := a.(a_device) / 16 mod 2.
Definition a_uses_lba (a : ata_state) : Prop := Z.testbit a.(a_device) 6 = true ∧ a.(a_nsect) = 1.

Definition write_media (dev lba : Z) (data : list Z) (m : Z → Z → list Z) : Z → Z → list Z :=
  λ d l, if (d =? dev) && (l =? lba) then data else m d l.

Definition busy (p : phase) : bool :=
  match p with Reading _ _ | Accepting _ _ _ | Writing _ _ _ _ => true | _ => false end.
Definition drq (p : phase) : bool :=
  match p with DataIn _ | DataOut _ _ => true | _ => false end.

(** A value of the status register. *)
Definition status_ok (a : ata_state) (v : Z) : Prop :=
  (Z.land v STA_BSY =? 0) = negb (busy a.(a_phase)) ∧
  (busy a.(a_phase) = false → (Z.land v STA_DRQ =? 0) = negb (drq a.(a_phase))).

(** The end of the busy time. *)
Definition complete (a : ata_state) : ata_state :=
  match a.(a_phase) with
  | Reading _ data => set_intrq true (set_phase (DataIn data) a)
  | Accepting _ dev lba => set_phase (DataOut dev lba) a
  | Writing _ dev lba data =>
      set_intrq true (set_phase Idle (set_media (write_media dev lba data a.(a_media)) a))
  | _ => a
  end.

Definition left (p : phase) : nat :=
  match p with Reading n _ | Accepting n _ _ | Writing n _ _ _ => n | _ => 0%nat end.
Definition with_left (n : nat) (p : phase) : phase :=
  match p with
  | Reading _ x => Reading n x
  | Accepting _ d l => Accepting n d l
  | Writing _ d l x => Writing n d l x
  | p => p
  end.

(** The device becomes busy with [a], for at most [latency] pauses, and may be
    done at once. *)
Definition enters (latency : nat) (a a' : ata_state) : Prop :=
  ∃ n, (n <= latency)%nat ∧
    (a' = set_phase (with_left n a.(a_phase)) a ∨ a' = complete a).

Class AtaSpec (H : Type) `{AtaBus H} (base irq : Z) := {
  ata : H → ata_state;
  latency : nat;
  latency_ok : Z.of_nat latency + 1 < 3000;
  spec_alt : ∀ h, status_ok (ata h) (bus_inb (base + 518) h).1 ∧ ata (bus_inb (base + 518) h).2 = ata h;
  spec_status : ∀ h, status_ok (ata h) (bus_inb (base + 7) h).1 ∧
    ata (bus_inb (base + 7) h).2 = set_intrq false (ata h);
  spec_reg : ∀ h r v, 2 <= r <= 6 → is_u8 v → (ata h).(a_phase) = Idle →
    ata (bus_outb (base + r) v h) = set_reg r v (ata h);
  spec_read : ∀ h, (ata h).(a_phase) = Idle → a_uses_lba (ata h) →
    enters latency (set_phase (Reading 0 ((ata h).(a_media) (a_dev (ata h)) (a_lba (ata h))))
                      (set_intrq false (ata h)))
      (ata (bus_outb (base + 7) CMD_READ_SECTOR_RETRY h));
  spec_write : ∀ h, (ata h).(a_phase) = Idle → a_uses_lba (ata h) →
    enters latency (set_phase (Accepting 0 (a_dev (ata h)) (a_lba (ata h))) (set_intrq false (ata h)))
      (ata (bus_outb (base + 7) CMD_WRITE_SECTOR_RETRY h));
  spec_in : ∀ h data, (ata h).(a_phase) = DataIn data →
    (bus_insw (base + 0) 256 h).1 = data ∧ ata (bus_insw (base + 0) 256 h).2 = set_phase Idle (ata h);
  spec_out : ∀ h dev lba data, (ata h).(a_phase) = DataOut dev lba → length data = 512%nat →
    enters latency (set_phase (Writing 0 dev lba data) (ata h)) (ata (bus_outsw (base + 0) data h));
  spec_pause_idle : ∀ h ns, busy (ata h).(a_phase) = false → ata (bus_pause ns h) = ata h;
  spec_pause : ∀ h, busy (ata h).(a_phase) = true →
    ata (bus_pause 10000000 h) = complete (ata h) ∨
    ∃ n, (n < left (ata h).(a_phase))%nat ∧
      ata (bus_pause 10000000 h) = set_phase (with_left n (ata h).(a_phase)) (ata h);
  spec_wait : ∀ h, ata (bus_wait h) = if busy (ata h).(a_phase) then complete (ata h) else ata h;
  spec_irq : ∀ h, bus_irq h = if (ata h).(a_intrq) then Some irq else None }.

(** ** Reading and writing sectors *)

Lemma set_intrq_id a b : a.(a_intrq) = b → set_intrq b a = a.
Proof. intros <-. by destruct a. Qed.

Section client.
Context {H : Type} {HB : AtaBus H} (c base irq : Z) {HS : AtaSpec H base irq} (Hc : 0 <= c).
Abbreviation I := (st (ide H)).

(** The state of channel [c] and of its device. *)
Record at_chan (s : ide H) (lk ex : bool) (comp : Z) (a : ata_state) : Prop := {
  ac_chan : ∃ nm ds, s.(channels) !! Z.to_nat c = Some (mk_channel nm base irq lk ex comp ds);
  ac_irq : find_irq irq 0 s.(channels) = Some c;
  ac_on : s.(level_on) = true;
  ac_ata : ata s.(hw) = a }.

Lemma find_irq_insert vec i l n x y :
  l !! n = Some x → y.(c_irq) = x.(c_irq) → find_irq vec i (<[n := y]> l) = find_irq vec i l.
Proof.
  revert i n. induction l as [|z l IH]; intros i [|n] Hl Hy; cbn in *; [done|done|by simplify_eq; rewrite Hy|].
  destruct (vec =? z.(c_irq)); [done|by apply IH].
Qed.

Lemma get_chan_ok (s : ide H) x : s.(channels) !! Z.to_nat c = Some x → get_chan c s = Ok (x, s).
Proof. intros E. unfold get_chan. by rewrite run_gets, E. Qed.

Lemma put_at (s : ide H) nm ds lk ex comp a lk' ex' comp' :
  at_chan s lk ex comp a → s.(channels) !! Z.to_nat c = Some (mk_channel nm base irq lk ex comp ds) →
  at_chan (set_channels (<[Z.to_nat c := mk_channel nm base irq lk' ex' comp' ds]> s.(channels)) s) lk' ex' comp' a.
Proof.
  intros [_ H2 H3 H4] E. split; [|..|done|done].
  - exists nm, ds. cbn. apply list_lookup_insert_eq. by apply lookup_lt_Some in E.
  - cbn. by erewrite find_irq_insert.
Qed.

Lemma hw_at (s : ide H) lk ex comp a h : at_chan s lk ex comp a → at_chan (set_hw h s) lk ex comp (ata h).
Proof. by intros [H1 H2 H3 H4]; split. Qed.

Lemma alt_at (s : ide H) lk ex comp a :
  at_chan s lk ex comp a →
  ∃ v s', in_b (base + 518) s = Ok (v, s') ∧ status_ok a v ∧ at_chan s' lk ex comp a.
Proof.
  intros Ha. pose proof (spec_alt s.(hw)) as [H1 H2]. rewrite (ac_ata _ _ _ _ _ Ha) in H1, H2.
  unfold in_b. destruct (bus_inb (base + 518) s.(hw)) as [v h]. cbn in H1, H2.
  eexists _, _. split; [reflexivity|]. split; [done|]. rewrite <-H2. by eapply hw_at.
Qed.

Lemma status_at (s : ide H) lk ex comp a :
  at_chan s lk ex comp a →
  ∃ v s', in_b (base + 7) s = Ok (v, s') ∧ status_ok a v ∧ at_chan s' lk ex comp (set_intrq false a).
Proof.
  intros Ha. pose proof (spec_status s.(hw)) as [H1 H2]. rewrite (ac_ata _ _ _ _ _ Ha) in H1, H2.
  unfold in_b. destruct (bus_inb (base + 7) s.(hw)) as [v h]. cbn in H1, H2.
  eexists _, _. split; [reflexivity|]. split; [done|]. rewrite <-H2. by eapply hw_at.
Qed.

Lemma reg_at (s : ide H) lk ex comp a r v :
  at_chan s lk ex comp a → 2 <= r <= 6 → a.(a_phase) = Idle →
  ∃ s', out_b (base + r) v s = Ok (tt, s') ∧ at_chan s' lk ex comp (set_reg r (u8 v) a).
Proof.
  intros Ha Hr Hi. eexists. split; [reflexivity|]. rewrite <-(ac_ata _ _ _ _ _ Ha).
  rewrite <-spec_reg; [by eapply hw_at|done|apply u8_range|by rewrite (ac_ata _ _ _ _ _ Ha)].
Qed.

(** An interrupt that is requested is taken: the semaphore is raised. *)
Lemma irq_at (s : ide H) lk comp a :
  at_chan s lk true comp a → 0 <= comp < 4294967295 →
  ∃ s', take_irq s = Ok (tt, s') ∧
    if a.(a_intrq) then at_chan s' lk true (comp + 1) (set_intrq false a) else at_chan s' lk true comp a.
Proof.
  intros Ha Hcomp. unfold take_irq. rewrite run_gets, spec_irq, (ac_ata _ _ _ _ _ Ha).
  destruct (a_intrq a); [|by exists s].
  unfold interrupt_handler. rewrite run_gets, (ac_irq _ _ _ _ _ Ha).
  pose proof (ac_chan _ _ _ _ _ Ha) as (nm & ds & E). rewrite (run_bind _ _ _ _ _ (get_chan_ok _ _ E)).
  cbn [expecting_interrupt]. unfold reg_status. cbn [reg_base].
  destruct (status_at _ _ _ _ _ Ha) as (v & s1 & E1 & _ & Ha1). rewrite (run_bind _ _ _ _ _ E1).
  pose proof (ac_chan _ _ _ _ _ Ha1) as (nm1 & ds1 & E1'). rewrite (run_bind _ _ _ _ _ (get_chan_ok _ _ E1')).
  eexists. split; [reflexivity|]. cbn [completion_wait set_completion c_name reg_base c_irq c_lock expecting_interrupt devices].
  rewrite u32_small by lia. by eapply put_at.
Qed.

Lemma sched_at (s : ide H) lk ex comp a l : at_chan s lk ex comp a → at_chan (set_sched l s) lk ex comp a.
Proof. by intros [H1 H2 H3 H4]; split. Qed.

(** At an interrupt point, either nothing happens or the interrupt is taken. *)
Lemma point_at (s : ide H) lk comp a :
  at_chan s lk true comp a → 0 <= comp < 4294967295 →
  ∃ s', intr_point s = Ok (tt, s') ∧
    (at_chan s' lk true comp a ∨ a.(a_intrq) = true ∧ at_chan s' lk true (comp + 1) (set_intrq false a)).
Proof.
  intros Ha Hcomp. unfold intr_point. rewrite run_gets. destruct (sched s) as [|b l] eqn:El; [by exists s; auto|].
  rewrite run_modify. pose proof (sched_at _ _ _ _ _ l Ha) as Hs. destruct b; cbn [when]; [|eexists; split; [done|by left]].
  destruct (irq_at _ _ _ _ Hs Hcomp) as (s' & E & Hq). exists s'. split; [done|].
  destruct (a_intrq a) eqn:Ei; [right; by split|by left].
Qed.

(** A quiet device requests no interrupt, whatever the driver expects. *)
Lemma point_quiet (s : ide H) lk ex comp a :
  at_chan s lk ex comp a → a.(a_intrq) = false →
  ∃ s', intr_point s = Ok (tt, s') ∧ at_chan s' lk ex comp a.
Proof.
  intros Ha Hq. unfold intr_point. rewrite run_gets. destruct (sched s) as [|b l] eqn:El; [by exists s|].
  rewrite run_modify. pose proof (sched_at _ _ _ _ _ l Ha) as Hs. eexists. split; [|exact Hs].
  destruct b; [|done]. cbn [when]. unfold take_irq. rewrite run_gets, spec_irq, (ac_ata _ _ _ _ _ Hs), Hq. done.
Qed.

(** *** Waiting *)

Definition quiet (a : ata_state) : Prop := a.(a_phase) = Idle ∧ a.(a_intrq) = false.

Lemma idle_loop_at n (s : ide H) lk ex comp a :
  at_chan s lk ex comp a → quiet a →
  ∃ s', idle_loop (S n) c s = Ok (true, s') ∧ at_chan s' lk ex comp a.
Proof.
  intros Ha [Hi Hq]. cbn [idle_loop].
  destruct (status_at _ _ _ _ _ Ha) as (v & s1 & E1 & [S1 S2] & Ha1). rewrite Hi in S1, S2. cbn in S1, S2.
  rewrite set_intrq_id in Ha1 by done. exists s1. split; [|done].
  pose proof (ac_chan _ _ _ _ _ Ha) as (nm & ds & Ech). rewrite (run_bind _ _ _ _ _ (get_chan_ok _ _ Ech)).
  unfold reg_status. cbn [reg_base]. rewrite (run_bind _ _ _ _ _ E1).
  apply Z.eqb_eq in S1. specialize (S2 eq_refl). apply Z.eqb_eq in S2.
  by rewrite Z.land_lor_distr_r, S1, S2.
Qed.

Lemma until_idle_at (s : ide H) lk ex comp a dev :
  at_chan s lk ex comp a → quiet a →
  ∃ s', wait_until_idle (c, dev) s = Ok (tt, s') ∧ at_chan s' lk ex comp a.
Proof.
  intros Ha Hq. destruct (idle_loop_at 999 _ _ _ _ _ Ha Hq) as (s' & E & Hs'). exists s'. split; [|done].
  unfold wait_until_idle. by rewrite (run_bind _ _ _ _ _ E).
Qed.

(** Waiting for the device to be ready for data. *)
Lemma busy_at n : ∀ (s : ide H) i lk dev a,
  at_chan s lk true 0 a → a.(a_intrq) = false →
  (∃ d l k, a.(a_phase) = Accepting k d l ∧ (S k < n)%nat ∨ a.(a_phase) = DataOut d l) →
  (0 < n)%nat →
  ∃ s', busy_loop n i (c, dev) s = Ok (true, s') ∧
    at_chan s' lk true 0 (match a.(a_phase) with Accepting _ d l => set_phase (DataOut d l) a | _ => a end).
Proof.
  induction n as [|n IH]; intros s i lk dev a Ha Hq (d & l & k & Hp) Hn; [lia|]. cbn [busy_loop].
  set (m := when (i =? 700) _).
  assert (∃ s1, m s = Ok (tt, s1) ∧ at_chan s1 lk true 0 a) as (s1 & E1 & Ha1).
  { unfold m. destruct (i =? 700); cbn [when]; eexists; (split; [reflexivity|]); [|done]. by destruct Ha; split. }
  rewrite (run_bind _ _ _ _ _ E1). cbn [fst].
  pose proof (ac_chan _ _ _ _ _ Ha1) as (nm & ds & Ech). rewrite (run_bind _ _ _ _ _ (get_chan_ok _ _ Ech)).
  unfold reg_alt_status, reg_ctl. cbn [reg_base].
  destruct (alt_at _ _ _ _ _ Ha1) as (v & s2 & E2 & [S1 S2] & Ha2). rewrite (run_bind _ _ _ _ _ E2).
  destruct Hp as [[Hp Hk]|Hp]; rewrite Hp in S1, S2 |- *; cbn [busy drq negb] in S1, S2; rewrite S1.
  - unfold msleep, sleep. change (1000000 * 10) with 10000000.
    pose proof (hw_at _ _ _ _ _ (bus_pause 10000000 s2.(hw)) Ha2) as Hp3.
    assert (Hb : busy (ata s2.(hw)).(a_phase) = true) by (rewrite (ac_ata _ _ _ _ _ Ha2), Hp; done).
    pose proof (spec_pause _ Hb) as Hsp. rewrite (ac_ata _ _ _ _ _ Ha2) in Hsp.
    assert (Ha4 : ∃ a', ata (bus_pause 10000000 s2.(hw)) = a' ∧ a'.(a_intrq) = false ∧
      (a' = set_phase (DataOut d l) a ∨ ∃ k', (k' < k)%nat ∧ a' = set_phase (Accepting k' d l) a)).
    { eexists. split; [reflexivity|]. unfold complete in Hsp. rewrite Hp in Hsp. cbn [left with_left] in Hsp.
      destruct Hsp as [-> |(k' & Hk' & ->)]; (split; [done|]); [by left|right; by exists k']. }
    destruct Ha4 as (a' & Ea & Hq' & Hor). rewrite Ea in Hp3.
    destruct (point_quiet _ _ _ _ _ Hp3 Hq') as (s4 & E4 & Ha4).
    rewrite (run_bind _ _ s2 tt s4) by (rewrite run_modify; exact E4).
    assert (Hn' : (0 < n)%nat) by lia.
    destruct (IH s4 (i + 1) lk dev a' Ha4 Hq') as (s5 & E5 & Ha5); [|done|].
    + exists d, l. destruct Hor as [-> |(k' & Hk' & ->)]; [exists 0%nat; by right|exists k'; left; split; [done|lia]].
    + exists s5. split; [exact E5|]. by destruct Hor as [-> |(k' & Hk' & ->)].
  - set (m' := when (700 <=? i) _).
    assert (∃ s3, m' s2 = Ok (tt, s3) ∧ at_chan s3 lk true 0 a) as (s3 & E3 & Ha3).
    { unfold m'. destruct (700 <=? i); cbn [when]; eexists; (split; [reflexivity|]); [|done]. by destruct Ha2; split. }
    rewrite (run_bind _ _ _ _ _ E3).
    destruct (alt_at _ _ _ _ _ Ha3) as (v' & s4 & E4 & [_ S4] & Ha4). rewrite (run_bind _ _ _ _ _ E4).
    rewrite Hp in S4. cbn in S4. exists s4. split; [|done]. by rewrite S4.
Qed.

(** The device is ready at once. *)
Lemma ready_loop n (s : ide H) lk comp dev a data :
  at_chan s lk true comp a → a.(a_phase) = DataIn data →
  ∃ s', busy_loop (S n) 0 (c, dev) s = Ok (true, s') ∧ at_chan s' lk true comp a.
Proof.
  intros Ha Hp. cbn [busy_loop Z.eqb when].
  rewrite (run_bind _ _ _ tt s) by done. cbn [fst].
  pose proof (ac_chan _ _ _ _ _ Ha) as (nm & ds & Ech). rewrite (run_bind _ _ _ _ _ (get_chan_ok _ _ Ech)).
  unfold reg_alt_status, reg_ctl. cbn [reg_base].
  destruct (alt_at _ _ _ _ _ Ha) as (v & s1 & E1 & [S1 _] & Ha1). rewrite (run_bind _ _ _ _ _ E1).
  rewrite Hp in S1. cbn in S1. rewrite S1. rewrite (run_bind _ _ _ tt s1) by done.
  destruct (alt_at _ _ _ _ _ Ha1) as (v' & s2 & E2 & [_ S2] & Ha2). rewrite (run_bind _ _ _ _ _ E2).
  rewrite Hp in S2. cbn in S2. exists s2. split; [|done]. by rewrite S2.
Qed.

Lemma ready_at (s : ide H) lk comp dev a data :
  at_chan s lk true comp a → a.(a_phase) = DataIn data →
  ∃ s', wait_while_busy (c, dev) s = Ok (true, s') ∧ at_chan s' lk true comp a.
Proof. apply (ready_loop 2999). Qed.

(** *** The completion semaphore *)

(** A command that is under way, or whose interrupt has not been taken yet, or
    whose interrupt has been taken. *)
Definition pending (s : ide H) (a : ata_state) : Prop :=
  ∃ a' comp, at_chan s true true comp a' ∧
    (comp = 0 ∧ (a' = a ∨ (∃ n, a' = set_phase (with_left n a.(a_phase)) a) ∨ a' = complete a) ∨
     comp = 1 ∧ a' = set_intrq false (complete a)).

(** What sema_down() waits for: a command that ends with an interrupt. *)
Definition interrupts (a : ata_state) : Prop :=
  match a.(a_phase) with Reading _ _ | Writing _ _ _ _ => a.(a_intrq) = false | _ => False end.

Lemma complete_left n a : complete (set_phase (with_left n a.(a_phase)) a) = complete a.
Proof. destruct a as [? ? ? ? ? []]; done. Qed.

Lemma complete_irq a : interrupts a → (complete a).(a_intrq) = true ∧ busy (complete a).(a_phase) = false.
Proof. unfold interrupts, complete. by destruct (a_phase a). Qed.

Lemma busy_left n a : busy (with_left n a.(a_phase)) = busy a.(a_phase).
Proof. by destruct (a_phase a). Qed.

Lemma down_at (s : ide H) a :
  pending s a → interrupts a →
  ∃ s', down_completion c s = Ok (tt, s') ∧ at_chan s' true true 0 (set_intrq false (complete a)).
Proof.
  intros (a' & comp & Ha & Hor) Hint. destruct (complete_irq a Hint) as [Hi Hb].
  unfold down_completion. cbn [sema_down_completion].
  pose proof (ac_chan _ _ _ _ _ Ha) as (nm & ds & Ech). rewrite (run_bind _ _ _ _ _ (get_chan_ok _ _ Ech)).
  cbn [completion_wait]. destruct Hor as [[-> Hor]|[-> ->]]; cbn [Z.ltb Z.compare].
  - rewrite run_modify. pose proof (hw_at _ _ _ _ _ (bus_wait s.(hw)) Ha) as Ha1.
    assert (Ew : ata (bus_wait s.(hw)) = complete a).
    { rewrite spec_wait, (ac_ata _ _ _ _ _ Ha). destruct Hor as [-> |[(n & ->)| ->]].
      - unfold interrupts in Hint. by destruct (a_phase a) eqn:E; cbn.
      - cbn [a_phase set_phase]. rewrite busy_left, complete_left.
        unfold interrupts in Hint. by destruct (a_phase a) eqn:E; cbn.
      - by rewrite Hb. }
    rewrite Ew in Ha1. destruct (irq_at _ _ _ _ Ha1 ltac:(lia)) as (s2 & E2 & Ha2). rewrite Hi in Ha2.
    rewrite (run_bind _ _ _ _ _ E2). pose proof (ac_chan _ _ _ _ _ Ha2) as (nm2 & ds2 & Ech2).
    rewrite (run_bind _ _ _ _ _ (get_chan_ok _ _ Ech2)). cbn [completion_wait Z.add Z.ltb Z.compare].
    eexists. split; [reflexivity|]. by apply (put_at _ _ _ _ _ _ _ true true 0 Ha2).
  - eexists. split; [reflexivity|]. by apply (put_at _ _ _ _ _ _ _ true true 0 Ha).
Qed.

(** *** Selecting a sector *)

Lemma select_device_at (s : ide H) lk ex comp a dev :
  at_chan s lk ex comp a → quiet a →
  ∃ s' v, select_device (c, dev) s = Ok (tt, s') ∧ at_chan s' lk ex comp (set_reg 6 v a).
Proof.
  intros Ha [Hi Hq]. unfold select_device. cbn [fst snd].
  pose proof (ac_chan _ _ _ _ _ Ha) as (nm & ds & Ech). rewrite (run_bind _ _ _ _ _ (get_chan_ok _ _ Ech)).
  unfold reg_device, reg_alt_status, reg_ctl. cbn [reg_base]. set (dv := if dev =? 1 then _ else _).
  destruct (reg_at s _ _ _ _ 6 dv Ha) as (s1 & E1 & Ha1); [lia|done|].
  rewrite (run_bind _ _ _ _ _ E1). destruct (alt_at _ _ _ _ _ Ha1) as (w & s2 & E2 & _ & Ha2). rewrite (run_bind _ _ _ _ _ E2).
  unfold nsleep, sleep. rewrite run_modify.
  pose proof (hw_at _ _ _ _ _ (bus_pause 400 s2.(hw)) Ha2) as Ha3.
  rewrite spec_pause_idle, (ac_ata _ _ _ _ _ Ha2) in Ha3 by (rewrite (ac_ata _ _ _ _ _ Ha2); cbn; by rewrite Hi).
  destruct (point_quiet _ _ _ _ _ Ha3) as (s4 & E4 & Ha4); [done|]. eexists s4, _. split; [exact E4|exact Ha4].
Qed.

Lemma select_wait_at (s : ide H) lk ex comp a dev :
  at_chan s lk ex comp a → quiet a →
  ∃ s' v, select_device_wait (c, dev) s = Ok (tt, s') ∧ at_chan s' lk ex comp (set_reg 6 v a).
Proof.
  intros Ha Hq. unfold select_device_wait.
  destruct (until_idle_at _ _ _ _ _ dev Ha Hq) as (s1 & E1 & Ha1). rewrite (run_bind _ _ _ _ _ E1).
  destruct (select_device_at _ _ _ _ _ dev Ha1 Hq) as (s2 & v & E2 & Ha2). rewrite (run_bind _ _ _ _ _ E2).
  destruct (until_idle_at _ _ _ _ _ dev Ha2) as (s3 & E3 & Ha3); [by destruct Hq; split|]. by exists s3, v.
Qed.

(** The registers after select_sector() name the sector. *)
Definition selected (a : ata_state) (dev sec : Z) : Prop :=
  quiet a ∧ a_uses_lba a ∧ a_dev a = dev ∧ a_lba a = sec.

Lemma lba_device dev hi :
  (dev = 0 ∨ dev = 1) → 0 <= hi < 16 →
  Z.lor (Z.lor (Z.lor DEV_MBS DEV_LBA) (if dev =? 1 then DEV_DEV else 0)) hi = 224 + 16 * dev + hi.
Proof.
  intros Hd Hh. replace (Z.lor (Z.lor DEV_MBS DEV_LBA) _) with ((14 + dev) * 2 ^ 4) by by destruct Hd as [-> | ->].
  rewrite lor_high by lia. lia.
Qed.

Lemma select_sector_at (s : ide H) lk ex comp a dev sec :
  at_chan s lk ex comp a → quiet a → (dev = 0 ∨ dev = 1) → 0 <= sec < 268435456 →
  ∃ s' a', select_sector (c, dev) sec s = Ok (tt, s') ∧ at_chan s' lk ex comp a' ∧
    selected a' dev sec ∧ a'.(a_media) = a.(a_media).
Proof.
  intros Ha Hq Hd Hs. unfold select_sector. rewrite (run_lift _ _ _ tt) by (apply ASSERT_true, Z.ltb_lt; lia).
  destruct (select_wait_at _ _ _ _ _ dev Ha Hq) as (s1 & v & E1 & Ha1). rewrite (run_bind _ _ _ _ _ E1). cbn [fst snd].
  pose proof (ac_chan _ _ _ _ _ Ha1) as (nm & ds & Ech). rewrite (run_bind _ _ _ _ _ (get_chan_ok _ _ Ech)).
  unfold reg_nsect, reg_lbal, reg_lbam, reg_lbah, reg_device. cbn [reg_base]. destruct Hq as [Hi Hq].
  rewrite !Z.shiftr_div_pow2 by lia. rewrite lba_device by (done || zdm).
  destruct (reg_at _ _ _ _ _ 2 1 Ha1) as (s2 & E2 & Ha2); [lia|done|]. rewrite (run_bind _ _ _ _ _ E2).
  destruct (reg_at _ _ _ _ _ 3 sec Ha2) as (s3 & E3 & Ha3); [lia|done|]. rewrite (run_bind _ _ _ _ _ E3).
  destruct (reg_at _ _ _ _ _ 4 (sec / 2 ^ 8) Ha3) as (s4 & E4 & Ha4); [lia|done|]. rewrite (run_bind _ _ _ _ _ E4).
  destruct (reg_at _ _ _ _ _ 5 (sec / 2 ^ 16) Ha4) as (s5 & E5 & Ha5); [lia|done|]. rewrite (run_bind _ _ _ _ _ E5).
  destruct (reg_at _ _ _ _ _ 6 (224 + 16 * dev + sec / 2 ^ 24) Ha5) as (s6 & E6 & Ha6); [lia|done|].
  exists s6. eexists. split; [exact E6|]. split; [exact Ha6|]. split; [|done].
  assert (H8 : u8 (224 + 16 * dev + sec / 2 ^ 24) = 224 + 16 * dev + sec / 2 ^ 24) by (apply u8_small; destruct Hd; zdm).
  split; [done|]. split.
  - split; [|done]. cbn [a_device set_reg Z.eqb Pos.eqb]. rewrite H8, Z.testbit_true by lia.
    destruct Hd as [-> | ->]; zdm.
  - unfold a_dev, a_lba. cbn [a_device a_lbal a_lbam a_lbah set_reg Z.eqb Pos.eqb]. rewrite H8. unfold u8.
    destruct Hd as [-> | ->]; split; zdm.
Qed.

(** *** Commands *)

Lemma issue_at (s : ide H) ex a cmd a1 :
  at_chan s true ex 0 a →
  (∀ h, ata h = a → enters latency a1 (ata (bus_outb (base + 7) cmd h))) → is_u8 cmd →
  ∃ s' a', issue_pio_command c cmd s = Ok (tt, s') ∧
    (at_chan s' true true 0 a' ∨ a'.(a_intrq) = true ∧ at_chan s' true true 1 (set_intrq false a')) ∧
    enters latency a1 a'.
Proof.
  intros Ha He Hu. unfold issue_pio_command. rewrite run_gets, (ac_on _ _ _ _ _ Ha).
  rewrite (run_lift _ _ _ tt) by done.
  pose proof (ac_chan _ _ _ _ _ Ha) as (nm & ds & Ech). rewrite (run_bind _ _ _ _ _ (get_chan_ok _ _ Ech)).
  unfold put_chan. rewrite run_modify. cbn [set_expecting c_name reg_base c_irq c_lock completion_wait devices].
  pose proof (put_at _ _ _ _ _ _ _ true true 0 Ha Ech) as Ha1. unfold reg_command, reg_status. cbn [reg_base].
  unfold out_b. rewrite run_modify, u8_small by done. set (s1 := set_channels _ s) in *.
  pose proof (hw_at _ _ _ _ _ (bus_outb (base + 7) cmd s1.(hw)) Ha1) as Ha2.
  destruct (point_at _ _ _ _ Ha2 ltac:(lia)) as (s3 & E3 & H3). exists s3. eexists. split; [exact E3|].
  split; [exact H3|]. apply He. apply (ac_ata _ _ _ _ _ Ha1).
Qed.

Lemma enters_pending (s : ide H) a1 a' :
  (at_chan s true true 0 a' ∨ a'.(a_intrq) = true ∧ at_chan s true true 1 (set_intrq false a')) →
  enters latency a1 a' → interrupts a1 → pending s a1.
Proof.
  intros Hs (n & _ & Hn) Hi. destruct Hs as [Hs|[Hq Hs]].
  - exists a', 0. split; [done|]. left. split; [done|]. destruct Hn as [-> | ->]; eauto.
  - exists (set_intrq false a'), 1. split; [done|]. right. split; [done|].
    destruct Hn as [-> | ->]; [|done]. exfalso. unfold interrupts in Hi. cbn in Hq.
    destruct (a_phase a1); first [done | congruence].
Qed.

Lemma acquire_at (s : ide H) ex a :
  at_chan s false ex 0 a → ∃ s', lock_channel c s = Ok (tt, s') ∧ at_chan s' true ex 0 a.
Proof.
  intros Ha. unfold lock_channel. pose proof (ac_chan _ _ _ _ _ Ha) as (nm & ds & Ech).
  rewrite (run_bind _ _ _ _ _ (get_chan_ok _ _ Ech)). cbn [c_lock]. rewrite (run_lift _ _ _ tt) by done.
  eexists. split; [reflexivity|]. by apply (put_at _ _ _ _ _ _ _ true ex 0 Ha).
Qed.

Lemma release_at (s : ide H) ex a :
  at_chan s true ex 0 a → ∃ s', unlock_channel c s = Ok (tt, s') ∧ at_chan s' false ex 0 a.
Proof.
  intros Ha. unfold unlock_channel. pose proof (ac_chan _ _ _ _ _ Ha) as (nm & ds & Ech).
  rewrite (run_bind _ _ _ _ _ (get_chan_ok _ _ Ech)). cbn [c_lock]. rewrite (run_lift _ _ _ tt) by done.
  eexists. split; [reflexivity|]. by apply (put_at _ _ _ _ _ _ _ false ex 0 Ha).
Qed.

(** The driver between two calls: the channel is unlocked, no interrupt is
    outstanding, the device is idle and its media hold [m]. *)
Definition rests (s : ide H) (m : Z → Z → list Z) : Prop :=
  ∃ ex a, at_chan s false ex 0 a ∧ quiet a ∧ a.(a_media) = m.

Lemma ide_read_ok (s : ide H) m dev sec :
  rests s m → (dev = 0 ∨ dev = 1) → 0 <= sec < 268435456 →
  ∃ s', ide_read (c, dev) sec s = Ok (m dev sec, s') ∧ rests s' m.
Proof.
  intros (ex & a & Ha & Hq & Hm) Hd Hs. unfold ide_read. cbn [fst].
  destruct (acquire_at _ _ _ Ha) as (s1 & E1 & Ha1). rewrite (run_bind _ _ _ _ _ E1).
  destruct (select_sector_at _ _ _ _ _ dev sec Ha1 Hq Hd Hs) as (s2 & a2 & E2 & Ha2 & ([Hi2 Hq2] & Hl & Hdev & Hlba) & Hm2).
  rewrite (run_bind _ _ _ _ _ E2). set (data := m dev sec).
  set (a3 := set_phase (Reading 0 data) (set_intrq false a2)).
  destruct (issue_at _ _ _ CMD_READ_SECTOR_RETRY a3 Ha2) as (s3 & a' & E3 & H3 & He); [|done|].
  { intros h Hh. pose proof (spec_read h) as Hr. rewrite Hh in Hr. specialize (Hr Hi2 Hl).
    rewrite Hdev, Hlba, Hm2, Hm in Hr. exact Hr. }
  rewrite (run_bind _ _ _ _ _ E3). pose proof (enters_pending _ _ _ H3 He eq_refl) as Hp.
  destruct (down_at _ _ Hp eq_refl) as (s4 & E4 & Ha4). rewrite (run_bind _ _ _ _ _ E4).
  destruct (ready_at _ _ _ dev _ data Ha4 eq_refl) as (s5 & E5 & Ha5). rewrite (run_bind _ _ _ _ _ E5). cbn [negb].
  pose proof (ac_chan _ _ _ _ _ Ha5) as (nm & ds & Ech).
  destruct (spec_in s5.(hw) data) as [I1 I2]; [by rewrite (ac_ata _ _ _ _ _ Ha5)|].
  rewrite (ac_ata _ _ _ _ _ Ha5) in I2.
  set (h6 := (bus_insw (base + 0) 256 s5.(hw)).2) in *.
  assert (E6 : input_sector c s5 = Ok (data, set_hw h6 s5)).
  { unfold input_sector. rewrite (run_bind _ _ _ _ _ (get_chan_ok _ _ Ech)). unfold reg_data, insw. cbn [reg_base].
    unfold h6. destruct (bus_insw (base + 0) 256 s5.(hw)) as [bs h]. cbn in *. by rewrite I1. }
  rewrite (run_bind _ _ _ _ _ E6). pose proof (hw_at _ _ _ _ _ h6 Ha5) as Ha6. rewrite I2 in Ha6.
  destruct (release_at _ _ _ Ha6) as (s7 & E7 & Ha7). rewrite (run_bind _ _ _ _ _ E7).
  exists s7. split; [done|]. eexists true, _. split; [exact Ha7|]. split; [done|]. cbn. by rewrite Hm2.
Qed.

Lemma ide_write_ok (s : ide H) m dev sec data :
  rests s m → (dev = 0 ∨ dev = 1) → 0 <= sec < 268435456 → length data = 512%nat →
  ∃ s', ide_write (c, dev) sec data s = Ok (tt, s') ∧ rests s' (write_media dev sec data m).
Proof.
  intros (ex & a & Ha & Hq & Hm) Hd Hs Hlen. unfold ide_write. cbn [fst].
  destruct (acquire_at _ _ _ Ha) as (s1 & E1 & Ha1). rewrite (run_bind _ _ _ _ _ E1).
  destruct (select_sector_at _ _ _ _ _ dev sec Ha1 Hq Hd Hs) as (s2 & a2 & E2 & Ha2 & ([Hi2 Hq2] & Hl & Hdev & Hlba) & Hm2).
  rewrite (run_bind _ _ _ _ _ E2).
  set (a3 := set_phase (Accepting 0 dev sec) (set_intrq false a2)).
  destruct (issue_at _ _ _ CMD_WRITE_SECTOR_RETRY a3 Ha2) as (s3 & a' & E3 & H3 & (n & Hn & He)); [|done|].
  { intros h Hh. pose proof (spec_write h) as Hr. rewrite Hh in Hr. specialize (Hr Hi2 Hl).
    rewrite Hdev, Hlba in Hr. exact Hr. }
  rewrite (run_bind _ _ _ _ _ E3).
  assert (Hq' : a'.(a_intrq) = false) by by destruct He as [-> | ->].
  assert (Ha3 : at_chan s3 true true 0 a') by (destruct H3 as [|[? _]]; [done|congruence]).
  pose proof latency_ok as Hlat.
  destruct (busy_at 3000 s3 0 true dev a' Ha3 Hq') as (s4 & E4 & Ha4); [|lia|].
  { exists dev, sec, n. destruct He as [-> | ->]; [left|right]; [split; [done|lia]|done]. }
  rewrite (run_bind _ _ _ _ _ E4). cbn [negb].
  set (a4 := set_phase (DataOut dev sec) (set_intrq false a2)).
  assert (Ha4' : at_chan s4 true true 0 a4) by by destruct He as [-> | ->].
  pose proof (ac_chan _ _ _ _ _ Ha4') as (nm & ds & Ech).
  set (h5 := bus_outsw (base + 0) data s4.(hw)).
  pose proof (hw_at _ _ _ _ _ h5 Ha4') as Ha5.
  assert (He5 : enters latency (set_phase (Writing 0 dev sec data) a4) (ata h5)).
  { pose proof (spec_out s4.(hw) dev sec data) as Ho. rewrite (ac_ata _ _ _ _ _ Ha4') in Ho. by apply Ho. }
  destruct (point_at _ _ _ _ Ha5 ltac:(lia)) as (s6 & E6 & H6).
  rewrite (run_bind _ _ s4 tt s6).
  2:{ unfold output_sector. rewrite (run_bind _ _ _ _ _ (get_chan_ok _ _ Ech)). unfold reg_data. cbn [reg_base].
      rewrite run_modify. exact E6. }
  pose proof (enters_pending _ _ _ H6 He5 eq_refl) as Hp.
  destruct (down_at _ _ Hp eq_refl) as (s7 & E7 & Ha7). rewrite (run_bind _ _ _ _ _ E7).
  destruct (release_at _ _ _ Ha7) as (s8 & E8 & Ha8).
  exists s8. split; [exact E8|]. eexists true, _. split; [exact Ha8|]. split; [done|]. cbn. by rewrite Hm2, Hm.
Qed.
End client.

(** ** An executable controller

    A channel at the ports of ide0 with one disk, busy for two pauses after each
    command. *)
Definition SIM_BASE : Z := 496.
Definition SIM_IRQ : Z := 46.
Definition sim_status (a : ata_state) : Z :=
  if busy a.(a_phase) then 128 else if drq a.(a_phase) then 72 else 64.

(** The answer to IDENTIFY DEVICE: model ["ab"], serial number ["c"], 64 sectors. *)
Definition sim_identity : list Z :=
  replicate 20 0 ++ [98; 97] ++ replicate 18 32 ++ replicate 14 0 ++ [32; 99] ++ replicate 38 32 ++
  replicate 26 0 ++ le32 64 ++ replicate 388 0.

Definition sim_inb (port : Z) (a : ata_state) : Z * ata_state :=
  let r := port - SIM_BASE in
  if r =? 518 then (sim_status a, a)
  else if r =? 7 then (sim_status a, set_intrq false a)
  else if r =? 1 then (if a_dev a =? 0 then 1 else 0, a)
  else if r =? 2 then (if a_dev a =? 0 then a.(a_nsect) else 0, a)
  else if r =? 3 then (if a_dev a =? 0 then a.(a_lbal) else 0, a)
  else if (r =? 4) || (r =? 5) then (0, a)
  else (255, a).

Definition sim_outb (port v : Z) (a : ata_state) : ata_state :=
  let r := port - SIM_BASE in
  let a0 := set_intrq false a in
  if (2 <=? r) && (r <=? 6) then set_reg r v a
  else if r =? 7 then
    if v =? CMD_READ_SECTOR_RETRY then set_phase (Reading 2 (a.(a_media) (a_dev a) (a_lba a))) a0
    else if v =? CMD_WRITE_SECTOR_RETRY then set_phase (Accepting 2 (a_dev a) (a_lba a)) a0
    else if v =? CMD_IDENTIFY_DEVICE then set_phase (Reading 2 sim_identity) a0
    else a0
  else a.

#[export] Instance sim_bus : AtaBus ata_state := {
  bus_inb := sim_inb;
  bus_outb := sim_outb;
  bus_insw := λ _ _ a, match a.(a_phase) with DataIn d => (d, set_phase Idle a) | _ => ([], a) end;
  bus_outsw := λ _ bs a,
    match a.(a_phase) with DataOut d l => set_phase (Writing 2 d l bs) a | _ => a end;
  bus_pause := λ ns a,
    if busy a.(a_phase) && (10000000 <=? ns) then
      match left a.(a_phase) with
      | O => complete a
      | S n => set_phase (with_left n a.(a_phase)) a
      end
    else a;
  bus_irq := λ a, if a.(a_intrq) then Some SIM_IRQ else None;
  bus_wait := λ a, if busy a.(a_phase) then complete a else a }.

Lemma sim_status_ok a : status_ok a (sim_status a).
Proof. unfold status_ok, sim_status. by destruct (a_phase a); cbn. Qed.

#[export, refine] Instance sim_spec : AtaSpec ata_state SIM_BASE SIM_IRQ := {
  ata := λ a, a;
  latency := 2 }.
Proof.
  - lia.
  - intros a. split; [apply sim_status_ok|done].
  - intros a. split; [apply sim_status_ok|done].
  - intros a r v Hr Hv Hi. cbn -[SIM_BASE]. unfold sim_outb. replace (SIM_BASE + r - SIM_BASE) with r by lia.
    by rewrite !(proj2 (Z.leb_le _ _)) by lia.
  - intros a Hi Hl. exists 2%nat. split; [lia|by left].
  - intros a Hi Hl. exists 2%nat. split; [lia|by left].
  - intros a d Hd. cbn. by rewrite Hd.
  - intros a dev lba data Hd Hl. exists 2%nat. split; [lia|]. left. cbn. by rewrite Hd.
  - intros a ns Hb. cbn. by rewrite Hb.
  - intros a Hb. cbn -[left]. rewrite Hb. cbn -[left]. destruct (left (a_phase a)) as [|n] eqn:E; [by left|right].
    exists n. split; [lia|done].
  - done.
  - done.
Defined.

(** The machine with a blank disk, and the driver after ide_init(). *)
Definition sim_start : ide ata_state :=
  mk_ide (mk_ata_state 0 0 0 0 160 Idle false (λ _ _, replicate 512 0))
    [init_channel 0; init_channel 1] true [true; false; true; false] [] [].
Definition sim_ready : ide ata_state := match ide_init sim_start with Ok (_, s) => s | _ => sim_start end.

Lemma sim_detects :
  registered sim_ready =
    [mk_reg [104; 100; 97] (model_text ++ [97; 98] ++ serial_text ++ [99] ++ [34]) 64 (0, 0)] ∧
  messages sim_ready = [].
Proof. by vm_compute. Qed.

(** ** Properties *)

Inductive disk_op := ReadSector (dev sec : Z) | WriteSector (dev sec : Z) (data : list Z).

Definition op_ok (o : disk_op) : Prop :=
  match o with
  | ReadSector dev sec => (dev = 0 ∨ dev = 1) ∧ 0 <= sec < 268435456
  | WriteSector dev sec data => (dev = 0 ∨ dev = 1) ∧ 0 <= sec < 268435456 ∧ length data = 512%nat
  end.

(** The calls of ide_read() and ide_write() that a list of operations makes on a
    channel; the sectors that were read. *)
Fixpoint run_ops {H} `{AtaBus H} (c : Z) (l : list disk_op) : st (ide H) (list (list Z)) :=
  match l with
  | [] => mret []
  | ReadSector dev sec :: l => b ← ide_read (c, dev) sec; r ← run_ops c l; mret (b :: r)
  | WriteSector dev sec data :: l => ide_write (c, dev) sec data;; run_ops c l
  end.

(** Two arrays of sectors. *)
Fixpoint spec_ops (l : list disk_op) (m : Z → Z → list Z) : list (list Z) * (Z → Z → list Z) :=
  match l with
  | [] => ([], m)
  | ReadSector dev sec :: l => let '(r, m') := spec_ops l m in (m dev sec :: r, m')
  | WriteSector dev sec data :: l => spec_ops l (write_media dev sec data m)
  end.


