(* ===== verification/Vga.v ===== *)
(** * The text screen: devices/vga.c

    The framebuffer is its 25 rows of 80 cells, a character with its attribute
    each; writing outside of it is wild.  The registers 0x0e and 0x0f of the
    display controller hold the position of the hardware cursor.  [beeps] counts
    the calls of speaker_beep(), during which interrupts are as they were. *)

From S2P Require Import Prelude.

Open Scope Z_scope.

(** ** Definitions *)

Definition COL_CNT : Z := 80.
Definition ROW_CNT : Z := 25.
Definition GRAY_ON_BLACK : Z := 7.

Abbreviation cell := (Z * Z)%type.

Record vga := mk_vga {
  fb : list (list cell);
  cx : Z;
  cy : Z;
  inited : bool;
  crtc_hi : Z;
  crtc_lo : Z;
  v_intr : bool;
  beeps : nat }.

Abbreviation V := (st vga).

Definition set_fb (f : list (list cell)) (s : vga) : vga :=
  mk_vga f s.(cx) s.(cy) s.(inited) s.(crtc_hi) s.(crtc_lo) s.(v_intr) s.(beeps).
Definition set_cursor (x y : Z) (s : vga) : vga :=
  mk_vga s.(fb) x y s.(inited) s.(crtc_hi) s.(crtc_lo) s.(v_intr) s.(beeps).
Definition set_intr (b : bool) (s : vga) : vga :=
  mk_vga s.(fb) s.(cx) s.(cy) s.(inited) s.(crtc_hi) s.(crtc_lo) b s.(beeps).

(** fb[y][x] = (c, GRAY_ON_BLACK). *)
Definition put_cell (y x c : Z) : V unit :=
  f ← gets fb;
  row ← lift (deref (f !! Z.to_nat y));
  lift (deref (row !! Z.to_nat x));;
  modify (set_fb (<[Z.to_nat y := <[Z.to_nat x := (c, GRAY_ON_BLACK)]> row]> f)).

(** outw() of a register number in the low byte and its value in the high one. *)
Definition move_cursor : V unit :=
  modify (λ s, let cp := u16 (s.(cx) + COL_CNT * s.(cy)) in
    mk_vga s.(fb) s.(cx) s.(cy) s.(inited) (Z.shiftr (Z.land cp 65280) 8) (Z.land cp 255) s.(v_intr) s.(beeps)).

Definition find_cursor : V (Z * Z) :=
  cp ← gets (λ s, Z.lor (u16 (Z.shiftl s.(crtc_hi) 8)) s.(crtc_lo));
  mret (cp mod COL_CNT, cp / COL_CNT).

Definition init : V unit :=
  i ← gets inited;
  when (negb i)
    ('(x, y) ← find_cursor;
     modify (λ s, mk_vga s.(fb) x y true s.(crtc_hi) s.(crtc_lo) s.(v_intr) s.(beeps))).

Definition clear_row (y : Z) : V unit := for_st 80 0 (λ x, put_cell y x 32).

Definition cls : V unit :=
  for_st 25 0 clear_row;;
  modify (set_cursor 0 0);;
  move_cursor.

(** memmove() of rows 1 to 24 onto rows 0 to 23. *)
Definition scroll (f : list (list cell)) : list (list cell) := take 24 (drop 1 f) ++ drop 24 f.

Definition newline : V unit :=
  modify (λ s, set_cursor 0 (s.(cy) + 1) s);;
  y ← gets cy;
  when (ROW_CNT <=? y)
    (modify (λ s, set_cursor s.(cx) (ROW_CNT - 1) s);;
     modify (λ s, set_fb (scroll s.(fb)) s);;
     clear_row (ROW_CNT - 1)).

(** The switch over the character. *)
Definition vga_switch (old_level : bool) (c : Z) : V unit :=
  if c =? 10 then newline
  else if c =? 12 then cls
  else if c =? 8 then modify (λ s, if 0 <? s.(cx) then set_cursor (s.(cx) - 1) s.(cy) s else s)
  else if c =? 13 then modify (λ s, set_cursor 0 s.(cy) s)
  else if c =? 9 then
    modify (λ s, set_cursor ((s.(cx) + 1 + 7) / 8 * 8) s.(cy) s);;
    x ← gets cx;
    when (COL_CNT <=? x) newline
  else if c =? 7 then
    modify (set_intr old_level);;
    modify (λ s, mk_vga s.(fb) s.(cx) s.(cy) s.(inited) s.(crtc_hi) s.(crtc_lo) s.(v_intr) (S s.(beeps)));;
    modify (set_intr false)
  else
    x ← gets cx; y ← gets cy;
    put_cell y x (u8 c);;
    modify (λ s, set_cursor (s.(cx) + 1) s.(cy) s);;
    x ← gets cx;
    when (COL_CNT <=? x) newline.

Definition vga_putc (c : Z) : V unit :=
  old_level ← gets v_intr;
  modify (set_intr false);;
  init;;
  vga_switch old_level c;;
  move_cursor;;
  modify (set_intr old_level).

(** ** The terminal

    What the screen shows of an unbounded paper: the rows written so far, the
    last of which are on the screen. *)

Abbreviation row := (list cell).

Definition blank_row : row := replicate 80 (32, GRAY_ON_BLACK).

(** The screen is well-formed: 25 rows of 80 cells, and the cursor on it. *)
Record screen_ok (s : vga) : Prop := {
  so_rows : length s.(fb) = 25%nat;
  so_cols : Forall (λ r, length r = 80%nat) s.(fb);
  so_cx : 0 <= s.(cx) < 80;
  so_cy : 0 <= s.(cy) < 25 }.

(** Row [y] of the screen after the cursor has moved to the next line. *)
Definition next_line (f : list row) (y : Z) : list row * Z :=
  if y =? 24 then (tail f ++ [blank_row], 24) else (f, y + 1).

(** What writing character [c] does to the rows and the cursor. *)
Definition show (c : Z) (f : list row) (x y : Z) : list row * Z * Z :=
  if c =? 10 then let '(f, y) := next_line f y in (f, 0, y)
  else if c =? 12 then (replicate 25 blank_row, 0, 0)
  else if c =? 8 then (f, Z.max 0 (x - 1), y)
  else if c =? 13 then (f, 0, y)
  else if c =? 9 then
    let x := (x / 8 + 1) * 8 in
    if x <? 80 then (f, x, y) else let '(f, y) := next_line f y in (f, 0, y)
  else if c =? 7 then (f, x, y)
  else
    let f := alter (<[Z.to_nat x := (u8 c, GRAY_ON_BLACK)]>) (Z.to_nat y) f in
    if x + 1 <? 80 then (f, x + 1, y) else let '(f, y) := next_line f y in (f, 0, y).

Lemma put_cell_ok s y x c r :
  s.(fb) !! Z.to_nat y = Some r → 0 <= x < Z.of_nat (length r) →
  put_cell y x c s = Ok (tt, set_fb (<[Z.to_nat y := <[Z.to_nat x := (c, GRAY_ON_BLACK)]> r]> s.(fb)) s).
Proof.
  intros Hr Hx. unfold put_cell. rewrite run_gets. rewrite (run_lift _ _ _ r) by (by rewrite Hr).
  destruct (lookup_lt_is_Some_2 r (Z.to_nat x)) as [a Ha]; [lia|]. by rewrite (run_lift _ _ _ a) by (by rewrite Ha).
Qed.

Lemma set_fb_fb f g s : set_fb f (set_fb g s) = set_fb f s.
Proof. done. Qed.

Lemma clear_row_ok s y r :
  s.(fb) !! Z.to_nat y = Some r → length r = 80%nat →
  clear_row y s = Ok (tt, set_fb (<[Z.to_nat y := blank_row]> s.(fb)) s).
Proof.
  intros Hr Hl. unfold clear_row. pose proof (lookup_lt_Some _ _ _ Hr) as Hlt.
  destruct (for_st_inv (λ k t, 0 <= k ∧ t = set_fb (<[Z.to_nat y := replicate (Z.to_nat k) (32, GRAY_ON_BLACK) ++ drop (Z.to_nat k) r]> s.(fb)) s)
    (λ x, put_cell y x 32) 80 0 s) as (s' & E & _ & Hs').
  - intros k t Hk [_ ->]. set (rk := replicate _ _ ++ _).
    assert (Hrk : length rk = 80%nat) by (unfold rk; rewrite length_app, length_replicate, length_drop; lia).
    rewrite (put_cell_ok _ y k 32 rk) by (try lia; cbn; by apply list_lookup_insert_eq). eexists. split; [done|].
    split; [lia|]. rewrite set_fb_fb. f_equal. cbn. rewrite list_insert_insert_eq. f_equal. unfold rk.
    rewrite insert_app_r_alt by (rewrite length_replicate; lia). rewrite length_replicate, Nat.sub_diag.
    replace (Z.to_nat (k + 1)) with (Z.to_nat k + 1)%nat by lia. rewrite replicate_add, <- app_assoc. f_equal. cbn.
    destruct (lookup_lt_is_Some_2 r (Z.to_nat k)) as [c Hc]; [lia|]. rewrite (drop_S r c (Z.to_nat k)) by done. cbn.
    by rewrite Nat.add_1_r.
  - split; [done|]. cbn. rewrite list_insert_id by done. by destruct s.
  - rewrite E, Hs'. cbn [Z.add Z.of_nat]. replace (Z.to_nat (0 + Z.of_nat 80)) with 80%nat by lia.
    rewrite drop_ge, app_nil_r by lia. done.
Qed.

(** A step that leaves the flag, the interrupt level and the beeps alone. *)
Definition same_rest (s s' : vga) : Prop :=
  s'.(inited) = s.(inited) ∧ s'.(v_intr) = s.(v_intr) ∧ s'.(beeps) = s.(beeps).

Lemma cls_ok s :
  screen_ok s → ∃ s', cls s = Ok (tt, s') ∧ s'.(fb) = replicate 25 blank_row ∧ s'.(cx) = 0 ∧ s'.(cy) = 0 ∧ same_rest s s'.
Proof.
  intros [Hr Hc _ _]. unfold cls.
  destruct (for_st_inv (λ k t, 0 <= k ∧ t = set_fb (replicate (Z.to_nat k) blank_row ++ drop (Z.to_nat k) s.(fb)) s) clear_row 25 0 s)
    as (s1 & E & _ & Hs1).
  - intros k t Hk [_ ->]. destruct (lookup_lt_is_Some_2 s.(fb) (Z.to_nat k)) as [r Hrk]; [lia|].
    rewrite (clear_row_ok _ k r); [|cbn; rewrite lookup_app_r, length_replicate, lookup_drop by (rewrite length_replicate; lia);
      rewrite <- Hrk; f_equal; lia|by eapply Forall_lookup_1 in Hc].
    eexists. split; [done|]. split; [lia|]. rewrite set_fb_fb. f_equal. cbn.
    rewrite insert_app_r_alt by (rewrite length_replicate; lia). rewrite length_replicate, Nat.sub_diag.
    replace (Z.to_nat (k + 1)) with (Z.to_nat k + 1)%nat by lia. rewrite replicate_add, <- app_assoc. f_equal.
    rewrite (drop_S _ r (Z.to_nat k)) by done. cbn. by rewrite Nat.add_1_r.
  - split; [done|]. cbn. by destruct s.
  - rewrite (run_bind _ _ _ _ _ E), Hs1. replace (Z.to_nat (0 + Z.of_nat 25)) with 25%nat by lia.
    rewrite drop_ge, app_nil_r by lia. eexists. split; [done|]. done.
Qed.

Lemma scroll_clear f : length f = 25%nat → <[24%nat := blank_row]> (scroll f) = tail f ++ [blank_row].
Proof.
  intros Hf. destruct f as [|r f]; [done|]. cbn [length] in Hf.
  assert (scroll (r :: f) = f ++ drop 23 f) as ->
    by (unfold scroll; change (drop 1 (r :: f)) with f; change (drop 24 (r :: f)) with (drop 23 f); by rewrite take_ge by lia).
  rewrite insert_app_r_alt by lia. replace (24 - length f)%nat with 0%nat by lia. cbn [tail]. f_equal.
  pose proof (length_drop f 23) as Hd. destruct (drop 23 f) as [|x [|y l]]; cbn [length] in Hd; [lia|done|lia].
Qed.

Lemma newline_ok s :
  length s.(fb) = 25%nat → Forall (λ r, length r = 80%nat) s.(fb) → 0 <= s.(cy) < 25 →
  ∃ s', newline s = Ok (tt, s') ∧ s'.(fb) = (next_line s.(fb) s.(cy)).1 ∧ s'.(cy) = (next_line s.(fb) s.(cy)).2 ∧
    s'.(cx) = 0 ∧ same_rest s s'.
Proof.
  intros Hr Hc Hy. unfold newline. rewrite run_modify, run_gets. cbn [cy set_cursor]. change ROW_CNT with 25. unfold next_line.
  destruct (Z.eqb_spec s.(cy) 24) as [E | E].
  - rewrite (proj2 (Z.leb_le _ _)) by lia. cbn [when]. rewrite !run_modify. cbn [fb set_cursor].
    assert (Hs : length (scroll s.(fb)) = 25%nat) by (unfold scroll; rewrite length_app, length_take, !length_drop; lia).
    destruct (lookup_lt_is_Some_2 (scroll s.(fb)) 24) as [r Hr24]; [lia|].
    rewrite (clear_row_ok _ (25 - 1) r); [|done|].
    + eexists. split; [done|]. cbn [fb set_fb set_cursor]. change (Z.to_nat (25 - 1)) with 24%nat. by rewrite scroll_clear.
    + assert (Hrow : Forall (λ r, length r = 80%nat) (scroll s.(fb))).
      { unfold scroll. apply Forall_app. split; [apply Forall_take|]; by apply Forall_drop. }
      by eapply Forall_lookup_1 in Hrow.
  - rewrite (proj2 (Z.leb_gt _ _)) by lia. eexists. split; [done|]. done.
Qed.

Lemma next_line_ok f y :
  length f = 25%nat → Forall (λ r, length r = 80%nat) f → 0 <= y < 25 →
  length (next_line f y).1 = 25%nat ∧ Forall (λ r, length r = 80%nat) (next_line f y).1 ∧ 0 <= (next_line f y).2 < 25.
Proof.
  intros Hf Hr Hy. unfold next_line. destruct (Z.eqb_spec y 24); [|cbn; lia || (split; [done|]; split; [done|lia])].
  cbn [fst snd]. destruct f as [|r f]; [done|]. cbn [length] in Hf. cbn [tail]. apply Forall_cons in Hr as [_ Hr].
  rewrite length_app. split; [cbn; lia|]. split; [|lia]. apply Forall_app. split; [done|]. by constructor.
Qed.

Lemma cursor_roundtrip s s' :
  0 <= s.(cx) < 80 → 0 <= s.(cy) < 25 → move_cursor s = Ok (tt, s') →
  find_cursor s' = Ok ((s.(cx), s.(cy)), s') ∧ s'.(fb) = s.(fb) ∧ s'.(cx) = s.(cx) ∧ s'.(cy) = s.(cy) ∧ same_rest s s'.
Proof.
  intros Hx Hy [= <-]. split; [|done]. unfold find_cursor. rewrite run_gets. cbn [crtc_hi crtc_lo]. change COL_CNT with 80.
  set (cp := u16 (s.(cx) + 80 * s.(cy))). assert (Hcp : cp = s.(cx) + 80 * s.(cy)) by (unfold cp, u16; zdm).
  assert (Z.lor (u16 (Z.shiftl (Z.shiftr (Z.land cp 65280) 8) 8)) (Z.land cp 255) = cp) as ->.
  { clearbody cp. subst cp. assert (Hr : ∃ n, (n < 2000)%nat ∧ s.(cx) + 80 * s.(cy) = Z.of_nat n)
      by (exists (Z.to_nat (s.(cx) + 80 * s.(cy))); lia).
    destruct Hr as (n & Hn & ->). revert n Hn.
    assert (Hall : forallb (λ n, Z.lor (u16 (Z.shiftl (Z.shiftr (Z.land (Z.of_nat n) 65280) 8) 8)) (Z.land (Z.of_nat n) 255) =? Z.of_nat n)
      (seq 0 2000) = true) by (by vm_compute).
    intros n Hn. rewrite forallb_forall in Hall. apply Z.eqb_eq, Hall, in_seq. lia. }
  rewrite Hcp. unfold mret, st_ret. do 3 f_equal; zdm.
Qed.

(** A possible line break at column [x]. *)
Lemma wrap_ok s x :
  length s.(fb) = 25%nat → Forall (λ r, length r = 80%nat) s.(fb) → 0 <= s.(cy) < 25 → s.(cx) = x → 0 <= x <= 80 →
  ∃ s', (x ← gets cx; when (COL_CNT <=? x) newline) s = Ok (tt, s') ∧ screen_ok s' ∧ same_rest s s' ∧
    (s'.(fb), s'.(cx), s'.(cy)) =
      if x <? 80 then (s.(fb), x, s.(cy)) else let '(f, y) := next_line s.(fb) s.(cy) in (f, 0, y).
Proof.
  intros Hr Hc Hy <- Hx. rewrite run_gets. change COL_CNT with 80. destruct (Z.ltb_spec s.(cx) 80).
  - rewrite (proj2 (Z.leb_gt _ _)) by lia. exists s. split; [done|]. split; [split; done || lia|]. done.
  - rewrite (proj2 (Z.leb_le _ _)) by lia. cbn [when]. destruct (newline_ok s Hr Hc Hy) as (s' & E & E1 & E2 & E3 & E4).
    destruct (next_line_ok s.(fb) s.(cy) Hr Hc Hy) as (N1 & N2 & N3). exists s'. split; [done|].
    split; [split; rewrite ?E1, ?E2, ?E3; done || lia|]. split; [done|]. rewrite E1, E2, E3. by destruct (next_line _ _).
Qed.

Lemma alter_insert {A} (g : A → A) (l : list A) i r : l !! i = Some r → alter g i l = <[i := g r]> l.
Proof. revert i. induction l as [|x l IH]; intros [|i] Hi; try done; cbn in *; [by simplify_eq|]. f_equal. by apply IH. Qed.

Lemma vga_switch_ok s old c :
  screen_ok s → ∃ s', vga_switch old c s = Ok (tt, s') ∧ screen_ok s' ∧ s'.(inited) = s.(inited) ∧
    (s'.(fb), s'.(cx), s'.(cy)) = show c s.(fb) s.(cx) s.(cy).
Proof.
  intros Hs. pose proof Hs as [Hr Hc Hx Hy]. unfold vga_switch, show.
  destruct (c =? 10).
  { destruct (newline_ok s Hr Hc Hy) as (s' & E & E1 & E2 & E3 & E4 & _). exists s'. split; [done|].
    destruct (next_line_ok s.(fb) s.(cy) Hr Hc Hy) as (N1 & N2 & N3). split; [split; rewrite ?E1, ?E2, ?E3; done || lia|].
    split; [done|]. rewrite E1, E2, E3. by destruct (next_line _ _). }
  destruct (c =? 12).
  { destruct (cls_ok s Hs) as (s' & E & E1 & E2 & E3 & E4 & _). exists s'. split; [done|].
    split; [split; rewrite ?E1, ?E2, ?E3; done || lia || by apply Forall_replicate|]. split; [done|]. by rewrite E1, E2, E3. }
  destruct (c =? 8).
  { eexists. split; [done|]. destruct (Z.ltb_spec 0 s.(cx)); (split; [split; cbn; done || lia|]); (split; [done|]); cbn; repeat f_equal; lia. }
  destruct (c =? 13).
  { eexists. split; [done|]. split; [split; cbn; done || lia|]. done. }
  destruct (c =? 9).
  { rewrite run_modify. destruct (wrap_ok (set_cursor ((s.(cx) + 1 + 7) / 8 * 8) s.(cy) s) ((s.(cx) / 8 + 1) * 8)) as (s' & E & H1 & H2 & H3);
      [done|done|done|cbn; zdm|zdm|]. exists s'. split; [done|]. split; [done|]. split; [apply H2|]. done. }
  destruct (c =? 7).
  { eexists. split; [done|]. split; [split; cbn; done || lia|]. done. }
  rewrite !run_gets. destruct (lookup_lt_is_Some_2 s.(fb) (Z.to_nat s.(cy))) as [r Hrow]; [lia|].
  assert (Hlen : length r = 80%nat) by (by eapply Forall_lookup_1 in Hc).
  rewrite (run_bind _ _ _ _ _ (put_cell_ok s s.(cy) s.(cx) (u8 c) r Hrow ltac:(lia))), run_modify.
  set (f := <[Z.to_nat s.(cy) := _]> s.(fb)). assert (Hf : f = alter (<[Z.to_nat s.(cx) := (u8 c, GRAY_ON_BLACK)]>) (Z.to_nat s.(cy)) s.(fb)).
  { unfold f. symmetry. by apply alter_insert. }
  destruct (wrap_ok (set_cursor (s.(cx) + 1) s.(cy) (set_fb f s)) (s.(cx) + 1)) as (s' & E & H1 & H2 & H3); [| |done|done|lia|].
  - cbn. unfold f. by rewrite length_insert.
  - cbn. unfold f. apply Forall_insert; [done|]. by rewrite length_insert.
  - exists s'. split; [exact E|]. split; [done|]. split; [apply H2|]. rewrite H3. cbn [fb cy set_cursor set_fb]. by rewrite Hf.
Qed.

(** Writing a character, whatever it is, keeps the cursor on the screen and
    writes only to cells of the screen; the rows and the cursor become what
    [show] says (a line break on the last row scrolls all rows up by one and
    leaves a blank one), the interrupt level is as before, and the hardware
    cursor is where the next character goes. *)
Theorem vga_putc_shows (s : vga) (c : Z) :
  screen_ok s → s.(inited) = true →
  ∃ s', vga_putc c s = Ok (tt, s') ∧ screen_ok s' ∧ (s'.(fb), s'.(cx), s'.(cy)) = show c s.(fb) s.(cx) s.(cy) ∧
    s'.(v_intr) = s.(v_intr) ∧ s'.(inited) = true ∧ find_cursor s' = Ok ((s'.(cx), s'.(cy)), s').
Proof.
  intros Hs Hi. pose proof Hs as [Hr Hc Hx Hy].
  destruct (vga_switch_ok (set_intr false s) s.(v_intr) c) as (s1 & E & [Hr1 Hc1 Hx1 Hy1] & Hi1 & Hshow); [by split|].
  cbn [inited fb cx cy set_intr] in Hi1, Hshow.
  destruct (move_cursor s1) as [[[] s2]| | |] eqn:Em; [|done..].
  destruct (cursor_roundtrip s1 s2 Hx1 Hy1 Em) as (Hf & E1 & E2 & E3 & E4 & E5 & E6).
  exists (set_intr s.(v_intr) s2). split.
  - unfold vga_putc. rewrite run_gets, run_modify. unfold init.
    rewrite (run_bind _ _ (set_intr false s) tt (set_intr false s)) by (rewrite run_gets; cbn [inited set_intr]; by rewrite Hi).
    rewrite (run_bind _ _ _ _ _ E), (run_bind _ _ _ _ _ Em). done.
  - split; [split; cbn; congruence || lia|]. cbn [fb cx cy set_intr v_intr inited]. rewrite E1, E2, E3. split; [done|]. split; [done|].
    split; [congruence|]. unfold find_cursor in *. rewrite run_gets in *. cbn. injection Hf as Hf1 Hf2. unfold mret, st_ret. by rewrite Hf1, Hf2.
Qed.

Definition demo_screen : vga := mk_vga (replicate 25 (replicate 80 (0, 0))) 79 24 true 0 0 true 0.

Lemma vga_putc_shows_witness :
  ∃ s', vga_putc 65 demo_screen = Ok (tt, s') ∧ screen_ok s' ∧ s'.(cx) = 0 ∧ s'.(cy) = 24.
Proof.
  destruct (vga_putc_shows demo_screen 65) as (s' & E & Hs & Hf & _).
  { split; cbn; [done| |lia|lia]. by apply (Forall_replicate (λ r, length r = 80%nat) 25). }
  { done. }
  exists s'. split; [exact E|]. split; [exact Hs|].
  assert (H : (s'.(cx), s'.(cy)) = ((show 65 demo_screen.(fb) demo_screen.(cx) demo_screen.(cy)).1.2, (show 65 demo_screen.(fb) demo_screen.(cx) demo_screen.(cy)).2)) by (by rewrite <- Hf).
  pose proof (f_equal fst H) as H1. pose proof (f_equal snd H) as H2. cbn [fst snd] in H1, H2. rewrite H1, H2. split; by vm_compute.
Defined.
