(* ===== verification/Clock.v ===== *)
(** * The real-time clock and the interval timer: devices/rtc.c, devices/pit.c

    The registers of the clock are a function from the number of reads so far and
    the register to the byte read, so that they may change between two reads;
    the loop that waits for two equal readings of the seconds has fuel.  Writes
    to the ports of the interval timer are listed. *)

From S2P Require Import Prelude.

Open Scope Z_scope.

(** ** Definitions *)

Definition RTC_REG_SEC : Z := 0.
Definition RTC_REG_MIN : Z := 2.
Definition RTC_REG_HOUR : Z := 4.
Definition RTC_REG_MDAY : Z := 7.
Definition RTC_REG_MON : Z := 8.
Definition RTC_REG_YEAR : Z := 9.

Definition bcd_to_bin (x : Z) : Z := Z.land x 15 + Z.shiftr x 4 * 10.

(** cmos_read(): the state is the number of reads. *)
Definition cmos_read (regs : nat → Z → Z) (index : Z) : st nat Z :=
  n ← gets id; modify S;; mret (regs n index).

Definition days_per_month : list Z := [31; 28; 31; 30; 31; 30; 31; 31; 30; 31; 30; 31].

Record time_parts := mk_parts { sec : Z; min : Z; hour : Z; mday : Z; mon : Z; year : Z }.

Definition read_parts (regs : nat → Z → Z) (fuel : nat) : st nat time_parts :=
  let read i := b ← cmos_read regs i; mret (bcd_to_bin b) in
  loop_st fuel (λ _ : unit,
    s ← read RTC_REG_SEC; m ← read RTC_REG_MIN; h ← read RTC_REG_HOUR;
    d ← read RTC_REG_MDAY; mo ← read RTC_REG_MON; y ← read RTC_REG_YEAR;
    s' ← read RTC_REG_SEC;
    mret (if negb (s =? s') then inl tt else inr (mk_parts s m h d mo y))) tt.

(** The loop over the months. *)
Definition add_months (mon time : Z) : outcome Z :=
  for_ (Z.to_nat mon) 1 (λ i time, d ← deref (days_per_month !! Z.to_nat (i - 1)); Ok (time + d * 24 * 60 * 60)) time.

Definition to_time (p : time_parts) : outcome Z :=
  let year := (if p.(year) <? 70 then p.(year) + 100 else p.(year)) - 70 in
  time ← add_months p.(mon) ((year * 365 + (year - 1) ÷ 4) * 24 * 60 * 60);
  let time := if (2 <? p.(mon)) && (Z.rem year 4 =? 0) then time + 24 * 60 * 60 else time in
  Ok (time + (p.(mday) - 1) * 24 * 60 * 60 + p.(hour) * 60 * 60 + p.(min) * 60 + p.(sec)).

(** time_t has 32 bits. *)
Definition rtc_get_time (regs : nat → Z → Z) (fuel : nat) : st nat Z :=
  p ← read_parts regs fuel; t ← lift (to_time p); mret (u32 t).

(** *** devices/pit.c *)

Definition PIT_HZ : Z := 1193180.
Definition PIT_PORT_CONTROL : Z := 67.
Definition PIT_PORT_COUNTER (channel : Z) : Z := 64 + channel.

Definition pit_count (frequency : Z) : Z :=
  if frequency <? 19 then 0
  else if PIT_HZ <? frequency then 2
  else u16 ((PIT_HZ + frequency / 2) / frequency).

(** The bytes written to the ports, in order. *)
Definition pit_configure_channel (channel mode frequency : Z) : outcome (list (Z * Z)) :=
  ASSERT ((channel =? 0) || (channel =? 2));;
  ASSERT ((mode =? 2) || (mode =? 3));;
  let count := pit_count frequency in
  Ok [(PIT_PORT_CONTROL, u8 (Z.lor (Z.lor (Z.shiftl channel 6) 48) (Z.shiftl mode 1)));
      (PIT_PORT_COUNTER channel, u8 count); (PIT_PORT_COUNTER channel, u8 (Z.shiftr count 8))].

(** ** The calendar *)

(** The days of a month of a year since 1970, up to 2099. *)
Definition leap (y : Z) : bool := y mod 4 =? 2.
Definition month_days (y m : Z) : Z :=
  if (m =? 2) && leap y then 29 else default 0 (days_per_month !! Z.to_nat (m - 1)).

(** Days from the start of 1970 to the start of a year, and of a month in it. *)
Definition year_start (y : Z) : Z := foldr (λ k a, (if leap k then 366 else 365) + a) 0 (seqZ 0 y).
Definition month_start (y m : Z) : Z := foldr (λ k a, month_days y k + a) 0 (seqZ 1 (m - 1)).

(** The seconds since the start of 1970. *)
Definition unix_time (y : Z) (p : time_parts) : Z :=
  (year_start y + month_start y p.(mon) + p.(mday) - 1) * 86400 + p.(hour) * 3600 + p.(min) * 60 + p.(sec).

Lemma year_start_eq y : 0 <= y → year_start y = 365 * y + (y + 1) / 4.
Proof.
  intros Hy. pattern y. apply natlike_ind; [done| |done]. clear y Hy. intros y Hy IH. unfold year_start in *.
  rewrite <- Z.add_1_r, seqZ_app, foldr_app by lia. change (seqZ (0 + y) 1) with [y]. cbn [foldr].
  assert (Hf : ∀ (l : list Z) c, foldr (λ k a, (if leap k then 366 else 365) + a) c l = foldr (λ k a, (if leap k then 366 else 365) + a) 0 l + c).
  { induction l as [|k l IHl]; intros c; cbn; [lia|]. rewrite IHl. lia. }
  rewrite Hf, IH. unfold leap. destruct (Z.eqb_spec (y mod 4) 2); zdm.
Qed.

Definition sum (l : list Z) : Z := foldr Z.add 0 l.

Lemma for_months k j t :
  (j + k <= 12)%nat →
  for_ k (1 + Z.of_nat j) (λ i time, d ← deref (days_per_month !! Z.to_nat (i - 1)); Ok (time + d * 24 * 60 * 60)) t =
    Ok (t + 86400 * sum (take k (drop j days_per_month))).
Proof.
  revert j t. induction k as [|k IH]; intros j t Hk; cbn [for_]; [rewrite take_0; unfold sum; cbn [foldr]; f_equal; lia|].
  replace (Z.to_nat (1 + Z.of_nat j - 1)) with j by lia.
  destruct (lookup_lt_is_Some_2 days_per_month j) as [d Hd]; [cbn; lia|]. rewrite Hd. cbn [deref mbind outcome_bind].
  replace (1 + Z.of_nat j + 1) with (1 + Z.of_nat (S j)) by lia. rewrite IH by lia. rewrite (drop_S _ d j) by done.
  rewrite firstn_cons. unfold sum. cbn [foldr]. f_equal. lia.
Qed.

(** What the code adds for the months is the table up to and with the month. *)
Lemma add_months_ok m t :
  1 <= m <= 12 → add_months m t = Ok (t + 86400 * (month_start 0 m + default 0 (days_per_month !! Z.to_nat (m - 1)))).
Proof.
  intros Hm. refine (eq_trans (for_months (Z.to_nat m) 0 t ltac:(lia)) _). do 3 f_equal. rewrite drop_0.
  assert (m = 1 ∨ m = 2 ∨ m = 3 ∨ m = 4 ∨ m = 5 ∨ m = 6 ∨ m = 7 ∨ m = 8 ∨ m = 9 ∨ m = 10 ∨ m = 11 ∨ m = 12) as H by lia.
  do 11 (destruct H as [-> | H]; [by vm_compute|]). subst. by vm_compute.
Qed.

Lemma month_start_leap y m :
  1 <= m <= 12 → month_start y m = month_start 0 m + if (2 <? m) && leap y then 1 else 0.
Proof.
  intros Hm. assert (m = 1 ∨ m = 2 ∨ m = 3 ∨ m = 4 ∨ m = 5 ∨ m = 6 ∨ m = 7 ∨ m = 8 ∨ m = 9 ∨ m = 10 ∨ m = 11 ∨ m = 12) as H by lia.
  unfold month_start, month_days. change (leap 0) with false. generalize (leap y) as b. intros b.
  do 11 (destruct H as [-> | H]; [by destruct b; vm_compute|]). subst. by destruct b; vm_compute.
Qed.

Definition is_bcd (b n : Z) : Prop := 0 <= b < 256 ∧ b mod 16 < 10 ∧ n = 10 * (b / 16) + b mod 16.

Lemma bcd_ok b n : is_bcd b n → bcd_to_bin b = n.
Proof.
  intros (Hb & _ & ->). unfold bcd_to_bin. change 15 with (Z.ones 4). rewrite Z.land_ones, Z.shiftr_div_pow2 by lia.
  change (2 ^ 4) with 16. lia.
Qed.

(** A clock that stands still and shows [p]. *)
Definition shows_parts (regs : nat → Z → Z) (p : time_parts) : Prop :=
  ∀ n, is_bcd (regs n RTC_REG_SEC) p.(sec) ∧ is_bcd (regs n RTC_REG_MIN) p.(min) ∧ is_bcd (regs n RTC_REG_HOUR) p.(hour) ∧
    is_bcd (regs n RTC_REG_MDAY) p.(mday) ∧ is_bcd (regs n RTC_REG_MON) p.(mon) ∧ is_bcd (regs n RTC_REG_YEAR) p.(year).

Lemma read_parts_ok regs p n f : shows_parts regs p → read_parts regs (S f) n = Ok (p, (n + 7)%nat).
Proof.
  intros H. unfold read_parts. apply loop_st_done. unfold cmos_read.
  destruct (H n) as (H0 & _), (H (S n)) as (_ & H1 & _), (H (S (S n))) as (_ & _ & H2 & _), (H (S (S (S n)))) as (_ & _ & _ & H3 & _),
    (H (S (S (S (S n))))) as (_ & _ & _ & _ & H4 & _), (H (S (S (S (S (S n)))))) as (_ & _ & _ & _ & _ & H5), (H (S (S (S (S (S (S n))))))) as (H6 & _).
  apply bcd_ok in H0, H1, H2, H3, H4, H5, H6.
  unfold mbind, st_bind, gets, modify, mret, st_ret, id. rewrite H0, H1, H2, H3, H4, H5, H6, Z.eqb_refl. cbn [negb].
  do 3 f_equal; [by destruct p|lia].
Qed.

(** For a clock that shows a date between 1970 and 2069, rtc_get_time() returns
    the Unix time of that date plus the length of its month, because the loop over
    the months includes the current one, and plus the difference of two counts of
    leap days, because years are counted from 1970 and not from a leap year. *)
Theorem rtc_get_time_ahead (regs : nat → Z → Z) (p : time_parts) (n f : nat) :
  shows_parts regs p → 1 <= p.(mon) <= 12 → 0 <= p.(year) < 100 →
  let y := (p.(year) - 70) mod 100 in
  let leaps := (y - 1) ÷ 4 + (if (2 <? p.(mon)) && (y mod 4 =? 0) then 1 else 0) in
  let real_leaps := (y + 1) / 4 + (if (2 <? p.(mon)) && (y mod 4 =? 2) then 1 else 0) in
  rtc_get_time regs (S f) n =
    Ok (u32 (unix_time y p + 86400 * (default 0 (days_per_month !! Z.to_nat (p.(mon) - 1)) + leaps - real_leaps)), (n + 7)%nat).
Proof.
  intros Hp Hm Hy y leaps real. unfold rtc_get_time. rewrite (run_bind _ _ _ _ _ (read_parts_ok regs p n f Hp)).
  assert (Ey : (if p.(year) <? 70 then p.(year) + 100 else p.(year)) - 70 = y) by (unfold y; destruct (Z.ltb_spec p.(year) 70); zdm).
  assert (Hyr : 0 <= y < 100) by (unfold y; zdm). clearbody y.
  set (t := unix_time y p + _). assert (E : to_time p = Ok t); [|by rewrite (run_lift _ _ _ _ E)].
  unfold to_time. rewrite Ey, add_months_ok, bind_ret by done. f_equal. unfold t, unix_time, leaps, real.
  rewrite year_start_eq, (month_start_leap y) by (done || lia). rewrite Z.rem_mod_nonneg by lia. unfold leap.
  destruct (2 <? p.(mon)), (y mod 4 =? 0), (y mod 4 =? 2); cbn [andb]; lia.
Qed.

(** The start of 1970 is taken for the start of February. *)
Definition epoch_regs (n : nat) (r : Z) : Z :=
  if r =? RTC_REG_YEAR then 112 else if (r =? RTC_REG_MON) || (r =? RTC_REG_MDAY) then 1 else 0.

Lemma rtc_get_time_ahead_witness :
  unix_time 0 (mk_parts 0 0 0 1 1 70) = 0 ∧ rtc_get_time epoch_regs 1 0%nat = Ok (2678400, 7%nat).
Proof.
  split; [done|]. rewrite (rtc_get_time_ahead epoch_regs (mk_parts 0 0 0 1 1 70) 0%nat 0%nat); [by vm_compute| |cbn; lia|cbn; lia].
  intros n. repeat split; done.
Defined.

(** The counter is within half a cycle of the frequency, and does not overflow. *)
Lemma pit_count_ok f : 19 <= f <= PIT_HZ → 1 <= pit_count f < 65536 ∧ 2 * Z.abs (f * pit_count f - PIT_HZ) <= f.
Proof.
  intros Hf. unfold pit_count, PIT_HZ in *. rewrite (proj2 (Z.ltb_ge _ _)), (proj2 (Z.ltb_ge _ _)) by lia.
  set (q := (1193180 + f / 2) / f).
  assert (Hq : f * q <= 1193180 + f / 2 < f * (q + 1)) by (unfold q; pose proof (Z.div_mod (1193180 + f / 2) f ltac:(lia));
    pose proof (Z.mod_pos_bound (1193180 + f / 2) f ltac:(lia)); lia).
  assert (1 <= q) by (apply Z.div_le_lower_bound; zdm). assert (q < 65536) by (apply Z.div_lt_upper_bound; [lia|]; zdm).
  unfold u16. rewrite Z.mod_small by lia. split; [lia|]. assert (2 * (f / 2) <= f < 2 * (f / 2) + 2) by zdm. nia.
Qed.
