(* ===== verification/Random.v ===== *)
(** * Random numbers: lib/random.c

    The state of the RC4 generator: the table, its two indices and whether it has
    been initialised. *)

From S2P Require Import Prelude.

Open Scope Z_scope.

(** ** Definitions *)

Record rng := mk_rng { r_s : list Z; r_i : Z; r_j : Z; r_inited : bool }.

Abbreviation R := (st rng).

(** s[i], for an index of 8 bits. *)
Definition s_at (l : list Z) (i : Z) : outcome Z := deref (l !! Z.to_nat i).

Definition swap_byte (l : list Z) (i j : Z) : outcome (list Z) :=
  a ← s_at l i; b ← s_at l j;
  Ok (<[Z.to_nat j := a]> (<[Z.to_nat i := b]> l)).

(** Byte [k] of a 32-bit integer in memory. *)
Definition seed_byte (seed k : Z) : Z := u8 (Z.shiftr seed (8 * k)).

Definition random_init (seed : Z) : R unit :=
  '(_, l) ← lift (for_ 256 0 (λ i '(j, l),
      b ← s_at l i;
      let j := u8 (j + b + seed_byte seed (i mod 4)) in
      l ← swap_byte l i j;
      Ok (j, l)) (0, seqZ 0 256));
  modify (λ _, mk_rng l 0 0 true).

(** One turn of the loop of random_bytes(). *)
Definition random_byte : R Z :=
  g ← gets id;
  let i := u8 (g.(r_i) + 1) in
  b ← lift (s_at g.(r_s) i);
  let j := u8 (g.(r_j) + b) in
  l ← lift (swap_byte g.(r_s) i j);
  x ← lift (s_at l i);
  y ← lift (s_at l j);
  k ← lift (s_at l (u8 (x + y)));
  modify (λ g, mk_rng l i j g.(r_inited));;
  mret k.

Fixpoint random_loop (n : nat) : R (list Z) :=
  match n with
  | O => mret []
  | S n => b ← random_byte; rest ← random_loop n; mret (b :: rest)
  end.

Definition random_bytes (size : Z) : R (list Z) :=
  i ← gets r_inited;
  when (negb i) (random_init 0);;
  random_loop (Z.to_nat size).

Definition random_ulong : R Z := bs ← random_bytes 4; mret (un32 bs).

(** ** The table is a permutation of the bytes *)

Definition bytes : list Z := seqZ 0 256.

Definition table_ok (l : list Z) : Prop := l ≡ₚ bytes.

Lemma table_length l : table_ok l → length l = 256%nat.
Proof. intros Hl. exact (Permutation_length Hl). Qed.

Lemma table_byte l i x : table_ok l → l !! i = Some x → is_u8 x.
Proof.
  unfold table_ok, bytes. intros Hl Hx. apply list_elem_of_lookup_2 in Hx. rewrite Hl in Hx. apply elem_of_seqZ in Hx. lia.
Qed.

Lemma s_at_ok l i : table_ok l → is_u8 i → ∃ b, s_at l i = Ok b ∧ l !! Z.to_nat i = Some b ∧ is_u8 b.
Proof.
  intros Hl Hi. pose proof (table_length l Hl). destruct (lookup_lt_is_Some_2 l (Z.to_nat i)) as [b Hb]; [lia|].
  exists b. unfold s_at. rewrite Hb. split; [done|]. split; [done|]. by eapply table_byte.
Qed.

Lemma swap_ok l i j : table_ok l → is_u8 i → is_u8 j → ∃ l', swap_byte l i j = Ok l' ∧ table_ok l'.
Proof.
  intros Hl Hi Hj. destruct (s_at_ok l i Hl Hi) as (a & Ea & Ha & _), (s_at_ok l j Hl Hj) as (b & Eb & Hb & _).
  unfold swap_byte. rewrite Ea, Eb. eexists. split; [done|]. unfold table_ok in *. rewrite <- Hl.
  by apply Permutation_insert_swap.
Qed.

Record rng_ok (g : rng) : Prop := {
  ro_table : table_ok g.(r_s);
  ro_i : is_u8 g.(r_i);
  ro_j : is_u8 g.(r_j) }.

Lemma random_init_ok seed g : ∃ g', random_init seed g = Ok (tt, g') ∧ rng_ok g' ∧ g'.(r_inited) = true.
Proof.
  unfold random_init.
  destruct (for_inv (λ (_ : Z) '(j, l), is_u8 j ∧ table_ok l) (λ i '(j, l),
      b ← s_at l i;
      let j := u8 (j + b + seed_byte seed (i mod 4)) in
      l ← swap_byte l i j;
      Ok (j, l)) 256 0 (0, seqZ 0 256)) as ([j l] & E & Hj & Hl).
  - intros i [j l] Hi [Hj Hl]. destruct (s_at_ok l i Hl ltac:(lia)) as (b & -> & _). cbn [mbind outcome_bind].
    set (j' := u8 _). destruct (swap_ok l i j' Hl ltac:(lia) (u8_range _)) as (l' & -> & Hl'). eexists. split; [done|].
    split; [apply u8_range|done].
  - split; [lia|]. unfold table_ok, bytes. reflexivity.
  - rewrite (run_lift _ _ _ _ E). eexists. split; [done|]. split; [split; [done|cbn; lia|cbn; lia]|done].
Qed.

Lemma random_byte_ok g :
  rng_ok g → ∃ b g', random_byte g = Ok (b, g') ∧ rng_ok g' ∧ is_u8 b ∧ g'.(r_inited) = g.(r_inited).
Proof.
  intros [Hl Hi Hj]. unfold random_byte. rewrite run_gets. unfold id. set (i := u8 (r_i g + 1)).
  assert (Hi' : is_u8 i) by apply u8_range.
  destruct (s_at_ok _ i Hl Hi') as (b & E1 & _ & _). rewrite (run_lift _ _ _ _ E1). set (j := u8 (r_j g + b)).
  assert (Hj' : is_u8 j) by apply u8_range.
  destruct (swap_ok _ i j Hl Hi' Hj') as (l & E2 & Hl'). rewrite (run_lift _ _ _ _ E2).
  destruct (s_at_ok l i Hl' Hi') as (x & E3 & _), (s_at_ok l j Hl' Hj') as (y & E4 & _).
  rewrite (run_lift _ _ _ _ E3), (run_lift _ _ _ _ E4).
  destruct (s_at_ok l (u8 (x + y)) Hl' (u8_range _)) as (k & E5 & _ & Hk). rewrite (run_lift _ _ _ _ E5), run_modify.
  eexists k, _. split; [done|]. split; [by split|]. split; [done|]. done.
Qed.

Lemma random_loop_ok n g :
  rng_ok g → ∃ bs g', random_loop n g = Ok (bs, g') ∧ rng_ok g' ∧ g'.(r_inited) = g.(r_inited) ∧
    length bs = n ∧ Forall (λ b, is_u8 b) bs.
Proof.
  revert g. induction n as [|n IH]; intros g Hg; cbn [random_loop]; [by exists [], g|].
  destruct (random_byte_ok g Hg) as (b & g1 & E1 & Hg1 & Hb & Hi1). rewrite (run_bind _ _ _ _ _ E1).
  destruct (IH g1 Hg1) as (bs & g2 & E2 & Hg2 & Hi2 & Hn & Hbs). rewrite (run_bind _ _ _ _ _ E2).
  exists (b :: bs), g2. split; [done|]. split; [done|]. split; [congruence|]. split; [cbn; lia|]. by constructor.
Qed.

(** Whatever the generator was seeded with, its table remains a permutation of
    the 256 bytes, so that random_bytes() always returns as many bytes as asked
    for, and random_ulong() a 32-bit integer; an unseeded generator is seeded
    with 0 first. *)
Theorem random_well_defined (g : rng) (size : Z) :
  (g.(r_inited) = true → rng_ok g) → 0 <= size →
  ∃ bs g', random_bytes size g = Ok (bs, g') ∧ Z.of_nat (length bs) = size ∧ Forall (λ b, is_u8 b) bs ∧
    g'.(r_s) ≡ₚ seqZ 0 256 ∧ rng_ok g' ∧ g'.(r_inited) = true ∧
    (∀ seed, ∃ g1, random_init seed g = Ok (tt, g1) ∧ rng_ok g1) ∧
    ∃ n g2, random_ulong g = Ok (n, g2) ∧ is_u32 n.
Proof.
  intros Hg Hs.
  assert (Hrun : ∀ n, ∃ bs g', random_bytes n g = Ok (bs, g') ∧ length bs = Z.to_nat n ∧ Forall (λ b, is_u8 b) bs ∧
    rng_ok g' ∧ g'.(r_inited) = true).
  { intros n. unfold random_bytes. rewrite run_gets. destruct (r_inited g) eqn:Ei; cbn [negb when].
    - destruct (random_loop_ok (Z.to_nat n) g (Hg eq_refl)) as (bs & g' & E & H1 & H2 & H3 & H4).
      rewrite (run_bind _ _ g tt g) by done. exists bs, g'. split; [exact E|]. split; [exact H3|]. split; [exact H4|]. split; [exact H1|congruence].
    - destruct (random_init_ok 0 g) as (g0 & E0 & H0 & Hi0). rewrite (run_bind _ _ _ _ _ E0).
      destruct (random_loop_ok (Z.to_nat n) g0 H0) as (bs & g' & E & H1 & H2 & H3 & H4).
      exists bs, g'. split; [exact E|]. split; [exact H3|]. split; [exact H4|]. split; [exact H1|congruence]. }
  destruct (Hrun size) as (bs & g' & E & Hlen & Hb & Hg' & Hi'). exists bs, g'. split; [done|]. split; [lia|]. split; [done|].
  split; [apply Hg'|]. split; [done|]. split; [done|]. split.
  - intros seed. destruct (random_init_ok seed g) as (g1 & E1 & H1 & _). eauto.
  - destruct (Hrun 4) as (b4 & g4 & E4 & H4 & Hb4 & _). exists (un32 b4), g4. unfold random_ulong. rewrite (run_bind _ _ _ _ _ E4).
    split; [done|]. destruct b4 as [|b0 [|b1 [|b2 [|b3 []]]]]; try done. rewrite !Forall_cons in Hb4. cbn. lia.
Qed.

Lemma random_well_defined_witness :
  ∃ bs g', random_bytes 3 (mk_rng [] 0 0 false) = Ok (bs, g') ∧ length bs = 3%nat.
Proof.
  destruct (random_well_defined (mk_rng [] 0 0 false) 3) as (bs & g' & E & Hl & _); [done|lia|].
  exists bs, g'. split; [exact E|lia].
Defined.
