(* ===== verification/ProcessArgs.v ===== *)
(** * The arguments of a new process: setup_stack_arguments() of userprog/process.c

    The bytes of memory, user stack and kernel pages alike, are in one map; the
    page allocator's pools say which kernel pages are in use.  The delimiter
    string of the calls of strtok_r() is a constant at address [space]. *)

From S2P Require Import Prelude Bitmap Vaddr Palloc CString.

Open Scope Z_scope.

(** ** Definitions *)

Record ust := mk_ust { pools : pst; bytes : mem }.

Abbreviation U := (st ust).

(** Calling a function of lib/string.c. *)
Definition mm {A} (f : M A) : U A := λ s,
  match f s.(bytes) with
  | Ok (a, m) => Ok (a, mk_ust s.(pools) m)
  | Panic => Panic | Wild => Wild | NoFuel => NoFuel
  end.

(** palloc_get_page() and palloc_free_page(), with their effect on the bytes of
    the page: zeroed on request, and overwritten when it is freed. *)
Definition get_page (flags : Z) : U Z := λ s,
  match palloc_get_page flags s.(pools) with
  | Ok (page, p) =>
      Ok (page, mk_ust p (if negb (page =? 0) && flag flags PAL_ZERO
                          then write_bytes s.(bytes) page (replicate 4096 0) else s.(bytes)))
  | Panic => Panic | Wild => Wild | NoFuel => NoFuel
  end.

Definition free_page (page : Z) : U unit := λ s,
  match palloc_free_page page s.(pools) with
  | Ok (_, p) =>
      Ok (tt, mk_ust p (if page =? 0 then s.(bytes)
                        else write_bytes s.(bytes) page (replicate 4096 204)))
  | Panic => Panic | Wild => Wild | NoFuel => NoFuel
  end.

(** Storing a 32-bit word. *)
Definition store_word (a v : Z) : M unit :=
  for_st 4 0 (λ i, store8 (a + i) (Z.shiftr v (8 * i))).

Definition MAX_ARGS : Z := 128.

Section arguments.
Context (space : Z).

(** The loop over strtok_r(): the tokens of the copy, or [None] when there are
    too many of them. *)
Definition parse_args (cmd_copy : Z) : M (option (list Z)) :=
  '(token, save_ptr) ← strtok_r cmd_copy space 0;
  loop_st (Z.to_nat MAX_ARGS + 1) (λ '(token, save_ptr, argv),
    if negb (token =? 0) then
      let argv := argv ++ [token] in
      if MAX_ARGS <=? Z.of_nat (length argv) then mret (inr None)
      else
        '(token, save_ptr) ← strtok_r 0 space save_ptr;
        mret (inl (token, save_ptr, argv))
    else mret (inr (Some argv))) (token, save_ptr, []).

(** Step 1: the strings, from the last argument to the first. *)
Fixpoint push_strings (argv : list Z) (esp : Z) : M (Z * list Z) :=
  match argv with
  | [] => mret (esp, [])
  | arg :: argv =>
      '(esp, argv) ← push_strings argv esp;
      n ← reads (λ m, strlen m arg);
      let len := n + 1 in
      let esp := u32 (esp - len) in
      memcpy esp arg len;;
      mret (esp, esp :: argv)
  end.

(** Step 3: the addresses of the strings, from the last to the first. *)
Fixpoint push_words (argv : list Z) (esp : Z) : M Z :=
  match argv with
  | [] => mret esp
  | arg :: argv =>
      esp ← push_words argv esp;
      let esp := u32 (esp - 4) in
      store_word esp arg;;
      mret esp
  end.

(** Steps 1 to 6. *)
Definition push_frame (argv : list Z) (esp : Z) : M Z :=
  let argc := Z.of_nat (length argv) in
  '(esp, argv) ← push_strings argv esp;
  let align := (4 - esp mod 4) mod 4 in
  let esp := u32 (esp - align) in
  memset esp 0 align;;
  let esp := u32 (esp - 4) in
  memset esp 0 4;;
  esp ← push_words argv esp;
  let argv_ptr := esp in
  let esp := u32 (esp - 4) in
  store_word esp argv_ptr;;
  let esp := u32 (esp - 4) in
  store_word esp argc;;
  let esp := u32 (esp - 4) in
  store_word esp 0;;
  mret esp.

(** The result and the new value of *ESP. *)
Definition setup_stack_arguments (esp cmd_line : Z) : U (bool * Z) :=
  cmd_copy ← get_page 0;
  if cmd_copy =? 0 then mret (false, esp)
  else
    mm (strlcpy cmd_copy cmd_line PGSIZE);;
    argv ← mm (parse_args cmd_copy);
    match argv with
    | None => mret (false, esp)
    | Some argv =>
        esp ← mm (push_frame argv esp);
        free_page cmd_copy;;
        mret (true, esp)
    end.
End arguments.

(** ** Words in memory *)

Definition word_at (m : mem) (a v : Z) : Prop := bytes_at m a (le32 v).

Lemma store_word_ok m a v :
  block m a 4 → is_u32 v → store_word a v m = Ok (tt, write_bytes m a (le32 v)).
Proof.
  intros Hb Hv. pose proof Hb as (H0 & H1 & H2). unfold store_word. apply for_copy; [done|].
  intros i b Hi m'. pose proof (lookup_lt_Some _ _ _ Hi) as Hl. change (length (le32 v)) with 4%nat in Hl.
  rewrite store8_ok; [|lia|].
  - do 3 f_equal. rewrite Z.shiftr_div_pow2 by lia.
    destruct i as [|[|[|[|i]]]]; [..|lia]; injection Hi as <-; cbn; by rewrite ?Z.div_1_r.
  - apply (write_bytes_block _ _ _ _ _ Hb). lia.
Qed.

Lemma word_at_write m a v : word_at (write_bytes m a (le32 v)) a v.
Proof. apply write_bytes_at. Qed.

(** Memory that agrees with [m] outside [lo, hi) and has the same addresses. *)
Record frames (m m' : mem) (lo hi : Z) : Prop := {
  fr_out : ∀ x, x < lo ∨ hi <= x → m' !! x = m !! x;
  fr_dom : ∀ x, is_Some (m !! x) → is_Some (m' !! x) }.

Lemma frames_refl m lo hi : frames m m lo hi.
Proof. done. Qed.

Lemma frames_trans m1 m2 m3 lo1 hi1 lo hi :
  frames m1 m2 lo1 hi1 → frames m2 m3 lo hi1 → lo <= lo1 → hi1 <= hi → frames m1 m3 lo hi.
Proof.
  intros [A1 A2] [B1 B2] H1 H2. split; [|auto]. intros x Hx. rewrite B1, A1 by lia. done.
Qed.

Lemma frames_write m a bs lo hi :
  lo <= a → a + Z.of_nat (length bs) <= hi → frames m (write_bytes m a bs) lo hi.
Proof.
  intros H1 H2. split.
  - intros x Hx. by rewrite write_bytes_lookup, decide_False by lia.
  - intros x Hx. rewrite write_bytes_lookup. case_decide; [apply lookup_lt_is_Some_2; lia|done].
Qed.

Lemma frames_block m m' lo hi a n : frames m m' lo hi → block m a n → block m' a n.
Proof. intros [_ D] (H0 & H1 & H2). split; [done|]. split; [done|]. auto. Qed.

Lemma frames_bytes m m' lo hi a bs :
  frames m m' lo hi → a + Z.of_nat (length bs) <= lo ∨ hi <= a → bytes_at m a bs → bytes_at m' a bs.
Proof. intros [F _] Hd Hb i Hi. rewrite F by lia. by apply Hb. Qed.

Lemma frames_cstr m m' lo hi a s :
  frames m m' lo hi → a + Z.of_nat (length s) < lo ∨ hi <= a → cstr m a s → cstr m' a s.
Proof.
  intros F Hd (Hb & H). split; [|done]. eapply frames_bytes; [done| |done].
  rewrite length_app. simpl. lia.
Qed.

(** ** Parsing the command line *)

Definition SP : list Z := [32].

(** The arguments [argv] are the strings [ws], within [lo, hi]. *)
Definition strings_in (m : mem) (lo hi : Z) : list Z → list (list Z) → Prop :=
  Forall2 (λ a w, cstr m a w ∧ lo <= a ∧ a + Z.of_nat (length w) <= hi).

Lemma strings_in_frames m m' lo hi hi' l h argv ws :
  strings_in m lo hi argv ws → frames m m' l h → hi < l ∨ h <= lo → hi <= hi' →
  strings_in m' lo hi' argv ws.
Proof.
  intros H F Hd Hle. eapply Forall2_impl; [exact H|]. intros a w (Hc & H1 & H2).
  split; [eapply frames_cstr; [done|lia|done]|lia].
Qed.

Section parse.
Context (space p e : Z).
Context (Hdis : space + 1 < p ∨ e < space).

(** What a call of strtok_r() leaves: the next word and the string of the rest,
    or nothing. *)
Definition at_token (m : mem) (token save : Z) (todo : list (list Z)) : Prop :=
  (token = 0 ∧ todo = [] ∧ save = e) ∨
  ∃ w r, todo = w :: words SP r ∧ cstr m token w ∧ cstr m save r ∧ token ≠ 0 ∧
    p <= token ∧ token + Z.of_nat (length w) <= save ∧ save + Z.of_nat (length r) = e.

Lemma strtok_step m q save sv r :
  cstr m space SP → cstr m sv r → (if q =? 0 then save else q) = sv →
  p <= sv → sv + Z.of_nat (length r) = e →
  ∃ token save' m', strtok_r q space save m = Ok ((token, save'), m') ∧
    at_token m' token save' (words SP r) ∧ frames m m' (sv + 1) (e + 1) ∧ cstr m' space SP ∧
    sv <= save' <= e.
Proof.
  intros HD Hr Hq Hp He. pose proof (strtok_r_ok m space sv q save SP r HD Hr Hq) as H.
  rewrite words_next. destruct (next_token SP r) as [[w r']|].
  - destruct H as (t & save' & E & Hw & C1 & C2 & I1 & I2 & I3).
    assert (0 < length w)%nat by (destruct w; [done|simpl; lia]).
    exists t, save', (<[t + Z.of_nat (length w) := 0]> m). split; [exact E|].
    pose proof C1 as (_ & _ & T0 & _). split; [|split; [|split]].
    + right. exists w, r'. split; [done|]. split; [done|]. split; [done|]. lia.
    + apply (frames_write m (t + Z.of_nat (length w)) [0]); cbn; lia.
    + apply cstr_frame; [done|]. simpl. lia.
    + lia.
  - exists 0, e, m. rewrite He in H. split; [exact H|]. split; [by left|]. split; [done|]. split; [done|lia].
Qed.

Let body := λ '(token, save_ptr, argv),
    if negb (token =? 0) then
      let argv := argv ++ [token] in
      if MAX_ARGS <=? Z.of_nat (length argv) then mret (inr None)
      else
        '(token, save_ptr) ← strtok_r 0 space save_ptr;
        mret (inl (token, save_ptr, argv))
    else mret (inr (Some argv)).

Lemma parse_loop n : ∀ m token save argv ws todo,
  at_token m token save todo → cstr m space SP → strings_in m p save argv ws → p <= save <= e →
  (length argv < 128)%nat → (128 - length argv < n)%nat →
  ∃ r m', loop_st n body (token, save, argv) m = Ok (r, m') ∧ frames m m' p (e + 1) ∧
    if (length (ws ++ todo) <? 128)%nat
    then ∃ argv', r = Some argv' ∧ strings_in m' p e argv' (ws ++ todo)
    else r = None.
Proof.
  induction n as [|n IH]; intros m token save argv ws todo Ht HD Hin Hsv Hl Hn; [lia|].
  pose proof (Forall2_length _ _ _ Hin) as Hlen.
  destruct Ht as [(-> & -> & ->)|(w & r & -> & C1 & C2 & Hnz & H1 & H2 & H3)].
  - exists (Some argv), m. split; [by apply loop_st_done|]. split; [done|].
    rewrite app_nil_r, <-Hlen, (proj2 (Nat.ltb_lt _ _)) by lia. eauto.
  - assert (Hin' : strings_in m p save (argv ++ [token]) (ws ++ [w])).
    { apply Forall2_app; [done|]. constructor; [done|constructor]. }
    destruct (decide (length argv = 127)%nat) as [H127|H127].
    + exists None, m. split.
      { apply loop_st_done. unfold body. rewrite (proj2 (Z.eqb_neq _ _)) by done. cbn [negb].
        rewrite length_app, (proj2 (Z.leb_le _ _)) by (unfold MAX_ARGS; simpl; lia). done. }
      split; [done|]. rewrite (proj2 (Nat.ltb_ge _ _)); [done|]. rewrite length_app. simpl. lia.
    + destruct (strtok_step m 0 save save r HD C2 eq_refl ltac:(lia) H3)
        as (token' & save' & m1 & E & Ht' & F & HD' & Hs').
      assert (Eb : body (token, save, argv) m = Ok (inl (token', save', argv ++ [token]), m1)).
      { unfold body. rewrite (proj2 (Z.eqb_neq _ _)) by done. cbn [negb].
        rewrite length_app, (proj2 (Z.leb_gt _ _)) by (unfold MAX_ARGS; simpl; lia).
        by rewrite (run_bind _ _ _ _ _ E). }
      rewrite (loop_st_next _ _ _ _ _ _ Eb).
      destruct (IH m1 token' save' (argv ++ [token]) (ws ++ [w]) (words SP r) Ht' HD')
        as (res & m2 & E2 & F2 & Hres).
      * eapply strings_in_frames; [done|exact F|lia|lia].
      * lia.
      * rewrite length_app. simpl. lia.
      * rewrite length_app. simpl. lia.
      * exists res, m2. split; [done|]. split.
        -- eapply frames_trans; [exact F|exact F2|..]. all: try lia.
        -- rewrite <-app_assoc in Hres. exact Hres.
Qed.
End parse.

Lemma parse_args_ok space m p s :
  cstr m space SP → cstr m p s → space + 1 < p ∨ p + Z.of_nat (length s) < space →
  let e := p + Z.of_nat (length s) in
  ∃ r m', parse_args space p m = Ok (r, m') ∧ frames m m' p (e + 1) ∧
    if (length (words SP s) <? 128)%nat
    then ∃ argv, r = Some argv ∧ strings_in m' p e argv (words SP s)
    else r = None.
Proof.
  intros HD Hs Hdis e. pose proof Hs as (_ & _ & P0 & _).
  destruct (strtok_step space p e Hdis m p 0 p s HD Hs) as (token & save & m1 & E & Ht & F & HD' & Hsv);
    [by rewrite (proj2 (Z.eqb_neq _ _)) by lia|lia|done|].
  unfold parse_args. rewrite (run_bind _ _ _ _ _ E).
  destruct (parse_loop space p e Hdis (Z.to_nat MAX_ARGS + 1) m1 token save [] [] (words SP s) Ht HD')
    as (r & m2 & E2 & F2 & Hr); [constructor|lia|simpl; lia|simpl; unfold MAX_ARGS; lia|].
  exists r, m2. split; [exact E2|]. split; [|done].
  eapply frames_trans; [exact F|exact F2|..]. all: lia.
Qed.

(** ** Pushing the frame *)

(** The bytes that the strings take, terminators included. *)
Definition strings_size (ws : list (list Z)) : Z :=
  Z.of_nat (sum_list_with (λ w, S (length w)) ws).

Lemma frames_widen m m' lo hi lo' hi' :
  frames m m' lo hi → lo' <= lo → hi <= hi' → frames m m' lo' hi'.
Proof. intros [F D] H1 H2. split; [|done]. intros x Hx. apply F. lia. Qed.

(** Writing just below what has been written. *)
Lemma frames_below m1 m2 m3 lo mid hi :
  frames m1 m2 mid hi → frames m2 m3 lo mid → lo <= mid <= hi → frames m1 m3 lo hi.
Proof.
  intros F G H. eapply frames_trans; [exact F|eapply frames_widen; [exact G|..]|..]; lia.
Qed.

Lemma push_strings_ok lo esp p e argv ws m :
  strings_in m p e argv ws → e < lo ∨ esp <= p → 0 < lo → esp <= 4294967295 →
  block m lo (esp - lo) → strings_size ws <= esp - lo →
  let esp' := esp - strings_size ws in
  ∃ argv' m', push_strings argv esp m = Ok ((esp', argv'), m') ∧ frames m m' esp' esp ∧
    strings_in m' esp' (esp - 1) argv' ws.
Proof.
  intros Hin Hdis H0 Hmax Hb. induction Hin as [|a w argv ws (Hc & I1 & I2) Hin IH]; intros Hfit esp'.
  - exists [], m. unfold esp', strings_size. simpl. rewrite Z.sub_0_r. split; [done|]. split; [done|constructor].
  - assert (Hsz : strings_size (w :: ws) = strings_size ws + Z.of_nat (length w) + 1)
      by (unfold strings_size; simpl; lia).
    assert (0 <= strings_size ws) by (unfold strings_size; lia).
    destruct IH as (argv' & m1 & E & F & Hs); [lia|]. set (esp1 := esp - strings_size ws) in *.
    assert (Hc1 : cstr m1 a w) by (eapply frames_cstr; [exact F|lia|done]).
    pose proof Hc1 as (Hb1 & Hnz & A0 & A1).
    cbn [push_strings]. rewrite (run_bind _ _ _ _ _ E), (run_reads _ _ _ _ (strlen_ok _ _ _ Hc1)).
    assert (He : esp1 - (Z.of_nat (length w) + 1) = esp') by (unfold esp', esp1; lia).
    cbv zeta. rewrite He, u32_small by lia.
    assert (Hbl : block m1 esp' (Z.of_nat (length (w ++ [0])))).
    { apply (frames_block _ _ _ _ _ _ F) in Hb as (_ & _ & B). rewrite length_app. simpl.
      split; [lia|]. split; [lia|]. intros i Hi. replace (esp' + i) with (lo + (esp' + i - lo)) by lia.
      apply B. lia. }
    assert (Ecp : memcpy esp' a (Z.of_nat (length w) + 1) m1 = Ok (esp', write_bytes m1 esp' (w ++ [0]))).
    { replace (Z.of_nat (length w) + 1) with (Z.of_nat (length (w ++ [0]))) by (rewrite length_app; simpl; lia).
      apply memcpy_ok; [done| |done|done|rewrite length_app; simpl; lia|rewrite length_app; simpl; lia].
      apply Forall_app. split; [eapply Forall_impl; [done|]; simpl; lia|repeat constructor; lia]. }
    rewrite (run_bind _ _ _ _ _ Ecp).
    assert (F' : frames m1 (write_bytes m1 esp' (w ++ [0])) esp' esp1)
      by (apply frames_write; rewrite ?length_app; simpl; lia).
    eexists _, _. split; [done|]. split; [eapply frames_below; [exact F|exact F'|lia]|].
    constructor.
    + split; [|lia]. split; [apply write_bytes_at|]. split; [done|lia].
    + eapply Forall2_impl; [exact Hs|]. intros a' w' (C & J1 & J2).
      split; [eapply frames_cstr; [exact F'|lia|done]|lia].
Qed.

Lemma push_words_ok lo esp argv m :
  0 < lo → esp <= 4294967295 → block m lo (esp - lo) → Forall (λ a, is_u32 a) argv →
  let esp' := esp - 4 * Z.of_nat (length argv) in lo <= esp' →
  ∃ m', push_words argv esp m = Ok (esp', m') ∧ frames m m' esp' esp ∧
    ∀ i a, argv !! i = Some a → word_at m' (esp' + 4 * Z.of_nat i) a.
Proof.
  intros H0 Hmax Hb F. induction F as [|a argv Ha F IH]; intros esp' Hlo.
  - exists m. unfold esp'. simpl. rewrite Z.sub_0_r. done.
  - cbn [length] in esp'. destruct IH as (m1 & E & F1 & W); [lia|].
    set (esp1 := esp - 4 * Z.of_nat (length argv)) in *.
    cbn [push_words]. rewrite (run_bind _ _ _ _ _ E). cbv zeta.
    replace (esp1 - 4) with esp' by (unfold esp1, esp'; lia). rewrite u32_small by lia.
    assert (Hbl : block m1 esp' 4).
    { apply (frames_block _ _ _ _ _ _ F1) in Hb as (_ & _ & B).
      split; [lia|]. split; [lia|]. intros i Hi. replace (esp' + i) with (lo + (esp' + i - lo)) by lia.
      apply B. lia. }
    rewrite (run_bind _ _ _ _ _ (store_word_ok _ _ _ Hbl Ha)).
    assert (F' : frames m1 (write_bytes m1 esp' (le32 a)) esp' esp1)
      by (apply frames_write; [lia|change (length (le32 a)) with 4%nat; lia]).
    eexists. split; [done|]. split; [eapply frames_below; [exact F1|exact F'|lia]|].
    intros [|i] b Hi.
    + injection Hi as <-. rewrite Z.mul_0_r, Z.add_0_r. apply word_at_write.
    + apply (frames_bytes _ _ _ _ _ _ F').
      * change (length (le32 b)) with 4%nat. lia.
      * replace (esp' + 4 * Z.of_nat (S i)) with (esp1 + 4 * Z.of_nat i) by lia. by apply W.
Qed.

(** The frame that a C program's start-up code expects at [esp]: a return
    address, argc, argv, the argument pointers with the null pointer that ends
    them, and the strings they point to, all below [top]. *)
Definition c_frame (m : mem) (esp top : Z) (ws : list (list Z)) : Prop :=
  let argc := Z.of_nat (length ws) in
  word_at m esp 0 ∧ word_at m (esp + 4) argc ∧ word_at m (esp + 8) (esp + 12) ∧
  word_at m (esp + 12 + 4 * argc) 0 ∧
  ∃ argv, strings_in m (esp + 16 + 4 * argc) (top - 1) argv ws ∧
    ∀ i a, argv !! i = Some a → word_at m (esp + 12 + 4 * Z.of_nat i) a.

(** The padding that step 2 inserts below the strings. *)
Definition padding (esp : Z) (ws : list (list Z)) : Z :=
  (4 - (esp - strings_size ws) mod 4) mod 4.

Lemma sub_block m lo hi a n :
  block m lo (hi - lo) → lo <= a → 0 <= n → a + n <= hi → block m a n.
Proof.
  intros (B0 & B1 & B) H1 Hn H2. split; [lia|]. split; [lia|]. intros i Hi.
  replace (a + i) with (lo + (a + i - lo)) by lia. apply B. lia.
Qed.

(** Pushing one word. *)
Lemma push_word_ok m0 m lo hi cur v :
  frames m0 m cur hi → block m0 lo (hi - lo) → lo <= cur - 4 → cur <= hi → is_u32 v →
  ∃ m', store_word (cur - 4) v m = Ok (tt, m') ∧ frames m0 m' (cur - 4) hi ∧
    frames m m' (cur - 4) cur ∧ word_at m' (cur - 4) v.
Proof.
  intros F Hb Hlo Hhi Hv. eexists.
  split; [apply store_word_ok; [|done]; eapply frames_block, sub_block; [exact F|exact Hb|lia..]|].
  assert (F' : frames m (write_bytes m (cur - 4) (le32 v)) (cur - 4) cur)
    by (apply frames_write; [lia|change (length (le32 v)) with 4%nat; lia]).
  split; [eapply frames_below; [exact F|exact F'|lia]|]. split; [done|apply word_at_write].
Qed.

Lemma frames_word m m' lo hi a v :
  frames m m' lo hi → a + 4 <= lo ∨ hi <= a → word_at m a v → word_at m' a v.
Proof. intros F Hd. by apply (frames_bytes _ _ _ _ _ _ F). Qed.

(** Clearing bytes at the bottom. *)
Lemma push_zeros_ok m0 m lo hi cur n :
  frames m0 m cur hi → block m0 lo (hi - lo) → lo <= cur - n → cur <= hi → 0 <= n →
  ∃ m', memset (cur - n) 0 n m = Ok (cur - n, m') ∧ frames m0 m' (cur - n) hi ∧
    frames m m' (cur - n) cur ∧ bytes_at m' (cur - n) (replicate (Z.to_nat n) 0).
Proof.
  intros F Hb Hlo Hhi Hn. eexists.
  split; [apply memset_ok; [done|]; eapply frames_block, sub_block; [exact F|exact Hb|lia..]|].
  assert (F' : frames m (write_bytes m (cur - n) (replicate (Z.to_nat n) (u8 0))) (cur - n) cur)
    by (apply frames_write; rewrite ?length_replicate; lia).
  split; [eapply frames_below; [exact F|exact F'|lia]|]. split; [done|]. apply write_bytes_at.
Qed.

Lemma strings_in_u32 m lo hi argv ws : strings_in m lo hi argv ws → Forall (λ a, is_u32 a) argv.
Proof.
  intros H. apply Forall_lookup_2. intros i a Hi.
  destruct (Forall2_lookup_l _ _ _ _ _ H Hi) as (w & _ & (_ & _ & P0 & P1) & _). lia.
Qed.

Lemma push_frame_ok lo esp p e argv ws m :
  strings_in m p e argv ws → e < lo ∨ esp <= p → 0 < lo → esp <= 4294967295 →
  block m lo (esp - lo) →
  let esp' := esp - strings_size ws - padding esp ws - 4 * Z.of_nat (length ws) - 16 in
  lo <= esp' →
  ∃ m', push_frame argv esp m = Ok (esp', m') ∧ frames m m' esp' esp ∧ c_frame m' esp' esp ws.
Proof.
  intros Hin Hdis H0 Hmax Hb esp' Hlo. assert (0 <= strings_size ws) by (unfold strings_size; lia).
  assert (Hpad : 0 <= padding esp ws < 4) by (unfold padding; zdm).
  pose proof (Forall2_length _ _ _ Hin) as Hlen.
  destruct (push_strings_ok lo esp p e argv ws m Hin Hdis H0 Hmax Hb ltac:(lia))
    as (argv' & m1 & E1 & F1 & S1). set (e1 := esp - strings_size ws) in *.
  pose proof (Forall2_length _ _ _ S1) as Hlen'.
  destruct (push_zeros_ok m m1 lo esp e1 (padding esp ws) F1 Hb ltac:(lia) ltac:(lia) ltac:(lia))
    as (m2 & E2 & F2 & G2 & _). set (e2 := e1 - padding esp ws) in *.
  destruct (push_zeros_ok m m2 lo esp e2 4 F2 Hb ltac:(lia) ltac:(lia) ltac:(lia))
    as (m3 & E3 & F3 & G3 & Z3).
  destruct (push_words_ok lo (e2 - 4) argv' m3 H0 ltac:(lia)
    (sub_block _ lo esp lo (e2 - 4 - lo) (frames_block _ _ _ _ _ _ F3 Hb) ltac:(lia) ltac:(lia) ltac:(lia))
    (strings_in_u32 _ _ _ _ _ S1) ltac:(lia)) as (m4 & E4 & G4 & W4).
  rewrite Hlen' in E4, G4, W4. set (e4 := e2 - 4 - 4 * Z.of_nat (length ws)) in *.
  assert (F4 : frames m m4 e4 esp) by (eapply frames_below; [exact F3|exact G4|lia]).
  destruct (push_word_ok m m4 lo esp e4 e4 F4 Hb ltac:(lia) ltac:(lia) ltac:(lia)) as (m5 & E5 & F5 & G5 & W5).
  destruct (push_word_ok m m5 lo esp (e4 - 4) (Z.of_nat (length ws)) F5 Hb ltac:(lia) ltac:(lia) ltac:(lia))
    as (m6 & E6 & F6 & G6 & W6).
  destruct (push_word_ok m m6 lo esp (e4 - 4 - 4) 0 F6 Hb ltac:(lia) ltac:(lia) ltac:(lia))
    as (m7 & E7 & F7 & G7 & W7).
  assert (G : frames m4 m7 esp' e4).
  { eapply frames_below; [exact G5| |lia]. eapply frames_below; [exact G6| |lia].
    eapply frames_widen; [exact G7|lia|lia]. }
  assert (G' : frames m3 m7 esp' (e2 - 4)) by (eapply frames_below; [exact G4|exact G|lia]).
  replace (e4 - 4 - 4 - 4) with esp' in * by lia.
  exists m7. split; [|split; [done|]].
  - unfold push_frame. rewrite (run_bind _ _ _ _ _ E1). cbv zeta. fold (padding esp ws).
    change ((4 - e1 mod 4) mod 4) with (padding esp ws). fold e2. rewrite (u32_small e2) by lia.
    rewrite (run_bind _ _ _ _ _ E2), (u32_small (e2 - 4)) by lia.
    rewrite (run_bind _ _ _ _ _ E3), (run_bind _ _ _ _ _ E4), (u32_small (e4 - 4)) by lia.
    rewrite (run_bind _ _ _ _ _ E5), (u32_small (e4 - 4 - 4)) by lia. rewrite Hlen.
    rewrite (run_bind _ _ _ _ _ E6). replace (e4 - 4 - 4 - 4) with esp' by lia.
    rewrite (u32_small esp') by lia. by rewrite (run_bind _ _ _ _ _ E7).
  - split; [done|]. split; [|split; [|split]].
    + replace (esp' + 4) with (e4 - 4 - 4) by lia. apply (frames_word _ _ _ _ _ _ G7); [lia|done].
    + replace (esp' + 8) with (e4 - 4) by lia. replace (esp' + 12) with e4 by lia.
      apply (frames_word _ _ _ _ _ _ G7); [lia|]. apply (frames_word _ _ _ _ _ _ G6); [lia|done].
    + replace (esp' + 12 + 4 * Z.of_nat (length ws)) with (e2 - 4) by lia.
      apply (frames_word _ _ _ _ _ _ G'); [lia|exact Z3].
    + exists argv'. split.
      * eapply Forall2_impl; [exact S1|]. intros a w (C & J1 & J2). split; [|lia].
        apply (frames_cstr _ _ _ _ _ _ G'); [lia|]. apply (frames_cstr _ _ _ _ _ _ G3); [lia|].
        apply (frames_cstr _ _ _ _ _ _ G2); [lia|done].
      * intros i a Hi. replace (esp' + 12) with e4 by lia.
        pose proof (lookup_lt_Some _ _ _ Hi).
        apply (frames_word _ _ _ _ _ _ G); [lia|by apply W4].
Qed.

Lemma c_frame_frames m m' esp top ws lo hi :
  c_frame m esp top ws → frames m m' lo hi → top <= lo →
  esp + 16 + 4 * Z.of_nat (length ws) <= top → c_frame m' esp top ws.
Proof.
  intros (W0 & W1 & W2 & W3 & argv & S & W) F Hlo Ht. pose proof (Forall2_length _ _ _ S) as Hl.
  unfold c_frame. do 4 (split; [apply (frames_word _ _ _ _ _ _ F); [lia|done]|]).
  exists argv. split; [eapply strings_in_frames; [exact S|exact F|lia|lia]|].
  intros i a Hi. pose proof (lookup_lt_Some _ _ _ Hi). apply (frames_word _ _ _ _ _ _ F); [lia|auto].
Qed.

(** ** The whole function *)

Lemma run_mm {A B} (f : M A) (k : A → U B) s a m :
  f s.(bytes) = Ok (a, m) → (mm f ≫= k) s = k a (mk_ust s.(pools) m).
Proof. intros E. apply run_bind. unfold mm. by rewrite E. Qed.

(** A page that palloc_get_page() may return for the kernel. *)
Definition free_kpage (s : pst) (kp : Z) : Prop :=
  kernel_page kp ∧ page_from_pool s.(kernel_pool) kp = true ∧ used s kp = false.

(** A range of memory that no such page overlaps. *)
Definition avoids (s : pst) (a n : Z) : Prop :=
  ∀ kp, free_kpage s kp → a + n <= kp ∨ kp + 4096 <= a.

Section setup.
Context (space cmd_line : Z) (s : ust) (line : list Z).
Context (Hpools : pools_wf s.(pools))
  (Hpages : ∀ kp, free_kpage s.(pools) kp → block s.(bytes) kp 4096)
  (Hspace : cstr s.(bytes) space SP) (Hspace' : avoids s.(pools) space 2)
  (Hline : cstr s.(bytes) cmd_line line) (Hshort : Z.of_nat (length line) < 4096)
  (Hline' : avoids s.(pools) cmd_line (Z.of_nat (length line) + 1)).

(** Up to the end of the loop over the tokens. *)
Lemma setup_parse :
  (∃ kp p1 m1 r, free_kpage s.(pools) kp ∧ get_page 0 s = Ok (kp, mk_ust p1 s.(bytes)) ∧ kp ≠ 0 ∧
     pools_wf p1 ∧ p1.(pmem) = s.(pools).(pmem) ∧
     (∀ q, is_u32 q → used p1 q = if among kp 1 q then true else used s.(pools) q) ∧
     frames s.(bytes) m1 kp (kp + 4096) ∧
     (∀ k, (mm (strlcpy kp cmd_line PGSIZE);; argv ← mm (parse_args space kp); k argv : U (bool * Z))
        (mk_ust p1 s.(bytes)) = k r (mk_ust p1 m1)) ∧
     cstr m1 cmd_line line ∧
     if (length (words SP line) <? 128)%nat
     then ∃ argv, r = Some argv ∧ strings_in m1 kp (kp + Z.of_nat (length line)) argv (words SP line)
     else r = None) ∨
  ((∀ i, 0 <= i < bit_cnt s.(pools).(kernel_pool).(used_map) →
      bit s.(pools).(kernel_pool).(used_map) i = true) ∧ get_page 0 s = Ok (0, s)).
Proof.
  destruct (palloc_get_page_ok s.(pools) 0 Hpools eq_refl) as
    [(p1 & kp & E & Hp1 & Hkp & Hfree & Hused & Hpm & Hfrom & _)|[Hfull E]]; [left|right].
  2:{ split; [exact Hfull|]. unfold get_page. rewrite E. by destruct s. }
  assert (Hfk : free_kpage s.(pools) kp) by done. pose proof Hkp as [Hkr Hka].
  pose proof (Hpages _ Hfk) as Hblk. specialize (Hspace' _ Hfk). specialize (Hline' _ Hfk).
  assert (Hl0 : 0 <= Z.of_nat (length line)) by lia. unfold PHYS_BASE in Hkr.
  set (m0 := write_bytes s.(bytes) kp (line ++ [0])).
  assert (Htake : take (Z.to_nat (PGSIZE - 1)) line = line)
    by (apply take_ge; change (PGSIZE - 1) with 4095; lia).
  assert (Ecpy : strlcpy kp cmd_line PGSIZE s.(bytes) = Ok (Z.of_nat (length line), m0)).
  { unfold m0. rewrite <-Htake at 2.
    apply (strlcpy_ok _ kp cmd_line line PGSIZE Hline); rewrite ?Htake; [done|done| |lia].
    apply (sub_block _ kp (kp + 4096)); [|lia..]. by replace (kp + 4096 - kp) with 4096 by lia. }
  assert (F0 : frames s.(bytes) m0 kp (kp + 4096))
    by (apply frames_write; rewrite ?length_app; simpl; lia).
  pose proof Hline as (_ & Hnz & _).
  assert (Hcopy : cstr m0 kp line).
  { split; [apply write_bytes_at|]. split; [done|]. destruct Hblk as (_ & B1 & _). lia. }
  destruct (parse_args_ok space m0 kp line) as (r & m1 & E1 & F1 & Hr);
    [apply (frames_cstr _ _ _ _ _ _ F0); [simpl; lia|done]|done|lia|].
  assert (F1' : frames m0 m1 kp (kp + 4096)) by (eapply frames_widen; [exact F1|lia|lia]).
  exists kp, p1, m1, r. split; [done|]. split.
  { unfold get_page. rewrite E. change (flag 0 PAL_ZERO) with false. by rewrite andb_false_r. }
  split; [lia|]. do 3 (split; [done|]).
  split; [eapply frames_trans; [exact F0|exact F1'|lia|lia]|]. split.
  { intros k. rewrite (run_mm (strlcpy kp cmd_line PGSIZE) _ (mk_ust p1 s.(bytes)) _ _ Ecpy).
    by rewrite (run_mm (parse_args space kp) _ (mk_ust p1 m0) _ _ E1). }
  split; [|exact Hr].
  apply (frames_cstr _ _ _ _ _ _ F1'); [lia|]. apply (frames_cstr _ _ _ _ _ _ F0); [lia|done].
Qed.
End setup.

(** All that setup_stack_arguments() does when the command line fits the stack:
    besides its result, the page of the working copy is the only page whose words
    change, and no byte below the frame changes. *)
Lemma setup_stack_arguments_ok space lo esp cmd_line s line :
  pools_wf s.(pools) →
  (∀ kp, free_kpage s.(pools) kp → block s.(bytes) kp 4096) →
  cstr s.(bytes) space SP → avoids s.(pools) space 2 →
  cstr s.(bytes) cmd_line line → Z.of_nat (length line) < 4096 →
  avoids s.(pools) cmd_line (Z.of_nat (length line) + 1) → esp <= cmd_line →
  0 < lo → esp <= PHYS_BASE → block s.(bytes) lo (esp - lo) →
  let ws := words SP line in
  let esp' := esp - strings_size ws - padding esp ws - 4 * Z.of_nat (length ws) - 16 in
  (length ws < 128)%nat → lo <= esp' →
  (∃ s' kp, setup_stack_arguments space esp cmd_line s = Ok ((true, esp'), s') ∧
     c_frame s'.(bytes) esp' esp ws ∧ cstr s'.(bytes) cmd_line line ∧
     (∀ q, is_u32 q → used s'.(pools) q = used s.(pools) q) ∧
     pools_wf s'.(pools) ∧ free_kpage s.(pools) kp ∧
     s'.(pools).(pmem) = <[kp := replicate 1024 3435973836]> s.(pools).(pmem) ∧
     (∀ x, x < esp' → s'.(bytes) !! x = s.(bytes) !! x)) ∨
  (∀ i, 0 <= i < bit_cnt s.(pools).(kernel_pool).(used_map) →
     bit s.(pools).(kernel_pool).(used_map) i = true) ∧
  setup_stack_arguments space esp cmd_line s = Ok ((false, esp), s).
Proof.
  intros Hpools Hpages Hsp Hsp' Hline Hshort Hline' Habove Hlo Hesp Hstack ws esp' Hn Hfit.
  assert (0 <= strings_size ws) by (unfold strings_size; lia).
  assert (Hpad : 0 <= padding esp ws < 4) by (unfold padding; zdm).
  destruct (setup_parse space cmd_line s line Hpools Hpages Hsp Hsp' Hline Hshort Hline') as
    [(kp & p1 & m1 & r & Hfk & E & Hk0 & Hp1 & Hpm & Hused & F1 & Ek & Hl1 & Hr)|[Hfull E]]; [left|right].
  2:{ split; [exact Hfull|]. unfold setup_stack_arguments. by rewrite (run_bind _ _ _ _ _ E). }
  fold ws in Hr. rewrite (proj2 (Nat.ltb_lt _ _)) in Hr by done.
  destruct Hr as (argv & -> & Hs). pose proof Hfk as ([Hkr Hka] & _ & Hfree). specialize (Hline' _ Hfk). unfold PHYS_BASE in *.
  destruct (push_frame_ok lo esp kp _ argv ws m1 Hs ltac:(lia) Hlo ltac:(lia)
    (frames_block _ _ _ _ _ _ F1 Hstack) Hfit) as (m2 & E2 & F2 & C2). fold esp' in E2, F2, C2.
  destruct (palloc_free_page_ok p1 kp Hp1 ltac:(lia) Hka) as (p2 & E3 & Hp2 & Hus2 & Hpm2 & _).
  { rewrite Hused by lia. unfold among. by rewrite (proj2 (Z.leb_le _ _)), (proj2 (Z.ltb_lt _ _)) by lia. }
  set (m3 := write_bytes m2 kp (replicate 4096 204)).
  assert (F3 : frames m2 m3 kp (kp + 4096)) by (apply frames_write; rewrite ?length_replicate; lia).
  assert (Efree : free_page kp (mk_ust p1 m2) = Ok (tt, mk_ust p2 m3)).
  { unfold free_page. cbn [pools bytes]. rewrite E3. by rewrite (proj2 (Z.eqb_neq kp 0)). }
  exists (mk_ust p2 m3), kp. split; [|split; [|split; [|split; [|do 2 (split; [done|]); split]]]].
  - unfold setup_stack_arguments. rewrite (run_bind _ _ _ _ _ E), (proj2 (Z.eqb_neq kp 0)) by done.
    rewrite Ek. rewrite (run_mm (push_frame argv esp) _ (mk_ust p1 m1) _ _ E2). cbn [pools].
    by rewrite (run_bind _ _ _ _ _ Efree).
  - apply (c_frame_frames m2 m3 _ _ _ kp (kp + 4096)); [done|done|lia|lia].
  - cbn [bytes]. apply (frames_cstr _ _ _ _ _ _ F3); [lia|]. apply (frames_cstr _ _ _ _ _ _ F2); [lia|done].
  - intros q Hq. cbn [pools]. rewrite Hus2, Hused by done. destruct (among kp 1 q) eqn:Ha; [|done].
    by rewrite (used_same_page _ kp).
  - cbn [pools]. by rewrite Hpm2, Hpm.
  - intros x Hx. cbn [bytes]. destruct F1 as [F1 _], F2 as [F2 _], F3 as [F3 _].
    rewrite F3, F2, F1 by lia. done.
Qed.

(** ** Properties *)

(** C17: setup_stack_arguments() builds the frame the start-up code of a C program
    expects.  For a command line of fewer than 128 words that fits the stack, it
    returns true and *ESP points to a null return address, the number of words,
    a pointer to the argument pointers, those pointers with a null pointer at
    the end, and above them the words of the command line as strings.  The
    command line is unchanged and the page of the working copy is given back.
    The only other outcome is that the kernel pool is full: it returns false and
    changes nothing.  The padding of step 2 does not word-align the stack: *ESP
    is a multiple of four only when the strings end at an even address. *)
Theorem setup_stack_arguments_layout space lo esp cmd_line s line :
  pools_wf s.(pools) →
  (∀ kp, free_kpage s.(pools) kp → block s.(bytes) kp 4096) →
  cstr s.(bytes) space SP → avoids s.(pools) space 2 →
  cstr s.(bytes) cmd_line line → Z.of_nat (length line) < 4096 →
  avoids s.(pools) cmd_line (Z.of_nat (length line) + 1) → esp <= cmd_line →
  0 < lo → esp <= PHYS_BASE → block s.(bytes) lo (esp - lo) →
  let ws := words SP line in
  let esp' := esp - strings_size ws - padding esp ws - 4 * Z.of_nat (length ws) - 16 in
  (length ws < 128)%nat → lo <= esp' →
  (∃ s', setup_stack_arguments space esp cmd_line s = Ok ((true, esp'), s') ∧
     c_frame s'.(bytes) esp' esp ws ∧ cstr s'.(bytes) cmd_line line ∧
     (∀ q, is_u32 q → used s'.(pools) q = used s.(pools) q)) ∧
    esp' mod 4 = 2 * ((esp - strings_size ws) mod 2) ∨
  (∀ i, 0 <= i < bit_cnt s.(pools).(kernel_pool).(used_map) →
     bit s.(pools).(kernel_pool).(used_map) i = true) ∧
  setup_stack_arguments space esp cmd_line s = Ok ((false, esp), s).
Proof.
  intros Hpools Hpages Hsp Hsp' Hline Hshort Hline' Habove Hlo Hesp Hstack ws esp' Hn Hfit.
  destruct (setup_stack_arguments_ok space lo esp cmd_line s line Hpools Hpages Hsp Hsp' Hline Hshort
    Hline' Habove Hlo Hesp Hstack Hn Hfit) as [(s' & kp & E & C & L & U & _)|H]; [left|by right].
  split; [eauto 6|]. unfold esp', padding, ws. zdm.
Qed.

(** A machine whose kernel pool has two pages: the first holds the command line
    ["echo x"], the second is free.  The stack is one page below PHYS_BASE. *)
Definition demo_pools : pst :=
  mk_pst (mk_pool (mk_bitmap 2 [1]) 3222274048) (mk_pool (mk_bitmap 1 [0]) 3222282240) ∅.
Definition demo_bytes : mem :=
  write_bytes (write_bytes (write_bytes (write_bytes ∅ 3222278144 (replicate 4096 0))
    3222274048 [101; 99; 104; 111; 32; 120; 0]) 3221291008 [32; 0])
    3221221376 (replicate 4096 0).
Definition demo_ust : ust := mk_ust demo_pools demo_bytes.
Definition demo_line : list Z := [101; 99; 104; 111; 32; 120].

Lemma demo_ust_pools : pools_wf demo_pools.
Proof. by repeat (split || constructor). Qed.

Lemma demo_free kp : free_kpage demo_pools kp → kp = 3222278144.
Proof.
  intros ([Hr Ha] & Hfrom & Hused). unfold PHYS_BASE in Hr.
  rewrite from_pool_range in Hfrom by (apply demo_ust_pools || lia).
  change (page_at (kernel_pool demo_pools) (bit_cnt (used_map (kernel_pool demo_pools))))
    with 3222282240 in Hfrom.
  change (pool_base (kernel_pool demo_pools)) with 3222274048 in Hfrom.
  apply andb_true_iff in Hfrom as [H1 H2]. apply Z.leb_le in H1. apply Z.ltb_lt in H2.
  assert (kp = 3222274048 ∨ kp = 3222278144) as [-> | ->] by zdm; [by vm_compute in Hused|done].
Qed.

Lemma demo_blocks :
  block demo_bytes 3222278144 4096 ∧
  block demo_bytes 3221221376 4096 ∧
  cstr demo_bytes 3221291008 SP ∧ cstr demo_bytes 3222274048 demo_line.
Proof.
  assert (Hb : ∀ (m : mem) a, 0 < a → a + 4096 <= 4294967296 → block (write_bytes m a (replicate 4096 0)) a 4096).
  { intros m a H1 H2. split; [done|]. split; [done|]. intros i Hi.
    rewrite write_bytes_lookup, length_replicate, decide_True by lia.
    apply lookup_lt_is_Some_2. rewrite length_replicate. lia. }
  assert (Hc : ∀ (m : mem) a s, Forall (λ b, 0 < b < 256) s → 0 < a →
    a + Z.of_nat (length s) < 4294967296 → cstr (write_bytes m a (s ++ [0])) a s).
  { intros m a s F H1 H2. split; [apply write_bytes_at|done]. }
  split; [|split; [|split]].
  - do 3 apply write_bytes_block. apply Hb; lia.
  - apply Hb; lia.
  - eapply frames_cstr; [apply (frames_write _ 3221221376 _ 3221221376 3221225472)| |].
    + lia.
    + rewrite length_replicate. lia.
    + simpl. lia.
    + apply (Hc _ _ SP); [repeat constructor; lia|lia|simpl; lia].
  - eapply frames_cstr; [apply (frames_write _ 3221221376 _ 3221221376 3221225472)| |].
    + lia.
    + rewrite length_replicate. lia.
    + simpl. lia.
    + eapply frames_cstr; [apply (frames_write _ 3221291008 _ 3221291008 3221291010)| |].
      * lia.
      * simpl. lia.
      * simpl. lia.
      * apply (Hc _ _ demo_line); [repeat constructor; lia|lia|simpl; lia].
Qed.

Lemma setup_stack_arguments_layout_witness :
  ∃ s', setup_stack_arguments 3221291008 PHYS_BASE 3222274048 demo_ust = Ok ((true, 3221225438), s') ∧
    c_frame s'.(bytes) 3221225438 PHYS_BASE [[101; 99; 104; 111]; [120]].
Proof.
  destruct demo_blocks as (B1 & B2 & C1 & C2).
  destruct (setup_stack_arguments_layout 3221291008 3221221376 PHYS_BASE 3222274048 demo_ust demo_line
    demo_ust_pools) as [[(s' & E & C & _) _]|[Hfull _]].
  - intros kp H. rewrite (demo_free kp H). exact B1.
  - exact C1.
  - intros kp H. rewrite (demo_free kp H). lia.
  - exact C2.
  - simpl. lia.
  - intros kp H. rewrite (demo_free kp H). simpl. lia.
  - unfold PHYS_BASE. lia.
  - lia.
  - done.
  - exact B2.
  - vm_compute. lia.
  - by vm_compute.
  - exists s'. split; [exact E|exact C].
  - specialize (Hfull 1 ltac:(cbn; lia)). by vm_compute in Hfull.
Defined.

(** With 128 words or more, setup_stack_arguments() returns false without
    moving *ESP, and the page of the working copy stays allocated although
    nobody refers to it any more. *)
Theorem setup_stack_arguments_leak space esp cmd_line s line :
  pools_wf s.(pools) →
  (∀ kp, free_kpage s.(pools) kp → block s.(bytes) kp 4096) →
  cstr s.(bytes) space SP → avoids s.(pools) space 2 →
  cstr s.(bytes) cmd_line line → Z.of_nat (length line) < 4096 →
  avoids s.(pools) cmd_line (Z.of_nat (length line) + 1) →
  (128 <= length (words SP line))%nat →
  ∃ s', setup_stack_arguments space esp cmd_line s = Ok ((false, esp), s') ∧
    (s' = s ∨ ∃ kp, used s.(pools) kp = false ∧ used s'.(pools) kp = true).
Proof.
  intros Hpools Hpages Hsp Hsp' Hline Hshort Hline' Hn.
  destruct (setup_parse space cmd_line s line Hpools Hpages Hsp Hsp' Hline Hshort Hline') as
    [(kp & p1 & m1 & r & Hfk & E & Hk0 & Hp1 & Hpm & Hused & F1 & Ek & Hl1 & Hr)|[Hfull E]].
  - rewrite (proj2 (Nat.ltb_ge _ _)) in Hr by done. subst r. exists (mk_ust p1 m1).
    unfold setup_stack_arguments. rewrite (run_bind _ _ _ _ _ E), (proj2 (Z.eqb_neq kp 0)) by done.
    rewrite Ek. split; [done|]. right. exists kp. pose proof Hfk as ([Hkr _] & _ & Hfree).
    split; [done|]. cbn [pools]. unfold PHYS_BASE in Hkr. rewrite Hused by lia. unfold among.
    by rewrite (proj2 (Z.leb_le _ _)), (proj2 (Z.ltb_lt _ _)) by lia.
  - exists s. split; [|by left]. unfold setup_stack_arguments. by rewrite (run_bind _ _ _ _ _ E).
Qed.

(** The same machine with a command line of 128 one-letter words. *)
Definition long_line : list Z := mjoin (replicate 128 [97; 32]).
Definition long_bytes : mem :=
  write_bytes (write_bytes (write_bytes ∅ 3222278144 (replicate 4096 0))
    3222274048 (long_line ++ [0])) 3221291008 [32; 0].
Definition long_ust : ust := mk_ust demo_pools long_bytes.

Lemma long_blocks :
  block long_bytes 3222278144 4096 ∧ cstr long_bytes 3221291008 SP ∧
  cstr long_bytes 3222274048 long_line.
Proof.
  assert (Hl : length long_line = 256%nat) by by vm_compute. split; [|split].
  - do 2 apply write_bytes_block. split; [lia|]. split; [lia|]. intros i Hi.
    rewrite write_bytes_lookup, length_replicate, decide_True by lia.
    apply lookup_lt_is_Some_2. rewrite length_replicate. lia.
  - split; [apply write_bytes_at|]. split; [repeat constructor; lia|simpl; lia].
  - eapply frames_cstr; [apply (frames_write _ 3221291008 _ 3221291008 3221291010); simpl; lia| |].
    + rewrite Hl. lia.
    + split; [apply write_bytes_at|]. split; [|rewrite Hl; lia].
      apply (bool_decide_eq_true_1 (Forall (λ b, 0 < b < 256) long_line)). by vm_compute.
Qed.

Lemma setup_stack_arguments_leak_witness :
  ∃ s', setup_stack_arguments 3221291008 PHYS_BASE 3222274048 long_ust = Ok ((false, PHYS_BASE), s').
Proof.
  assert (Hl : length long_line = 256%nat) by by vm_compute.
  destruct long_blocks as (B1 & C1 & C2).
  destruct (setup_stack_arguments_leak 3221291008 PHYS_BASE 3222274048 long_ust long_line
    demo_ust_pools) as (s' & E & _).
  - intros kp H. rewrite (demo_free kp H). exact B1.
  - exact C1.
  - intros kp H. rewrite (demo_free kp H). lia.
  - exact C2.
  - rewrite Hl. lia.
  - intros kp H. rewrite (demo_free kp H). rewrite Hl. lia.
  - apply Nat.leb_le. by vm_compute.
  - by exists s'.
Defined.
