(* ===== verification/Exception.v ===== *)
(** * Page faults and access to user memory: userprog/exception.c, and get_user()
    and put_user() of userprog/syscall.c

    The processor's translation of an address in kernel mode walks the active
    page directory; the accessed and dirty bits it sets are left out.  When it
    faults, the handler runs and the instruction is tried again.  The bytes of a
    page are read from and written to its words in the store of Palloc.v.  The
    messages that the handlers print are left out. *)

From S2P Require Import Prelude Selectors Bitmap Vaddr UserMem Palloc Pagedir.

Open Scope Z_scope.

(** ** Definitions *)

Record xst := mk_xst { pg : pgst; page_fault_cnt : Z }.

Abbreviation X := (st xst).

Definition use_pg {A} (m : G A) : X A := λ s,
  match m s.(pg) with
  | Ok (a, g) => Ok (a, mk_xst g s.(page_fault_cnt))
  | Panic => Panic | Wild => Wild | NoFuel => NoFuel
  end.

Definition PF_P : Z := 1.
Definition PF_W : Z := 2.
Definition PF_U : Z := 4.

(** The members of the interrupt frame that the handlers use. *)
Record intr_frame := mk_frame { eip : Z; eax : Z; cs : Z; error_code : Z }.

(** A handler returns to the interrupted code or ends the thread. *)
Inductive resumption := Resume (f : intr_frame) | Exited.

Definition kill (f : intr_frame) : X resumption :=
  if f.(cs) =? SEL_UCSEG then mret Exited
  else if f.(cs) =? SEL_KCSEG then lift Panic
  else mret Exited.

Section exception.
Context (init_page_dir init_ram_pages : Z).

(** page_fault() in a process with page directory [pagedir], for the fault
    address in CR2. *)
Definition page_fault (pagedir fault_addr : Z) (f : intr_frame) : X resumption :=
  modify (λ s, mk_xst s.(pg) (i64 (s.(page_fault_cnt) + 1)));;
  let not_present := Z.land f.(error_code) PF_P =? 0 in
  let user := negb (Z.land f.(error_code) PF_U =? 0) in
  if negb user && (f.(eip) =? f.(eax)) then
    mret (Resume (mk_frame f.(eip) 4294967295 f.(cs) f.(error_code)))
  else if negb (is_user_vaddr fault_addr) then kill f
  else if negb not_present then kill f
  else
    kpage ← use_pg (pagedir_get_page pagedir (pg_round_down fault_addr));
    if kpage =? 0 then
      kpage ← use_pg (use_palloc (palloc_get_page (PAL_USER + PAL_ZERO)));
      if kpage =? 0 then kill f
      else
        ok ← use_pg (pagedir_set_page init_page_dir init_ram_pages
                       pagedir (pg_round_down fault_addr) kpage true);
        if negb ok then
          use_pg (use_palloc (palloc_free_page kpage));; kill f
        else mret (Resume f)
    else
      use_pg (pagedir_set_accessed init_page_dir pagedir (pg_round_down fault_addr) true);;
      mret (Resume f).

(** The kernel's view of a physical address. *)
Definition phys (p : Z) : Z := u32 (p + PHYS_BASE).

(** Translation of an access in kernel mode by the processor, to an address in
    the kernel's view, or the error code of a page fault. *)
Definition mmu (write : bool) (va : Z) : X (Z + Z) :=
  let w := if write then PF_W else 0 in
  c ← gets (λ s, s.(pg).(cr3));
  pde ← use_pg (load32 (phys c + 4 * pd_no va));
  if Z.land pde PTE_P =? 0 then mret (inr w)
  else
    pte ← use_pg (load32 (phys (Z.land pde PTE_ADDR) + 4 * pt_no va));
    if Z.land pte PTE_P =? 0 then mret (inr w)
    else if write && (Z.land (Z.land pde pte) PTE_W =? 0) then mret (inr (PF_P + w))
    else mret (inl (phys (Z.land pte PTE_ADDR) + pg_ofs va)).

(** The byte at an address in the words of its page. *)
Definition byte_of (w : Z) (ofs : Z) : Z := w / 2 ^ (8 * ofs) mod 256.
Definition set_byte (w : Z) (ofs b : Z) : Z := w + (b - byte_of w ofs) * 2 ^ (8 * ofs).

Definition load_byte (a : Z) : X Z :=
  w ← use_pg (load32 (a - a mod 4)); mret (byte_of w (a mod 4)).
Definition store_byte (a b : Z) : X unit :=
  w ← use_pg (load32 (a - a mod 4)); use_pg (store32 (a - a mod 4) (set_byte w (a mod 4) b)).

(** The address of the instruction that touches user memory, and of the label
    after it. *)
Context (insn : Z).
Definition after_insn : Z := insn + 3.

(** The instruction at [insn], tried until it does not fault: the address it
    ends up using and the value left in %eax, or [None] when the thread ends. *)
Definition access (write : bool) (pagedir va : Z) : X (option (Z * Z)) :=
  loop_st 3 (λ ax,
    r ← mmu write va;
    match r with
    | inl a => mret (inr (Some (a, ax)))
    | inr err =>
        res ← page_fault pagedir va (mk_frame insn ax SEL_KCSEG err);
        match res with
        | Resume f => mret (inl f.(eax))
        | Exited => mret (inr None)
        end
    end) after_insn.

(** get_user(): the byte replaces what was in %eax. *)
Definition get_user (pagedir uaddr : Z) : X (option Z) :=
  r ← access false pagedir uaddr;
  match r with
  | Some (a, _) => b ← load_byte a; mret (Some b)
  | None => mret None
  end.

(** put_user(): %eax still holds the address of the label unless the handler
    replaced it. *)
Definition put_user (pagedir udst byte : Z) : X (option bool) :=
  r ← access true pagedir udst;
  match r with
  | Some (a, ax) => store_byte a (u8 byte);; mret (Some (negb (u32 ax =? 4294967295)))
  | None => mret None
  end.
End exception.

(** ** Address spaces

    The page directory of a process with its pages: every page is a page of its
    own, in use, and not one of the page tables. *)
Record as_wf (s : pst) (pd : Z) (w : list Z) : Prop := {
  as_pools : pools_wf s;
  as_pd : pd_wf s pd w;
  as_pde : ∀ k pde, 0 <= k < 768 → w !! Z.to_nat k = Some pde → pde ≠ 0 → Z.land pde PTE_W ≠ 0;
  as_frame : ∀ va p, user_va va → frame_of s.(pmem) pd va = Some p →
    kernel_page p ∧ used s p = true ∧ (∃ u, table s.(pmem) p u) ∧ p ≠ pd ∧
    ∀ k, 0 <= k < 768 → pd_tab w k ≠ Some p;
  as_inj : ∀ va va' p, user_va va → user_va va' →
    frame_of s.(pmem) pd va = Some p → frame_of s.(pmem) pd va' = Some p → va / 4096 = va' / 4096 }.

(** The specification of user memory: the byte at a user address whose page is
    mapped, and whether it may be written. *)
Definition ubyte (m : gmap Z (list Z)) (pd va : Z) : option Z :=
  p ← frame_of m pd va; u ← m !! p; w ← u !! Z.to_nat (va mod 4096 / 4); Some (byte_of w (va mod 4)).

Definition uwritable (m : gmap Z (list Z)) (pd va : Z) : bool :=
  match pte_at m pd va with Some v => negb (Z.land v PTE_W =? 0) | None => false end.

Lemma run_use_pg {A B} (m : G A) (k : A → X B) s a g :
  m s.(pg) = Ok (a, g) → (use_pg m ≫= k) s = k a (mk_xst g s.(page_fault_cnt)).
Proof. intros E. apply run_bind. unfold use_pg. by rewrite E. Qed.

Lemma run_use_pg_same {A B} (m : G A) (k : A → X B) s a :
  m s.(pg) = Ok (a, s.(pg)) → (use_pg m ≫= k) s = k a s.
Proof. intros E. rewrite (run_use_pg _ _ _ _ _ E). by destruct s. Qed.

Lemma pde_get_pt_phys pde pt :
  pde_get_pt pde = Ok pt → Z.land pde PTE_P ≠ 0 ∧ phys (Z.land pde PTE_ADDR) = pt.
Proof.
  unfold pde_get_pt, ptov, phys. intros H. apply bind_Ok in H as (? & H1 & H2).
  apply ASSERT_Ok, negb_true_iff, Z.eqb_neq in H1. apply bind_Ok in H2 as (? & _ & H2).
  by injection H2 as <-.
Qed.

Lemma pte_get_page_phys v p : pte_get_page v = Ok p → phys (Z.land v PTE_ADDR) = p.
Proof.
  unfold pte_get_page, ptov, phys. intros H. apply bind_Ok in H as (? & _ & H2). by injection H2 as <-.
Qed.

Lemma pte_at_frame s pd w va v :
  pd_wf s pd w → user_va va → pte_at s.(pmem) pd va = Some v →
  Z.land v PTE_P ≠ 0 ∧ ∃ p, frame_of s.(pmem) pd va = Some p ∧ phys (Z.land v PTE_ADDR) = p.
Proof.
  intros Hw Hva Hv. pose proof (user_pd_no _ Hva) as Hk.
  destruct (pd_tab_cases _ _ _ _ Hw Hk) as [[_ E]|(pde & pt & u & _ & _ & _ & E & _ & _ & _ & [Hu _] & F)].
  { by rewrite (no_table_no_pte _ _ _ _ Hw E) in Hv. }
  unfold frame_of. rewrite Hv. unfold pte_at in Hv. rewrite (proj1 (pd_table _ _ _ Hw)) in Hv. cbn in Hv.
  rewrite E in Hv. cbn in Hv. rewrite Hu in Hv. cbn in Hv.
  destruct (u !! _) as [v'|] eqn:Ev; [cbn in Hv|done]. unfold entry_pte in Hv.
  destruct (Z.eqb_spec (Z.land v' PTE_P) 0) as [|Hp]; [done|]. injection Hv as ->.
  split; [done|]. destruct (entry_frame_ok v) as (p & Ep & Ef); [by eapply Forall_lookup_1|done|].
  exists p. cbn. split; [done|]. by apply pte_get_page_phys.
Qed.

(** The processor finds what the page directory says. *)
Lemma mmu_ok (write : bool) va s pd w :
  as_wf s.(pg).(palloc) pd w → phys s.(pg).(cr3) = pd → user_va va →
  let wb := if write then PF_W else 0 in
  mmu write va s =
    Ok (match frame_of s.(pg).(palloc).(pmem) pd va with
        | Some p =>
            if write && negb (uwritable s.(pg).(palloc).(pmem) pd va) then inr (PF_P + wb)
            else inl (p + va mod 4096)
        | None => inr wb
        end, s).
Proof.
  intros Has Hcr Hva wb. pose proof (as_pd _ _ _ Has) as Hw. pose proof (user_pd_no _ Hva) as Hk.
  pose proof (pd_page _ _ _ Hw) as [Hr Ha]. pose proof (pd_table _ _ _ Hw) as [Hm Hl].
  unfold user_va, PHYS_BASE in Hva. unfold mmu. cbv zeta. rewrite run_gets, Hcr, pd_no_div, pt_no_div by lia.
  destruct (pd_tab_cases _ _ _ _ Hw Hk) as
    [[Epde E]|(pde & pt & u & Epde & Hnz & Eg & E & [Hpr Hpa] & _ & _ & [Hu Hlu] & F)].
  - rewrite (run_use_pg_same _ _ _ 0) by (eapply load32_ok; (done || lia)).
    unfold frame_of. by rewrite (no_table_no_pte _ _ _ _ Hw E).
  - rewrite (run_use_pg_same _ _ _ pde) by (eapply load32_ok; (done || lia)).
    destruct (pde_get_pt_phys _ _ Eg) as [Hp Hph]. rewrite (proj2 (Z.eqb_neq _ _) Hp), Hph.
    destruct (load_pte_ok s.(pg) pd w va pt u Hw Hva E Hu) as (v & El & Hv & _ & Hat).
    rewrite (run_use_pg_same _ _ _ v El). unfold uwritable, frame_of. rewrite Hat. unfold entry_pte.
    destruct (Z.eqb_spec (Z.land v PTE_P) 0) as [Ez|Ez]; [done|]. cbn [mbind option_bind].
    destruct (entry_frame_ok v Hv Ez) as (p & Ep & ->). rewrite (pte_get_page_phys _ _ Ep), pg_ofs_mod.
    assert (Hwb : (Z.land (Z.land pde v) PTE_W =? 0) = (Z.land v PTE_W =? 0)).
    { pose proof (as_pde _ _ _ Has _ _ Hk Epde Hnz) as Hpw.
      apply Z.eqb_neq in Hpw. rewrite land_W_bit in Hpw. apply negb_false_iff in Hpw.
      rewrite !land_W_bit, Z.land_spec, Hpw. done. }
    rewrite Hwb, negb_involutive. by destruct (write && (Z.land v PTE_W =? 0)).
Qed.

(** *** Bytes of a page *)

Lemma byte_of_range w i : is_u8 (byte_of w i).
Proof. by apply Z.mod_pos_bound. Qed.

Lemma byte_of_set w i j b :
  0 <= i < 4 → 0 <= j < 4 → is_u8 b →
  byte_of (set_byte w i b) j = if j =? i then b else byte_of w j.
Proof.
  intros Hi Hj Hb. unfold set_byte, byte_of.
  assert (Ci : i = 0 ∨ i = 1 ∨ i = 2 ∨ i = 3) by lia. assert (Cj : j = 0 ∨ j = 1 ∨ j = 2 ∨ j = 3) by lia.
  destruct Ci as [-> | [-> | [-> | ->]]], Cj as [-> | [-> | [-> | ->]]];
    match goal with |- context [?a =? ?b] => change (a =? b) with ltac:(let c := eval cbv in (a =? b) in exact c) end;
    cbv iota; change (2 ^ (8 * 0)) with 1; change (2 ^ (8 * 1)) with 256; change (2 ^ (8 * 2)) with 65536;
    change (2 ^ (8 * 3)) with 16777216; zdm.
Qed.

(** Changing a page that is not part of the page directory. *)
Lemma pte_at_other s pd w p u va :
  pd_wf s pd w → p ≠ pd → (∀ k, 0 <= k < 768 → pd_tab w k ≠ Some p) → user_va va →
  pte_at (<[p := u]> s.(pmem)) pd va = pte_at s.(pmem) pd va.
Proof.
  intros Hw Hp Hn Hva. unfold pte_at. rewrite lookup_insert_ne by done.
  destruct (pd_table _ _ _ Hw) as [-> _]. cbn.
  destruct (pd_tab w (va / 4194304)) as [q|] eqn:E; [|done]. cbn.
  rewrite lookup_insert_ne; [done|]. intros ->. by apply (Hn _ (user_pd_no _ Hva)).
Qed.

Lemma as_wf_page s pd w p u :
  as_wf s pd w → p ≠ pd → (∀ k, 0 <= k < 768 → pd_tab w k ≠ Some p) → length u = 1024%nat →
  as_wf (with_pmem (<[p := u]> s.(pmem)) s) pd w.
Proof.
  intros [A1 A2 A3 A4 A5] Hp Hn Hl.
  assert (Hfr : ∀ va, user_va va → frame_of (<[p := u]> s.(pmem)) pd va = frame_of s.(pmem) pd va)
    by (intros va Hva; apply frame_of_pte; by apply (pte_at_other s pd w)).
  split; [by destruct s| |done| |].
  - destruct A2 as [P1 [T1 T2] P3 P4 P5]. split; [done| |done| |done].
    + split; [|done]. cbn. by rewrite lookup_insert_ne.
    + intros k pde Hk Hpde Hnz. destruct (P4 k pde Hk Hpde Hnz) as (pt & v & E & Q1 & Q2 & Q3 & [Q4 Q5] & Q6).
      exists pt, v. do 4 (split; [done|]). split; [split; [|done]|done]. cbn.
      rewrite lookup_insert_ne; [done|]. intros ->. apply (Hn k Hk). unfold pd_tab.
      by rewrite Hpde, (proj2 (Z.eqb_neq _ _) Hnz), E.
  - cbn. intros va q Hva. rewrite Hfr by done. intros E.
    destruct (A4 va q Hva E) as (B1 & B2 & (v & B3) & B4). do 2 (split; [done|]). split; [|done].
    destruct (decide (p = q)) as [->|Hne].
    + exists u. split; [apply lookup_insert_eq|done].
    + exists v. destruct B3. split; [|done]. cbn. by rewrite lookup_insert_ne.
  - cbn. intros va va' q Hva Hva'. rewrite !Hfr by done. by apply A5.
Qed.

Section bytes.
Context (s : xst) (pd : Z) (w : list Z) (va p : Z).
Context (Has : as_wf s.(pg).(palloc) pd w) (Hva : user_va va)
  (Hf : frame_of s.(pg).(palloc).(pmem) pd va = Some p).

Lemma user_word : ∃ u x, s.(pg).(palloc).(pmem) !! p = Some u ∧ length u = 1024%nat ∧
  u !! Z.to_nat (va mod 4096 / 4) = Some x ∧
  ubyte s.(pg).(palloc).(pmem) pd va = Some (byte_of x (va mod 4)) ∧
  load32 (p + va mod 4096 - (p + va mod 4096) mod 4) s.(pg) = Ok (x, s.(pg)) ∧
  p + va mod 4096 - (p + va mod 4096) mod 4 = p + 4 * (va mod 4096 / 4) ∧
  (p + va mod 4096) mod 4 = va mod 4 ∧ p mod 4096 = 0.
Proof.
  destruct (as_frame _ _ _ Has va p Hva Hf) as ([_ Ha] & _ & (u & Hu & Hl) & _).
  destruct (lookup_lt_is_Some_2 u (Z.to_nat (va mod 4096 / 4))) as [x Hx]; [zdm|].
  assert (E : p + va mod 4096 - (p + va mod 4096) mod 4 = p + 4 * (va mod 4096 / 4)) by zdm.
  exists u, x. do 3 (split; [done|]). split.
  { unfold ubyte. rewrite Hf. cbn. rewrite Hu. cbn. by rewrite Hx. }
  rewrite E. split; [apply (load32_ok p _ u); (done || zdm)|]. split; [done|]. split; [zdm|done].
Qed.

Lemma load_byte_ok : ∃ b, ubyte s.(pg).(palloc).(pmem) pd va = Some b ∧ load_byte (p + va mod 4096) s = Ok (b, s).
Proof.
  destruct user_word as (u & x & _ & _ & _ & Hb & El & _ & Hm & _). exists (byte_of x (va mod 4)).
  split; [done|]. unfold load_byte. rewrite (run_use_pg_same _ _ _ _ El). by rewrite Hm.
Qed.

Lemma store_byte_ok b :
  is_u8 b →
  ∃ s', store_byte (p + va mod 4096) b s = Ok (tt, s') ∧ as_wf s'.(pg).(palloc) pd w ∧
    s'.(pg).(cr3) = s.(pg).(cr3) ∧
    (∀ x, user_va x → uwritable s'.(pg).(palloc).(pmem) pd x = uwritable s.(pg).(palloc).(pmem) pd x) ∧
    (∀ x, user_va x → ubyte s'.(pg).(palloc).(pmem) pd x =
       if x =? va then Some b else ubyte s.(pg).(palloc).(pmem) pd x) ∧
    s'.(pg).(palloc).(user_pool) = s.(pg).(palloc).(user_pool).
Proof.
  intros Hb. destruct user_word as (u & x & Hu & Hl & Hx & _ & El & Ea & Hm & Hp).
  destruct (as_frame _ _ _ Has va p Hva Hf) as (_ & _ & _ & Hne & Hnt).
  unfold store_byte. rewrite (run_use_pg_same _ _ _ _ El), Ea, Hm.
  set (u' := <[Z.to_nat (va mod 4096 / 4) := set_byte x (va mod 4) b]> u).
  set (g' := mk_pgst (with_pmem (<[p := u']> s.(pg).(palloc).(pmem)) s.(pg).(palloc)) s.(pg).(cr3) s.(pg).(flushes)).
  assert (Es : store32 (p + 4 * (va mod 4096 / 4)) (set_byte x (va mod 4) b) s.(pg) = Ok (tt, g'))
    by (apply (store32_ok p _ u); (done || zdm)).
  exists (mk_xst g' s.(page_fault_cnt)). unfold use_pg. rewrite Es. split; [done|].
  cbn [pg palloc g']. split; [apply as_wf_page; try done; unfold u'; by rewrite length_insert|].
  split; [done|]. cbn [with_pmem pmem].
  assert (Hat : ∀ y, user_va y → pte_at (<[p := u']> s.(pg).(palloc).(pmem)) pd y = pte_at s.(pg).(palloc).(pmem) pd y)
    by (intros y Hy; apply (pte_at_other s.(pg).(palloc) pd w); try done; apply (as_pd _ _ _ Has)).
  split; [intros y Hy; unfold uwritable; by rewrite Hat|]. split; [|done]. intros y Hy. unfold ubyte.
  rewrite (frame_of_pte _ _ _ _ _ _ (Hat y Hy)).
  destruct (frame_of s.(pg).(palloc).(pmem) pd y) as [q|] eqn:Eq; cbn.
  - destruct (decide (q = p)) as [->|Hqp].
    + pose proof (as_inj _ _ _ Has y va p Hy Hva Eq Hf) as Hpg. rewrite lookup_insert_eq, Hu. cbn.
      unfold u'. destruct (decide (va mod 4096 / 4 = y mod 4096 / 4)) as [Ew|Ew].
      * rewrite Ew, list_lookup_insert_eq by zdm. cbn. rewrite <-Ew, Hx. cbn.
        rewrite byte_of_set by (done || zdm). destruct (Z.eqb_spec y va) as [->|Hn].
        -- by rewrite Z.eqb_refl.
        -- rewrite (proj2 (Z.eqb_neq _ _)) by zdm. done.
      * rewrite list_lookup_insert_ne by zdm. destruct (Z.eqb_spec y va) as [->|Hn]; [done|]. done.
    + rewrite lookup_insert_ne by done. destruct (Z.eqb_spec y va) as [->|Hn]; [congruence|done].
  - destruct (Z.eqb_spec y va) as [->|Hn]; [congruence|done].
Qed.
End bytes.

(** *** Bringing in a page *)

Definition user_pool_full (s : pst) : Prop :=
  ∀ i, 0 <= i < bit_cnt s.(user_pool).(used_map) → bit s.(user_pool).(used_map) i = true.

(** The pages of the user pool are pages of the machine's memory. *)
Definition ram_covers (s : pst) (ram : Z) : Prop :=
  page_at s.(user_pool) (bit_cnt s.(user_pool).(used_map)) <= PHYS_BASE + 4096 * ram.

(** What happens to a free page changes no address space. *)
Lemma as_wf_alloc s s1 pd w kp u :
  as_wf s pd w → pools_wf s1 → used s kp = false → length u = 1024%nat →
  (∀ p, kernel_page p → used s p = true → used s1 p = true) →
  s1.(pmem) = <[kp := u]> s.(pmem) →
  as_wf s1 pd w ∧ (∀ va, user_va va → pte_at s1.(pmem) pd va = pte_at s.(pmem) pd va).
Proof.
  intros Has Hp1 Hfree Hl Hmono Hmem. pose proof (as_pd _ _ _ Has) as Hw.
  assert (Hne : kp ≠ pd) by (intros ->; rewrite (pd_used _ _ _ Hw) in Hfree; done).
  assert (Hnt : ∀ k, 0 <= k < 768 → pd_tab w k ≠ Some kp).
  { intros k Hk E. destruct (pd_tab_cases _ _ _ _ Hw Hk) as [[_ E']|(? & q & ? & _ & _ & _ & E' & _ & _ & Hu & _)];
      [congruence|]. rewrite E in E'. injection E' as <-. congruence. }
  destruct (as_wf_page s pd w kp u Has Hne Hnt Hl) as [_ A2 A3 A4 A5]. cbn [with_pmem pmem] in *.
  rewrite <-Hmem in *. split.
  - split; [done| |done| |done].
    + destruct A2 as [P1 P2 P3 P4 P5]. cbn [with_pmem pmem] in *.
      split; [done|done|by apply Hmono| |done].
      intros k pde Hk Hpde Hnz. destruct (P4 k pde Hk Hpde Hnz) as (pt & v & E & Q1 & Q2 & Q3 & Q4).
      exists pt, v. do 3 (split; [done|]). split; [by apply Hmono|done].
    + intros va p Hva E. destruct (A4 va p Hva E) as (B1 & B2 & B3 & B4).
      split; [done|]. split; [by apply Hmono|]. done.
  - intros va Hva. rewrite Hmem. by apply (pte_at_other s pd w).
Qed.

Lemma ubyte_frame m m' pd va p :
  frame_of m pd va = Some p → frame_of m' pd va = Some p → m' !! p = m !! p →
  ubyte m' pd va = ubyte m pd va.
Proof. intros E E' Hm. unfold ubyte. rewrite E, E'. cbn. by rewrite Hm. Qed.

(** A byte of a page of words. *)
Definition page_byte (u : list Z) (k : Z) : option Z :=
  w ← u !! Z.to_nat (k / 4); Some (byte_of w (k mod 4)).

Lemma ubyte_page m pd va p u :
  frame_of m pd va = Some p → m !! p = Some u → ubyte m pd va = page_byte u (va mod 4096).
Proof.
  intros E Hu. unfold ubyte, page_byte. rewrite E. cbn. rewrite Hu. cbn.
  by replace (va mod 4096 mod 4) with (va mod 4) by zdm.
Qed.

Lemma page_byte_zero k : 0 <= k < 4096 → page_byte (replicate 1024 0) k = Some 0.
Proof. intros. unfold page_byte. by rewrite lookup_replicate_2 by zdm. Qed.

(** Mapping a page that was free, with contents [u]. *)
Lemma as_wf_map s pd w s1 kp g w2 v va u writable :
  as_wf s pd w → as_wf s1 pd w → user_va va → frame_of s.(pmem) pd va = None →
  used s kp = false → used s1 kp = true → kernel_page kp → length u = 1024%nat →
  s1.(pmem) = <[kp := u]> s.(pmem) →
  (∀ x, user_va x → pte_at s1.(pmem) pd x = pte_at s.(pmem) pd x) →
  pools_wf g → pd_wf g pd w2 → entry_frame v = Some kp → (Z.land v PTE_W =? 0) = negb writable →
  (∀ x, user_va x → pte_at g.(pmem) pd x = if x / 4096 =? va / 4096 then Some v else pte_at s1.(pmem) pd x) →
  pd_extends pd s1 w g w2 →
  as_wf g pd w2 ∧
  (∀ x, user_va x → ubyte g.(pmem) pd x =
     if x / 4096 =? va / 4096 then page_byte u (x mod 4096) else ubyte s.(pmem) pd x) ∧
  (∀ x, user_va x → uwritable g.(pmem) pd x =
     if x / 4096 =? va / 4096 then writable else uwritable s.(pmem) pd x).
Proof.
  intros Has Has1 Hva Hn Hfree Hu1 Hkp Hlu Hmem Hat1 Hpg Hwg Ev Hvw Hat [_ U2 M2 T2 D2].
  pose proof (as_pd _ _ _ Has) as Hw.
  assert (Hkpd : kp ≠ pd) by (intros ->; rewrite (pd_used _ _ _ Hw) in Hfree; done).
  assert (Hknt : ∀ k, 0 <= k < 768 → pd_tab w k ≠ Some kp).
  { intros k Hk E. destruct (pd_tab_cases _ _ _ _ Hw Hk) as [[_ E']|(? & q & ? & _ & _ & _ & E' & _ & _ & Hu & _)];
      [congruence|]. rewrite E in E'. injection E' as <-. congruence. }
  assert (Hfr : ∀ x, user_va x → frame_of g.(pmem) pd x =
    if x / 4096 =? va / 4096 then Some kp else frame_of s.(pmem) pd x).
  { intros x Hx. unfold frame_of. rewrite Hat, Hat1 by done. by destruct (x / 4096 =? va / 4096). }
  assert (Hpage : ∀ p, kernel_page p → used s1 p = true → p ≠ pd → (∀ k, 0 <= k < 768 → pd_tab w k ≠ Some p) →
    used g p = true ∧ g.(pmem) !! p = s1.(pmem) !! p ∧ ∀ k, 0 <= k < 768 → pd_tab w2 k ≠ Some p).
  { intros p K1 K2 K3 K4. split; [auto|]. split; [auto|]. intros k Hk E.
    destruct (T2 k p Hk E) as [E'|E']; [by apply (K4 k)|congruence]. }
  assert (Hkz : g.(pmem) !! kp = Some u).
  { destruct (Hpage kp Hkp Hu1 Hkpd Hknt) as (_ & -> & _). rewrite Hmem. apply lookup_insert_eq. }
  assert (Hold : ∀ x p, user_va x → frame_of s.(pmem) pd x = Some p → p ≠ kp ∧ g.(pmem) !! p = s.(pmem) !! p).
  { intros x p Hx E. destruct (as_frame _ _ _ Has x p Hx E) as (B1 & B2 & _ & B4 & B5).
    assert (Hpk : p ≠ kp) by congruence.
    assert (E1 : frame_of s1.(pmem) pd x = Some p) by (rewrite <-E; apply frame_of_pte; auto).
    destruct (as_frame _ _ _ Has1 x p Hx E1) as (_ & B2' & _).
    destruct (Hpage p B1 B2' B4 B5) as (_ & -> & _). split; [done|].
    by rewrite Hmem, lookup_insert_ne by congruence. }
  split; [|split].
  - split; [done|done|apply D2, (as_pde _ _ _ Has1)| |].
    + intros x p Hx. rewrite Hfr by done. destruct (x / 4096 =? va / 4096).
      * intros [= <-]. destruct (Hpage kp Hkp Hu1 Hkpd Hknt) as (G1 & _ & G3).
        split; [done|]. split; [done|]. split; [by eexists|done].
      * intros E. destruct (as_frame _ _ _ Has x p Hx E) as (B1 & B2 & (u' & B3 & B3') & B4 & B5).
        assert (E1 : frame_of s1.(pmem) pd x = Some p) by (rewrite <-E; apply frame_of_pte; auto).
        destruct (as_frame _ _ _ Has1 x p Hx E1) as (_ & B2' & _).
        destruct (Hpage p B1 B2' B4 B5) as (G1 & _ & G3). split; [done|]. split; [done|].
        split; [|done]. exists u'. split; [|done]. by rewrite (proj2 (Hold x p Hx E)).
    + intros x y p Hx Hy. rewrite !Hfr by done.
      destruct (Z.eqb_spec (x / 4096) (va / 4096)), (Z.eqb_spec (y / 4096) (va / 4096)).
      * congruence.
      * intros [= <-] E. by destruct (Hold y kp Hy E).
      * intros E [= <-]. by destruct (Hold x kp Hx E).
      * by apply (as_inj _ _ _ Has).
  - intros x Hx. specialize (Hfr x Hx). destruct (x / 4096 =? va / 4096).
    + by apply (ubyte_page _ _ _ kp).
    + destruct (frame_of s.(pmem) pd x) as [p|] eqn:E.
      * apply (ubyte_frame _ _ _ _ p); [done|done|]. by apply (Hold x).
      * unfold ubyte. by rewrite Hfr, E.
  - intros x Hx. unfold uwritable. rewrite Hat, Hat1 by done. destruct (x / 4096 =? va / 4096); [|done].
    rewrite Hvw. by destruct writable.
Qed.

(** Mapping the page at [kp], which has just been taken from the user pool of
    [s] and holds [u]: there is not enough memory for a page table, or the
    address space is [s]'s with the page added. *)
Lemma map_page_ok init_pd ram (s : pst) p1 c f pd w va kp u writable :
  as_wf s pd w → pd ≠ init_pd → ram_covers s ram → user_va va → va mod 4096 = 0 →
  frame_of s.(pmem) pd va = None →
  pools_wf p1 → kernel_page kp → used s kp = false →
  (∀ p, is_u32 p → used p1 p = if among kp 1 p then true else used s p) →
  page_from_pool s.(user_pool) kp = true → same_size s.(user_pool) p1.(user_pool) →
  p1.(pmem) = <[kp := u]> s.(pmem) → length u = 1024%nat →
  (∃ g w2, pagedir_set_page init_pd ram pd va kp writable (mk_pgst p1 c f) = Ok (true, g) ∧
     as_wf g.(palloc) pd w2 ∧ g.(cr3) = c ∧ ram_covers g.(palloc) ram ∧
     (∀ x, user_va x → ubyte g.(palloc).(pmem) pd x =
        if x / 4096 =? va / 4096 then page_byte u (x mod 4096) else ubyte s.(pmem) pd x) ∧
     (∀ x, user_va x → uwritable g.(palloc).(pmem) pd x =
        if x / 4096 =? va / 4096 then writable else uwritable s.(pmem) pd x)) ∨
  (kernel_pool_full p1 ∧
   pagedir_set_page init_pd ram pd va kp writable (mk_pgst p1 c f) = Ok (false, mk_pgst p1 c f)).
Proof.
  intros Has Hpd Hram Hva Ha Hn Hp1 Hkp Hfree Hused Hfrom Hsz Hmem Hl.
  pose proof Hkp as [Hkr Hka]. unfold PHYS_BASE in Hkr.
  assert (Hmono : ∀ p, kernel_page p → used s p = true → used p1 p = true).
  { intros p Hp Hu. rewrite Hused by by apply kernel_page_u32. by destruct (among kp 1 p). }
  destruct (as_wf_alloc _ p1 pd w kp u Has Hp1 Hfree Hl Hmono Hmem) as [Has1 Hat1].
  assert (Hu1 : used p1 kp = true).
  { rewrite Hused by lia. unfold among. by rewrite (proj2 (Z.leb_le _ _)), (proj2 (Z.ltb_lt _ _)) by lia. }
  assert (Hrk : (kp - PHYS_BASE) / 4096 < ram).
  { rewrite from_pool_range in Hfrom by (lia || apply (as_pools _ _ _ Has)).
    apply andb_true_iff in Hfrom as [_ Hlt]. apply Z.ltb_lt in Hlt. unfold ram_covers, PHYS_BASE in *. zdm. }
  destruct (pagedir_set_page_ok init_pd ram (mk_pgst p1 c f) pd w va kp writable Hp1 (as_pd _ _ _ Has1) Hpd Hva
    Ha Hkp Hrk) as [_ Hset].
  destruct Hset as [(g2 & w2 & v & E2 & Hp2 & Hw2 & Hc2 & _ & Ev & Hvw & Hat & Hext)|[Hfull E2]].
  { cbn [palloc]. rewrite <-Hn. apply frame_of_pte. by apply Hat1. }
  - left. destruct (as_wf_map _ pd w p1 kp g2.(palloc) w2 v va u writable Has Has1 Hva Hn Hfree Hu1 Hkp Hl Hmem Hat1
      Hp2 Hw2 Ev Hvw Hat Hext) as (A & B & C).
    exists g2, w2. do 3 (split; [done|]). split; [|done]. unfold ram_covers in *.
    rewrite (pe_user _ _ _ _ _ Hext). destruct Hsz as [Z1 Z2]. unfold page_at in *. cbn [palloc]. by rewrite Z1, Z2.
  - by right.
Qed.

Section fault.
Context (init_pd ram insn : Z) (s : xst) (pd : Z) (w : list Z) (va : Z).
Context (Has : as_wf s.(pg).(palloc) pd w) (Hcr : phys s.(pg).(cr3) = pd) (Hpd : pd ≠ init_pd)
  (Hram : ram_covers s.(pg).(palloc) ram) (Hva : user_va va).

Let m := s.(pg).(palloc).(pmem).

(** What bringing in the page of [va] leaves. *)
Record brought_in (s' : xst) (w' : list Z) : Prop := {
  bi_wf : as_wf s'.(pg).(palloc) pd w';
  bi_cr : s'.(pg).(cr3) = s.(pg).(cr3);
  bi_ram : ram_covers s'.(pg).(palloc) ram;
  bi_bytes : ∀ x, user_va x → ubyte s'.(pg).(palloc).(pmem) pd x =
    if x / 4096 =? va / 4096 then Some 0 else ubyte m pd x;
  bi_writable : ∀ x, user_va x → uwritable s'.(pg).(palloc).(pmem) pd x =
    if x / 4096 =? va / 4096 then true else uwritable m pd x }.

(** A fault of the kernel on a user page that is not present: the page is
    brought in, or memory is exhausted and the kernel stops. *)
Lemma page_fault_ok f :
  frame_of m pd va = None → f.(cs) = SEL_KCSEG → Z.land f.(error_code) PF_P = 0 →
  Z.land f.(error_code) PF_U = 0 → f.(eip) ≠ f.(eax) →
  (∃ s' w', page_fault init_pd ram pd va f s = Ok (Resume f, s') ∧ brought_in s' w') ∨
  (user_pool_full s.(pg).(palloc) ∨ kernel_pool_full s.(pg).(palloc)) ∧
  page_fault init_pd ram pd va f s = Panic.
Proof.
  intros Hn Hcs HP HU Hne. set (s0 := mk_xst s.(pg) (i64 (s.(page_fault_cnt) + 1))).
  pose proof (as_pd _ _ _ Has) as Hw. pose proof Hva as Hva'. unfold user_va, PHYS_BASE in Hva'.
  assert (Hup : user_va (va - va mod 4096)) by (unfold user_va, PHYS_BASE; zdm).
  assert (Hsame : ∀ g, frame_of g pd (va - va mod 4096) = frame_of g pd va).
  { intros g. apply frame_of_same_page. zdm. }
  assert (Hkill : ∀ s, kill f s = Panic) by (intros s1; unfold kill; by rewrite Hcs).
  assert (Eg : pagedir_get_page pd (va - va mod 4096) s.(pg) = Ok (0, s.(pg))).
  { rewrite (pagedir_get_page_ok _ _ _ _ Hw Hup), Hsame. fold m. by rewrite Hn. }
  unfold page_fault. rewrite run_modify. fold s0. cbv zeta. rewrite HU, HP. cbn [negb Z.eqb andb].
  rewrite (proj2 (Z.eqb_neq _ _) Hne). cbn [andb].
  unfold is_user_vaddr. rewrite (proj2 (Z.ltb_lt _ _)) by apply Hva. cbn [negb].
  rewrite pg_round_down_eq by lia. rewrite (run_use_pg_same _ _ s0 0 Eg), Z.eqb_refl.
  destruct (palloc_get_page_ok s.(pg).(palloc) (PAL_USER + PAL_ZERO) (as_pools _ _ _ Has) eq_refl) as
    [(p1 & kp & E & Hp1 & Hkp & Hfree & Hused & Hmem & Hfrom & Hsz)|[Hfull E]].
  2:{ right. split; [by left|].
      rewrite (run_use_pg _ _ s0 0 s.(pg)); [by rewrite Z.eqb_refl, Hkill|].
      unfold use_palloc. cbn [pg s0]. rewrite E. by destruct s.(pg). }
  change (flag (PAL_USER + PAL_ZERO) PAL_ZERO) with true in Hmem. cbv iota in Hmem.
  change (get_pool (flag (PAL_USER + PAL_ZERO) PAL_USER) s.(pg).(palloc)) with s.(pg).(palloc).(user_pool) in Hfrom.
  set (g1 := mk_pgst p1 s.(pg).(cr3) s.(pg).(flushes)). set (s1 := mk_xst g1 s0.(page_fault_cnt)).
  rewrite (run_use_pg _ _ s0 kp g1) by (unfold use_palloc; cbn [pg s0]; by rewrite E). fold s1.
  pose proof Hkp as [Hkr Hka]. unfold PHYS_BASE in Hkr. rewrite (proj2 (Z.eqb_neq kp 0)) by lia.
  destruct (map_page_ok init_pd ram s.(pg).(palloc) p1 s.(pg).(cr3) s.(pg).(flushes) pd w (va - va mod 4096) kp
    (replicate 1024 0) true) as [(g2 & w2 & E2 & A & Hc2 & R & B & C)|[Hfull E2]];
    [done|done|done|done|zdm|by rewrite Hsame|done|done|done|done|done|done|done|apply length_replicate|..].
  - left. exists (mk_xst g2 s0.(page_fault_cnt)), w2. split.
    { by rewrite (run_use_pg _ _ s1 true g2 E2). }
    replace ((va - va mod 4096) / 4096) with (va / 4096) in B, C by zdm.
    split; [exact A|exact Hc2|exact R| |exact C].
    intros x Hx. rewrite B by done. destruct (x / 4096 =? va / 4096); [|done]. apply page_byte_zero. zdm.
  - assert (Hu1 : used p1 kp = true).
    { rewrite Hused by lia. unfold among. by rewrite (proj2 (Z.leb_le _ _)), (proj2 (Z.ltb_lt _ _)) by lia. }
    right. split; [right|].
    + intros i Hi. pose proof (palloc_get_other _ _ _ _ _ E) as Eo. cbn [get_pool negb] in Eo.
      change (negb (flag (PAL_USER + PAL_ZERO) PAL_USER)) with false in Eo. cbn [get_pool] in Eo.
      unfold kernel_pool_full in Hfull. rewrite Eo in Hfull. by apply Hfull.
    + rewrite (run_use_pg _ _ s1 false g1 E2). cbn [negb].
      destruct (palloc_free_page_ok p1 kp Hp1 ltac:(lia) Hka Hu1) as (p3 & E3 & _).
      rewrite (run_use_pg _ _ (mk_xst g1 s1.(page_fault_cnt)) tt (mk_pgst p3 g1.(cr3) g1.(flushes)));
        [apply Hkill|]. unfold use_palloc. cbn [pg g1 palloc]. by rewrite E3.
Qed.

Lemma ubyte_frame_of b : ubyte m pd va = Some b → ∃ p, frame_of m pd va = Some p.
Proof. unfold ubyte. destruct (frame_of m pd va); [eauto|done]. Qed.

Lemma ubyte_no_frame : ubyte m pd va = None → frame_of m pd va = None.
Proof.
  intros Hb. destruct (frame_of m pd va) as [p|] eqn:E; [|done].
  destruct (load_byte_ok s pd w va p Has Hva E) as (b & Hb' & _). fold m in Hb'. congruence.
Qed.

(** The instruction when the page is there. *)
Lemma access_present (write : bool) p :
  frame_of m pd va = Some p → (write = true → uwritable m pd va = true) →
  access init_pd ram insn write pd va s = Ok (Some (p + va mod 4096, after_insn insn), s).
Proof.
  intros Hf Hwr. unfold access. apply loop_st_done.
  rewrite (run_bind _ _ _ _ _ (mmu_ok write va s pd w Has Hcr Hva)). fold m. rewrite Hf.
  by destruct write; [rewrite Hwr|].
Qed.

(** The instruction when the page is not there. *)
Lemma access_absent (write : bool) :
  frame_of m pd va = None →
  (∃ s' w' p, access init_pd ram insn write pd va s = Ok (Some (p + va mod 4096, after_insn insn), s') ∧
     brought_in s' w' ∧ frame_of s'.(pg).(palloc).(pmem) pd va = Some p) ∨
  (user_pool_full s.(pg).(palloc) ∨ kernel_pool_full s.(pg).(palloc)) ∧
  access init_pd ram insn write pd va s = Panic.
Proof.
  intros Hn. set (f := mk_frame insn (after_insn insn) SEL_KCSEG (if write then PF_W else 0)).
  pose proof (mmu_ok write va s pd w Has Hcr Hva) as Em. fold m in Em. rewrite Hn in Em.
  destruct (page_fault_ok f Hn eq_refl) as [(s' & w' & E & B)|[Hfull E]];
    [by destruct write|by destruct write|unfold f, after_insn; cbn; lia|left|right].
  - assert (Hb : ubyte s'.(pg).(palloc).(pmem) pd va = Some 0)
      by (rewrite (bi_bytes _ _ B) by done; by rewrite Z.eqb_refl).
    assert (Hp : ∃ p, frame_of s'.(pg).(palloc).(pmem) pd va = Some p).
    { unfold ubyte in Hb. destruct (frame_of s'.(pg).(palloc).(pmem) pd va); [eauto|done]. }
    destruct Hp as [p Hp]. exists s', w', p. split; [|done]. unfold access.
    rewrite (loop_st_next _ _ _ _ (after_insn insn) s').
    2:{ rewrite (run_bind _ _ _ _ _ Em). by rewrite (run_bind _ _ _ _ _ E). }
    apply loop_st_done. assert (Hcr' : phys s'.(pg).(cr3) = pd) by (rewrite (bi_cr _ _ B); done).
    rewrite (run_bind _ _ _ _ _ (mmu_ok write va s' pd w' (bi_wf _ _ B) Hcr' Hva)). rewrite Hp.
    rewrite (bi_writable _ _ B) by done. rewrite Z.eqb_refl. by rewrite andb_false_r.
  - split; [done|]. unfold access, loop_st. cbn [loop].
    assert (Eb : ((r ← mmu write va;
      match r with
      | inl a => mret (inr (Some (a, after_insn insn)))
      | inr err => res ← page_fault init_pd ram pd va (mk_frame insn (after_insn insn) SEL_KCSEG err);
          match res with Resume f => mret (inl f.(eax)) | Exited => mret (inr None) end
      end) : X (Z + option (Z * Z))) s = Panic).
    { rewrite (run_bind _ _ _ _ _ Em). unfold mbind, st_bind. fold f. by rewrite E. }
    by rewrite Eb.
Qed.

(** *** get_user() and put_user() *)

Lemma get_user_mapped b :
  ubyte m pd va = Some b → get_user init_pd ram insn pd va s = Ok (Some b, s).
Proof.
  intros Hb. destruct (ubyte_frame_of b Hb) as [p Hf]. unfold get_user.
  rewrite (run_bind _ _ _ _ _ (access_present false p Hf ltac:(done))).
  destruct (load_byte_ok s pd w va p Has Hva Hf) as (b' & Hb' & El). rewrite (run_bind _ _ _ _ _ El).
  fold m in Hb'. by replace b' with b by congruence.
Qed.

Lemma get_user_absent :
  ubyte m pd va = None →
  (∃ s' w', get_user init_pd ram insn pd va s = Ok (Some 0, s') ∧ brought_in s' w') ∨
  (user_pool_full s.(pg).(palloc) ∨ kernel_pool_full s.(pg).(palloc)) ∧
  get_user init_pd ram insn pd va s = Panic.
Proof.
  intros Hb. apply ubyte_no_frame in Hb. unfold get_user.
  destruct (access_absent false Hb) as [(s' & w' & p & E & B & Hf)|[Hfull E]]; [left|right].
  - exists s', w'. split; [|done]. rewrite (run_bind _ _ _ _ _ E).
    destruct (load_byte_ok s' pd w' va p (bi_wf _ _ B) Hva Hf) as (b & Hb' & El).
    rewrite (run_bind _ _ _ _ _ El). rewrite (bi_bytes _ _ B) in Hb' by done. rewrite Z.eqb_refl in Hb'.
    by injection Hb' as <-.
  - split; [done|]. unfold mbind, st_bind. by rewrite E.
Qed.

Lemma put_user_mapped b :
  0 <= insn < 4294967200 → is_Some (ubyte m pd va) → uwritable m pd va = true →
  ∃ s', put_user init_pd ram insn pd va b s = Ok (Some true, s') ∧ as_wf s'.(pg).(palloc) pd w ∧
    s'.(pg).(cr3) = s.(pg).(cr3) ∧ ram_covers s'.(pg).(palloc) ram ∧
    (∀ x, user_va x → uwritable s'.(pg).(palloc).(pmem) pd x = uwritable m pd x) ∧
    (∀ x, user_va x → ubyte s'.(pg).(palloc).(pmem) pd x =
       if x =? va then Some (u8 b) else ubyte m pd x).
Proof.
  intros Hi [b0 Hb] Hwr. destruct (ubyte_frame_of b0 Hb) as [p Hf]. unfold put_user.
  rewrite (run_bind _ _ _ _ _ (access_present true p Hf ltac:(done))).
  destruct (store_byte_ok s pd w va p Has Hva Hf (u8 b) (u8_range b)) as (s' & E & A & C & W & B & R).
  exists s'. rewrite (run_bind _ _ _ _ _ E).
  unfold after_insn. rewrite u32_small, (proj2 (Z.eqb_neq _ _)) by lia.
  split; [done|]. split; [done|]. split; [done|]. split; [by unfold ram_covers; rewrite R|]. done.
Qed.
End fault.

(** *** The interface

    A process with page directory [pd] provides the user memory that the system
    calls use. *)
Definition proc_mem (init_pd ram insn pd : Z) : UserMem xst :=
  {| um_get_user := get_user init_pd ram insn pd; um_put_user := put_user init_pd ram insn pd |}.

Lemma ubyte_range m pd va b : ubyte m pd va = Some b → is_u8 b.
Proof.
  unfold ubyte. intros E. destruct (frame_of m pd va) as [p|]; [|done]. cbn in E.
  destruct (m !! p) as [u|]; [|done]. cbn in E. destruct (u !! _) as [x|]; [|done].
  injection E as <-. apply byte_of_range.
Qed.

Lemma proc_mem_spec init_pd ram insn pd :
  0 <= insn < 4294967200 → @UserMemSpec xst (proc_mem init_pd ram insn pd).
Proof.
  intros Hi.
  refine {| um_ok := λ s, ∃ w, as_wf s.(pg).(palloc) pd w ∧ phys s.(pg).(cr3) = pd ∧ ram_covers s.(pg).(palloc) ram;
            um_byte := λ s va, if bool_decide (user_va va) then ubyte s.(pg).(palloc).(pmem) pd va else None;
            um_writable := λ s va, uwritable s.(pg).(palloc).(pmem) pd va |}.
  - intros s va b. case_bool_decide; [apply ubyte_range|done].
  - intros s va b (w & A & C & R) Hva. rewrite bool_decide_true by done. by apply (get_user_mapped _ _ _ _ _ w).
  - intros s va b (w & A & C & R) Hva. rewrite bool_decide_true by done. intros Hb Hw.
    destruct (put_user_mapped init_pd ram insn s pd w va A C R Hva b Hi Hb Hw) as (s' & E & A' & C' & R' & W' & B').
    exists s'. split; [exact E|]. split; [exists w; split; [done|split; [by rewrite C'|done]]|].
    split; [exact W'|]. intros x Hx. rewrite !bool_decide_true by done. by apply B'.
Defined.

(** ** Properties *)

(** C18: get_user() never reports a segfault.  For every address below PHYS_BASE
    it returns a byte between 0 and 255 and never -1: the byte that is there, or
    0 after the fault handler has added a zeroed, writable page to the address
    space, which changes nothing else of user memory.  When no page is left it
    does not return either: the kernel stops.  So an unmapped pointer that a
    program passes to the kernel does not terminate the program. *)
Theorem get_user_never_fails init_pd ram insn s pd w va :
  as_wf s.(pg).(palloc) pd w → phys s.(pg).(cr3) = pd → pd ≠ init_pd →
  ram_covers s.(pg).(palloc) ram → user_va va →
  match ubyte s.(pg).(palloc).(pmem) pd va with
  | Some b => is_u8 b ∧ get_user init_pd ram insn pd va s = Ok (Some b, s)
  | None =>
      (∃ s' w', get_user init_pd ram insn pd va s = Ok (Some 0, s') ∧ brought_in ram s pd va s' w') ∨
      (user_pool_full s.(pg).(palloc) ∨ kernel_pool_full s.(pg).(palloc)) ∧
      get_user init_pd ram insn pd va s = Panic
  end.
Proof.
  intros Has Hcr Hpd Hram Hva. destruct (ubyte s.(pg).(palloc).(pmem) pd va) as [b|] eqn:E.
  - split; [by eapply ubyte_range|by eapply get_user_mapped].
  - by eapply get_user_absent.
Qed.

(** The process of Pagedir.v, with the words of its page filled in. *)
Definition demo_xst : xst :=
  mk_xst (mk_pgst (with_pmem (<[3223322624 := replicate 1024 67305985]> demo_pgst.(palloc).(pmem))
                     (with_pool true (mk_pool (mk_bitmap 8 [1]) 3223322624) demo_pgst.(palloc)))
            demo_pgst.(cr3) 0) 0.
Definition demo_words : list Z := <[32%nat := demo_pd + 4096 - PHYS_BASE + 7]> (replicate 1024 0).

Lemma demo_frame va :
  user_va va → frame_of demo_xst.(pg).(palloc).(pmem) demo_pd va =
    if va / 4096 =? 32840 then Some 3223322624 else None.
Proof.
  intros Hva. pose proof (user_pd_no _ Hva) as Hk. unfold frame_of, pte_at.
  replace (demo_xst.(pg).(palloc).(pmem) !! demo_pd) with (Some demo_words) by by vm_compute.
  cbn [mbind option_bind]. unfold demo_words. rewrite demo_pd_tab by done.
  destruct (Z.eqb_spec (va / 4194304) 32) as [E|E].
  - cbn [mbind option_bind]. replace (demo_xst.(pg).(palloc).(pmem) !! (demo_pd + 4096))
      with (Some (<[72%nat := 3223322624 - PHYS_BASE + 7]> (replicate 1024 0))) by by vm_compute.
    cbn [mbind option_bind]. destruct (decide (va / 4096 mod 1024 = 72)) as [E2|E2].
    + rewrite E2. change (Z.to_nat 72) with 72%nat.
            rewrite list_lookup_insert_eq by (rewrite length_replicate; lia).
      rewrite (proj2 (Z.eqb_eq (va / 4096) 32840)) by zdm. by vm_compute.
    + rewrite list_lookup_insert_ne, lookup_replicate_2 by zdm.
      rewrite (proj2 (Z.eqb_neq (va / 4096) 32840)) by zdm. done.
  - rewrite (proj2 (Z.eqb_neq (va / 4096) 32840)) by zdm. done.
Qed.

Lemma demo_as_wf : as_wf demo_xst.(pg).(palloc) demo_pd demo_words.
Proof.
  split.
  - by repeat (split || constructor).
  - destruct demo_pd_wf as [P1 [T1 T2] P3 P4 P5]. split; [done|split; [by vm_compute|done]|by vm_compute| |done].
    intros k pde Hk Hpde Hnz. destruct (P4 k pde Hk Hpde Hnz) as (pt & u & E & Q1 & Q2 & Q3 & [Q4 Q5] & Q6).
    assert (Hpt : pt = demo_pd + 4096).
    { pose proof (demo_pd_tab k Hk) as Ht. unfold pd_tab in Ht. unfold demo_words in Hpde. rewrite Hpde in Ht.
      rewrite (proj2 (Z.eqb_neq _ _) Hnz), E in Ht. destruct (k =? 32); congruence. }
    exists pt, u. do 3 (split; [done|]). subst pt. split; [by vm_compute|].
    split; [split; [|done]|done]. rewrite <-Q4. by vm_compute.
  - intros k pde Hk Hpde Hnz. unfold demo_words in Hpde. destruct (decide (k = 32)) as [->|Hn].
    + rewrite list_lookup_insert_eq in Hpde by (rewrite length_replicate; lia). injection Hpde as <-. by vm_compute.
    + rewrite list_lookup_insert_ne, lookup_replicate_2 in Hpde by lia. congruence.
  - intros va p Hva. rewrite demo_frame by done. destruct (va / 4096 =? 32840); [|done]. intros [= <-].
    split; [unfold kernel_page, PHYS_BASE; split; [lia|done]|]. split; [by vm_compute|].
    split; [exists (replicate 1024 67305985); split; [by vm_compute|apply length_replicate]|].
    split; [unfold demo_pd; lia|]. intros k Hk. unfold demo_words. rewrite demo_pd_tab by done.
    unfold demo_pd. destruct (k =? 32); intros [=].
  - intros va va' p Hva Hva'. rewrite !demo_frame by done.
    destruct (Z.eqb_spec (va / 4096) 32840), (Z.eqb_spec (va' / 4096) 32840); intros; congruence.
Qed.

Lemma demo_ram : ram_covers demo_xst.(pg).(palloc) 4096.
Proof. by vm_compute. Qed.

(** A byte of the mapped page, and an address that was not mapped. *)
Lemma get_user_never_fails_witness :
  get_user 0 4096 3221291008 demo_pd 134512642 demo_xst = Ok (Some 3, demo_xst) ∧
  ∃ s', get_user 0 4096 3221291008 demo_pd 305419896 demo_xst = Ok (Some 0, s').
Proof.
  split.
  - pose proof (get_user_never_fails 0 4096 3221291008 demo_xst demo_pd demo_words 134512642
      demo_as_wf eq_refl ltac:(done) demo_ram ltac:(unfold user_va, PHYS_BASE; lia)) as H.
    replace (ubyte demo_xst.(pg).(palloc).(pmem) demo_pd 134512642) with (Some 3) in H by by vm_compute.
    apply H.
  - pose proof (get_user_never_fails 0 4096 3221291008 demo_xst demo_pd demo_words 305419896
      demo_as_wf eq_refl ltac:(done) demo_ram ltac:(unfold user_va, PHYS_BASE; lia)) as H.
    replace (ubyte demo_xst.(pg).(palloc).(pmem) demo_pd 305419896) with (@None Z) in H by by vm_compute.
    destruct H as [(s' & w' & E & _)|[[Hf|Hf] _]].
    + by exists s'.
    + specialize (Hf 1 ltac:(cbn; lia)). by vm_compute in Hf.
    + specialize (Hf 3 ltac:(cbn; lia)). by vm_compute in Hf.
Defined.

(** C15: put_user() to a writable page returns true and get_user() then returns
    the byte; every other byte of user memory is unchanged.  Writing to a page
    that is mapped read-only does not return false: the fault is not one the
    handler resolves and the kernel stops. *)
Theorem put_user_get_user init_pd ram insn s pd w va b :
  as_wf s.(pg).(palloc) pd w → phys s.(pg).(cr3) = pd → pd ≠ init_pd →
  ram_covers s.(pg).(palloc) ram → 0 <= insn < 4294967200 → user_va va →
  is_Some (ubyte s.(pg).(palloc).(pmem) pd va) →
  if uwritable s.(pg).(palloc).(pmem) pd va then
    ∃ s', put_user init_pd ram insn pd va b s = Ok (Some true, s') ∧
      get_user init_pd ram insn pd va s' = Ok (Some (u8 b), s') ∧
      ∀ x c, user_va x → x ≠ va → ubyte s.(pg).(palloc).(pmem) pd x = Some c →
        get_user init_pd ram insn pd x s' = Ok (Some c, s')
  else put_user init_pd ram insn pd va b s = Panic.
Proof.
  intros Has Hcr Hpd Hram Hi Hva Hb. destruct (uwritable s.(pg).(palloc).(pmem) pd va) eqn:Hwr.
  - destruct (put_user_mapped init_pd ram insn s pd w va Has Hcr Hram Hva b Hi Hb Hwr)
      as (s' & E & A & C & R & W & B). exists s'. rewrite <-C in Hcr. split; [exact E|]. split.
    + apply (get_user_mapped init_pd ram insn s' pd w va A Hcr Hva). rewrite (B va Hva). by rewrite Z.eqb_refl.
    + intros x c Hx Hn Hc. apply (get_user_mapped init_pd ram insn s' pd w x A Hcr Hx). rewrite (B x Hx).
      by rewrite (proj2 (Z.eqb_neq _ _) Hn).
  - destruct Hb as [b0 Hb]. destruct (ubyte_frame_of s pd va b0 Hb) as [p Hf].
    pose proof (mmu_ok true va s pd w Has Hcr Hva) as Em. rewrite Hf, Hwr in Em. cbn [andb negb] in Em.
    assert (Ea : access init_pd ram insn true pd va s = Panic).
    { unfold access, loop_st. cbn [loop].
      unfold mbind at 1, outcome_bind at 1. unfold mbind at 1, outcome_bind at 1.
      assert (Ex : ∀ k, (r ← mmu true va; k r : X (Z + option (Z * Z))) s = k (inr 3) s)
        by (intros k; by rewrite (run_bind _ _ _ _ _ Em)).
      rewrite Ex. unfold page_fault. unfold mbind, st_bind. cbn.
      unfold is_user_vaddr. rewrite (proj2 (Z.ltb_lt va PHYS_BASE)) by apply Hva.
      rewrite (proj2 (Z.eqb_neq insn (after_insn insn))) by (unfold after_insn; lia). done. }
    unfold put_user, mbind, st_bind. by rewrite Ea.
Qed.

Lemma put_user_get_user_witness :
  ∃ s', put_user 0 4096 3221291008 demo_pd 134512642 77 demo_xst = Ok (Some true, s') ∧
    get_user 0 4096 3221291008 demo_pd 134512642 s' = Ok (Some 77, s') ∧
    get_user 0 4096 3221291008 demo_pd 134512643 s' = Ok (Some 4, s').
Proof.
  pose proof (put_user_get_user 0 4096 3221291008 demo_xst demo_pd demo_words 134512642 77
      demo_as_wf eq_refl ltac:(done) demo_ram ltac:(lia) ltac:(unfold user_va, PHYS_BASE; lia)) as H.
  replace (ubyte demo_xst.(pg).(palloc).(pmem) demo_pd 134512642) with (Some 3) in H by by vm_compute.
  specialize (H ltac:(by eexists)).
  replace (uwritable demo_xst.(pg).(palloc).(pmem) demo_pd 134512642) with true in H by by vm_compute.
  destruct H as (s' & E & G & O). exists s'. split; [exact E|]. split; [exact G|].
  apply O; [unfold user_va, PHYS_BASE; lia|done|by vm_compute].
Defined.
