(* ===== verification/Loader.v ===== *)
(** * Loading programs: load() and its helpers in userprog/process.c

    The loader of a new process, on the file system of Filesys.v and the page
    directories of Pagedir.v.  The state adds the page directory of the current
    thread.  The headers of an executable are read as the bytes of the file and
    taken apart in little-endian order, as the structures of the code lie in
    memory.  The messages that load() prints and the kernel stack that
    process_activate() records in the task state segment are left out. *)

From S2P Require Import Prelude Bitmap Vaddr UserMem Palloc Pagedir Exception.
From S2P Require Import FsState InodeIO FreeMap Inode File Directory Filesys.

Open Scope Z_scope.

(** ** Definitions *)

Record lst := mk_lst { l_fs : fs; l_pg : pgst; l_pagedir : Z }.

Abbreviation L := (st lst).

Definition in_fs {A} (m : M A) : L A := λ s,
  match m s.(l_fs) with
  | Ok (a, f) => Ok (a, mk_lst f s.(l_pg) s.(l_pagedir))
  | Panic => Panic | Wild => Wild | NoFuel => NoFuel
  end.

Definition in_pg {A} (m : G A) : L A := λ s,
  match m s.(l_pg) with
  | Ok (a, g) => Ok (a, mk_lst s.(l_fs) g s.(l_pagedir))
  | Panic => Panic | Wild => Wild | NoFuel => NoFuel
  end.

(** *** ELF *)

Definition un16 (bs : list Z) : Z := match bs with [a; b] => a + 256 * b | _ => 0 end.
Definition half_at (bs : list Z) (k : nat) : Z := un16 (take 2 (drop k bs)).
Definition word_at (bs : list Z) (k : nat) : Z := un32 (take 4 (drop k bs)).

Record Elf32_Ehdr := mk_ehdr {
  e_ident : list Z; e_type : Z; e_machine : Z; e_version : Z; e_entry : Z; e_phoff : Z;
  e_shoff : Z; e_flags : Z; e_ehsize : Z; e_phentsize : Z; e_phnum : Z; e_shentsize : Z;
  e_shnum : Z; e_shstrndx : Z }.

Definition ehdr_of (bs : list Z) : Elf32_Ehdr :=
  mk_ehdr (take 16 bs) (half_at bs 16) (half_at bs 18) (word_at bs 20) (word_at bs 24) (word_at bs 28)
    (word_at bs 32) (word_at bs 36) (half_at bs 40) (half_at bs 42) (half_at bs 44) (half_at bs 46)
    (half_at bs 48) (half_at bs 50).

Record Elf32_Phdr := mk_phdr {
  p_type : Z; p_offset : Z; p_vaddr : Z; p_paddr : Z; p_filesz : Z; p_memsz : Z; p_flags : Z; p_align : Z }.

Definition phdr_of (bs : list Z) : Elf32_Phdr :=
  mk_phdr (word_at bs 0) (word_at bs 4) (word_at bs 8) (word_at bs 12) (word_at bs 16) (word_at bs 20)
    (word_at bs 24) (word_at bs 28).

Definition EHDR_SIZE : Z := 52.
Definition PHDR_SIZE : Z := 32.

Definition PT_LOAD : Z := 1.
Definition PT_DYNAMIC : Z := 2.
Definition PT_INTERP : Z := 3.
Definition PT_SHLIB : Z := 5.

(** The segment may be written. *)
Definition PF_W : Z := 2.

Definition ROUND_UP (x step : Z) : Z := u32 (u32 (x + step - 1) / step * step).

Section loader.
Context (init_page_dir init_ram_pages : Z).

Definition get_pagedir : L Z := gets l_pagedir.

Definition install_page (upage kpage : Z) (writable : bool) : L bool :=
  pd ← get_pagedir;
  p ← in_pg (pagedir_get_page pd upage);
  if p =? NULL then in_pg (pagedir_set_page init_page_dir init_ram_pages pd upage kpage writable)
  else mret false.

(** The words of [n] groups of four bytes. *)
Fixpoint words_of (n : nat) (bs : list Z) : list Z :=
  match n with O => [] | S n => un32 (take 4 bs) :: words_of n (drop 4 bs) end.

(** Filling the page at [kpage]. *)
Definition fill_page (kpage : Z) (bs : list Z) : G unit :=
  modify (λ g, mk_pgst (with_pmem (<[kpage := words_of 1024 bs]> g.(palloc).(pmem)) g.(palloc))
                 g.(cr3) g.(flushes)).

(** The body of the loop of load_segment(): file_read() and memset() together
    fill the page; when the file is too short, what was read is lost with the
    page. *)
Definition load_page (file : Z) (writable : bool) : Z * Z * Z → L (Z * Z * Z + bool) :=
  λ '(read_bytes, zero_bytes, upage),
    if (0 <? read_bytes) || (0 <? zero_bytes) then
      let page_read_bytes := if read_bytes <? PGSIZE then read_bytes else PGSIZE in
      let page_zero_bytes := PGSIZE - page_read_bytes in
      kpage ← in_pg (use_palloc (palloc_get_page PAL_USER));
      if kpage =? NULL then mret (inr false)
      else
        bs ← in_fs (file_read file page_read_bytes);
        if negb (Z.of_nat (length bs) =? page_read_bytes) then
          in_pg (use_palloc (palloc_free_page kpage));; mret (inr false)
        else
          in_pg (fill_page kpage (bs ++ replicate (Z.to_nat page_zero_bytes) 0));;
          ok ← install_page upage kpage writable;
          if negb ok then
            in_pg (use_palloc (palloc_free_page kpage));; mret (inr false)
          else
            mret (inl (read_bytes - page_read_bytes, u32 (zero_bytes - page_zero_bytes), u32 (upage + PGSIZE)))
    else mret (inr true).

(** load_segment(): there is an iteration per page. *)
Definition load_segment (file ofs upage read_bytes zero_bytes : Z) (writable : bool) : L bool :=
  lift (ASSERT (u32 (read_bytes + zero_bytes) mod PGSIZE =? 0));;
  lift (ASSERT (pg_ofs upage =? 0));;
  lift (ASSERT (Z.rem ofs PGSIZE =? 0));;
  in_fs (file_seek file ofs);;
  loop_st (S (Z.to_nat ((read_bytes + zero_bytes) / PGSIZE))) (load_page file writable)
    (read_bytes, zero_bytes, upage).

Definition validate_segment (phdr : Elf32_Phdr) (file : Z) : L bool :=
  if negb (Z.land phdr.(p_offset) PGMASK =? Z.land phdr.(p_vaddr) PGMASK) then mret false
  else
    len ← in_fs (file_length file);
    if u32 len <? phdr.(p_offset) then mret false
    else if phdr.(p_memsz) <? phdr.(p_filesz) then mret false
    else if phdr.(p_memsz) =? 0 then mret false
    else if negb (is_user_vaddr phdr.(p_vaddr)) then mret false
    else if negb (is_user_vaddr (u32 (phdr.(p_vaddr) + phdr.(p_memsz)))) then mret false
    else if u32 (phdr.(p_vaddr) + phdr.(p_memsz)) <? phdr.(p_vaddr) then mret false
    else if phdr.(p_vaddr) <? PGSIZE then mret false
    else mret true.

(** setup_stack(): the initial stack pointer, or [None] on failure. *)
Definition setup_stack : L (option Z) :=
  kpage ← in_pg (use_palloc (palloc_get_page (PAL_USER + PAL_ZERO)));
  if kpage =? NULL then mret None
  else
    success ← install_page (PHYS_BASE - PGSIZE) kpage true;
    if (success : bool) then mret (Some PHYS_BASE)
    else in_pg (use_palloc (palloc_free_page kpage));; mret None.

(** The case of a loadable segment in load(). *)
Definition load_phdr (file : Z) (phdr : Elf32_Phdr) : L bool :=
  ok ← validate_segment phdr file;
  if (ok : bool) then
    let writable := negb (Z.land phdr.(p_flags) PF_W =? 0) in
    let file_page := Z.land phdr.(p_offset) (u32 (Z.lnot PGMASK)) in
    let mem_page := Z.land phdr.(p_vaddr) (u32 (Z.lnot PGMASK)) in
    let page_offset := Z.land phdr.(p_vaddr) PGMASK in
    let '(read_bytes, zero_bytes) :=
      if 0 <? phdr.(p_filesz) then
        let read_bytes := u32 (page_offset + phdr.(p_filesz)) in
        (read_bytes, u32 (ROUND_UP (u32 (page_offset + phdr.(p_memsz))) PGSIZE - read_bytes))
      else (0, ROUND_UP (u32 (page_offset + phdr.(p_memsz))) PGSIZE) in
    load_segment file (i32 file_page) mem_page read_bytes zero_bytes writable
  else mret false.

(** The loop over the program headers in load(). *)
Definition read_phdrs (file phoff phnum : Z) : L bool :=
  loop_st (S (Z.to_nat phnum)) (λ '(i, file_ofs),
    if i <? phnum then
      if file_ofs <? 0 then mret (inr false)
      else
        len ← in_fs (file_length file);
        if len <? file_ofs then mret (inr false)
        else
          in_fs (file_seek file file_ofs);;
          bs ← in_fs (file_read file PHDR_SIZE);
          if negb (Z.of_nat (length bs) =? PHDR_SIZE) then mret (inr false)
          else
            let file_ofs := i32 (file_ofs + PHDR_SIZE) in
            let phdr := phdr_of bs in
            let t := phdr.(p_type) in
            if (t =? PT_DYNAMIC) || (t =? PT_INTERP) || (t =? PT_SHLIB) then mret (inr false)
            else if t =? PT_LOAD then
              ok ← load_phdr file phdr;
              if (ok : bool) then mret (inl (i + 1, file_ofs)) else mret (inr false)
            else mret (inl (i + 1, file_ofs))
    else mret (inr true)) (0, i32 phoff).

(** The checks of the header in load(). *)
Definition ehdr_ok (ehdr : Elf32_Ehdr) : bool :=
  bool_decide (take 7 ehdr.(e_ident) = [127; 69; 76; 70; 1; 1; 1]) &&
  (ehdr.(e_type) =? 2) && (ehdr.(e_machine) =? 3) && (ehdr.(e_version) =? 1) &&
  (ehdr.(e_phentsize) =? PHDR_SIZE) && negb (1024 <? ehdr.(e_phnum)).

(** load() between opening and closing the file: the start address and the stack
    pointer, or [None] on failure. *)
Definition load_file (file : Z) : L (option (Z * Z)) :=
  bs ← in_fs (file_read file EHDR_SIZE);
  if negb (Z.of_nat (length bs) =? EHDR_SIZE) then mret None
  else
    let ehdr := ehdr_of bs in
    if negb (ehdr_ok ehdr) then mret None
    else
      ok ← read_phdrs file ehdr.(e_phoff) ehdr.(e_phnum);
      if (ok : bool) then
        esp ← setup_stack;
        match esp with
        | Some esp => mret (Some (ehdr.(e_entry), esp))
        | None => mret None
        end
      else mret None.

Definition set_pagedir (pd : Z) : L unit := modify (λ s, mk_lst s.(l_fs) s.(l_pg) pd).

Definition process_activate : L unit :=
  pd ← get_pagedir; in_pg (pagedir_activate init_page_dir pd).

Definition load (file_name : list Z) : L (option (Z * Z)) :=
  pd ← in_pg (pagedir_create init_page_dir);
  set_pagedir pd;;
  if pd =? NULL then in_fs (file_close NULL);; mret None
  else
    process_activate;;
    file ← in_fs (filesys_open file_name);
    if file =? NULL then in_fs (file_close NULL);; mret None
    else
      r ← load_file file;
      in_fs (file_close file);;
      mret r.

Definition process_exit : L unit :=
  pd ← get_pagedir;
  if pd =? NULL then mret tt
  else
    set_pagedir NULL;;
    in_pg (pagedir_activate init_page_dir NULL);;
    in_pg (pagedir_destroy init_page_dir pd).
End loader.

(** ** Pages of bytes *)

Lemma words_of_lookup n bs j :
  (j < n)%nat → words_of n bs !! j = Some (un32 (take 4 (drop (4 * j) bs))).
Proof.
  revert bs j. induction n as [|n IH]; intros bs j Hj; [lia|]. destruct j as [|j]; [done|].
  cbn [words_of lookup list_lookup]. rewrite IH by lia. rewrite drop_drop. do 4 f_equal. lia.
Qed.

Lemma length_words_of n bs : length (words_of n bs) = n.
Proof. revert bs. induction n as [|n IH]; intros bs; [done|]. cbn. by rewrite IH. Qed.

Lemma take_drop_4 (bs : list Z) k :
  (k + 4 <= length bs)%nat →
  ∃ a b c d, take 4 (drop k bs) = [a; b; c; d] ∧
    bs !! k = Some a ∧ bs !! (k + 1)%nat = Some b ∧ bs !! (k + 2)%nat = Some c ∧ bs !! (k + 3)%nat = Some d.
Proof.
  intros Hk. destruct (drop k bs) as [|a [|b [|c [|d l]]]] eqn:E;
    pose proof (f_equal length E) as Hl; rewrite length_drop in Hl; cbn in Hl; try lia.
  exists a, b, c, d. split; [done|].
  rewrite <-(Nat.add_0_r k) at 1. rewrite <-!lookup_drop, E. done.
Qed.

Lemma byte_of_un32 a b c d :
  is_u8 a → is_u8 b → is_u8 c → is_u8 d →
  let w := un32 [a; b; c; d] in
  byte_of w 0 = a ∧ byte_of w 1 = b ∧ byte_of w 2 = c ∧ byte_of w 3 = d.
Proof.
  intros Ha Hb Hc Hd. unfold un32, byte_of. cbv zeta.
  change (2 ^ (8 * 0)) with 1; change (2 ^ (8 * 1)) with 256; change (2 ^ (8 * 2)) with 65536;
    change (2 ^ (8 * 3)) with 16777216. repeat split; zdm.
Qed.

Lemma page_byte_words bs k :
  length bs = 4096%nat → Forall (λ b, is_u8 b) bs → 0 <= k < 4096 →
  page_byte (words_of 1024 bs) k = bs !! Z.to_nat k.
Proof.
  intros Hl F Hk. unfold page_byte. rewrite words_of_lookup by zdm. cbn [mbind option_bind].
  destruct (take_drop_4 bs (4 * Z.to_nat (k / 4))) as (a & b & c & d & -> & Ha & Hb & Hc & Hd); [zdm|].
  destruct (byte_of_un32 a b c d) as (Ea & Eb & Ec & Ed);
    [exact (Forall_lookup_1 _ _ _ _ F Ha)|exact (Forall_lookup_1 _ _ _ _ F Hb)|
     exact (Forall_lookup_1 _ _ _ _ F Hc)|exact (Forall_lookup_1 _ _ _ _ F Hd)|].
  assert (k mod 4 = 0 ∨ k mod 4 = 1 ∨ k mod 4 = 2 ∨ k mod 4 = 3) as [E|[E|[E|E]]] by zdm; rewrite E.
  - rewrite Ea, <-Ha. f_equal. zdm.
  - rewrite Eb, <-Hb. f_equal. zdm.
  - rewrite Ec, <-Hc. f_equal. zdm.
  - rewrite Ed, <-Hd. f_equal. zdm.
Qed.

#[local] Opaque words_of.

(** ** Loading a page *)

Lemma run_in_fs {A B} (m : M A) (k : A → L B) s a f :
  m s.(l_fs) = Ok (a, f) → (in_fs m ≫= k) s = k a (mk_lst f s.(l_pg) s.(l_pagedir)).
Proof. intros E. apply run_bind. unfold in_fs. by rewrite E. Qed.

Lemma run_in_pg {A B} (m : G A) (k : A → L B) s a g :
  m s.(l_pg) = Ok (a, g) → (in_pg m ≫= k) s = k a (mk_lst s.(l_fs) g s.(l_pagedir)).
Proof. intros E. apply run_bind. unfold in_pg. by rewrite E. Qed.

Lemma run_pagedir {B} (k : Z → L B) s : (get_pagedir ≫= k) s = k s.(l_pagedir) s.
Proof. done. Qed.

Section loading.
Context (init_pd ram fp ip : Z) (i : inode) (Hfp : fp ≠ NULL) (Hip : ip ≠ NULL).
(** The contents of the file. *)
Context (F : Z → Z) (HF : ∀ k, is_u8 (F k)).

(** The process's address space, and the file open at position [p]. *)
Record loading (s : lst) (p : Z) (w : list Z) : Prop := {
  ld_pos : at_pos fp ip i s.(l_fs) p;
  ld_file : ∀ a n, disk_bytes s.(l_fs).(fs_device) (base i + a) n = F <$> seqZ a n;
  ld_as : as_wf s.(l_pg).(palloc) s.(l_pagedir) w;
  ld_pd : s.(l_pagedir) ≠ init_pd;
  ld_ram : ram_covers s.(l_pg).(palloc) ram }.

Abbreviation mem s := (s.(l_pg).(palloc).(pmem)).
Abbreviation ub s := (ubyte (mem s) s.(l_pagedir)).
Abbreviation uw s := (uwritable (mem s) s.(l_pagedir)).

(** Same page directory, same memory for user addresses. *)
Definition same_user (s s' : lst) : Prop :=
  s'.(l_pagedir) = s.(l_pagedir) ∧ s'.(l_pg).(cr3) = s.(l_pg).(cr3) ∧
  ∀ x, user_va x → ub s' x = ub s x ∧ uw s' x = uw s x.

(** A page of memory has been mapped at [va]. *)
Definition page_added (va : Z) (bs : list Z) (writable : bool) (s s' : lst) : Prop :=
  s'.(l_pagedir) = s.(l_pagedir) ∧ s'.(l_pg).(cr3) = s.(l_pg).(cr3) ∧
  (∀ x, x / 4096 = va / 4096 → ub s x = None) ∧
  ∀ x, user_va x →
    ub s' x = (if x / 4096 =? va / 4096 then bs !! Z.to_nat (x mod 4096) else ub s x) ∧
    uw s' x = (if x / 4096 =? va / 4096 then writable else uw s x).

Definition no_memory (s : lst) : Prop :=
  user_pool_full s.(l_pg).(palloc) ∨ kernel_pool_full s.(l_pg).(palloc).

Lemma read_ok s p w size :
  loading s p w → 0 <= p < 2147483648 → 0 <= size < 2147483648 →
  let n := avail i size p in
  ∃ f, file_read fp size s.(l_fs) = Ok (F <$> seqZ p n, f) ∧
    loading (mk_lst f s.(l_pg) s.(l_pagedir)) (p + n) w.
Proof.
  intros [L1 L2 L3 L4 L5] Hp Hs n. destruct (file_read_ok fp ip i Hip _ p size L1 Hp Hs) as (f & E & H & Hd).
  exists f. rewrite L2 in E. split; [exact E|]. split; [exact H| |done..].
  intros a k. cbn [l_fs]. by rewrite Hd.
Qed.

Lemma seek_ok s p w q :
  loading s p w → 0 <= q →
  ∃ f, file_seek fp q s.(l_fs) = Ok (tt, f) ∧ loading (mk_lst f s.(l_pg) s.(l_pagedir)) q w.
Proof.
  intros [L1 L2 L3 L4 L5] Hq. destruct (file_seek_ok fp ip i Hfp _ p q L1 Hq) as (f & E & H & Hd).
  exists f. split; [exact E|]. split; [exact H| |done..]. intros a k. cbn [l_fs]. by rewrite Hd.
Qed.

Lemma length_ok s p w : loading s p w → file_length fp s.(l_fs) = Ok (i.(data).(length_), s.(l_fs)).
Proof.
  intros [[(dw & Hf) Hi _ _ _] _ _ _ _]. unfold file_length, fASSERT.
  rewrite (run_lift _ _ _ _ (not_null _ Hfp)), (run_bind _ _ _ _ _ (get_file_ok _ _ _ Hf)).
  cbn [f_inode]. unfold inode_length. by rewrite (run_bind _ _ _ _ _ (get_inode_ok _ _ _ Hi)).
Qed.
(** A page taken from the user pool of [s], whatever has been stored in it. *)
Record taken (s : pst) (kp : Z) (s1 : pst) : Prop := {
  tk_page : kernel_page kp;
  tk_free : used s kp = false;
  tk_pools : pools_wf s1;
  tk_used : ∀ p, is_u32 p → used s1 p = if among kp 1 p then true else used s p;
  tk_from : page_from_pool s.(user_pool) kp = true;
  tk_size : same_size s.(user_pool) s1.(user_pool);
  tk_kernel : s1.(kernel_pool) = s.(kernel_pool);
  tk_mem : ∀ u, <[kp := u]> s1.(pmem) = <[kp := u]> s.(pmem) }.

Lemma take_page_ok s flags :
  pools_wf s → flag flags PAL_ASSERT = false → flag flags PAL_USER = true →
  (∃ s1 kp, palloc_get_page flags s = Ok (kp, s1) ∧ taken s kp s1 ∧
     s1.(pmem) = if flag flags PAL_ZERO then <[kp := replicate 1024 0]> s.(pmem) else s.(pmem)) ∨
  (user_pool_full s ∧ palloc_get_page flags s = Ok (NULL, s)).
Proof.
  intros Hp Ha Hu. destruct (palloc_get_page_ok s flags Hp Ha) as
    [(s1 & kp & E & Hp1 & Hkp & Hfree & Hused & Hmem & Hfrom & Hsz)|[Hfull E]]; [left|right].
  - exists s1, kp. pose proof (palloc_get_other _ _ _ _ _ E) as Eo. rewrite Hu in *.
    split; [done|]. split; [|done]. split; try done.
    intros u. rewrite Hmem. destruct (flag flags PAL_ZERO); [by rewrite insert_insert_eq|done].
  - rewrite Hu in Hfull. done.
Qed.

Lemma taken_store s kp s1 u : taken s kp s1 → taken s kp (with_pmem (<[kp := u]> s1.(pmem)) s1).
Proof.
  intros [T1 T2 T3 T4 T5 T6 T7 T8]. split; try done. intros v. cbn. by rewrite insert_insert_eq.
Qed.

Lemma taken_used s kp s1 : taken s kp s1 → used s1 kp = true.
Proof.
  intros T. pose proof (tk_page _ _ _ T) as [Hr _]. unfold PHYS_BASE in Hr.
  rewrite (tk_used _ _ _ T) by lia. unfold among.
  by rewrite (proj2 (Z.leb_le _ _)), (proj2 (Z.ltb_lt _ _)) by lia.
Qed.

(** Two aligned pages that overlap are one. *)
Lemma among_page kp p : kernel_page kp → kernel_page p → among kp 1 p = true → p = kp.
Proof.
  intros [_ A] [_ B] H. unfold among in H. apply andb_true_iff in H as [H1 H2].
  apply Z.leb_le in H1. apply Z.ltb_lt in H2. zdm.
Qed.

(** User memory depends on the page tables and on the pages they map. *)
Lemma same_user_mem s pd w kp u m' :
  as_wf s pd w → used s kp = false → m' = <[kp := u]> s.(pmem) →
  (∀ va, user_va va → pte_at m' pd va = pte_at s.(pmem) pd va) →
  ∀ x, user_va x → ubyte m' pd x = ubyte s.(pmem) pd x ∧ uwritable m' pd x = uwritable s.(pmem) pd x.
Proof.
  intros Has Hfree -> Hat x Hx. split; [|unfold uwritable; by rewrite Hat].
  destruct (frame_of s.(pmem) pd x) as [p|] eqn:E.
  - apply (ubyte_frame _ _ _ _ p); [done|by rewrite <-E; apply frame_of_pte, Hat|].
    destruct (as_frame _ _ _ Has x p Hx E) as (_ & B2 & _). apply lookup_insert_ne. congruence.
  - unfold ubyte. by rewrite (frame_of_pte _ _ _ _ _ _ (Hat x Hx)), E.
Qed.

Lemma give_back_ok s p w f c n s1 kp :
  loading s p w → loading (mk_lst f s.(l_pg) s.(l_pagedir)) n w →
  taken s.(l_pg).(palloc) kp s1 →
  ∃ s3, palloc_free_page kp s1 = Ok (tt, s3) ∧
    loading (mk_lst f (mk_pgst s3 s.(l_pg).(cr3) c) s.(l_pagedir)) n w ∧
    same_user s (mk_lst f (mk_pgst s3 s.(l_pg).(cr3) c) s.(l_pagedir)) ∧ s3.(kernel_pool) = s1.(kernel_pool).
Proof.
  intros Hs [L1 L2 L3 L4 L5] T. pose proof T as [T1 T2 T3 T4 T5 T6 T7 T8]. pose proof T1 as [Hr Ha].
  unfold PHYS_BASE in Hr. cbn [l_fs l_pg l_pagedir] in *.
  assert (Hf1 : page_from_pool s1.(user_pool) kp = true).
  { destruct T6 as [Z1 Z2]. unfold page_from_pool, bitmap_size in *. by rewrite Z1, Z2. }
  destruct (palloc_free_page_ok s1 kp T3 ltac:(lia) Ha (taken_used _ _ _ T)) as (s3 & E & Hp3 & Hu3 & Hm3 & Hu & _).
  destruct (Hu Hf1) as [Hz Hk]. rewrite T8 in Hm3.
  destruct (as_wf_alloc s.(l_pg).(palloc) s3 s.(l_pagedir) w kp (replicate 1024 3435973836)) as [A3 B3];
    [done|done|done|apply length_replicate| |done|].
  { intros q Hq Hqu. rewrite Hu3, T4 by by apply kernel_page_u32.
    destruct (among kp 1 q) eqn:Eq; [|done]. rewrite (among_page kp q T1 Hq Eq) in Hqu. congruence. }
  exists s3. split; [done|]. split; [|split; [|done]].
  - split; cbn [l_fs l_pg l_pagedir palloc]; [exact L1|exact L2|done|exact L4|].
    unfold ram_covers in *. destruct Hz as [Z1 Z2], T6 as [Z3 Z4]. unfold page_at in *. congruence.
  - split; [done|]. split; [done|]. cbn [l_pg l_pagedir palloc]. by eapply same_user_mem.
Qed.

Lemma install_ok s p w f n c s1 kp u bs upage writable :
  loading s p w → loading (mk_lst f s.(l_pg) s.(l_pagedir)) n w →
  taken s.(l_pg).(palloc) kp s1 → s1.(pmem) = <[kp := u]> (mem s) → length u = 1024%nat →
  (∀ k, 0 <= k < 4096 → page_byte u k = bs !! Z.to_nat k) → user_va upage → upage mod 4096 = 0 →
  let t := mk_lst f (mk_pgst s1 s.(l_pg).(cr3) c) s.(l_pagedir) in
  (∃ s' w', install_page init_pd ram upage kp writable t = Ok (true, s') ∧ loading s' n w' ∧
     page_added upage bs writable s s') ∨
  ((is_Some (ub s upage) ∨ kernel_pool_full s1) ∧ install_page init_pd ram upage kp writable t = Ok (false, t)).
Proof.
  intros [_ _ Has _ _] [L1 L2 L3 L4 L5] T Hm Hl Hbs Hva Ha t. pose proof T as [T1 T2 T3 T4 T5 T6 T7 T8].
  cbn [l_fs l_pg l_pagedir] in *. set (pd := s.(l_pagedir)) in *.
  assert (Hmono : ∀ q, kernel_page q → used s.(l_pg).(palloc) q = true → used s1 q = true).
  { intros q Hq Hu. rewrite T4 by by apply kernel_page_u32. by destruct (among kp 1 q). }
  destruct (as_wf_alloc _ s1 pd w kp u Has T3 T2 Hl Hmono Hm) as [Has1 Hat].
  pose proof (pagedir_get_page_ok t.(l_pg) pd w upage (as_pd _ _ _ Has1) Hva) as Eg.
  cbn [t l_pg palloc] in Eg. rewrite (frame_of_pte _ _ _ _ _ _ (Hat upage Hva)) in Eg.
  unfold install_page. rewrite run_pagedir.
  change (l_pagedir t) with pd.
  destruct (frame_of (mem s) pd upage) as [q|] eqn:Ef.
  - right. rewrite (run_in_pg _ _ t _ _ Eg). split.
    + left. destruct (load_byte_ok (mk_xst s.(l_pg) 0) pd w upage q Has Hva Ef) as (b & Hb & _). by exists b.
    + destruct (as_frame _ _ _ Has upage q Hva Ef) as ([Hr _] & _). unfold PHYS_BASE in Hr.
      rewrite (proj2 (Z.eqb_neq _ _)) by zdm. done.
  - rewrite (run_in_pg _ _ t _ _ Eg), Z.eqb_refl.
    destruct (map_page_ok init_pd ram s.(l_pg).(palloc) s1 s.(l_pg).(cr3) c pd w upage kp u writable)
      as [(g & w2 & E & A & C & R & B1 & B2)|[Hfull E]]; try done.
    + left. eexists _, w2. unfold in_pg. cbn [l_pg l_fs l_pagedir]. rewrite E. split; [done|].
      split; [by split|]. split; [done|]. split; [done|]. split.
      { intros x Hx. unfold ubyte. fold pd. by rewrite (frame_of_same_page _ _ _ _ Hx), Ef. }
      intros x Hx. cbn [l_pg l_pagedir]. split; [|by apply B2]. rewrite B1 by done.
      destruct (x / 4096 =? upage / 4096); [|done]. apply Hbs. zdm.
    + right. split; [by right|]. unfold in_pg. cbn [l_pg l_fs l_pagedir]. by rewrite E.
Qed.
(** *** A segment *)

Section segment.
Context (s0 : lst) (ofs up0 rd0 total : Z) (writable : bool).
Context (Hofs : 0 <= ofs < 2147483648) (Hup : up0 mod 4096 = 0) (Hrd : 0 <= rd0 <= total)
  (Htot : total mod 4096 = 0) (Hlow : 0 <= up0) (Hhigh : up0 + total <= PHYS_BASE).

Definition in_seg (d x : Z) : bool := (up0 <=? x) && (x <? up0 + d).
Definition image (k : Z) : Z := if k <? rd0 then F (ofs + k) else 0.

(** The first [d] bytes of the segment are in place. *)
Definition seg_done (d : Z) (s : lst) : Prop :=
  s.(l_pagedir) = s0.(l_pagedir) ∧ s.(l_pg).(cr3) = s0.(l_pg).(cr3) ∧
  (∀ x, in_seg d x = true → ub s0 x = None) ∧
  ∀ x, user_va x →
    ub s x = (if in_seg d x then Some (image (x - up0)) else ub s0 x) ∧
    uw s x = (if in_seg d x then writable else uw s0 x).

Lemma seg_done_user d s s' : seg_done d s → same_user s s' → seg_done d s'.
Proof.
  intros (P1 & P2 & P3 & P4) (Q1 & Q2 & Q3). split; [congruence|]. split; [congruence|]. split; [done|].
  intros x Hx. destruct (Q3 x Hx) as [-> ->]. auto.
Qed.

Lemma seg_done_next d s s' bs :
  seg_done d s → 0 <= d → d mod 4096 = 0 → d < total →
  (∀ k, 0 <= k < 4096 → bs !! Z.to_nat k = Some (image (d + k))) →
  page_added (up0 + d) bs writable s s' → seg_done (d + 4096) s'.
Proof.
  intros (P1 & P2 & P3 & P4) Hd Hm Hlt Hbs (Q1 & Q2 & Q3 & Q4). unfold PHYS_BASE in Hhigh.
  assert (Hpage : ∀ x, x / 4096 = (up0 + d) / 4096 ↔ up0 + d <= x < up0 + d + 4096) by (intros x; zdm).
  assert (Hnew : ∀ x, up0 + d <= x < up0 + d + 4096 → user_va x ∧ in_seg d x = false ∧ in_seg (d + 4096) x = true).
  { intros x Hx. unfold user_va, PHYS_BASE, in_seg. split; [zdm|]. split.
    - apply andb_false_intro2, Z.ltb_ge. lia.
    - apply andb_true_intro. rewrite Z.leb_le, Z.ltb_lt. lia. }
  assert (Hold : ∀ x, ¬ (up0 + d <= x < up0 + d + 4096) → in_seg (d + 4096) x = in_seg d x).
  { intros x Hx. unfold in_seg. destruct (Z.leb_spec up0 x); cbn [andb]; [|done].
    destruct (Z.ltb_spec x (up0 + d)), (Z.ltb_spec x (up0 + (d + 4096))); lia || done. }
  split; [congruence|]. split; [congruence|]. split.
  - intros x. destruct (decide (up0 + d <= x < up0 + d + 4096)) as [Hx|Hx]; [|rewrite Hold by done; auto].
    intros _. destruct (Hnew x Hx) as (Hu & Hi & _). destruct (P4 x Hu) as [E _]. rewrite Hi in E. rewrite <-E.
    by apply Q3, Hpage.
  - intros x Hx. destruct (Q4 x Hx) as [-> ->]. destruct (P4 x Hx) as [-> ->].
    destruct (Z.eqb_spec (x / 4096) ((up0 + d) / 4096)) as [E|E].
    + apply Hpage in E. destruct (Hnew x E) as (_ & _ & ->). split; [|done].
      rewrite Hbs by zdm. do 2 f_equal. zdm.
    + rewrite Hold; [done|]. by rewrite <-Hpage.
Qed.
Definition seg_inv (n : nat) : Z * Z * Z → lst → Prop := λ '(r, z, up) s,
  ∃ w d, loading s (ofs + Z.min d rd0) w ∧ seg_done d s ∧ 0 <= d <= total ∧ d mod 4096 = 0 ∧
    up = up0 + d ∧ r = Z.max 0 (rd0 - d) ∧ z = total - d - r ∧ n = Z.to_nat ((total - d) / 4096) ∧
    (Z.min d rd0 = 0 ∨ ofs + Z.min d rd0 <= i.(data).(length_)).

(** Why loading a segment fails. *)
Definition seg_fails (s : lst) : Prop :=
  (rd0 ≠ 0 ∧ i.(data).(length_) < ofs + rd0) ∨ (∃ x, in_seg total x = true ∧ is_Some (ub s0 x)) ∨ no_memory s.

Definition seg_post (b : bool) (s : lst) : Prop :=
  ∃ w p, loading s p w ∧
    if b then seg_done total s ∧ (rd0 = 0 ∨ ofs + rd0 <= i.(data).(length_))
    else seg_fails s ∧ ∃ d, 0 <= d < total ∧ seg_done d s.

(** The bytes of a page of the segment. *)
Lemma page_bytes d :
  0 <= d →
  let pr := Z.min (Z.max 0 (rd0 - d)) 4096 in
  let bs := (F <$> seqZ (ofs + Z.min d rd0) pr) ++ replicate (Z.to_nat (4096 - pr)) 0 in
  length bs = 4096%nat ∧ Forall (λ b, is_u8 b) bs ∧
  ∀ k, 0 <= k < 4096 → bs !! Z.to_nat k = Some (image (d + k)).
Proof.
  intros Hd pr bs. assert (Hpr : 0 <= pr <= 4096) by lia.
  assert (Hl : length (F <$> seqZ (ofs + Z.min d rd0) pr) = Z.to_nat pr) by by rewrite length_fmap, length_seqZ.
  split; [|split].
  - unfold bs. rewrite length_app, Hl, length_replicate. lia.
  - apply Forall_app. split.
    + apply Forall_fmap, Forall_forall. intros k _. apply HF.
    + apply Forall_replicate. lia.
  - intros k Hk. unfold bs, image. destruct (Z.ltb_spec (d + k) rd0).
    + rewrite lookup_app_l by lia. rewrite list_lookup_fmap.
      rewrite (proj2 (lookup_seqZ _ _ _ (ofs + Z.min d rd0 + k))) by lia. cbn. do 2 f_equal. lia.
    + rewrite lookup_app_r by lia. rewrite Hl. apply lookup_replicate_2. lia.
Qed.

(** One page. *)
Lemma load_page_ok n l s :
  seg_inv n l s →
  ∃ r s', load_page init_pd ram fp writable l s = Ok (r, s') ∧
    match r with inl l' => ∃ n', (n' < n)%nat ∧ seg_inv n' l' s' | inr b => seg_post b s' end.
Proof.
  destruct l as [[r z] up]. intros (w & d & HL & HD & Hd & Hdm & -> & Hr & Hz & Hn & Hlen).
  assert (Hlmax : i.(data).(length_) < 2147483648) by (destruct (ap_fits _ _ _ _ _ (ld_pos _ _ _ HL)); lia).
  unfold load_page.
  destruct (Z.eqb_spec d total) as [->|Hne].
  { rewrite (proj2 (Z.ltb_ge 0 r)), (proj2 (Z.ltb_ge 0 z)) by lia. eexists _, s. split; [done|].
    exists w, (ofs + Z.min total rd0). split; [done|]. split; [done|]. lia. }
  assert (Hlt : d + 4096 <= total) by zdm.
  assert (Hor : (0 <? r) || (0 <? z) = true).
  { destruct (Z.ltb_spec 0 r); [done|]. apply Z.ltb_lt. lia. }
  rewrite Hor. change PGSIZE with 4096.
  set (pr := if r <? 4096 then r else 4096).
  assert (Hpr : pr = Z.min (Z.max 0 (rd0 - d)) 4096) by (unfold pr; destruct (Z.ltb_spec r 4096); lia).
  clearbody pr. cbv zeta.
  assert (Hfail : ∀ t, seg_fails t → (∃ w p, loading t p w) → seg_done d t → seg_post false t).
  { intros t Hf (w' & p' & Hl') Hd'. exists w', p'. split; [done|]. split; [done|]. exists d. split; [lia|done]. }
  destruct (take_page_ok s.(l_pg).(palloc) PAL_USER (as_pools _ _ _ (ld_as _ _ _ HL)) eq_refl eq_refl) as
    [(s1 & kp & E & T & Hm)|[Hfull E]].
  2:{ rewrite (run_in_pg _ _ s NULL s.(l_pg)); [|unfold use_palloc; rewrite E; by destruct s.(l_pg)].
      rewrite Z.eqb_refl. eexists _, _. split; [done|]. destruct s as [f g pd]. apply Hfail; eauto.
      right. right. by left. }
  rewrite (run_in_pg _ _ s kp (mk_pgst s1 s.(l_pg).(cr3) s.(l_pg).(flushes)))
    by (unfold use_palloc; by rewrite E).
  pose proof (tk_page _ _ _ T) as [Hkr _]. unfold PHYS_BASE in Hkr. rewrite (proj2 (Z.eqb_neq kp NULL)) by lia.
  destruct (read_ok s _ w pr HL ltac:(lia) ltac:(lia)) as (f & Er & HL').
  rewrite (run_in_fs _ _ (mk_lst s.(l_fs) _ _) _ _ Er). cbn [l_fs l_pg l_pagedir].
  rewrite length_fmap, length_seqZ, Z2Nat.id by (unfold avail; lia).
  destruct (Z.eqb_spec (avail i pr (ofs + Z.min d rd0)) pr) as [Ea|Ea]; cbn [negb].
  2:{ destruct (give_back_ok s _ w f s.(l_pg).(flushes) _ s1 kp HL HL' T) as (s3 & E3 & HL3 & Hs3 & _).
      rewrite (run_in_pg _ _ _ tt (mk_pgst s3 s.(l_pg).(cr3) s.(l_pg).(flushes)))
        by (unfold use_palloc; cbn [l_pg palloc]; by rewrite E3).
      eexists _, _. split; [done|]. apply Hfail; [left; unfold avail in Ea; lia|eauto|by eapply seg_done_user]. }
  rewrite Ea in *. destruct (page_bytes d ltac:(lia)) as (B1 & B2 & B3). rewrite <-Hpr in B1, B2, B3.
  set (bs := (F <$> _) ++ _) in *.
  rewrite (run_in_pg (fill_page kp bs) _ _ tt
    (mk_pgst (with_pmem (<[kp := words_of 1024 bs]> s1.(pmem)) s1) s.(l_pg).(cr3) s.(l_pg).(flushes))) by done.
  cbn [l_fs l_pg l_pagedir]. pose proof (taken_store _ _ _ (words_of 1024 bs) T) as T2.
  assert (Hva : user_va (up0 + d)) by (unfold user_va, PHYS_BASE in *; lia).
  destruct (install_ok s _ w f _ s.(l_pg).(flushes) _ kp (words_of 1024 bs) bs (up0 + d) writable HL HL' T2)
    as [(s' & w' & Ei & HL2 & Hadd)|[Hwhy Ei]];
    [exact (tk_mem _ _ _ T _)|apply length_words_of|intros; by apply page_byte_words|done|zdm|..].
  - rewrite (run_bind _ _ _ _ _ Ei). cbn [negb]. eexists _, s'. split; [done|].
    exists (Z.to_nat ((total - (d + 4096)) / 4096)). split; [zdm|].
    exists w', (d + 4096). unfold PHYS_BASE in Hhigh. rewrite !u32_small by lia. split.
    { by replace (ofs + Z.min (d + 4096) rd0) with (ofs + Z.min d rd0 + pr) by lia. }
    split; [apply (seg_done_next d s s' bs); (done || lia)|]. unfold avail in Ea. repeat (split; [zdm|]). lia.
  - rewrite (run_bind _ _ _ _ _ Ei). cbn [negb].
    destruct (give_back_ok s _ w f s.(l_pg).(flushes) _ _ kp HL HL' T2) as (s3 & E3 & HL3 & Hs3 & Hk3).
    rewrite (run_in_pg _ _ _ tt (mk_pgst s3 s.(l_pg).(cr3) s.(l_pg).(flushes)))
      by (unfold use_palloc; cbn [l_pg palloc]; by rewrite E3).
    eexists _, _. split; [done|]. apply Hfail; [|eauto|by eapply seg_done_user].
    right. destruct Hwhy as [Hmap|Hfull]; [left|right; right].
    + exists (up0 + d). destruct HD as (_ & _ & _ & HD). destruct (HD _ Hva) as [Eu _].
      unfold in_seg in Eu. rewrite (proj2 (Z.ltb_ge (up0 + d) (up0 + d))), andb_false_r in Eu by lia.
      rewrite <-Eu. split; [|done]. unfold in_seg. apply andb_true_intro. rewrite Z.leb_le, Z.ltb_lt. lia.
    + unfold kernel_pool_full in *. cbn [l_pg palloc]. by rewrite Hk3.
Qed.

Lemma load_segment_ok p w :
  loading s0 p w → ofs mod 4096 = 0 →
  ∃ b s', load_segment init_pd ram fp ofs up0 rd0 (total - rd0) writable s0 = Ok (b, s') ∧ seg_post b s'.
Proof.
  intros HL Hom. unfold load_segment. unfold PHYS_BASE in Hhigh. change PGSIZE with 4096.
  replace (rd0 + (total - rd0)) with total by lia. rewrite !u32_small by lia.
  rewrite !(run_lift _ _ _ tt); [|apply ASSERT_true, Z.eqb_eq..];
    [|rewrite Z.rem_mod_nonneg by lia; done|by rewrite pg_ofs_mod|done].
  destruct (seek_ok s0 p w ofs HL ltac:(lia)) as (f & E & HL'). rewrite (run_in_fs _ _ _ _ _ E).
  eapply (loop_st_total seg_inv seg_post); [apply load_page_ok| |apply Nat.lt_succ_diag_r].
  exists w, 0. replace (Z.min 0 rd0) with 0 by lia. rewrite Z.add_0_r. split; [done|]. split.
  - split; [done|]. split; [done|].
    assert (Hno : ∀ x, in_seg 0 x = false).
    { intros x. unfold in_seg. destruct (Z.leb_spec up0 x); [|done]. apply Z.ltb_ge. lia. }
    split; [intros x; by rewrite Hno|]. intros x _. rewrite Hno. done.
  - rewrite !Z.sub_0_r. do 6 (split; [done || lia|]). by left.
Qed.
End segment.

(** *** The address space only grows *)

Record grown (s s' : lst) : Prop := {
  gr_pd : s'.(l_pagedir) = s.(l_pagedir);
  gr_cr3 : s'.(l_pg).(cr3) = s.(l_pg).(cr3);
  gr_kept : ∀ x b, user_va x → ub s x = Some b → ub s' x = Some b ∧ uw s' x = uw s x;
  gr_null : ∀ x, 0 <= x < 4096 → ub s' x = ub s x }.

#[export] Instance grown_preorder : PreOrder grown.
Proof.
  split.
  - by intros s; split.
  - intros s1 s2 s3 [A1 A2 A3 A4] [B1 B2 B3 B4]. split; [congruence..| |].
    + intros x b Hx Hb. destruct (A3 x b Hx Hb) as [H1 H2]. destruct (B3 x b Hx H1). split; congruence.
    + intros x Hx. rewrite B4, A4 by done. done.
Qed.

Lemma grown_fs s f : grown s (mk_lst f s.(l_pg) s.(l_pagedir)).
Proof. by split. Qed.

Lemma user_low x : 0 <= x < 4096 → user_va x.
Proof. unfold user_va, PHYS_BASE. lia. Qed.

Lemma same_user_grown s s' : same_user s s' → grown s s'.
Proof.
  intros (S1 & S2 & S3). split; [done|done| |].
  - intros x b Hx Hb. destruct (S3 x Hx) as [-> ->]. done.
  - intros x Hx. apply S3. by apply user_low.
Qed.

Lemma seg_done_grown s0 ofs up0 rd0 wr d s :
  4096 <= up0 → seg_done s0 ofs up0 rd0 wr d s → grown s0 s.
Proof.
  intros Hup (D1 & D2 & D3 & D4). split; [done|done| |].
  - intros x b Hx Hb. destruct (D4 x Hx) as [E1 E2]. destruct (in_seg up0 d x) eqn:Ei; [|by rewrite E1, E2].
    rewrite (D3 x Ei) in Hb. done.
  - intros x Hx. destruct (D4 x (user_low x Hx)) as [-> _]. unfold in_seg.
    by rewrite (proj2 (Z.leb_gt up0 x)) by lia.
Qed.

(** *** A program header *)

Definition seg_valid (ph : Elf32_Phdr) : Prop :=
  ph.(p_offset) mod 4096 = ph.(p_vaddr) mod 4096 ∧ ph.(p_offset) <= i.(data).(length_) ∧
  ph.(p_filesz) <= ph.(p_memsz) ∧ ph.(p_memsz) ≠ 0 ∧ 4096 <= ph.(p_vaddr) ∧
  ph.(p_vaddr) + ph.(p_memsz) < PHYS_BASE.

Definition phdr_u32 (ph : Elf32_Phdr) : Prop :=
  is_u32 ph.(p_offset) ∧ is_u32 ph.(p_vaddr) ∧ is_u32 ph.(p_filesz) ∧ is_u32 ph.(p_memsz).

Lemma validate_segment_ok s p w ph :
  loading s p w → phdr_u32 ph →
  validate_segment ph fp s = Ok (bool_decide (seg_valid ph), s).
Proof.
  intros HL (U1 & U2 & U3 & U4).
  assert (Hlen : 0 <= i.(data).(length_) < 2147483648) by (destruct (ap_fits _ _ _ _ _ (ld_pos _ _ _ HL)); lia).
  unfold validate_segment. change (Z.land ?x PGMASK) with (pg_ofs x). rewrite !pg_ofs_mod.
  assert (Hno : ∀ s, ¬ seg_valid ph → (mret false : L bool) s = Ok (bool_decide (seg_valid ph), s)).
  { intros s1 H. by rewrite bool_decide_false. }
  destruct (Z.eqb_spec (ph.(p_offset) mod 4096) (ph.(p_vaddr) mod 4096)); cbn [negb];
    [|apply Hno; by intros (? & _)].
  rewrite (run_in_fs _ _ _ _ _ (length_ok _ _ _ HL)). replace (mk_lst _ _ _) with s by by destruct s.
  rewrite (u32_small (length_ _)) by lia.
  destruct (Z.ltb_spec i.(data).(length_) ph.(p_offset)); [apply Hno; unfold seg_valid; lia|].
  destruct (Z.ltb_spec ph.(p_memsz) ph.(p_filesz)); [apply Hno; unfold seg_valid; lia|].
  destruct (Z.eqb_spec ph.(p_memsz) 0); [apply Hno; unfold seg_valid; lia|].
  unfold is_user_vaddr, PHYS_BASE in *.
  destruct (Z.ltb_spec ph.(p_vaddr) 3221225472); cbn [negb]; [|apply Hno; unfold seg_valid, PHYS_BASE; lia].
  destruct (Z.ltb_spec (u32 (ph.(p_vaddr) + ph.(p_memsz))) 3221225472); cbn [negb];
    [|apply Hno; unfold seg_valid, PHYS_BASE; intros (_ & _ & _ & _ & _ & ?); rewrite u32_small in * by lia; lia].
  destruct (Z.ltb_spec (u32 (ph.(p_vaddr) + ph.(p_memsz))) ph.(p_vaddr));
    [apply Hno; unfold seg_valid, PHYS_BASE; intros (_ & _ & _ & _ & _ & ?); rewrite u32_small in * by lia; lia|].
  change PGSIZE with 4096. destruct (Z.ltb_spec ph.(p_vaddr) 4096); [apply Hno; unfold seg_valid; lia|].
  rewrite bool_decide_true; [done|]. unfold seg_valid, PHYS_BASE, u32 in *. do 5 (split; [done || lia|]). zdm.
Qed.

(** The bytes of the segment are in memory. *)
Definition seg_loaded (ph : Elf32_Phdr) (s : lst) : Prop :=
  ∀ k, 0 <= k < ph.(p_memsz) →
    ub s (ph.(p_vaddr) + k) = Some (if k <? ph.(p_filesz) then F (ph.(p_offset) + k) else 0) ∧
    uw s (ph.(p_vaddr) + k) = negb (Z.land ph.(p_flags) PF_W =? 0).

Lemma seg_loaded_grown ph s s' : 0 <= ph.(p_vaddr) → seg_valid ph → seg_loaded ph s → grown s s' → seg_loaded ph s'.
Proof.
  intros H0 (_ & _ & _ & _ & _ & Hv) Hl Hg k Hk. destruct (Hl k Hk) as [H1 H2].
  rewrite <-H2. apply (gr_kept _ _ Hg); [unfold user_va; lia|done].
Qed.

Lemma load_phdr_ok s p w ph :
  loading s p w → phdr_u32 ph →
  ∃ b s' p' w', load_phdr init_pd ram fp ph s = Ok (b, s') ∧ loading s' p' w' ∧ grown s s' ∧
    (b = true → seg_valid ph ∧ seg_loaded ph s' ∧
       (ph.(p_filesz) = 0 ∨ ph.(p_offset) + ph.(p_filesz) <= i.(data).(length_))).
Proof.
  intros HL HU. pose proof HU as (U1 & U2 & U3 & U4). unfold load_phdr.
  rewrite (run_bind _ _ _ _ _ (validate_segment_ok s p w ph HL HU)).
  case_bool_decide as Hv; [|by exists false, s, p, w].
  assert (Hlen : 0 <= i.(data).(length_) < 2147483648) by (destruct (ap_fits _ _ _ _ _ (ld_pos _ _ _ HL)); lia).
  pose proof Hv as (V1 & V2 & V3 & V4 & V5 & V6). unfold PHYS_BASE in V6.
  change (Z.land ?x PGMASK) with (pg_ofs x). change (Z.land ?x (u32 (Z.lnot PGMASK))) with (pg_round_down x).
  rewrite pg_ofs_mod, !pg_round_down_eq by lia. cbv zeta.
  set (po := ph.(p_vaddr) mod 4096) in *. assert (Hpo : 0 <= po < 4096) by (unfold po; zdm).
  set (total := (po + ph.(p_memsz) + 4095) / 4096 * 4096).
  assert (Hle : 4096 <= ph.(p_vaddr) - po ∧ (ph.(p_vaddr) - po) mod 4096 = 0) by (unfold po in *; zdm).
  assert (Htot : po + ph.(p_memsz) <= total ∧ total mod 4096 = 0 ∧ ph.(p_vaddr) - po + total <= 3221225472)
    by (unfold total, po in *; zdm).
  assert (HR : ROUND_UP (u32 (po + ph.(p_memsz))) PGSIZE = total).
  { unfold ROUND_UP. change PGSIZE with 4096. rewrite !(u32_small (po + _)) by lia. rewrite (u32_small (po + _ + _ - _)) by lia.
    replace (po + ph.(p_memsz) + 4096 - 1) with (po + ph.(p_memsz) + 4095) by lia. fold total. apply u32_small. lia. }
  rewrite HR. clearbody total.
  set (rd := if 0 <? ph.(p_filesz) then po + ph.(p_filesz) else 0).
  assert (Hrz : (if 0 <? ph.(p_filesz) then (u32 (po + ph.(p_filesz)), u32 (total - u32 (po + ph.(p_filesz))))
                 else (0, total)) = (rd, total - rd)).
  { unfold rd. destruct (0 <? ph.(p_filesz)); [|by rewrite Z.sub_0_r]. by rewrite !u32_small by lia. }
  rewrite Hrz. rewrite i32_small by lia.
  assert (Hrd : 0 <= rd <= total) by (unfold rd; destruct (0 <? ph.(p_filesz)); lia).
  assert (Hofs : 0 <= ph.(p_offset) - ph.(p_offset) mod 4096 < 2147483648) by zdm.
  destruct (load_segment_ok s (ph.(p_offset) - ph.(p_offset) mod 4096) (ph.(p_vaddr) - po) rd total
    (negb (Z.land ph.(p_flags) PF_W =? 0)) Hofs ltac:(lia) Hrd ltac:(lia) ltac:(lia) ltac:(unfold PHYS_BASE; lia) p w HL
    ltac:(zdm)) as (b & s' & E & w' & p' & HL' & Hb).
  exists b, s', p', w'. split; [done|]. split; [done|]. destruct b.
  - destruct Hb as [HD Hlen']. split; [eapply seg_done_grown, HD; lia|]. intros _. split; [done|]. split.
    + intros k Hk. destruct HD as (_ & _ & _ & HD).
      destruct (HD (ph.(p_vaddr) + k)) as [-> ->]; [unfold user_va, PHYS_BASE; lia|].
      unfold in_seg. rewrite (proj2 (Z.leb_le _ _)), (proj2 (Z.ltb_lt _ _)) by lia. cbn [andb]. split; [|done].
      f_equal. unfold image, rd. destruct (Z.ltb_spec 0 ph.(p_filesz)), (Z.ltb_spec k ph.(p_filesz)); try lia.
      * rewrite (proj2 (Z.ltb_lt _ _)) by lia. f_equal. lia.
      * by rewrite (proj2 (Z.ltb_ge _ _)) by lia.
      * by rewrite (proj2 (Z.ltb_ge _ _)) by lia.
    + unfold rd in Hlen'. destruct (Z.ltb_spec 0 ph.(p_filesz)); [right|left]; lia.
  - destruct Hb as (_ & d & _ & HD). split; [eapply seg_done_grown, HD; lia|done].
Qed.
(** *** The program headers *)

Lemma word_at_u32 bs k : Forall (λ b, is_u8 b) bs → is_u32 (word_at bs k).
Proof.
  intros H. unfold word_at. assert (H' : Forall (λ b, is_u8 b) (take 4 (drop k bs))) by by apply Forall_take, Forall_drop.
  destruct (take 4 (drop k bs)) as [|a [|b [|c [|d [|e l]]]]]; cbn [un32]; try lia.
  rewrite !Forall_cons in H'. lia.
Qed.

Definition phdr_at (a : Z) : Elf32_Phdr := phdr_of (F <$> seqZ a 32).

Lemma phdr_at_u32 a : phdr_u32 (phdr_at a).
Proof.
  assert (H : Forall (λ b, is_u8 b) (F <$> seqZ a 32)) by (apply Forall_fmap, Forall_forall; intros; apply HF).
  repeat split; by apply word_at_u32.
Qed.

(** What loading the program header at offset [a] of the file has made sure of. *)
Definition phdr_loaded (a : Z) (s : lst) : Prop :=
  0 <= a ∧ a + 32 <= i.(data).(length_) ∧
  let ph := phdr_at a in
  ph.(p_type) ≠ PT_DYNAMIC ∧ ph.(p_type) ≠ PT_INTERP ∧ ph.(p_type) ≠ PT_SHLIB ∧
  (ph.(p_type) = PT_LOAD → seg_valid ph ∧ seg_loaded ph s ∧
     (ph.(p_filesz) = 0 ∨ ph.(p_offset) + ph.(p_filesz) <= i.(data).(length_))).

Lemma phdr_loaded_grown a s s' : phdr_loaded a s → grown s s' → phdr_loaded a s'.
Proof.
  intros (A1 & A2 & A3 & A4 & A5 & A6) Hg. do 5 (split; [done|]). intros Ht.
  destruct (A6 Ht) as (B1 & B2 & B3). split; [done|]. split; [|done].
  eapply seg_loaded_grown; [|done..]. apply (phdr_at_u32 a).
Qed.

Section headers.
Context (s0 : lst) (phoff phnum : Z).

Definition phdrs_inv (n : nat) : Z * Z → lst → Prop := λ '(j, file_ofs) s,
  (∃ w p, loading s p w) ∧ grown s0 s ∧ 0 <= j <= phnum ∧ n = Z.to_nat (phnum - j) ∧
  file_ofs = i32 phoff + 32 * j ∧ ∀ j', 0 <= j' < j → phdr_loaded (i32 phoff + 32 * j') s.

Definition phdrs_post (b : bool) (s : lst) : Prop :=
  (∃ w p, loading s p w) ∧ grown s0 s ∧
  (b = true → ∀ j, 0 <= j < phnum → phdr_loaded (i32 phoff + 32 * j) s).

Lemma phdrs_next n j s s' w p :
  phdrs_inv n (j, i32 phoff + 32 * j) s → j < phnum → loading s' p w → grown s s' →
  phdr_loaded (i32 phoff + 32 * j) s' →
  ∃ n', (n' < n)%nat ∧ phdrs_inv n' (j + 1, i32 (i32 phoff + 32 * j + 32)) s'.
Proof.
  intros (_ & Hg & Hj & -> & _ & Hdone) Hlt HL' Hg' Hnew. exists (Z.to_nat (phnum - (j + 1))).
  split; [lia|]. split; [eauto|]. split; [by etrans|]. split; [lia|]. split; [done|].
  assert (Hlen : i.(data).(length_) < 2147483648) by (destruct (ap_fits _ _ _ _ _ (ld_pos _ _ _ HL')); lia).
  split; [destruct Hnew as (? & ? & _); rewrite i32_small by lia; lia|].
  intros j' Hj'. destruct (decide (j' = j)) as [->|]; [done|].
  eapply phdr_loaded_grown; [apply Hdone; lia|done].
Qed.

Lemma read_phdrs_ok p w :
  loading s0 p w → 0 <= phnum →
  ∃ b s', read_phdrs init_pd ram fp phoff phnum s0 = Ok (b, s') ∧ phdrs_post b s'.
Proof.
  intros HL0 Hn0. unfold read_phdrs.
  eapply (loop_st_total phdrs_inv phdrs_post); cycle 1.
  { split; [eauto|]. split; [done|]. split; [|split; [reflexivity|]]; [lia|]. split; [lia|]. intros; lia. }
  { rewrite Z.sub_0_r. apply Nat.lt_succ_diag_r. }
  intros n [j a] s HI. pose proof HI as ((w1 & p1 & HL) & Hg & Hj & Hn & -> & Hdone).
  assert (Hlen : 0 <= i.(data).(length_) < 2147483648) by (destruct (ap_fits _ _ _ _ _ (ld_pos _ _ _ HL)); lia).
  set (a := i32 phoff + 32 * j) in *. cbn beta iota.
  assert (Hfail : ∀ t w p, loading t p w → grown s t → phdrs_post false t).
  { intros t w' p' Ht Hgt. split; [eauto|]. split; [by etrans|done]. }
  destruct (Z.ltb_spec j phnum).
  2:{ eexists _, s. split; [done|]. split; [eauto|]. split; [done|]. intros _ j' Hj'. apply Hdone. lia. }
  destruct (Z.ltb_spec a 0); [eexists _, s; split; [done|]; by eapply Hfail|].
  rewrite (run_in_fs _ _ _ _ _ (length_ok _ _ _ HL)). replace (mk_lst _ _ _) with s by by destruct s.
  destruct (Z.ltb_spec i.(data).(length_) a); [eexists _, s; split; [done|]; by eapply Hfail|].
  destruct (seek_ok s p1 w1 a HL ltac:(lia)) as (f1 & E1 & HL1). rewrite (run_in_fs _ _ _ _ _ E1).
  destruct (read_ok _ a w1 PHDR_SIZE HL1 ltac:(lia) ltac:(done)) as (f2 & E2 & HL2).
  rewrite (run_in_fs _ _ _ _ _ E2). cbn [l_fs l_pg l_pagedir] in *. set (s2 := mk_lst f2 _ _) in *.
  assert (Hg2 : grown s s2) by apply grown_fs.
  rewrite length_fmap, length_seqZ, Z2Nat.id by (unfold avail, PHDR_SIZE; lia).
  destruct (Z.eqb_spec (avail i PHDR_SIZE a) PHDR_SIZE) as [Ea|Ea]; cbn [negb];
    [|eexists _, s2; split; [done|]; by eapply Hfail].
  rewrite Ea in *. change PHDR_SIZE with 32 in *. fold (phdr_at a). cbv zeta.
  assert (Hroom : a + 32 <= i.(data).(length_)) by (unfold avail in Ea; lia).
  destruct (_ || _) eqn:Et; [eexists _, s2; split; [done|]; by eapply Hfail|].
  apply orb_false_iff in Et as [Et Et3]. apply orb_false_iff in Et as [Et1 Et2].
  apply Z.eqb_neq in Et1, Et2, Et3.
  destruct (Z.eqb_spec (phdr_at a).(p_type) PT_LOAD) as [Et|Et].
  - destruct (load_phdr_ok s2 _ w1 (phdr_at a) HL2 (phdr_at_u32 a)) as (b & s3 & p3 & w3 & E3 & HL3 & Hg3 & Hb).
    rewrite (run_bind _ _ _ _ _ E3). destruct b; eexists _, s3; (split; [done|]).
    + eapply (phdrs_next n j s); [done|done|done|by etrans|]. split; [done|]. split; [done|]. do 3 (split; [done|]).
      intros _. by apply Hb.
    + eapply Hfail; [done|by etrans].
  - eexists _, s2. split; [done|]. eapply (phdrs_next n j s); [done..|]. split; [done|]. split; [done|].
    by do 3 (split; [done|]).
Qed.
End headers.

(** *** The stack *)

Lemma setup_stack_ok s p w :
  loading s p w →
  ∃ r s' w', setup_stack init_pd ram s = Ok (r, s') ∧ loading s' p w' ∧ grown s s' ∧
    match r with
    | Some esp => esp = PHYS_BASE ∧
        ∀ x, PHYS_BASE - 4096 <= x < PHYS_BASE → ub s x = None ∧ ub s' x = Some 0 ∧ uw s' x = true
    | None => is_Some (ub s (PHYS_BASE - 4096)) ∨ no_memory s'
    end.
Proof.
  intros HL. unfold setup_stack.
  destruct (take_page_ok s.(l_pg).(palloc) (PAL_USER + PAL_ZERO) (as_pools _ _ _ (ld_as _ _ _ HL)) eq_refl eq_refl) as
    [(s1 & kp & E & T & Hm)|[Hfull E]].
  2:{ rewrite (run_in_pg _ _ s NULL s.(l_pg)); [|unfold use_palloc; rewrite E; by destruct s.(l_pg)].
      rewrite Z.eqb_refl. destruct s as [f g pd]. exists None, (mk_lst f g pd), w. split; [done|]. split; [done|].
      split; [done|]. right. by left. }
  change (flag (PAL_USER + PAL_ZERO) PAL_ZERO) with true in Hm. cbv iota in Hm.
  rewrite (run_in_pg _ _ s kp (mk_pgst s1 s.(l_pg).(cr3) s.(l_pg).(flushes))) by (unfold use_palloc; by rewrite E).
  pose proof (tk_page _ _ _ T) as [Hkr _]. unfold PHYS_BASE in Hkr. rewrite (proj2 (Z.eqb_neq kp NULL)) by lia.
  assert (HL' : loading (mk_lst s.(l_fs) s.(l_pg) s.(l_pagedir)) p w) by by destruct s.
  destruct (install_ok s p w s.(l_fs) p s.(l_pg).(flushes) s1 kp (replicate 1024 0) (replicate 4096 0)
    (PHYS_BASE - PGSIZE) true HL HL' T Hm) as [(s' & w' & Ei & HL2 & A1 & A2 & A3 & A4)|[Hwhy Ei]];
    [apply length_replicate| |done|done|..].
  { intros k Hk. rewrite page_byte_zero by done. symmetry. apply lookup_replicate_2. lia. }
  - rewrite (run_bind _ _ _ _ _ Ei). exists (Some PHYS_BASE), s', w'. split; [done|]. split; [done|].
    change PGSIZE with 4096 in *. change (PHYS_BASE - 4096) with 3221221376 in *.
    change (3221221376 / 4096) with 786431 in *. split.
    + split; [done|done| |].
      * intros x b Hx Hb. destruct (A4 x Hx) as [-> ->].
        destruct (Z.eqb_spec (x / 4096) 786431) as [Ex|]; [|done]. rewrite (A3 x Ex) in Hb. done.
      * intros x Hx. destruct (A4 x (user_low x Hx)) as [-> _]. by rewrite (proj2 (Z.eqb_neq _ _)) by zdm.
    + split; [done|]. unfold PHYS_BASE. intros x Hx. assert (Ex : x / 4096 = 786431) by zdm.
      destruct (A4 x) as [-> ->]; [unfold user_va, PHYS_BASE; lia|]. split; [by apply A3|].
      rewrite Ex, Z.eqb_refl. split; [|done]. apply lookup_replicate_2. zdm.
  - rewrite (run_bind _ _ _ _ _ Ei). cbn [negb].
    destruct (give_back_ok s p w s.(l_fs) s.(l_pg).(flushes) p s1 kp HL HL' T) as (s3 & E3 & HL3 & Hs3 & Hk3).
    rewrite (run_in_pg _ _ _ tt (mk_pgst s3 s.(l_pg).(cr3) s.(l_pg).(flushes)))
      by (unfold use_palloc; cbn [l_pg palloc]; by rewrite E3).
    eexists None, _, w. split; [done|]. split; [done|]. split; [by apply same_user_grown|].
    destruct Hwhy as [H|H]; [by left|right; right]. unfold kernel_pool_full in *. cbn [l_pg palloc]. by rewrite Hk3.
Qed.
End loading.

(** ** Properties *)

(** The bytes of an inode's data, on the device. *)
Definition file_byte (f : fs) (i : inode) (k : Z) : Z := disk_byte f.(fs_device) (base i + k).

Lemma file_bytes_disk f i a n : disk_bytes f.(fs_device) (base i + a) n = file_byte f i <$> seqZ a n.
Proof.
  unfold disk_bytes, file_byte. apply list_eq. intros j. rewrite !list_lookup_fmap.
  destruct (decide (Z.of_nat j < n)) as [Hj|Hj].
  - rewrite (proj2 (lookup_seqZ 0 n j (Z.of_nat j))), (proj2 (lookup_seqZ a n j (a + Z.of_nat j))) by lia.
    cbn. by rewrite Z.add_assoc.
  - by rewrite !lookup_seqZ_ge by lia.
Qed.

Lemma loading_start init_pd ram fp ip i s p w :
  at_pos fp ip i s.(l_fs) p → as_wf s.(l_pg).(palloc) s.(l_pagedir) w → s.(l_pagedir) ≠ init_pd →
  ram_covers s.(l_pg).(palloc) ram → loading init_pd ram fp ip i (file_byte s.(l_fs) i) s p w.
Proof. intros. split; try done. intros a n. apply file_bytes_disk. Qed.

(** load() between opening and closing the file. *)
Lemma load_file_ok init_pd ram fp ip i s w :
  fp ≠ NULL → ip ≠ NULL → at_pos fp ip i s.(l_fs) 0 → (∀ k, is_u8 (file_byte s.(l_fs) i k)) →
  as_wf s.(l_pg).(palloc) s.(l_pagedir) w → s.(l_pagedir) ≠ init_pd → ram_covers s.(l_pg).(palloc) ram →
  let F := file_byte s.(l_fs) i in
  let eh := ehdr_of (F <$> seqZ 0 52) in
  ∃ r s', load_file init_pd ram fp s = Ok (r, s') ∧ grown s s' ∧
    (∃ w', as_wf s'.(l_pg).(palloc) s'.(l_pagedir) w' ∧ ram_covers s'.(l_pg).(palloc) ram) ∧
    match r with
    | None => True
    | Some (eip, esp) =>
        ehdr_ok eh = true ∧ eip = eh.(e_entry) ∧ esp = PHYS_BASE ∧
        (∀ j, 0 <= j < eh.(e_phnum) → phdr_loaded i F (i32 eh.(e_phoff) + 32 * j) s') ∧
        (∀ x, PHYS_BASE - 4096 <= x < PHYS_BASE →
           ubyte s'.(l_pg).(palloc).(pmem) s'.(l_pagedir) x = Some 0 ∧
           uwritable s'.(l_pg).(palloc).(pmem) s'.(l_pagedir) x = true)
    end.
Proof.
  intros Hfp Hip Hpos HF Has Hpd Hram F eh. unfold load_file.
  pose proof (loading_start _ _ _ _ _ _ _ _ Hpos Has Hpd Hram) as HL. fold F in HL, HF.
  assert (Hend : ∀ t p w, loading init_pd ram fp ip i F t p w →
    ∃ w', as_wf t.(l_pg).(palloc) t.(l_pagedir) w' ∧ ram_covers t.(l_pg).(palloc) ram).
  { intros t p' w' [_ _ A _ R]. by exists w'. }
  destruct (read_ok init_pd ram fp ip i Hip F s 0 w EHDR_SIZE HL ltac:(lia) ltac:(done)) as (f & E & HL1).
  rewrite (run_in_fs _ _ _ _ _ E). set (s1 := mk_lst f _ _) in *. pose proof (grown_fs s f) as G1. fold s1 in G1.
  rewrite length_fmap, length_seqZ, Z2Nat.id by (unfold avail, EHDR_SIZE; lia).
  destruct (Z.eqb_spec (avail i EHDR_SIZE 0) EHDR_SIZE) as [Ea|Ea]; cbn [negb];
    [|eexists None, s1; split; [done|]; split; [done|]; eauto].
  rewrite Ea in *. change EHDR_SIZE with 52 in *. fold eh. cbv zeta.
  destruct (ehdr_ok eh) eqn:Eh; cbn [negb]; [|eexists None, s1; split; [done|]; split; [done|]; eauto].
  assert (Hn : 0 <= eh.(e_phnum)).
  { unfold eh, ehdr_of, half_at. cbn [e_phnum]. set (bs := take 2 (drop 44 _)).
    assert (Fb : Forall (λ b, is_u8 b) bs).
    { apply Forall_take, Forall_drop, Forall_fmap, Forall_forall. intros; apply HF. }
    destruct bs as [|a [|b [|]]]; cbn [un16]; try lia. rewrite !Forall_cons in Fb. lia. }
  destruct (read_phdrs_ok init_pd ram fp ip i Hfp Hip F HF s1 eh.(e_phoff) eh.(e_phnum) _ _ HL1 Hn)
    as (b & s2 & E2 & (w2 & p2 & HL2) & G2 & Hb).
  rewrite (run_bind _ _ _ _ _ E2). destruct b.
  2:{ eexists None, s2. split; [done|]. split; [by etrans|]. eauto. }
  destruct (setup_stack_ok init_pd ram fp ip i F s2 p2 w2 HL2) as (r & s3 & w3 & E3 & HL3 & G3 & Hr).
  rewrite (run_bind _ _ _ _ _ E3). assert (G : grown s s3) by (etrans; [by etrans|done]).
  destruct r as [esp|]; [|eexists None, s3; split; [done|]; split; [done|]; eauto].
  destruct Hr as [-> Hst]. exists (Some (eh.(e_entry), PHYS_BASE)), s3. split; [done|]. split; [done|].
  split; [eauto|]. do 3 (split; [done|]). split.
  - intros j Hj. eapply phdr_loaded_grown; [apply HF|by apply Hb|done].
  - intros x Hx. by apply Hst.
Qed.


(** Loading a segment.  With READ_BYTES and ZERO_BYTES adding up to whole pages
    within user memory, load_segment() returns true exactly when the file holds
    the bytes to be read, none of the pages is mapped yet, and memory suffices;
    the pages then hold the bytes of the file from OFS on and zeros after them,
    with the protection asked for.  Otherwise it returns false, with the pages
    mapped so far in place.  Either way nothing else changes in user memory. *)
Theorem load_segment_exact init_pd ram fp ip i s p w ofs upage read_bytes zero_bytes writable :
  fp ≠ NULL → ip ≠ NULL → at_pos fp ip i s.(l_fs) p → (∀ k, is_u8 (file_byte s.(l_fs) i k)) →
  as_wf s.(l_pg).(palloc) s.(l_pagedir) w → s.(l_pagedir) ≠ init_pd → ram_covers s.(l_pg).(palloc) ram →
  0 <= ofs < 2147483648 → ofs mod 4096 = 0 → 0 <= upage → upage mod 4096 = 0 →
  0 <= read_bytes → 0 <= zero_bytes →
  (read_bytes + zero_bytes) mod 4096 = 0 → upage + (read_bytes + zero_bytes) <= PHYS_BASE →
  let F := file_byte s.(l_fs) i in
  let total := read_bytes + zero_bytes in
  let fits := read_bytes = 0 ∨ ofs + read_bytes <= i.(data).(length_) in
  let mapped x := is_Some (ubyte s.(l_pg).(palloc).(pmem) s.(l_pagedir) x) in
  ∃ b s' d, load_segment init_pd ram fp ofs upage read_bytes zero_bytes writable s = Ok (b, s') ∧
    seg_done F s ofs upage read_bytes writable d s' ∧
    if (b : bool) then d = total ∧ fits
    else 0 <= d < total ∧
      (¬ fits ∨ (∃ x, upage <= x < upage + total ∧ mapped x) ∨ no_memory s').
Proof.
  intros Hfp Hip Hpos HF Has Hpd Hram Hofs Ho Hup Hu Hr Hz Ht Hh F total fits mapped.
  pose proof (loading_start _ _ _ _ _ _ _ _ Hpos Has Hpd Hram) as HL.
  destruct (load_segment_ok init_pd ram fp ip i Hfp Hip F HF s ofs upage read_bytes total writable Hofs Hu
    ltac:(unfold total; lia) Ht Hup Hh p w HL Ho) as (b & s' & E & w' & p' & _ & Hb).
  replace (total - read_bytes) with zero_bytes in E by (unfold total; lia). exists b, s'. destruct b.
  - exists total. split; [done|]. split; [apply Hb|]. split; [done|]. apply Hb.
  - destruct Hb as (Hf & d & Hd & HD). exists d. split; [done|]. split; [done|]. split; [done|].
    destruct Hf as [Hf|[(x & Hx & Hm)|Hf]].
    + left. unfold fits. lia.
    + right. left. exists x. split; [|done]. unfold in_seg in Hx. apply andb_true_iff in Hx as [H1 H2].
      apply Z.leb_le in H1. apply Z.ltb_lt in H2. done.
    + by right; right.
Qed.

(** *** An executable

    88 bytes with one segment of four bytes, to be loaded at 0x08049054 and
    followed by zeros up to 5000 bytes. *)
Definition demo_elf : list Z :=
  [127; 69; 76; 70; 1; 1; 1; 0; 0; 0; 0; 0; 0; 0; 0; 0; 2; 0; 3; 0] ++ le32 1 ++ le32 134516820 ++ le32 52 ++
  le32 0 ++ le32 0 ++ [52; 0; 32; 0; 1; 0; 0; 0; 0; 0; 0; 0] ++
  le32 1 ++ le32 84 ++ le32 134516820 ++ le32 0 ++ le32 4 ++ le32 5000 ++ le32 6 ++ le32 4096 ++
  [42; 43; 44; 45].

Definition demo_exe : inode := mk_inode 5 1 false 0 (mk_inode_disk 10 88 0 []).
Definition demo_exe_fs : fs :=
  mk_fs (mk_block BLOCK_FILESYS 64 {[ 10 := demo_elf ++ replicate 424 0 ]} 0 0) (mk_bitmap 64 [0; 0]) NULL [1]
    {[ 1 := demo_exe ]} {[ 7 := mk_file 1 0 false ]} ∅ 2 [] (replicate 20 0).
Definition demo_lst : lst := mk_lst demo_exe_fs demo_xst.(pg) demo_pd.

Lemma demo_exe_at : at_pos 7 1 demo_exe demo_lst.(l_fs) 0.
Proof.
  split; [by exists false|done|done| |split; [set_solver|done]].
  split; [|done]. apply map_Forall_singleton. by vm_compute.
Qed.

Lemma demo_exe_u8 k : is_u8 (file_byte demo_lst.(l_fs) demo_exe k).
Proof.
  unfold file_byte, disk_byte. set (l := sector_at _ _). cut (Forall (λ b, is_u8 b) l).
  { intros Hl. destruct (l !! Z.to_nat ((base demo_exe + k) mod 512)) as [b|] eqn:E.
    - rewrite (list_lookup_total_correct _ _ _ E). exact (Forall_lookup_1 _ _ _ _ Hl E).
    - rewrite list_lookup_total_alt, E. done. }
  unfold l, sector_at. clear l. cbn [demo_lst l_fs demo_exe_fs fs_device sectors].
  destruct (decide ((base demo_exe + k) / 512 = 10)) as [->|Hn].
  - rewrite lookup_singleton_eq. cbn [default]. apply Forall_app. split.
    + unfold demo_elf. apply (bool_decide_unpack _). by vm_compute.
    + by apply Forall_replicate.
  - rewrite lookup_singleton_ne by done. by apply Forall_replicate.
Qed.

Lemma demo_load_starts : fst <$> load_file 0 4096 7 demo_lst = Ok (Some (134516820, PHYS_BASE)).
Proof. by vm_compute. Qed.

Lemma demo_ehdr :
  let eh := ehdr_of (file_byte demo_lst.(l_fs) demo_exe <$> seqZ 0 52) in
  eh.(e_phnum) = 1 ∧ i32 eh.(e_phoff) + 32 * 0 = 52.
Proof. by vm_compute. Qed.

Lemma demo_phdr :
  phdr_at (file_byte demo_lst.(l_fs) demo_exe) 52 = mk_phdr 1 84 134516820 0 4 5000 6 4096.
Proof. by vm_compute. Qed.

Lemma demo_bytes :
  file_byte demo_lst.(l_fs) demo_exe 85 = 43 ∧ file_byte demo_lst.(l_fs) demo_exe 87 = 45 ∧
  ubyte demo_lst.(l_pg).(palloc).(pmem) demo_lst.(l_pagedir) 134512642 = Some 3.
Proof. by vm_compute. Qed.


(** The segment of the executable at a fresh place, and on top of the page that
    is mapped already. *)
Lemma load_segment_exact_witness :
  (∃ s', load_segment 0 4096 7 0 134516736 88 8104 false demo_lst = Ok (true, s') ∧
     ubyte s'.(l_pg).(palloc).(pmem) s'.(l_pagedir) 134516823 = Some 45) ∧
  fst <$> load_segment 0 4096 7 0 134512640 88 8104 false demo_lst = Ok false.
Proof.
  split; [|by vm_compute].
  destruct (load_segment_exact 0 4096 7 1 demo_exe demo_lst 0 demo_words 0 134516736 88 8104 false)
    as (b & s' & d & E & (_ & _ & _ & HD) & Hb);
    [done|done|apply demo_exe_at|apply demo_exe_u8|apply demo_as_wf|done|apply demo_ram|done..|].
  assert (Et : fst <$> load_segment 0 4096 7 0 134516736 88 8104 false demo_lst = Ok true) by by vm_compute.
  rewrite E in Et. cbn [fmap outcome_fmap mbind outcome_bind fst] in Et.
  injection Et as ->. destruct Hb as [-> _]. exists s'. split; [exact E|].
  destruct (HD 134516823) as [H _]; [unfold user_va, PHYS_BASE; lia|]. rewrite H.
  change (in_seg _ _ _) with true. cbv iota. exact (f_equal Some (proj1 (proj2 demo_bytes))).
Defined.
