(* ===== verification/Syscall.v ===== *)
(** * System calls: userprog/syscall.c

    The state of one process in the kernel: the file system, the process's user
    memory behind the interface of UserMem.v, its file descriptors, what has
    been written to the console and the keys still to be read.  The list of file
    descriptors is the sequence of its entries, which list.c implements
    (LinkedList.v); [None] is the null pointer a thread starts with.

    A system call ends normally, or ends the thread, or turns the machine off.
    Reading a word of the caller's stack is reading its four bytes.  The loop of
    check_valid_string() has no bound of its own; it runs under the fuel
    [max_string].  Starting a process and yielding the processor act on other
    parts of the kernel and are parameters here.  The message for an unknown
    system call number is left out.  The examples run on the user memory of
    Exception.v. *)

From S2P Require Import Prelude Vaddr UserMem Bitmap Palloc Pagedir Exception.
From S2P Require Import FsState InodeIO FreeMap Inode File Directory Filesys FsFrame.

Open Scope Z_scope.

(** ** Definitions *)

Record file_descriptor := mk_fd { fd_no : Z; fd_file : Z }.

Record sys (US : Type) := mk_sys {
  fsys : fs;
  umem : US;
  fd_list : option (list Z);
  next_fd : Z;
  fd_entries : gmap Z file_descriptor;
  console : list Z;
  keys : list Z }.
Arguments mk_sys {US}.
Arguments fsys {US}. Arguments umem {US}. Arguments fd_list {US}. Arguments next_fd {US}.
Arguments fd_entries {US}. Arguments console {US}. Arguments keys {US}.

Inductive ending := Exited | Halted.

(** Code of a system call: it may end before it returns. *)
Definition Y (US A : Type) : Type := sys US → outcome ((A + ending) * sys US).

#[export] Instance Y_ret {US} : MRet (Y US) := λ A a s, Ok (inl a, s).
#[export] Instance Y_bind {US} : MBind (Y US) := λ A B f m s,
  match m s with
  | Ok (inl a, s') => f a s'
  | Ok (inr e, s') => Ok (inr e, s')
  | Panic => Panic | Wild => Wild | NoFuel => NoFuel
  end.

Definition STDIN_FILENO : Z := 0.
Definition STDOUT_FILENO : Z := 1.

Section syscall.
Context {US : Type} `{UM : UserMem US}.
Context (max_string : nat) (process_execute : list Z → Y US Z) (thread_yield : Y US unit).

Abbreviation S := (sys US).
Abbreviation K := (Y US).

Definition look {A} (f : S → A) : K A := λ s, Ok (inl (f s), s).
Definition pure {A} (m : outcome A) : K A := λ s, a ← m; Ok (inl a, s).

(** Calling the file system. *)
Definition on_fs {A} (m : M A) : K A := λ s,
  match m s.(fsys) with
  | Ok (a, f) => Ok (inl a, mk_sys f s.(umem) s.(fd_list) s.(next_fd) s.(fd_entries) s.(console) s.(keys))
  | Panic => Panic | Wild => Wild | NoFuel => NoFuel
  end.

(** Accessing user memory: [None] has ended the thread. *)
Definition on_user {A} (m : st US (option A)) : K A := λ s,
  match m s.(umem) with
  | Ok (Some a, u) => Ok (inl a, mk_sys s.(fsys) u s.(fd_list) s.(next_fd) s.(fd_entries) s.(console) s.(keys))
  | Ok (None, u) => Ok (inr Exited, mk_sys s.(fsys) u s.(fd_list) s.(next_fd) s.(fd_entries) s.(console) s.(keys))
  | Panic => Panic | Wild => Wild | NoFuel => NoFuel
  end.

Definition set_fds (l : option (list Z)) (n : Z) (e : gmap Z file_descriptor) : K unit := λ s,
  Ok (inl tt, mk_sys s.(fsys) s.(umem) l n e s.(console) s.(keys)).

Definition putbuf (bs : list Z) : K unit := λ s,
  Ok (inl tt, mk_sys s.(fsys) s.(umem) s.(fd_list) s.(next_fd) s.(fd_entries) (s.(console) ++ bs) s.(keys)).

(** input_getc(): with no key left to come, it waits for ever. *)
Definition input_getc : K Z := λ s,
  match s.(keys) with
  | [] => NoFuel
  | k :: ks => Ok (inl k, mk_sys s.(fsys) s.(umem) s.(fd_list) s.(next_fd) s.(fd_entries) s.(console) ks)
  end.

Definition uget (uaddr : Z) : K Z := on_user (um_get_user (u32 uaddr)).
Definition uput (udst byte : Z) : K bool := on_user (um_put_user (u32 udst) byte).

(** malloc (SIZE) for a buffer. *)
Definition malloc_buf (size : Z) : K Z := if size =? 0 then mret NULL else on_fs malloc.

(** sys_exit(): the exit status goes nowhere. *)
Definition sys_exit {A} (status : Z) : K A := λ s, Ok (inr Exited, s).

Definition sys_halt : K unit := λ s, Ok (inr Halted, s).

Definition check_valid_ptr (ptr : Z) : K unit :=
  if (ptr =? NULL) || negb (is_user_vaddr ptr) then sys_exit (-1)
  else b ← uget ptr; if b =? -1 then sys_exit (-1) else mret tt.

Definition check_valid_buffer (buffer size : Z) : K unit :=
  check_valid_ptr buffer;;
  if 0 <? size then check_valid_ptr (u32 (buffer + size - 1)) else mret tt.

Fixpoint check_string (fuel : nat) (str : Z) : K unit :=
  match fuel with
  | O => λ _, NoFuel
  | Datatypes.S n =>
      byte ← uget str;
      if byte =? -1 then sys_exit (-1)
      else if byte =? 0 then mret tt
      else check_string n (u32 (str + 1))
  end.

Definition check_valid_string (str : Z) : K unit :=
  check_valid_ptr str;; check_string max_string str.

(** The loop of copy_in_string(): the bytes copied, [n] at most. *)
Fixpoint copy_in_loop (n : nat) (src : Z) : K (list Z) :=
  match n with
  | O => mret []
  | Datatypes.S n =>
      value ← uget src;
      if value =? -1 then sys_exit (-1)
      else if value =? 0 then mret [0]
      else rest ← copy_in_loop n (src + 1); mret (value :: rest)
  end.

(** copy_in_string() into a buffer of MAX_LEN bytes: the string the buffer then
    holds, without its terminator. *)
Definition copy_in_string (src max_len : Z) : K (list Z) :=
  bs ← copy_in_loop (Z.to_nat max_len) src;
  let bs := if Z.of_nat (length bs) =? max_len then take (Z.to_nat max_len - 1) bs ++ [0] else bs in
  pure (c_str bs).

Definition get_entry (p : Z) : K file_descriptor := e ← look fd_entries; pure (deref (e !! p)).

(** allocate_fd(): when the list cannot be allocated, the code frees a pointer
    that it has not set. *)
Definition allocate_fd (file : Z) : K Z :=
  l ← look fd_list;
  (match l with
   | Some _ => mret tt
   | None =>
       p ← on_fs malloc;
       if p =? NULL then pure Wild
       else n ← look next_fd; e ← look fd_entries; set_fds (Some []) n e
   end);;
  p ← on_fs malloc;
  if p =? NULL then mret (-1)
  else
    n ← look next_fd;
    e ← look fd_entries;
    l ← look fd_list;
    set_fds (Some (default [] l ++ [p])) (i32 (n + 1)) (<[p := mk_fd n file]> e);;
    mret n.

Fixpoint find_in (l : list Z) (fd : Z) : K (option Z) :=
  match l with
  | [] => mret None
  | p :: l => e ← get_entry p; if e.(fd_no) =? fd then mret (Some p) else find_in l fd
  end.

(** find_fd(): the file of the entry, or [None]. *)
Definition find_fd (fd : Z) : K (option Z) :=
  l ← look fd_list;
  match l with
  | None => mret None
  | Some l =>
      r ← find_in l fd;
      match r with
      | None => mret None
      | Some p => e ← get_entry p; mret (Some e.(fd_file))
      end
  end.

Definition remove_entry (p : Z) : K unit :=
  l ← look fd_list; n ← look next_fd; e ← look fd_entries;
  set_fds (Some (filter (λ q, q ≠ p) (default [] l))) n (delete p e).

Definition close_fd (fd : Z) : K unit :=
  l ← look fd_list;
  match l with
  | None => mret tt
  | Some l =>
      r ← find_in l fd;
      match r with
      | None => mret tt
      | Some p => e ← get_entry p; on_fs (file_close e.(fd_file));; remove_entry p
      end
  end.

Fixpoint close_entries (l : list Z) : K unit :=
  match l with
  | [] => mret tt
  | p :: l => e ← get_entry p; on_fs (file_close e.(fd_file));; remove_entry p;; close_entries l
  end.

Definition close_all_fds : K unit :=
  l ← look fd_list;
  match l with None => mret tt | Some l => close_entries l end.

(** *** The calls *)

Definition sys_exec (cmd_line : Z) : K Z :=
  command_copy ← copy_in_string cmd_line 128;
  child_tid ← process_execute command_copy;
  if child_tid =? -1 then mret (-1) else mret child_tid.

Fixpoint yield_times (n : nat) : K unit :=
  match n with O => mret tt | Datatypes.S n => thread_yield;; yield_times n end.

Definition process_wait (child_tid : Z) : K Z := yield_times 1000;; mret 0.

Definition sys_wait (pid : Z) : K Z := process_wait pid.

Definition sys_create (file initial_size : Z) : K bool :=
  file_copy ← copy_in_string file 128;
  on_fs (filesys_create file_copy (i32 initial_size)).

Definition sys_remove (file : Z) : K bool :=
  file_copy ← copy_in_string file 128;
  on_fs (filesys_remove file_copy).

Definition sys_open (file : Z) : K Z :=
  file_copy ← copy_in_string file 128;
  file_ptr ← on_fs (filesys_open file_copy);
  if file_ptr =? NULL then mret (-1)
  else
    fd ← allocate_fd file_ptr;
    if fd =? -1 then on_fs (file_close file_ptr);; mret (-1)
    else mret fd.

Definition sys_filesize (fd : Z) : K Z :=
  e ← find_fd fd;
  match e with None => mret (-1) | Some file => on_fs (file_length file) end.

(** Storing bytes at consecutive user addresses. *)
Fixpoint store_out (udst : Z) (bs : list Z) : K unit :=
  match bs with
  | [] => mret tt
  | b :: bs =>
      ok ← uput udst b;
      if negb ok then sys_exit (-1) else store_out (udst + 1) bs
  end.

Fixpoint read_keys (n : nat) (buf : Z) : K unit :=
  match n with
  | O => mret tt
  | Datatypes.S n =>
      c ← input_getc;
      ok ← uput buf c;
      if negb ok then sys_exit (-1) else read_keys n (buf + 1)
  end.

Definition sys_read (fd buffer size : Z) : K Z :=
  if fd =? STDIN_FILENO then read_keys (Z.to_nat size) buffer;; mret (i32 size)
  else
    e ← find_fd fd;
    match e with
    | None => mret (-1)
    | Some file =>
        kern_buf ← malloc_buf size;
        if kern_buf =? NULL then mret (-1)
        else
          bs ← on_fs (file_read file (i32 size));
          store_out buffer bs;;
          mret (Z.of_nat (length bs))
    end.

(** Fetching [n] bytes from consecutive user addresses. *)
Fixpoint fetch (n : nat) (buf : Z) : K (list Z) :=
  match n with
  | O => mret []
  | Datatypes.S n =>
      value ← uget buf;
      if value =? -1 then sys_exit (-1)
      else rest ← fetch n (buf + 1); mret (value :: rest)
  end.

(** The console loop of sys_write(), in chunks of 256 bytes; there are no more
    chunks than bytes. *)
Fixpoint write_chunks (fuel : nat) (buf bytes_to_write : Z) : K unit :=
  if 0 <? bytes_to_write then
    match fuel with
    | O => λ _, NoFuel
    | Datatypes.S n =>
        let chunk_size := if bytes_to_write <? 256 then bytes_to_write else 256 in
        chunk ← fetch (Z.to_nat chunk_size) buf;
        putbuf chunk;;
        write_chunks n (buf + chunk_size) (bytes_to_write - chunk_size)
    end
  else mret tt.

Definition sys_write (fd buffer size : Z) : K Z :=
  if fd =? STDOUT_FILENO then write_chunks (Z.to_nat size) buffer size;; mret (i32 size)
  else
    e ← find_fd fd;
    match e with
    | None => mret (-1)
    | Some file =>
        kern_buf ← malloc_buf size;
        if kern_buf =? NULL then mret (-1)
        else
          bs ← fetch (Z.to_nat size) buffer;
          on_fs (file_write file bs (i32 size))
    end.

Definition sys_seek (fd position : Z) : K unit :=
  e ← find_fd fd;
  match e with None => mret tt | Some file => on_fs (file_seek file (i32 position)) end.

Definition sys_tell (fd : Z) : K Z :=
  e ← find_fd fd;
  match e with None => mret 0 | Some file => on_fs (file_tell file) end.

Definition sys_close (fd : Z) : K unit := close_fd fd.

(** *** The handler *)

(** A word of user memory. *)
Definition user_word (a : Z) : K Z := bs ← fetch 4 a; mret (un32 bs).

(** args[i], after check_valid_ptr (args + i). *)
Definition arg (args i : Z) : K unit := check_valid_ptr (u32 (args + 4 * i)).
Definition argw (args i : Z) : K Z := user_word (args + 4 * i).

Definition bool_word (b : bool) : Z := if b then 1 else 0.

(** syscall_handler(): the new value of f->eax when the call sets it. *)
Definition syscall_handler (esp : Z) : K (option Z) :=
  let args := esp in
  check_valid_ptr args;;
  number ← argw args 0;
  match i32 number with
  | 0 => sys_halt;; mret None
  | 1 => arg args 1;; a ← argw args 1; sys_exit (i32 a)
  | 2 => arg args 1;; a ← argw args 1; check_valid_string a;; r ← sys_exec a; mret (Some (u32 r))
  | 3 => arg args 1;; a ← argw args 1; r ← sys_wait (i32 a); mret (Some (u32 r))
  | 4 => arg args 1;; arg args 2;; a ← argw args 1; check_valid_string a;;
         b ← argw args 2; r ← sys_create a b; mret (Some (bool_word r))
  | 5 => arg args 1;; a ← argw args 1; check_valid_string a;; r ← sys_remove a; mret (Some (bool_word r))
  | 6 => arg args 1;; a ← argw args 1; check_valid_string a;; r ← sys_open a; mret (Some (u32 r))
  | 7 => arg args 1;; a ← argw args 1; r ← sys_filesize (i32 a); mret (Some (u32 r))
  | 8 => arg args 1;; arg args 2;; arg args 3;; b ← argw args 2; c ← argw args 3;
         check_valid_buffer b c;; a ← argw args 1; r ← sys_read (i32 a) b c; mret (Some (u32 r))
  | 9 => arg args 1;; arg args 2;; arg args 3;; b ← argw args 2; c ← argw args 3;
         check_valid_buffer b c;; a ← argw args 1; r ← sys_write (i32 a) b c; mret (Some (u32 r))
  | 10 => arg args 1;; arg args 2;; a ← argw args 1; b ← argw args 2; sys_seek (i32 a) b;; mret None
  | 11 => arg args 1;; a ← argw args 1; r ← sys_tell (i32 a); mret (Some (u32 r))
  | 12 => arg args 1;; a ← argw args 1; sys_close (i32 a);; mret None
  | _ => sys_exit (-1)
  end.
End syscall.

(** ** Running a system call *)

Lemma run_Y {US A B} (m : Y US A) (f : A → Y US B) s a s' :
  m s = Ok (inl a, s') → (m ≫= f) s = f a s'.
Proof. intros E. unfold mbind, Y_bind. by rewrite E. Qed.

Lemma run_look {US A B} (g : sys US → A) (f : A → Y US B) s : (look g ≫= f) s = f (g s) s.
Proof. done. Qed.

Lemma run_pure {US A B} (m : outcome A) (f : A → Y US B) s a :
  m = Ok a → (pure m ≫= f) s = f a s.
Proof. by intros ->. Qed.

Definition with_fsys {US} (f : fs) (s : sys US) : sys US :=
  mk_sys f s.(umem) s.(fd_list) s.(next_fd) s.(fd_entries) s.(console) s.(keys).
Definition with_umem {US} (u : US) (s : sys US) : sys US :=
  mk_sys s.(fsys) u s.(fd_list) s.(next_fd) s.(fd_entries) s.(console) s.(keys).

Lemma run_fs {US A B} (m : M A) (f : A → Y US B) s a g :
  m s.(fsys) = Ok (a, g) → (on_fs m ≫= f) s = f a (with_fsys g s).
Proof. intros E. apply run_Y. unfold on_fs. by rewrite E. Qed.

Lemma on_fs_ok {US A} (m : M A) (s : sys US) a g :
  m s.(fsys) = Ok (a, g) → on_fs m s = Ok (inl a, with_fsys g s).
Proof. intros E. unfold on_fs. by rewrite E. Qed.

(** ** The file descriptor table

    The specification is a finite map from descriptors to open files. *)

Definition fds_of (l : list Z) (e : gmap Z file_descriptor) : list (Z * Z) :=
  omap (λ p, (λ d, (d.(fd_no), d.(fd_file))) <$> e !! p) l.

Definition fd_table {US} (s : sys US) : gmap Z Z :=
  list_to_map (fds_of (default [] s.(fd_list)) s.(fd_entries)).

(** The entries are distinct, exist, and have distinct numbers between 2 and
    the next one to be given out. *)
Record fd_wf {US} (s : sys US) : Prop := {
  fw_nodup : NoDup (default [] s.(fd_list));
  fw_entry : ∀ p, p ∈ default [] s.(fd_list) → ∃ d, s.(fd_entries) !! p = Some d ∧ 2 <= d.(fd_no) < s.(next_fd);
  fw_distinct : NoDup (fds_of (default [] s.(fd_list)) s.(fd_entries)).*1;
  fw_next : 2 <= s.(next_fd) }.

(** The entries were allocated. *)
Definition fd_alloc {US} (s : sys US) : Prop :=
  0 < s.(fsys).(brk) ∧ ∀ p, p ∈ default [] s.(fd_list) → 0 < p < s.(fsys).(brk).

Lemma fds_of_cons p l e d :
  e !! p = Some d → fds_of (p :: l) e = (d.(fd_no), d.(fd_file)) :: fds_of l e.
Proof. intros E. unfold fds_of. cbn. by rewrite E. Qed.

Lemma fds_of_app l l' e : fds_of (l ++ l') e = fds_of l e ++ fds_of l' e.
Proof. apply omap_app. Qed.

Lemma fds_of_ext l e e' : (∀ p, p ∈ l → e !! p = e' !! p) → fds_of l e = fds_of l e'.
Proof.
  induction l as [|p l IH]; intros H; [done|]. unfold fds_of in *. cbn.
  rewrite (H p) by apply list_elem_of_here. rewrite IH; [done|].
  intros q Hq. apply H. by apply list_elem_of_further.
Qed.

Lemma get_entry_ok {US} (s : sys US) p d :
  s.(fd_entries) !! p = Some d → get_entry p s = Ok (inl d, s).
Proof. intros E. unfold get_entry. rewrite run_look. unfold pure. by rewrite E. Qed.

(** Looking for a descriptor along the list. *)
Lemma find_in_ok {US} (s : sys US) l fd :
  (∀ p, p ∈ l → is_Some (s.(fd_entries) !! p)) →
  (∃ l1 p l2 d, l = l1 ++ p :: l2 ∧ s.(fd_entries) !! p = Some d ∧ d.(fd_no) = fd ∧
     find_in l fd s = Ok (inl (Some p), s) ∧
     (list_to_map (fds_of l s.(fd_entries)) : gmap Z Z) !! fd = Some d.(fd_file)) ∨
  (fd ∉ (fds_of l s.(fd_entries)).*1 ∧ find_in l fd s = Ok (inl None, s) ∧
     (list_to_map (fds_of l s.(fd_entries)) : gmap Z Z) !! fd = None).
Proof.
  induction l as [|p l IH]; intros Hl.
  - right. split; [apply not_elem_of_nil|done].
  - destruct (Hl p ltac:(apply list_elem_of_here)) as [d Hd].
    cbn [find_in]. rewrite (run_Y _ _ _ _ _ (get_entry_ok s p d Hd)). rewrite (fds_of_cons _ _ _ _ Hd).
    cbn [list_to_map foldr fst snd uncurry]. destruct (Z.eqb_spec d.(fd_no) fd) as [<-|Hn].
    + left. exists [], p, l, d. repeat split; try done. by rewrite lookup_insert_eq.
    + rewrite lookup_insert_ne by done.
      destruct IH as [(l1 & q & l2 & d' & -> & H1 & H2 & H3 & H4)|(H1 & H2 & H3)].
      { intros q Hq. apply Hl. by apply list_elem_of_further. }
      * left. by exists (p :: l1), q, l2, d'.
      * right. split; [|done]. cbn. rewrite elem_of_cons. intros [->|H]; done.
Qed.

Lemma fd_wf_mapped {US} (s : sys US) p : fd_wf s → p ∈ default [] s.(fd_list) → is_Some (s.(fd_entries) !! p).
Proof. intros Hw Hp. destruct (fw_entry _ Hw p Hp) as (d & -> & _). by eexists. Qed.

Lemma find_fd_ok {US} (s : sys US) fd : fd_wf s → find_fd fd s = Ok (inl (fd_table s !! fd), s).
Proof.
  intros Hw. unfold find_fd, fd_table. rewrite run_look. destruct s.(fd_list) as [l|] eqn:El; [|done].
  cbn [default from_option id]. destruct (find_in_ok s l fd) as
    [(l1 & p & l2 & d & -> & Hd & _ & Ef & ->)|(_ & Ef & ->)].
  { intros p Hp. apply (fd_wf_mapped s p Hw). by rewrite El. }
  - rewrite (run_Y _ _ _ _ _ Ef). by rewrite (run_Y _ _ _ _ _ (get_entry_ok s p d Hd)).
  - by rewrite (run_Y _ _ _ _ _ Ef).
Qed.

Lemma fd_table_range {US} (s : sys US) fd f : fd_wf s → fd_table s !! fd = Some f → 2 <= fd < s.(next_fd).
Proof.
  intros Hw H. unfold fd_table in H. destruct (find_in_ok s (default [] s.(fd_list)) fd) as
    [(l1 & p & l2 & d & E & Hd & <- & _)|(_ & _ & E)]; [intros; by apply fd_wf_mapped| |congruence].
  destruct (fw_entry _ Hw p) as (d' & Hd' & Hr); [rewrite E; apply elem_of_app; right; apply list_elem_of_here|].
  congruence.
Qed.

(** Adding an entry at the end of the list. *)
Lemma fd_push {US} (s s' : sys US) p f :
  fd_wf s → p ∉ default [] s.(fd_list) → s.(next_fd) < 2147483647 →
  s'.(fd_list) = Some (default [] s.(fd_list) ++ [p]) → s'.(next_fd) = i32 (s.(next_fd) + 1) →
  s'.(fd_entries) = <[p := mk_fd s.(next_fd) f]> s.(fd_entries) →
  fd_wf s' ∧ fd_table s' = <[s.(next_fd) := f]> (fd_table s) ∧ fd_table s !! s.(next_fd) = None.
Proof.
  intros Hw Hp Hmax El En Ee. pose proof (fw_next _ Hw). rewrite i32_small in En by lia.
  assert (Hf : fds_of (default [] s.(fd_list) ++ [p]) s'.(fd_entries) =
    fds_of (default [] s.(fd_list)) s.(fd_entries) ++ [(s.(next_fd), f)]).
  { rewrite fds_of_app, Ee. f_equal.
    - apply fds_of_ext. intros q Hq. apply lookup_insert_ne. congruence.
    - unfold fds_of. cbn. by rewrite lookup_insert_eq. }
  assert (Hnone : s.(next_fd) ∉ (fds_of (default [] s.(fd_list)) s.(fd_entries)).*1).
  { intros Hin. apply list_elem_of_fmap in Hin as ([fd g] & Hx & Hin). apply list_elem_of_omap in Hin as (q & Hq & Hg).
    destruct (fw_entry _ Hw q Hq) as (d & Hd & Hr). rewrite Hd in Hg. injection Hg as <- <-. simpl in *. lia. }
  split; [|split].
  - split; rewrite ?El, ?En; cbn [default from_option id].
    + apply NoDup_app. split; [apply (fw_nodup _ Hw)|]. split; [|apply NoDup_singleton].
      intros q Hq Hq'. apply list_elem_of_singleton in Hq' as ->. done.
    + intros q Hq. rewrite Ee. apply elem_of_app in Hq as [Hq|Hq].
      * destruct (fw_entry _ Hw q Hq) as (d & Hd & Hr). exists d. rewrite lookup_insert_ne by congruence.
        split; [done|lia].
      * apply list_elem_of_singleton in Hq as ->. rewrite lookup_insert_eq. eexists. split; [done|]. simpl. lia.
    + rewrite Hf, fmap_app. apply NoDup_app. split; [apply (fw_distinct _ Hw)|].
      split; [|apply NoDup_singleton]. intros q Hq Hq'. cbn in Hq'. apply list_elem_of_singleton in Hq' as ->. done.
    + lia.
  - unfold fd_table at 1. rewrite El. cbn [default from_option id]. rewrite Hf.
    rewrite list_to_map_snoc by done. done.
  - unfold fd_table. by apply not_elem_of_list_to_map_1.
Qed.

Lemma filter_absent (p : Z) (l : list Z) : p ∉ l → filter (λ q, q ≠ p) l = l.
Proof.
  induction l as [|q l IH]; intros H; [done|]. apply not_elem_of_cons in H as [H1 H2].
  rewrite filter_cons_True by congruence. by rewrite IH.
Qed.

(** Removing the entry of a descriptor. *)
Lemma fd_remove {US} (s s' : sys US) l1 p l2 d :
  fd_wf s → s.(fd_list) = Some (l1 ++ p :: l2) → s.(fd_entries) !! p = Some d →
  s'.(fd_list) = Some (filter (λ q, q ≠ p) (l1 ++ p :: l2)) → s'.(next_fd) = s.(next_fd) →
  s'.(fd_entries) = delete p s.(fd_entries) →
  fd_wf s' ∧ fd_table s' = delete d.(fd_no) (fd_table s).
Proof.
  intros Hw El Hd El' En Ee. pose proof (fw_nodup _ Hw) as Hnd. pose proof (fw_distinct _ Hw) as Hdi.
  rewrite El in Hnd, Hdi. cbn [default from_option id] in Hnd, Hdi.
  apply NoDup_app in Hnd as (N1 & N2 & N3). apply NoDup_cons in N3 as [N3 N4].
  assert (Hp1 : p ∉ l1) by (intros H; apply (N2 p H), list_elem_of_here).
  assert (Hfilter : filter (λ q, q ≠ p) (l1 ++ p :: l2) = l1 ++ l2).
  { rewrite filter_app, filter_cons_False by (by intros []). by rewrite !filter_absent. }
  rewrite Hfilter in El'. rewrite fds_of_app, (fds_of_cons _ _ _ _ Hd) in Hdi.
  rewrite fmap_app, fmap_cons in Hdi.
  assert (Hf : fds_of (l1 ++ l2) s'.(fd_entries) = fds_of l1 s.(fd_entries) ++ fds_of l2 s.(fd_entries)).
  { rewrite fds_of_app, Ee. f_equal; apply fds_of_ext; intros q Hq; apply lookup_delete_ne; congruence. }
  pose proof Hdi as Hdi'. apply NoDup_app in Hdi' as (D1 & D2 & D3). apply NoDup_cons in D3 as [D3 D4]. cbn in D3.
  split.
  - split; rewrite ?El', ?En; cbn [default from_option id].
    + apply NoDup_app. split; [done|]. split; [|done]. intros q Hq Hq'. apply (N2 q Hq). by apply list_elem_of_further.
    + intros q Hq. destruct (fw_entry _ Hw q) as (d' & Hd' & Hr).
      { rewrite El. cbn. apply elem_of_app in Hq as [Hq|Hq]; apply elem_of_app; [by left|right; by apply list_elem_of_further]. }
      exists d'. rewrite Ee, lookup_delete_ne; [done|]. intros <-. by apply elem_of_app in Hq as [Hq|Hq].
    + rewrite Hf, fmap_app. apply NoDup_app. split; [done|]. split; [|done].
      intros q Hq Hq'. apply (D2 q Hq). by apply list_elem_of_further.
    + apply (fw_next _ Hw).
  - unfold fd_table. rewrite El, El'. cbn [default from_option id]. rewrite Hf, fds_of_app, (fds_of_cons _ _ _ _ Hd).
    rewrite !list_to_map_app. cbn [list_to_map foldr uncurry fst snd].
    assert (H1 : (list_to_map (fds_of l1 s.(fd_entries)) : gmap Z Z) !! d.(fd_no) = None).
    { apply not_elem_of_list_to_map_1. intros H. apply (D2 _ H), list_elem_of_here. }
    rewrite delete_union, delete_insert_eq. rewrite (delete_id _ _ H1).
    by rewrite (delete_id _ d.(fd_no)) by by apply not_elem_of_list_to_map_1.
Qed.


(** malloc(): a fresh pointer, or out of memory. *)
Lemma malloc_cases s :
  (∃ s', malloc s = Ok (s.(brk), s') ∧ s'.(brk) = s.(brk) + 1 ∧ (true ∉ s.(oom) → true ∉ s'.(oom))) ∨
  (∃ s', malloc s = Ok (NULL, s') ∧ s'.(brk) = s.(brk) ∧ true ∈ s.(oom)).
Proof.
  unfold malloc. destruct s.(oom) as [|[] l] eqn:E.
  - left. eexists. split; [done|]. split; [done|]. simpl. by rewrite E.
  - right. eexists. split; [done|]. split; [done|]. apply list_elem_of_here.
  - left. eexists. split; [done|]. split; [done|]. simpl. intros H H'. apply H. by apply list_elem_of_further.
Qed.

(** The state after one call of allocate_fd() that found the list, or made it. *)
Definition pushed {US} (s : sys US) (g : fs) (f : Z) : sys US :=
  mk_sys g s.(umem) (Some (default [] s.(fd_list) ++ [g.(brk) - 1])) (i32 (s.(next_fd) + 1))
    (<[g.(brk) - 1 := mk_fd s.(next_fd) f]> s.(fd_entries)) s.(console) s.(keys).

Lemma allocate_fd_cases {US} (s : sys US) f :
  0 < s.(fsys).(brk) →
  (∃ g, allocate_fd f s = Ok (inl s.(next_fd), pushed s g f) ∧ s.(fsys).(brk) < g.(brk)) ∨
  (∃ g l, allocate_fd f s = Ok (inl (-1), mk_sys g s.(umem) l s.(next_fd) s.(fd_entries) s.(console) s.(keys)) ∧
     default [] l = default [] s.(fd_list) ∧ s.(fsys).(brk) <= g.(brk) ∧ true ∈ s.(fsys).(oom)) ∨
  (allocate_fd f s = Wild ∧ true ∈ s.(fsys).(oom)).
Proof.
  intros Hb. unfold allocate_fd. rewrite run_look. destruct s.(fd_list) as [l|] eqn:El.
  - rewrite (run_Y _ _ s tt s) by done.
    destruct (malloc_cases s.(fsys)) as [(g & E & Hg & _)|(g & E & Hg & Ho)]; rewrite (run_fs _ _ _ _ _ E).
    + left. exists g. rewrite (proj2 (Z.eqb_neq _ _)) by lia. rewrite !run_look. split; [|lia].
      cbn [with_fsys next_fd fd_entries fd_list]. rewrite El. unfold pushed. rewrite El.
      replace (g.(brk) - 1) with s.(fsys).(brk) by lia. done.
    + right; left. exists g, (Some l). split; [by rewrite <-El|]. split; [done|]. split; [lia|done].
  - destruct (malloc_cases s.(fsys)) as [(g & E & Hg & Hk)|(g & E & Hg & Ho)].
    + set (s1 := mk_sys g s.(umem) (Some []) s.(next_fd) s.(fd_entries) s.(console) s.(keys)).
      rewrite (run_Y _ _ s tt s1).
      2:{ rewrite (run_fs _ _ _ _ _ E). rewrite (proj2 (Z.eqb_neq _ _)) by lia. done. }
      destruct (malloc_cases g) as [(g2 & E2 & Hg2 & _)|(g2 & E2 & Hg2 & Ho)]; rewrite (run_fs _ _ s1 _ _ E2).
      * left. exists g2. rewrite (proj2 (Z.eqb_neq _ _)) by lia. rewrite !run_look. split; [|lia].
        unfold pushed. rewrite El. replace (g2.(brk) - 1) with g.(brk) by lia. done.
      * right; left. exists g2, (Some []). split; [done|]. split; [done|]. split; [lia|].
        destruct (decide (true ∈ s.(fsys).(oom))) as [|Hn]; [done|]. by destruct (Hk Hn).
    + right; right. split; [|done]. unfold mbind at 1, Y_bind at 1. rewrite (run_fs _ _ _ _ _ E). done.
Qed.

(** A successful allocation adds the next number to the table. *)
Lemma pushed_ok {US} (s : sys US) g f :
  fd_wf s → fd_alloc s → s.(next_fd) < 2147483647 → s.(fsys).(brk) < g.(brk) →
  fd_wf (pushed s g f) ∧ fd_alloc (pushed s g f) ∧
  fd_table (pushed s g f) = <[s.(next_fd) := f]> (fd_table s) ∧ fd_table s !! s.(next_fd) = None.
Proof.
  intros Hw [Hb Ha] Hn Hg.
  destruct (fd_push s (pushed s g f) (g.(brk) - 1) f Hw) as (H1 & H2 & H3); [|done..|].
  { intros Hin. apply Ha in Hin. lia. }
  split; [done|]. split; [|done]. split; [simpl; lia|]. simpl. intros p Hp.
  apply elem_of_app in Hp as [Hp|Hp]; [apply Ha in Hp; lia|]. apply list_elem_of_singleton in Hp. lia.
Qed.

(** close_fd() of a descriptor that is not open does nothing; otherwise it
    closes the file and removes the descriptor. *)
Lemma close_fd_ok {US} (s : sys US) fd :
  fd_wf s →
  match fd_table s !! fd with
  | None => close_fd fd s = Ok (inl tt, s)
  | Some f =>
      (∀ g, file_close f s.(fsys) = Ok (tt, g) →
         ∃ s', close_fd fd s = Ok (inl tt, s') ∧ fd_wf s' ∧ fd_table s' = delete fd (fd_table s) ∧
           s'.(fsys) = g ∧ s'.(umem) = s.(umem) ∧ s'.(next_fd) = s.(next_fd) ∧
           ∀ p, p ∈ default [] s'.(fd_list) → p ∈ default [] s.(fd_list)) ∧
      (∀ r s', close_fd fd s = Ok (r, s') → ∃ g, file_close f s.(fsys) = Ok (tt, g))
  end.
Proof.
  intros Hw. unfold close_fd, fd_table at 1. destruct s.(fd_list) as [l|] eqn:El; cbn [default from_option id].
  2:{ cbn. rewrite lookup_empty, run_look. by rewrite El. }
  destruct (find_in_ok s l fd) as [(l1 & p & l2 & d & -> & Hd & <- & Ef & ->)|(_ & Ef & ->)].
  { intros p Hp. apply (fd_wf_mapped s p Hw). by rewrite El. }
  2:{ rewrite run_look, El. by rewrite (run_Y _ _ _ _ _ Ef). }
  assert (Erun : ∀ (k : unit → Y US unit), (on_fs (file_close d.(fd_file)) ≫= k) s =
    match file_close d.(fd_file) s.(fsys) with
    | Ok (a, g) => k a (with_fsys g s) | Panic => Panic | Wild => Wild | NoFuel => NoFuel end).
  { intros k. unfold mbind, Y_bind, on_fs. by destruct (file_close d.(fd_file) s.(fsys)) as [[a g]| | |]. }
  split.
  - intros g Eg. rewrite run_look, El, (run_Y _ _ _ _ _ Ef), (run_Y _ _ _ _ _ (get_entry_ok s p d Hd)), Erun, Eg.
    unfold remove_entry. rewrite !run_look. cbn [with_fsys fd_list next_fd fd_entries]. rewrite El. eexists.
    split; [done|].
    destruct (fd_remove s (mk_sys g s.(umem) (Some (filter (λ q, q ≠ p) (l1 ++ p :: l2))) s.(next_fd)
      (delete p s.(fd_entries)) s.(console) s.(keys)) l1 p l2 d Hw El Hd eq_refl eq_refl eq_refl) as [H1 H2].
    split; [exact H1|]. split; [exact H2|]. do 3 (split; [done|]). cbn. intros q Hq.
    by apply list_elem_of_filter in Hq as [_ Hq].
  - intros r s'. rewrite run_look, El, (run_Y _ _ _ _ _ Ef), (run_Y _ _ _ _ _ (get_entry_ok s p d Hd)), Erun.
    destruct (file_close d.(fd_file) s.(fsys)) as [[[] g]| | |]; [eauto|done..].
Qed.

(** *** What every call keeps *)

Definition fd_inv {US} (s : sys US) : Prop := fd_wf s ∧ fd_alloc s.

(** Code that leaves the table well-formed and gives out no descriptor. *)
Class Keeps {US A} (m : Y US A) : Prop :=
  keeps : ∀ s r s', fd_inv s → m s = Ok (r, s') → fd_inv s' ∧ s'.(next_fd) = s.(next_fd).

#[export] Instance keeps_ret {US A} (a : A) : Keeps (mret a : Y US A).
Proof. intros s r s' H [= <- <-]. done. Qed.

#[export] Instance keeps_bind {US A B} (m : Y US A) (f : A → Y US B) :
  Keeps m → (∀ a, Keeps (f a)) → Keeps (m ≫= f).
Proof.
  intros Hm Hf s r s2 H E. unfold mbind, Y_bind in E.
  destruct (m s) as [[[a|e] s1]| | |] eqn:E1; try done; destruct (Hm _ _ _ H E1) as [H1 H2].
  - destruct (Hf a _ _ _ H1 E). split; [done|congruence].
  - by injection E as <- <-.
Qed.

#[export] Instance keeps_look {US A} (f : sys US → A) : Keeps (look f).
Proof. intros s r s' H [= <- <-]. done. Qed.
#[export] Instance keeps_pure {US A} (m : outcome A) : Keeps (pure m : Y US A).
Proof. intros s r s' H E. unfold pure in E. apply bind_Ok in E as (a & _ & [= _ <-]). done. Qed.
#[export] Instance keeps_exit {US A} n : Keeps (sys_exit n : Y US A).
Proof. intros s r s' H [= <- <-]. done. Qed.
#[export] Instance keeps_halt {US} : Keeps (sys_halt : Y US unit).
Proof. intros s r s' H [= <- <-]. done. Qed.
#[export] Instance keeps_putbuf {US} bs : Keeps (putbuf bs : Y US unit).
Proof. intros s r s' [[] []] [= <- <-]. done. Qed.
#[export] Instance keeps_getc {US} : Keeps (input_getc : Y US Z).
Proof. intros s r s' [[] []] E. unfold input_getc in E. destruct s.(keys); [done|]. by injection E as <- <-. Qed.

#[export] Instance keeps_on_fs {US A} (m : M A) : Grows m → Keeps (on_fs m : Y US A).
Proof.
  intros Hm s r s' [[] [Hb Ha]] E. unfold on_fs in E.
  destruct (m s.(fsys)) as [[a g]| | |] eqn:Em; try done. injection E as <- <-. apply Hm in Em.
  split; [|done]. split; [done|]. split; [simpl; lia|]. simpl. intros p Hp. apply Ha in Hp. lia.
Qed.

#[export] Instance keeps_on_user {US A} (m : st US (option A)) : Keeps (on_user m : Y US A).
Proof.
  intros s r s' [[] []] E. unfold on_user in E. by destruct (m s.(umem)) as [[[a|] u]| | |]; simplify_eq.
Qed.

#[export] Instance keeps_close_fd {US} fd : Keeps (close_fd fd : Y US unit).
Proof.
  intros s r s' [Hw [Hb Ha]] E. pose proof (close_fd_ok s fd Hw) as H.
  destruct (fd_table s !! fd) as [f|]; [|rewrite E in H; by injection H as -> ->].
  destruct H as [H1 H2]. destruct (H2 _ _ E) as [g Eg].
  destruct (H1 g Eg) as (s1 & E1 & W & _ & Ef & _ & En & Hsub). rewrite E in E1. injection E1 as -> ->.
  apply grows_file_close in Eg. split; [|done]. split; [done|]. rewrite <-Ef in Eg.
  split; [lia|]. intros p Hp. apply Hsub, Ha in Hp. lia.
Qed.

(** Go through the structure of a call. *)
Ltac keeps := intros; cbv zeta; repeat
  first [ apply _ | apply keeps_bind; intros
        | match goal with |- Keeps (match ?x with _ => _ end) => destruct x end ].

(** Code that may give out one descriptor. *)
Definition Gives {US A} (m : Y US A) : Prop :=
  ∀ s r s', fd_inv s → s.(next_fd) < 2147483647 → m s = Ok (r, s') →
    fd_inv s' ∧ s.(next_fd) <= s'.(next_fd) <= s.(next_fd) + 1.

Lemma keeps_gives {US A} (m : Y US A) : Keeps m → Gives m.
Proof. intros Hm s r s' H Hn E. destruct (Hm _ _ _ H E). split; [done|lia]. Qed.

Lemma gives_bind_r {US A B} (m : Y US A) (f : A → Y US B) :
  Keeps m → (∀ a, Gives (f a)) → Gives (m ≫= f).
Proof.
  intros Hm Hf s r s2 H Hn E. unfold mbind, Y_bind in E.
  destruct (m s) as [[[a|e] s1]| | |] eqn:E1; try done; destruct (Hm _ _ _ H E1) as [H1 H2].
  - rewrite <-H2 in Hn |- *. by apply (Hf a _ r).
  - injection E as <- <-. split; [done|lia].
Qed.

Lemma gives_bind_l {US A B} (m : Y US A) (f : A → Y US B) :
  Gives m → (∀ a, Keeps (f a)) → Gives (m ≫= f).
Proof.
  intros Hm Hf s r s2 H Hn E. unfold mbind, Y_bind in E.
  destruct (m s) as [[[a|e] s1]| | |] eqn:E1; try done; destruct (Hm _ _ _ H Hn E1) as [H1 H2].
  - destruct (Hf a _ _ _ H1 E) as [H3 ->]. done.
  - injection E as <- <-. done.
Qed.

Lemma gives_allocate_fd {US} f : Gives (allocate_fd f : Y US Z).
Proof.
  intros s r s' [Hw [Hb Ha]] Hn E. pose proof (fw_next _ Hw).
  destruct (allocate_fd_cases s f Hb) as [(g & E' & Hg)|[(g & l & E' & Hl & Hg & _)|[E' _]]]; rewrite E' in E.
  - injection E as <- <-. destruct (pushed_ok s g f Hw (conj Hb Ha) Hn Hg) as (H1 & H2 & _).
    split; [done|]. simpl. rewrite i32_small by lia. lia.
  - injection E as <- <-. destruct Hw as [W1 W2 W3 W4]. split; [|simpl; lia]. split.
    + split; simpl; rewrite ?Hl; done.
    + split; simpl; [lia|]. rewrite Hl. intros p Hp. apply Ha in Hp. lia.
  - done.
Qed.

Section keeps.
Context {US : Type} `{UM : UserMem US}.
Context (max_string : nat) (process_execute : list Z → Y US Z) (thread_yield : Y US unit).
Context `{He : ∀ c, Keeps (process_execute c)} `{Hy : Keeps _ _ thread_yield}.

#[local] Instance keeps_uget a : Keeps (uget a).
Proof. unfold uget. apply _. Qed.
#[local] Instance keeps_uput a b : Keeps (uput a b).
Proof. unfold uput. apply _. Qed.
#[local] Instance keeps_malloc_buf n : Keeps (malloc_buf n : Y US Z).
Proof. unfold malloc_buf. keeps. Qed.
#[local] Instance keeps_check_ptr p : Keeps (check_valid_ptr p).
Proof. unfold check_valid_ptr. keeps. Qed.
#[local] Instance keeps_check_buffer p n : Keeps (check_valid_buffer p n).
Proof. unfold check_valid_buffer. keeps. Qed.
#[local] Instance keeps_check_string n p : Keeps (check_string n p).
Proof. revert p. induction n as [|n IH]; intros p; cbn [check_string]; [by intros s r s' H E|keeps]. Qed.
#[local] Instance keeps_check_valid_string p : Keeps (check_valid_string max_string p).
Proof. unfold check_valid_string. keeps. Qed.
#[local] Instance keeps_copy_in n p : Keeps (copy_in_loop n p).
Proof. revert p. induction n as [|n IH]; intros p; cbn [copy_in_loop]; keeps. Qed.
#[local] Instance keeps_copy_in_string p n : Keeps (copy_in_string p n).
Proof. unfold copy_in_string. keeps. Qed.
#[local] Instance keeps_get_entry p : Keeps (get_entry p : Y US _).
Proof. unfold get_entry. keeps. Qed.
#[local] Instance keeps_find_in l fd : Keeps (find_in l fd : Y US _).
Proof. induction l as [|p l IH]; cbn [find_in]; keeps. Qed.
#[local] Instance keeps_find_fd fd : Keeps (find_fd fd : Y US _).
Proof. unfold find_fd. keeps. Qed.
#[local] Instance keeps_store_out p bs : Keeps (store_out p bs).
Proof. revert p. induction bs as [|b bs IH]; intros p; cbn [store_out]; keeps. Qed.
#[local] Instance keeps_read_keys n p : Keeps (read_keys n p).
Proof. revert p. induction n as [|n IH]; intros p; cbn [read_keys]; keeps. Qed.
#[local] Instance keeps_fetch n p : Keeps (fetch n p).
Proof. revert p. induction n as [|n IH]; intros p; cbn [fetch]; keeps. Qed.
#[local] Instance keeps_write_chunks n p k : Keeps (write_chunks n p k).
Proof.
  revert p k. induction n as [|n IH]; intros p k; cbn [write_chunks]; destruct (0 <? k); keeps.
  by intros s r s' H E.
Qed.
#[local] Instance keeps_yields n : Keeps (yield_times thread_yield n).
Proof. induction n as [|n IH]; cbn [yield_times]; keeps. Qed.
#[local] Instance keeps_argw a i : Keeps (argw a i).
Proof. unfold argw, user_word. keeps. Qed.
#[local] Instance keeps_arg a i : Keeps (arg a i).
Proof. unfold arg. keeps. Qed.
#[local] Instance keeps_sys_exec p : Keeps (sys_exec process_execute p).
Proof. unfold sys_exec. keeps. Qed.
#[local] Instance keeps_sys_wait p : Keeps (sys_wait thread_yield p).
Proof. unfold sys_wait, process_wait. keeps. Qed.
#[local] Instance keeps_sys_create p n : Keeps (sys_create p n).
Proof. unfold sys_create. keeps. Qed.
#[local] Instance keeps_sys_remove p : Keeps (sys_remove p).
Proof. unfold sys_remove. keeps. Qed.
#[local] Instance keeps_sys_filesize fd : Keeps (sys_filesize fd : Y US Z).
Proof. unfold sys_filesize. keeps. Qed.
#[local] Instance keeps_sys_read fd p n : Keeps (sys_read fd p n).
Proof. unfold sys_read. keeps. Qed.
#[local] Instance keeps_sys_write fd p n : Keeps (sys_write fd p n).
Proof. unfold sys_write. keeps. Qed.
#[local] Instance keeps_sys_seek fd p : Keeps (sys_seek fd p : Y US unit).
Proof. unfold sys_seek. keeps. Qed.
#[local] Instance keeps_sys_tell fd : Keeps (sys_tell fd : Y US Z).
Proof. unfold sys_tell. keeps. Qed.
#[local] Instance keeps_sys_close fd : Keeps (sys_close fd : Y US unit).
Proof. unfold sys_close. keeps. Qed.

Lemma gives_sys_open p : Gives (sys_open p).
Proof.
  unfold sys_open. repeat (apply gives_bind_r; [apply _|intros]).
  match goal with |- Gives (if ?c then _ else _) => destruct c end; [apply keeps_gives; keeps|].
  apply gives_bind_l; [apply gives_allocate_fd|keeps].
Qed.

End keeps.

(** ** Moving data between user memory and files *)

Section data.
Context {US : Type} {UM : UserMem US} {UMS : UserMemSpec US}.

Lemma with_umem_same (s : sys US) : with_umem s.(umem) s = s.
Proof. by destruct s. Qed.

Lemma uget_ok (s : sys US) va b :
  um_ok s.(umem) → user_va va → um_byte s.(umem) va = Some b → uget va s = Ok (inl b, s).
Proof.
  intros Hok Hva Hb. unfold uget, on_user. rewrite u32_small by (unfold user_va, PHYS_BASE in Hva; lia).
  rewrite (um_get_spec _ _ _ Hok Hva Hb). by destruct s.
Qed.

Lemma user_bytes_tail u va b bs : user_bytes u va (b :: bs) → bs ≠ [] → user_bytes u (va + 1) bs.
Proof.
  intros ([V0 V1] & H1 & H2) Hne. simpl in H1. destruct bs as [|c bs]; [done|]. simpl in H1.
  split; [unfold user_va, PHYS_BASE in *; lia|]. split; [simpl; lia|].
  intros i x Hx. specialize (H2 (S i) x Hx). by replace (va + 1 + Z.of_nat i) with (va + Z.of_nat (S i)) by lia.
Qed.

Lemma fetch_ok (s : sys US) va bs :
  um_ok s.(umem) → user_bytes s.(umem) va bs → fetch (length bs) va s = Ok (inl bs, s).
Proof.
  intros Hok. revert va. induction bs as [|b bs IH]; intros va Hu; [done|]. cbn [fetch length].
  destruct (user_bytes_lookup _ _ _ 0 Hu) as (Hva & b' & Hb & Hm); [simpl; lia|]. injection Hb as <-.
  rewrite Z.add_0_r in *. rewrite (run_Y _ _ _ _ _ (uget_ok s va b Hok Hva Hm)).
  pose proof (um_byte_range _ _ _ Hm). rewrite (proj2 (Z.eqb_neq _ _)) by lia.
  destruct bs as [|c bs]; [done|].
  by rewrite (run_Y _ _ _ _ _ (IH (va + 1) (user_bytes_tail _ _ _ _ Hu ltac:(done)))).
Qed.

Lemma store_out_ok (s : sys US) va bs :
  um_ok s.(umem) → user_buffer s.(umem) va (Z.of_nat (length bs)) → Forall (λ b, is_u8 b) bs →
  ∃ u, store_out va bs s = Ok (inl tt, with_umem u s) ∧ um_ok u ∧ user_bytes u va bs ∧
    user_same_but va (Z.of_nat (length bs)) s.(umem) u.
Proof.
  intros Hok Hbuf F. revert s va Hok Hbuf. induction F as [|b bs Hb F IH]; intros s va Hok Hbuf.
  - exists s.(umem). rewrite with_umem_same. destruct Hbuf as (B1 & B2 & _). done.
  - destruct Hbuf as ([V0 V1] & B2 & B3). cbn [length] in *.
    destruct (B3 0 ltac:(lia)) as [Hm Hw]. rewrite Z.add_0_r in *.
    destruct (um_put_spec s.(umem) va b Hok (conj V0 V1) Hm Hw) as (u1 & E & Hok1 & W1 & M1).
    rewrite u8_small in M1 by done. cbn [store_out].
    rewrite (run_Y _ _ s true (with_umem u1 s)).
    2:{ unfold uput, on_user. rewrite u32_small by (unfold PHYS_BASE in V1; lia). by rewrite E. }
    cbn [negb]. destruct bs as [|c bs'].
    + exists u1. split; [done|]. split; [done|]. split.
      * split; [done|]. split; [done|]. intros [|i] x Hx; [|done]. injection Hx as <-.
        rewrite Z.add_0_r, M1 by done. by rewrite Z.eqb_refl.
      * split; [done|]. split.
        -- intros x Hx Hd. rewrite M1, (proj2 (Z.eqb_neq _ _)) by (done || simpl in Hd; lia). done.
        -- intros x Hx Hs. rewrite M1 by done. by destruct (x =? va).
    + set (bs := c :: bs') in *.
      assert (Hl : 0 < Z.of_nat (length bs)) by (unfold bs; simpl; lia).
      destruct (IH (with_umem u1 s) (va + 1)) as (u & E2 & Hok2 & U2 & (S1 & S2 & S3)).
      { done. }
      { split; [unfold user_va in *; lia|]. split; [lia|]. intros i Hi. cbn [with_umem umem].
        assert (Hx : user_va (va + 1 + i)) by (unfold user_va in *; lia).
        rewrite M1, W1, (proj2 (Z.eqb_neq _ _)) by (done || lia).
        replace (va + 1 + i) with (va + (i + 1)) by lia. apply B3. lia. }
      cbn [with_umem umem] in S1, S2, S3. exists u. split; [exact E2|]. split; [done|]. split.
      * split; [done|]. split; [cbn [length]; lia|]. intros [|i] x Hx.
        -- injection Hx as <-. rewrite Z.add_0_r, S2, M1 by (done || lia). by rewrite Z.eqb_refl.
        -- destruct U2 as (_ & _ & U2). specialize (U2 i x Hx).
           by replace (va + Z.of_nat (S i)) with (va + 1 + Z.of_nat i) by lia.
      * split; [intros x Hx; by rewrite S1, W1|]. split.
        -- intros x Hx Hd. rewrite S2, M1, (proj2 (Z.eqb_neq _ _)) by (done || lia). done.
        -- intros x Hx Hs. apply S3; [done|]. rewrite M1 by done. by destruct (x =? va).
Qed.
End data.

Lemma malloc_at_pos fp ip i g p :
  at_pos fp ip i g p → ∃ g', malloc g = Ok (g.(brk), g') ∧ g.(brk) ≠ NULL ∧ at_pos fp ip i g' p ∧
    g'.(fs_device) = g.(fs_device).
Proof.
  intros [A1 A2 A3 A4 [A5 A6]]. unfold malloc. destruct g.(oom) as [|[] l] eqn:E.
  - eexists. split; [done|]. split; [lia|]. split; [|done]. split; try done. split; simpl; [by rewrite E|lia].
  - destruct A5. apply list_elem_of_here.
  - eexists. split; [done|]. split; [lia|]. split; [|done]. split; try done. split; simpl; [|lia].
    intros H. apply A5. by apply list_elem_of_further.
Qed.

(** *** The calls on an open file *)

Section calls.
Context {US : Type} {UM : UserMem US} {UMS : UserMemSpec US}.
Context (fd fp ip : Z) (i : inode) (Hfp : fp ≠ NULL) (Hip : ip ≠ NULL).

(** Descriptor [fd] is open on file [fp], which is at position [p]. *)
Record open_at (s : sys US) (p : Z) : Prop := {
  oa_fds : fd_wf s;
  oa_fd : fd_table s !! fd = Some fp;
  oa_pos : at_pos fp ip i s.(fsys) p }.

Lemma open_at_fs s p g q : open_at s p → at_pos fp ip i g q → open_at (with_fsys g s) q.
Proof. intros [[] A2 A3] H. split; done. Qed.

Lemma open_not_std s p : open_at s p → fd ≠ STDIN_FILENO ∧ fd ≠ STDOUT_FILENO.
Proof. intros [A1 A2 _]. pose proof (fd_table_range _ _ _ A1 A2). unfold STDIN_FILENO, STDOUT_FILENO. lia. Qed.

Lemma sys_seek_ok s p q :
  open_at s p → 0 <= q < 2147483648 →
  ∃ g, sys_seek fd q s = Ok (inl tt, with_fsys g s) ∧ at_pos fp ip i g q ∧
    g.(fs_device) = s.(fsys).(fs_device).
Proof.
  intros [A1 A2 A3] Hq. unfold sys_seek. rewrite (run_Y _ _ _ _ _ (find_fd_ok s fd A1)), A2.
  rewrite i32_small by lia. destruct (file_seek_ok fp ip i Hfp _ p q A3 ltac:(lia)) as (g & E & H & Hd).
  exists g. split; [by apply on_fs_ok|done].
Qed.

(** The buffer that sys_read() and sys_write() allocate. *)
Lemma malloc_buf_ok {B} s p n (k : Z → Y US B) :
  open_at s p → 0 < n → ∃ b g, b ≠ NULL ∧ (malloc_buf n ≫= k) s = k b (with_fsys g s) ∧
    at_pos fp ip i g p ∧ g.(fs_device) = s.(fsys).(fs_device).
Proof.
  intros [A1 A2 A3] Hn. destruct (malloc_at_pos _ _ _ _ _ A3) as (g & E & Hb & H & Hd).
  exists s.(fsys).(brk), g. split; [done|]. split; [|done]. unfold malloc_buf.
  rewrite (proj2 (Z.eqb_neq _ _)) by lia. by apply run_fs.
Qed.

Lemma sys_write_ok s p src data :
  open_at s p → i.(deny_write_cnt) = 0 → 0 <= p < 2147483648 →
  um_ok s.(umem) → user_bytes s.(umem) src data → 0 < Z.of_nat (length data) < 2147483648 →
  let n := avail i (Z.of_nat (length data)) p in
  ∃ g, sys_write fd src (Z.of_nat (length data)) s = Ok (inl n, with_fsys g s) ∧
    at_pos fp ip i g (p + n) ∧ spliced s.(fsys).(fs_device) (base i + p) data n g.(fs_device).
Proof.
  intros Ho Hdw Hp Hok Hu Hl n. destruct (open_not_std _ _ Ho) as [_ Hstd]. pose proof Ho as [A1 A2 A3].
  unfold sys_write. rewrite (proj2 (Z.eqb_neq _ _) Hstd).
  rewrite (run_Y _ _ _ _ _ (find_fd_ok s fd A1)), A2.
  destruct (malloc_buf_ok s p (Z.of_nat (length data)) (λ kern_buf, if kern_buf =? NULL then mret (-1)
     else bs ← fetch (Z.to_nat (Z.of_nat (length data))) src;
          on_fs (file_write fp bs (i32 (Z.of_nat (length data))))) Ho ltac:(lia)) as (b & g1 & Hb & -> & H1 & Hd1).
  rewrite (proj2 (Z.eqb_neq _ _) Hb), Nat2Z.id, i32_small by lia.
  rewrite (run_Y _ _ _ _ _ (fetch_ok (with_fsys g1 s) src data Hok Hu)).
  destruct (file_write_ok fp ip i Hip g1 p data H1 Hdw Hp ltac:(lia)) as (g & E & H & Hsp).
  fold n in E, H, Hsp. exists g. rewrite Hd1 in Hsp. split; [|done].
  by rewrite (on_fs_ok (file_write fp data (Z.of_nat (length data))) (with_fsys g1 s) n g E).
Qed.

Lemma sys_read_ok s p dst size :
  open_at s p → 0 <= p < 2147483648 → 0 < size < 2147483648 →
  let n := avail i size p in
  let bs := disk_bytes s.(fsys).(fs_device) (base i + p) n in
  um_ok s.(umem) → user_buffer s.(umem) dst n → Forall (λ b, is_u8 b) bs →
  ∃ g u, sys_read fd dst size s = Ok (inl n, with_umem u (with_fsys g s)) ∧
    at_pos fp ip i g (p + n) ∧ um_ok u ∧ user_bytes u dst bs ∧ user_same_but dst n s.(umem) u.
Proof.
  intros Ho Hp Hs n bs Hok Hbuf F. destruct (open_not_std _ _ Ho) as [Hstd _]. pose proof Ho as [A1 A2 A3].
  assert (Hn : 0 <= n) by (unfold n, avail; lia).
  assert (Hlen : Z.of_nat (length bs) = n) by (unfold bs; rewrite length_disk_bytes; lia).
  unfold sys_read. rewrite (proj2 (Z.eqb_neq _ _) Hstd).
  rewrite (run_Y _ _ _ _ _ (find_fd_ok s fd A1)), A2.
  destruct (malloc_buf_ok s p size (λ kern_buf, if kern_buf =? NULL then mret (-1)
     else bs ← on_fs (file_read fp (i32 size)); store_out dst bs;; mret (Z.of_nat (length bs))) Ho ltac:(lia))
    as (b & g1 & Hb & -> & H1 & Hd1).
  rewrite (proj2 (Z.eqb_neq _ _) Hb), i32_small by lia.
  destruct (file_read_ok fp ip i Hip g1 p size H1 Hp ltac:(lia)) as (g & E & H & _). fold n in E, H.
  rewrite Hd1 in E. fold bs in E. rewrite (run_fs (file_read fp size) _ (with_fsys g1 s) _ _ E).
  rewrite <-Hlen in Hbuf.
  destruct (store_out_ok (with_fsys g (with_fsys g1 s)) dst bs Hok Hbuf F) as (u & Eo & Hok' & Hu & Hsame).
  exists g, u. rewrite (run_Y _ _ _ _ _ Eo). rewrite Hlen in *. split; [done|]. split; [done|]. done.
Qed.
End calls.

(** ** Properties *)


(** C11: The file descriptor functions implement a finite map from numbers to open
    files.  find_fd() looks a number up.  allocate_fd() adds the file under a
    number that is not in the map, or returns -1 when memory is short and
    leaves the map alone; when the very list cannot be allocated it frees a
    pointer that it never set.  close_fd() closes the file and removes its
    number, and does nothing for a number that is not in the map. *)
Theorem fd_table_refines {US} (s : sys US) fd file :
  fd_inv s → s.(next_fd) < 2147483647 →
  find_fd fd s = Ok (inl (fd_table s !! fd), s) ∧
  ((∃ s', allocate_fd file s = Ok (inl s.(next_fd), s') ∧ fd_table s !! s.(next_fd) = None ∧
      fd_table s' = <[s.(next_fd) := file]> (fd_table s)) ∨
   true ∈ s.(fsys).(oom) ∧
   ((∃ s', allocate_fd file s = Ok (inl (-1), s') ∧ fd_table s' = fd_table s) ∨
    allocate_fd file s = Wild)) ∧
  match fd_table s !! fd with
  | None => close_fd fd s = Ok (inl tt, s)
  | Some f => ∀ g, file_close f s.(fsys) = Ok (tt, g) →
      ∃ s', close_fd fd s = Ok (inl tt, s') ∧ s'.(fsys) = g ∧ fd_table s' = delete fd (fd_table s)
  end.
Proof.
  intros [Hw Ha] Hn. split; [by apply find_fd_ok|]. split.
  - destruct (allocate_fd_cases s file (proj1 Ha)) as [(g & E & Hg)|[(g & l & E & Hl & _ & Ho)|[E Ho]]].
    + left. exists (pushed s g file). destruct (pushed_ok s g file Hw Ha Hn Hg) as (_ & _ & H1 & H2). done.
    + right. split; [done|]. left. eexists. split; [exact E|]. unfold fd_table. cbn [fd_list fd_entries]. by rewrite Hl.
    + right. split; [done|]. by right.
  - pose proof (close_fd_ok s fd Hw) as H. destruct (fd_table s !! fd) as [f|]; [|done].
    intros g Eg. destruct H as [H _]. destruct (H g Eg) as (s' & E & _ & Ht & Hf & _). by exists s'.
Qed.

(** A process with the pages of Exception.v and one file open, as descriptor 2,
    on the inode of InodeIO.v. *)
Definition demo_sys : sys xst :=
  mk_sys (set_brk 20 demo_open_fs) demo_xst (Some [9]) 3 {[ 9 := mk_fd 2 7 ]} [] [].
Definition demo_um : UserMem xst := proc_mem 0 4096 3221291008 demo_pd.
Definition demo_ums : @UserMemSpec xst demo_um := proc_mem_spec 0 4096 3221291008 demo_pd ltac:(lia).

Lemma demo_fd_inv : fd_inv demo_sys.
Proof.
  split.
  - split; cbn.
    + apply NoDup_singleton.
    + intros p Hp. apply list_elem_of_singleton in Hp as ->. by exists (mk_fd 2 7).
    + apply NoDup_singleton.
    + done.
  - split; [done|]. cbn. intros p Hp. apply list_elem_of_singleton in Hp as ->. lia.
Qed.

Lemma demo_open_at : open_at 2 7 1 demo_inode demo_sys 5.
Proof.
  split; [apply demo_fd_inv|done|]. destruct demo_at_pos as [A1 A2 A3 A4 [A5 A6]].
  by split; try done; split.
Qed.

Lemma demo_user_ok : @um_ok _ _ demo_ums demo_xst.
Proof. exists demo_words. split; [apply demo_as_wf|]. split; [done|apply demo_ram]. Qed.

(** The bytes 1 to 4 lie at 0x08048000, four times over. *)
Lemma demo_user_bytes :
  @user_bytes _ _ demo_ums demo_xst 134512640 [1; 2; 3; 4] ∧
  @user_buffer _ _ demo_ums demo_xst 134512652 4.
Proof.
  split.
  - split; [unfold user_va, PHYS_BASE; lia|]. split; [unfold PHYS_BASE; simpl; lia|].
    intros i b Hi. destruct i as [|[|[|[|i]]]]; [..|done]; injection Hi as <-; by vm_compute.
  - split; [unfold user_va, PHYS_BASE; lia|]. split; [unfold PHYS_BASE; lia|]. intros i Hi.
    assert (i = 0 ∨ i = 1 ∨ i = 2 ∨ i = 3) as [-> | [-> | [-> | ->]]] by lia;
      split; (by vm_compute) || (eexists; by vm_compute).
Qed.


Lemma fd_table_refines_witness :
  find_fd 2 demo_sys = Ok (inl (Some 7), demo_sys) ∧
  (∃ s', allocate_fd 7 demo_sys = Ok (inl 3, s') ∧ fd_table s' = <[3 := 7]> (fd_table demo_sys)) ∧
  close_fd 5 demo_sys = Ok (inl tt, demo_sys).
Proof.
  pose proof (fd_table_refines demo_sys 2 7 demo_fd_inv ltac:(done)) as (F & [(s' & E & _ & H)|[Ho _]] & _).
  - split; [exact F|]. split; [exists s'; split; [exact E|exact H]|].
    pose proof (fd_table_refines demo_sys 5 7 demo_fd_inv ltac:(done)) as (_ & _ & C). exact C.
  - exfalso. cbn in Ho. by apply not_elem_of_nil in Ho.
Defined.


(** C25: check_valid_buffer() protects the kernel only when the end of the buffer
    does not wrap around.  If it returns, and BUFFER + SIZE does not exceed the
    32-bit address space, every byte of the buffer is a user address.  But when
    it wraps, the check still passes as soon as the first and the last byte are
    mapped user bytes, although the buffer then contains kernel addresses. *)
Theorem check_valid_buffer_range {US} {UM : UserMem US} {UMS : UserMemSpec US} (s : sys US) buffer size :
  is_u32 buffer → 0 < size < 4294967296 →
  (∀ s', check_valid_buffer buffer size s = Ok (inl tt, s') → buffer + size <= 4294967296 →
     ∀ k, 0 <= k < size → user_va (buffer + k)) ∧
  (um_ok s.(umem) → 4294967296 < buffer + size → 0 < buffer < PHYS_BASE →
   0 < buffer + size - 1 - 4294967296 < PHYS_BASE →
   is_Some (um_byte s.(umem) buffer) → is_Some (um_byte s.(umem) (buffer + size - 1 - 4294967296)) →
   check_valid_buffer buffer size s = Ok (inl tt, s) ∧
   ∃ k, 0 <= k < size ∧ PHYS_BASE <= u32 (buffer + k)).
Proof.
  intros Hb Hs. unfold check_valid_buffer. rewrite (proj2 (Z.ltb_lt 0 size)) by lia.
  assert (Hptr : ∀ p s1 s2, check_valid_ptr p s1 = Ok (inl tt, s2) → 0 <= p → 0 < p < PHYS_BASE).
  { intros p s1 s2 E Hp. unfold check_valid_ptr in E. destruct (Z.eqb_spec p NULL) as [->|Hn]; [done|].
    unfold is_user_vaddr in E. destruct (Z.ltb_spec p PHYS_BASE); [lia|done]. }
  assert (Hok : ∀ p, um_ok s.(umem) → 0 < p < PHYS_BASE → is_Some (um_byte s.(umem) p) →
    check_valid_ptr p s = Ok (inl tt, s)).
  { intros p Hu Hp [b Hm]. unfold check_valid_ptr, is_user_vaddr.
    rewrite (proj2 (Z.eqb_neq p NULL)), (proj2 (Z.ltb_lt p PHYS_BASE)) by lia. cbn [negb orb].
    rewrite (run_Y _ _ _ _ _ (uget_ok s p b Hu ltac:(unfold user_va; lia) Hm)).
    pose proof (um_byte_range _ _ _ Hm). by rewrite (proj2 (Z.eqb_neq b (-1))) by lia. }
  split.
  - intros s' E Hle k Hk. unfold mbind, Y_bind in E.
    destruct (check_valid_ptr buffer s) as [[[[]|e] s1]| | |] eqn:E1; try done.
    apply Hptr in E1; [|lia]. rewrite u32_small in E by lia. apply Hptr in E; [|lia].
    unfold user_va. lia.
  - intros Hu Hw H1 H2 M1 M2. rewrite (run_Y _ _ _ _ _ (Hok _ Hu H1 M1)).
    replace (u32 (buffer + size - 1)) with (buffer + size - 1 - 4294967296) by (unfold u32; zdm).
    split; [by apply Hok|]. exists (PHYS_BASE - buffer). unfold PHYS_BASE in *. split; [lia|].
    rewrite u32_small by lia. lia.
Qed.

(** A buffer from 0x0804800c that ends four bytes before it, after going round
    the whole address space. *)
Lemma check_valid_buffer_range_witness :
  @check_valid_buffer xst demo_um 134512652 4294967292 demo_sys = Ok (inl tt, demo_sys) ∧
  ∃ k, 0 <= k < 4294967292 ∧ PHYS_BASE <= u32 (134512652 + k).
Proof.
  destruct (@check_valid_buffer_range xst demo_um demo_ums demo_sys 134512652 4294967292) as [_ H]; [lia|lia|].
  apply H; [apply demo_user_ok|lia|unfold PHYS_BASE; lia|unfold PHYS_BASE; lia|by vm_compute; eexists|by vm_compute; eexists].
Defined.
