(* ===== verification/Descriptors.v ===== *)
(** * Tables of the processor: userprog/gdt.c, userprog/tss.c, threads/interrupt.c

    The global descriptor table, the task-state segment and the interrupt
    descriptor table, as the 64-bit entries the code stores, and the registration
    of interrupt handlers.  The fields an entry has for the processor are read
    by [seg_base] and the like, from the layout the code cites.  The addresses of
    the assembly stubs of threads/intr-stubs.S are a parameter. *)

From stdpp Require Import strings.
From S2P Require Import Prelude Vaddr Selectors.

Open Scope Z_scope.

(** ** Segment descriptors *)

Definition CLS_SYSTEM : Z := 0.
Definition CLS_CODE_DATA : Z := 1.
Definition GRAN_BYTE : Z := 0.
Definition GRAN_PAGE : Z := 1.

Definition make_seg_desc (base limit class type dpl granularity : Z) : outcome Z :=
  ASSERT (limit <=? 1048575);;
  ASSERT ((class =? CLS_SYSTEM) || (class =? CLS_CODE_DATA));;
  ASSERT ((0 <=? type) && (type <=? 15));;
  ASSERT ((0 <=? dpl) && (dpl <=? 3));;
  ASSERT ((granularity =? GRAN_BYTE) || (granularity =? GRAN_PAGE));;
  let e0 := Z.lor (Z.land limit 65535) (u32 (Z.shiftl base 16)) in
  let e1 :=
    Z.lor (Z.lor (Z.lor (Z.lor (Z.lor (Z.lor (Z.lor (Z.lor
      (Z.land (Z.shiftr base 16) 255)
      (Z.shiftl type 8))
      (Z.shiftl class 12))
      (Z.shiftl dpl 13))
      (Z.shiftl 1 15))
      (Z.land limit 983040))
      (Z.shiftl 1 22))
      (Z.shiftl granularity 23))
      (Z.land base 4278190080) in
  Ok (Z.lor e0 (Z.shiftl e1 32)).

Definition make_code_desc (dpl : Z) : outcome Z :=
  make_seg_desc 0 1048575 CLS_CODE_DATA 10 dpl GRAN_PAGE.

Definition make_data_desc (dpl : Z) : outcome Z :=
  make_seg_desc 0 1048575 CLS_CODE_DATA 2 dpl GRAN_PAGE.

Definition make_tss_desc (laddr : Z) : outcome Z :=
  make_seg_desc laddr 103 CLS_SYSTEM 9 0 GRAN_BYTE.

Definition make_gdtr_operand (limit base : Z) : Z := Z.lor limit (Z.shiftl base 16).

(** ** The task-state segment *)

Record tss := mk_tss {
  back_link : Z; esp0 : Z; ss0 : Z; esp1 : Z; ss1 : Z; esp2 : Z; ss2 : Z;
  cr3 : Z; t_eip : Z; t_eflags : Z;
  t_eax : Z; t_ecx : Z; t_edx : Z; t_ebx : Z; t_esp : Z; t_ebp : Z; t_esi : Z; t_edi : Z;
  t_es : Z; t_cs : Z; t_ss : Z; t_ds : Z; t_fs : Z; t_gs : Z; ldt : Z;
  trace : Z; bitmap : Z }.

Definition zero_tss : tss := mk_tss 0 0 0 0 0 0 0 0 0 0 0 0 0 0 0 0 0 0 0 0 0 0 0 0 0 0 0.

(** The 32-bit words of the structure, a 16-bit field with the 16 bits after it. *)
Definition tss_words (t : tss) : list Z :=
  [t.(back_link); t.(esp0); t.(ss0); t.(esp1); t.(ss1); t.(esp2); t.(ss2); t.(cr3); t.(t_eip);
   t.(t_eflags); t.(t_eax); t.(t_ecx); t.(t_edx); t.(t_ebx); t.(t_esp); t.(t_ebp); t.(t_esi);
   t.(t_edi); t.(t_es); t.(t_cs); t.(t_ss); t.(t_ds); t.(t_fs); t.(t_gs); t.(ldt);
   t.(trace) + 65536 * t.(bitmap)].


Definition set_esp0 (v : Z) (t : tss) : tss :=
  mk_tss t.(back_link) v t.(ss0) t.(esp1) t.(ss1) t.(esp2) t.(ss2) t.(cr3) t.(t_eip) t.(t_eflags)
    t.(t_eax) t.(t_ecx) t.(t_edx) t.(t_ebx) t.(t_esp) t.(t_ebp) t.(t_esi) t.(t_edi)
    t.(t_es) t.(t_cs) t.(t_ss) t.(t_ds) t.(t_fs) t.(t_gs) t.(ldt) t.(trace) t.(bitmap).
Definition set_ss0_bitmap (s b : Z) (t : tss) : tss :=
  mk_tss t.(back_link) t.(esp0) s t.(esp1) t.(ss1) t.(esp2) t.(ss2) t.(cr3) t.(t_eip) t.(t_eflags)
    t.(t_eax) t.(t_ecx) t.(t_edx) t.(t_ebx) t.(t_esp) t.(t_ebp) t.(t_esi) t.(t_edi)
    t.(t_es) t.(t_cs) t.(t_ss) t.(t_ds) t.(t_fs) t.(t_gs) t.(ldt) t.(trace) b.

(** ** Interrupt descriptors *)

Definition INTR_CNT : Z := 256.

Definition make_gate (function dpl type : Z) : outcome Z :=
  ASSERT (negb (function =? 0));;
  ASSERT ((0 <=? dpl) && (dpl <=? 3));;
  ASSERT ((0 <=? type) && (type <=? 15));;
  let e0 := Z.lor (Z.land function 65535) (Z.shiftl SEL_KCSEG 16) in
  let e1 :=
    Z.lor (Z.lor (Z.lor (Z.lor
      (Z.land function 4294901760)
      (Z.shiftl 1 15))
      (Z.shiftl dpl 13))
      (Z.shiftl 0 12))
      (Z.shiftl type 8) in
  Ok (Z.lor e0 (Z.shiftl e1 32)).

Definition make_intr_gate (function dpl : Z) : outcome Z := make_gate function dpl 14.
Definition make_trap_gate (function dpl : Z) : outcome Z := make_gate function dpl 15.
Definition make_idtr_operand (limit base : Z) : Z := Z.lor limit (Z.shiftl base 16).

(** The functions that are registered as handlers. *)
Inductive handler :=
  | Kill | PageFault | SyscallHandler | TimerInterrupt | KeyboardInterrupt
  | SerialInterrupt | IdeInterrupt.

#[export] Instance handler_eq_dec : EqDecision handler.
Proof. solve_decision. Defined.

(** The state: the tables in memory, the registers of the processor that point to
    them, the bytes written to ports, newest last, and the messages printed. *)
Record tables := mk_tables {
  gdt : list Z;
  idt : list Z;
  intr_handlers : list (option handler);
  intr_names : list string;
  unexpected_cnt : list Z;
  tss_ptr : option (Z * tss);
  gdtr : Z;
  tr : Z;
  idtr : Z;
  ports : list (Z * Z);
  messages : list (Z * string) }.

Abbreviation D := (st tables).

Definition set_gdt (g : list Z) (s : tables) : tables :=
  mk_tables g s.(idt) s.(intr_handlers) s.(intr_names) s.(unexpected_cnt) s.(tss_ptr) s.(gdtr) s.(tr)
    s.(idtr) s.(ports) s.(messages).
Definition set_gdtr (g t : Z) (s : tables) : tables :=
  mk_tables s.(gdt) s.(idt) s.(intr_handlers) s.(intr_names) s.(unexpected_cnt) s.(tss_ptr) g t
    s.(idtr) s.(ports) s.(messages).
Definition set_tss (t : option (Z * tss)) (s : tables) : tables :=
  mk_tables s.(gdt) s.(idt) s.(intr_handlers) s.(intr_names) s.(unexpected_cnt) t s.(gdtr) s.(tr)
    s.(idtr) s.(ports) s.(messages).
Definition set_idt (i : list Z) (s : tables) : tables :=
  mk_tables s.(gdt) i s.(intr_handlers) s.(intr_names) s.(unexpected_cnt) s.(tss_ptr) s.(gdtr) s.(tr)
    s.(idtr) s.(ports) s.(messages).
Definition set_idtr (i : Z) (s : tables) : tables :=
  mk_tables s.(gdt) s.(idt) s.(intr_handlers) s.(intr_names) s.(unexpected_cnt) s.(tss_ptr) s.(gdtr)
    s.(tr) i s.(ports) s.(messages).
Definition set_handlers (h : list (option handler)) (s : tables) : tables :=
  mk_tables s.(gdt) s.(idt) h s.(intr_names) s.(unexpected_cnt) s.(tss_ptr) s.(gdtr) s.(tr) s.(idtr)
    s.(ports) s.(messages).
Definition set_names (n : list string) (s : tables) : tables :=
  mk_tables s.(gdt) s.(idt) s.(intr_handlers) n s.(unexpected_cnt) s.(tss_ptr) s.(gdtr) s.(tr) s.(idtr)
    s.(ports) s.(messages).
Definition set_unexpected (c : list Z) (s : tables) : tables :=
  mk_tables s.(gdt) s.(idt) s.(intr_handlers) s.(intr_names) c s.(tss_ptr) s.(gdtr) s.(tr) s.(idtr)
    s.(ports) s.(messages).
Definition set_ports (p : list (Z * Z)) (s : tables) : tables :=
  mk_tables s.(gdt) s.(idt) s.(intr_handlers) s.(intr_names) s.(unexpected_cnt) s.(tss_ptr) s.(gdtr)
    s.(tr) s.(idtr) p s.(messages).
Definition set_messages (m : list (Z * string)) (s : tables) : tables :=
  mk_tables s.(gdt) s.(idt) s.(intr_handlers) s.(intr_names) s.(unexpected_cnt) s.(tss_ptr) s.(gdtr)
    s.(tr) s.(idtr) s.(ports) m.

Definition outb (port data : Z) : D unit := modify (λ s, set_ports (s.(ports) ++ [(port, data)]) s).

Definition tss_get : D (Z * tss) :=
  t ← gets tss_ptr;
  match t with Some pt => mret pt | None => lift Panic end.

(** [cur] is the page of the running thread. *)
Definition tss_update (cur : Z) : D unit :=
  '(p, t) ← tss_get;
  modify (set_tss (Some (p, set_esp0 (u32 (cur + PGSIZE)) t))).

(** [page] is the zeroed page that the page allocator returns. *)
Definition tss_init (page cur : Z) : D unit :=
  modify (set_tss (Some (page, zero_tss)));;
  modify (λ s, set_tss (Some (page, set_ss0_bitmap SEL_KDSEG 57343 zero_tss)) s);;
  tss_update cur.

(** gdt[sel / 8] = d. *)
Definition set_desc (sel d : Z) : D unit :=
  g ← gets gdt;
  lift (deref (g !! Z.to_nat (sel / 8)));;
  modify (set_gdt (<[Z.to_nat (sel / 8) := d]> g)).

(** [gdt_addr] is the address of the table. *)
Definition gdt_init (gdt_addr : Z) : D unit :=
  set_desc SEL_NULL 0;;
  d ← lift (make_code_desc 0); set_desc SEL_KCSEG d;;
  d ← lift (make_data_desc 0); set_desc SEL_KDSEG d;;
  d ← lift (make_code_desc 3); set_desc SEL_UCSEG d;;
  d ← lift (make_data_desc 3); set_desc SEL_UDSEG d;;
  '(t, _) ← tss_get;
  d ← lift (make_tss_desc t); set_desc SEL_TSS d;;
  modify (set_gdtr (make_gdtr_operand (8 * SEL_CNT - 1) gdt_addr) SEL_TSS).

(** *** The interrupt controller *)

Definition PIC0_CTRL : Z := 32.
Definition PIC0_DATA : Z := 33.
Definition PIC1_CTRL : Z := 160.
Definition PIC1_DATA : Z := 161.

Definition pic_init : D unit :=
  outb PIC0_DATA 255;; outb PIC1_DATA 255;;
  outb PIC0_CTRL 17;; outb PIC0_DATA 32;; outb PIC0_DATA 4;; outb PIC0_DATA 1;;
  outb PIC1_CTRL 17;; outb PIC1_DATA 40;; outb PIC1_DATA 2;; outb PIC1_DATA 1;;
  outb PIC0_DATA 0;; outb PIC1_DATA 0.

Definition pic_end_of_interrupt (irq : Z) : D unit :=
  lift (ASSERT ((32 <=? irq) && (irq <? 48)));;
  outb 32 32;;
  when (40 <=? irq) (outb 160 32).

(** *** Registration of handlers *)

(** The names of the exceptions of the processor. *)
Definition exception_names : list (Z * string) :=
  [(0, "#DE Divide Error"); (1, "#DB Debug Exception"); (2, "NMI Interrupt");
   (3, "#BP Breakpoint Exception"); (4, "#OF Overflow Exception");
   (5, "#BR BOUND Range Exceeded Exception"); (6, "#UD Invalid Opcode Exception");
   (7, "#NM Device Not Available Exception"); (8, "#DF Double Fault Exception");
   (9, "Coprocessor Segment Overrun"); (10, "#TS Invalid TSS Exception");
   (11, "#NP Segment Not Present"); (12, "#SS Stack Fault Exception");
   (13, "#GP General Protection Exception"); (14, "#PF Page-Fault Exception");
   (16, "#MF x87 FPU Floating-Point Error"); (17, "#AC Alignment Check Exception");
   (18, "#MC Machine-Check Exception"); (19, "#XF SIMD Floating-Point Exception")]%string.

Definition set_name (vec_no : Z) (name : string) : D unit :=
  n ← gets intr_names;
  lift (deref (n !! Z.to_nat vec_no));;
  modify (set_names (<[Z.to_nat vec_no := name]> n)).

Definition set_gate (vec_no d : Z) : D unit :=
  i ← gets idt;
  lift (deref (i !! Z.to_nat vec_no));;
  modify (set_idt (<[Z.to_nat vec_no := d]> i)).

Section stubs.
Context (intr_stubs : Z → Z).

Definition intr_init (idt_addr : Z) : D unit :=
  pic_init;;
  for_st 256 0 (λ i, d ← lift (make_intr_gate (intr_stubs i) 0); set_gate i d);;
  modify (set_idtr (make_idtr_operand (8 * INTR_CNT - 1) idt_addr));;
  for_st 256 0 (λ i, set_name i "unknown");;
  foldr (λ '(i, n) m, set_name i n;; m) (mret tt) exception_names.

Definition register_handler (vec_no dpl : Z) (level : bool) (h : handler) (name : string) : D unit :=
  hs ← gets intr_handlers;
  o ← lift (deref (hs !! Z.to_nat vec_no));
  lift (ASSERT (bool_decide (o = None)));;
  d ← lift (if level then make_trap_gate (intr_stubs vec_no) dpl else make_intr_gate (intr_stubs vec_no) dpl);
  set_gate vec_no d;;
  modify (set_handlers (<[Z.to_nat vec_no := Some h]> hs));;
  set_name vec_no name.

Definition intr_register_ext (vec_no : Z) (h : handler) (name : string) : D unit :=
  lift (ASSERT ((32 <=? vec_no) && (vec_no <=? 47)));;
  register_handler vec_no 0 false h name.

Definition intr_register_int (vec_no dpl : Z) (level : bool) (h : handler) (name : string) : D unit :=
  lift (ASSERT ((vec_no <? 32) || (47 <? vec_no)));;
  register_handler vec_no dpl level h name.

Definition exception_init : D unit :=
  intr_register_int 3 3 true Kill "#BP Breakpoint Exception";;
  intr_register_int 4 3 true Kill "#OF Overflow Exception";;
  intr_register_int 5 3 true Kill "#BR BOUND Range Exceeded Exception";;
  intr_register_int 0 0 true Kill "#DE Divide Error";;
  intr_register_int 1 0 true Kill "#DB Debug Exception";;
  intr_register_int 6 0 true Kill "#UD Invalid Opcode Exception";;
  intr_register_int 7 0 true Kill "#NM Device Not Available Exception";;
  intr_register_int 11 0 true Kill "#NP Segment Not Present";;
  intr_register_int 12 0 true Kill "#SS Stack Fault Exception";;
  intr_register_int 13 0 true Kill "#GP General Protection Exception";;
  intr_register_int 16 0 true Kill "#MF x87 FPU Floating-Point Error";;
  intr_register_int 19 0 true Kill "#XF SIMD Floating-Point Exception";;
  intr_register_int 14 0 false PageFault "#PF Page-Fault Exception".

(** The registrations of syscall_init(), timer_init(), kbd_init(),
    serial_init_queue() and ide_init(). *)
Definition syscall_register : D unit := intr_register_int 48 3 true SyscallHandler "syscall".
Definition timer_register : D unit := intr_register_ext 32 TimerInterrupt "8254 Timer".
Definition kbd_register : D unit := intr_register_ext 33 KeyboardInterrupt "8042 Keyboard".
Definition serial_register : D unit := intr_register_ext (32 + 4) SerialInterrupt "serial".
Definition ide_register : D unit :=
  intr_register_ext (14 + 32) IdeInterrupt "ide0";; intr_register_ext (15 + 32) IdeInterrupt "ide1".

(** What pintos_init() does to the tables, in its order. *)
Definition boot_tables (tss_page cur gdt_addr idt_addr : Z) : D unit :=
  tss_init tss_page cur;;
  gdt_init gdt_addr;;
  intr_init idt_addr;;
  timer_register;;
  kbd_register;;
  exception_init;;
  syscall_register;;
  serial_register;;
  ide_register.

End stubs.

(** *** Interrupts *)

Definition intr_name (vec : Z) : D string := n ← gets intr_names; lift (deref (n !! Z.to_nat vec)).

Definition unexpected_interrupt (vec_no : Z) : D unit :=
  c ← gets unexpected_cnt;
  k ← lift (deref (c !! Z.to_nat vec_no));
  let n := u32 (k + 1) in
  modify (set_unexpected (<[Z.to_nat vec_no := n]> c));;
  when (Z.land n (u32 (n - 1)) =? 0)
    (name ← intr_name vec_no; modify (λ s, set_messages (s.(messages) ++ [(vec_no, name)]) s)).

(** The part of intr_handler() that chooses the handler; the rest of it is in
    Thread.v. *)
Definition intr_dispatch (run : handler → D unit) (vec_no : Z) : D unit :=
  hs ← gets intr_handlers;
  h ← lift (deref (hs !! Z.to_nat vec_no));
  match h with
  | Some h => run h
  | None => if (vec_no =? 39) || (vec_no =? 47) then mret tt else unexpected_interrupt vec_no
  end.

(** ** What the processor reads *)

(** The bits of [d] from [lo] on, [w] of them. *)
Definition bits (d lo w : Z) : Z := Z.land (Z.shiftr d lo) (Z.ones w).

Record segment := mk_segment {
  seg_base : Z; seg_limit : Z; seg_type : Z; seg_class : Z; seg_dpl : Z; seg_present : Z;
  seg_32bit : Z; seg_gran : Z }.

Definition read_segment (d : Z) : segment :=
  mk_segment (bits d 16 24 + 16777216 * bits d 56 8) (bits d 0 16 + 65536 * bits d 48 4) (bits d 40 4)
    (bits d 44 1) (bits d 45 2) (bits d 47 1) (bits d 54 1) (bits d 55 1).

Record gate := mk_gate_view {
  g_offset : Z; g_selector : Z; g_type : Z; g_system : Z; g_dpl : Z; g_present : Z; g_reserved : Z }.

Definition read_gate (d : Z) : gate :=
  mk_gate_view (bits d 0 16 + 65536 * bits d 48 16) (bits d 16 16) (bits d 40 4) (bits d 44 1) (bits d 45 2)
    (bits d 47 1) (bits d 32 8).

(** ** Bit fields *)

(** The bits of [x] that a mask of [w] ones from [k] on selects. *)
Lemma land_mask x k w : 0 <= k → 0 <= w → Z.land x (Z.shiftl (Z.ones w) k) = (x / 2 ^ k) mod 2 ^ w * 2 ^ k.
Proof.
  intros Hk Hw. rewrite <- Z.land_ones, <- Z.shiftr_div_pow2, <- Z.shiftl_mul_pow2 by done.
  apply Z.bits_inj'. intros n Hn. rewrite Z.land_spec, !Z.shiftl_spec by done. destruct (decide (n < k)).
  - rewrite !(Z.testbit_neg_r _ (n - k)) by lia. apply andb_false_r.
  - rewrite Z.land_spec, Z.shiftr_spec by lia. by replace (n - k + k) with n by lia.
Qed.

Lemma bits_eq d lo w : 0 <= lo → 0 <= w → bits d lo w = (d / 2 ^ lo) mod 2 ^ w.
Proof. intros. unfold bits. by rewrite Z.land_ones, Z.shiftr_div_pow2. Qed.

Lemma land_low x w m : 0 <= w → m = Z.ones w → Z.land x m = x mod 2 ^ w.
Proof. intros ? ->. by apply Z.land_ones. Qed.

(** Segment descriptors and gates as sums of their fields. *)
Definition seg_value (base limit class type dpl granularity : Z) : Z :=
  limit mod 65536 + base mod 65536 * 65536 +
  (base / 65536 mod 256 + type * 256 + class * 4096 + dpl * 8192 + 32768 + limit / 65536 * 65536 + 4194304 +
   granularity * 8388608 + base / 16777216 * 16777216) * 4294967296.

Definition gate_value (function dpl type : Z) : Z :=
  function mod 65536 + 524288 +
  (function / 65536 * 65536 + 32768 + dpl * 8192 + type * 256) * 4294967296.

Lemma make_seg_desc_eq base limit class type dpl granularity :
  is_u32 base → 0 <= limit <= 1048575 → 0 <= class <= 1 → 0 <= type <= 15 → 0 <= dpl <= 3 → 0 <= granularity <= 1 →
  make_seg_desc base limit class type dpl granularity = Ok (seg_value base limit class type dpl granularity).
Proof.
  intros Hb Hl Hc Ht Hd Hg. unfold make_seg_desc, CLS_SYSTEM, CLS_CODE_DATA, GRAN_BYTE, GRAN_PAGE.
  rewrite !ASSERT_true, !bind_ret by lia. f_equal.
  rewrite (land_low limit 16), (land_low (Z.shiftr base 16) 8), Z.shiftr_div_pow2, !Z.shiftl_mul_pow2 by (done || lia).
  change 983040 with (Z.shiftl (Z.ones 4) 16). change 4278190080 with (Z.shiftl (Z.ones 8) 24).
  rewrite !land_mask by lia.
  replace (u32 (base * 2 ^ 16)) with ((base mod 65536) * 2 ^ 16) by (unfold u32; zdm).
  rewrite (lor_low _ _ 16) by zdm.
  rewrite (lor_low _ type 8) by zdm. rewrite (lor_low _ class 12) by zdm.
  rewrite (lor_low _ dpl 13) by zdm. rewrite (lor_low _ 1 15) by zdm. rewrite (lor_low _ _ 16) by zdm.
  rewrite (lor_low _ 1 22) by zdm. rewrite (lor_low _ granularity 23) by zdm. rewrite (lor_low _ _ 24) by zdm.
  rewrite (lor_low _ _ 32) by zdm. unfold seg_value. zdm.
Qed.

Lemma make_gate_eq function dpl type :
  0 < function < 4294967296 → 0 <= dpl <= 3 → 0 <= type <= 15 →
  make_gate function dpl type = Ok (gate_value function dpl type).
Proof.
  intros Hf Hd Ht. unfold make_gate. rewrite !ASSERT_true, !bind_ret by lia. f_equal. unfold SEL_KCSEG.
  rewrite (land_low function 16), !Z.shiftl_mul_pow2 by (done || lia).
  change 4294901760 with (Z.shiftl (Z.ones 16) 16). rewrite land_mask by lia.
  rewrite (lor_low _ 8 16) by zdm. change (1 * 2 ^ 15) with 32768. change (0 * 2 ^ 12) with 0. rewrite Z.lor_0_r.
  rewrite (lor_high _ 32768 16) by lia.
  replace (function / 2 ^ 16 mod 2 ^ 16 * 2 ^ 16 + 32768) with ((function / 2 ^ 16 mod 2 ^ 16 * 2 + 1) * 2 ^ 15) by lia.
  rewrite (lor_high _ _ 15) by lia.
  replace ((function / 2 ^ 16 mod 2 ^ 16 * 2 + 1) * 2 ^ 15 + dpl * 2 ^ 13) with
    (((function / 2 ^ 16 mod 2 ^ 16 * 2 + 1) * 4 + dpl) * 2 ^ 13) by lia.
  rewrite (lor_high _ _ 13) by lia. rewrite (lor_low _ _ 32) by zdm. unfold gate_value. zdm.
Qed.

Lemma read_segment_value base limit class type dpl granularity :
  is_u32 base → 0 <= limit <= 1048575 → 0 <= class <= 1 → 0 <= type <= 15 → 0 <= dpl <= 3 → 0 <= granularity <= 1 →
  read_segment (seg_value base limit class type dpl granularity) =
    mk_segment base limit type class dpl 1 1 granularity.
Proof.
  intros Hb Hl Hc Ht Hd Hg. unfold read_segment. rewrite !bits_eq by lia. unfold seg_value. f_equal; zdm.
Qed.

Lemma read_gate_value function dpl type :
  0 < function < 4294967296 → 0 <= dpl <= 3 → 0 <= type <= 15 →
  read_gate (gate_value function dpl type) = mk_gate_view function SEL_KCSEG type 0 dpl 1 0.
Proof. intros Hf Hd Ht. unfold read_gate, SEL_KCSEG. rewrite !bits_eq by lia. unfold gate_value. f_equal; zdm. Qed.

(** ** Registration as a write-once map

    A map from vectors to the level and handler they were registered with. *)
Abbreviation entry := (Z * bool * handler)%type.

Definition gate_type (level : bool) : Z := if level then 15 else 14.

Definition gate_of (stub : Z) (o : option entry) : Z :=
  match o with
  | Some (dpl, level, _) => gate_value stub dpl (gate_type level)
  | None => gate_value stub 0 14
  end.

(** An entry that may be registered at a vector. *)
Definition entry_ok (i : Z) (e : entry) : Prop :=
  let '(dpl, level, _) := e in
  is_u8 i ∧ 0 <= dpl <= 3 ∧ (32 <= i <= 47 → dpl = 0 ∧ level = false).

Section registration.
Context (intr_stubs : Z → Z) (Hstubs : ∀ i, 0 < intr_stubs i < 4294967296).

Record implements (s : tables) (R : gmap Z entry) : Prop := {
  im_idt : ∀ i, is_u8 i → s.(idt) !! Z.to_nat i = Some (gate_of (intr_stubs i) (R !! i));
  im_handlers : ∀ i, is_u8 i → s.(intr_handlers) !! Z.to_nat i = Some (snd <$> R !! i);
  im_len : length s.(idt) = 256%nat ∧ length s.(intr_names) = 256%nat;
  im_entry : ∀ i e, R !! i = Some e → entry_ok i e }.

(** What registration leaves alone. *)
Definition same_segments (s s' : tables) : Prop :=
  s'.(gdt) = s.(gdt) ∧ s'.(tss_ptr) = s.(tss_ptr) ∧ s'.(gdtr) = s.(gdtr) ∧ s'.(tr) = s.(tr) ∧ s'.(idtr) = s.(idtr).

Lemma set_gate_run vec d s :
  is_u8 vec → length s.(idt) = 256%nat →
  set_gate vec d s = Ok (tt, set_idt (<[Z.to_nat vec := d]> s.(idt)) s).
Proof.
  intros Hv Hl. unfold set_gate. rewrite run_gets. destruct (lookup_lt_is_Some_2 (idt s) (Z.to_nat vec)) as [x Hx]; [lia|].
  rewrite (run_lift _ _ _ x) by by rewrite Hx. done.
Qed.

Lemma set_name_run vec n s :
  is_u8 vec → length s.(intr_names) = 256%nat →
  set_name vec n s = Ok (tt, set_names (<[Z.to_nat vec := n]> s.(intr_names)) s).
Proof.
  intros Hv Hl. unfold set_name. rewrite run_gets.
  destruct (lookup_lt_is_Some_2 (intr_names s) (Z.to_nat vec)) as [x Hx]; [lia|].
  rewrite (run_lift _ _ _ x) by by rewrite Hx. done.
Qed.

Lemma gate_made vec dpl (level : bool) :
  0 <= dpl <= 3 →
  (if level then make_trap_gate (intr_stubs vec) dpl else make_intr_gate (intr_stubs vec) dpl) =
    Ok (gate_value (intr_stubs vec) dpl (gate_type level)).
Proof.
  intros Hd. unfold make_trap_gate, make_intr_gate, gate_type. pose proof (Hstubs vec).
  destruct level; by rewrite make_gate_eq by lia.
Qed.

Lemma register_run s R vec dpl level h name :
  implements s R → R !! vec = None → entry_ok vec (dpl, level, h) →
  ∃ s', register_handler intr_stubs vec dpl level h name s = Ok (tt, s') ∧
    implements s' (<[vec := (dpl, level, h)]> R) ∧ same_segments s s'.
Proof.
  intros [H1 H2 [H3 H4] H5] Hn He. pose proof He as (Hv & Hd & Hx). unfold register_handler. rewrite run_gets.
  rewrite (run_lift _ _ _ None) by by rewrite (H2 vec Hv), Hn.
  rewrite (run_lift _ _ _ tt) by by rewrite bool_decide_eq_true_2. rewrite (run_lift _ _ _ _ (gate_made vec dpl level Hd)).
  rewrite (run_bind _ _ _ _ _ (set_gate_run vec _ s Hv H3)), run_modify.
  rewrite set_name_run by done. eexists. split; [reflexivity|]. split; [|done].
  split; cbn [set_names set_handlers set_idt idt intr_handlers intr_names].
  - intros i Hi. destruct (decide (i = vec)) as [-> | Hne].
    + rewrite list_lookup_insert_eq, lookup_insert_eq by (rewrite H3; lia). done.
    + rewrite list_lookup_insert_ne, lookup_insert_ne by (done || lia). auto.
  - intros i Hi. destruct (decide (i = vec)) as [-> | Hne].
    + rewrite list_lookup_insert_eq, lookup_insert_eq; [done|]. apply lookup_lt_is_Some. by rewrite (H2 vec Hv).
    + rewrite list_lookup_insert_ne, lookup_insert_ne by (done || lia). auto.
  - by rewrite !length_insert.
  - intros i e Hi. apply lookup_insert_Some in Hi as [[<- <-] | [_ Hi]]; auto.
Qed.

Lemma register_again s R vec dpl level h name e :
  implements s R → R !! vec = Some e → register_handler intr_stubs vec dpl level h name s = Panic.
Proof.
  intros [H1 H2 _ H5] He. destruct e as [[d l] h0] eqn:E. destruct (H5 vec _ He) as (Hv & _). unfold register_handler.
  rewrite run_gets, (run_lift _ _ _ (Some h0)) by by rewrite (H2 vec Hv), He. done.
Qed.

Lemma register_int_run s R vec dpl level h name :
  implements s R → R !! vec = None → entry_ok vec (dpl, level, h) → vec < 32 ∨ 47 < vec →
  ∃ s', intr_register_int intr_stubs vec dpl level h name s = Ok (tt, s') ∧
    implements s' (<[vec := (dpl, level, h)]> R) ∧ same_segments s s'.
Proof. intros HR Hn He Hv. unfold intr_register_int. rewrite (run_lift _ _ _ tt) by (apply ASSERT_true; lia). by apply register_run. Qed.

Lemma register_ext_run s R vec h name :
  implements s R → R !! vec = None → 32 <= vec <= 47 →
  ∃ s', intr_register_ext intr_stubs vec h name s = Ok (tt, s') ∧
    implements s' (<[vec := (0, false, h)]> R) ∧ same_segments s s'.
Proof.
  intros HR Hn Hv. unfold intr_register_ext. rewrite (run_lift _ _ _ tt) by (apply ASSERT_true; lia).
  apply register_run; [done..|]. split; lia || done.
Qed.

Lemma implements_gate s R i d :
  implements s R → s.(idt) !! i = Some d →
  read_gate d = mk_gate_view (intr_stubs (Z.of_nat i)) SEL_KCSEG
    (gate_type (from_option (λ e, e.1.2) false (R !! Z.of_nat i))) 0 (from_option (λ e, e.1.1) 0 (R !! Z.of_nat i)) 1 0.
Proof.
  intros [H1 _ [H3 _] H5] Hd. pose proof (lookup_lt_Some _ _ _ Hd). specialize (H1 (Z.of_nat i) ltac:(lia)).
  rewrite Nat2Z.id, Hd in H1. injection H1 as ->. pose proof (Hstubs (Z.of_nat i)).
  destruct (R !! Z.of_nat i) as [[[dpl l] h]|] eqn:E; cbn [gate_of from_option fst snd].
  - destruct (H5 _ _ E) as (_ & Hd' & _). destruct l; by rewrite read_gate_value by (cbn [gate_type]; lia).
  - by rewrite read_gate_value by lia.
Qed.

Lemma pic_init_run s :
  pic_init s = Ok (tt, set_ports (s.(ports) ++ [(33, 255); (161, 255); (32, 17); (33, 32); (33, 4); (33, 1);
    (160, 17); (161, 40); (161, 2); (161, 1); (33, 0); (161, 0)]) s).
Proof.
  unfold pic_init, outb, PIC0_CTRL, PIC0_DATA, PIC1_CTRL, PIC1_DATA, modify, mbind, st_bind.
  cbn [set_ports ports]. by rewrite <- !app_assoc.
Qed.

(** intr_init(), from arrays without handlers. *)
Lemma intr_init_run s idt_addr :
  length s.(idt) = 256%nat → length s.(intr_names) = 256%nat → s.(intr_handlers) = replicate 256 None →
  ∃ s', intr_init intr_stubs idt_addr s = Ok (tt, s') ∧ implements s' ∅ ∧
    s'.(idtr) = make_idtr_operand 2047 idt_addr ∧ s'.(gdt) = s.(gdt) ∧ s'.(tss_ptr) = s.(tss_ptr) ∧
    s'.(gdtr) = s.(gdtr) ∧ s'.(tr) = s.(tr).
Proof.
  intros Hi Hn Hh. unfold intr_init.
  rewrite (run_bind pic_init _ s tt (set_ports (s.(ports) ++ [(33, 255); (161, 255); (32, 17); (33, 32); (33, 4); (33, 1);
    (160, 17); (161, 40); (161, 2); (161, 1); (33, 0); (161, 0)]) s))
    by apply pic_init_run.
  set (s1 := set_ports _ s).
  destruct (for_st_inv (λ k t, ∃ g, t = set_idt g s1 ∧ length g = 256%nat ∧
      ∀ i, 0 <= i < k → g !! Z.to_nat i = Some (gate_value (intr_stubs i) 0 14))
      (λ i, d ← lift (make_intr_gate (intr_stubs i) 0); set_gate i d) 256 0 s1) as (s2 & E2 & g & -> & Hg & Hv).
  { intros j t Hj (g & -> & Hg & Hv). unfold make_intr_gate. pose proof (Hstubs j).
    rewrite (run_lift _ _ _ _ (make_gate_eq (intr_stubs j) 0 14 ltac:(lia) ltac:(lia) ltac:(lia))).
    rewrite set_gate_run by (done || lia). eexists. split; [reflexivity|]. cbn [set_idt idt]. eexists. split; [reflexivity|].
    split; [by rewrite length_insert|]. intros i Hi'. destruct (decide (i = j)) as [-> |].
    - rewrite list_lookup_insert_eq by lia. done.
    - rewrite list_lookup_insert_ne by lia. apply Hv. lia. }
  { exists (idt s1). split; [by destruct s|]. split; [done|lia]. }
  rewrite (run_bind _ _ _ _ _ E2), run_modify.
  set (s3 := set_idtr _ _).
  destruct (for_st_inv (λ _ t, ∃ n, t = set_names n s3 ∧ length n = 256%nat)
      (λ i, set_name i "unknown") 256 0 s3) as (s4 & E4 & n & -> & Hn').
  { intros j t Hj (n & -> & Hn'). rewrite set_name_run by (done || lia). eexists. split; [reflexivity|].
    eexists. split; [reflexivity|]. by rewrite length_insert. }
  { exists (intr_names s3). by destruct s. }
  rewrite (run_bind _ _ _ _ _ E4).
  assert (Hf : ∀ l n, Forall (λ p, is_u8 p.1) l → length n = 256%nat →
    ∃ n', foldr (λ '(i, n) m, set_name i n;; m) (mret tt) l (set_names n s3) = Ok (tt, set_names n' s3) ∧ length n' = 256%nat).
  { clear. induction l as [|[i x] l IH]; intros n Hl Hn; cbn [foldr]; [by exists n|]. rewrite Forall_cons in Hl. destruct Hl as [Hi Hl].
    cbn [fst] in Hi. rewrite (run_bind _ _ _ _ _ (set_name_run i x (set_names n s3) Hi Hn)).
    apply IH; [done|]. by rewrite length_insert. }
  destruct (Hf exception_names n) as (n' & -> & Hl'); [repeat (constructor; [cbn; lia|]); constructor|done|].
  eexists. split; [reflexivity|]. split; [|done]. split.
  - intros i Hi'. rewrite lookup_empty. apply Hv. lia.
  - intros i Hi'. cbn [set_names set_idtr set_idt set_ports intr_handlers s3 s1]. rewrite Hh, lookup_empty.
    apply lookup_replicate_2. lia.
  - done.
  - intros i e. by rewrite lookup_empty.
Qed.

End registration.

(** ** Theorems *)

(** C31: the interrupt descriptor table is always well-typed.  A registration
    outside its range of vectors, or of a vector that has a handler, panics; any
    other one succeeds and changes the entry of its vector only.  Every entry is
    at all times a present gate into the kernel code segment that leads to the
    stub of its own vector, an interrupt gate or a trap gate; a vector without a
    handler, and every vector of an external interrupt, has an interrupt gate
    that user programs cannot invoke. *)
Theorem registration_typed (intr_stubs : Z → Z) s R vec dpl level h name :
  (∀ i, 0 < intr_stubs i < 4294967296) → implements intr_stubs s R → is_u8 vec → 0 <= dpl <= 3 →
  (let external := 32 <= vec <= 47 in
   (∃ s', ¬ external ∧ R !! vec = None ∧ intr_register_int intr_stubs vec dpl level h name s = Ok (tt, s') ∧
      implements intr_stubs s' (<[vec := (dpl, level, h)]> R)) ∨
   ((external ∨ is_Some (R !! vec)) ∧ intr_register_int intr_stubs vec dpl level h name s = Panic)) ∧
  (let external := 32 <= vec <= 47 in
   (∃ s', external ∧ R !! vec = None ∧ intr_register_ext intr_stubs vec h name s = Ok (tt, s') ∧
      implements intr_stubs s' (<[vec := (0, false, h)]> R)) ∨
   ((¬ external ∨ is_Some (R !! vec)) ∧ intr_register_ext intr_stubs vec h name s = Panic)) ∧
  (∀ i d, s.(idt) !! i = Some d →
     let g := read_gate d in
     g.(g_offset) = intr_stubs (Z.of_nat i) ∧ g.(g_selector) = SEL_KCSEG ∧ g.(g_present) = 1 ∧ g.(g_system) = 0 ∧
     g.(g_reserved) = 0 ∧ 0 <= g.(g_dpl) <= 3 ∧ (g.(g_type) = 14 ∨ g.(g_type) = 15) ∧
     (s.(intr_handlers) !! i = Some None ∨ (32 <= i <= 47)%nat → g.(g_dpl) = 0 ∧ g.(g_type) = 14)).
Proof.
  intros Hst HR Hv Hd. cbn zeta. split; [|split].
  - destruct (R !! vec) as [e|] eqn:E.
    + right. split; [eauto|]. unfold intr_register_int. destruct (ASSERT _) eqn:Ea; try (unfold ASSERT in Ea; by case_match).
      unfold mbind, st_bind, lift. cbn. by eapply register_again.
    + destruct (decide (32 <= vec <= 47)) as [Hx|Hx].
      * right. split; [by left|]. unfold intr_register_int, ASSERT. by rewrite (proj2 (orb_false_iff _ _)) by lia.
      * left. destruct (register_int_run intr_stubs Hst s R vec dpl level h name HR E) as (s' & E' & H' & _);
          [by repeat split; try lia|lia|]. eauto.
  - destruct (R !! vec) as [e|] eqn:E.
    + right. split; [eauto|]. unfold intr_register_ext. destruct (ASSERT _) eqn:Ea; try (unfold ASSERT in Ea; by case_match).
      unfold mbind, st_bind, lift. cbn. by eapply register_again.
    + destruct (decide (32 <= vec <= 47)) as [Hx|Hx].
      * left. destruct (register_ext_run intr_stubs Hst s R vec h name HR E Hx) as (s' & E' & H' & _). eauto.
      * right. split; [by left|]. unfold intr_register_ext, ASSERT. by rewrite (proj2 (andb_false_iff _ _)) by lia.
  - intros i d Hi. rewrite (implements_gate intr_stubs Hst s R i d HR Hi). cbn. do 5 (split; [done|]).
    destruct HR as [_ H2 [H3 _] H5]. pose proof (lookup_lt_Some _ _ _ Hi). specialize (H2 (Z.of_nat i) ltac:(lia)).
    rewrite Nat2Z.id in H2. destruct (R !! Z.of_nat i) as [[[dp l] h0]|] eqn:E; cbn.
    + destruct (H5 _ _ E) as (_ & Hdp & Hx). split; [done|]. split; [destruct l; cbn; auto|].
      intros [Hn | Hr]; [rewrite H2 in Hn; done|]. destruct Hx as [-> ->]; [lia|]. done.
    + repeat split; auto; lia.
Qed.

(** The entry a boot registers for a vector. *)
Definition boot_entries : gmap Z entry :=
  list_to_map [(32, (0, false, TimerInterrupt)); (33, (0, false, KeyboardInterrupt)); (3, (3, true, Kill));
    (4, (3, true, Kill)); (5, (3, true, Kill)); (0, (0, true, Kill)); (1, (0, true, Kill)); (6, (0, true, Kill));
    (7, (0, true, Kill)); (11, (0, true, Kill)); (12, (0, true, Kill)); (13, (0, true, Kill)); (16, (0, true, Kill));
    (19, (0, true, Kill)); (14, (0, false, PageFault)); (48, (3, true, SyscallHandler));
    (36, (0, false, SerialInterrupt)); (46, (0, false, IdeInterrupt)); (47, (0, false, IdeInterrupt))].

(** Memory as bss_init() leaves it. *)
Definition bss_tables : tables :=
  mk_tables (replicate 6 0) (replicate 256 0) (replicate 256 None) (replicate 256 ""%string) (replicate 256 0) None
    0 0 0 [] [].

Lemma bind_assoc_run {S A B C} (m : st S A) (f : A → st S B) (g : B → st S C) s :
  ((m ≫= f) ≫= g) s = (m ≫= λ a, f a ≫= g) s.
Proof. unfold mbind, st_bind. by destruct (m s) as [[]| | |]. Qed.

(** The next registration, in the state that implements the map so far. *)
Ltac boot_step Hst :=
  rewrite ?bind_assoc_run;
  match goal with
  | H : implements ?st ?s ?R |- context [mbind _ (intr_register_int ?st ?v ?d ?l ?h ?n) ?s] =>
    let E := fresh "E" in
    destruct (register_int_run st Hst s R v d l h n H) as (? & E & ? & ?);
      [vm_compute; reflexivity|by repeat split; try lia|lia|rewrite (run_bind _ _ _ _ _ E); clear H E]
  | H : implements ?st ?s ?R |- context [intr_register_ext ?st ?v ?h ?n] =>
    let E := fresh "E" in
    destruct (register_ext_run st Hst s R v h n H) as (? & E & ? & ?);
      [vm_compute; reflexivity|lia|first [rewrite (run_bind _ _ _ _ _ E) | rewrite E]; clear H E]
  end.

Lemma set_desc_run sel d s :
  (Z.to_nat (sel / 8) < length s.(gdt))%nat →
  set_desc sel d s = Ok (tt, set_gdt (<[Z.to_nat (sel / 8) := d]> s.(gdt)) s).
Proof.
  intros Hl. unfold set_desc. rewrite run_gets. destruct (lookup_lt_is_Some_2 (gdt s) (Z.to_nat (sel / 8))) as [x Hx]; [lia|].
  rewrite (run_lift _ _ _ x) by by rewrite Hx. done.
Qed.

(** The segments the processor finds at the selectors the kernel uses. *)
Definition flat (type dpl : Z) : segment := mk_segment 0 1048575 type CLS_CODE_DATA dpl 1 1 GRAN_PAGE.

Lemma gdt_init_run s page t addr :
  length s.(gdt) = 6%nat → s.(tss_ptr) = Some (page, t) → is_u32 page →
  ∃ s', gdt_init addr s = Ok (tt, s') ∧ s'.(gdtr) = make_gdtr_operand 47 addr ∧ s'.(tr) = SEL_TSS ∧
    map read_segment s'.(gdt) = [mk_segment 0 0 0 0 0 0 0 0; flat 10 0; flat 2 0; flat 10 3; flat 2 3;
      mk_segment page 103 9 CLS_SYSTEM 0 1 1 GRAN_BYTE] ∧
    s'.(idt) = s.(idt) ∧ s'.(intr_handlers) = s.(intr_handlers) ∧ s'.(intr_names) = s.(intr_names) ∧
    s'.(tss_ptr) = s.(tss_ptr).
Proof.
  intros Hl Ht Hp. unfold gdt_init, make_code_desc, make_data_desc, make_tss_desc.
  destruct s as [g]. cbn in Hl, Ht. destruct g as [|g0 [|g1 [|g2 [|g3 [|g4 [|g5 []]]]]]]; try done. subst.
  assert (Hcd : ∀ type dpl, 0 <= type <= 15 → 0 <= dpl <= 3 →
    make_seg_desc 0 1048575 CLS_CODE_DATA type dpl GRAN_PAGE = Ok (seg_value 0 1048575 CLS_CODE_DATA type dpl GRAN_PAGE)).
  { intros. apply make_seg_desc_eq; unfold CLS_CODE_DATA, GRAN_PAGE; lia. }
  assert (Hts : make_seg_desc page 103 CLS_SYSTEM 9 0 GRAN_BYTE = Ok (seg_value page 103 CLS_SYSTEM 9 0 GRAN_BYTE)).
  { apply make_seg_desc_eq; unfold CLS_SYSTEM, GRAN_BYTE; lia. }
  erewrite (run_bind (set_desc SEL_NULL _)) by (apply set_desc_run, Nat.ltb_lt; reflexivity).
  rewrite (run_lift _ _ _ _ (Hcd 10 0 ltac:(lia) ltac:(lia))). erewrite (run_bind (set_desc SEL_KCSEG _)) by (apply set_desc_run, Nat.ltb_lt; reflexivity).
  rewrite (run_lift _ _ _ _ (Hcd 2 0 ltac:(lia) ltac:(lia))). erewrite (run_bind (set_desc SEL_KDSEG _)) by (apply set_desc_run, Nat.ltb_lt; reflexivity).
  rewrite (run_lift _ _ _ _ (Hcd 10 3 ltac:(lia) ltac:(lia))). erewrite (run_bind (set_desc SEL_UCSEG _)) by (apply set_desc_run, Nat.ltb_lt; reflexivity).
  rewrite (run_lift _ _ _ _ (Hcd 2 3 ltac:(lia) ltac:(lia))). erewrite (run_bind (set_desc SEL_UDSEG _)) by (apply set_desc_run, Nat.ltb_lt; reflexivity).
  erewrite (run_bind tss_get) by reflexivity. cbv beta iota. rewrite (run_lift _ _ _ _ Hts).
  erewrite (run_bind (set_desc SEL_TSS _)) by (apply set_desc_run, Nat.ltb_lt; reflexivity).
  eexists. split; [reflexivity|]. split; [done|]. split; [done|]. split; [|done].
  cbn [set_gdtr set_gdt gdt]. change (Z.to_nat (SEL_NULL / 8)) with 0%nat. change (Z.to_nat (SEL_KCSEG / 8)) with 1%nat.
  change (Z.to_nat (SEL_KDSEG / 8)) with 2%nat. change (Z.to_nat (SEL_UCSEG / 8)) with 3%nat.
  change (Z.to_nat (SEL_UDSEG / 8)) with 4%nat. change (Z.to_nat (SEL_TSS / 8)) with 5%nat. cbn [list_insert insert map].
  rewrite !read_segment_value by (unfold CLS_CODE_DATA, CLS_SYSTEM, GRAN_PAGE, GRAN_BYTE; lia). done.
Qed.

Lemma boot_tables_run intr_stubs tss_page cur gdt_addr idt_addr :
  (∀ i, 0 < intr_stubs i < 4294967296) → is_u32 tss_page →
  ∃ s, boot_tables intr_stubs tss_page cur gdt_addr idt_addr bss_tables = Ok (tt, s) ∧ implements intr_stubs s boot_entries ∧
    map read_segment s.(gdt) = [mk_segment 0 0 0 0 0 0 0 0; flat 10 0; flat 2 0; flat 10 3; flat 2 3;
      mk_segment tss_page 103 9 CLS_SYSTEM 0 1 1 GRAN_BYTE] ∧
    s.(tss_ptr) = Some (tss_page, set_esp0 (u32 (cur + PGSIZE)) (set_ss0_bitmap SEL_KDSEG 57343 zero_tss)) ∧
    s.(gdtr) = make_gdtr_operand 47 gdt_addr ∧ s.(tr) = SEL_TSS ∧ s.(idtr) = make_idtr_operand 2047 idt_addr.
Proof.
  intros Hst Hp. unfold boot_tables. set (t := set_esp0 _ _).
  rewrite (run_bind (tss_init tss_page cur) _ bss_tables tt (set_tss (Some (tss_page, t)) bss_tables)) by reflexivity.
  destruct (gdt_init_run (set_tss (Some (tss_page, t)) bss_tables) tss_page t gdt_addr eq_refl eq_refl Hp)
    as (s1 & E1 & Hg1 & Htr1 & Hs1 & Hi1 & Hh1 & Hn1 & Ht1).
  rewrite (run_bind _ _ _ _ _ E1).
  destruct (intr_init_run intr_stubs Hst s1 idt_addr) as (s2 & E2 & Him & Hir2 & Hgd2 & Ht2 & Hg2 & Htr2);
    [by rewrite Hi1|by rewrite Hn1|by rewrite Hh1|].
  rewrite (run_bind _ _ _ _ _ E2). clear E1 E2 Hi1 Hh1 Hn1.
  unfold timer_register, kbd_register, exception_init, syscall_register, serial_register, ide_register.
  do 19 boot_step Hst. eexists. split; [reflexivity|]. split; [|unfold same_segments in *; destruct_and!; cbn in *; repeat split; congruence].
  match goal with H : implements _ _ ?R |- _ => replace boot_entries with R by (vm_compute; reflexivity); exact H end.
Qed.

(** C32: after the registrations of a boot, the vectors that a user program can
    invoke with an INT instruction are 3, 4, 5 and 0x30, and the last leads to
    the system call handler; the processor enters every other handler of an
    exception, but page faults, with interrupts as they were, and all handlers
    of devices and that of page faults with interrupts off.  The segments at the
    user selectors span all addresses at privilege level 3, and at an interrupt
    in user mode the processor finds, in the task-state segment its task
    register names, the kernel data segment and the top of the page of the
    running thread. *)
Theorem boot_user_gates intr_stubs tss_page cur gdt_addr idt_addr :
  (∀ i, 0 < intr_stubs i < 4294967296) → is_u32 tss_page → 0 <= cur < 4294963200 →
  ∃ s, boot_tables intr_stubs tss_page cur gdt_addr idt_addr bss_tables = Ok (tt, s) ∧
    (∀ i d, s.(idt) !! i = Some d →
       (read_gate d).(g_offset) = intr_stubs (Z.of_nat i) ∧
       ((read_gate d).(g_dpl) = 3 ↔ i ∈ [3; 4; 5; 48]%nat) ∧
       ((read_gate d).(g_type) = 15 ↔ i ∈ [0; 1; 3; 4; 5; 6; 7; 11; 12; 13; 16; 19; 48]%nat)) ∧
    s.(intr_handlers) !! 48%nat = Some (Some SyscallHandler) ∧ s.(intr_handlers) !! 14%nat = Some (Some PageFault) ∧
    (read_segment <$> s.(gdt) !! Z.to_nat (SEL_UCSEG / 8) = Some (flat 10 3)) ∧ SEL_UCSEG mod 4 = 3 ∧
    (read_segment <$> s.(gdt) !! Z.to_nat (SEL_UDSEG / 8) = Some (flat 2 3)) ∧ SEL_UDSEG mod 4 = 3 ∧
    (∃ t, read_segment <$> s.(gdt) !! Z.to_nat (s.(tr) / 8) = Some (mk_segment tss_page 103 9 CLS_SYSTEM 0 1 1 GRAN_BYTE) ∧
       s.(tss_ptr) = Some (tss_page, t) ∧ (4 * length (tss_words t) = 104)%nat ∧
       tss_words t !! 1%nat = Some (cur + PGSIZE) ∧ tss_words t !! 2%nat = Some SEL_KDSEG).
Proof.
  intros Hst Hp Hc. destruct (boot_tables_run intr_stubs tss_page cur gdt_addr idt_addr Hst Hp)
    as (s & E & Him & Hg & Ht & Hgr & Htr & Hir).
  exists s. split; [exact E|].
  assert (Hseg : ∀ k, read_segment <$> gdt s !! k = map read_segment (gdt s) !! k) by (intros k; symmetry; apply list_lookup_fmap).
  rewrite !Hseg, Hg, Htr. split; [|split; [|split]].
  - intros i d Hi. rewrite (implements_gate intr_stubs Hst s boot_entries i d Him Hi). cbn [g_offset g_dpl g_type].
    split; [done|]. pose proof (lookup_lt_Some _ _ _ Hi) as Hlt. destruct Him as [_ _ [Hl _] _]. rewrite Hl in Hlt. clear -Hlt.
    assert (Hall : Forall (λ i, (from_option (λ e : entry, e.1.1) 0 (boot_entries !! Z.of_nat i) = 3 ↔ i ∈ [3; 4; 5; 48]%nat) ∧
      (gate_type (from_option (λ e : entry, e.1.2) false (boot_entries !! Z.of_nat i)) = 15 ↔
        i ∈ [0; 1; 3; 4; 5; 6; 7; 11; 12; 13; 16; 19; 48]%nat)) (seq 0 256)).
    { apply (bool_decide_unpack _). vm_compute. exact I. }
    rewrite Forall_forall in Hall. apply Hall, elem_of_seq. lia.
  - destruct Him as [_ H2 _ _]. by apply (H2 48).
  - destruct Him as [_ H2 _ _]. by apply (H2 14).
  - do 4 (split; [reflexivity|]). eexists. split; [reflexivity|]. split; [exact Ht|]. split; [reflexivity|].
    split; [|reflexivity]. cbn. f_equal. apply u32_small. change PGSIZE with 4096. lia.
Qed.

Lemma registration_typed_witness :
  ∃ s, implements (λ _, 4096) s ∅ ∧ intr_register_int (λ _, 4096) 32 3 true Kill "x" s = Panic.
Proof.
  destruct (intr_init_run (λ _, 4096) ltac:(lia) bss_tables 0 eq_refl eq_refl eq_refl) as (s & _ & Him & _).
  exists s. split; [exact Him|].
  destruct (registration_typed (λ _, 4096) s ∅ 32 3 true Kill "x" ltac:(lia) Him ltac:(lia) ltac:(lia)) as [[H | [_ H]] _]; [|exact H].
  destruct H as (s' & H & _). exfalso. apply H. lia.
Defined.

Lemma boot_user_gates_witness :
  ∃ s, boot_tables (λ i, 4096 + 16 * (i mod 256)) 8192 12288 16384 20480 bss_tables = Ok (tt, s).
Proof.
  destruct (boot_user_gates (λ i, 4096 + 16 * (i mod 256)) 8192 12288 16384 20480) as (s & E & _);
    [intros i; zdm|lia|lia|exists s; exact E].
Defined.
