(* ===== verification/Boot.v ===== *)
(** * The kernel command line: threads/init.c

    The command line that the loader leaves in memory, the options, and the
    actions, for a kernel compiled with user programs and a file system and
    without virtual memory.  Words of the command line are read from memory as
    bytes; from then on a word is the sequence of its characters, and strtok_r()
    and strcmp() are what CString.v proves of them.  What an action does is a
    parameter of run_actions(). *)

From Stdlib Require Import Ascii String.
From S2P Require Import Prelude Vaddr CString Stdio Random FsState Partition.

Open Scope Z_scope.

(** ** The words *)

Definition LOADER_END : Z := 32256.
Definition LOADER_SIG_LEN : Z := 2.
Definition LOADER_PARTS_LEN : Z := 64.
Definition LOADER_ARGS_LEN : Z := 128.
Definition LOADER_ARG_CNT_LEN : Z := 4.
Definition LOADER_SIG : Z := LOADER_END - LOADER_SIG_LEN.
Definition LOADER_PARTS : Z := LOADER_SIG - LOADER_PARTS_LEN.
Definition LOADER_ARGS : Z := LOADER_PARTS - LOADER_ARGS_LEN.
Definition LOADER_ARG_CNT : Z := LOADER_ARGS - LOADER_ARG_CNT_LEN.

(** The size of the static array argv. *)
Definition ARGV_LEN : Z := LOADER_ARGS_LEN / 2 + 1.

Definition kaddr (paddr : Z) : Z := paddr + PHYS_BASE.

(** argv[i] = p. *)
Definition set_argv (argv : list Z) (i p : Z) : outcome (list Z) :=
  if (0 <=? i) && (i <? ARGV_LEN) then Ok (<[Z.to_nat i := p]> argv) else Wild.

Definition load32 (m : mem) (a : Z) : outcome Z :=
  b0 ← load8 m a; b1 ← load8 m (a + 1); b2 ← load8 m (a + 2); b3 ← load8 m (a + 3); Ok (un32 [b0; b1; b2; b3]).

(** read_command_line(), without the message: the pointers, from argv[0] to the null
    pointer. *)
Definition read_command_line (m : mem) : outcome (list Z) :=
  n ← load32 m (kaddr LOADER_ARG_CNT);
  let argc := i32 n in
  let p := kaddr LOADER_ARGS in
  let end_ := p + LOADER_ARGS_LEN in
  '(_, argv) ← for_ (Z.to_nat argc) 0 (λ i '(p, argv),
      if end_ <=? p then Panic
      else
        argv ← set_argv argv i p;
        l ← strnlen m p (end_ - p);
        Ok (p + l + 1, argv)) (p, replicate (Z.to_nat ARGV_LEN) 0);
  argv ← set_argv argv argc 0;
  Ok (take (Z.to_nat argc + 1) argv).

(** ** Options *)

Inductive shutdown_type := SHUTDOWN_NONE | SHUTDOWN_POWER_OFF | SHUTDOWN_REBOOT.

Record options := mk_options {
  how : shutdown_type;
  format_filesys : bool;
  filesys_bdev_name : option (list Z);
  scratch_bdev_name : option (list Z);
  thread_mlfqs : bool;
  user_page_limit : Z;
  prng : rng }.

Definition set_how (x : shutdown_type) (o : options) : options :=
  mk_options x o.(format_filesys) o.(filesys_bdev_name) o.(scratch_bdev_name) o.(thread_mlfqs) o.(user_page_limit) o.(prng).
Definition set_format (o : options) : options :=
  mk_options o.(how) true o.(filesys_bdev_name) o.(scratch_bdev_name) o.(thread_mlfqs) o.(user_page_limit) o.(prng).
Definition set_filesys (v : option (list Z)) (o : options) : options :=
  mk_options o.(how) o.(format_filesys) v o.(scratch_bdev_name) o.(thread_mlfqs) o.(user_page_limit) o.(prng).
Definition set_scratch (v : option (list Z)) (o : options) : options :=
  mk_options o.(how) o.(format_filesys) o.(filesys_bdev_name) v o.(thread_mlfqs) o.(user_page_limit) o.(prng).
Definition set_mlfqs (o : options) : options :=
  mk_options o.(how) o.(format_filesys) o.(filesys_bdev_name) o.(scratch_bdev_name) true o.(user_page_limit) o.(prng).
Definition set_limit (n : Z) (o : options) : options :=
  mk_options o.(how) o.(format_filesys) o.(filesys_bdev_name) o.(scratch_bdev_name) o.(thread_mlfqs) n o.(prng).
Definition set_prng (g : rng) (o : options) : options :=
  mk_options o.(how) o.(format_filesys) o.(filesys_bdev_name) o.(scratch_bdev_name) o.(thread_mlfqs) o.(user_page_limit) g.

Abbreviation O_ := (st options).

Definition named (name : list Z) (s : string) : bool := bool_decide (name = lit s).

(** atoi (value) follows a null pointer. *)
Definition atoi_value (value : option (list Z)) : outcome Z := v ← deref value; Ok (atoi v).

Definition seed_with (seed : Z) : O_ unit :=
  g ← gets prng; '(_, g) ← lift (random_init (u32 seed) g); modify (set_prng g).

(** strtok_r() of the word at "=", then of what is left of it at nothing. *)
Definition option_name (arg : list Z) : option (list Z) := fst <$> next_token [61] arg.
Definition option_value (arg : list Z) : option (list Z) :=
  '(_, rest) ← next_token [61] arg; '(v, _) ← next_token [] rest; Some v.

(** One option: [false] when usage() powers the machine off. *)
Definition parse_option (arg : list Z) : O_ bool :=
  name ← lift (deref (option_name arg));
  let value := option_value arg in
  if named name "-h" then mret false
  else if named name "-q" then modify (set_how SHUTDOWN_POWER_OFF);; mret true
  else if named name "-r" then modify (set_how SHUTDOWN_REBOOT);; mret true
  else if named name "-f" then modify set_format;; mret true
  else if named name "-filesys" then modify (set_filesys value);; mret true
  else if named name "-scratch" then modify (set_scratch value);; mret true
  else if named name "-rs" then n ← lift (atoi_value value); seed_with n;; mret true
  else if named name "-mlfqs" then modify set_mlfqs;; mret true
  else if named name "-ul" then n ← lift (atoi_value value); modify (set_limit (u32 n));; mret true
  else lift Panic.

(** parse_options(): what follows the options, or [None] when the machine is off.
    [now] is what rtc_get_time() returns. *)
Fixpoint parse_options (now : Z) (argv : list (list Z)) : O_ (option (list (list Z))) :=
  match argv with
  | (45 :: _) as arg :: argv' =>
      go ← parse_option arg;
      if (go : bool) then parse_options now argv' else mret None
  | _ => seed_with now;; mret (Some argv)
  end.

(** ** Actions *)

Inductive action := run_task | fsutil_ls | fsutil_cat | fsutil_rm | fsutil_extract | fsutil_append.

#[export] Instance action_eq_dec : EqDecision action.
Proof. solve_decision. Defined.

Definition actions : list (string * nat * action) :=
  [("run", 2%nat, run_task); ("ls", 1%nat, fsutil_ls); ("cat", 2%nat, fsutil_cat); ("rm", 2%nat, fsutil_rm);
   ("extract", 1%nat, fsutil_extract); ("append", 2%nat, fsutil_append)]%string.

Definition find_action (name : list Z) : option (nat * action) :=
  (λ '(_, n, a), (n, a)) <$> List.find (λ '(s, _, _), bool_decide (name = lit s)) actions.

(** run_actions(); an action is called with the words from its name on. *)
Fixpoint run_actions {S} (fuel : nat) (call : action → list (list Z) → st S unit) (argv : list (list Z)) : st S unit :=
  match argv with
  | [] => mret tt
  | name :: _ =>
      match fuel with
      | O => lift NoFuel
      | Datatypes.S fuel =>
          '(argc, a) ← lift (match find_action name with Some x => Ok x | None => Panic end);
          lift (ASSERT (bool_decide (argc <= length argv)%nat));;
          call a argv;;
          run_actions fuel call (drop argc argv)
      end
  end.

(** ** Block devices *)

(** locate_block_device(), without the message. *)
Definition locate_block_device (role : block_type) (name : option (list Z)) : B unit :=
  b ← (match name with
       | Some name => b ← block_get_by_name name; lift (ASSERT (negb (b =? 0)));; mret b
       | None =>
           first ← block_first;
           n ← gets (λ s, length s.(all_blocks));
           loop_st (S n) (λ b,
             if b =? 0 then mret (inr 0)
             else
               d ← get_bdev b;
               if bool_decide (d.(d_type) = role) then mret (inr b)
               else b' ← block_next b; mret (inl b')) first
       end);
  when (negb (b =? 0)) (block_set_role role b).

Definition locate_block_devices (o : options) : B unit :=
  locate_block_device BLOCK_FILESYS o.(filesys_bdev_name);;
  locate_block_device BLOCK_SCRATCH o.(scratch_bdev_name).

(** ** The words, read back *)

(** The words as the loader leaves them, each with its terminator. *)
Definition layout (ws : list (list Z)) : list Z := mjoin ((λ w, w ++ [0]) <$> ws).

Definition word_ok (w : list Z) : Prop := Forall (λ b, 0 < b < 256) w.

Lemma strnlen_ok m p s n : cstr m p s → Z.of_nat (length s) < n → strnlen m p n = Ok (Z.of_nat (length s)).
Proof.
  intros Hs Hn. unfold strnlen. apply (loop_scan _ _ 0 (length s)); [| |by eapply cstr_fuel].
  - intros i Hi. rewrite Z.add_0_l, (cstr_load _ _ _ _ Hs) by lia. destruct (lookup_lt_is_Some_2 s i Hi) as [b Hb]. rewrite Hb. cbn.
    pose proof (cstr_nz _ _ _ _ _ Hs Hb). rewrite (proj2 (Z.eqb_neq b 0)) by lia. cbn. by rewrite (proj2 (Z.ltb_lt _ _)) by lia.
  - rewrite Z.add_0_l, (cstr_load _ _ _ _ Hs) by lia. rewrite (lookup_ge_None_2 s) by lia. done.
Qed.

Lemma set_argv_ok argv i p : 0 <= i < ARGV_LEN → set_argv argv i p = Ok (<[Z.to_nat i := p]> argv).
Proof. intros Hi. unfold set_argv. by rewrite (proj2 (Z.leb_le _ _)), (proj2 (Z.ltb_lt _ _)) by lia. Qed.

Lemma layout_cons w ws : layout (w :: ws) = w ++ 0 :: layout ws.
Proof. unfold layout. cbn. by rewrite <- app_assoc. Qed.

(** The loop over the words. *)
Lemma words_loop m end_ ws p i argv :
  Forall word_ok ws → bytes_at m p (layout ws) → 0 < p → p + Z.of_nat (length (layout ws)) <= end_ → end_ < 4294967296 →
  0 <= i → i + Z.of_nat (length ws) < ARGV_LEN → length argv = Z.to_nat ARGV_LEN →
  ∃ ps, for_ (length ws) i (λ i '(p, argv),
      if end_ <=? p then Panic
      else
        argv ← set_argv argv i p;
        l ← strnlen m p (end_ - p);
        Ok (p + l + 1, argv)) (p, argv) =
    Ok (p + Z.of_nat (length (layout ws)), take (Z.to_nat i) argv ++ ps ++ drop (Z.to_nat i + length ws) argv) ∧
    length ps = length ws ∧ Forall2 (cstr m) ps ws.
Proof.
  intros Hw. revert p i argv. induction Hw as [|w ws Hw1 Hw IH]; intros p i argv Hb Hp Hend He Hi Hn Hl; cbn [for_ length].
  { exists []. rewrite Z.add_0_r, Nat.add_0_r. cbn [app]. by rewrite take_drop. }
  rewrite layout_cons in Hb, Hend. rewrite length_app in Hend. cbn [length] in Hend.
  rewrite (proj2 (Z.leb_gt _ _)) by lia. rewrite set_argv_ok by (cbn [length] in Hn; lia). rewrite bind_ret.
  change (w ++ 0 :: layout ws) with (w ++ [0] ++ layout ws) in Hb. rewrite app_assoc in Hb. apply bytes_at_app in Hb as [Hb1 Hb2].
  assert (Hs : cstr m p w) by (split; [done|]; split; [done|lia]).
  rewrite (strnlen_ok _ _ _ _ Hs) by lia. rewrite !bind_ret. rewrite length_app in Hb2. cbn [length] in Hb2.
  destruct (IH (p + Z.of_nat (length w) + 1) (i + 1) (<[Z.to_nat i := p]> argv)) as (ps & E & Hlp & Hps);
    [by replace (p + Z.of_nat (length w) + 1) with (p + Z.of_nat (length w + 1)) by lia|lia|lia|done|lia|cbn [length] in Hn; lia|by rewrite length_insert|].
  exists (p :: ps). rewrite E. split; [|split; [cbn; lia|by constructor]]. f_equal. f_equal.
  - rewrite layout_cons, length_app. cbn [length]. lia.
  - cbn [length] in Hn. unfold ARGV_LEN in *.
    assert (Hlt : (Z.to_nat i < length argv)%nat) by (rewrite Hl; lia).
    replace (Z.to_nat (i + 1)) with (S (Z.to_nat i)) by lia.
    rewrite (take_S_r _ _ p) by by rewrite list_lookup_insert_eq.
    rewrite take_insert_ge, <- app_assoc by lia. f_equal. cbn [app]. f_equal.
    rewrite drop_insert_lt by lia. f_equal. f_equal. lia.
Qed.

Lemma argc_load_ok m a n : bytes_at m a (le32 n) → 0 <= a → a + 4 <= 4294967296 → load32 m a = Ok (u32 n).
Proof.
  intros Hb H0 H1. unfold load32.
  assert (Hl : ∀ i : nat, (i < 4)%nat → load8 m (a + Z.of_nat i) = Ok (default 0 (le32 n !! i))).
  { intros i Hi. unfold load8. rewrite u32_small by lia. rewrite (Hb i) by done. destruct (lookup_lt_is_Some_2 (le32 n) i Hi) as [b ->]. done. }
  pose proof (Hl 0%nat ltac:(lia)) as E0. rewrite Z.add_0_r in E0. rewrite E0, bind_ret.
  pose proof (Hl 1%nat ltac:(lia)) as E1. pose proof (Hl 2%nat ltac:(lia)) as E2. pose proof (Hl 3%nat ltac:(lia)) as E3.
  change (Z.of_nat 1) with 1 in E1. change (Z.of_nat 2) with 2 in E2. change (Z.of_nat 3) with 3 in E3.
  rewrite E1, bind_ret, E2, bind_ret, E3, bind_ret. f_equal. exact (un32_le32 n).
Qed.

Lemma for_app {S} a b i (body : Z → S → outcome S) s :
  for_ (a + b) i body s = (s ← for_ a i body s; for_ b (i + Z.of_nat a) body s).
Proof.
  revert i s. induction a as [|a IH]; intros i s; cbn [for_ Nat.add]; [by rewrite Z.add_0_r|].
  destruct (body i s); try done. rewrite !bind_ret, IH. by replace (i + 1 + Z.of_nat a) with (i + Z.of_nat (Datatypes.S a)) by lia.
Qed.

(** Read_command_line() finds the words that the loader left: up to 64 words in at
    most 128 bytes, each with its terminator, come back as pointers to these
    strings and a null pointer at the end; when a word is missing because the
    128 bytes are full, the kernel panics. *)
Theorem command_line_roundtrip (m : mem) (ws : list (list Z)) (n : Z) :
  Forall word_ok ws → bytes_at m (kaddr LOADER_ARGS) (layout ws) → bytes_at m (kaddr LOADER_ARG_CNT) (le32 n) →
  (length (layout ws) <= 128)%nat → (length ws <= 64)%nat →
  (n = Z.of_nat (length ws) → ∃ ps, read_command_line m = Ok (ps ++ [0]) ∧ Forall2 (cstr m) ps ws) ∧
  (Z.of_nat (length ws) < n < 2147483648 → length (layout ws) = 128%nat → read_command_line m = Panic).
Proof.
  intros Hw Hb Hc Hlen Hcnt. unfold read_command_line.
  destruct (words_loop m (kaddr LOADER_ARGS + LOADER_ARGS_LEN) ws (kaddr LOADER_ARGS) 0 (replicate (Z.to_nat ARGV_LEN) 0) Hw Hb)
    as (ps & E & Hlp & Hps); [reflexivity|change LOADER_ARGS_LEN with 128; lia|reflexivity|lia|change ARGV_LEN with 65; lia|done|].
  change (Z.to_nat 0) with 0%nat in E. rewrite take_0, app_nil_l, Nat.add_0_l in E. rewrite (argc_load_ok m _ n Hc) by (vm_compute; congruence). rewrite bind_ret. split.
  - intros ->. rewrite u32_small, i32_small by lia. rewrite Nat2Z.id, E, bind_ret. cbv beta iota.
    rewrite set_argv_ok by (change ARGV_LEN with 65; lia). rewrite bind_ret, Nat2Z.id.
    exists ps. split; [|done]. f_equal. rewrite insert_app_r_alt by lia. rewrite Hlp, Nat.sub_diag.
    destruct (drop (length ws) (replicate (Z.to_nat ARGV_LEN) 0)) as [|x r] eqn:Ed.
    { apply (f_equal length) in Ed. rewrite length_drop, length_replicate in Ed. change (Z.to_nat ARGV_LEN) with 65%nat in Ed. cbn [length] in Ed. lia. }
    cbn [insert list_insert]. rewrite take_app_ge by lia. replace (length ws + 1 - length ps)%nat with 1%nat by lia. done.
  - intros Hn Hfull. rewrite u32_small, i32_small by lia.
    replace (Z.to_nat n) with (length ws + S (Z.to_nat n - length ws - 1))%nat by lia.
    rewrite for_app, E, bind_ret. cbn [for_]. rewrite Hfull. rewrite (proj2 (Z.leb_le _ _)) by (change LOADER_ARGS_LEN with 128; lia). done.
Qed.

(** ** Options, read back *)

Inductive opt :=
| OPowerOff | OReboot | OFormat | OMlfqs
| OFilesys (v : list Z) | OScratch (v : list Z) | OSeed (v : list Z) | OLimit (v : list Z).

Definition with_value (s : string) (v : list Z) : list Z := lit s ++ 61 :: v.

(** An option as a word of the command line, and what it means. *)
Definition opt_word (o : opt) : list Z :=
  match o with
  | OPowerOff => lit "-q" | OReboot => lit "-r" | OFormat => lit "-f" | OMlfqs => lit "-mlfqs"
  | OFilesys v => with_value "-filesys" v | OScratch v => with_value "-scratch" v
  | OSeed v => with_value "-rs" v | OLimit v => with_value "-ul" v
  end.

Definition opt_apply (s : options) (o : opt) : options :=
  match o with
  | OPowerOff => set_how SHUTDOWN_POWER_OFF s
  | OReboot => set_how SHUTDOWN_REBOOT s
  | OFormat => set_format s
  | OMlfqs => set_mlfqs s
  | OFilesys v => set_filesys (Some v) s
  | OScratch v => set_scratch (Some v) s
  | OSeed _ => s
  | OLimit v => set_limit (u32 (atoi v)) s
  end.

Definition opt_ok (o : opt) : Prop :=
  match o with OFilesys v | OScratch v | OSeed v | OLimit v => v ≠ [] | _ => True end.

Lemma run_len_all f s : Forall (λ b, f b = true) s → run_len f s = length s.
Proof. induction 1 as [|b s Hb _ IH]; cbn; [done|]. by rewrite Hb, IH. Qed.

Lemma run_len_stop f s b r : Forall (λ b, f b = true) s → f b = false → run_len f (s ++ b :: r) = length s.
Proof. intros Hs Hb. induction Hs as [|x s Hx _ IH]; cbn; [by rewrite Hb|]. by rewrite Hx, IH. Qed.

Definition no_eq (s : list Z) : Prop := Forall (λ b, negb (is_delim [61] b) = true) s.

Lemma token_value name v : no_eq name → name ≠ [] → next_token [61] (name ++ 61 :: v) = Some (name, v).
Proof.
  intros Hn Hne. destruct name as [|c name]; [done|]. unfold next_token.
  assert (Hc : is_delim [61] c = false) by (apply Forall_cons in Hn as [Hc _]; by apply negb_true_iff).
  cbn [app run_len]. rewrite Hc. cbn [drop]. change (c :: name ++ 61 :: v) with ((c :: name) ++ 61 :: v).
  rewrite run_len_stop by done. rewrite take_app_length. f_equal. f_equal.
  change (drop (S (length name)) (name ++ 61 :: v) = v). rewrite drop_app_ge by lia.
  by replace (S (length name) - length name)%nat with 1%nat by lia.
Qed.

Lemma token_plain name : no_eq name → name ≠ [] → next_token [61] name = Some (name, []).
Proof.
  intros Hn Hne. destruct name as [|c name]; [done|]. unfold next_token.
  assert (Hc : is_delim [61] c = false) by (apply Forall_cons in Hn as [Hc _]; by apply negb_true_iff).
  cbn [run_len]. rewrite Hc. change (drop 0 (c :: name)) with (c :: name). cbv iota zeta. rewrite run_len_all by done.
  rewrite take_ge, drop_ge by lia. done.
Qed.

Lemma token_rest v : v ≠ [] → next_token [] v = Some (v, []).
Proof.
  intros Hv. destruct v as [|c v]; [done|]. unfold next_token. change (drop (run_len (is_delim []) (c :: v)) (c :: v)) with (c :: v).
  cbv iota zeta. rewrite run_len_all; [by rewrite take_ge, drop_ge by lia|]. by apply Forall_forall.
Qed.

Lemma random_init_same seed g g' : random_init seed g = random_init seed g'.
Proof. unfold random_init, mbind, st_bind, lift. by destruct (for_ _ _ _ _) as [[]| | |]. Qed.

Lemma parse_option_ok o s :
  opt_ok o → ∃ g, parse_option (opt_word o) s = Ok (true, set_prng g (opt_apply s o)) ∧ (match o with OSeed _ => True | _ => g = s.(prng) end).
Proof.
  intros Ho. unfold parse_option, option_name, option_value.
  assert (Hlit : ∀ n, n ∈ ["-q"; "-r"; "-f"; "-mlfqs"; "-filesys"; "-scratch"; "-rs"; "-ul"]%string → no_eq (lit n) ∧ lit n ≠ []).
  { intros n Hn. rewrite !elem_of_cons in Hn. unfold no_eq.
    destruct Hn as [-> | [-> | [-> | [-> | [-> | [-> | [-> | [-> | Hn]]]]]]]]; [split; [apply (bool_decide_unpack _); vm_compute; exact I|done]..|].
    by apply not_elem_of_nil in Hn. }
  destruct o as [| | | |v|v|v|v]; cbn [opt_word opt_ok opt_apply] in *; unfold with_value;
    first [rewrite token_plain by (apply Hlit; set_solver) | rewrite token_value by (apply Hlit; set_solver); cbn [mbind option_bind]; rewrite token_rest by done].
  1-4: exists (prng s); by destruct s.
  1,2: exists (prng s); by destruct s.
  - destruct (random_init_ok (u32 (atoi v)) (prng s)) as (g & E & _). exists g. split; [|done].
    transitivity ((seed_with (atoi v);; mret true) s); [reflexivity|].
    unfold seed_with, mbind, st_bind, lift, gets. cbn -[random_init atoi u32]. by rewrite E.
  - exists (prng s). by destruct s.
Qed.

(** C36: options are read back.  A command line of options, in any order, followed by
    actions gives every setting its last value and leaves the actions.  The
    random number generator ends up seeded with the time, whatever -rs says. *)
Theorem options_roundtrip (now : Z) (os : list opt) (rest : list (list Z)) (s : options) :
  Forall opt_ok os → head (default [] (head rest)) ≠ Some 45 →
  ∃ g, random_init (u32 now) s.(prng) = Ok (tt, g) ∧ rng_ok g ∧
    parse_options now (map opt_word os ++ rest) s = Ok (Some rest, set_prng g (foldl opt_apply s os)).
Proof.
  intros Hos Hr. destruct (random_init_ok (u32 now) (prng s)) as (g & E & Hg & _). exists g. split; [done|]. split; [done|].
  revert s E. induction Hos as [|o os Ho _ IH]; intros s E.
  - assert (Hend : parse_options now rest = (seed_with now;; mret (Some rest))).
    { destruct rest as [|[|c w] rest]; [done..|]. cbn in Hr. assert (c ≠ 45) by congruence. cbn [parse_options].
      destruct c as [|p|p]; try done. do 7 (destruct p as [p|p|]; try done). }
    cbn [map app foldl]. rewrite Hend. unfold seed_with, mbind, st_bind, lift, gets. cbn -[random_init u32]. by rewrite E.
  - destruct (parse_option_ok o s Ho) as (g' & E' & _). cbn [map app foldl parse_options].
    assert (Hw : ∃ w, opt_word o = 45 :: w) by (destruct o; by eexists). destruct Hw as [w Hw]. rewrite Hw.
    rewrite <- Hw. rewrite (run_bind _ _ _ _ _ E'). rewrite IH by (rewrite (random_init_same _ _ (prng s)); done).
    f_equal. f_equal. assert (Hc : ∀ l s, set_prng g (foldl opt_apply (set_prng g' s) l) = set_prng g (foldl opt_apply s l)).
    { clear. induction l as [|o l IHl]; intros s; cbn [foldl]; [done|]. rewrite <- (IHl (opt_apply s o)). f_equal. f_equal. by destruct o. }
    by rewrite Hc.
Qed.

Lemma options_roundtrip_witness :
  ∃ s', parse_options 5 ([lit "-q"; lit "-rs=7"; lit "run"]) (mk_options SHUTDOWN_NONE false None None false 4294967295 (mk_rng [] 0 0 false)) =
    Ok (Some [lit "run"], s') ∧ s'.(how) = SHUTDOWN_POWER_OFF.
Proof.
  destruct (options_roundtrip 5 [OPowerOff; OSeed (lit "7")] [lit "run"] (mk_options SHUTDOWN_NONE false None None false 4294967295 (mk_rng [] 0 0 false)))
    as (g & _ & _ & E); [by repeat constructor|done|]. eexists. split; [exact E|reflexivity].
Defined.

(** ** Actions, in order *)

Abbreviation command := (action * list (list Z))%type.

Definition action_word (a : action) : list Z :=
  match a with
  | run_task => lit "run" | fsutil_ls => lit "ls" | fsutil_cat => lit "cat" | fsutil_rm => lit "rm"
  | fsutil_extract => lit "extract" | fsutil_append => lit "append"
  end.

Definition action_args (a : action) : nat := match a with fsutil_ls | fsutil_extract => 0%nat | _ => 1%nat end.

Definition command_words (c : command) : list (list Z) := action_word c.1 :: c.2.
Definition all_words (cs : list command) : list (list Z) := mjoin (command_words <$> cs).
Definition command_ok (c : command) : Prop := length c.2 = action_args c.1.

(** The calls of the actions, each with the words from its own on. *)
Fixpoint calls {S} (call : action → list (list Z) → st S unit) (cs : list command) (rest : list (list Z)) : st S unit :=
  match cs with
  | [] => mret tt
  | c :: cs => call c.1 (command_words c ++ all_words cs ++ rest);; calls call cs rest
  end.

Lemma find_action_word a : find_action (action_word a) = Some (S (action_args a), a).
Proof. by destruct a. Qed.

Lemma run_commands {S} fuel (call : action → list (list Z) → st S unit) cs rest s :
  Forall command_ok cs → (length cs <= fuel)%nat →
  run_actions fuel call (all_words cs ++ rest) s = (calls call cs rest;; run_actions (fuel - length cs) call rest) s.
Proof.
  intros Hcs. revert fuel s. induction Hcs as [|[a args] cs Hc _ IH]; intros fuel s Hf.
  { cbn [all_words mjoin fmap list_fmap app length calls]. by rewrite Nat.sub_0_r. }
  destruct fuel as [|fuel]; [cbn in Hf; lia|]. unfold command_ok in Hc. cbn [fst snd] in Hc.
  change (all_words ((a, args) :: cs) ++ rest) with ((action_word a :: args ++ all_words cs) ++ rest). cbn [app run_actions].
  rewrite find_action_word. rewrite (run_lift _ _ _ _ eq_refl). cbv beta iota.
  rewrite <- app_assoc, (run_lift _ _ _ tt); cycle 1.
  { apply ASSERT_true, bool_decide_eq_true. cbn [length]. rewrite length_app. lia. }
  cbn [drop length calls fst snd]. replace (drop (action_args a) (args ++ all_words cs ++ rest)) with (all_words cs ++ rest)
    by (rewrite <- Hc; symmetry; apply drop_app_length).
  change (command_words (a, args) ++ all_words cs ++ rest) with (action_word a :: args ++ all_words cs ++ rest).
  unfold mbind, st_bind. destruct (call a _ s) as [[[] s1]| | |]; try done.
  rewrite IH by (cbn in Hf; lia). done.
Qed.

(** Actions run in the order of the command line.  For a sequence of well-formed
    actions run_actions() makes exactly their calls, in this order, and
    returns; words that are not an action, or that lack the argument of their
    action, stop the kernel, but only after the actions before them ran. *)
Theorem run_actions_in_order {X} (call : action → list (list Z) → st X unit) (cs : list command) (a : action) (w : list Z) (ws : list (list Z)) (s : X) :
  Forall command_ok cs →
  run_actions (length (all_words cs)) call (all_words cs) s = calls call cs [] s ∧
  (find_action w = None → run_actions (S (length (all_words cs))) call (all_words cs ++ w :: ws) s = (calls call cs (w :: ws);; lift Panic) s) ∧
  (action_args a = 1%nat →
     run_actions (S (length (all_words cs))) call (all_words cs ++ [action_word a]) s = (calls call cs [action_word a];; lift Panic) s).
Proof.
  intros Hcs.
  assert (Hlen : (length cs <= length (all_words cs))%nat).
  { clear. induction cs as [|c cs IH]; [done|]. change (all_words (c :: cs)) with (command_words c ++ all_words cs).
    rewrite length_app. cbn [command_words length]. lia. }
  assert (Hext : ∀ (m : st X unit) (f g : unit → st X unit), (∀ s', f tt s' = g tt s') → (m ≫= f) s = (m ≫= g) s).
  { intros m f g H. unfold mbind, st_bind. destruct (m s) as [[[] s']| | |]; auto. }
  split; [|split].
  - rewrite <- (app_nil_r (all_words cs)) at 2. rewrite run_commands by done.
    unfold mbind, st_bind. destruct (calls call cs [] s) as [[[] s']| | |]; try done. by destruct (_ - _)%nat.
  - intros Hw. rewrite run_commands by (done || lia). apply Hext. intros s'. rewrite Nat.sub_succ_l by lia. cbn [run_actions]. by rewrite Hw.
  - intros Ha. rewrite run_commands by (done || lia). apply Hext. intros s'. rewrite Nat.sub_succ_l by lia. cbn [run_actions].
    rewrite find_action_word, Ha. done.
Qed.

Lemma run_actions_in_order_witness :
  run_actions 4 (λ a ws, modify (λ l, l ++ [(a, length ws)])) [lit "ls"; lit "run"; lit "x"; lit "foo"] [] = Panic ∧
  run_actions 3 (λ a ws, modify (λ l, l ++ [(a, length ws)])) [lit "ls"; lit "run"; lit "x"] [] = Ok (tt, [(fsutil_ls, 3%nat); (run_task, 2%nat)]).
Proof.
  destruct (run_actions_in_order (λ a ws, modify (λ l, l ++ [(a, length ws)])) [(fsutil_ls, []); (run_task, [lit "x"])] run_task (lit "foo") [] [])
    as (H1 & H2 & _); [by repeat constructor|]. split; [exact (H2 eq_refl)|exact H1].
Defined.

Lemma command_line_roundtrip_witness :
  ∃ m ps, read_command_line m = Ok (ps ++ [0]) ∧ Forall2 (cstr m) ps [lit "-q"; lit "ls"].
Proof.
  set (ws := [lit "-q"; lit "ls"]).
  set (m := write_bytes ∅ (kaddr LOADER_ARG_CNT) (le32 2 ++ layout ws)). exists m.
  pose proof (write_bytes_at ∅ (kaddr LOADER_ARG_CNT) (le32 2 ++ layout ws)) as Hm. fold m in Hm. apply bytes_at_app in Hm as [H1 H2].
  destruct (command_line_roundtrip m ws 2) as [H _]; [repeat constructor; lia|exact H2|exact H1|vm_compute; lia|vm_compute; lia|].
  destruct (H eq_refl) as (ps & E & Hp). exists ps. split; [exact E|exact Hp].
Defined.
