(* ===== verification/Timer.v ===== *)
(** * The timer: devices/timer.c

    Sleeping, over the scheduler of Thread.v: a thread in timer_sleep() is
    listed with the time it started at and the ticks it sleeps.  Delays, and the
    calibration of the delay loop, for any function that tells whether a number
    of loops lasts longer than a tick. *)

From S2P Require Import Prelude Vaddr Thread Synch.

Open Scope Z_scope.

(** ** Definitions *)

Definition TIMER_FREQ : Z := 100.

Definition timer_ticks : K Z :=
  old_level ← intr_disable;
  t ← gets ticks;
  intr_set_level old_level;;
  mret t.

Definition timer_elapsed (then_ : Z) : K Z := t ← timer_ticks; mret (i64 (t - then_)).

(** A turn of the loop of timer_sleep(): [true] when the loop is left; otherwise the
    thread has yielded. *)
Definition sleep_turn (start n : Z) : K bool :=
  e ← timer_elapsed start;
  if e <? n then thread_yield;; mret false else mret true.

(** timer_sleep() up to the first turn of its loop: the start, and whether it is
    over. *)
Definition timer_sleep (n : Z) : K (Z * bool) :=
  start ← timer_ticks;
  level ← intr_get_level;
  kASSERT level;;
  over ← sleep_turn start n;
  mret (start, over).

(** The barriers that busy_wait() passes. *)
Definition busy_wait (loops : Z) : nat := Z.to_nat loops.

Definition real_time_delay (loops_per_tick num denom : Z) : outcome nat :=
  ASSERT (Z.rem denom 1000 =? 0);;
  Ok (busy_wait (i64 (i64 (i64 (loops_per_tick * num) ÷ 1000 * TIMER_FREQ) ÷ (denom ÷ 1000)))).

(** real_time_sleep(): it sleeps for ticks, or passes barriers. *)
Definition real_time_sleep (loops_per_tick num denom : Z) : K ((Z * bool) + nat) :=
  let n := i64 (num * TIMER_FREQ) ÷ denom in
  level ← intr_get_level;
  kASSERT level;;
  if 0 <? n then r ← timer_sleep n; mret (inl r)
  else b ← lift (real_time_delay loops_per_tick num denom); mret (inr b).

Definition timer_msleep (lpt ms : Z) : K ((Z * bool) + nat) := real_time_sleep lpt ms 1000.
Definition timer_usleep (lpt us : Z) : K ((Z * bool) + nat) := real_time_sleep lpt us 1000000.
Definition timer_nsleep (lpt ns : Z) : K ((Z * bool) + nat) := real_time_sleep lpt ns 1000000000.
Definition timer_mdelay (lpt ms : Z) : outcome nat := real_time_delay lpt ms 1000.
Definition timer_udelay (lpt us : Z) : outcome nat := real_time_delay lpt us 1000000.
Definition timer_ndelay (lpt ns : Z) : outcome nat := real_time_delay lpt ns 1000000000.

(** timer_calibrate(); [too_many_loops] measures a number of loops. *)
Definition calibrate_high (too_many_loops : Z → bool) : outcome Z :=
  loop 23 (λ l,
    if too_many_loops (u32 (Z.shiftl l 1)) then Ok (inr l)
    else let l := u32 (Z.shiftl l 1) in ASSERT (negb (l =? 0));; Ok (inl l)) (Z.shiftl 1 10).

Definition timer_calibrate (too_many_loops : Z → bool) : outcome Z :=
  high_bit ← calibrate_high too_many_loops;
  loop 33 (λ '(test_bit, l),
    if test_bit =? Z.shiftr high_bit 10 then Ok (inr l)
    else Ok (inl (Z.shiftr test_bit 1, if too_many_loops (Z.lor high_bit test_bit) then l else Z.lor l test_bit)))
    (Z.shiftr high_bit 1, high_bit).

(** ** Threads that compute and sleep

    The running thread finishes the kernel functions it was switched out of. *)
Definition finish : K unit :=
  loop_st 3 (λ _ : unit,
    b ← gets busy;
    if (b : bool) then resume;; mret (inl tt) else mret (inr tt)) tt.

(** A timer interrupt, and what follows it. *)
Definition tick : K unit := intr_handler timer_interrupt;; finish.

Record ts := mk_ts {
  tk : kst;
  sleeping : gmap Z (Z * Z);
  budget : nat;
  moved : bool }.

(** Steps of such a system.  The environment is fair: the running thread makes at
    most [N] steps between two ticks, and a thread is not preempted before it
    has made a step. *)
Inductive tstep (N : nat) : ts → ts → Prop :=
| t_tick s k :
    s.(tk).(thread_ticks) + 1 < TIME_SLICE ∨ s.(moved) = true → tick s.(tk) = Ok (tt, k) →
    tstep N s (mk_ts k s.(sleeping) N (s.(moved) && (s.(tk).(thread_ticks) + 1 <? TIME_SLICE)))
| t_compute s b :
    s.(budget) = S b → s.(sleeping) !! s.(tk).(running) = None →
    tstep N s (mk_ts s.(tk) s.(sleeping) b true)
| t_yield s b k :
    s.(budget) = S b → s.(sleeping) !! s.(tk).(running) = None →
    (thread_yield;; finish) s.(tk) = Ok (tt, k) →
    tstep N s (mk_ts k s.(sleeping) b false)
| t_sleep s b n start (over : bool) k :
    s.(budget) = S b → s.(sleeping) !! s.(tk).(running) = None →
    (r ← timer_sleep n; finish;; mret r) s.(tk) = Ok ((start, over), k) →
    tstep N s (mk_ts k (if over then s.(sleeping) else <[s.(tk).(running) := (start, n)]> s.(sleeping)) b over)
| t_turn s b n start (over : bool) k :
    s.(budget) = S b → s.(sleeping) !! s.(tk).(running) = Some (start, n) →
    (r ← sleep_turn start n; finish;; mret r) s.(tk) = Ok (over, k) →
    tstep N s (mk_ts k (if over then delete s.(tk).(running) s.(sleeping) else s.(sleeping)) b over).

(** Every way the system can go on leads to [P]. *)
Inductive inevitably (N : nat) (P : ts → Prop) : ts → Prop :=
| inev_now s : P s → inevitably N P s
| inev_next s : (∃ s', tstep N s s') → (∀ s', tstep N s s' → inevitably N P s') → inevitably N P s.

(** ** The scheduler between two steps *)

(** What a thread of the run queue was switched out of. *)
Definition ready_frames (fs : list frame) : Prop :=
  fs = [FStart] ∨ fs = [FYield true] ∨ fs = [FYield false; FIret].

Record sched_ok (s : kst) : Prop := {
  w_on : s.(intr_on) = true;
  w_ext : s.(in_external_intr) = false;
  w_nodup : NoDup (queue s);
  w_idle : s.(idle_thread) ∉ queue s;
  w_run : ∃ th, s.(threads) !! s.(running) = Some th ∧ th.(status) = THREAD_RUNNING ∧ th.(frames) = [];
  w_ready : ∀ t, t ∈ s.(ready_list) → ∃ th, s.(threads) !! t = Some th ∧ ready_frames th.(frames);
  w_magic : ∀ t, t ∈ queue s → t ≠ NULL ∧ ∃ th, s.(threads) !! t = Some th ∧ th.(t_magic) = THREAD_MAGIC;
  w_ticks : 0 <= s.(thread_ticks) < TIME_SLICE }.

(** The state after thread_yield() of the running thread [th] with [n :: l] as the
    rotated queue. *)
Definition yielded (s : kst) (th nth : thread) (n : Z) (l : list Z) : kst :=
  with_ticks 0 s.(idle_ticks) s.(kernel_ticks) s.(user_ticks) s.(ticks)
    (with_threads (<[n := set_status nth THREAD_RUNNING]>
       (<[s.(running) := set_status (set_frames th (FYield s.(intr_on) :: th.(frames))) THREAD_READY]> s.(threads)))
       (with_running n (with_ready l (with_intr false s)))).

Lemma yield_exact s th nth n l :
  s.(threads) !! s.(running) = Some th → th.(status) = THREAD_RUNNING → th.(t_magic) = THREAD_MAGIC → s.(running) ≠ NULL →
  s.(in_external_intr) = false → s.(running) ≠ s.(idle_thread) → s.(ready_list) ++ [s.(running)] = n :: l → n ≠ NULL →
  <[s.(running) := set_status (set_frames th (FYield s.(intr_on) :: th.(frames))) THREAD_READY]> s.(threads) !! n = Some nth →
  nth.(t_magic) = THREAD_MAGIC →
  thread_yield s = Ok (tt, yielded s th nth n l).
Proof.
  intros Hth Hst Hm Hnn Hctx Hidle El Hn Hnth Hnm.
  unfold thread_yield.
  rewrite (run_bind thread_current _ s (running s) s); cycle 1.
  { unfold thread_current, running_thread. rewrite run_gets.
    rewrite (run_bind _ _ _ _ _ (is_thread_ok _ _ _ Hnn Hth Hm)), kASSERT_ok by done.
    rewrite (run_bind _ _ _ _ _ (get_thread_ok _ _ _ Hth)). by rewrite kASSERT_ok by by apply bool_decide_eq_true. }
  unfold intr_context. rewrite run_gets, Hctx. rewrite kASSERT_ok by done.
  rewrite (run_bind _ _ s (intr_on s) (with_intr false s)) by done. rewrite run_gets.
  cbn [idle_thread with_intr]. rewrite (proj2 (Z.eqb_neq _ _)) by done. cbn [negb when].
  rewrite (run_bind _ _ _ tt (with_ready (ready_list s ++ [running s]) (with_intr false s))) by done.
  set (th1 := set_frames th (FYield (intr_on s) :: frames th)) in *.
  rewrite (run_bind _ _ _ tt (with_threads (<[running s := th1]> (threads s))
    (with_ready (ready_list s ++ [running s]) (with_intr false s)))); cycle 1.
  { unfold push_frame, running_thread. rewrite run_gets.
    erewrite run_bind by (apply get_thread_ok; exact Hth). done. }
  erewrite run_bind by (apply get_thread_ok; apply lookup_insert_eq).
  rewrite (run_bind _ _ _ tt (with_threads (<[running s := set_status th1 THREAD_READY]> (threads s))
    (with_ready (ready_list s ++ [running s]) (with_intr false s)))); cycle 1.
  { unfold put_thread. rewrite run_gets. cbn. by rewrite insert_insert_eq. }
  rewrite El. set (s1 := with_threads _ _).
  rewrite (schedule_ok s1 n l (set_status th1 THREAD_READY) nth); [done|done|apply lookup_insert_eq|done|done|by left|done..].
Qed.

Lemma resume_run s th f rest :
  s.(threads) !! s.(running) = Some th → th.(frames) = f :: rest → f = FStart ∨ (∃ b, f = FYield b) ∨ f = FIret →
  resume s = (match f with FStart => intr_enable;; mret tt | FYield old => intr_set_level old;; mret tt | _ => modify (with_intr true) end)
    (with_threads (<[s.(running) := set_frames th rest]> s.(threads)) s).
Proof.
  intros Hth Hf Hc. unfold resume, running_thread. rewrite run_gets. rewrite (run_bind _ _ _ _ _ (get_thread_ok _ _ _ Hth)), Hf.
  destruct Hc as [-> | [[b ->] | ->]]; unfold put_thread; (erewrite run_bind by (rewrite run_gets; reflexivity)); done.
Qed.

Lemma busy_of s th : s.(threads) !! s.(running) = Some th → busy s = negb (bool_decide (th.(frames) = [])).
Proof. intros H. unfold busy. by rewrite H. Qed.

Definition finish_body (_ : unit) : K (unit + unit) :=
  b ← gets busy; if (b : bool) then resume;; mret (inl tt) else mret (inr tt).

(** The state in which the running thread is back in its own code. *)
Definition own_code (s : kst) (th : thread) : kst :=
  with_intr true (with_threads (<[s.(running) := set_frames th []]> s.(threads)) s).

Lemma finish_last n s th f :
  s.(threads) !! s.(running) = Some th → th.(frames) = [f] → f = FStart ∨ f = FYield true ∨ f = FIret → s.(in_external_intr) = false →
  loop_st (S (S n)) finish_body tt s = Ok (tt, own_code s th).
Proof.
  intros Hth E Hf Hx. rewrite (loop_st_next _ _ _ _ tt (own_code s th)).
  - apply loop_st_done. unfold finish_body. rewrite run_gets, (busy_of _ (set_frames th [])); [done|]. cbn. by rewrite lookup_insert_eq.
  - unfold finish_body. rewrite run_gets, (busy_of _ _ Hth), E, bool_decide_false by done. cbn [negb].
    rewrite (run_bind resume _ _ tt (own_code s th)); [done|]. rewrite (resume_run _ _ _ _ Hth E) by naive_solver.
    destruct Hf as [-> | [-> | ->]]; [| |done];
      unfold intr_set_level, intr_enable, intr_get_level, intr_context, mbind, st_bind; cbn; by rewrite Hx.
Qed.

(** The running thread, entered with interrupts off, gets back to its own code. *)
Lemma finish_ok s th :
  s.(threads) !! s.(running) = Some th → ready_frames th.(frames) → s.(in_external_intr) = false → s.(intr_on) = false →
  finish s = Ok (tt, own_code s th).
Proof.
  intros Hth Hf Hx Hi. change (finish s) with (loop_st 3 finish_body tt s).
  destruct Hf as [E | [E | E]]; [by eapply finish_last; eauto..|].
  set (s1 := with_threads (<[running s := set_frames th [FIret]]> (threads s)) s).
  rewrite (loop_st_next _ _ _ _ tt s1); cycle 1.
  { unfold finish_body. rewrite run_gets, (busy_of _ _ Hth), E, bool_decide_false by done. cbn [negb].
    rewrite (run_bind resume _ _ tt s1); [done|]. rewrite (resume_run _ _ _ _ Hth E) by eauto.
    unfold intr_set_level, intr_disable, intr_get_level, mbind, st_bind. cbn. f_equal. f_equal. destruct s; cbn in *; by subst. }
  rewrite (finish_last 0 s1 (set_frames th [FIret]) FIret); [|cbn; by rewrite lookup_insert_eq|done|auto|done].
  unfold own_code, s1. cbn. by rewrite insert_insert_eq.
Qed.

(** The same with the running thread inside an interrupt that is about to yield, or
    in its own code: [fs] is what it has yet to finish. *)
Record mid_ok (s : kst) (fs : list frame) : Prop := {
  m_ready_fs : ready_frames (FYield s.(intr_on) :: fs);
  m_ext : s.(in_external_intr) = false;
  m_nodup : NoDup (queue s);
  m_idle : s.(idle_thread) ∉ queue s;
  m_run : ∃ th, s.(threads) !! s.(running) = Some th ∧ th.(status) = THREAD_RUNNING ∧ th.(frames) = fs;
  m_ready : ∀ t, t ∈ s.(ready_list) → ∃ th, s.(threads) !! t = Some th ∧ ready_frames th.(frames);
  m_magic : ∀ t, t ∈ queue s → t ≠ NULL ∧ ∃ th, s.(threads) !! t = Some th ∧ th.(t_magic) = THREAD_MAGIC }.

Lemma sched_mid s : sched_ok s → mid_ok s [].
Proof. intros [A B C D E F G H]. split; try done. rewrite A. right. by left. Qed.

Definition rotate (l : list Z) : list Z := match l with [] => [] | x :: l => l ++ [x] end.

Lemma rotate_perm l : rotate l ≡ₚ l.
Proof. destruct l as [|x l]; [done|]. cbn. symmetry. apply Permutation_cons_append. Qed.

Lemma switch_ok s fs :
  mid_ok s fs →
  ∃ s', (thread_yield;; finish) s = Ok (tt, s') ∧ sched_ok s' ∧ queue s' = rotate (queue s) ∧
    s'.(ticks) = s.(ticks) ∧ s'.(thread_ticks) = 0.
Proof.
  intros [Hfs Hx Hnd Hid (th & Hth & Hst & Hfr) Hrd Hmg].
  destruct (ready_list s ++ [running s]) as [|n l] eqn:El; [by apply app_eq_nil in El as [_ ?]|].
  assert (Hrot : rotate (queue s) = n :: l) by done.
  assert (Hperm : n :: l ≡ₚ queue s) by (rewrite <- Hrot; apply rotate_perm).
  assert (Hin : n ∈ queue s) by (rewrite <- Hperm; apply elem_of_cons; by left).
  destruct (Hmg (running s)) as (Hnn & th' & Hth' & Hm); [unfold queue; apply elem_of_cons; by left|].
  assert (th' = th) as -> by congruence. clear Hth'.
  set (th1 := set_status (set_frames th (FYield (intr_on s) :: frames th)) THREAD_READY).
  set (m1 := <[running s := th1]> (threads s)).
  assert (Hm1 : ∀ t, t ∈ queue s → t ≠ NULL ∧ ∃ x, m1 !! t = Some x ∧ t_magic x = THREAD_MAGIC ∧ ready_frames (frames x)).
  { intros t Ht. destruct (Hmg t Ht) as (Htn & x & Hx' & Hxm). split; [done|]. unfold m1. destruct (decide (running s = t)) as [<- | Hne].
    - exists th1. rewrite lookup_insert_eq. split; [done|]. split; [exact Hm|]. cbn. by rewrite Hfr.
    - exists x. rewrite lookup_insert_ne by done. split; [done|]. split; [done|]. unfold queue in Ht. apply elem_of_cons in Ht as [? | Ht]; [done|].
      destruct (Hrd t Ht) as (y & Hy & Hyf). congruence. }
  destruct (Hm1 n Hin) as (Hn0 & nth & Hnth & Hnm & Hnf).
  rewrite (run_bind _ _ _ _ _ (yield_exact s th nth n l Hth Hst Hm Hnn Hx
    ltac:(intros E; apply Hid; rewrite <- E; unfold queue; apply elem_of_cons; by left) El Hn0 Hnth Hnm)).
  set (s1 := yielded s th nth n l).
  assert (Hs1 : threads s1 !! running s1 = Some (set_status nth THREAD_RUNNING)) by (cbn; by rewrite lookup_insert_eq).
  rewrite (finish_ok s1 _ Hs1 Hnf Hx eq_refl). eexists. split; [reflexivity|].
  assert (Hq : queue (own_code s1 (set_status nth THREAD_RUNNING)) = n :: l) by done.
  assert (Hnl : NoDup (n :: l)) by by rewrite Hperm.
  split; [|split; [by rewrite Hq|done]]. split; cbn [intr_on in_external_intr idle_thread with_intr with_threads]; try done.
  - change (idle_thread s ∉ n :: l). by rewrite Hperm.
  - cbn. rewrite lookup_insert_eq. by eexists.
  - cbn. intros t Ht. apply NoDup_cons in Hnl as [Hni _]. assert (t ≠ n) by by intros ->.
    rewrite !lookup_insert_ne by done. destruct (Hm1 t) as (_ & x & Hx' & _ & Hxf); [|by exists x].
    rewrite <- Hperm. apply elem_of_cons. by right.
  - intros t Ht. change (t ∈ n :: l) in Ht. rewrite Hperm in Ht. destruct (Hm1 t Ht) as (Htn & x & Hx' & Hxm & _). split; [done|]. cbn.
    destruct (decide (n = t)) as [<- | Hne].
    + rewrite lookup_insert_eq. by eexists.
    + rewrite !lookup_insert_ne by done. eauto.
Qed.

(** What thread_tick() does to the counters. *)
Definition counted (s : kst) (th : thread) : kst :=
  let s := with_ticks s.(thread_ticks) s.(idle_ticks) s.(kernel_ticks) s.(user_ticks) (i64 (s.(ticks) + 1)) s in
  let s := if s.(running) =? s.(idle_thread) then
      with_ticks s.(thread_ticks) (i64 (s.(idle_ticks) + 1)) s.(kernel_ticks) s.(user_ticks) s.(ticks) s
    else if negb (th.(pagedir) =? NULL) then
      with_ticks s.(thread_ticks) s.(idle_ticks) s.(kernel_ticks) (i64 (s.(user_ticks) + 1)) s.(ticks) s
    else with_ticks s.(thread_ticks) s.(idle_ticks) (i64 (s.(kernel_ticks) + 1)) s.(user_ticks) s.(ticks) s in
  with_ticks (u32 (s.(thread_ticks) + 1)) s.(idle_ticks) s.(kernel_ticks) s.(user_ticks) s.(ticks) s.

Lemma counted_queue s th : queue (counted s th) = queue s.
Proof. unfold counted. cbv zeta. repeat case_match; done. Qed.

Lemma counted_rest s th :
  (counted s th).(threads) = s.(threads) ∧ (counted s th).(running) = s.(running) ∧ (counted s th).(ready_list) = s.(ready_list) ∧
  (counted s th).(idle_thread) = s.(idle_thread) ∧ (counted s th).(intr_on) = s.(intr_on) ∧
  (counted s th).(in_external_intr) = s.(in_external_intr) ∧ (counted s th).(yield_on_return) = s.(yield_on_return) ∧
  (counted s th).(ticks) = i64 (s.(ticks) + 1) ∧ (counted s th).(thread_ticks) = u32 (s.(thread_ticks) + 1).
Proof. unfold counted. cbv zeta. repeat case_match; done. Qed.

Lemma timer_interrupt_run s th :
  s.(threads) !! s.(running) = Some th → th.(status) = THREAD_RUNNING → th.(t_magic) = THREAD_MAGIC → s.(running) ≠ NULL →
  s.(in_external_intr) = true →
  timer_interrupt s = Ok (tt, if TIME_SLICE <=? u32 (s.(thread_ticks) + 1) then with_external true true (counted s th) else counted s th).
Proof.
  intros Hth Hst Hm Hnn Hx. unfold timer_interrupt. rewrite run_modify. set (s0 := with_ticks _ _ _ _ _ s). unfold thread_tick.
  rewrite (run_bind thread_current _ s0 (running s) s0); cycle 1.
  { unfold thread_current, running_thread. rewrite run_gets.
    rewrite (run_bind _ _ _ _ _ (is_thread_ok _ _ s0 Hnn Hth Hm)), kASSERT_ok by done.
    rewrite (run_bind _ _ _ _ _ (get_thread_ok _ _ s0 Hth)). by rewrite kASSERT_ok by by apply bool_decide_eq_true. }
  rewrite run_gets, (run_bind _ _ _ _ _ (get_thread_ok _ _ s0 Hth)), run_modify, run_modify, run_gets.
  set (s2 := with_ticks _ _ _ _ _ _). assert (E : s2 = counted s th) by reflexivity.
  destruct (counted_rest s th) as (_ & _ & _ & _ & _ & Hx2 & _ & _ & Htt). rewrite E, Htt. unfold when.
  case_match; [|done]. unfold intr_yield_on_return, intr_context. rewrite run_gets, kASSERT_ok; [done|]. by rewrite Hx2.
Qed.

Lemma tick_ok s :
  sched_ok s →
  ∃ s', tick s = Ok (tt, s') ∧ sched_ok s' ∧ s'.(ticks) = i64 (s.(ticks) + 1) ∧
    if s.(thread_ticks) + 1 <? TIME_SLICE then queue s' = queue s ∧ s'.(thread_ticks) = s.(thread_ticks) + 1
    else queue s' = rotate (queue s) ∧ s'.(thread_ticks) = 0.
Proof.
  intros [Hon Hx Hnd Hid (th & Hth & Hst & Hfr) Hrd Hmg Htt].
  destruct (Hmg (running s)) as (Hnn & th' & Hth' & Hm); [unfold queue; apply elem_of_cons; by left|].
  assert (th' = th) as -> by congruence. clear Hth'. unfold tick, intr_handler. rewrite !st_bind_assoc, run_modify.
  set (th1 := set_frames th [FIret]). set (s1 := with_threads (<[running s := th1]> (threads s)) (with_intr false s)).
  rewrite st_bind_assoc, (run_bind (push_frame FIret) _ _ tt s1); cycle 1.
  { unfold push_frame, running_thread. rewrite run_gets. erewrite run_bind by (apply get_thread_ok; exact Hth).
    unfold put_thread. rewrite run_gets, Hfr. done. }
  unfold intr_get_level, intr_context. rewrite st_bind_assoc, run_gets, st_bind_assoc, kASSERT_ok by done.
  rewrite st_bind_assoc, run_gets, st_bind_assoc, kASSERT_ok by (cbn; by rewrite Hx). rewrite st_bind_assoc, run_modify.
  set (s2 := with_external true false s1).
  assert (Hs2 : threads s2 !! running s2 = Some th1) by (cbn; by rewrite lookup_insert_eq).
  rewrite st_bind_assoc, (run_bind _ _ _ _ _ (timer_interrupt_run s2 th1 Hs2 Hst Hm Hnn eq_refl)).
  destruct (counted_rest s2 th1) as (C1 & C2 & C3 & C4 & C5 & C6 & C7 & C8 & C9).
  change (thread_ticks s2) with (thread_ticks s). unfold TIME_SLICE in *. rewrite u32_small by lia.
  pose proof (counted_queue s2 th1) as Cq.
  destruct (Z.leb_spec 4 (thread_ticks s + 1)) as [Hle|Hlt].
  - rewrite (proj2 (Z.ltb_ge _ _)) by lia. rewrite st_bind_assoc, run_gets, st_bind_assoc, kASSERT_ok by (change (negb (intr_on (counted s2 th1)) = true); by rewrite C5).
    rewrite st_bind_assoc, run_gets, st_bind_assoc, kASSERT_ok by done. rewrite st_bind_assoc, run_gets, st_bind_assoc, run_modify.
    cbn [yield_on_return with_external when]. set (s3 := with_external false true _).
    destruct (switch_ok s3 [FIret]) as (s' & E & Hok & Hq & Htk & Htt').
    { split; cbn [s3 with_external intr_on in_external_intr idle_thread ready_list threads running].
      - rewrite C5. right. by right.
      - done.
      - change (queue s3) with (queue (counted s2 th1)). by rewrite Cq.
      - rewrite C4. change (queue s3) with (queue (counted s2 th1)). by rewrite Cq.
      - rewrite C1, C2. exists th1. done.
      - rewrite C1, C3. intros t Ht. destruct (Hrd t Ht) as (x & Hx' & Hxf). exists x. split; [|done]. cbn.
        rewrite lookup_insert_ne; [done|]. intros <-. unfold queue in Hnd. by apply NoDup_cons in Hnd as [? _].
      - change (queue s3) with (queue (counted s2 th1)). rewrite Cq, C1. intros t Ht. destruct (Hmg t Ht) as (? & x & Hx' & Hxm). split; [done|].
        cbn. destruct (decide (running s = t)) as [<- |]; [rewrite lookup_insert_eq; by exists th1|rewrite lookup_insert_ne by done; eauto]. }
    exists s'. split; [exact E|]. split; [done|]. rewrite Htk. split; [exact C8|]. rewrite Hq, Htt'.
    change (queue s3) with (queue (counted s2 th1)). by rewrite Cq.
  - rewrite (proj2 (Z.ltb_lt _ _)) by lia. rewrite st_bind_assoc, run_gets, st_bind_assoc, kASSERT_ok by (change (negb (intr_on (counted s2 th1)) = true); by rewrite C5).
    rewrite st_bind_assoc, run_gets, st_bind_assoc, kASSERT_ok by by rewrite C6. rewrite st_bind_assoc, run_gets, st_bind_assoc, run_modify.
    rewrite C7. cbn [yield_on_return s2 with_external when]. set (s3 := with_external false false _).
    rewrite (run_bind _ _ s3 tt s3) by done.
    assert (Hs3 : threads s3 !! running s3 = Some th1) by (change (threads (counted s2 th1) !! running (counted s2 th1) = Some th1); by rewrite C1, C2).
    change (finish s3) with (loop_st 3 finish_body tt s3). rewrite (finish_last 1 s3 th1 FIret Hs3 eq_refl) by auto.
    assert (Hq : queue (own_code s3 th1) = queue s) by exact Cq. exists (own_code s3 th1).
    split; [reflexivity|]. split; [|split; [exact C8|split; [exact Hq|]]].
    2: { change (thread_ticks (counted s2 th1) = thread_ticks s + 1). rewrite C9. apply u32_small. cbn. lia. }
    assert (Hrun : threads (own_code s3 th1) = <[running s := set_frames th1 []]> (threads s)).
    { change (<[running (counted s2 th1) := set_frames th1 []]> (threads (counted s2 th1)) = <[running s := set_frames th1 []]> (threads s)).
      rewrite C1, C2. cbn. by rewrite insert_insert_eq. }
    assert (Hr' : running (own_code s3 th1) = running s) by exact C2.
    split; rewrite ?Hq, ?Hrun, ?Hr'; try done.
    + change (idle_thread (counted s2 th1) ∉ queue s). by rewrite C4.
    + rewrite lookup_insert_eq. by eexists.
    + change (ready_list (own_code s3 th1)) with (ready_list (counted s2 th1)). rewrite C3. intros t Ht.
      rewrite lookup_insert_ne; [by apply Hrd|]. intros <-. unfold queue in Hnd. by apply NoDup_cons in Hnd as [? _].
    + intros t Ht. destruct (Hmg t Ht) as (? & x & Hx' & Hxm). split; [done|].
      destruct (decide (running s = t)) as [<- |]; [rewrite lookup_insert_eq; by eexists|rewrite lookup_insert_ne by done; eauto].
    + change (0 <= thread_ticks (counted s2 th1) < 4). rewrite C9. cbn. rewrite u32_small; lia.
Qed.

(** *** A turn of the sleeping loop *)

Lemma run_ret {S A B} (a : A) (f : A → st S B) s : (mret a ≫= f) s = f a s.
Proof. done. Qed.

Lemma timer_ticks_ok s : sched_ok s → timer_ticks s = Ok (s.(ticks), s).
Proof.
  intros [Hon Hx _ _ _ _ _ _]. unfold timer_ticks, intr_disable, intr_set_level, intr_enable, intr_get_level, intr_context, mbind, st_bind.
  destruct s. cbn in *. subst. done.
Qed.

Lemma finish_idle s : sched_ok s → finish s = Ok (tt, s).
Proof.
  intros [_ _ _ _ (th & Hth & _ & Hf) _ _ _]. apply loop_st_done. rewrite run_gets, (busy_of _ _ Hth), Hf. done.
Qed.

Lemma turn_ok s start n :
  sched_ok s →
  ∃ s', (r ← sleep_turn start n; finish;; mret r) s = Ok (negb (i64 (s.(ticks) - start) <? n), s') ∧ sched_ok s' ∧
    s'.(ticks) = s.(ticks) ∧
    if i64 (s.(ticks) - start) <? n then queue s' = rotate (queue s) ∧ s'.(thread_ticks) = 0 else s' = s.
Proof.
  intros Hs. unfold sleep_turn, timer_elapsed. rewrite !st_bind_assoc, (run_bind _ _ _ _ _ (timer_ticks_ok s Hs)), run_ret.
  destruct (_ <? n) eqn:E.
  - destruct (switch_ok s [] (sched_mid s Hs)) as (s' & E' & Hok & Hq & Ht & Htt). exists s'. split; [|done].
    rewrite st_bind_assoc. apply run_bind_inv in E' as ([] & s1 & E1 & E2). rewrite (run_bind _ _ _ _ _ E1), run_ret.
    by rewrite (run_bind _ _ _ _ _ E2).
  - exists s. rewrite run_ret. by rewrite (run_bind _ _ _ _ _ (finish_idle s Hs)).
Qed.

Lemma sleep_ok s n :
  sched_ok s →
  ∃ s', (r ← timer_sleep n; finish;; mret r) s = Ok ((s.(ticks), negb (i64 0 <? n)), s') ∧ sched_ok s' ∧
    s'.(ticks) = s.(ticks) ∧ if i64 0 <? n then queue s' = rotate (queue s) ∧ s'.(thread_ticks) = 0 else s' = s.
Proof.
  intros Hs. destruct (turn_ok s s.(ticks) n Hs) as (s' & E & Hok & Ht & Hq). rewrite Z.sub_diag in *. exists s'. split; [|done].
  unfold timer_sleep. rewrite st_bind_assoc, (run_bind _ _ _ _ _ (timer_ticks_ok s Hs)). unfold intr_get_level.
  rewrite st_bind_assoc, run_gets, st_bind_assoc, kASSERT_ok by by rewrite (w_on _ Hs). rewrite st_bind_assoc.
  apply run_bind_inv in E as (r & s1 & E1 & E). rewrite (run_bind _ _ _ _ _ E1), run_ret.
  apply run_bind_inv in E as ([] & s2 & E2 & E). rewrite (run_bind _ _ _ _ _ E2). by injection E as -> ->.
Qed.

(** *** Every sleep ends *)

Record base (s : ts) : Prop := {
  b_sched : sched_ok s.(tk);
  b_moved : is_Some (s.(sleeping) !! s.(tk).(running)) → s.(moved) = false;
  b_budget : s.(budget) = 0%nat → s.(moved) = true ∨ s.(tk).(thread_ticks) = 0 }.

Lemma progress N s : base s → ∃ s', tstep N s s'.
Proof.
  intros [Hs Hm Hb]. destruct (budget s) as [|b] eqn:Eb.
  - destruct (tick_ok (tk s) Hs) as (k & E & _). eexists. eapply t_tick; [|exact E]. unfold TIME_SLICE.
    destruct (Hb eq_refl); [by right|left; lia].
  - destruct (sleeping s !! running (tk s)) as [[start n]|] eqn:Es.
    + destruct (turn_ok (tk s) start n Hs) as (k & E & _). eexists. by eapply t_turn.
    + eexists. by eapply t_compute.
Qed.

(** What a step does to a sleeping thread [t]: a tick, a step of another thread, a
    yield, or its end. *)
Definition effect (N : nat) (t start n : Z) (s s' : ts) : Prop :=
  (s'.(budget) = N ∧ s'.(sleeping) !! t = Some (start, n) ∧ s'.(tk).(ticks) = i64 (s.(tk).(ticks) + 1) ∧
   ((queue s'.(tk) = queue s.(tk) ∧ s'.(tk).(thread_ticks) = s.(tk).(thread_ticks) + 1) ∨
    (s.(tk).(running) ≠ t ∧ queue s'.(tk) = rotate (queue s.(tk)) ∧ s'.(tk).(thread_ticks) = 0))) ∨
  (s.(budget) = S s'.(budget) ∧ s'.(tk).(ticks) = s.(tk).(ticks) ∧
   ((s.(tk).(running) ≠ t ∧ s'.(sleeping) !! t = Some (start, n) ∧ queue s'.(tk) = queue s.(tk) ∧
     s'.(tk).(thread_ticks) = s.(tk).(thread_ticks)) ∨
    (s'.(sleeping) !! t = Some (start, n) ∧ queue s'.(tk) = rotate (queue s.(tk)) ∧ s'.(tk).(thread_ticks) = 0 ∧
     (s.(tk).(running) = t → i64 (s.(tk).(ticks) - start) < n)) ∨
    (s'.(sleeping) !! t = None ∧ n <= i64 (s.(tk).(ticks) - start)))).

Lemma running_queue s s' : queue s' = queue s → s'.(running) = s.(running).
Proof. unfold queue. congruence. Qed.

Lemma step_effect N t start n s s' :
  (0 < N)%nat → base s → s.(sleeping) !! t = Some (start, n) → tstep N s s' → base s' ∧ effect N t start n s s'.
Proof.
  intros HN [Hs Hm Hb] Ht Hstep. destruct Hstep as [s k Hen E|s b Eb Es|s b k Eb Es E|s b n' start' over k Eb Es E|s b n' start' over k Eb Es E].
  - destruct (tick_ok (tk s) Hs) as (k' & E' & Hk & Htk & Hq). assert (k' = k) as -> by congruence.
    assert (Hrun : (thread_ticks (tk s) + 1 <? TIME_SLICE) = true ∨ running (tk s) ≠ t).
    { destruct (_ <? _) eqn:El; [by left|]. right. intros <-. destruct Hen as [Hen|Hen]; [lia|]. rewrite Hm in Hen by eauto; done. }
    split.
    + split; cbn; [done| |lia]. intros Hsl. destruct (_ <? _) eqn:El; [|apply andb_false_r]. destruct Hq as [Hq _].
      apply running_queue in Hq. rewrite Hq in Hsl. by rewrite Hm.
    + left. cbn. split; [done|]. split; [done|]. split; [done|]. destruct (_ <? _) eqn:El; [by left|].
      right. destruct Hrun as [Hrun|Hrun]; done.
  - split; [split; cbn; [done|rewrite Es; by intros []|by left]|]. right. cbn. split; [done|]. split; [done|]. left.
    split; [|done]. intros <-. congruence.
  - destruct (switch_ok (tk s) [] (sched_mid _ Hs)) as (k' & E' & Hk & Hq & Htk & Htt). assert (k' = k) as -> by congruence.
    split; [split; cbn; auto|]. right. cbn. split; [done|]. split; [done|]. right. left. split; [done|]. split; [done|].
    split; [done|]. intros <-. congruence.
  - destruct (sleep_ok (tk s) n' Hs) as (k' & E' & Hk & Htk & Hq). rewrite E in E'. injection E' as -> -> ->.
    assert (Hne : running (tk s) ≠ t) by (intros <-; congruence).
    destruct (i64 0 <? n'); cbn [negb] in *.
    + destruct Hq as [Hq Htt]. split; [split; cbn; auto|]. right. cbn. split; [done|]. split; [done|]. right. left.
      rewrite lookup_insert_ne by done. done.
    + subst k'. split; [split; cbn; [done|rewrite Es; by intros []|by left]|]. right. cbn. split; [done|]. split; [done|]. left. done.
  - destruct (turn_ok (tk s) start' n' Hs) as (k' & E' & Hk & Htk & Hq). rewrite E in E'. injection E' as -> ->.
    destruct (Z.ltb_spec (i64 (ticks (tk s) - start')) n') as [Hlt|Hge]; cbn [negb] in *.
    + destruct Hq as [Hq Htt]. split; [split; cbn; auto|]. right. cbn. split; [done|]. split; [done|]. right. left.
      split; [done|]. split; [done|]. split; [done|]. intros <-. rewrite Ht in Es. by injection Es as <- <-.
    + subst k'. split; [split; cbn; [done|rewrite lookup_delete_eq; by intros []|by left]|]. right. cbn. split; [done|]. split; [done|].
      destruct (decide (running (tk s) = t)) as [<- | Hne].
      * right. right. rewrite lookup_delete_eq. rewrite Ht in Es. by injection Es as <- <-.
      * left. rewrite lookup_delete_ne by done. done.
Qed.

Lemma rotate_lookup (l : list Z) i t : l !! S i = Some t → rotate l !! i = Some t.
Proof. destruct l as [|x l]; [done|]. cbn. intros H. by apply lookup_app_l_Some. Qed.

Definition max64 : Z := 9223372036854775807.

(** The sleep of [t] is over. *)
Definition woken (t start n : Z) (s : ts) : Prop := s.(sleeping) !! t = None ∧ n <= s.(tk).(ticks) - start.

(** Once its time has come, the thread wakes up as soon as it runs. *)
Lemma wakes_when_due N t start n :
  (0 < N)%nat → 0 <= start → ∀ m s i,
  base s → s.(sleeping) !! t = Some (start, n) → queue s.(tk) !! i = Some t →
  start <= s.(tk).(ticks) → n <= s.(tk).(ticks) - start →
  s.(tk).(ticks) + 4 * Z.of_nat i + (4 - s.(tk).(thread_ticks)) <= max64 →
  (Z.to_nat (4 * Z.of_nat i + (4 - s.(tk).(thread_ticks))) * S N + s.(budget) <= m)%nat →
  inevitably N (woken t start n) s.
Proof.
  intros HN H0. induction m as [m IH] using lt_wf_ind. intros s i Hb Hsl Hi Hst Hn Hmax Hm.
  pose proof (w_ticks _ (b_sched _ Hb)) as Htt. unfold TIME_SLICE in Htt. unfold max64 in Hmax.
  apply inev_next; [by apply progress|]. intros s' Hstep. destruct (step_effect N t start n s s' HN Hb Hsl Hstep) as [Hb' He].
  pose proof (w_ticks _ (b_sched _ Hb')) as Htt'. unfold TIME_SLICE in Htt'.
  assert (Hi64 : i64 (ticks (tk s) - start) = ticks (tk s) - start) by (apply i64_small; lia).
  assert (Hnext : i64 (ticks (tk s) + 1) = ticks (tk s) + 1) by (apply i64_small; lia).
  destruct He as [(Ebu & Hsl' & Hti & [[Hq Ht'] | (Hne & Hq & Ht')]) | (Ebu & Hti & [(Hne & Hsl' & Hq & Ht') | [(Hsl' & Hq & Ht' & Hrun) | [Hw Hge]]])].
  - rewrite Hnext in Hti. eapply (IH (m - 1)%nat); [nia|done|done|by rewrite Hq|lia|lia|unfold max64; lia|]. rewrite Ht', Ebu. nia.
  - rewrite Hnext in Hti. destruct i as [|i]; [by injection Hi as Hi|].
    eapply (IH (m - 1)%nat); [nia|done|done|rewrite Hq; by apply rotate_lookup|lia|lia|unfold max64; lia|]. rewrite Ht', Ebu. nia.
  - eapply (IH (m - 1)%nat); [nia|done|done|by rewrite Hq|lia|lia|unfold max64; lia|]. rewrite Ht'. nia.
  - destruct i as [|i]; [injection Hi as Hi; specialize (Hrun Hi); lia|].
    eapply (IH (m - 1)%nat); [nia|done|done|rewrite Hq; by apply rotate_lookup|lia|lia|unfold max64; lia|]. rewrite Ht'. nia.
  - apply inev_now. split; [done|]. lia.
Qed.

Lemma queue_rotate_in l t : t ∈ l → t ∈ rotate l ∧ length (rotate l) = length l.
Proof. intros H. rewrite (rotate_perm l). done. Qed.

Lemma sleep_ends N t start n :
  (0 < N)%nat → 0 <= start → ∀ m s,
  base s → s.(sleeping) !! t = Some (start, n) → t ∈ queue s.(tk) → start <= s.(tk).(ticks) →
  start + Z.max n (s.(tk).(ticks) - start) + 4 * Z.of_nat (length (queue s.(tk))) <= max64 →
  (Z.to_nat (start + n - s.(tk).(ticks)) * S N + s.(budget) <= m)%nat →
  inevitably N (woken t start n) s.
Proof.
  intros HN H0. induction m as [m IH] using lt_wf_ind. intros s Hb Hsl Hin Hst Hmax Hm.
  pose proof (w_ticks _ (b_sched _ Hb)) as Htt. unfold TIME_SLICE in Htt.
  destruct (decide (n <= ticks (tk s) - start)) as [Hdue|Hdue].
  { apply list_elem_of_lookup in Hin as [i Hi]. pose proof (lookup_lt_Some _ _ _ Hi).
    eapply wakes_when_due; [done|done|done|done|exact Hi|done|done| |reflexivity]. lia. }
  unfold max64 in Hmax. apply inev_next; [by apply progress|]. intros s' Hstep.
  destruct (step_effect N t start n s s' HN Hb Hsl Hstep) as [Hb' He].
  assert (Hi64 : i64 (ticks (tk s) - start) = ticks (tk s) - start) by (apply i64_small; lia).
  assert (Hnext : i64 (ticks (tk s) + 1) = ticks (tk s) + 1) by (apply i64_small; lia).
  destruct (queue_rotate_in _ _ Hin) as [Hin' Hlen'].
  assert (Hq' : (queue (tk s') = queue (tk s) ∨ queue (tk s') = rotate (queue (tk s))) → t ∈ queue (tk s') ∧ length (queue (tk s')) = length (queue (tk s)))
    by by intros [-> | ->].
  destruct He as [(Ebu & Hsl' & Hti & Hq) | (Ebu & Hti & [(Hne & Hsl' & Hq & Ht') | [(Hsl' & Hq & Ht' & Hrun) | [Hw Hge]]])].
  - rewrite Hnext in Hti. destruct Hq' as [Hin2 Hlen2]; [destruct Hq as [[? _] | (_ & ? & _)]; auto|].
    eapply (IH (m - 1)%nat); [nia|done|done|done|lia|unfold max64; rewrite Hlen2; lia|]. rewrite Hti, Ebu. nia.
  - destruct Hq' as [Hin2 Hlen2]; [auto|]. eapply (IH (m - 1)%nat); [nia|done|done|done|lia|unfold max64; rewrite Hlen2; lia|]. rewrite Hti. nia.
  - destruct Hq' as [Hin2 Hlen2]; [auto|]. eapply (IH (m - 1)%nat); [nia|done|done|done|lia|unfold max64; rewrite Hlen2; lia|]. rewrite Hti. nia.
  - lia.
Qed.

(** C35: every sleep ends, and not too early.  However a fair environment lets ticks,
    preemption and the steps of other threads follow each other, a thread that
    calls timer_sleep() for [n] ticks returns from it, at a time at least [n]
    ticks after it called, as long as the count of ticks does not overflow. *)
Theorem timer_sleep_ends (N : nat) (s s' : ts) (t n start : Z) :
  (0 < N)%nat → base s → s.(tk).(running) = t → s.(sleeping) !! t = None → 0 <= s.(tk).(ticks) →
  s.(tk).(ticks) + Z.max n 0 + 4 * Z.of_nat (length (queue s.(tk))) <= max64 →
  (∃ b k over, s.(budget) = S b ∧ (r ← timer_sleep n; finish;; mret r) s.(tk) = Ok ((start, over), k) ∧
     s' = mk_ts k (if (over : bool) then s.(sleeping) else <[t := (start, n)]> s.(sleeping)) b over) →
  start = s.(tk).(ticks) ∧ tstep N s s' ∧ inevitably N (woken t start n) s'.
Proof.
  intros HN Hb Hr Hsl H0 Hmax (b & k & over & Eb & E & ->). subst t. pose proof Hb as [Hs _ _].
  destruct (sleep_ok (tk s) n Hs) as (k' & E' & Hk & Htk & Hq). rewrite E in E'. injection E' as Hst Hov Hk'. subst start k'.
  split; [done|]. split; [by eapply t_sleep|]. assert (Hn : (i64 0 <? n) = (0 <? n)) by done. rewrite Hn in *.
  destruct (Z.ltb_spec 0 n) as [Hlt|Hge]; cbn [negb] in Hov; subst over.
  - destruct Hq as [Hq Htt].
    assert (Hin : running (tk s) ∈ queue (tk s)) by (unfold queue; apply elem_of_cons; by left).
    destruct (queue_rotate_in _ _ Hin) as [Hin' Hlen'].
    eapply (sleep_ends N _ _ _ HN H0); [split; cbn; auto|cbn; by rewrite lookup_insert_eq|cbn; by rewrite Hq|cbn; lia| |reflexivity].
    cbn [tk]. rewrite Hq, Hlen', Htk. lia.
  - apply inev_now. split; cbn; [done|lia].
Qed.

(** *** Calibration *)

Lemma shiftl1 l : Z.shiftl l 1 = l * 2.
Proof. by rewrite Z.shiftl_mul_pow2. Qed.

(** The first loop finds the highest power of two that is not too many. *)
Lemma calibrate_high_ok limit :
  1024 <= limit < 2147483648 →
  ∃ k, calibrate_high (λ l, limit <? l) = Ok (2 ^ k) ∧ 10 <= k <= 30 ∧ 2 ^ k <= limit < 2 ^ (k + 1).
Proof.
  intros Hl. unfold calibrate_high.
  destruct (loop_total (λ n l, ∃ k, l = 2 ^ k ∧ 10 <= k <= 30 ∧ 2 ^ k <= limit ∧ n = Z.to_nat (30 - k))
    (λ r, ∃ k, r = 2 ^ k ∧ 10 <= k <= 30 ∧ 2 ^ k <= limit < 2 ^ (k + 1)) (λ l,
    if limit <? u32 (Z.shiftl l 1) then Ok (inr l)
    else let l := u32 (Z.shiftl l 1) in ASSERT (negb (l =? 0));; Ok (inl l))) with (n := 20%nat) (fuel := 23%nat) (s := Z.shiftl 1 10)
    as (r & E & k & -> & Hk); [|exists 10; split; [reflexivity|]; change (2 ^ 10) with 1024; lia|lia|exists k; split; [exact E|done]].
  intros n l (k & -> & Hk & Hle & ->). rewrite shiftl1.
  assert (Hp : 2 ^ k * 2 = 2 ^ (k + 1)) by (rewrite Z.pow_add_r by lia; lia).
  assert (Hb : 0 < 2 ^ k <= 2 ^ 30) by (split; [lia|apply Z.pow_le_mono_r; lia]). rewrite u32_small by lia. rewrite Hp.
  destruct (Z.ltb_spec limit (2 ^ (k + 1))) as [Hlt|Hge].
  - eexists. split; [done|]. exists k. lia.
  - cbv zeta. rewrite ASSERT_true by (apply negb_true_iff, Z.eqb_neq; lia). eexists. split; [done|].
    assert (k + 1 <= 30). { destruct (decide (k = 30)) as [-> |]; [|lia]. change (2 ^ (30 + 1)) with 2147483648 in Hge. lia. }
    exists (Z.to_nat (30 - (k + 1))). split; [lia|]. exists (k + 1). lia.
Qed.

(** Timer_calibrate() overestimates.  For a machine that runs [limit] turns of
    the delay loop in a tick it returns the greatest power of two that is not
    greater, when the next nine bits of [limit] are zero; otherwise it sets every
    one of these bits from the first that fits on, since each is tried by
    itself: for a limit of 3/2 times a power of two or more, up to 1/3 too
    much. *)
Theorem timer_calibrate_overestimates limit :
  1024 <= limit < 2147483648 →
  ∃ k r, 10 <= k <= 30 ∧ 2 ^ k <= limit < 2 ^ (k + 1) ∧ timer_calibrate (λ l, limit <? l) = Ok r ∧
    ((limit < 2 ^ k + 2 ^ (k - 9) ∧ r = 2 ^ k) ∨
     ∃ j, 1 <= j <= 9 ∧ 2 ^ k + 2 ^ (k - j) <= limit ∧ limit < 2 ^ k + 2 ^ (k - j + 1) ∧
       r = 2 ^ k + 2 ^ (k - j + 1) - 2 ^ (k - 9)).
Proof.
  intros Hl. destruct (calibrate_high_ok limit Hl) as (k & Eh & Hk & Hlim). exists k. unfold timer_calibrate. rewrite Eh, bind_ret.
  rewrite !Z.shiftr_div_pow2 by lia.
  assert (Hd : ∀ i, 0 <= i <= 10 → 2 ^ k / 2 ^ i = 2 ^ (k - i)) by (intros i Hi; rewrite <- Z.pow_sub_r by lia; done).
  rewrite !Hd by lia.
  destruct (loop_total (λ n '(tb, l), (n <= 9)%nat ∧ tb = 2 ^ (k - 10 + Z.of_nat n) ∧
      ((limit < 2 ^ k + 2 ^ (k - 9 + Z.of_nat n) ∧ l = 2 ^ k) ∨
       ∃ j, 1 <= j <= 9 - Z.of_nat n ∧ 2 ^ k + 2 ^ (k - j) <= limit ∧ limit < 2 ^ k + 2 ^ (k - j + 1) ∧
         l = 2 ^ k + 2 ^ (k - j + 1) - 2 ^ (k - 9 + Z.of_nat n)))
    (λ r, (limit < 2 ^ k + 2 ^ (k - 9) ∧ r = 2 ^ k) ∨
     ∃ j, 1 <= j <= 9 ∧ 2 ^ k + 2 ^ (k - j) <= limit ∧ limit < 2 ^ k + 2 ^ (k - j + 1) ∧
       r = 2 ^ k + 2 ^ (k - j + 1) - 2 ^ (k - 9))
    (λ '(test_bit, l),
      if test_bit =? 2 ^ (k - 10) then Ok (inr l)
      else Ok (inl (Z.shiftr test_bit 1, if limit <? Z.lor (2 ^ k) test_bit then l else Z.lor l test_bit))))
    with (n := 9%nat) (fuel := 33%nat) (s := (2 ^ (k - 1), 2 ^ k)) as (r & E & HQ);
    [|split; [lia|]; split; [f_equal; lia|left; replace (k - 9 + Z.of_nat 9) with k by lia]; rewrite Z.pow_add_r in Hlim by lia; lia|lia|by exists r].
  intros n [tb l] (Hn & -> & Hinv). destruct n as [|n].
  { replace (k - 10 + Z.of_nat 0) with (k - 10) by lia. rewrite Z.eqb_refl. eexists. split; [done|].
    replace (k - 9 + Z.of_nat 0) with (k - 9) in Hinv by lia. replace (9 - Z.of_nat 0) with 9 in Hinv by lia. done. }
  rewrite (proj2 (Z.eqb_neq _ _)) by (intros H%Z.pow_inj_r; lia). rewrite Z.shiftr_div_pow2 by lia.
  set (e := k - 10 + Z.of_nat n) in *. assert (He : 0 <= e) by lia.
  replace (k - 10 + Z.of_nat (S n)) with (e + 1) by lia. replace (k - 9 + Z.of_nat (S n)) with (e + 2) in Hinv by lia.
  assert (Hlor : ∀ a, Z.lor (a * 2 ^ (e + 2)) (2 ^ (e + 1)) = a * 2 ^ (e + 2) + 2 ^ (e + 1)).
  { intros a. apply lor_high; [lia|]. split; [lia|apply Z.pow_lt_mono_r; lia]. }
  assert (Hpow : ∀ i, e + 2 <= i → 2 ^ i = 2 ^ (i - (e + 2)) * 2 ^ (e + 2)) by (intros i Hi; rewrite <- Z.pow_add_r by lia; f_equal; lia).
  assert (Hlk : Z.lor (2 ^ k) (2 ^ (e + 1)) = 2 ^ k + 2 ^ (e + 1)) by (rewrite (Hpow k) by lia; apply Hlor).
  assert (H2 : 2 ^ (e + 2) = 2 * 2 ^ (e + 1)) by (replace (e + 2) with (Z.succ (e + 1)) by lia; rewrite Z.pow_succ_r; lia).
  eexists. split; [reflexivity|]. exists n. split; [lia|]. split; [lia|].
  split; [rewrite <- Z.pow_sub_r by lia; f_equal; lia|]. rewrite Hlk. replace (k - 9 + Z.of_nat n) with (e + 1) by lia.
  destruct (Z.ltb_spec limit (2 ^ k + 2 ^ (e + 1))) as [Htoo|Hfit], Hinv as [[Hc ->] | (j & Hj & Hj1 & Hj2 & ->)].
  - left. done.
  - exfalso. assert (2 ^ (e + 1) <= 2 ^ (k - j)) by (apply Z.pow_le_mono_r; lia). lia.
  - right. exists (k - (e + 1)). replace (k - (k - (e + 1))) with (e + 1) by lia. replace (e + 1 + 1) with (e + 2) by lia. rewrite Hlk. lia.
  - right. exists j. split; [lia|]. split; [done|]. split; [done|].
    rewrite (Hpow k), (Hpow (k - j + 1)) by lia.
    replace (2 ^ (k - (e + 2)) * 2 ^ (e + 2) + 2 ^ (k - j + 1 - (e + 2)) * 2 ^ (e + 2) - 2 ^ (e + 2))
      with ((2 ^ (k - (e + 2)) + 2 ^ (k - j + 1 - (e + 2)) - 1) * 2 ^ (e + 2)) by ring.
    rewrite Hlor, H2. ring.
Qed.

Lemma timer_calibrate_overestimates_witness :
  ∃ r, timer_calibrate (λ l, 1536 <? l) = Ok r ∧ r = 2046.
Proof.
  destruct (timer_calibrate_overestimates 1536) as (k & r & Hk & Hl & E & _); [lia|]. exists r. split; [exact E|].
  vm_compute in E. by injection E as <-.
Defined.

(** Thread 1 of the demonstration sleeps for two ticks. *)
Definition demo_ts : ts := mk_ts demo_kst ∅ 1 false.

Lemma demo_base : base demo_ts.
Proof.
  split; [|cbn; by intros [? ?]|done].
  split; try done.
  - change (NoDup [1; 2]). repeat constructor; set_solver.
  - change (3 ∉ [1; 2]). set_solver.
  - by eexists.
  - intros t Ht. change (t ∈ [2]) in Ht. apply list_elem_of_singleton in Ht as ->. eexists. split; [reflexivity|]. by left.
  - intros t Ht. change (t ∈ [1; 2]) in Ht. rewrite !elem_of_cons in Ht.
    destruct Ht as [-> | [-> | Ht]]; [split; [lia|by eexists]..|by apply not_elem_of_nil in Ht].
Qed.

Lemma timer_sleep_ends_witness :
  ∃ s', tstep 1 demo_ts s' ∧ s'.(sleeping) !! 1 = Some (0, 2) ∧ inevitably 1 (woken 1 0 2) s'.
Proof.
  destruct (sleep_ok demo_kst 2 (b_sched _ demo_base)) as (k & E & _).
  destruct (timer_sleep_ends 1 demo_ts (mk_ts k (<[1 := (0, 2)]> ∅) 0 false) 1 2 0) as (_ & H1 & H2);
    [lia|exact demo_base|reflexivity|reflexivity|cbn; lia|vm_compute; congruence|by exists 0%nat, k, false|].
  eexists. split; [exact H1|]. split; [reflexivity|exact H2].
Defined.
