(* ===== verification/Intq.v ===== *)
(** * Interrupt queues: devices/intq.c

    The circular buffers between interrupt handlers and threads, over the
    scheduler of Thread.v and the locks of Synch.v.  The state [dst] also holds
    what the clients of the queues keep: the serial port (Serial.v) and the
    keyboard (Kbd.v).

    A call that finds its queue empty or full sleeps in the middle of the
    function; what is left of it is a [cont] of its thread, which runs when the
    thread has finished the kernel functions it is in. *)

From S2P Require Import Prelude Vaddr Thread Synch.

Open Scope Z_scope.

(** ** Data *)

Definition INTQ_BUFSIZE : Z := 64.

Record intq := mk_intq {
  q_lock : Z;
  not_full : Z;
  not_empty : Z;
  buf : list Z;
  head : Z;
  tail : Z }.

(** The input buffer of devices/input.c and the txq of devices/serial.c. *)
Inductive qid := QIn | QTx.

#[export] Instance qid_eq_dec : EqDecision qid.
Proof. solve_decision. Defined.

(** Where a call of intq_getc() or intq_putc() is in its loop. *)
Inductive stage :=
| AtLoop                      (* at the condition of the loop *)
| Locked                      (* after lock_acquire(), before wait() *)
| Woken.                      (* after wait(), before lock_release() *)

(** The rest of input_getc(), and of serial_putc(). *)
Inductive cont :=
| CGetc (st : stage) (old_level : bool)
| CPutc (st : stage) (byte : Z) (old_level : bool).

(** A 16550A: the registers that the code writes, the bytes transmitted and the
    bytes received but not read, the number of reads of the line status. *)
Record uart := mk_uart {
  lcr : Z; divisor_ls : Z; divisor_ms : Z; ier : Z; fcr : Z; mcr : Z;
  sent : list Z; received : list Z; polls : nat }.

Inductive serial_mode := UNINIT | POLL | QUEUE.

#[export] Instance serial_mode_eq_dec : EqDecision serial_mode.
Proof. solve_decision. Defined.

(** The keyboard: the shift keys that are down, caps lock, the keys counted and
    the scancodes to be read from the data register. *)
Record kbd := mk_kbd {
  left_shift : bool; right_shift : bool; left_alt : bool; right_alt : bool;
  left_ctrl : bool; right_ctrl : bool; caps_lock : bool; key_cnt : Z; scancodes : list Z }.

Record dst := mk_dst {
  dk : kst;
  qin : intq;
  qtx : intq;
  mode : serial_mode;
  port : uart;
  keyboard : kbd;
  conts : gmap Z cont }.

Definition with_k (k : kst) (s : dst) : dst :=
  mk_dst k s.(qin) s.(qtx) s.(mode) s.(port) s.(keyboard) s.(conts).
Definition with_q (q : qid) (x : intq) (s : dst) : dst :=
  match q with
  | QIn => mk_dst s.(dk) x s.(qtx) s.(mode) s.(port) s.(keyboard) s.(conts)
  | QTx => mk_dst s.(dk) s.(qin) x s.(mode) s.(port) s.(keyboard) s.(conts)
  end.
Definition with_mode (m : serial_mode) (s : dst) : dst :=
  mk_dst s.(dk) s.(qin) s.(qtx) m s.(port) s.(keyboard) s.(conts).
Definition with_port (u : uart) (s : dst) : dst :=
  mk_dst s.(dk) s.(qin) s.(qtx) s.(mode) u s.(keyboard) s.(conts).
Definition with_kbd (k : kbd) (s : dst) : dst :=
  mk_dst s.(dk) s.(qin) s.(qtx) s.(mode) s.(port) k s.(conts).
Definition with_conts (c : gmap Z cont) (s : dst) : dst :=
  mk_dst s.(dk) s.(qin) s.(qtx) s.(mode) s.(port) s.(keyboard) c.

Definition queue (q : qid) (s : dst) : intq := match q with QIn => s.(qin) | QTx => s.(qtx) end.

Abbreviation Q := (st dst).

(** Code of the scheduler, and of locks, run on its part of the state. *)
Definition onk {A} (m : K A) : Q A := λ s,
  '(a, k) ← m s.(dk); Ok (a, with_k k s).

Definition qASSERT (c : bool) : Q unit := lift (ASSERT c).

(** ** intq.c *)

Definition next (pos : Z) : Z := Z.rem (pos + 1) INTQ_BUFSIZE.

Definition set_head (h : Z) (x : intq) : intq :=
  mk_intq x.(q_lock) x.(not_full) x.(not_empty) x.(buf) h x.(tail).
Definition set_tail (t : Z) (x : intq) : intq :=
  mk_intq x.(q_lock) x.(not_full) x.(not_empty) x.(buf) x.(head) t.
Definition set_buf (b : list Z) (x : intq) : intq :=
  mk_intq x.(q_lock) x.(not_full) x.(not_empty) b x.(head) x.(tail).

Definition intq_init (q : qid) : Q unit :=
  x ← gets (queue q);
  onk (lock_init x.(q_lock));;
  modify (with_q q (mk_intq x.(q_lock) NULL NULL x.(buf) 0 0)).

Definition intq_empty (q : qid) : Q bool :=
  level ← onk intr_get_level;
  qASSERT (negb level);;
  gets (λ s, (queue q s).(head) =? (queue q s).(tail)).

Definition intq_full (q : qid) : Q bool :=
  level ← onk intr_get_level;
  qASSERT (negb level);;
  gets (λ s, next (queue q s).(head) =? (queue q s).(tail)).

(** The two members a waiter can be. *)
Inductive waiter := WEmpty | WFull.

Definition get_waiter (w : waiter) (x : intq) : Z := match w with WEmpty => x.(not_empty) | WFull => x.(not_full) end.
Definition set_waiter (w : waiter) (t : Z) (x : intq) : intq :=
  match w with
  | WEmpty => mk_intq x.(q_lock) x.(not_full) t x.(buf) x.(head) x.(tail)
  | WFull => mk_intq x.(q_lock) t x.(not_empty) x.(buf) x.(head) x.(tail)
  end.

(** wait(); what follows thread_block() runs when the thread is woken. *)
Definition wait (q : qid) (w : waiter) : Q unit :=
  ctx ← onk intr_context;
  qASSERT (negb ctx);;
  level ← onk intr_get_level;
  qASSERT (negb level);;
  e ← intq_empty q;
  f ← intq_full q;
  qASSERT (match w with WEmpty => e | WFull => f end);;
  t ← onk thread_current;
  modify (λ s, with_q q (set_waiter w t (queue q s)) s);;
  onk thread_block.

Definition signal (q : qid) (w : waiter) : Q unit :=
  level ← onk intr_get_level;
  qASSERT (negb level);;
  e ← intq_empty q;
  f ← intq_full q;
  qASSERT (match w with WEmpty => negb e | WFull => negb f end);;
  t ← gets (λ s, get_waiter w (queue q s));
  when (negb (t =? NULL))
    (onk (thread_unblock t);;
     modify (λ s, with_q q (set_waiter w NULL (queue q s)) s)).

(** intq_getc() from the condition of its loop: [None] when the queue is empty, so
    that the thread has to wait. *)
Definition intq_getc (q : qid) : Q (option Z) :=
  level ← onk intr_get_level;
  qASSERT (negb level);;
  e ← intq_empty q;
  if (e : bool) then
    ctx ← onk intr_context;
    qASSERT (negb ctx);;
    mret None
  else
    x ← gets (queue q);
    byte ← lift (deref (x.(buf) !! Z.to_nat x.(tail)));
    modify (with_q q (set_tail (next x.(tail)) x));;
    signal q WFull;;
    mret (Some byte).

(** intq_putc(), likewise: [false] when the queue is full. *)
Definition intq_putc (q : qid) (byte : Z) : Q bool :=
  level ← onk intr_get_level;
  qASSERT (negb level);;
  f ← intq_full q;
  if (f : bool) then
    ctx ← onk intr_context;
    qASSERT (negb ctx);;
    mret false
  else
    x ← gets (queue q);
    lift (deref (x.(buf) !! Z.to_nat x.(head)));;
    modify (with_q q (set_head (next x.(head)) (set_buf (<[Z.to_nat x.(head) := byte]> x.(buf)) x)));;
    signal q WEmpty;;
    mret true.

(** A call that its caller has made sure does not have to wait. *)
Definition now {A} (o : option A) : Q A := lift (match o with Some a => Ok a | None => NoFuel end).

(** ** The queue as a bounded sequence *)

Record intq_ok (x : intq) : Prop := {
  io_buf : length x.(buf) = 64%nat;
  io_head : 0 <= x.(head) < 64;
  io_tail : 0 <= x.(tail) < 64 }.

Definition count (x : intq) : nat := Z.to_nat ((x.(head) - x.(tail)) mod 64).

(** The bytes in the queue, oldest first. *)
Definition contents (x : intq) : list Z :=
  map (λ i, x.(buf) !!! Z.to_nat ((x.(tail) + Z.of_nat i) mod 64)) (seq 0 (count x)).

Lemma next_mod pos : 0 <= pos → next pos = (pos + 1) mod 64.
Proof. intros H. unfold next, INTQ_BUFSIZE. apply Z.rem_mod_nonneg; lia. Qed.

Lemma contents_length x : length (contents x) = count x.
Proof. unfold contents. by rewrite length_map, length_seq. Qed.

Lemma contents_bound x : intq_ok x → (length (contents x) <= 63)%nat.
Proof. intros _. rewrite contents_length. unfold count. zdm. Qed.

Lemma empty_spec x : intq_ok x → (x.(head) =? x.(tail)) = true ↔ contents x = [].
Proof.
  intros [_ Hh Ht]. rewrite <- length_zero_iff_nil, contents_length, Z.eqb_eq. unfold count. split; intros H; zdm.
Qed.

Lemma full_spec x : intq_ok x → (next x.(head) =? x.(tail)) = true ↔ length (contents x) = 63%nat.
Proof.
  intros [_ Hh Ht]. rewrite contents_length, Z.eqb_eq, next_mod by lia. unfold count. split; intros H; zdm.
Qed.

Lemma put_contents x b :
  intq_ok x → (next x.(head) =? x.(tail)) = false →
  let x' := set_head (next x.(head)) (set_buf (<[Z.to_nat x.(head) := b]> x.(buf)) x) in
  intq_ok x' ∧ contents x' = contents x ++ [b].
Proof.
  intros Hok Hf x'. pose proof (contents_bound x Hok) as Hb. destruct Hok as [Hl Hh Ht].
  apply Z.eqb_neq in Hf. rewrite next_mod in Hf by lia. rewrite contents_length in Hb.
  assert (Hc : count x' = S (count x)).
  { unfold count, x', set_head, set_buf in *; cbn [head tail] in *. rewrite next_mod by lia. zdm. }
  split.
  - split; unfold x', set_head, set_buf; cbn [buf head tail]; [by rewrite length_insert| |done]. rewrite next_mod by lia. zdm.
  - unfold contents at 1. rewrite Hc, seq_S, map_app. cbn [map Nat.add]. f_equal.
    + unfold contents. apply map_ext_in. intros i Hi%in_seq. unfold x', set_head, set_buf; cbn [buf tail].
      rewrite list_lookup_total_insert_ne; [done|]. unfold count in Hi. zdm.
    + f_equal. unfold x', set_head, set_buf; cbn [buf tail].
      replace (Z.to_nat ((tail x + Z.of_nat (count x)) mod 64)) with (Z.to_nat (head x)) by (unfold count; zdm).
      apply list_lookup_total_insert_eq. lia.
Qed.

Lemma get_contents x b :
  intq_ok x → (x.(head) =? x.(tail)) = false → x.(buf) !! Z.to_nat x.(tail) = Some b →
  let x' := set_tail (next x.(tail)) x in
  intq_ok x' ∧ contents x = b :: contents x'.
Proof.
  intros [Hl Hh Ht] He Hb x'. apply Z.eqb_neq in He.
  assert (Hn : tail x' = (tail x + 1) mod 64) by (unfold x', set_tail; cbn [tail]; apply next_mod; lia).
  assert (Hc : count x = S (count x')) by (unfold count; rewrite Hn; unfold x', set_tail; cbn [head]; zdm).
  split.
  - split; [done|done|]. rewrite Hn. zdm.
  - unfold contents at 1. rewrite Hc. cbn [seq map]. f_equal.
    + rewrite Z.add_0_r, Z.mod_small by lia. by apply list_lookup_total_correct.
    + rewrite <- seq_shift, map_map. unfold contents. rewrite Hn. apply map_ext. intros i.
      unfold x', set_tail; cbn [buf]. do 2 f_equal. zdm.
Qed.

(** ** What the operations do to the queues *)

(** Nothing but the scheduler and the waiters of the queues changed. *)
Definition q_same (x y : intq) : Prop := y.(buf) = x.(buf) ∧ y.(head) = x.(head) ∧ y.(tail) = x.(tail).

Definition same_io (s s' : dst) : Prop :=
  q_same s.(qin) s'.(qin) ∧ q_same s.(qtx) s'.(qtx) ∧ s'.(mode) = s.(mode) ∧ s'.(port) = s.(port) ∧
  s'.(keyboard) = s.(keyboard) ∧ s'.(conts) = s.(conts).

#[export] Instance same_io_preorder : PreOrder same_io.
Proof.
  split; [by intros s|]. unfold same_io, q_same. intros s1 s2 s3 H1 H2. destruct_and!. repeat split; congruence.
Qed.

Lemma q_same_ok x y : q_same x y → intq_ok x → intq_ok y.
Proof. intros (Hb & Hh & Ht) [H1 H2 H3]. split; congruence. Qed.

Lemma q_same_contents x y : q_same x y → contents y = contents x.
Proof. intros (Hb & Hh & Ht). unfold contents, count. by rewrite Hb, Hh, Ht. Qed.

Lemma onk_inv {A} (m : K A) s a s' : onk m s = Ok (a, s') → ∃ k, m s.(dk) = Ok (a, k) ∧ s' = with_k k s.
Proof. unfold onk. destruct (m (dk s)) as [[b k]| | |]; cbn; try done. intros [= -> <-]. eauto. Qed.

Lemma onk_same {A} (m : K A) s a s' : onk m s = Ok (a, s') → same_io s s'.
Proof. intros H. apply onk_inv in H as (k & _ & ->). done. Qed.

Lemma qASSERT_inv c s u s' : qASSERT c s = Ok (u, s') → s' = s ∧ c = true.
Proof. unfold qASSERT, lift, ASSERT. destruct c; cbn; try done. by intros [= <- <-]. Qed.

Lemma gets_inv {S A} (g : S → A) s a s' : gets g s = Ok (a, s') → s' = s ∧ a = g s.
Proof. by intros [= <- <-]. Qed.

Lemma level_inv s b s' : onk intr_get_level s = Ok (b, s') → s' = s ∧ b = s.(dk).(intr_on).
Proof. intros H. apply onk_inv in H as (k & [= <- <-] & ->). by destruct s. Qed.

Lemma context_inv s b s' : onk intr_context s = Ok (b, s') → s' = s ∧ b = s.(dk).(in_external_intr).
Proof. intros H. apply onk_inv in H as (k & [= <- <-] & ->). by destruct s. Qed.

(** Takes one call of a run apart, with the lemma for that call. *)
Ltac q_inv H :=
  let a := fresh "a" in let s := fresh "s" in let R := fresh "R" in let E := fresh "E" in
  apply run_bind_inv in H as (a & s & R & H);
  first
    [ apply qASSERT_inv in R as [-> E]; clear a
    | apply gets_inv in R as [-> ->]
    | apply level_inv in R as [-> ->]
    | apply context_inv in R as [-> ->]
    | idtac ].

Lemma intq_empty_inv q s b s' :
  intq_empty q s = Ok (b, s') → s' = s ∧ b = ((queue q s).(head) =? (queue q s).(tail)) ∧ s.(dk).(intr_on) = false.
Proof.
  unfold intq_empty. intros H. do 2 q_inv H. apply gets_inv in H as [-> ->]. split; [done|]. split; [done|].
  by destruct (intr_on (dk s)).
Qed.

Lemma intq_full_inv q s b s' :
  intq_full q s = Ok (b, s') → s' = s ∧ b = (next (queue q s).(head) =? (queue q s).(tail)) ∧ s.(dk).(intr_on) = false.
Proof.
  unfold intq_full. intros H. do 2 q_inv H. apply gets_inv in H as [-> ->]. split; [done|]. split; [done|].
  by destruct (intr_on (dk s)).
Qed.

Lemma set_waiter_same q w t s : same_io s (with_q q (set_waiter w t (queue q s)) s).
Proof. destruct q, w; by repeat split. Qed.

Lemma signal_inv q w s u s' : signal q w s = Ok (u, s') → same_io s s'.
Proof.
  unfold signal. intros H. do 2 q_inv H.
  q_inv H. apply intq_empty_inv in R as (-> & -> & _). q_inv H. apply intq_full_inv in R as (-> & -> & _).
  do 2 q_inv H. unfold when in H. case_match; [|by injection H as _ <-].
  q_inv H. apply onk_same in R. etrans; [exact R|]. injection H as _ <-. apply set_waiter_same.
Qed.

Lemma wait_inv q w s u s' : wait q w s = Ok (u, s') → same_io s s'.
Proof.
  unfold wait. intros H. do 4 q_inv H. q_inv H. apply intq_empty_inv in R as (-> & -> & _).
  q_inv H. apply intq_full_inv in R as (-> & -> & _). q_inv H. q_inv H. apply onk_same in R.
  rewrite run_modify in H. apply onk_same in H. etrans; [exact R|]. etrans; [apply set_waiter_same|exact H].
Qed.

(** The queue that is not used, and the devices. *)
Definition other (q : qid) : qid := match q with QIn => QTx | QTx => QIn end.

Record only_queue (q : qid) (s s' : dst) : Prop := {
  oq_other : q_same (queue (other q) s) (queue (other q) s');
  oq_mode : s'.(mode) = s.(mode);
  oq_port : s'.(port) = s.(port);
  oq_kbd : s'.(keyboard) = s.(keyboard);
  oq_conts : s'.(conts) = s.(conts) }.

Lemma same_queue q s s' : same_io s s' → q_same (queue q s) (queue q s').
Proof. by destruct q; intros (? & ? & _). Qed.

Lemma with_q_only q x s s' : same_io (with_q q x s) s' → only_queue q s s'.
Proof. intros (H1 & H2 & H3 & H4 & H5 & H6). destruct q; by split. Qed.

Lemma queue_with_q q x s : queue q (with_q q x s) = x.
Proof. by destruct q. Qed.

Lemma intq_getc_inv q s o s' :
  intq_ok (queue q s) → intq_getc q s = Ok (o, s') →
  s.(dk).(intr_on) = false ∧
  match o with
  | None => s' = s ∧ contents (queue q s) = [] ∧ s.(dk).(in_external_intr) = false
  | Some b => contents (queue q s) = b :: contents (queue q s') ∧ intq_ok (queue q s') ∧ only_queue q s s'
  end.
Proof.
  intros Hok. unfold intq_getc. intros H. do 2 q_inv H. q_inv H. apply intq_empty_inv in R as (-> & -> & Hi).
  split; [done|]. case_match.
  - do 2 q_inv H. injection H as <- <-. split; [done|]. split; [by apply empty_spec|]. by destruct (in_external_intr (dk s)).
  - q_inv H. q_inv H. apply run_bind_inv in H as ([] & s1 & [= <-] & H).
    unfold lift, deref in R. destruct (buf _ !! _) as [b|] eqn:Hb; cbn in R; [|done]. injection R as <- <-.
    q_inv H. apply signal_inv in R. injection H as <- <-. destruct (get_contents _ b Hok H0 Hb) as [Hok' Hc].
    pose proof (same_queue q _ _ R) as Hq. rewrite queue_with_q in Hq.
    rewrite (q_same_contents _ _ Hq). split; [done|]. split; [by eapply q_same_ok|by eapply with_q_only].
Qed.

Lemma intq_putc_inv q b s (r : bool) s' :
  intq_ok (queue q s) → intq_putc q b s = Ok (r, s') →
  s.(dk).(intr_on) = false ∧
  if r then contents (queue q s') = contents (queue q s) ++ [b] ∧ intq_ok (queue q s') ∧ only_queue q s s'
  else s' = s ∧ length (contents (queue q s)) = 63%nat ∧ s.(dk).(in_external_intr) = false.
Proof.
  intros Hok. unfold intq_putc. intros H. do 2 q_inv H. q_inv H. apply intq_full_inv in R as (-> & -> & Hi).
  split; [done|]. case_match.
  - do 2 q_inv H. injection H as <- <-. split; [done|]. split; [by apply full_spec|]. by destruct (in_external_intr (dk s)).
  - q_inv H. q_inv H. apply run_bind_inv in H as ([] & s1 & [= <-] & H).
    unfold lift, deref in R. destruct (buf _ !! _) as [x|]; cbn in R; [|done]. injection R as <- <-.
    q_inv H. apply signal_inv in R. injection H as <- <-. destruct (put_contents _ b Hok H0) as [Hok' Hc].
    pose proof (same_queue q _ _ R) as Hq. rewrite queue_with_q in Hq.
    rewrite (q_same_contents _ _ Hq). split; [done|]. split; [by eapply q_same_ok|by eapply with_q_only].
Qed.
