(* ===== verification/Serial.v ===== *)
(** * The serial port, the input buffer and the keyboard: devices/serial.c,
      devices/input.c, devices/kbd.c

    Clients of the interrupt queues.  The hardware is a 16550A whose registers
    change as its data sheet says: [uart_out] and [uart_in]; when it is ready to
    transmit is a parameter, [thre], of the number of times its status has been
    read.  A step of the machine is one of: the running thread continues a
    function, calls one of these devices or of the kernel, or an interrupt
    arrives. *)

From stdpp Require Import strings.
From S2P Require Import Prelude Vaddr Thread Synch Intq.

Open Scope Z_scope.

(** ** The hardware *)

Definition IO_BASE : Z := 1016.
Definition RBR_REG : Z := IO_BASE + 0.
Definition THR_REG : Z := IO_BASE + 0.
Definition IER_REG : Z := IO_BASE + 1.
Definition LS_REG : Z := IO_BASE + 0.
Definition MS_REG : Z := IO_BASE + 1.
Definition IIR_REG : Z := IO_BASE + 2.
Definition FCR_REG : Z := IO_BASE + 2.
Definition LCR_REG : Z := IO_BASE + 3.
Definition MCR_REG : Z := IO_BASE + 4.
Definition LSR_REG : Z := IO_BASE + 5.
Definition IER_RECV : Z := 1.
Definition IER_XMIT : Z := 2.
Definition LCR_N81 : Z := 3.
Definition LCR_DLAB : Z := 128.
Definition MCR_OUT2 : Z := 8.
Definition LSR_DR : Z := 1.
Definition LSR_THRE : Z := 32.

(** A write to a register of the port; the first two are the divisor while the
    divisor latch bit is set. *)
Definition uart_out (reg v : Z) (u : uart) : uart :=
  let dlab := Z.testbit u.(lcr) 7 in
  if reg =? 1016 then
    if dlab then mk_uart u.(lcr) v u.(divisor_ms) u.(ier) u.(fcr) u.(mcr) u.(sent) u.(received) u.(polls)
    else mk_uart u.(lcr) u.(divisor_ls) u.(divisor_ms) u.(ier) u.(fcr) u.(mcr) (u.(sent) ++ [v]) u.(received) u.(polls)
  else if reg =? 1017 then
    if dlab then mk_uart u.(lcr) u.(divisor_ls) v u.(ier) u.(fcr) u.(mcr) u.(sent) u.(received) u.(polls)
    else mk_uart u.(lcr) u.(divisor_ls) u.(divisor_ms) v u.(fcr) u.(mcr) u.(sent) u.(received) u.(polls)
  else if reg =? 1018 then
    mk_uart u.(lcr) u.(divisor_ls) u.(divisor_ms) u.(ier) v u.(mcr) u.(sent) u.(received) u.(polls)
  else if reg =? 1019 then
    mk_uart v u.(divisor_ls) u.(divisor_ms) u.(ier) u.(fcr) u.(mcr) u.(sent) u.(received) u.(polls)
  else if reg =? 1020 then
    mk_uart u.(lcr) u.(divisor_ls) u.(divisor_ms) u.(ier) u.(fcr) v u.(sent) u.(received) u.(polls)
  else u.

Section hardware.
Context (thre : nat → bool) (poll_fuel : nat).

(** A read of a register: the receiver buffer gives up its oldest byte, the line
    status tells whether there is one and whether the port can transmit. *)
Definition uart_in (reg : Z) (u : uart) : Z * uart :=
  if reg =? 1016 then
    match u.(received) with
    | [] => (0, u)
    | b :: l => (b, mk_uart u.(lcr) u.(divisor_ls) u.(divisor_ms) u.(ier) u.(fcr) u.(mcr) u.(sent) l u.(polls))
    end
  else if reg =? 1021 then
    (Z.lor (if bool_decide (u.(received) = []) then 0 else LSR_DR) (if thre u.(polls) then LSR_THRE else 0),
     mk_uart u.(lcr) u.(divisor_ls) u.(divisor_ms) u.(ier) u.(fcr) u.(mcr) u.(sent) u.(received) (S u.(polls)))
  else (0, u).

Definition outb (reg v : Z) : Q unit := modify (λ s, with_port (uart_out reg v s.(port)) s).
Definition inb (reg : Z) : Q Z :=
  v ← gets (λ s, (uart_in reg s.(port)).1);
  modify (λ s, with_port (uart_in reg s.(port)).2 s);;
  mret v.

(** ** serial.c and input.c *)

Definition input_full : Q bool :=
  level ← onk intr_get_level;
  qASSERT (negb level);;
  intq_full QIn.

Definition input_init : Q unit := intq_init QIn.

Definition write_ier : Q unit :=
  level ← onk intr_get_level;
  qASSERT (negb level);;
  e ← intq_empty QTx;
  f ← input_full;
  outb IER_REG (Z.lor (if (e : bool) then 0 else IER_XMIT) (if (f : bool) then 0 else IER_RECV)).

Definition serial_notify : Q unit :=
  level ← onk intr_get_level;
  qASSERT (negb level);;
  m ← gets mode;
  when (bool_decide (m = QUEUE)) write_ier.

(** input_putc(), of a buffer that is not full. *)
Definition input_putc (key : Z) : Q unit :=
  level ← onk intr_get_level;
  qASSERT (negb level);;
  f ← intq_full QIn;
  qASSERT (negb f);;
  ok ← intq_putc QIn key;
  now (if (ok : bool) then Some tt else None);;
  serial_notify.

Definition set_serial (bps : Z) : Q unit :=
  let divisor := u16 ((1843200 ÷ 16) ÷ bps) in
  qASSERT ((300 <=? bps) && (bps <=? 115200));;
  outb LCR_REG (Z.lor LCR_N81 LCR_DLAB);;
  outb LS_REG (Z.land divisor 255);;
  outb MS_REG (Z.shiftr divisor 8);;
  outb LCR_REG LCR_N81.

Definition init_poll : Q unit :=
  m ← gets mode;
  qASSERT (bool_decide (m = UNINIT));;
  outb IER_REG 0;;
  outb FCR_REG 0;;
  set_serial 9600;;
  outb MCR_REG MCR_OUT2;;
  intq_init QTx;;
  modify (with_mode POLL).

(** serial_init_queue(); the registration of the handler is in Descriptors.v. *)
Definition serial_init_queue : Q unit :=
  m ← gets mode;
  when (bool_decide (m = UNINIT)) init_poll;;
  m ← gets mode;
  qASSERT (bool_decide (m = POLL));;
  modify (with_mode QUEUE);;
  old_level ← onk intr_disable;
  write_ier;;
  onk (intr_set_level old_level);;
  mret tt.

Definition putc_poll (byte : Z) : Q unit :=
  level ← onk intr_get_level;
  qASSERT (negb level);;
  loop_st poll_fuel (λ _ : unit,
    v ← inb LSR_REG;
    mret (if Z.land v LSR_THRE =? 0 then inl tt else inr tt)) tt;;
  outb THR_REG byte.

Definition set_cont (c : cont) : Q unit :=
  t ← onk running_thread;
  modify (λ s, with_conts (<[t := c]> s.(conts)) s).
Definition end_cont : Q unit :=
  t ← onk running_thread;
  modify (λ s, with_conts (delete t s.(conts)) s).

Definition lock_of (q : qid) : Q Z := gets (λ s, (queue q s).(q_lock)).

(** serial_putc() from the call of intq_putc() on: [true] when the byte is in the
    queue. *)
Definition serial_putc_loop (byte : Z) (old_level : bool) : Q bool :=
  ok ← intq_putc QTx byte;
  if (ok : bool) then
    end_cont;;
    write_ier;;
    onk (intr_set_level old_level);;
    mret true
  else
    set_cont (CPutc Locked byte old_level);;
    l ← lock_of QTx;
    onk (lock_acquire l);;
    mret false.

Definition serial_putc (byte : Z) : Q bool :=
  old_level ← onk intr_disable;
  m ← gets mode;
  if negb (bool_decide (m = QUEUE)) then
    when (bool_decide (m = UNINIT)) init_poll;;
    putc_poll byte;;
    onk (intr_set_level old_level);;
    mret true
  else
    f ← intq_full QTx;
    when (negb old_level && f) (o ← intq_getc QTx; b ← now o; putc_poll b);;
    serial_putc_loop byte old_level.

Definition serial_flush : Q unit :=
  old_level ← onk intr_disable;
  loop_st 65 (λ _ : unit,
    e ← intq_empty QTx;
    if (e : bool) then mret (inr tt)
    else o ← intq_getc QTx; b ← now o; putc_poll b;; mret (inl tt)) tt;;
  onk (intr_set_level old_level);;
  mret tt.

(** input_getc() from the call of intq_getc() on: the key, once there is one. *)
Definition input_getc_loop (old_level : bool) : Q (option Z) :=
  o ← intq_getc QIn;
  match o with
  | Some key =>
      end_cont;;
      serial_notify;;
      onk (intr_set_level old_level);;
      mret (Some key)
  | None =>
      set_cont (CGetc Locked old_level);;
      l ← lock_of QIn;
      onk (lock_acquire l);;
      mret None
  end.

Definition input_getc : Q (option Z) :=
  old_level ← onk intr_disable;
  input_getc_loop old_level.

(** serial_interrupt(): the bytes it put into the input buffer. *)
Definition receive_loop (fuel : nat) : Q (list Z) :=
  loop_st fuel (λ got : list Z,
    f ← input_full;
    if (f : bool) then mret (inr got)
    else
      v ← inb LSR_REG;
      if Z.land v LSR_DR =? 0 then mret (inr got)
      else b ← inb RBR_REG; input_putc b;; mret (inl (got ++ [b]))) [].

Definition transmit_loop (fuel : nat) : Q unit :=
  loop_st fuel (λ _ : unit,
    e ← intq_empty QTx;
    if (e : bool) then mret (inr tt)
    else
      v ← inb LSR_REG;
      if Z.land v LSR_THRE =? 0 then mret (inr tt)
      else o ← intq_getc QTx; b ← now o; outb THR_REG b;; mret (inl tt)) tt.

Definition serial_interrupt : Q (list Z) :=
  inb IIR_REG;;
  got ← receive_loop 65;
  transmit_loop 65;;
  write_ier;;
  mret got.

(** ** kbd.c *)

Fixpoint codes (s : string) : list Z :=
  match s with
  | EmptyString => []
  | String a s => Z.of_N (Ascii.N_of_ascii a) :: codes s
  end.

Abbreviation keymap := (list (Z * list Z)).

Definition invariant_keymap : keymap :=
  [(1, [27]); (14, [8]); (15, 9 :: codes "QWERTYUIOP"); (28, [13]); (30, codes "ASDFGHJKL");
   (44, codes "ZXCVBNM"); (55, codes "*"); (57, codes " "); (83, [127])].
Definition unshifted_keymap : keymap :=
  [(2, codes "1234567890-="); (26, codes "[]"); (39, codes ";'`"); (43, codes "\"); (51, codes ",./")].
Definition shifted_keymap : keymap :=
  [(2, codes "!@#$%^&*()_+"); (26, codes "{}"); (39, [58; 34; 126]); (43, codes "|"); (51, codes "<>?")].

Fixpoint map_key (k : keymap) (scancode : Z) : option Z :=
  match k with
  | [] => None
  | (first, chars) :: k =>
      if (first <=? scancode) && (scancode <? first + Z.of_nat (length chars))
      then chars !! Z.to_nat (scancode - first)
      else map_key k scancode
  end.

(** The three alternatives of keyboard_interrupt(), in order. *)
Definition map_any (shift : bool) (code : Z) : option Z :=
  match map_key invariant_keymap code with
  | Some c => Some c
  | None => if shift then map_key shifted_keymap code else map_key unshifted_keymap code
  end.

Definition tolower (c : Z) : Z := if (65 <=? c) && (c <=? 90) then c - 65 + 97 else c.

(** The character of an ordinary key, with the shift keys. *)
Definition key_char (shift alt ctrl caps : bool) (c : Z) : Z :=
  let c := if ctrl && (64 <=? c) && (c <? 96) then c - 64
           else if Bool.eqb shift caps then tolower c else c in
  u8 (if alt then c + 128 else c).

(** *state_var = down, for the shift key with a scancode. *)
Definition set_shift_key (code : Z) (d : bool) (k : kbd) : kbd :=
  let '(mk_kbd ls rs la ra lc rc cl n sc) := k in
  if code =? 42 then mk_kbd d rs la ra lc rc cl n sc
  else if code =? 54 then mk_kbd ls d la ra lc rc cl n sc
  else if code =? 56 then mk_kbd ls rs d ra lc rc cl n sc
  else if code =? 57400 then mk_kbd ls rs la d lc rc cl n sc
  else if code =? 29 then mk_kbd ls rs la ra d rc cl n sc
  else if code =? 57373 then mk_kbd ls rs la ra lc d cl n sc
  else k.

Definition set_caps (b : bool) (k : kbd) : kbd :=
  mk_kbd k.(left_shift) k.(right_shift) k.(left_alt) k.(right_alt) k.(left_ctrl) k.(right_ctrl) b k.(key_cnt) k.(scancodes).
Definition set_key_cnt (n : Z) (k : kbd) : kbd :=
  mk_kbd k.(left_shift) k.(right_shift) k.(left_alt) k.(right_alt) k.(left_ctrl) k.(right_ctrl) k.(caps_lock) n k.(scancodes).
Definition set_scancodes (l : list Z) (k : kbd) : kbd :=
  mk_kbd k.(left_shift) k.(right_shift) k.(left_alt) k.(right_alt) k.(left_ctrl) k.(right_ctrl) k.(caps_lock) k.(key_cnt) l.

Definition mod_kbd (f : kbd → kbd) : Q unit := modify (λ s, with_kbd (f s.(keyboard)) s).

(** inb (DATA_REG); an empty register reads as 0. *)
Definition read_scancode : Q Z :=
  l ← gets (λ s, s.(keyboard).(scancodes));
  mod_kbd (set_scancodes (List.tl l));;
  mret (hd 0 l).

(** shutdown_reboot() pulses the reset line for ever: it does not return. *)
Definition shutdown_reboot {A} : Q A := lift NoFuel.

(** keyboard_interrupt(): the key it put into the input buffer, if any. *)
Definition keyboard_interrupt : Q (option Z) :=
  k ← gets keyboard;
  let shift := k.(left_shift) || k.(right_shift) in
  let alt := k.(left_alt) || k.(right_alt) in
  let ctrl := k.(left_ctrl) || k.(right_ctrl) in
  code ← read_scancode;
  code ← (if code =? 224 then c2 ← read_scancode; mret (Z.lor (Z.shiftl code 8) c2) else mret code);
  let release := negb (Z.land code 128 =? 0) in
  let code := Z.land code 4294967167 in
  if code =? 58 then
    when (negb release) (mod_kbd (λ k, set_caps (negb k.(caps_lock)) k));;
    mret None
  else
    match map_any shift code with
    | Some c =>
        if release then mret None
        else if (c =? 127) && ctrl && alt then shutdown_reboot
        else
          caps ← gets (λ s, s.(keyboard).(caps_lock));
          let c := key_char shift alt ctrl caps c in
          f ← input_full;
          if (f : bool) then mret None
          else
            mod_kbd (λ k, set_key_cnt (i64 (k.(key_cnt) + 1)) k);;
            input_putc c;;
            mret (Some c)
    | None => mod_kbd (set_shift_key code (negb release));; mret None
    end.

(** ** Steps of the machine *)

(** What remains of a call after wait() or lock_acquire(). *)
Definition run_cont (c : cont) : Q (option Z + bool) :=
  match c with
  | CGetc Locked old => set_cont (CGetc Woken old);; wait QIn WEmpty;; mret (inl None)
  | CGetc Woken old =>
      set_cont (CGetc AtLoop old);; l ← lock_of QIn; onk (lock_release l);; mret (inl None)
  | CGetc AtLoop old => r ← input_getc_loop old; mret (inl r)
  | CPutc Locked b old => set_cont (CPutc Woken b old);; wait QTx WFull;; mret (inr false)
  | CPutc Woken b old =>
      set_cont (CPutc AtLoop b old);; l ← lock_of QTx; onk (lock_release l);; mret (inr false)
  | CPutc AtLoop b old => r ← serial_putc_loop b old; mret (inr r)
  end.

(** A handler of this file inside intr_handler() of Thread.v. *)
Definition in_interrupt {A} (h : Q A) : Q A :=
  onk (modify (with_intr false);; push_frame FIret);;
  level ← onk intr_get_level;
  qASSERT (negb level);;
  ctx ← onk intr_context;
  qASSERT (negb ctx);;
  onk (modify (with_external true false));;
  r ← h;
  level ← onk intr_get_level;
  qASSERT (negb level);;
  ctx ← onk intr_context;
  qASSERT ctx;;
  y ← onk (gets yield_on_return);
  onk (modify (with_external false y));;
  when y (onk thread_yield);;
  mret r.

Inductive event :=
| EResume                     (* the running thread continues a kernel function *)
| ECont                       (* it continues input_getc() or serial_putc() *)
| EKernel (o : op)            (* it calls a function of the kernel *)
| EGetc                       (* it calls input_getc() *)
| EPutc (b : Z)               (* it calls serial_putc() *)
| EFlush                      (* it calls serial_flush() *)
| EInitQueue                  (* it calls serial_init_queue() *)
| ETimer                      (* interrupt 0x20 *)
| EKey (scancodes : list Z)   (* interrupt 0x21 with these bytes in the register *)
| EReceive (bytes : list Z)   (* the serial port receives bytes *)
| ESerial.                    (* interrupt 0x24 *)

(** What an event is seen to do: keys that enter the input buffer, keys that a
    thread gets from it, bytes that serial_putc() takes. *)
Inductive label := LKey (b : Z) | LGot (t b : Z) | LOut (b : Z).

Definition the_cont (s : dst) : option cont := s.(conts) !! s.(dk).(running).

(** Which events can happen. *)
Definition enabled (e : event) (s : dst) : bool :=
  let idle := negb (busy s.(dk)) && bool_decide (the_cont s = None) in
  match e with
  | EResume => busy s.(dk)
  | ECont => negb (busy s.(dk)) && bool_decide (is_Some (the_cont s))
  | EKernel o => idle && s.(dk).(intr_on) && (match o with OpCreate p _ _ => bool_decide (s.(dk).(threads) !! p = None) | _ => true end)
  | EGetc | EPutc _ | EFlush | EInitQueue => idle
  | ETimer | EKey _ | ESerial => s.(dk).(intr_on)
  | EReceive _ => true
  end.

Definition got_labels (t : Z) (o : option Z) : list label := match o with Some b => [LGot t b] | None => [] end.
Definition out_labels (b : Z) (ok : bool) : list label := if ok then [LOut b] else [].

Definition do_event (e : event) : Q (list label) :=
  t ← onk running_thread;
  match e with
  | EResume => onk resume;; mret []
  | ECont =>
      o ← gets the_cont;
      match o with
      | None => mret []
      | Some c =>
          r ← run_cont c;
          mret (match r, c with
                | inl o, _ => got_labels t o
                | inr ok, CPutc _ b _ => out_labels b ok
                | inr _, CGetc _ _ => []
                end)
      end
  | EKernel o => onk (run_op o);; mret []
  | EGetc => o ← input_getc; mret (got_labels t o)
  | EPutc b => ok ← serial_putc b; mret (out_labels b ok)
  | EFlush => serial_flush;; mret []
  | EInitQueue => serial_init_queue;; mret []
  | ETimer => in_interrupt (onk timer_interrupt);; mret []
  | EKey l =>
      mod_kbd (set_scancodes l);;
      r ← in_interrupt keyboard_interrupt;
      mret (match r with Some c => [LKey c] | None => [] end)
  | EReceive l =>
      modify (λ s, with_port (mk_uart s.(port).(lcr) s.(port).(divisor_ls) s.(port).(divisor_ms) s.(port).(ier)
        s.(port).(fcr) s.(port).(mcr) s.(port).(sent) (s.(port).(received) ++ l) s.(port).(polls)) s);;
      mret []
  | ESerial => got ← in_interrupt serial_interrupt; mret (LKey <$> got)
  end.

(** Runs of the machine, with what they are seen to do. *)
Inductive run : dst → list label → dst → Prop :=
| run_nil s : run s [] s
| run_step s e ls s1 ls' s2 :
    enabled e s = true → do_event e s = Ok (ls, s1) → run s1 ls' s2 → run s (ls ++ ls') s2.

End hardware.

(** ** What the operations do to the bytes in transit *)

Lemma loop_st_partial {S L R} (I : L → S → Prop) (P : R → S → Prop) (body : L → st S (L + R)) fuel l s r s' :
  (∀ l s x s', I l s → body l s = Ok (x, s') → match x with inl l' => I l' s' | inr r => P r s' end) →
  I l s → loop_st fuel body l s = Ok (r, s') → P r s'.
Proof.
  intros Hb. unfold loop_st. revert l s. induction fuel as [|n IH]; intros l s HI H; cbn [loop] in H; [done|].
  destruct (body l s) as [[x s1]| | |] eqn:E; cbn in H; try done.
  pose proof (Hb _ _ _ _ HI E) as Hx. destruct x as [l'|r']; cbn in H; [by eapply IH|]. by injection H as -> ->.
Qed.

(** Some thread waits in serial_putc(). *)
Definition has_putc (s : dst) : Prop := ∃ t st b old, s.(conts) !! t = Some (CPutc st b old).

Record io_ok (s : dst) : Prop := {
  ok_in : intq_ok s.(qin);
  ok_tx : intq_ok s.(qtx);
  ok_mode : s.(mode) ≠ QUEUE → contents s.(qtx) = [];
  ok_dlab : s.(mode) ≠ UNINIT → Z.testbit s.(port).(lcr) 7 = false;
  ok_conts : has_putc s → s.(mode) = QUEUE }.

(** Keys [ki] entered the input buffer, keys [go] left it, and [ou] was taken by the
    serial port; what has not been transmitted is in its queue. *)
Definition trans (ki go ou : list Z) (s s' : dst) : Prop :=
  io_ok s →
  io_ok s' ∧ contents s.(qin) ++ ki = go ++ contents s'.(qin) ∧
  s.(port).(sent) ++ contents s.(qtx) ++ ou = s'.(port).(sent) ++ contents s'.(qtx).

(** Nothing that [trans] is about changes. *)
Definition quiet (s s' : dst) : Prop :=
  q_same s.(qin) s'.(qin) ∧ q_same s.(qtx) s'.(qtx) ∧ s'.(mode) = s.(mode) ∧ s'.(port).(sent) = s.(port).(sent) ∧
  s'.(port).(lcr) = s.(port).(lcr) ∧ (has_putc s' → has_putc s ∨ s.(mode) = QUEUE).

#[export] Instance quiet_preorder : PreOrder quiet.
Proof.
  split; [by intros s; repeat split; auto|]. unfold quiet, q_same. intros s1 s2 s3 H1 H2. destruct_and!.
  split_and!; try congruence. intuition congruence.
Qed.

Lemma putc_same s s' : s'.(conts) = s.(conts) → has_putc s' → has_putc s ∨ s.(mode) = QUEUE.
Proof. unfold has_putc. intros ->. auto. Qed.

Lemma same_quiet s s' : same_io s s' → quiet s s'.
Proof. intros (H1 & H2 & H3 & H4 & H5 & H6). unfold quiet. rewrite H3, H4. split_and!; try done. by apply putc_same. Qed.

Lemma quiet_is_trans s s' : quiet s s' → trans [] [] [] s s'.
Proof.
  intros (H1 & H2 & H3 & H4 & H5 & H6) [A B C D E]. rewrite !app_nil_r.
  rewrite (q_same_contents _ _ H1), (q_same_contents _ _ H2), H4.
  split; [|done]. split; [by eapply q_same_ok|by eapply q_same_ok| | |].
  - rewrite H3, (q_same_contents _ _ H2). done.
  - by rewrite H3, H5.
  - rewrite H3. intros H. destruct (H6 H); auto.
Qed.

Lemma trans_app k1 g1 o1 k2 g2 o2 s s1 s2 :
  trans k1 g1 o1 s s1 → trans k2 g2 o2 s1 s2 → trans (k1 ++ k2) (g1 ++ g2) (o1 ++ o2) s s2.
Proof.
  intros H1 H2 H. destruct (H1 H) as (A1 & B1 & C1). destruct (H2 A1) as (A2 & B2 & C2). split; [done|].
  rewrite app_assoc, B1, <- app_assoc, B2, !app_assoc. split; [by rewrite <- !app_assoc|].
  rewrite <- C2, !app_assoc. f_equal. by rewrite <- app_assoc, C1.
Qed.

Lemma trans_quiet_l ki go ou s s1 s2 : quiet s s1 → trans ki go ou s1 s2 → trans ki go ou s s2.
Proof. intros H1 H2. apply (trans_app [] [] [] ki go ou s s1 s2); [by apply quiet_is_trans|done]. Qed.

Lemma trans_quiet_r ki go ou s s1 s2 : trans ki go ou s s1 → quiet s1 s2 → trans ki go ou s s2.
Proof.
  intros H1 H2. rewrite <- (app_nil_r ki), <- (app_nil_r go), <- (app_nil_r ou).
  by eapply trans_app; [|apply quiet_is_trans].
Qed.

Section operations.
Context (thre : nat → bool) (poll_fuel : nat).

Lemma onk_quiet {A} (m : K A) s a s' : onk m s = Ok (a, s') → quiet s s'.
Proof. intros H. by eapply same_quiet, onk_same. Qed.

Lemma outb_quiet reg v s u s' : reg ≠ 1016 → reg ≠ 1019 → outb reg v s = Ok (u, s') → quiet s s'.
Proof.
  intros H1 H2 [= _ <-]. unfold quiet, uart_out. cbn. rewrite (proj2 (Z.eqb_neq reg 1016)) by done.
  rewrite (proj2 (Z.eqb_neq reg 1019)) by done. repeat case_match; repeat split; by apply putc_same.
Qed.

Lemma inb_quiet reg s v s' : inb thre reg s = Ok (v, s') → quiet s s'.
Proof.
  unfold inb. rewrite run_gets, run_modify. intros [= _ <-]. unfold quiet, uart_in. cbn. repeat case_match; repeat split; by apply putc_same.
Qed.

Lemma input_full_inv s b s' :
  input_full s = Ok (b, s') → s' = s ∧ b = (next s.(qin).(head) =? s.(qin).(tail)).
Proof. unfold input_full. intros H. do 2 q_inv H. by apply intq_full_inv in H as (-> & -> & _). Qed.

Lemma write_ier_quiet s u s' : write_ier s = Ok (u, s') → quiet s s'.
Proof.
  unfold write_ier. intros H. do 2 q_inv H. q_inv H. apply intq_empty_inv in R as (-> & -> & _).
  q_inv H. apply input_full_inv in R as (-> & ->). by eapply outb_quiet in H.
Qed.

Lemma notify_quiet s u s' : serial_notify s = Ok (u, s') → quiet s s'.
Proof.
  unfold serial_notify. intros H. do 3 q_inv H. unfold when in H. case_match; [by eapply write_ier_quiet|].
  by injection H as _ <-.
Qed.

Lemma now_inv {A} (o : option A) s a s' : now o s = Ok (a, s') → o = Some a ∧ s' = s.
Proof. unfold now, lift. destruct o; cbn; [|done]. by intros [= -> <-]. Qed.

Lemma input_putc_trans key s u s' : input_putc key s = Ok (u, s') → trans [key] [] [] s s'.
Proof.
  intros H Hok. unfold input_putc in H. do 2 q_inv H. q_inv H. apply intq_full_inv in R as (-> & -> & _). q_inv H. q_inv H.
  apply (intq_putc_inv QIn) in R as [_ R]; [|apply Hok]. q_inv H. destruct a; [|by apply now_inv in R0 as [? _]].
  apply now_inv in R0 as [_ ->]. apply notify_quiet in H. destruct R as (Hc & Hq & [H1 H2 H3 H4 H5]). cbn [queue other] in *.
  revert Hok. apply (trans_quiet_r _ _ _ _ s0); [|done]. intros [A B C D F].
  split; [|by rewrite Hc, H3, (q_same_contents _ _ H1), app_nil_r].
  split; [done|by eapply q_same_ok| |by rewrite H2, H3|unfold has_putc; by rewrite H2, H5].
  by rewrite H2, (q_same_contents _ _ H1).
Qed.

(** Transmission of one byte. *)
Lemma putc_poll_inv b s u s' :
  s.(mode) ≠ UNINIT → io_ok s → putc_poll thre poll_fuel b s = Ok (u, s') →
  q_same s.(qin) s'.(qin) ∧ q_same s.(qtx) s'.(qtx) ∧ s'.(mode) = s.(mode) ∧ s'.(port).(sent) = s.(port).(sent) ++ [b] ∧
  s'.(port).(lcr) = s.(port).(lcr) ∧ (has_putc s' → has_putc s ∨ s.(mode) = QUEUE).
Proof.
  intros Hm Hok H. unfold putc_poll in H. do 2 q_inv H. q_inv H.
  assert (Hq : quiet s s0).
  { eapply (loop_st_partial (λ _ s1, quiet s s1) (λ _ s1, quiet s s1)); [|reflexivity|exact R].
    intros l s1 x s2 H1 Hb. q_inv Hb. apply inb_quiet in R0. injection Hb as <- <-. case_match; by etrans. }
  destruct Hq as (H1 & H2 & H3 & H4 & H5 & H6). injection H as _ <-. unfold uart_out. cbn -[Z.testbit].
  rewrite H5, (ok_dlab _ Hok Hm). cbn. by rewrite H4.
Qed.

Lemma outb_thr b s u s' :
  s.(mode) ≠ UNINIT → io_ok s → outb THR_REG b s = Ok (u, s') →
  q_same s.(qin) s'.(qin) ∧ q_same s.(qtx) s'.(qtx) ∧ s'.(mode) = s.(mode) ∧ s'.(port).(sent) = s.(port).(sent) ++ [b] ∧
  s'.(port).(lcr) = s.(port).(lcr) ∧ (has_putc s' → has_putc s ∨ s.(mode) = QUEUE).
Proof. intros Hm Hok [= _ <-]. unfold uart_out. cbn -[Z.testbit]. rewrite (ok_dlab _ Hok Hm). repeat split. by apply putc_same. Qed.

(** A byte taken from the queue and transmitted. *)
Lemma drain_trans b s s1 s' :
  io_ok s → contents s.(qtx) = b :: contents s1.(qtx) → intq_ok s1.(qtx) → only_queue QTx s s1 →
  (s1.(mode) ≠ UNINIT → io_ok s1 →
   q_same s1.(qin) s'.(qin) ∧ q_same s1.(qtx) s'.(qtx) ∧ s'.(mode) = s1.(mode) ∧ s'.(port).(sent) = s1.(port).(sent) ++ [b] ∧
   s'.(port).(lcr) = s1.(port).(lcr) ∧ (has_putc s' → has_putc s1 ∨ s1.(mode) = QUEUE)) →
  trans [] [] [] s s' ∧ s'.(mode) = s.(mode).
Proof.
  intros Hok Hc Hq [H1 H2 H3 H4 H5] Hs. cbn [queue other] in *. pose proof Hok as [A B C D F].
  destruct (decide (mode s = QUEUE)) as [Hm|Hm]; [|rewrite (C Hm) in Hc; done].
  destruct Hs as (S1 & S2 & S3 & S4 & S5 & S6); [by rewrite H2, Hm| |].
  { split; [by eapply q_same_ok|done| |by rewrite H2, H3|by rewrite H2]. by rewrite H2, Hm. }
  split; [|congruence]. intros _. rewrite !app_nil_r, (q_same_contents _ _ S1), (q_same_contents _ _ H1), (q_same_contents _ _ S2).
  rewrite S4, H3, Hc, <- app_assoc. split; [|done]. split.
  - by eapply q_same_ok; [|eapply q_same_ok].
  - by eapply q_same_ok.
  - by rewrite S3, H2, Hm.
  - rewrite S3, H2, S5, H3. done.
  - by rewrite S3, H2.
Qed.

Lemma poll_one_trans s u s' :
  io_ok s → (o ← intq_getc QTx; b ← now o; putc_poll thre poll_fuel b) s = Ok (u, s') →
  trans [] [] [] s s' ∧ s'.(mode) = s.(mode).
Proof.
  intros Hok H. q_inv H. apply (intq_getc_inv QTx) in R as [_ R]; [|apply Hok]. q_inv H. apply now_inv in R0 as [-> ->].
  destruct R as (Hc & Hq & Ho). eapply drain_trans; [done..|]. intros Hm Hok'. by eapply putc_poll_inv.
Qed.

Lemma set_serial_inv bps s u s' :
  set_serial bps s = Ok (u, s') →
  s'.(qin) = s.(qin) ∧ s'.(qtx) = s.(qtx) ∧ s'.(mode) = s.(mode) ∧ s'.(port).(sent) = s.(port).(sent) ∧ s'.(port).(lcr) = LCR_N81 ∧
  s'.(conts) = s.(conts).
Proof. unfold set_serial, outb. intros H. q_inv H. rewrite !run_modify in H. injection H as _ <-. done. Qed.

Lemma init_poll_trans s u s' : init_poll s = Ok (u, s') → trans [] [] [] s s' ∧ s'.(mode) = POLL.
Proof.
  intros H. unfold init_poll in H. do 2 q_inv H. apply bool_decide_eq_true in E.
  q_inv H. apply outb_quiet in R; [|done..]. q_inv H. apply outb_quiet in R0; [|done..].
  q_inv H. apply set_serial_inv in R1. q_inv H. apply outb_quiet in R2; [|done..].
  assert (Hq : quiet s s1) by (etrans; [exact R|exact R0]). destruct Hq as (Q1 & Q2 & Q3 & Q4 & _ & Q6).
  destruct R1 as (P1 & P2 & P3 & P4 & P5 & P6), R2 as (S1 & S2 & S3 & S4 & S5 & S6).
  q_inv H. injection H as _ <-. unfold intq_init in R1. q_inv R1. q_inv R1. apply onk_inv in R2 as (k & _ & ->).
  injection R1 as _ <-. split; [|done]. cbn.
  intros [A B C D F]. cbn. rewrite !app_nil_r.
  assert (Hno : ¬ has_putc s3).
  { pose proof (putc_same _ _ P6). intros Hs3. intuition congruence. }
  assert (Hin : q_same (qin s) (qin s3)) by (rewrite P1 in S1; unfold q_same in *; destruct_and!; repeat split; congruence).
  assert (Htx : q_same (qtx s) (qtx s3)) by (rewrite P2 in S2; unfold q_same in *; destruct_and!; repeat split; congruence).
  rewrite (q_same_contents _ _ Hin), (C ltac:(congruence)), S4, P4, Q4. split; [|split; [reflexivity|by rewrite app_nil_r]]. split; cbn.
  - by eapply q_same_ok.
  - destruct (q_same_ok _ _ Htx B) as [L _ _]. by split; cbn; [|lia..].
  - done.
  - intros _. by rewrite S5, P5.
  - done.
Qed.

Lemma serial_init_queue_trans s u s' : serial_init_queue s = Ok (u, s') → trans [] [] [] s s'.
Proof.
  intros H. unfold serial_init_queue in H. q_inv H. q_inv H. rewrite run_gets in H. q_inv H. rewrite run_modify in H.
  apply bool_decide_eq_true in E. q_inv H. apply onk_quiet in R0. q_inv H. apply write_ier_quiet in R1. q_inv H.
  apply onk_quiet in R2. injection H as _ <-.
  assert (H1 : trans [] [] [] s s0).
  { unfold when in R. case_match; [by apply init_poll_trans in R as [? _]|]. injection R as _ <-. by apply quiet_is_trans. }
  assert (H2 : trans [] [] [] s0 (with_mode QUEUE s0)).
  { intros [A B C D F]. rewrite !app_nil_r. split; [|done]. split; [done..|cbn|done]. intros _. apply D. congruence. }
  apply (trans_app [] [] [] [] [] [] _ _ _ H1). apply (trans_quiet_r _ _ _ _ _ _ H2). etrans; [exact R0|]. by etrans.
Qed.

Definition may_cont (s : dst) (c : cont) : Prop := match c with CPutc _ _ _ => s.(mode) = QUEUE | CGetc _ _ => True end.

Lemma set_cont_quiet c s u s' : may_cont s c → set_cont c s = Ok (u, s') → quiet s s'.
Proof.
  unfold set_cont. intros Hc H. q_inv H. apply onk_inv in R as (k & _ & ->). injection H as _ <-. repeat split.
  intros (t & st & b & old & H). cbn in H. apply lookup_insert_Some in H as [[_ ->] | [_ H]]; [by right|left; by repeat eexists].
Qed.

Lemma end_cont_quiet s u s' : end_cont s = Ok (u, s') → quiet s s'.
Proof.
  unfold end_cont. intros H. q_inv H. apply onk_inv in R as (k & _ & ->). injection H as _ <-. repeat split.
  intros (t & st & b & old & H). cbn in H. apply lookup_delete_Some in H as [_ H]. left; by repeat eexists.
Qed.

Lemma serial_putc_loop_trans b old s (r : bool) s' :
  s.(mode) = QUEUE → serial_putc_loop b old s = Ok (r, s') → trans [] [] (if r then [b] else []) s s'.
Proof.
  intros Hm H Hok. unfold serial_putc_loop in H. q_inv H. apply (intq_putc_inv QTx) in R as [_ R]; [|apply Hok].
  destruct a.
  - destruct R as (Hc & Hq & [H1 H2 H3 H4 H5]). cbn [queue other] in *.
    q_inv H. apply end_cont_quiet in R. q_inv H. apply write_ier_quiet in R0. q_inv H. apply onk_quiet in R1. injection H as <- <-.
    assert (Hqu : quiet s0 s3) by (etrans; [exact R|]; by etrans).
    revert Hok. apply (trans_quiet_r _ _ _ _ s0); [|done]. intros [A B C D F].
    rewrite Hc, H3, (q_same_contents _ _ H1), app_nil_r. split; [|done].
    split; [by eapply q_same_ok|done| |by rewrite H2, H3|by rewrite H2]. by rewrite H2, Hm.
  - destruct R as (-> & _ & _). q_inv H. apply set_cont_quiet in R; [|done]. q_inv H.
    q_inv H. apply onk_quiet in R0. injection H as <- <-. revert Hok. apply quiet_is_trans. by etrans.
Qed.

Lemma serial_putc_trans b s (r : bool) s' :
  serial_putc thre poll_fuel b s = Ok (r, s') → trans [] [] (if r then [b] else []) s s'.
Proof.
  intros H Hok. unfold serial_putc in H. q_inv H. apply onk_quiet in R. q_inv H.
  destruct (quiet_is_trans _ _ R Hok) as (Hok0 & _). revert Hok. apply (trans_quiet_l _ _ _ _ _ _ R).
  destruct (bool_decide (mode s0 = QUEUE)) eqn:Hm; cbn [negb] in H.
  - apply bool_decide_eq_true in Hm. q_inv H. apply intq_full_inv in R0 as (-> & -> & _). q_inv H.
    assert (H1 : trans [] [] [] s0 s1 ∧ mode s1 = mode s0).
    { unfold when in R0. case_match; [by eapply poll_one_trans|]. injection R0 as _ <-. split; [by apply quiet_is_trans|done]. }
    destruct H1 as [H1 H1m]. apply serial_putc_loop_trans in H; [|congruence].
    by apply (trans_app _ _ _ _ _ _ _ _ _ H1 H).
  - apply bool_decide_eq_false in Hm. q_inv H.
    assert (H1 : trans [] [] [] s0 s1 ∧ mode s1 = POLL).
    { unfold when in R0. case_match; [by eapply init_poll_trans|]. injection R0 as _ <-. split; [by apply quiet_is_trans|].
      apply bool_decide_eq_false in H0. by destruct (mode s0). }
    destruct H1 as [H1 H1m]. apply (trans_app _ _ _ [] [] (if r then [b] else []) _ _ _ H1).
    destruct (H1 Hok0) as (Hok1 & _). q_inv H. apply putc_poll_inv in R1 as (P1 & P2 & P3 & P4 & P5 & P6); [|congruence|done].
    q_inv H. apply onk_quiet in R1. injection H as <- <-. apply (trans_quiet_r _ _ _ _ s2); [|done].
    intros [A B C D F]. rewrite (q_same_contents _ _ P1), (q_same_contents _ _ P2), P4, app_nil_r, C by congruence.
    rewrite !app_nil_r. split; [|done].
    split; [by eapply q_same_ok|by eapply q_same_ok| |by rewrite P3, P5|rewrite P3; intuition].
    intros _. rewrite (q_same_contents _ _ P2). apply C. congruence.
Qed.

Lemma trans_idle : ∀ s, trans [] [] [] s s.
Proof. intros s. by apply quiet_is_trans. Qed.

(** A transmission step that is repeated keeps [trans] and the mode. *)
Definition flow (s s' : dst) : Prop := trans [] [] [] s s' ∧ s'.(mode) = s.(mode).

Lemma flow_trans s s1 s2 : flow s s1 → flow s1 s2 → flow s s2.
Proof. intros [H1 M1] [H2 M2]. split; [by apply (trans_app _ _ _ _ _ _ _ _ _ H1 H2)|congruence]. Qed.

Lemma quiet_flow s s' : quiet s s' → flow s s'.
Proof. intros H. split; [by apply quiet_is_trans|apply H]. Qed.

Lemma flow_ok s s' : flow s s' → io_ok s → io_ok s'.
Proof. intros [H _] Hok. by apply H. Qed.

Lemma serial_flush_flow s u s' : io_ok s → serial_flush thre poll_fuel s = Ok (u, s') → flow s s'.
Proof.
  intros Hok H. unfold serial_flush in H. q_inv H. apply onk_quiet, quiet_flow in R. q_inv H. q_inv H.
  apply onk_quiet, quiet_flow in R1. injection H as _ <-. apply (flow_trans _ _ _ R). eapply flow_trans; [|exact R1].
  pose proof (flow_ok _ _ R Hok) as Hok0.
  eapply (loop_st_partial (λ _ s1, flow s0 s1) (λ _ s1, flow s0 s1)); [|by apply quiet_flow|exact R0].
  intros l x r y Hx Hb. q_inv Hb. apply intq_empty_inv in R2 as (-> & -> & _). case_match.
  - by injection Hb as <- <-.
  - rewrite <- (st_bind_assoc _ (λ o, now o)), <- st_bind_assoc in Hb. q_inv Hb. injection Hb as <- <-.
    rewrite st_bind_assoc in R2. apply poll_one_trans in R2; [|by eapply flow_ok]. by eapply flow_trans.
Qed.

Lemma transmit_loop_flow fuel s u s' : io_ok s → transmit_loop thre fuel s = Ok (u, s') → flow s s'.
Proof.
  intros Hok H. unfold transmit_loop in H.
  eapply (loop_st_partial (λ _ s1, flow s s1) (λ _ s1, flow s s1)); [|by apply quiet_flow|exact H].
  clear H. intros l x r y Hx Hb. q_inv Hb. apply intq_empty_inv in R as (-> & -> & _). case_match.
  - by injection Hb as <- <-.
  - q_inv Hb. apply inb_quiet, quiet_flow in R. assert (H0' : flow s s0) by by eapply flow_trans.
    case_match; [by injection Hb as <- <-|]. pose proof (flow_ok _ _ H0' Hok) as Hok0.
    q_inv Hb. apply (intq_getc_inv QTx) in R0 as [_ R0]; [|apply Hok0]. q_inv Hb. apply now_inv in R1 as [-> ->].
    destruct R0 as (Hc & Hq & Ho). q_inv Hb. injection Hb as <- <-. apply (flow_trans _ _ _ H0').
    eapply drain_trans; [done..|]. intros Hm Hok'. by eapply outb_thr.
Qed.

Lemma receive_loop_trans fuel s got s' : io_ok s → receive_loop thre fuel s = Ok (got, s') → trans got [] [] s s'.
Proof.
  intros Hok H. unfold receive_loop in H.
  eapply (loop_st_partial (λ g s1, trans g [] [] s s1) (λ g s1, trans g [] [] s s1)); [|by apply trans_idle|exact H].
  clear H. intros l x r y Hx Hb. q_inv Hb. apply input_full_inv in R as (-> & ->). case_match.
  - by injection Hb as <- <-.
  - q_inv Hb. apply inb_quiet in R. case_match; [injection Hb as <- <-; by eapply trans_quiet_r|].
    q_inv Hb. apply inb_quiet in R0. q_inv Hb. apply input_putc_trans in R1. injection Hb as <- <-.
    apply (trans_app l [] [] [a0] [] [] _ x); [done|]. eapply trans_quiet_l; [|done]. by etrans.
Qed.

Lemma serial_interrupt_trans s got s' : io_ok s → serial_interrupt thre s = Ok (got, s') → trans got [] [] s s'.
Proof.
  intros Hok H. unfold serial_interrupt in H. q_inv H. apply inb_quiet in R. q_inv H.
  pose proof (flow_ok _ _ (quiet_flow _ _ R) Hok) as Hok0. apply receive_loop_trans in R0; [|done].
  q_inv H. apply transmit_loop_flow in R1; [|by apply R0]. q_inv H. apply write_ier_quiet in R2. injection H as <- <-.
  apply (trans_quiet_l _ _ _ _ _ _ R). rewrite <- (app_nil_r a0). apply (trans_app _ [] [] [] [] [] _ _ _ R0).
  eapply trans_quiet_r; [apply R1|done].
Qed.

Lemma input_getc_loop_trans old s o s' :
  io_ok s → input_getc_loop old s = Ok (o, s') → trans [] (option_list o) [] s s'.
Proof.
  intros Hok H. unfold input_getc_loop in H. q_inv H. apply (intq_getc_inv QIn) in R as [_ R]; [|apply Hok]. destruct a as [b|].
  - destruct R as (Hc & Hq & [H1 H2 H3 H4 H5]). cbn [queue other] in *.
    q_inv H. apply end_cont_quiet in R. q_inv H. apply notify_quiet in R0. q_inv H. apply onk_quiet in R1. injection H as <- <-.
    assert (Hqu : quiet s0 s3) by (etrans; [exact R|]; by etrans).
    eapply trans_quiet_r; [|exact Hqu]. intros [A B C D F].
    rewrite Hc, H3, (q_same_contents _ _ H1), !app_nil_r. split; [|done].
    split; [done|by eapply q_same_ok| |by rewrite H2, H3|unfold has_putc; by rewrite H2, H5]. by rewrite H2, (q_same_contents _ _ H1).
  - destruct R as (-> & _ & _). q_inv H. apply set_cont_quiet in R; [|done]. q_inv H.
    q_inv H. apply onk_quiet in R0. injection H as <- <-. apply quiet_is_trans. by etrans.
Qed.

Lemma mod_kbd_quiet f s u s' : mod_kbd f s = Ok (u, s') → quiet s s'.
Proof. intros [= _ <-]. repeat split. by apply putc_same. Qed.

Lemma read_scancode_quiet s v s' : read_scancode s = Ok (v, s') → quiet s s'.
Proof. unfold read_scancode. intros H. q_inv H. q_inv H. apply mod_kbd_quiet in R. by injection H as _ <-. Qed.

Lemma keyboard_interrupt_trans s o s' :
  keyboard_interrupt s = Ok (o, s') → trans (option_list o) [] [] s s'.
Proof.
  intros H. unfold keyboard_interrupt in H. q_inv H. q_inv H. apply read_scancode_quiet in R.
  q_inv H. assert (H1 : quiet s0 s1).
  { clear H. case_match; [|by injection R0 as _ <-]. q_inv R0. apply read_scancode_quiet in R1. by injection R0 as _ <-. }
  apply (trans_quiet_l _ _ _ s s1); [by etrans|]. clear R R0 H1.
  case_match.
  - q_inv H. injection H as <- <-. unfold when in R. case_match; [apply mod_kbd_quiet in R|injection R as _ <-]; by apply quiet_is_trans.
  - case_match.
    + case_match; [injection H as <- <-; by apply quiet_is_trans|]. case_match; [done|].
      q_inv H. q_inv H. apply input_full_inv in R as (-> & ->). case_match; [injection H as <- <-; by apply quiet_is_trans|].
      q_inv H. apply mod_kbd_quiet in R. q_inv H. apply input_putc_trans in R0. injection H as <- <-. by eapply trans_quiet_l.
    + q_inv H. apply mod_kbd_quiet in R. injection H as <- <-. by apply quiet_is_trans.
Qed.

Lemma run_cont_trans c s r s' :
  io_ok s → may_cont s c → run_cont c s = Ok (r, s') →
  match r with
  | inl o => trans [] (option_list o) [] s s'
  | inr ok => trans [] [] (match c with CPutc _ b _ => if (ok : bool) then [b] else [] | CGetc _ _ => [] end) s s'
  end.
Proof.
  intros Hok Hc H. destruct c as [[] old|[] b old]; cbn in H; q_inv H.
  - apply input_getc_loop_trans in R; [|done]. by injection H as <- <-.
  - apply set_cont_quiet in R; [|done]. q_inv H. apply wait_inv, same_quiet in R0. injection H as <- <-.
    apply quiet_is_trans. by etrans.
  - apply set_cont_quiet in R; [|done]. q_inv H. q_inv H. apply onk_quiet in R0. injection H as <- <-. apply quiet_is_trans. by etrans.
  - apply serial_putc_loop_trans in R; [|done]. by injection H as <- <-.
  - apply set_cont_quiet in R; [|done]. q_inv H. apply wait_inv, same_quiet in R0. injection H as <- <-.
    apply quiet_is_trans. by etrans.
  - apply set_cont_quiet in R; [|done]. q_inv H. q_inv H. apply onk_quiet in R0. injection H as <- <-. apply quiet_is_trans. by etrans.
Qed.

(** An interrupt does what its handler does. *)
Lemma in_interrupt_trans {A} (h : Q A) (ki go ou : A → list Z) s a s' :
  (∀ s a s', io_ok s → h s = Ok (a, s') → trans (ki a) (go a) (ou a) s s') →
  io_ok s → in_interrupt h s = Ok (a, s') → trans (ki a) (go a) (ou a) s s'.
Proof.
  intros Hh Hok H. unfold in_interrupt in H. q_inv H. apply onk_quiet in R. do 4 q_inv H. q_inv H. apply onk_quiet in R0.
  q_inv H. assert (Hq : quiet s s1) by by etrans. apply Hh in R1; [|by eapply flow_ok; [apply quiet_flow|]].
  do 4 q_inv H. q_inv H. apply onk_quiet in R2. q_inv H. apply onk_quiet in R3. q_inv H. injection H as <- <-.
  apply (trans_quiet_l _ _ _ _ _ _ Hq). eapply trans_quiet_r; [exact R1|]. etrans; [exact R2|]. etrans; [exact R3|].
  unfold when in R4. case_match; [by eapply onk_quiet|]. by injection R4 as _ <-.
Qed.

Definition keys (ls : list label) : list Z := omap (λ l, match l with LKey b => Some b | _ => None end) ls.
Definition gots (ls : list label) : list Z := omap (λ l, match l with LGot _ b => Some b | _ => None end) ls.
Definition outs (ls : list label) : list Z := omap (λ l, match l with LOut b => Some b | _ => None end) ls.

Lemma do_event_trans e s ls s' :
  io_ok s → do_event thre poll_fuel e s = Ok (ls, s') → trans (keys ls) (gots ls) (outs ls) s s'.
Proof.
  intros Hok H. unfold do_event in H. q_inv H. apply onk_inv in R as (k & [= <- <-] & ->).
  replace (with_k (dk s) s) with s in H by by destruct s. destruct e.
  - q_inv H. injection H as <- <-. by eapply quiet_is_trans, onk_quiet.
  - q_inv H. destruct (the_cont s) as [c|] eqn:Ec; [|injection H as <- <-; apply trans_idle]. q_inv H. injection H as <- <-.
    apply run_cont_trans in R; [|done|]. 2: { destruct c; [done|]. apply (ok_conts _ Hok). by repeat eexists. }
    destruct a as [[b|]|ok], c; try done. by destruct ok.
  - q_inv H. injection H as <- <-. by eapply quiet_is_trans, onk_quiet.
  - q_inv H. injection H as <- <-. unfold input_getc in R. q_inv R. apply onk_quiet in R0.
    apply input_getc_loop_trans in R; [|by eapply flow_ok; [apply quiet_flow|]].
    destruct a; cbn in *; by eapply trans_quiet_l.
  - q_inv H. injection H as <- <-. apply serial_putc_trans in R. by destruct a.
  - q_inv H. injection H as <- <-. by apply serial_flush_flow in R as [R _].
  - q_inv H. injection H as <- <-. by apply serial_init_queue_trans in R.
  - q_inv H. injection H as <- <-. eapply (in_interrupt_trans _ (λ _, []) (λ _, []) (λ _, [])) in R; [done| |done].
    intros s1 a1 s2 _ H1. by eapply quiet_is_trans, onk_quiet.
  - q_inv H. apply mod_kbd_quiet in R. q_inv H. injection H as <- <-. eapply trans_quiet_l; [exact R|].
    eapply (in_interrupt_trans _ option_list (λ _, []) (λ _, [])) in R0.
    + by destruct a0.
    + intros. by apply keyboard_interrupt_trans.
    + by eapply flow_ok; [apply quiet_flow|].
  - rewrite run_modify in H. injection H as <- <-. apply quiet_is_trans. repeat split. by apply putc_same.
  - q_inv H. injection H as <- <-. eapply (in_interrupt_trans _ id (λ _, []) (λ _, [])) in R; [| |done].
    + assert (Hk : keys (LKey <$> a) = a ∧ gots (LKey <$> a) = [] ∧ outs (LKey <$> a) = []).
      { clear. induction a as [|x a (IH1 & IH2 & IH3)]; [done|]. cbn. split; [|done]. by f_equal. }
      destruct Hk as (-> & -> & ->). done.
    + intros. by apply serial_interrupt_trans.
Qed.


End operations.

(** ** Executions *)

Section executions.
Context (thre : nat → bool) (poll_fuel : nat).

Fixpoint exec (es : list event) : Q (list label) :=
  match es with
  | [] => mret []
  | e :: es =>
      en ← gets (enabled e);
      if (en : bool) then ls ← do_event thre poll_fuel e; ls' ← exec es; mret (ls ++ ls') else lift NoFuel
  end.

Lemma exec_run es s ls s' : exec es s = Ok (ls, s') → run thre poll_fuel s ls s'.
Proof.
  revert s ls. induction es as [|e es IH]; intros s ls H; cbn [exec] in H; [injection H as <- <-; constructor|].
  q_inv H. destruct (enabled e s) eqn:E; [|done]. q_inv H. q_inv H. injection H as <- <-. econstructor; [done..|]. by apply IH.
Qed.

(** wait() of a thread that finds a key in the buffer it wants to wait for. *)
Lemma wait_nonempty_panics old s :
  io_ok s → contents s.(qin) ≠ [] → s.(dk).(intr_on) = false → s.(dk).(in_external_intr) = false →
  run_cont (CGetc Locked old) s = Panic.
Proof.
  intros Hok Hc Hi Hx. cbn [run_cont].
  assert (He : (head (qin s) =? tail (qin s)) = false).
  { apply not_true_is_false. intros He. by apply (empty_spec _ (ok_in _ Hok)) in He. }
  destruct s as [k qi qt m u kb c]. cbn in *. unfold set_cont, wait, intq_empty, intq_full, qASSERT, lift, ASSERT.
  unfold mbind, st_bind, onk, gets, modify. cbn. do 5 (rewrite ?Hi, ?Hx, ?He; cbn). done.
Qed.

End executions.

(** Two threads and the idle thread; the port is not in use. *)
Definition demo_q (l : Z) : intq := mk_intq l NULL NULL (replicate 64 0) 0 0.
Definition demo_uart : uart := mk_uart 0 0 0 0 0 0 [] [] 0.
Definition demo_kbd : kbd := mk_kbd false false false false false false false 0 [].
Definition demo_dst : dst :=
  mk_dst (mk_kst (<[1 := demo_thread THREAD_RUNNING []]> (<[2 := demo_thread THREAD_READY [FStart]]>
           {[ 3 := demo_thread THREAD_BLOCKED [FHalt] ]}))
    1 [2] [1; 2; 3] 3 1 true false false 0 0 0 0 0 4
    (<[SLock 10 := mk_sema 1 []]> {[ SLock 11 := mk_sema 1 [] ]}) (<[10 := NULL]> {[ 11 := NULL ]}) ∅)
    (demo_q 10) (demo_q 11) UNINIT demo_uart demo_kbd ∅.

(** Both threads ask for a key, the keys a and s are pressed, and the first thread
    gets the a; the second is about to wait. *)
Definition two_readers : list event :=
  [EGetc; EResume; EResume; ECont; EResume; EGetc; EResume; EResume; EKey [30]; EResume; EKey [31]; EResume; EResume;
   ECont; EResume; ECont; EKernel OpYield; EResume; EResume].

Definition always_ready : nat → bool := λ _, true.

(** C34: input_getc() is not safe for more than one thread.  A thread that had to
    wait for the lock of the input buffer panics the kernel when it gets the lock
    while there is a key in the buffer, although it only had to take the key; a
    run of the machine leads there: two threads ask for a key, two keys are
    pressed, and the thread that was first takes one of them. *)
Theorem input_getc_two_readers_panic :
  (∀ old s, io_ok s → contents s.(qin) ≠ [] → s.(dk).(intr_on) = false → s.(dk).(in_external_intr) = false →
     run_cont (CGetc Locked old) s = Panic) ∧
  ∃ s, run always_ready 1 demo_dst [LKey 97; LKey 115; LGot 1 97] s ∧ s.(dk).(running) = 2 ∧
    the_cont s = Some (CGetc Locked true) ∧ contents s.(qin) = [115] ∧ enabled ECont s = true ∧
    do_event always_ready 1 ECont s = Panic.
Proof.
  split; [intros; by apply wait_nonempty_panics|].
  destruct (exec always_ready 1 two_readers demo_dst) as [[ls s]| | |] eqn:E; [|by vm_compute in E..].
  assert (Hs : ls = [LKey 97; LKey 115; LGot 1 97] ∧ s.(dk).(running) = 2 ∧
    the_cont s = Some (CGetc Locked true) ∧ contents s.(qin) = [115] ∧ enabled ECont s = true ∧
    do_event always_ready 1 ECont s = Panic).
  { vm_compute in E. injection E as <- <-. split; [reflexivity|]. do 4 (split; [vm_compute; reflexivity|]). vm_compute. reflexivity. }
  destruct Hs as [-> Hs]. exists s. split; [|exact Hs]. by eapply exec_run.
Qed.

Lemma demo_io_ok : io_ok demo_dst.
Proof.
  split; try (split; [reflexivity|cbn; lia..]).
  - reflexivity.
  - done.
  - intros (t & st & b & old & H). change (conts demo_dst) with (∅ : gmap Z cont) in H. by rewrite lookup_empty in H.
Qed.

(** The port is set up, two bytes are sent, one key is pressed and read. *)
Definition demo_events : list event :=
  [EPutc 72; EInitQueue; EPutc 105; ESerial; EResume; EKey [30]; EResume; EGetc].


(** ** Typing *)

Lemma run_level {A} (f : bool → Q A) s : (onk intr_get_level ≫= f) s = f s.(dk).(intr_on) s.
Proof. by destruct s. Qed.

Lemma run_qASSERT {A} (c : bool) (f : unit → Q A) s : c = true → (qASSERT c ≫= f) s = f tt s.
Proof. by intros ->. Qed.

Lemma run_empty {A} q (f : bool → Q A) s :
  s.(dk).(intr_on) = false → (intq_empty q ≫= f) s = f ((queue q s).(head) =? (queue q s).(tail)) s.
Proof. intros Hi. apply run_bind. unfold intq_empty. by rewrite run_level, Hi, run_qASSERT. Qed.

Lemma run_full {A} q (f : bool → Q A) s :
  s.(dk).(intr_on) = false → (intq_full q ≫= f) s = f (next (queue q s).(head) =? (queue q s).(tail)) s.
Proof. intros Hi. apply run_bind. unfold intq_full. by rewrite run_level, Hi, run_qASSERT. Qed.

Lemma run_input_full {A} (f : bool → Q A) s :
  s.(dk).(intr_on) = false → (input_full ≫= f) s = f (next s.(qin).(head) =? s.(qin).(tail)) s.
Proof. intros Hi. apply run_bind. unfold input_full. rewrite run_level, Hi, run_qASSERT by done. unfold intq_full. by rewrite run_level, Hi, run_qASSERT. Qed.

Lemma notify_ok s :
  s.(dk).(intr_on) = false → ∃ u, serial_notify s = Ok (tt, with_port u s).
Proof.
  intros Hi. unfold serial_notify. rewrite run_level, Hi, run_qASSERT, run_gets by done. unfold when.
  case_match; [|exists (port s); by destruct s]. unfold write_ier. rewrite run_level, Hi, run_qASSERT, run_empty, run_input_full by done.
  unfold outb, modify. eauto.
Qed.

Lemma put_ok q b s :
  intq_ok (queue q s) → s.(dk).(intr_on) = false → (next (queue q s).(head) =? (queue q s).(tail)) = false →
  (queue q s).(not_empty) = NULL →
  let x := queue q s in
  intq_putc q b s = Ok (true, with_q q (set_head (next x.(head)) (set_buf (<[Z.to_nat x.(head) := b]> x.(buf)) x)) s).
Proof.
  intros Hok Hi Hf Hw x. unfold intq_putc. rewrite run_level, Hi, run_qASSERT, run_full by done. fold x. fold x in Hf. rewrite Hf, run_gets.
  fold x. destruct (lookup_lt_is_Some_2 (buf x) (Z.to_nat (head x))) as [y Hy]; [destruct Hok as [Hl Hh _]; fold x in Hl, Hh; lia|].
  rewrite (run_lift _ _ _ y) by by rewrite Hy. rewrite run_modify. set (x' := set_head _ _).
  assert (Hi' : intr_on (dk (with_q q x' s)) = false) by by destruct q.
  rewrite (run_bind (signal q WEmpty) _ _ tt (with_q q x' s)); [done|]. unfold signal. rewrite run_level, Hi', run_qASSERT, run_empty, run_full by done. rewrite queue_with_q.
  destruct (put_contents x b Hok Hf) as [Hok' Hc']. fold x' in Hok', Hc'.
  rewrite run_qASSERT, run_gets.
  - rewrite queue_with_q. change (get_waiter WEmpty x') with (not_empty x). unfold x. by rewrite Hw.
  - apply negb_true_iff, not_true_is_false. intros He. apply (empty_spec _ Hok') in He. rewrite Hc' in He. by destruct (contents x).
Qed.

Lemma input_putc_ok key s :
  io_ok s → s.(dk).(intr_on) = false → (next s.(qin).(head) =? s.(qin).(tail)) = false → s.(qin).(not_empty) = NULL →
  ∃ s', input_putc key s = Ok (tt, s') ∧ s'.(dk) = s.(dk) ∧ s'.(keyboard) = s.(keyboard) ∧ s'.(qin).(not_empty) = NULL.
Proof.
  intros Hok Hi Hf Hw. unfold input_putc. rewrite run_level, Hi, run_qASSERT, run_full by done. cbn [queue].
  rewrite run_qASSERT by by rewrite Hf. rewrite (run_bind _ _ _ _ _ (put_ok QIn key s (ok_in _ Hok) Hi Hf Hw)).
  cbn [queue with_q]. set (s1 := mk_dst _ _ _ _ _ _ _). rewrite (run_bind _ _ s1 tt s1) by done.
  destruct (notify_ok s1 Hi) as [u ->]. eexists. split; [reflexivity|]. done.
Qed.

(** What the keyboard makes of one scancode without a prefix: the shift keys
    afterwards, and the character pressed. *)
Definition decode (k : kbd) (sc : Z) : kbd * option Z :=
  let shift := k.(left_shift) || k.(right_shift) in
  let alt := k.(left_alt) || k.(right_alt) in
  let ctrl := k.(left_ctrl) || k.(right_ctrl) in
  let release := negb (Z.land sc 128 =? 0) in
  let code := Z.land sc 4294967167 in
  if code =? 58 then (if release then k else set_caps (negb k.(caps_lock)) k, None)
  else match map_any shift code with
       | Some c => (k, if release then None else Some (key_char shift alt ctrl k.(caps_lock) c))
       | None => (set_shift_key code (negb release) k, None)
       end.

(** The interrupt of one byte. *)
Definition stroke (sc : Z) : Q (option Z) := mod_kbd (set_scancodes [sc]);; keyboard_interrupt.

Fixpoint type (l : list Z) : Q (list Z) :=
  match l with
  | [] => mret []
  | sc :: l => o ← stroke sc; r ← type l; mret (option_list o ++ r)
  end.

(** A state in which a handler runs and a key would be taken. *)
Record typing (s : dst) (n : nat) : Prop := {
  ty_ok : io_ok s;
  ty_intr : s.(dk).(intr_on) = false;
  ty_room : (length (contents s.(qin)) + n <= 63)%nat;
  ty_waiter : s.(qin).(not_empty) = NULL }.

Definition no_alt (k : kbd) : Prop := k.(left_alt) || k.(right_alt) = false.

Definition key_count (n : Z) : Z := i64 (n + 1).
Definition counted (count : Z → Z) (o : option Z) (k : kbd) : kbd := if o then set_key_cnt (count k.(key_cnt)) k else k.

Lemma stroke_ok s n sc k o :
  decode (set_scancodes [] s.(keyboard)) sc = (k, o) → typing s (length (option_list o) + n) → sc ≠ 224 →
  no_alt s.(keyboard) →
  ∃ s', stroke sc s = Ok (o, s') ∧ typing s' n ∧ s'.(keyboard) = counted key_count o k.
Proof.
  intros Hdec [Hok Hi Hr Hw] Hsc Ha. revert Hdec Hr. unfold stroke. unfold mod_kbd at 1. rewrite run_modify. set (s0 := with_kbd _ s).
  unfold keyboard_interrupt. rewrite run_gets. set (k0 := keyboard s0).
  rewrite (run_bind read_scancode _ s0 sc (with_kbd (set_scancodes [] s.(keyboard)) s)) by by destruct s.
  rewrite (proj2 (Z.eqb_neq sc 224)) by done. set (s1 := with_kbd (set_scancodes [] (keyboard s)) s).
  rewrite (run_bind _ _ s1 sc s1) by done.
  set (k1 := set_scancodes [] (keyboard s)). unfold decode.
  change (left_shift k0) with (left_shift k1). change (right_shift k0) with (right_shift k1).
  change (left_alt k0) with (left_alt k1). change (right_alt k0) with (right_alt k1).
  change (left_ctrl k0) with (left_ctrl k1). change (right_ctrl k0) with (right_ctrl k1).
  assert (Hok' : ∀ k, io_ok (with_kbd k s)) by (intros k'; destruct Hok; by split).
  assert (Hty : ∀ k, (length (contents s.(qin)) + n <= 63)%nat → typing (with_kbd k s) n) by by split.
  destruct (_ =? 58).
  { intros [= <- <-] Hr. destruct (negb (Z.land sc 128 =? 0)); cbn [negb when]; (eexists; split; [reflexivity|]; split; [by apply Hty|done]). }
  destruct (map_any _ _) as [c|]; [|intros [= <- <-] Hr; eexists; split; [reflexivity|]; split; [by apply Hty|done]].
  destruct (negb (Z.land sc 128 =? 0)); intros [= <- <-] Hr; [eexists; split; [reflexivity|]; split; [by apply Hty|done]|].
  assert (Ha' : left_alt k1 || right_alt k1 = false) by done. rewrite Ha', andb_false_r, run_gets.
  change (caps_lock (keyboard s1)) with (caps_lock k1). set (c' := key_char _ _ _ _ _).
  assert (Hf : (next (head (qin s)) =? tail (qin s)) = false).
  { apply not_true_is_false. intros Hf. apply (full_spec _ (ok_in _ Hok)) in Hf. cbn in Hr. lia. }
  rewrite run_input_full by done. change (qin s1) with (qin s). rewrite Hf. unfold mod_kbd. rewrite run_modify.
  set (s2 := with_kbd _ s1). pose proof (Hok' (keyboard s2)) as Hok2.
  destruct (input_putc_ok c' s2 Hok2 Hi Hf Hw) as (s3 & E3 & Hd & Hk & Hw3). rewrite (run_bind _ _ _ _ _ E3).
  exists s3. unfold no_alt in Ha. rewrite Ha. split; [done|]. apply input_putc_trans in E3. destruct (E3 Hok2) as (Hok3 & Hc3 & _).
  split; [|by rewrite Hk]. split; [done|by rewrite Hd| |done].
  cbn [app option_list] in *. rewrite <- Hc3, length_app. cbn in *. change (qin s2) with (qin s). lia.
Qed.

(** A sequence of scancodes, none of them a prefix or with Alt. *)
Fixpoint decode_all (count : Z → Z) (k : kbd) (l : list Z) : option (kbd * list Z) :=
  match l with
  | [] => Some (k, [])
  | sc :: l =>
      if (sc =? 224) || (k.(left_alt) || k.(right_alt)) then None
      else let '(k, o) := decode (set_scancodes [] k) sc in
           '(k, cs) ← decode_all count (counted count o k) l; Some (k, option_list o ++ cs)
  end.

Lemma type_ok l s k cs :
  decode_all key_count s.(keyboard) l = Some (k, cs) → typing s (length cs) →
  ∃ s', type l s = Ok (cs, s') ∧ s'.(keyboard) = k ∧ contents s'.(qin) = contents s.(qin) ++ cs ∧ io_ok s'.
Proof.
  revert s k cs. induction l as [|sc l IH]; intros s k cs Hd Ht; cbn [decode_all type] in *.
  { injection Hd as <- <-. exists s. rewrite app_nil_r. split; [done|]. split; [done|]. split; [done|apply Ht]. }
  destruct ((sc =? 224) || _) eqn:E; [done|]. apply orb_false_iff in E as [E1%Z.eqb_neq E2].
  destruct (decode _ sc) as [k1 o] eqn:Ed. destruct (decode_all key_count (counted key_count o k1) l) as [[k2 cs']|] eqn:Ea; cbn in Hd; [|done].
  injection Hd as <- <-. rewrite length_app in Ht. destruct (stroke_ok s _ sc k1 o Ed Ht E1 E2) as (s1 & Es & Ht1 & Hk1).
  rewrite (run_bind _ _ _ _ _ Es). rewrite <- Hk1 in Ea. destruct (IH s1 k2 cs' Ea Ht1) as (s2 & E2' & Hk2 & Hc2 & Hok2).
  rewrite (run_bind _ _ _ _ _ E2'). exists s2. split; [done|]. split; [done|]. split; [|done]. rewrite Hc2, app_assoc. f_equal.
  unfold stroke in Es. apply run_bind_inv in Es as (u & s0 & R & Es). apply mod_kbd_quiet in R. apply keyboard_interrupt_trans in Es.
  pose proof (trans_quiet_l _ _ _ _ _ _ R Es (ty_ok _ _ Ht)) as (_ & Hc & _). by rewrite Hc.
Qed.

(** The key that makes a character, and whether Shift has to be down. *)
Definition find_key (c : Z) : option (bool * Z) :=
  let makes shift code := bool_decide (key_char shift false false false <$> map_any shift code = Some c) in
  match List.find (makes false) (seqZ 1 88), List.find (makes true) (seqZ 1 88) with
  | Some k, _ => Some (false, k)
  | None, Some k => Some (true, k)
  | None, None => None
  end.

(** Press and release the key, between pressing and releasing the left Shift. *)
Definition strokes (c : Z) : list Z :=
  match find_key c with
  | Some (false, k) => [k; k + 128]
  | Some (true, k) => [42; k; k + 128; 42 + 128]
  | None => []
  end.

Lemma strokes_decode count n : Forall (λ c, decode_all count (mk_kbd false false false false false false false n []) (strokes c) =
    Some (mk_kbd false false false false false false false (count n) [], [c])) (seqZ 32 95).
Proof. let l := eval vm_compute in (seqZ 32 95) in change (seqZ 32 95) with l. repeat (constructor; [vm_compute; reflexivity|]). constructor. Qed.

(** The keyboard can type.  For every printable character there is a key that,
    pressed and released with Shift held down if need be, appends this
    character and nothing else to the input buffer, counts one key and leaves no
    shift key down, unless the buffer is full. *)
Theorem keyboard_types c s n :
  32 <= c <= 126 → typing s 1 → s.(keyboard) = mk_kbd false false false false false false false n [] →
  ∃ s', type (strokes c) s = Ok ([c], s') ∧ contents s'.(qin) = contents s.(qin) ++ [c] ∧
    s'.(keyboard) = mk_kbd false false false false false false false (i64 (n + 1)) [] ∧ io_ok s'.
Proof.
  intros Hc Ht Hk. pose proof (strokes_decode key_count n) as Hall. rewrite Forall_forall in Hall.
  specialize (Hall c). rewrite <- Hk in Hall. destruct (type_ok (strokes c) s _ [c] (Hall ltac:(apply elem_of_seqZ; lia)) Ht) as (s' & E & Hk' & Hc' & Hok').
  exists s'. auto.
Qed.

Definition demo_off : dst := with_k (with_intr false demo_dst.(dk)) demo_dst.

Lemma keyboard_types_witness : ∃ s', type (strokes 65) demo_off = Ok ([65], s') ∧ contents s'.(qin) = [65].
Proof.
  destruct (keyboard_types 65 demo_off 0) as (s' & E & Hc & _); [lia| |reflexivity|exists s'; by split].
  split; [|reflexivity|vm_compute; lia|reflexivity]. destruct demo_io_ok as [A B C D F]. by split.
Defined.
