(* ===== verification/Execute.v ===== *)
(** * Starting a process: process_execute() of userprog/process.c

    The bytes of memory and the page pools of ProcessArgs.v, and the scheduler of
    Thread.v.  A thread made by thread_create() starts in kernel_thread() with
    the argument that its first stack frame holds; [e_aux] keeps that argument,
    by the page of the thread.  process_execute() is one step: once the new
    thread is in the ready queue nothing but the return of its identifier is
    left, and no other thread uses the pages it has just taken. *)

From S2P Require Import Prelude Bitmap Vaddr Palloc Thread Synch CString ProcessArgs.

Open Scope Z_scope.

(** ** Definitions *)

Record est := mk_est { e_u : ust; e_k : kst; e_aux : gmap Z Z }.

Abbreviation X := (st est).

Definition on_u {A} (f : U A) : X A := λ s,
  match f s.(e_u) with
  | Ok (a, u) => Ok (a, mk_est u s.(e_k) s.(e_aux))
  | Panic => Panic | Wild => Wild | NoFuel => NoFuel
  end.

Definition on_k {A} (f : K A) : X A := λ s,
  match f s.(e_k) with
  | Ok (a, k) => Ok (a, mk_est s.(e_u) k s.(e_aux))
  | Panic => Panic | Wild => Wild | NoFuel => NoFuel
  end.

(** The string at [p], as strlcpy() reads its source. *)
Fixpoint bytes_from (m : mem) (p : Z) (n : nat) : outcome (list Z) :=
  match n with
  | O => Ok []
  | S n => b ← load8 m p; l ← bytes_from m (p + 1) n; Ok (b :: l)
  end.
Definition string_at (m : mem) (p : Z) : outcome (list Z) :=
  n ← strlen m p; bytes_from m p (Z.to_nat n).

(** thread_create() with the allocation of its page, its name in memory, and the
    argument in the frame of kernel_thread(). *)
Definition create_thread (name prio aux : Z) : X Z :=
  t ← on_u (get_page PAL_ZERO);
  if t =? 0 then mret TID_ERROR
  else
    nm ← on_u (mm (reads (λ m, string_at m name)));
    n ← on_k (thread_create t nm prio);
    modify (λ s, mk_est s.(e_u) s.(e_k) (<[t := aux]> s.(e_aux)));;
    mret n.

Definition process_execute (space file_name : Z) : X Z :=
  fn_copy ← on_u (get_page (PAL_USER + PAL_ZERO + PAL_ASSERT));
  if fn_copy =? 0 then mret TID_ERROR
  else
    on_u (mm (strlcpy fn_copy file_name PGSIZE));;
    on_u (mm (strtok_r file_name space 0));;
    n ← create_thread file_name PRI_DEFAULT fn_copy;
    when (n =? TID_ERROR) (on_u (free_page fn_copy));;
    mret n.

(** ** Pages *)

(** A page that palloc_get_page() may return, from either pool. *)
Definition free_in (s : pst) (kp : Z) : Prop :=
  kernel_page kp ∧ used s kp = false ∧ ∃ user, page_from_pool (get_pool user s) kp = true.

(** A range of memory that no such page overlaps. *)
Definition apart (s : pst) (a n : Z) : Prop :=
  ∀ kp, free_in s kp → a + n <= kp ∨ kp + 4096 <= a.

Definition full (user : bool) (s : pst) : Prop :=
  ∀ i, 0 <= i < bit_cnt (get_pool user s).(used_map) → bit (get_pool user s).(used_map) i = true.

(** Taking one page leaves the others as they are. *)
Record took (s s' : pst) (kp : Z) : Prop := {
  tk_wf : pools_wf s';
  tk_free : free_in s kp;
  tk_used : ∀ q, is_u32 q → used s' q = if among kp 1 q then true else used s q;
  tk_rest : ∀ q, free_in s' q → free_in s q ∧ q ≠ kp }.

Lemma pool_same_size pl pl' p : same_size pl pl' → page_from_pool pl' p = page_from_pool pl p.
Proof. intros [E1 E2]. unfold page_from_pool, bitmap_size. by rewrite E1, E2. Qed.

Lemma get_page_ok s flags :
  pools_wf s.(pools) →
  (∃ kp s', get_page flags s = Ok (kp, s') ∧ kp ≠ 0 ∧ took s.(pools) s'.(pools) kp ∧
     ProcessArgs.frames s.(bytes) s'.(bytes) kp (kp + 4096) ∧
     page_from_pool (get_pool (flag flags PAL_USER) s.(pools)) kp = true ∧
     get_pool (negb (flag flags PAL_USER)) s'.(pools) = get_pool (negb (flag flags PAL_USER)) s.(pools)) ∨
  (full (flag flags PAL_USER) s.(pools) ∧
   get_page flags s = if flag flags PAL_ASSERT then Panic else Ok (0, s)).
Proof.
  intros Hp. unfold get_page.
  destruct (palloc_page_ok s.(pools) flags Hp) as
    [(p1 & kp & E & Hp1 & Hkp & Hfree & Hused & _ & Hfrom & Hsize)|[Hfull E]]; rewrite E; [left|right].
  - pose proof Hkp as [Hr Ha]. unfold PHYS_BASE in Hr.
    rewrite (proj2 (Z.eqb_neq kp 0)) by lia. cbn [negb andb].
    eexists kp, _. split; [reflexivity|]. split; [lia|]. split; [|split; [|split; [done|]]].
    3:{ by apply (palloc_get_other _ _ _ _ _ E). }
    2:{ cbn [bytes]. destruct (flag flags PAL_ZERO); [|apply frames_refl].
        apply frames_write; rewrite ?length_replicate; lia. }
    assert (Hf : free_in s.(pools) kp) by (split; [done|]; eauto).
    split; [done|done|done|].
    { intros q (Hq & Hqu & user & Hqf). pose proof Hq as [Hqr Hqa]. unfold PHYS_BASE in Hqr.
      cbn [pools] in *. rewrite Hused in Hqu by lia. destruct (among kp 1 q) eqn:Ea; [done|].
      split; [split; [done|]; split; [done|]|].
      * exists user. destruct (decide (user = flag flags PAL_USER)) as [->|Hne].
        -- by rewrite (pool_same_size _ _ _ Hsize) in Hqf.
        -- assert (user = negb (flag flags PAL_USER)) as -> by (by destruct user, (flag flags PAL_USER)).
           unfold palloc_get_page in E. by rewrite (palloc_get_other _ _ _ _ _ E) in Hqf.
      * intros ->. by rewrite among_self in Ea. }
  - split; [done|]. destruct (flag flags PAL_ASSERT); [done|]. cbn [Z.eqb negb andb]. by destruct s.
Qed.

Lemma took_apart s s' kp a n : took s s' kp → apart s a n → apart s' a n.
Proof. intros H Ha q Hq. apply Ha. by apply (tk_rest _ _ _ H). Qed.

(** ** Strings *)

Lemma string_at_ok m p l : cstr m p l → string_at m p = Ok l.
Proof.
  intros H. unfold string_at. rewrite (strlen_ok _ _ _ H). cbn [mbind outcome_bind]. rewrite Nat2Z.id.
  destruct H as (Hb & _ & H0 & H1). revert p Hb H0 H1.
  induction l as [|b l IH]; intros p Hb H0 H1; [done|]. cbn [bytes_from length] in *.
  pose proof (Hb 0%nat ltac:(simpl; lia)) as Hb0. rewrite Z.add_0_r in Hb0.
  unfold load8. rewrite u32_small, Hb0 by lia. cbn [deref app lookup list_lookup mbind outcome_bind].
  rewrite IH; [done| |lia|lia]. intros i Hi.
  replace (p + 1 + Z.of_nat i) with (p + Z.of_nat (S i)) by lia. apply (Hb (S i)). simpl in *. lia.
Qed.

(** The part of a command line that strtok_r() leaves: up to the end of the
    first word, leading spaces included. *)
Definition first_part (line : list Z) : list Z :=
  let k := run_len (is_delim SP) line in
  take (k + run_len (λ b, negb (is_delim SP b)) (drop k line)) line.

Lemma first_part_length line : (length (first_part line) <= length line)%nat.
Proof. unfold first_part. rewrite length_take. lia. Qed.

Lemma strtok_first m space p line :
  cstr m space SP → cstr m p line →
  ∃ r m', strtok_r p space 0 m = Ok (r, m') ∧ cstr m' p (first_part line) ∧
    ProcessArgs.frames m m' p (p + Z.of_nat (length line) + 1).
Proof.
  intros Hsp Hl. pose proof Hl as (_ & _ & H0 & H1).
  assert (Hq : (if p =? NUL then 0 else p) = p) by (by rewrite (proj2 (Z.eqb_neq p 0)) by lia).
  pose proof (strtok_r_ok m space p p 0 SP line Hsp Hl Hq) as H.
  destruct (run_len_spec (is_delim SP) line) as (K1 & _). unfold next_token, first_part in *.
  set (k := run_len (is_delim SP) line) in *. destruct (drop k line) as [|c s1] eqn:Ed.
  - apply (f_equal length) in Ed. rewrite length_drop in Ed. simpl in Ed.
    eexists _, m. split; [exact H|]. split; [|apply frames_refl]. cbn [run_len].
    by rewrite take_ge by lia.
  - destruct H as (t & save & E & _ & _ & _ & _ & _ & _ & ->).
    destruct (run_len_spec (λ b, negb (is_delim SP b)) (c :: s1)) as (N1 & _).
    set (n := run_len _ (c :: s1)) in *. rewrite length_take in E.
    assert (Hkn : (k + n <= length line)%nat).
    { apply (f_equal length) in Ed. rewrite length_drop in Ed. lia. }
    replace (n `min` length (c :: s1))%nat with n in E by lia.
    replace (p + Z.of_nat k + Z.of_nat n) with (p + Z.of_nat (k + n)) in E by lia.
    eexists _, _. split; [exact E|]. split; [by apply cstr_cut|]. split.
    + intros x Hx. by rewrite lookup_insert_ne by lia.
    + intros x Hx. destruct (decide (x = p + Z.of_nat (k + n))) as [->|];
        [by rewrite lookup_insert_eq|by rewrite lookup_insert_ne].
Qed.

(** ** The new thread *)

Definition new_thread (page tid : Z) (nm : list Z) (prio : Z) : thread :=
  mk_thread tid THREAD_READY (take 15 nm) (page + PGSIZE - 44) prio 2 0 THREAD_MAGIC [FStart].

(** A thread is added to the scheduler, ready to run, behind the others. *)
Record added (k k' : kst) (page : Z) (th : thread) : Prop := {
  ad_threads : k'.(threads) = <[page := th]> k.(threads);
  ad_ready : k'.(ready_list) = k.(ready_list) ++ [page];
  ad_all : k'.(all_list) = k.(all_list) ++ [page];
  ad_tid : k'.(next_tid) = i32 (k.(next_tid) + 1);
  ad_rest : k'.(running) = k.(running) ∧ k'.(idle_thread) = k.(idle_thread) ∧
    k'.(intr_on) = k.(intr_on) ∧ k'.(in_external_intr) = k.(in_external_intr) ∧
    k'.(semas) = k.(semas) ∧ k'.(holders) = k.(holders) ∧ k'.(conds) = k.(conds) }.

Lemma intr_set_level_ok level k :
  k.(in_external_intr) = false → intr_set_level level k = Ok (k.(intr_on), with_intr level k).
Proof.
  intros Hc. destruct level; [|done]. unfold intr_set_level, intr_enable, intr_get_level, intr_context.
  by rewrite !run_gets, Hc, kASSERT_ok.
Qed.

Lemma run_set_level {B} level k (f : bool → K B) :
  k.(in_external_intr) = false → (intr_set_level level ≫= f) k = f k.(intr_on) (with_intr level k).
Proof. intros Hc. apply run_bind. by apply intr_set_level_ok. Qed.

Lemma run_put {B} t th k (f : unit → K B) :
  (put_thread t th ≫= f) k = f tt (with_threads (<[t := th]> k.(threads)) k).
Proof. done. Qed.

Lemma run_get {B} t th k (f : thread → K B) :
  k.(threads) !! t = Some th → (get_thread t ≫= f) k = f th k.
Proof. intros H. apply run_bind. by apply get_thread_ok. Qed.

Lemma alloc_frame_ok page th n k :
  page ≠ 0 → k.(threads) !! page = Some th → th.(t_magic) = THREAD_MAGIC → n mod 4 = 0 →
  alloc_frame page n k = Ok (th.(stack) - n, with_threads (<[page := mk_thread th.(tid) th.(status)
    th.(name) (th.(stack) - n) th.(priority) th.(next_fd) th.(pagedir) th.(t_magic) th.(Thread.frames)]>
    k.(threads)) k).
Proof.
  intros H0 Ht Hm Hn. unfold alloc_frame. rewrite (run_bind _ _ _ _ _ (is_thread_ok _ _ _ H0 Ht Hm)).
  rewrite !kASSERT_ok by (done || by apply Z.eqb_eq). by rewrite (run_get _ _ _ _ Ht), run_put.
Qed.

Lemma unblock_ok page th k :
  page ≠ 0 → k.(threads) !! page = Some th → th.(t_magic) = THREAD_MAGIC →
  th.(status) = THREAD_BLOCKED → k.(in_external_intr) = false →
  thread_unblock page k = Ok (tt, with_intr k.(intr_on) (with_threads
    (<[page := set_status th THREAD_READY]> k.(threads))
    (with_ready (k.(ready_list) ++ [page]) (with_intr false k)))).
Proof.
  intros H0 Ht Hm Hs Hc. unfold thread_unblock. rewrite (run_bind _ _ _ _ _ (is_thread_ok _ _ _ H0 Ht Hm)).
  rewrite kASSERT_ok by done. rewrite (run_bind _ _ k (intr_on k) (with_intr false k)) by done.
  rewrite (run_get page th) by done. rewrite kASSERT_ok by by apply bool_decide_eq_true.
  rewrite run_gets, run_modify, run_put. by rewrite run_set_level.
Qed.

Lemma thread_create_ok page nm prio k :
  page ≠ 0 → PRI_MIN <= prio <= PRI_MAX → k.(in_external_intr) = false →
  ∃ k', thread_create page nm prio k = Ok (k.(next_tid), k') ∧
    added k k' page (new_thread page k.(next_tid) nm prio).
Proof.
  intros H0 Hp Hc. unfold thread_create. rewrite (proj2 (Z.eqb_neq _ _)) by done.
  set (th0 := mk_thread 0 THREAD_BLOCKED (take 15 nm) (page + PGSIZE) prio 2 0 THREAD_MAGIC []).
  set (k1 := with_intr k.(intr_on) (with_all (k.(all_list) ++ [page]) (with_intr false
    (with_threads (<[page := th0]> k.(threads)) k)))).
  rewrite (run_bind _ _ _ tt k1).
  2:{ unfold init_thread. rewrite kASSERT_ok by (by apply negb_true_iff, Z.eqb_neq).
      rewrite kASSERT_ok by (by rewrite !(proj2 (Z.leb_le _ _)) by lia). rewrite run_put.
      rewrite (run_bind _ _ _ k.(intr_on) (with_intr false (with_threads (<[page := th0]> k.(threads)) k))) by done.
      rewrite run_gets, run_modify. by rewrite run_set_level. }
  rewrite (run_bind _ _ _ k.(next_tid) (with_tid (i32 (k.(next_tid) + 1)) k1)) by done.
  rewrite (run_get page th0) by apply lookup_insert_eq. rewrite run_put.
  do 3 (erewrite run_bind by (apply alloc_frame_ok; [done|apply lookup_insert_eq|done|done])).
  erewrite run_bind by (apply unblock_ok; [done|apply lookup_insert_eq|done|done|done]).
  eexists. split; [reflexivity|]. cbn. split; cbn; [|done..].
  rewrite !insert_insert_eq. do 2 f_equal. unfold new_thread, set_status. cbn. f_equal. lia.
Qed.

Lemma run_u {A B} (f : U A) (g : A → X B) s a u :
  f s.(e_u) = Ok (a, u) → (on_u f ≫= g) s = g a (mk_est u s.(e_k) s.(e_aux)).
Proof. intros E. apply run_bind. unfold on_u. by rewrite E. Qed.

Lemma run_k {A B} (f : K A) (g : A → X B) s a k :
  f s.(e_k) = Ok (a, k) → (on_k f ≫= g) s = g a (mk_est s.(e_u) k s.(e_aux)).
Proof. intros E. apply run_bind. unfold on_k. by rewrite E. Qed.

Lemma run_mem {A B} (f : CString.M A) (g : A → X B) s a m :
  f s.(e_u).(bytes) = Ok (a, m) →
  (on_u (mm f) ≫= g) s = g a (mk_est (mk_ust s.(e_u).(pools) m) s.(e_k) s.(e_aux)).
Proof. intros E. apply run_u. unfold mm. by rewrite E. Qed.

(** Copying a string to a page. *)
Lemma copy_to_page m kp src line :
  kernel_page kp → block m kp 4096 → cstr m src line →
  src + Z.of_nat (length line) + 1 <= kp ∨ kp + 4096 <= src →
  ∃ m', strlcpy kp src PGSIZE m = Ok (Z.of_nat (length line), m') ∧
    ProcessArgs.frames m m' kp (kp + 4096) ∧ cstr m' kp (take 4095 line) ∧ cstr m' src line.
Proof.
  intros [Hk _] Hb Hs Hd. unfold PHYS_BASE in Hk. pose proof Hs as (_ & Hnz & _).
  set (c := take 4095 line). assert (Hc : (length c <= 4095)%nat) by (unfold c; rewrite length_take; lia).
  assert (Hcl : (length c <= length line)%nat) by (unfold c; rewrite length_take; lia).
  assert (F : ProcessArgs.frames m (write_bytes m kp (c ++ [0])) kp (kp + 4096))
    by (apply frames_write; rewrite ?length_app; simpl; lia).
  exists (write_bytes m kp (c ++ [0])). split; [|split; [done|split]].
  - apply (strlcpy_ok m kp src line PGSIZE Hs ltac:(done) ltac:(done)); change (Z.to_nat (PGSIZE - 1)) with 4095%nat.
    + apply (sub_block _ kp (kp + 4096)); fold c; [|lia..]. by replace (kp + 4096 - kp) with 4096 by lia.
    + fold c. lia.
  - split; [apply write_bytes_at|]. split; [by apply Forall_take|]. destruct Hb as (_ & B1 & _). lia.
  - apply (frames_cstr _ _ _ _ _ _ F); [lia|done].
Qed.

Lemma pages_apart a b : kernel_page a → kernel_page b → a ≠ b → a + 4096 <= b ∨ b + 4096 <= a.
Proof. intros [_ Ha] [_ Hb] Hne. zdm. Qed.

Lemma free_page_ok s kp :
  pools_wf s.(pools) → kernel_page kp → used s.(pools) kp = true →
  ∃ s', free_page kp s = Ok (tt, s') ∧ pools_wf s'.(pools) ∧
    (∀ q, is_u32 q → used s'.(pools) q = if among kp 1 q then false else used s.(pools) q) ∧
    ProcessArgs.frames s.(bytes) s'.(bytes) kp (kp + 4096).
Proof.
  intros Hp [Hr Ha] Hu. unfold PHYS_BASE in Hr.
  destruct (palloc_free_page_ok s.(pools) kp Hp ltac:(lia) Ha Hu) as (p' & E & Hp' & Hus & _).
  unfold free_page. rewrite E, (proj2 (Z.eqb_neq kp 0)) by lia. eexists. split; [reflexivity|].
  do 2 (split; [done|]). cbn [bytes]. apply frames_write; rewrite ?length_replicate; lia.
Qed.

Section execute.
Context (space file_name : Z) (s : est) (line : list Z).
Context (Hpools : pools_wf s.(e_u).(pools))
  (Hpages : ∀ kp, free_in s.(e_u).(pools) kp → block s.(e_u).(bytes) kp 4096)
  (Hspace : cstr s.(e_u).(bytes) space SP) (Hspace' : apart s.(e_u).(pools) space 2)
  (Hline : cstr s.(e_u).(bytes) file_name line)
  (Hline' : apart s.(e_u).(pools) file_name (Z.of_nat (length line) + 1))
  (Hctx : s.(e_k).(in_external_intr) = false).

(** Up to the call of thread_create(): the copy of the command line is made, and
    the caller's string ends after its first word. *)
Record copied (u : ust) (fn : Z) : Prop := {
  cp_took : took s.(e_u).(pools) u.(pools) fn;
  cp_user : page_from_pool s.(e_u).(pools).(user_pool) fn = true;
  cp_kernel : u.(pools).(kernel_pool) = s.(e_u).(pools).(kernel_pool);
  cp_copy : cstr u.(bytes) fn (take 4095 line);
  cp_name : cstr u.(bytes) file_name (first_part line);
  cp_rest : ∀ x, x < fn ∨ fn + 4096 <= x →
    x < file_name ∨ file_name + Z.of_nat (length line) < x → u.(bytes) !! x = s.(e_u).(bytes) !! x }.

Lemma execute_copies :
  (∃ u fn, copied u fn ∧ fn ≠ 0 ∧
     process_execute space file_name s =
       (n ← create_thread file_name PRI_DEFAULT fn;
        when (n =? TID_ERROR) (on_u (free_page fn));; mret n) (mk_est u s.(e_k) s.(e_aux))) ∨
  (full true s.(e_u).(pools) ∧ process_execute space file_name s = Panic).
Proof.
  unfold process_execute. destruct (get_page_ok s.(e_u) (PAL_USER + PAL_ZERO + PAL_ASSERT) Hpools) as
    [(fn & u1 & E1 & Hn & T1 & F1 & Hfrom & Hother)|[Hfull E1]]; [left|right].
  2:{ split; [exact Hfull|]. unfold mbind, st_bind, on_u. by rewrite E1. }
  rewrite (run_u _ _ _ _ _ E1), (proj2 (Z.eqb_neq fn 0)) by done.
  pose proof (tk_free _ _ _ T1) as Hf. pose proof Hf as (Hk & _).
  specialize (Hline' _ Hf). specialize (Hspace' _ Hf).
  destruct (copy_to_page u1.(bytes) fn file_name line Hk) as (m2 & E2 & F2 & C2 & L2); [|..|lia|].
  { apply (frames_block _ _ _ _ _ _ F1). by apply Hpages. }
  { apply (frames_cstr _ _ _ _ _ _ F1); [lia|done]. }
  rewrite (run_mem (strlcpy fn file_name PGSIZE) _ (mk_est u1 s.(e_k) s.(e_aux)) _ _ E2).
  destruct (strtok_first m2 space file_name line) as (r & m3 & E3 & L3 & F3); [|done|].
  { apply (frames_cstr _ _ _ _ _ _ F2); [simpl; lia|]. apply (frames_cstr _ _ _ _ _ _ F1); [simpl; lia|done]. }
  rewrite (run_mem (strtok_r file_name space 0) _ (mk_est (mk_ust u1.(pools) m2) s.(e_k) s.(e_aux)) _ _ E3).
  exists (mk_ust u1.(pools) m3), fn. split; [|done]. split; [done..| |done|].
  - cbn [bytes]. apply (frames_cstr _ _ _ _ _ _ F3); [|done]. rewrite length_take. lia.
  - intros x H1 H2. cbn [bytes]. destruct F1 as [F1 _], F2 as [F2 _], F3 as [F3 _].
    rewrite F3, F2, F1 by lia. done.
Qed.
End execute.

(** thread_create() with a page for the thread, or with none left. *)
Lemma create_thread_ok name prio aux s nm :
  pools_wf s.(e_u).(pools) → s.(e_k).(in_external_intr) = false → PRI_MIN <= prio <= PRI_MAX →
  cstr s.(e_u).(bytes) name nm → apart s.(e_u).(pools) name (Z.of_nat (length nm) + 1) →
  (∃ t u k, create_thread name prio aux s =
       Ok (s.(e_k).(next_tid), mk_est u k (<[t := aux]> s.(e_aux))) ∧
     took s.(e_u).(pools) u.(pools) t ∧ page_from_pool s.(e_u).(pools).(kernel_pool) t = true ∧
     ProcessArgs.frames s.(e_u).(bytes) u.(bytes) t (t + 4096) ∧
     added s.(e_k) k t (new_thread t s.(e_k).(next_tid) nm prio)) ∨
  (full false s.(e_u).(pools) ∧ create_thread name prio aux s = Ok (TID_ERROR, s)).
Proof.
  intros Hp Hc Hpr Hn Ha. unfold create_thread.
  destruct (get_page_ok s.(e_u) PAL_ZERO Hp) as
    [(t & u & E & H0 & T & F & Hfrom & _)|[Hfull E]]; [left|right].
  - rewrite (run_u _ _ _ _ _ E), (proj2 (Z.eqb_neq t 0)) by done.
    specialize (Ha _ (tk_free _ _ _ T)).
    assert (Hn' : cstr u.(bytes) name nm) by (apply (frames_cstr _ _ _ _ _ _ F); [lia|done]).
    rewrite (run_mem _ _ (mk_est u s.(e_k) s.(e_aux)) nm u.(bytes))
      by (unfold reads; cbn [e_u]; by rewrite (string_at_ok _ _ _ Hn')).
    destruct (thread_create_ok t nm prio s.(e_k) H0 Hpr Hc) as (k & Ek & Hk).
    rewrite (run_k _ _ (mk_est (mk_ust u.(pools) u.(bytes)) s.(e_k) s.(e_aux)) _ _ Ek).
    rewrite run_modify. exists t, u, k. cbn [e_u e_k e_aux]. by destruct u.
  - rewrite (run_u _ _ _ _ _ E). split; [exact Hfull|]. by destruct s.
Qed.

(** ** Properties *)


(** A machine with one free page in each pool, running the initial thread. *)
Definition exec_bytes : mem :=
  write_bytes (write_bytes (write_bytes ∅ 3222274048 (replicate (Z.to_nat 12288) 0))
    3222274048 (demo_line ++ [0])) 3221291008 [32; 0].
Definition exec_kst : kst :=
  mk_kst {[ 3221237760 := mk_thread 1 THREAD_RUNNING [109] 3221241856 31 2 0 THREAD_MAGIC [] ]}
    3221237760 [] [3221237760] 0 3221237760 true false false 0 0 0 0 0 2 ∅ ∅ ∅.
Definition exec_est : est := mk_est (mk_ust demo_pools exec_bytes) exec_kst ∅.

Lemma exec_pool_page kp : free_in demo_pools kp → 3222274048 + 4096 <= kp ∧ kp + 4096 <= 3222274048 + 12288.
Proof.
  intros ([Hr Ha] & Hu & user & Hf). unfold PHYS_BASE in Hr.
  rewrite from_pool_range in Hf; [|by destruct user; repeat (split || constructor)|lia].
  apply andb_true_iff in Hf as [H1%Z.leb_le H2%Z.ltb_lt]. unfold page_at in *.
  destruct user; cbn [get_pool demo_pools kernel_pool user_pool pool_base used_map bit_cnt] in H1, H2; [zdm|].
  assert (kp = 3222274048 ∨ kp = 3222278144) as [-> | ->] by zdm; [by vm_compute in Hu|lia].
Qed.

