(* ===== verification/LoadFrame.v ===== *)
(** * What loading an executable leaves alone

    load() takes pages and gives back only pages that it has taken itself: the
    pages in use before are in use afterwards.  [Ext] says this of an operation
    on a state with page pools, [ExtBut] of an operation that may also give back
    the page [kp]; the instances follow the structure of the code. *)

From S2P Require Import Prelude Bitmap Vaddr Palloc Pagedir FsState Loader.

Open Scope Z_scope.

(** ** Pools that only fill up *)

Record same_pools (p p' : pst) : Prop := {
  sp_wf : pools_wf p → pools_wf p';
  sp_kernel : same_size p.(kernel_pool) p'.(kernel_pool);
  sp_user : same_size p.(user_pool) p'.(user_pool) }.

Record extends (p p' : pst) : Prop := {
  ex_same : same_pools p p';
  ex_used : ∀ q, kernel_page q → used p q = true → used p' q = true }.

#[export] Instance same_pools_preorder : PreOrder same_pools.
Proof.
  split; [by intros p|]. intros p1 p2 p3 [A1 [A2 A3] [A4 A5]] [B1 [B2 B3] [B4 B5]].
  split; [auto|split; congruence|split; congruence].
Qed.

#[export] Instance extends_preorder : PreOrder extends.
Proof.
  split; [intros p; by split|]. intros p1 p2 p3 [A1 A2] [B1 B2]. split; [by etrans|auto].
Qed.

Lemma extends_pmem m p : extends p (with_pmem m p).
Proof. split; [split; [by destruct p|done|done]|by destruct p]. Qed.

Lemma extends_get p flags kp p' :
  pools_wf p → palloc_get_page flags p = Ok (kp, p') →
  extends p p' ∧ (kp = 0 ∨ kernel_page kp ∧ used p kp = false ∧ used p' kp = true).
Proof.
  intros Hp E. destruct (palloc_page_ok p flags Hp) as
    [(p1 & kp1 & E1 & Hp1 & Hk & Hf & Hu & _ & _ & Hs)|[_ E1]]; rewrite E in E1.
  - injection E1 as <- <-. unfold palloc_get_page in E. apply palloc_get_other in E as Ho. split.
    + split; [split; [done|..]|].
      * by destruct (flag flags PAL_USER); cbn in *; [rewrite Ho|].
      * by destruct (flag flags PAL_USER); cbn in *; [|rewrite Ho].
      * intros q Hq Hqu. rewrite Hu by by apply kernel_page_u32. by destruct (among _ _ _).
    + right. split; [done|]. split; [done|]. rewrite Hu by by apply kernel_page_u32. by rewrite among_self.
  - destruct (flag flags PAL_ASSERT); [done|]. injection E1 as <- <-. split; [done|by left].
Qed.

(** ** Operations *)

Class Ext {S} (pl : S → pst) {A} (m : st S A) : Prop :=
  ext : ∀ s a s', pools_wf (pl s) → m s = Ok (a, s') → extends (pl s) (pl s').

Class ExtBut (kp : Z) {S} (pl : S → pst) {A} (m : st S A) : Prop :=
  ext_but : ∀ s a s', pools_wf (pl s) → kernel_page kp → used (pl s) kp = true → m s = Ok (a, s') →
    same_pools (pl s) (pl s') ∧
    ∀ q, kernel_page q → q ≠ kp → used (pl s) q = true → used (pl s') q = true.

#[export] Instance ext_ret {S} (pl : S → pst) {A} (a : A) : Ext pl (mret a).
Proof. by intros s b s' _ [= <- <-]. Qed.

#[export] Instance ext_bind {S} (pl : S → pst) {A B} (m : st S A) (f : A → st S B) :
  Ext pl m → (∀ a, Ext pl (f a)) → Ext pl (m ≫= f).
Proof.
  intros Hm Hf s b s2 Hp H. apply run_bind_inv in H as (a & s1 & H1 & H2). apply Hm in H1; [|done].
  etrans; [done|]. eapply Hf; [|done]. by apply (sp_wf _ _ (ex_same _ _ H1)).
Qed.

#[export] Instance ext_gets {S} (pl : S → pst) {A} (f : S → A) : Ext pl (gets f).
Proof. by intros s b s' _ [= <- <-]. Qed.

#[export] Instance ext_lift {S} (pl : S → pst) {A} (m : outcome A) : Ext pl (lift m).
Proof. intros s b s' _ H. unfold lift in H. by apply bind_Ok in H as (a & _ & [= _ <-]). Qed.

Lemma ext_modify {S} (pl : S → pst) (f : S → S) : (∀ s, extends (pl s) (pl (f s))) → Ext pl (modify f).
Proof. intros Hf s b s' _ [= <- <-]. apply Hf. Qed.

#[export] Instance ext_when {S} (pl : S → pst) c (m : st S unit) : Ext pl m → Ext pl (when c m).
Proof. intros Hm. destruct c; [done|apply ext_ret]. Qed.

#[export] Instance ext_loop {S} (pl : S → pst) {X R} n (body : X → st S (X + R)) l :
  (∀ l, Ext pl (body l)) → Ext pl (loop_st n body l).
Proof.
  intros Hb. revert l. induction n as [|n IH]; intros l s r s' Hp H; [done|].
  unfold loop_st in H. cbn [loop] in H. apply bind_Ok in H as ([[l1 s1]|[x s1]] & H1 & H2);
    apply bind_Ok in H1 as ([[l2|x'] s2] & H1 & H3); simplify_eq; apply Hb in H1; try done.
  etrans; [done|]. eapply IH; [|done]. by apply (sp_wf _ _ (ex_same _ _ H1)).
Qed.

#[export] Instance but_ext kp {S} (pl : S → pst) {A} (m : st S A) : Ext pl m → ExtBut kp pl m.
Proof. intros Hm s a s' Hp _ _ H. apply Hm in H as [H1 H2]; [|done]. split; [done|auto]. Qed.

Lemma but_bind kp {S} (pl : S → pst) {A B} (m : st S A) (f : A → st S B) :
  Ext pl m → (∀ a, ExtBut kp pl (f a)) → ExtBut kp pl (m ≫= f).
Proof.
  intros Hm Hf s b s2 Hp Hk Hu H. apply run_bind_inv in H as (a & s1 & H1 & H2).
  apply Hm in H1 as [E1 U1]; [|done].
  destruct (Hf a s1 b s2 (sp_wf _ _ E1 Hp) Hk (U1 _ Hk Hu) H2) as [E2 U2]. split; [by etrans|auto].
Qed.

(** Go through the structure of an operation. *)
Ltac ext := intros; cbv zeta; repeat
  first [ apply _ | apply ext_bind; intros | apply ext_loop; intros | apply ext_when
        | apply ext_modify; intros; first [done | apply extends_pmem]
        | match goal with |- Ext _ (match ?x with _ => _ end) => destruct x end ].
Ltac ext_give := intros; cbv zeta; repeat
  first [ apply _ | apply but_bind; [ext|intros]
        | match goal with |- ExtBut _ _ (match ?x with _ => _ end) => destruct x end ].

Definition lpools (s : lst) : pst := s.(l_pg).(palloc).

#[export] Instance ext_get_page flags : Ext palloc (use_palloc (palloc_get_page flags)).
Proof.
  intros s a s' Hp H. unfold use_palloc in H.
  destruct (palloc_get_page flags _) as [[kp p]| | |] eqn:E; simplify_eq. by apply extends_get in E as [].
Qed.

#[export] Instance ext_in_pg {A} (m : G A) : Ext palloc m → Ext lpools (in_pg m).
Proof.
  intros Hm s a s' Hp H. unfold in_pg in H. destruct (m _) as [[b g]| | |] eqn:E; simplify_eq.
  by apply Hm in E.
Qed.

#[export] Instance ext_in_fs {A} (m : M A) : Ext lpools (in_fs m).
Proof. intros s a s' Hp H. unfold in_fs in H. by destruct (m _) as [[b g]| | |]; simplify_eq. Qed.

Lemma give_back_but kp {A} (a : A) : ExtBut kp lpools (in_pg (use_palloc (palloc_free_page kp));; mret a).
Proof.
  intros s b s' Hp Hk Hu H. apply run_bind_inv in H as ([] & s1 & H & [= _ <-]).
  pose proof Hk as [_ Ha]. unfold in_pg, use_palloc in H.
  destruct (palloc_free_page_ok (lpools s) kp Hp (kernel_page_u32 _ Hk) Ha Hu) as (p' & E & Hp' & Hu' & _ & _ & S1 & S2).
  fold (lpools s) in H. rewrite E in H. injection H as <-. cbn.
  split; [by split|]. intros q Hq Hne Hqu. rewrite Hu' by by apply kernel_page_u32.
  destruct (among kp 1 q) eqn:Ea; [|done]. by apply among_page in Ea.
Qed.
#[export] Existing Instance give_back_but.

(** Taking a page, working with it, and giving it back or not. *)
Lemma ext_borrow {A} flags (f : Z → L A) :
  Ext lpools (f 0) → (∀ kp, ExtBut kp lpools (f kp)) →
  Ext lpools (kp ← in_pg (use_palloc (palloc_get_page flags)); f kp).
Proof.
  intros H0 Hf s b s2 Hp H. apply run_bind_inv in H as (kp & s1 & H1 & H2).
  unfold in_pg, use_palloc in H1. fold (lpools s) in H1.
  destruct (palloc_get_page flags (lpools s)) as [[kp' p]| | |] eqn:E; simplify_eq. set (s1 := mk_lst _ _ _) in H2.
  destruct (extends_get _ _ _ _ Hp E) as [[E1 U1] [->|(Hk & Hf1 & Hu1)]].
  - etrans; [|eapply H0; [|exact H2]]; [by split|]. by apply (sp_wf _ _ E1).
  - destruct (Hf kp s1 b s2 (sp_wf _ _ E1 Hp) Hk Hu1 H2) as [E2 U2]. split; [by etrans|].
    intros q Hq Hqu. apply U2; [done|congruence|by apply U1].
Qed.

(** ** The loader *)

#[export] Instance ext_load32 a : Ext palloc (load32 a).
Proof. unfold load32. ext. Qed.
#[export] Instance ext_store32 a v : Ext palloc (store32 a v).
Proof.
  intros s b s' Hp H. unfold store32 in H. rewrite run_gets in H. apply run_bind_inv in H as (w & s1 & H1 & H).
  unfold lift in H1. apply bind_Ok in H1 as (w' & _ & [= <- <-]). injection H as _ <-. apply extends_pmem.
Qed.
#[export] Instance ext_lookup_page pd va c : Ext palloc (lookup_page pd va c).
Proof. unfold lookup_page. ext. Qed.
#[export] Instance ext_set_page i r pd up kp w : Ext palloc (pagedir_set_page i r pd up kp w).
Proof. unfold pagedir_set_page. ext. Qed.
#[export] Instance ext_pd_get_page pd va : Ext palloc (pagedir_get_page pd va).
Proof. unfold pagedir_get_page. ext. Qed.
#[export] Instance ext_activate i pd : Ext palloc (pagedir_activate i pd).
Proof. unfold pagedir_activate. ext. Qed.
#[export] Instance ext_create i : Ext palloc (pagedir_create i).
Proof.
  intros s a s' Hp H. unfold pagedir_create in H. apply run_bind_inv in H as (pd & s1 & H1 & H).
  apply ext_get_page in H1; [|done]. etrans; [done|]. destruct (pd =? 0); [by injection H as _ <-|].
  rewrite run_gets in H. apply run_bind_inv in H as (w & s2 & H2 & H).
  unfold lift in H2. apply bind_Ok in H2 as (w' & _ & [= <- <-]). rewrite run_modify in H.
  injection H as _ <-. apply extends_pmem.
Qed.
#[export] Instance ext_fill kp bs : Ext palloc (fill_page kp bs).
Proof. unfold fill_page. ext. Qed.
#[export] Instance ext_install i r up kp w : Ext lpools (install_page i r up kp w).
Proof. unfold install_page, get_pagedir. ext. Qed.

#[export] Instance ext_load_page i r file wr l : Ext lpools (load_page i r file wr l).
Proof.
  destruct l as [[rb zb] up]. unfold load_page. destruct (_ || _); [|ext]. cbv zeta.
  apply ext_borrow; [ext|]. ext_give.
Qed.
#[export] Instance ext_load_segment i r f o u rb zb w : Ext lpools (load_segment i r f o u rb zb w).
Proof. unfold load_segment. ext. Qed.
#[export] Instance ext_validate ph f : Ext lpools (validate_segment ph f).
Proof. unfold validate_segment. ext. Qed.
#[export] Instance ext_load_phdr i r f ph : Ext lpools (load_phdr i r f ph).
Proof. unfold load_phdr. ext. Qed.
#[export] Instance ext_read_phdrs i r f o n : Ext lpools (read_phdrs i r f o n).
Proof. unfold read_phdrs. ext. Qed.
#[export] Instance ext_setup_stack i r : Ext lpools (setup_stack i r).
Proof. unfold setup_stack. apply ext_borrow; [ext|]. ext_give. Qed.
#[export] Instance ext_load_file i r f : Ext lpools (load_file i r f).
Proof. unfold load_file. ext. Qed.
#[export] Instance ext_load i r name : Ext lpools (load i r name).
Proof. unfold load, set_pagedir, process_activate, get_pagedir. ext. Qed.
