(* ===== verification/StartProcess.v ===== *)
(** * The first steps of a process: start_process() of userprog/process.c

    start_process() runs in the new thread.  It calls load() (Loader.v), which
    works on the words of pages, and functions on strings, which work on bytes
    (CString.v, ProcessArgs.v).  Pages that hold strings are in the bytes of the
    state; page tables and the pages of the process are in the words of the page
    store.  For the call of setup_stack_arguments(), which writes to the user
    stack, the pages of the process are shown as bytes at their user addresses,
    and what it wrote is stored in their words afterwards. *)

From S2P Require Import Prelude Selectors Descriptors.
From S2P Require Import InodeIO File Filesys.
From S2P Require Import Bitmap Vaddr UserMem Palloc Pagedir Exception FsState Loader.
From S2P Require Import CString ProcessArgs Execute LoadFrame.

Open Scope Z_scope.

Abbreviation frames := ProcessArgs.frames (only parsing).
Abbreviation word_at := ProcessArgs.word_at (only parsing).

(** ** Definitions *)

(** *** User memory as bytes *)

(** The numbers of the pages that a page directory maps. *)
Definition user_pages (m : gmap Z (list Z)) (pd : Z) : list Z :=
  seqZ 0 768 ≫= λ k,
    match m !! pd ≫= λ w, pd_tab w k with
    | Some _ => filter (λ v, is_Some (frame_of m pd (4096 * v))) (seqZ (1024 * k) 1024)
    | None => []
    end.

Definition page_bytes (m : gmap Z (list Z)) (pd v : Z) : list Z :=
  (λ x, default 0 (ubyte m pd x)) <$> seqZ (4096 * v) 4096.

Definition user_view (m : gmap Z (list Z)) (pd : Z) (bs : mem) : mem :=
  foldr (λ v b, write_bytes b (4096 * v) (page_bytes m pd v)) bs (user_pages m pd).

(** Storing the bytes of page [v] in the page that is mapped there. *)
Definition store_page (pd : Z) (bs : mem) (v : Z) (m : gmap Z (list Z)) : gmap Z (list Z) :=
  match frame_of m pd (4096 * v) with
  | Some p => <[p := words_of 1024 ((λ x, u8 (default 0 (bs !! x))) <$> seqZ (4096 * v) 4096)]> m
  | None => m
  end.

Definition store_view (pd : Z) (bs : mem) (m : gmap Z (list Z)) : gmap Z (list Z) :=
  foldr (store_page pd bs) m (user_pages m pd).

(** *** The state *)

Record sst := mk_sst { x_u : ust; x_fs : fs; x_cr3 : Z; x_flushes : Z; x_pd : Z }.

Abbreviation T := (st sst).

Definition on_bytes {A} (f : U A) : T A := λ s,
  match f s.(x_u) with
  | Ok (a, u) => Ok (a, mk_sst u s.(x_fs) s.(x_cr3) s.(x_flushes) s.(x_pd))
  | Panic => Panic | Wild => Wild | NoFuel => NoFuel
  end.

Definition loader_state (s : sst) : lst :=
  mk_lst s.(x_fs) (mk_pgst s.(x_u).(pools) s.(x_cr3) s.(x_flushes)) s.(x_pd).

Definition on_words {A} (f : L A) : T A := λ s,
  match f (loader_state s) with
  | Ok (a, l) =>
      Ok (a, mk_sst (mk_ust l.(l_pg).(palloc) s.(x_u).(bytes)) l.(l_fs) l.(l_pg).(cr3)
               l.(l_pg).(flushes) l.(l_pagedir))
  | Panic => Panic | Wild => Wild | NoFuel => NoFuel
  end.

(** Code that uses user addresses. *)
Definition on_user {A} (f : U A) : T A := λ s,
  let p := s.(x_u).(pools) in
  match f (mk_ust p (user_view p.(pmem) s.(x_pd) s.(x_u).(bytes))) with
  | Ok (a, u) =>
      Ok (a, mk_sst (mk_ust (with_pmem (store_view s.(x_pd) u.(bytes) u.(pools).(pmem)) u.(pools)) u.(bytes))
               s.(x_fs) s.(x_cr3) s.(x_flushes) s.(x_pd))
  | Panic => Panic | Wild => Wild | NoFuel => NoFuel
  end.

(** *** start_process() *)

(** The frame that intr_exit() restores; the general registers are zero. *)
Record user_frame := mk_if {
  if_gs : Z; if_fs : Z; if_es : Z; if_ds : Z; if_ss : Z; if_cs : Z;
  if_eflags : Z; if_eip : Z; if_esp : Z }.

Definition FLAG_MBS : Z := 2.
Definition FLAG_IF : Z := 512.

Definition initial_if (eip esp : Z) : user_frame :=
  mk_if SEL_UDSEG SEL_UDSEG SEL_UDSEG SEL_UDSEG SEL_UDSEG SEL_UCSEG (Z.lor FLAG_IF FLAG_MBS) eip esp.

Section start.
Context (init_page_dir init_ram_pages space : Z).

(** The frame the process starts with, or [None] when thread_exit() is called. *)
Definition start_process (file_name : Z) : T (option user_frame) :=
  fn_copy ← on_bytes (get_page (PAL_ASSERT + PAL_ZERO + PAL_USER));
  if fn_copy =? 0 then
    on_bytes (free_page file_name);; mret (Some (initial_if 0 0))
  else
    on_bytes (mm (strlcpy fn_copy file_name PGSIZE));;
    on_bytes (mm (strtok_r fn_copy space 0));;
    name ← on_bytes (mm (reads (λ m, string_at m fn_copy)));
    success ← on_words (load init_page_dir init_ram_pages name);
    match success with
    | None => mret None
    | Some (eip, esp) =>
        '(_, esp) ← on_user (setup_stack_arguments space esp file_name);
        on_bytes (free_page file_name);;
        mret (Some (initial_if eip esp))
    end.
End start.

(** ** User memory as bytes *)

Lemma user_pages_elem m pd v :
  v ∈ user_pages m pd ↔ 0 <= v < 786432 ∧ is_Some (frame_of m pd (4096 * v)).
Proof.
  unfold user_pages. rewrite list_elem_of_bind. split.
  - intros (k & Hv & Hk%elem_of_seqZ). destruct (m !! pd ≫= _); [|by apply elem_of_nil in Hv].
    apply list_elem_of_filter in Hv as [Hf Hv%elem_of_seqZ]. split; [lia|done].
  - intros [Hv Hf]. exists (v / 1024). split; [|apply elem_of_seqZ; zdm].
    assert (Ht : is_Some (m !! pd ≫= λ w, pd_tab w (v / 1024))).
    { destruct Hf as [p Hf]. unfold frame_of, pte_at in Hf. destruct (m !! pd) as [w|]; [|done]. cbn in Hf |- *.
      replace (4096 * v / 4194304) with (v / 1024) in Hf by zdm. destruct (pd_tab w (v / 1024)); [done|done]. }
    destruct Ht as [? ->]. apply list_elem_of_filter. split; [done|]. apply elem_of_seqZ. zdm.
Qed.

Lemma user_page_of m pd x : user_va x → is_Some (frame_of m pd x) ↔ x / 4096 ∈ user_pages m pd.
Proof.
  unfold user_va, PHYS_BASE. intros Hx. rewrite user_pages_elem.
  rewrite (frame_of_same_page m pd (4096 * (x / 4096)) x) by zdm. split; [|by intros [_ ?]].
  intros H. split; [zdm|done].
Qed.

Lemma page_bytes_lookup (f : Z → Z) v x :
  x / 4096 = v → (f <$> seqZ (4096 * v) 4096) !! Z.to_nat (x - 4096 * v) = Some (f x).
Proof.
  intros <-. rewrite list_lookup_fmap, (proj2 (lookup_seqZ _ _ _ x)) by zdm. done.
Qed.

(** The bytes of mapped pages are those of the process, the others are kept. *)
Lemma user_view_lookup m pd bs x :
  user_view m pd bs !! x =
    if decide (x / 4096 ∈ user_pages m pd) then Some (default 0 (ubyte m pd x)) else bs !! x.
Proof.
  unfold user_view. induction (user_pages m pd) as [|v l IH]; cbn [foldr]; [done|].
  assert (Hl : length (page_bytes m pd v) = 4096%nat) by (unfold page_bytes; by rewrite length_fmap, length_seqZ).
  rewrite write_bytes_lookup, Hl.
  destruct (decide (x / 4096 = v)) as [E|E].
  - rewrite decide_True by zdm. rewrite decide_True by (rewrite E; apply list_elem_of_here).
    unfold page_bytes. by rewrite (page_bytes_lookup (λ x, default 0 (ubyte m pd x))).
  - rewrite decide_False by zdm. rewrite IH. apply decide_ext. rewrite elem_of_cons. tauto.
Qed.

Definition shown (bs : mem) (x : Z) : option Z := Some (u8 (default 0 (bs !! x))).

Lemma with_pmem_twice m m' s : with_pmem m (with_pmem m' s) = with_pmem m s.
Proof. done. Qed.

(** Storing bytes in the words of a mapped page. *)
Lemma store_page_ok s pd w bs v :
  as_wf s pd w → 0 <= v < 786432 → is_Some (frame_of s.(pmem) pd (4096 * v)) →
  let m := store_page pd bs v s.(pmem) in
  as_wf (with_pmem m s) pd w ∧
  (∀ x, user_va x → pte_at m pd x = pte_at s.(pmem) pd x) ∧
  (∀ x, user_va x → ubyte m pd x = if x / 4096 =? v then shown bs x else ubyte s.(pmem) pd x).
Proof.
  intros Has Hv [p Hp] m. unfold m, store_page. rewrite Hp. clear m.
  set (u := words_of 1024 _). assert (Hva : user_va (4096 * v)) by (unfold user_va, PHYS_BASE; lia).
  destruct (as_frame _ _ _ Has _ _ Hva Hp) as (B1 & B2 & _ & B4 & B5).
  assert (Hat : ∀ x, user_va x → pte_at (<[p := u]> s.(pmem)) pd x = pte_at s.(pmem) pd x)
    by (intros x Hx; by apply (pte_at_other s pd w); [apply Has|..]).
  split; [apply as_wf_page; [done..|apply length_words_of]|]. split; [done|]. intros x Hx.
  destruct (Z.eqb_spec (x / 4096) v) as [E|E].
  - rewrite (ubyte_page _ _ _ p u); [| |apply lookup_insert_eq].
    2:{ rewrite <-Hp. etrans; [apply frame_of_pte, Hat; done|]. apply frame_of_same_page. zdm. }
    unfold u. rewrite page_byte_words; [| |apply Forall_fmap, Forall_forall; intros; apply u8_range|zdm].
    2:{ by rewrite length_fmap, length_seqZ. }
    unfold shown. rewrite <-(page_bytes_lookup (λ x, u8 (default 0 (bs !! x))) v x E). f_equal. zdm.
  - destruct (frame_of s.(pmem) pd x) as [q|] eqn:Eq.
    + apply (ubyte_frame _ _ _ _ q); [done|rewrite <-Eq; by apply frame_of_pte, Hat|].
      apply lookup_insert_ne. intros <-. apply E. rewrite (as_inj _ _ _ Has x (4096 * v) p) by done. zdm.
    + unfold ubyte. by rewrite (frame_of_pte _ _ _ _ _ _ (Hat x Hx)), Eq.
Qed.

Lemma store_pages_ok s pd w bs l :
  as_wf s pd w → Forall (λ v, 0 <= v < 786432 ∧ is_Some (frame_of s.(pmem) pd (4096 * v))) l →
  let m := foldr (store_page pd bs) s.(pmem) l in
  as_wf (with_pmem m s) pd w ∧
  (∀ x, user_va x → pte_at m pd x = pte_at s.(pmem) pd x) ∧
  (∀ x, user_va x → ubyte m pd x = if decide (x / 4096 ∈ l) then shown bs x else ubyte s.(pmem) pd x).
Proof.
  intros Has. induction l as [|v l IH]; intros Hl m.
  - split; [by destruct s|]. split; [done|]. done.
  - apply Forall_cons in Hl as [[Hv Hf] Hl]. destruct (IH Hl) as (A1 & A2 & A3). cbn [foldr] in m.
    set (m1 := foldr _ _ _) in *. assert (Hva : user_va (4096 * v)) by (unfold user_va, PHYS_BASE; lia).
    destruct (store_page_ok (with_pmem m1 s) pd w bs v A1 Hv) as (B1 & B2 & B3).
    { cbn [pmem with_pmem]. by rewrite (frame_of_pte _ _ _ _ _ _ (A2 _ Hva)). }
    cbn [pmem with_pmem] in B1, B2, B3. split; [exact B1|]. split.
    + intros x Hx. etrans; [by apply B2|by apply A2].
    + intros x Hx. unfold m. rewrite B3 by done. destruct (Z.eqb_spec (x / 4096) v) as [E|E].
      * rewrite decide_True; [done|]. rewrite E. apply list_elem_of_here.
      * rewrite A3 by done. apply decide_ext. rewrite elem_of_cons. tauto.
Qed.

(** Showing user memory, changing it and storing it: the process sees what was
    written. *)
Lemma store_view_ok s pd w bs :
  as_wf s pd w →
  let m := store_view pd bs s.(pmem) in
  as_wf (with_pmem m s) pd w ∧
  (∀ x, user_va x → pte_at m pd x = pte_at s.(pmem) pd x) ∧
  (∀ x, user_va x → ubyte m pd x = if ubyte s.(pmem) pd x then shown bs x else None).
Proof.
  intros Has m. destruct (store_pages_ok s pd w bs (user_pages s.(pmem) pd) Has) as (A1 & A2 & A3).
  { apply Forall_forall. intros v Hv. by apply user_pages_elem. }
  split; [exact A1|]. split; [exact A2|].
  intros x Hx. unfold m, store_view. rewrite A3 by done.
  destruct (frame_of s.(pmem) pd x) as [p|] eqn:E.
  - rewrite decide_True by (apply user_page_of; [done|by rewrite E]).
    destruct (as_frame _ _ _ Has x p Hx E) as (_ & _ & (u & Hu & Hl) & _).
    rewrite (ubyte_page _ _ _ p u) by done. unfold page_byte.
    destruct (lookup_lt_is_Some_2 u (Z.to_nat (x mod 4096 / 4))) as [y ->]; [rewrite Hl; zdm|]. done.
  - assert (Hn : ubyte s.(pmem) pd x = None) by (unfold ubyte; by rewrite E). rewrite Hn.
    rewrite decide_False; [done|]. intros H. apply user_page_of in H; [|done]. rewrite E in H. by destruct H.
Qed.

Lemma user_view_high m pd bs x : PHYS_BASE <= x → user_view m pd bs !! x = bs !! x.
Proof.
  intros Hx. rewrite user_view_lookup, decide_False; [done|]. intros [H _]%user_pages_elem.
  unfold PHYS_BASE in Hx. zdm.
Qed.

Lemma user_view_user m pd bs x b :
  user_va x → ubyte m pd x = Some b → user_view m pd bs !! x = Some b.
Proof.
  intros Hx Hb. rewrite user_view_lookup, decide_True; [by rewrite Hb|].
  apply user_page_of; [done|]. unfold ubyte in Hb. by destruct (frame_of m pd x).
Qed.

Lemma user_view_absent m pd bs x :
  user_va x → frame_of m pd x = None → user_view m pd bs !! x = bs !! x.
Proof.
  intros Hx Hf. rewrite user_view_lookup, decide_False; [done|].
  rewrite <-user_page_of by done. rewrite Hf. by intros [].
Qed.

Lemma bytes_high m pd bs a l : PHYS_BASE <= a → bytes_at bs a l → bytes_at (user_view m pd bs) a l.
Proof. intros Ha H i Hi. rewrite user_view_high by lia. by apply H. Qed.

Lemma cstr_high m pd bs a l : PHYS_BASE <= a → cstr bs a l → cstr (user_view m pd bs) a l.
Proof. intros Ha [H1 H2]. split; [by apply bytes_high|done]. Qed.

Lemma block_high m pd bs a n : PHYS_BASE <= a → block bs a n → block (user_view m pd bs) a n.
Proof.
  intros Ha (H1 & H2 & H3). split; [done|]. split; [done|]. intros i Hi.
  rewrite user_view_high by lia. by apply H3.
Qed.

(** *** A frame of arguments, stored and read back *)

Lemma bytes_shown m m' a l :
  bytes_at m a l → Forall (λ b, is_u8 b) l →
  (∀ x, a <= x < a + Z.of_nat (length l) → m' !! x = shown m x) → bytes_at m' a l.
Proof.
  intros Hb F Hm i Hi. rewrite Hm by lia. unfold shown. rewrite Hb by done.
  destruct (l !! i) as [b|] eqn:E; cbn.
  - rewrite u8_small; [done|]. by apply (Forall_lookup_1 _ _ _ _ F E).
  - apply lookup_ge_None in E. lia.
Qed.

Lemma word_shown m m' a v :
  word_at m a v → (∀ x, a <= x < a + 4 → m' !! x = shown m x) → word_at m' a v.
Proof. intros H Hm. apply (bytes_shown _ _ _ _ H); [apply le32_bytes|done]. Qed.

Lemma c_frame_shown m m' esp top ws :
  c_frame m esp top ws → (∀ x, esp <= x < top → m' !! x = shown m x) →
  esp + 16 + 4 * Z.of_nat (length ws) <= top → c_frame m' esp top ws.
Proof.
  intros (W0 & W1 & W2 & W3 & argv & S & W) Hm Ht. pose proof (Forall2_length _ _ _ S) as Hl.
  unfold c_frame. do 4 (split; [eapply word_shown; [done|]; intros; apply Hm; lia|]).
  exists argv. split; [|intros i a Hi; pose proof (lookup_lt_Some _ _ _ Hi);
    eapply word_shown; [by apply W|]; intros; apply Hm; lia].
  unfold strings_in in *. eapply Forall2_impl; [exact S|]. cbn. intros a w (C & H1 & H2).
  split; [|done]. destruct C as (Cb & Cn & C). split; [|done].
  apply (bytes_shown _ _ _ _ Cb).
  - apply Forall_app. split; [|repeat constructor; lia]. eapply Forall_impl; [exact Cn|]. cbn. lia.
  - intros x Hx. rewrite length_app in Hx. simpl in Hx. apply Hm. lia.
Qed.

(** ** start_process() *)

Lemma run_b {A B} (f : U A) (g : A → T B) s a u :
  f s.(x_u) = Ok (a, u) →
  (on_bytes f ≫= g) s = g a (mk_sst u s.(x_fs) s.(x_cr3) s.(x_flushes) s.(x_pd)).
Proof. intros E. apply run_bind. unfold on_bytes. by rewrite E. Qed.

Lemma run_bm {A B} (f : CString.M A) (g : A → T B) s a m :
  f s.(x_u).(bytes) = Ok (a, m) →
  (on_bytes (mm f) ≫= g) s = g a (mk_sst (mk_ust s.(x_u).(pools) m) s.(x_fs) s.(x_cr3) s.(x_flushes) s.(x_pd)).
Proof. intros E. apply run_b. unfold mm. by rewrite E. Qed.

Definition START_FLAGS : Z := PAL_ASSERT + PAL_ZERO + PAL_USER.

Section start_process.
Context (init_pd ram space file_name : Z) (s : sst) (line : list Z) (fn : Z) (u1 : ust).
Abbreviation p0 := s.(x_u).(pools).
Abbreviation m0 := s.(x_u).(bytes).

(** The new thread finds the command line in a page of its own. *)
Record starting : Prop := {
  st_pools : pools_wf p0;
  st_pages : ∀ kp user, kernel_page kp → page_from_pool (get_pool user p0) kp = true → block m0 kp 4096;
  st_space : cstr m0 space SP;
  st_space_high : PHYS_BASE <= space;
  st_space_apart : apart p0 space 2;
  st_page : kernel_page file_name;
  st_used : used p0 file_name = true;
  st_line : cstr m0 file_name line;
  st_short : Z.of_nat (length line) < 4096;
  st_get : get_page START_FLAGS s.(x_u) = Ok (fn, u1) }.

Context (Hs : starting).

Lemma start_took :
  fn ≠ 0 ∧ took p0 u1.(pools) fn ∧ frames m0 u1.(bytes) fn (fn + 4096) ∧ fn ≠ file_name ∧
  page_from_pool p0.(user_pool) fn = true.
Proof.
  destruct (get_page_ok s.(x_u) START_FLAGS (st_pools Hs)) as
    [(kp & u & E & Hn & T & F & Hp & _)|[_ E]]; rewrite (st_get Hs) in E; [|done].
  injection E as <- <-. do 3 (split; [done|]). split; [|done]. intros Heq.
  destruct (tk_free _ _ _ T) as (_ & Hf & _). rewrite Heq, (st_used Hs) in Hf. done.
Qed.

(** The copy of the command line, cut after its first word. *)
Lemma start_copy :
  ∃ m, frames m0 m fn (fn + 4096) ∧
    start_process init_pd ram space file_name s =
      (success ← on_words (load init_pd ram (first_part line));
       match success with
       | None => mret None
       | Some (eip, esp) =>
           '(_, esp) ← on_user (setup_stack_arguments space esp file_name);
           on_bytes (free_page file_name);;
           mret (Some (initial_if eip esp))
       end) (mk_sst (mk_ust u1.(pools) m) s.(x_fs) s.(x_cr3) s.(x_flushes) s.(x_pd)).
Proof.
  destruct start_took as (Hn & Tk & F1 & Hne & Hfrom). pose proof Hs as [P1 P2 P3 P4 P5 P6 P7 P8 P9 P10].
  pose proof (tk_free _ _ _ Tk) as Hf. pose proof Hf as (Hk & _).
  pose proof (pages_apart fn file_name Hk P6 Hne) as Hd. specialize (P5 _ Hf).
  unfold start_process. fold START_FLAGS. rewrite (run_b _ _ _ _ _ P10), (proj2 (Z.eqb_neq fn 0)) by done.
  destruct (copy_to_page u1.(bytes) fn file_name line Hk) as (m2 & E2 & F2 & C2 & L2); [|..|lia|].
  { apply (frames_block _ _ _ _ _ _ F1). by apply (P2 fn true). }
  { apply (frames_cstr _ _ _ _ _ _ F1); [lia|done]. }
  rewrite (run_bm (strlcpy fn file_name PGSIZE) _ (mk_sst u1 _ _ _ _) _ _ E2). cbn [x_u x_fs x_cr3 x_flushes x_pd].
  rewrite take_ge in C2 by lia.
  destruct (strtok_first m2 space fn line) as (r & m3 & E3 & L3 & F3); [|done|].
  { apply (frames_cstr _ _ _ _ _ _ F2); [simpl; lia|]. apply (frames_cstr _ _ _ _ _ _ F1); [simpl; lia|done]. }
  rewrite (run_bm (strtok_r fn space 0) _ (mk_sst (mk_ust _ m2) _ _ _ _) _ _ E3). cbn [x_u x_fs x_cr3 x_flushes x_pd pools].
  erewrite (run_bm (reads _) _ (mk_sst (mk_ust _ m3) _ _ _ _));
    [|unfold reads; cbn [x_u bytes]; by rewrite (string_at_ok _ _ _ L3)].
  exists m3. split; [|done]. destruct F1 as [A1 A2], F2 as [B1 B2], F3 as [C1' C2'].
  split; [|auto]. intros x Hx. rewrite C1', B1, A1 by lia. done.
Qed.

Abbreviation start_lst := (loader_state (mk_sst u1 s.(x_fs) s.(x_cr3) s.(x_flushes) s.(x_pd))).

(** load() keeps the pages that were in use. *)
Lemma start_extends r l :
  load init_pd ram (first_part line) start_lst = Ok (r, l) →
  extends u1.(pools) (lpools l) ∧ used (lpools l) fn = true ∧ used (lpools l) file_name = true.
Proof.
  intros E. destruct start_took as (_ & Tk & _). pose proof (tk_free _ _ _ Tk) as (Hk & _).
  assert (X : extends u1.(pools) (lpools l)) by (by apply (ext_load _ _ _ start_lst _ _ (tk_wf _ _ _ Tk) E)).
  split; [done|]. split; apply (ex_used _ _ X); [done| |apply Hs|];
    rewrite (tk_used _ _ _ Tk) by (apply kernel_page_u32; done || apply Hs); [by rewrite among_self|].
  destruct (among _ _ _); [done|]. apply Hs.
Qed.

Lemma start_load {B} r l m (g : option (Z * Z) → T B) :
  load init_pd ram (first_part line) start_lst = Ok (r, l) →
  (on_words (load init_pd ram (first_part line)) ≫= g)
    (mk_sst (mk_ust u1.(pools) m) s.(x_fs) s.(x_cr3) s.(x_flushes) s.(x_pd)) =
  g r (mk_sst (mk_ust (lpools l) m) l.(l_fs) l.(l_pg).(cr3) l.(l_pg).(flushes) l.(l_pagedir)).
Proof.
  intros E. apply run_bind. unfold on_words, loader_state in *. cbn [x_u x_fs x_cr3 x_flushes x_pd pools] in *.
  by rewrite E.
Qed.

(** load() fails: the thread exits with both pages still in use. *)
Lemma start_fails l :
  load init_pd ram (first_part line) start_lst = Ok (None, l) →
  ∃ s', start_process init_pd ram space file_name s = Ok (None, s') ∧
    used s'.(x_u).(pools) fn = true ∧ used s'.(x_u).(pools) file_name = true.
Proof.
  intros E. destruct start_copy as (m & F & ->). rewrite (start_load _ _ _ _ E).
  destruct (start_extends _ _ E) as (_ & H1 & H2). eexists. split; [done|]. by split.
Qed.

(** A page that is free after load() was free before. *)
Lemma free_before r l kp :
  load init_pd ram (first_part line) start_lst = Ok (r, l) → free_kpage (lpools l) kp →
  free_in p0 kp ∧ kp ≠ fn ∧ kp ≠ file_name.
Proof.
  intros E (Hk & Hf & Hu). destruct (start_extends _ _ E) as ([[_ Sz _] X] & U1 & U2).
  destruct start_took as (_ & Tk & _).
  assert (Hfree : free_in u1.(pools) kp).
  { split; [done|]. split; [|exists false; cbn [get_pool]; by rewrite (pool_same_size _ _ _ Sz) in Hf].
    destruct (used u1.(pools) kp) eqn:Ek; [|done]. rewrite (X kp Hk Ek) in Hu. done. }
  destruct (tk_rest _ _ _ Tk _ Hfree) as [H1 H2]. split; [done|]. split; [done|]. intros ->. congruence.
Qed.

(** *** load() succeeds *)

(** The pages that make up an address space. *)
Definition owns (p : pst) (pd : Z) (w : list Z) (q : Z) : Prop :=
  q = pd ∨ (∃ k, 0 <= k < 768 ∧ pd_tab w k = Some q) ∨ ∃ va, user_va va ∧ frame_of p.(pmem) pd va = Some q.

Context (l : lst) (eip : Z) (w : list Z).
Abbreviation pL := (lpools l).
Abbreviation pd := l.(l_pagedir).

(** What load() leaves behind: an address space of its own with a page for the
    stack. *)
Record loaded : Prop := {
  lo_run : load init_pd ram (first_part line) start_lst = Ok (Some (eip, PHYS_BASE), l);
  lo_as : as_wf pL pd w;
  lo_own : ¬ owns pL pd w file_name;
  lo_stack : ∀ x, PHYS_BASE - 4096 <= x < PHYS_BASE → is_Some (ubyte pL.(pmem) pd x) }.

Context (Hl : loaded).

(** The words of a page outside the address space do not matter to it. *)
Lemma as_wf_outside (p p' : pst) q v :
  as_wf p pd w → ¬ owns p pd w q → length v = 1024%nat → pools_wf p' →
  (∀ a, kernel_page a → a ≠ q → used p a = true → used p' a = true) →
  p'.(pmem) = <[q := v]> p.(pmem) →
  as_wf p' pd w ∧ ∀ x, user_va x →
    ubyte p'.(pmem) pd x = ubyte p.(pmem) pd x ∧ pte_at p'.(pmem) pd x = pte_at p.(pmem) pd x.
Proof.
  intros Ha Ho Hv Hp' Hu Hm. pose proof (as_pd _ _ _ Ha) as Hw.
  assert (N1 : q ≠ pd) by (intros ->; apply Ho; by left).
  assert (N2 : ∀ k, 0 <= k < 768 → pd_tab w k ≠ Some q) by (intros k Hk E; apply Ho; right; left; eauto).
  assert (N3 : ∀ x f, user_va x → frame_of p.(pmem) pd x = Some f → f ≠ q)
    by (intros x f Hx E ->; apply Ho; right; right; eauto).
  assert (Hat : ∀ x, user_va x → pte_at p'.(pmem) pd x = pte_at p.(pmem) pd x)
    by (intros x Hx; rewrite Hm; by apply (pte_at_other p pd w)).
  assert (Hfr : ∀ x, user_va x → frame_of p'.(pmem) pd x = frame_of p.(pmem) pd x)
    by (intros x Hx; by apply frame_of_pte, Hat).
  split.
  - destruct (as_wf_page p pd w q v Ha N1 N2 Hv) as [_ A2 A3 A4 A5]. cbn [with_pmem pmem] in *.
    rewrite <-Hm in *. split; [done| |done| |done].
    + destruct A2 as [Q1 Q2 Q3 Q4 Q5]. cbn [with_pmem pmem] in *.
      split; [done|by rewrite Hm in Q2 |- *|apply Hu; [done|congruence|]; by destruct p| |done].
      intros k pde Hk Hpde Hnz. destruct (Q4 k pde Hk Hpde Hnz) as (pt & u & E & R1 & R2 & R3 & R4).
      exists pt, u. do 3 (split; [done|]). split; [|by rewrite Hm in R4 |- *].
      apply Hu; [done| |by destruct p]. intros ->. apply (N2 k Hk). unfold pd_tab. rewrite Hpde.
      by rewrite (proj2 (Z.eqb_neq _ _)), E.
    + intros x f Hx E. destruct (A4 x f Hx E) as (B1 & B2 & B3 & B4). split; [done|].
      split; [|by rewrite Hm in B3 |- *]. apply Hu; [done| |by destruct p]. rewrite Hfr in E by done. by apply (N3 x).
  - intros x Hx. split; [|by apply Hat].
    destruct (frame_of p.(pmem) pd x) as [f|] eqn:E.
    + apply (ubyte_frame _ _ _ _ f); [done|by rewrite Hfr|]. rewrite Hm. apply lookup_insert_ne.
      intros <-. by apply (N3 x q).
    + unfold ubyte. by rewrite Hfr, E.
Qed.

Abbreviation argv_of := (words SP line).
Abbreviation esp_of := (PHYS_BASE - strings_size argv_of - padding PHYS_BASE argv_of
  - 4 * Z.of_nat (length argv_of) - 16).

(** The state in which setup_stack_arguments() is called. *)
Lemma start_setup m :
  frames m0 m fn (fn + 4096) → (length argv_of < 128)%nat → PHYS_BASE - 4096 <= esp_of →
  let u := mk_ust pL (user_view pL.(pmem) pd m) in
  (∃ u' kp, setup_stack_arguments space PHYS_BASE file_name u = Ok ((true, esp_of), u') ∧
     c_frame u'.(bytes) esp_of PHYS_BASE argv_of ∧
     (∀ q, is_u32 q → used u'.(pools) q = used pL q) ∧ pools_wf u'.(pools) ∧ free_kpage pL kp ∧
     u'.(pools).(pmem) = <[kp := replicate 1024 3435973836]> pL.(pmem) ∧
     (∀ x, x < esp_of → u'.(bytes) !! x = u.(bytes) !! x)) ∨
  (full false pL ∧ setup_stack_arguments space PHYS_BASE file_name u = Ok ((false, PHYS_BASE), u)).
Proof.
  intros F Hn Hfit u. pose proof Hs as [P1 P2 P3 P4 P5 P6 P7 P8 P9 P10]. pose proof Hl as [E Ha Ho Hst].
  destruct start_took as (_ & Tk & _ & Hne & _). pose proof (tk_free _ _ _ Tk) as Hf. pose proof Hf as (Hk & _).
  pose proof (pages_apart fn file_name Hk P6 Hne) as Hd. specialize (P5 _ Hf) as Hsp. pose proof P6 as [Hr Hal].
  destruct (setup_stack_arguments_ok space (PHYS_BASE - 4096) PHYS_BASE file_name u line) as
    [(u' & kp & H1 & H2 & _ & H4 & H5 & H6 & H7 & H8)|[H1 H2]].
  - apply Ha.
  - intros kp Hkp. destruct (free_before _ _ _ E Hkp) as ((Hk' & _ & user & Hfrom) & _). pose proof Hk' as [? _].
    apply block_high; [lia|]. apply (frames_block _ _ _ _ _ _ F). by apply (P2 kp user).
  - apply cstr_high; [done|]. apply (frames_cstr _ _ _ _ _ _ F); [simpl; lia|done].
  - intros kp Hkp. apply P5. by destruct (free_before _ _ _ E Hkp).
  - apply cstr_high; [lia|]. apply (frames_cstr _ _ _ _ _ _ F); [lia|done].
  - done.
  - intros kp Hkp. destruct (free_before _ _ _ E Hkp) as ((Hk' & _) & _ & Hne').
    pose proof (pages_apart kp file_name Hk' P6 Hne'). lia.
  - lia.
  - done.
  - done.
  - split; [unfold PHYS_BASE; lia|]. split; [unfold PHYS_BASE; lia|]. intros i Hi.
    destruct (Hst (PHYS_BASE - 4096 + i)) as [b Hb]; [lia|]. unfold u. cbn [bytes].
    erewrite user_view_user; [done| |exact Hb]. unfold user_va, PHYS_BASE in *. lia.
  - done.
  - done.
  - left. exists u', kp. done.
  - right. done.
Qed.

Lemma owns_same (p p' : pst) q :
  (∀ x, user_va x → pte_at p'.(pmem) pd x = pte_at p.(pmem) pd x) → owns p' pd w q → owns p pd w q.
Proof.
  intros H [->|[(k & Hk)|(va & Hva & E)]]; [by left|right; left; eauto|right; right].
  exists va. split; [done|]. by rewrite <-(frame_of_pte _ _ _ _ _ _ (H va Hva)).
Qed.

(** The arguments are in the memory of the process, and the page of the command
    line has been given back. *)
Definition started (esp : Z) (s' : sst) : Prop :=
  s'.(x_pd) = pd ∧ as_wf s'.(x_u).(pools) pd w ∧
  c_frame (user_view s'.(x_u).(pools).(pmem) pd ∅) esp PHYS_BASE argv_of ∧
  (∀ x, user_va x →
     (x < esp → ubyte s'.(x_u).(pools).(pmem) pd x = ubyte pL.(pmem) pd x) ∧
     uwritable s'.(x_u).(pools).(pmem) pd x = uwritable pL.(pmem) pd x).

(** Storing what setup_stack_arguments() wrote, and freeing the page. *)
Lemma start_finish m u' kp :
  c_frame u'.(bytes) esp_of PHYS_BASE argv_of → PHYS_BASE - 4096 <= esp_of →
  (∀ q, is_u32 q → used u'.(pools) q = used pL q) → pools_wf u'.(pools) → free_kpage pL kp →
  u'.(pools).(pmem) = <[kp := replicate 1024 3435973836]> pL.(pmem) →
  (∀ x, x < esp_of → u'.(bytes) !! x = user_view pL.(pmem) pd m !! x) →
  let p3 := with_pmem (store_view pd u'.(bytes) u'.(pools).(pmem)) u'.(pools) in
  ∃ u3, free_page file_name (mk_ust p3 u'.(bytes)) = Ok (tt, u3) ∧
    (∀ q, is_u32 q → used u3.(pools) q = if among file_name 1 q then false else used pL q) ∧
    ∀ f c n, started esp_of (mk_sst u3 f c n pd).
Proof.
  intros C Hfit Hus Hp2 (Kk & Kf & Ku) Hm2 Hlow p3. pose proof Hl as [E Ha Ho Hst].
  destruct (as_wf_outside pL u'.(pools) kp (replicate 1024 3435973836) Ha) as [A2 B2].
  { intros [->|[(k & Hk & Ek)|(va & Hva & Ef)]].
    - by rewrite (pd_used _ _ _ (as_pd _ _ _ Ha)) in Ku.
    - destruct (pd_tab_cases _ _ _ _ (as_pd _ _ _ Ha) Hk) as [[_ E']|(? & q & ? & _ & _ & _ & E' & _ & _ & Hu & _)];
        [congruence|]. rewrite Ek in E'. injection E' as <-. congruence.
    - destruct (as_frame _ _ _ Ha va kp Hva Ef) as (_ & Hu & _). congruence. }
  { apply length_replicate. }
  { done. }
  { intros a Hka _ Hua. by rewrite Hus by by apply kernel_page_u32. }
  { done. }
  destruct (store_view_ok u'.(pools) pd w u'.(bytes) A2) as (A3 & B3 & C3). fold p3 in A3.
  destruct (start_extends _ _ E) as (_ & _ & Hfu). pose proof (st_page Hs) as Kfile.
  assert (Hu3 : ∀ q, is_u32 q → used p3 q = used pL q) by (intros q Hq; rewrite <-Hus by done; by destruct (u'.(pools))).
  destruct (palloc_free_page_ok p3 file_name (as_pools _ _ _ A3) (kernel_page_u32 _ Kfile) ltac:(apply Kfile))
    as (p4 & E4 & Hp4 & Hu4 & Hm4 & _); [by rewrite Hu3 by by apply kernel_page_u32|].
  assert (Ho3 : ¬ owns p3 pd w file_name).
  { intros H. apply Ho. apply (owns_same pL u'.(pools)); [by intros x Hx; apply B2|].
    by apply (owns_same u'.(pools) p3). }
  destruct (as_wf_outside p3 p4 file_name (replicate 1024 3435973836) A3 Ho3) as [A4 B4];
    [apply length_replicate|done| |done|].
  { intros a Hka Hne Hua. rewrite Hu4 by by apply kernel_page_u32.
    destruct (among file_name 1 a) eqn:Ea; [|done]. by apply among_page in Ea. }
  assert (Hub : ∀ x, user_va x → ubyte p4.(pmem) pd x =
    if ubyte pL.(pmem) pd x then shown u'.(bytes) x else None).
  { intros x Hx. destruct (B4 x Hx) as [-> _]. cbn [pmem with_pmem p3]. rewrite C3 by done.
    by destruct (B2 x Hx) as [-> _]. }
  unfold free_page. cbn [pools bytes]. rewrite E4. pose proof Kfile as [Kr _]. unfold PHYS_BASE in Kr.
  rewrite (proj2 (Z.eqb_neq file_name 0)) by lia. eexists. split; [reflexivity|]. split.
  { intros q Hq. cbn [pools]. by rewrite Hu4, Hu3. }
  intros f c n. split; [done|]. split; [exact A4|]. cbn [x_u pools]. split.
  - apply (c_frame_shown u'.(bytes)); [done| |].
    + intros x Hx. assert (Hva : user_va x) by (unfold user_va, PHYS_BASE in *; lia).
      destruct (Hst x) as [b Hb]; [lia|]. unfold shown. apply user_view_user; [done|]. by rewrite Hub, Hb.
    + unfold strings_size, padding. zdm.
  - intros x Hx. split.
    + intros Hlt. rewrite Hub by done. destruct (ubyte pL.(pmem) pd x) as [b|] eqn:Eb; [|done].
      unfold shown. rewrite Hlow by done. rewrite (user_view_user _ _ _ _ _ Hx Eb). cbn.
      by rewrite u8_small by (by eapply ubyte_range).
    + unfold uwritable. destruct (B4 x Hx) as [_ ->]. cbn [pmem with_pmem p3]. rewrite B3 by done.
      by destruct (B2 x Hx) as [_ ->].
Qed.
End start_process.

(** ** Properties *)


(** *** A machine on which a process starts

    The kernel pool has six pages, the first with the command line ["a b"], the
    second with the kernel's page directory; the user pool has four.  The file
    ["a"] of the root directory is the executable of Loader.v. *)
Definition demo_base : Z := 3222274048.
Definition demo_start_pools : pst :=
  mk_pst (mk_pool (mk_bitmap 6 [3]) demo_base) (mk_pool (mk_bitmap 4 [0]) (demo_base + 24576))
    {[ demo_base + 4096 := replicate 1024 0 ]}.
Definition demo_cmd : list Z := [97; 32; 98].
Definition demo_start_bytes : mem :=
  write_bytes (write_bytes (write_bytes ∅ demo_base (replicate (Z.to_nat 40960) 0)) demo_base (demo_cmd ++ [0]))
    3221291008 [32; 0].
Definition demo_root : inode := mk_inode 1 1 false 0 (mk_inode_disk 2 20 0 []).
Definition demo_start_fs : fs :=
  mk_fs (mk_block BLOCK_FILESYS 64
           {[ 2 := le32 5 ++ [97] ++ replicate 14 0 ++ [1] ++ replicate 492 0;
              10 := demo_elf ++ replicate 424 0 ]} 0 0)
    (mk_bitmap 64 [0; 0]) 0 [1; 2] {[ 1 := demo_exe; 2 := demo_root ]} ∅ ∅ 3 [] (replicate 20 0).
Definition demo_start : sst :=
  mk_sst (mk_ust demo_start_pools demo_start_bytes) demo_start_fs (demo_base + 4096 - PHYS_BASE) 0 0.

(** The state after an operation that succeeds. *)
Definition after {S A} (m : st S A) (s : S) : S :=
  match m s with Ok (_, s') => s' | _ => s end.

Lemma after_ok {S A} (m : st S A) s a : fst <$> m s = Ok a → m s = Ok (a, after m s).
Proof. unfold after. destruct (m s) as [[b s']| | |]; try done. by intros [= <-]. Qed.

Definition demo_init : Z := demo_base + 4096.
Definition demo_fn : Z := demo_base + 24576.
Definition demo_u1 : ust := after (get_page START_FLAGS) demo_start.(x_u).
Definition demo_lst0 : lst := mk_lst demo_start_fs (mk_pgst demo_u1.(pools) (demo_base + 4096 - PHYS_BASE) 0) 0.

Lemma demo_get : get_page START_FLAGS demo_start.(x_u) = Ok (demo_fn, demo_u1).
Proof. apply after_ok. by vm_compute. Qed.

Lemma demo_start_load :
  fst <$> load demo_init 4096 [97] demo_lst0 = Ok (Some (134516820, PHYS_BASE)).
Proof. by vm_compute. Qed.

Lemma demo_pool_page kp user :
  kernel_page kp → page_from_pool (get_pool user demo_start_pools) kp = true →
  demo_base <= kp ∧ kp + 4096 <= demo_base + 40960.
Proof.
  intros [Hr Ha] Hf. unfold PHYS_BASE in Hr. rewrite from_pool_range in Hf.
  - apply andb_true_iff in Hf as [H1%Z.leb_le H2%Z.ltb_lt]. unfold page_at in *.
    destruct user; cbn [get_pool pool_base used_map bit_cnt demo_start_pools kernel_pool user_pool] in H1, H2;
      unfold demo_base in *; zdm.
  - by destruct user; repeat (split || constructor).
  - lia.
Qed.

Lemma demo_starting : starting 3221291008 demo_base demo_start demo_cmd demo_fn demo_u1.
Proof.
  assert (Hsp : frames (write_bytes (write_bytes ∅ demo_base (replicate (Z.to_nat 40960) 0)) demo_base (demo_cmd ++ [0]))
    demo_start_bytes 3221291008 3221291010) by (apply frames_write; simpl; lia).
  split.
  - by repeat (split || constructor).
  - intros kp user Hk Hf. destruct (demo_pool_page kp user Hk Hf) as [H1 H2]. unfold demo_base in H1, H2.
    split; [lia|]. split; [lia|]. intros i Hi. apply (fr_dom _ _ _ _ Hsp).
    apply (fr_dom _ _ _ _ (frames_write _ demo_base (demo_cmd ++ [0]) demo_base (demo_base + 4096) ltac:(lia) ltac:(simpl; lia))).
    rewrite write_bytes_lookup, length_replicate, decide_True by (unfold demo_base; lia).
    apply lookup_lt_is_Some_2. rewrite length_replicate. unfold demo_base. lia.
  - split; [apply write_bytes_at|]. split; [repeat constructor; lia|simpl; lia].
  - unfold PHYS_BASE. lia.
  - intros kp (Hk & _ & user & Hf). destruct (demo_pool_page kp user Hk Hf) as [H1 _]. unfold demo_base in H1. lia.
  - by split.
  - by vm_compute.
  - apply (frames_cstr _ _ _ _ _ _ Hsp); [unfold demo_base; lia|].
    split; [apply write_bytes_at|]. split; [repeat constructor; lia|unfold demo_base; simpl; lia].
  - done.
  - exact demo_get.
Qed.

(** A page directory that maps nothing. *)
Lemma as_wf_empty p pd w :
  pools_wf p → kernel_page pd → table p.(pmem) pd w → used p pd = true →
  (∀ k, 0 <= k < 768 → w !! Z.to_nat k = Some 0) → as_wf p pd w.
Proof.
  intros Hp Hk Ht Hu H0.
  assert (Hn : ∀ va, user_va va → frame_of p.(pmem) pd va = None).
  { intros va Hva. unfold frame_of, pte_at. rewrite (proj1 Ht). cbn. unfold pd_tab.
    by rewrite H0 by by apply user_pd_no. }
  split; [done| |..].
  - split; [done|done|done| |].
    + intros k pde Hk' Hpde Hnz. rewrite H0 in Hpde by done. congruence.
    + intros k k' pt Hk1 _ E. unfold pd_tab in E. by rewrite H0 in E by done.
  - intros k pde Hk' Hpde Hnz. rewrite H0 in Hpde by done. congruence.
  - intros va q Hva E. by rewrite Hn in E.
  - intros va va' q Hva _ E. by rewrite Hn in E.
Qed.

(** The pages of an address space, as a list. *)
Definition owned_pages (m : gmap Z (list Z)) (pd : Z) : list Z :=
  pd :: omap (λ k, m !! pd ≫= λ w, pd_tab w k) (seqZ 0 768) ++
  omap (λ v, frame_of m pd (4096 * v)) (user_pages m pd).

Lemma owns_listed p pd w q :
  table p.(pmem) pd w → owns p pd w q → q ∈ owned_pages p.(pmem) pd.
Proof.
  intros [Ht _] H. unfold owned_pages. rewrite elem_of_cons, elem_of_app, !list_elem_of_omap.
  destruct H as [->|[(k & Hk & E)|(va & Hva & E)]]; [by left|right; left|right; right].
  - exists k. split; [apply elem_of_seqZ; lia|]. rewrite Ht. done.
  - exists (va / 4096). split; [apply user_page_of; [done|by rewrite E]|].
    rewrite <-E. apply frame_of_same_page. zdm.
Qed.

(** load() up to its call of filesys_open(). *)
Definition open_exe (init_pd : Z) (name : list Z) : L Z :=
  pd ← in_pg (pagedir_create init_pd); set_pagedir pd;; process_activate init_pd;;
  in_fs (filesys_open name).

Lemma load_opened init_pd ram name l fp l1 :
  fst <$> (in_pg (pagedir_create init_pd) : L Z) l ≠ Ok 0 → fp ≠ 0 → open_exe init_pd name l = Ok (fp, l1) →
  load init_pd ram name l = (r ← load_file init_pd ram fp; in_fs (file_close fp);; mret r) l1.
Proof.
  intros Hpd Hfp H. unfold open_exe in H. apply run_bind_inv in H as (pd & l2 & E1 & H).
  assert (Hn : pd ≠ 0) by (intros ->; apply Hpd; by rewrite E1).
  apply run_bind_inv in H as ([] & l3 & E2 & H). apply run_bind_inv in H as ([] & l4 & E3 & E4).
  unfold load. rewrite (run_bind _ _ _ _ _ E1), (run_bind _ _ _ _ _ E2).
  rewrite (proj2 (Z.eqb_neq pd 0)) by done. rewrite (run_bind _ _ _ _ _ E3), (run_bind _ _ _ _ _ E4).
  by rewrite (proj2 (Z.eqb_neq fp 0)) by done.
Qed.

Definition demo_newpd : Z := demo_base + 8192.
Definition demo_opened : lst := after (open_exe demo_init [97]) demo_lst0.

Lemma demo_open_exe : open_exe demo_init [97] demo_lst0 = Ok (5, demo_opened).
Proof. apply (after_ok (open_exe demo_init [97]) demo_lst0 5). by vm_compute. Qed.

Lemma demo_opened_at : at_pos 5 1 (mk_inode 5 2 false 0 (mk_inode_disk 10 88 0 [])) demo_opened.(l_fs) 0.
Proof.
  split; [exists false; by vm_compute|by vm_compute|by vm_compute| |].
  - split; [|by vm_compute]. apply (bool_decide_unpack _). by vm_compute.
  - split; [|by vm_compute]. apply (bool_decide_unpack _). by vm_compute.
Qed.

Lemma demo_file_u8 k :
  is_u8 (file_byte demo_opened.(l_fs) (mk_inode 5 2 false 0 (mk_inode_disk 10 88 0 [])) k).
Proof.
  assert (H : map_Forall (λ _ l, Forall (λ b, is_u8 b) l) demo_opened.(l_fs).(fs_device).(sectors))
    by (apply (bool_decide_unpack _); by vm_compute).
  unfold file_byte, disk_byte. set (l := sector_at _ _). cut (Forall (λ b, is_u8 b) l).
  { intros Hl. rewrite list_lookup_total_alt. destruct (l !! _) as [b|] eqn:E; [|done].
    exact (Forall_lookup_1 _ _ _ _ Hl E). }
  unfold l, sector_at. destruct (_ !! _) as [l'|] eqn:E; cbn [default].
  - exact (map_Forall_lookup_1 _ _ _ _ H E).
  - by apply Forall_replicate.
Qed.

Lemma demo_opened_as : as_wf demo_opened.(l_pg).(palloc) demo_opened.(l_pagedir) (replicate 1024 0).
Proof.
  assert (X : Ext lpools (open_exe demo_init [97]))
    by (unfold open_exe, set_pagedir, process_activate, get_pagedir; ext).
  destruct (start_took _ _ _ _ _ _ demo_starting) as (_ & Tk & _).
  pose proof (X demo_lst0 _ _ (tk_wf _ _ _ Tk) demo_open_exe) as [[Hp _ _] _].
  replace demo_opened.(l_pagedir) with demo_newpd by by vm_compute. apply as_wf_empty.
  - exact (Hp (tk_wf _ _ _ Tk)).
  - by split.
  - split; by vm_compute.
  - by vm_compute.
  - intros k Hk. apply lookup_replicate_2. lia.
Qed.

Lemma demo_loaded : ∃ l w, loaded demo_init 4096 demo_base demo_start demo_cmd demo_u1 l 134516820 w.
Proof.
  destruct (load_file_ok demo_init 4096 5 1 _ _ _ ltac:(done) ltac:(done) demo_opened_at demo_file_u8 demo_opened_as)
    as (r & l & E & _ & (w & Ha & _) & Hr); [by vm_compute|by vm_compute|].
  assert (Er : r = Some (134516820, PHYS_BASE)).
  { assert (H : fst <$> load_file demo_init 4096 5 demo_opened = Ok (Some (134516820, PHYS_BASE))) by by vm_compute.
    rewrite E in H. by injection H. }
  subst r. destruct Hr as (_ & _ & _ & _ & Hst).
  assert (El : load demo_init 4096 [97] demo_lst0 = (in_fs (file_close 5);; mret (Some (134516820, PHYS_BASE))) l).
  { rewrite (load_opened _ _ _ _ 5 demo_opened); [|by vm_compute|done|exact demo_open_exe].
    by rewrite (run_bind _ _ _ _ _ E). }
  assert (Hc : ∃ f, file_close 5 l.(l_fs) = Ok (tt, f)).
  { pose proof demo_start_load as H. rewrite El in H. unfold mbind, st_bind, in_fs in H. clear El E.
    destruct (file_close 5 l.(l_fs)) as [[[] f]| | |]; [by exists f|done..]. }
  destruct Hc as (f & Hf). rewrite (run_in_fs _ _ _ _ _ Hf) in El.
  eexists (mk_lst f l.(l_pg) l.(l_pagedir)), w. split.
  - exact El.
  - exact Ha.
  - intros Ho. apply owns_listed in Ho; [|apply (as_pd _ _ _ Ha)].
    assert (H : (λ '(_, l), bool_decide (demo_base ∉ owned_pages l.(l_pg).(palloc).(pmem) l.(l_pagedir))) <$>
      load_file demo_init 4096 5 demo_opened = Ok true) by by vm_compute.
    rewrite E in H. injection H as H. apply bool_decide_eq_true_1 in H. exact (H Ho).
  - intros x Hx. destruct (Hst x Hx) as [H _]. eexists. exact H.
Qed.

