(* ===== verification/Fsutil.v ===== *)
(** * Utilities on the file system: filesys/fsutil.c

    The file system of Filesys.v, the page pools of Palloc.v (for the buffer of
    fsutil_cat()), the scratch device and the two static sector counters of
    fsutil_extract() and fsutil_append().  block_read() and block_write() run on
    the scratch device in place of the file system's.  [past] is the byte of
    memory after the 512-byte buffer of fsutil_append(), which that function
    writes to the archive.  Console output is kept for the two utilities that
    exist to print; a name in it is printed by [%s]. *)

From Stdlib Require Import String.
From S2P Require Import Prelude Bitmap Vaddr Palloc CString Stdio Ustar FsState InodeIO FreeMap Inode File Directory Filesys.

Open Scope Z_scope.

(** ** Definitions *)

Record uts := mk_uts {
  u_fs : fs;
  u_pools : pst;
  scratch : option block;
  extract_sector : Z;
  append_sector : Z;
  past : Z;
  u_console : list Z }.

Abbreviation A := (st uts).

Definition with_scratch (d : block) (s : uts) : uts :=
  mk_uts s.(u_fs) s.(u_pools) (Some d) s.(extract_sector) s.(append_sector) s.(past) s.(u_console).

Definition on_fs {X} (f : M X) : A X := λ s,
  match f s.(u_fs) with
  | Ok (x, g) => Ok (x, mk_uts g s.(u_pools) s.(scratch) s.(extract_sector) s.(append_sector) s.(past) s.(u_console))
  | Panic => Panic | Wild => Wild | NoFuel => NoFuel
  end.

Definition on_pools {X} (f : P X) : A X := λ s,
  match f s.(u_pools) with
  | Ok (x, p) => Ok (x, mk_uts s.(u_fs) p s.(scratch) s.(extract_sector) s.(append_sector) s.(past) s.(u_console))
  | Panic => Panic | Wild => Wild | NoFuel => NoFuel
  end.

(** block_read(), block_write() and block_size() of the device [scratch]. *)
Definition on_scratch {X} (f : M X) : A X := λ s,
  match s.(scratch) with
  | None => Wild
  | Some d =>
      match f (set_device d s.(u_fs)) with
      | Ok (x, g) => Ok (x, with_scratch g.(fs_device) s)
      | Panic => Panic | Wild => Wild | NoFuel => NoFuel
      end
  end.

Definition say (l : list Z) : A unit :=
  modify (λ s, mk_uts s.(u_fs) s.(u_pools) s.(scratch) s.(extract_sector) s.(append_sector) s.(past) (s.(u_console) ++ l)).

Definition PANIC {X} : A X := lift Panic.

(** [sector++] on each counter. *)
Definition next_extract : A Z :=
  n ← gets extract_sector;
  modify (λ s, mk_uts s.(u_fs) s.(u_pools) s.(scratch) (u32 (n + 1)) s.(append_sector) s.(past) s.(u_console));;
  mret n.
Definition next_append : A Z :=
  n ← gets append_sector;
  modify (λ s, mk_uts s.(u_fs) s.(u_pools) s.(scratch) s.(extract_sector) (u32 (n + 1)) s.(past) s.(u_console));;
  mret n.

Definition fsutil_ls : A unit :=
  say (lit "Files in the root directory:" ++ [10]);;
  dp ← on_fs dir_open_root;
  if dp =? NULL then PANIC
  else
    d ← on_fs (get_dir dp);
    fuel ← on_fs (entry_fuel d.(d_inode));
    loop_st fuel (λ _,
      r ← on_fs (dir_readdir dp);
      match r with
      | Some name => say (name ++ [10]);; mret (inl tt)
      | None => mret (inr tt)
      end) tt;;
    on_fs (dir_close dp);;
    say (lit "End of listing." ++ [10]).

Definition fsutil_cat (file_name : list Z) : A unit :=
  say (lit "Printing '" ++ file_name ++ lit "' to the console..." ++ [10]);;
  fp ← on_fs (filesys_open file_name);
  if fp =? NULL then PANIC
  else
    buffer ← on_pools (palloc_get_page PAL_ASSERT);
    len ← on_fs (file_length fp);
    loop_st (S (Z.to_nat len)) (λ _,
      pos ← on_fs (file_tell fp);
      bs ← on_fs (file_read fp PGSIZE);
      if Z.of_nat (length bs) =? 0 then mret (inr tt)
      else
        out ← lift (hex_dump (write_bytes ∅ buffer bs) pos buffer (Z.of_nat (length bs)) true);
        say out;;
        mret (inl tt)) tt;;
    on_pools (palloc_free_page buffer);;
    on_fs (file_close fp).

Definition fsutil_rm (file_name : list Z) : A unit :=
  ok ← on_fs (filesys_remove file_name);
  if negb ok then PANIC else mret tt.

(** The loop of fsutil_extract() that copies SIZE bytes into the file [dst]. *)
Definition extract_chunk (dst size : Z) : A (Z + unit) :=
  if 0 <? size then
    let chunk_size := if BLOCK_SECTOR_SIZE <? size then BLOCK_SECTOR_SIZE else size in
    n ← next_extract;
    data ← on_scratch (block_read n);
    w ← on_fs (file_write dst data chunk_size);
    if negb (w =? chunk_size) then PANIC
    else mret (inl (size - chunk_size))
  else mret (inr tt).
Definition extract_copy (dst size : Z) : A unit := loop_st (S (Z.to_nat size)) (extract_chunk dst) size.

(** One turn of its outer loop: whether the archive goes on. *)
Definition extract_entry : A bool :=
  n ← next_extract;
  header ← on_scratch (block_read n);
  match ustar_parse_header header with
  | inl _ => PANIC
  | inr (file_name, type, size) =>
      if type =? USTAR_EOF then mret false
      else if type =? USTAR_DIRECTORY then mret true
      else if type =? USTAR_REGULAR then
        let file_name := default [] file_name in
        ok ← on_fs (filesys_create file_name size);
        if negb ok then PANIC
        else
          dst ← on_fs (filesys_open file_name);
          if dst =? NULL then PANIC
          else
            extract_copy dst size;;
            on_fs (file_close dst);;
            mret true
      else mret true
  end.

Definition extract_turn (_ : unit) : A (unit + unit) :=
  more ← extract_entry; mret (if (more : bool) then inl tt else inr tt).

(** Every turn reads a sector, and block_read() stops the kernel past the end. *)
Definition extract_fuel (s : uts) : nat :=
  match s.(scratch) with Some d => S (S (Z.to_nat d.(b_size))) | None => O end.

Definition fsutil_extract : A unit :=
  header ← on_fs malloc;
  data ← on_fs malloc;
  if (header =? NULL) || (data =? NULL) then PANIC
  else
    src ← gets scratch;
    match src with
    | None => PANIC
    | Some _ =>
        fuel ← gets extract_fuel;
        loop_st fuel extract_turn tt;;
        on_scratch (block_write 0 zero_sector);;
        on_scratch (block_write 1 zero_sector)
    end.

(** The loop of fsutil_append() that copies SIZE bytes of the file [src]. *)
Definition append_chunk (src size : Z) : A (Z + unit) :=
  if 0 <? size then
    let chunk_size := if BLOCK_SECTOR_SIZE <? size then BLOCK_SECTOR_SIZE else size in
    n ← gets append_sector;
    dst_size ← on_scratch block_size;
    if dst_size <=? n then PANIC
    else
      bs ← on_fs (file_read src chunk_size);
      if negb (Z.of_nat (length bs) =? chunk_size) then PANIC
      else
        n ← next_append;
        on_scratch (block_write n (bs ++ replicate (Z.to_nat (BLOCK_SECTOR_SIZE - chunk_size)) 0));;
        mret (inl (size - chunk_size))
  else mret (inr tt).
Definition append_copy (src size : Z) : A unit := loop_st (S (Z.to_nat size)) (append_chunk src) size.

(** The end-of-archive marker: the second write is of the 512 bytes at BUFFER + 1,
    and to the same sector. *)
Definition append_marker : A unit :=
  n ← gets append_sector;
  on_scratch (block_write n zero_sector);;
  p ← gets past;
  on_scratch (block_write n (drop 1 (zero_sector ++ [p]))).

Definition fsutil_append (file_name : list Z) : A unit :=
  buffer ← on_fs malloc;
  if buffer =? NULL then PANIC
  else
    src ← on_fs (filesys_open file_name);
    if src =? NULL then PANIC
    else
      size ← on_fs (file_length src);
      dst ← gets scratch;
      match dst with
      | None => PANIC
      | Some _ =>
          h ← lift (ustar_make_header file_name USTAR_REGULAR size);
          match h with
          | None => PANIC
          | Some h =>
              n ← next_append;
              on_scratch (block_write n h);;
              append_copy src size;;
              append_marker;;
              on_fs (file_close src)
          end
      end.

(** ** Files *)

Section file.
Context (fp ip : Z) (i : inode) (Hfp : fp ≠ NULL) (Hip : ip ≠ NULL).

(** The file is open at position [p], with writes allowed, on an inode that is
    listed and was not removed. *)
Record opened (s : fs) (p : Z) : Prop := {
  op_at : at_pos fp ip i s p;
  op_file : s.(files) !! fp = Some (mk_file ip p false);
  op_listed : ip ∈ s.(open_inodes);
  op_live : i.(removed) = false ∧ 1 <= i.(open_cnt) < 2147483648 }.

Lemma opened_read s p n :
  opened s p → 0 <= p → 0 <= n → p + n <= i.(data).(length_) →
  ∃ s', file_read fp n s = Ok (disk_bytes s.(fs_device) (base i + p) n, s') ∧ opened s' (p + n) ∧
    s'.(fs_device).(sectors) = s.(fs_device).(sectors) ∧ s'.(fs_device).(b_size) = s.(fs_device).(b_size).
Proof.
  intros [Ha Hf Hl Hv] Hp Hn Hle. pose proof Ha as [_ Hi Hfit Hwf Hm]. pose proof Hfit as (_ & Hlen & _).
  destruct (file_read_ok fp ip i Hip s p n Ha ltac:(lia) ltac:(lia)) as (s' & E & Ha' & _).
  assert (En : avail i n p = n) by (unfold avail; lia). rewrite En in E, Ha'.
  exists s'. split; [done|]. pose proof E as E'. unfold file_read in E'.
  rewrite (run_bind _ _ _ _ _ (get_file_ok _ _ _ Hf)) in E'. cbn [f_inode pos] in E'.
  destruct (inode_read_at_ok i ip Hip s n p Hi Hfit Hwf ltac:(lia) ltac:(lia)) as (out & s1 & E1 & Hq & _).
  rewrite (run_bind _ _ _ _ _ E1) in E'. erewrite run_bind in E' by apply put_file_ok. cbn in E'. injection E' as Eo <-.
  destruct Hq as (rc & o & b & -> & _ & _). rewrite Eo, length_disk_bytes, Z2Nat.id, i32_small in * by lia.
  split; [|done]. split; [done|cbn; apply lookup_insert_eq|done|done].
Qed.

Lemma opened_write s p buf n :
  opened s p → i.(deny_write_cnt) = 0 → 0 <= p → 0 <= n <= Z.of_nat (length buf) → p + n <= i.(data).(length_) →
  ∃ s', file_write fp buf n s = Ok (n, s') ∧ opened s' (p + n) ∧ spliced s.(fs_device) (base i + p) buf n s'.(fs_device).
Proof.
  intros [Ha Hf Hl Hv] Hd Hp Hn Hle. pose proof Ha as [_ Hi Hfit Hwf Hm]. pose proof Hfit as (_ & Hlen & _).
  destruct (inode_write_at_ok i ip Hip s buf n p) as (k & s1 & E & Hw & _ & Hk & Hsp); [done || lia..|].
  specialize (Hk Hm). assert (k = n) as -> by (unfold avail in Hk; lia).
  unfold file_write. rewrite (run_bind _ _ _ _ _ (get_file_ok _ _ _ Hf)). cbn [f_inode pos].
  rewrite (run_bind _ _ _ _ _ E). erewrite run_bind by apply put_file_ok.
  eexists. split; [done|]. split; [|done]. rewrite i32_small by lia. cbn [deny_write].
  split; [|cbn; apply lookup_insert_eq| |done].
  - split; cbn; [by eexists; apply lookup_insert_eq|by rewrite (writes_inodes _ _ Hw)|
      by eapply (writes_fits _ _ _ Hw)|by eapply (writes_wf _ _ Hw)|by apply (writes_mem _ _ Hw)].
  - by destruct Hw as (? & ? & ? & -> & _).
Qed.

Lemma inode_close_live s :
  s.(inodes) !! ip = Some i → ip ∈ s.(open_inodes) → i.(removed) = false →
  ∃ s', inode_close ip s = Ok (tt, s') ∧ s'.(fs_device) = s.(fs_device).
Proof.
  intros Hi Hl Hr. unfold inode_close. rewrite (proj2 (Z.eqb_neq _ _)) by done.
  rewrite (run_bind _ _ _ _ _ (get_inode_ok _ _ _ Hi)). cbv zeta. cbn [open_cnt removed]. rewrite Hr.
  unfold put_inode at 1. rewrite (run_bind _ _ s tt _) by done. destruct (_ =? 0); [|by eexists].
  rewrite run_gets, (run_lift _ _ _ tt) by (cbn; by rewrite bool_decide_eq_true_2). by eexists.
Qed.

Lemma opened_close s p : opened s p → ∃ s', file_close fp s = Ok (tt, s') ∧ s'.(fs_device) = s.(fs_device).
Proof.
  intros [[_ Hi _ _ _] Hf Hl [Hr _]]. unfold file_close.
  assert (E : file_allow_write fp s = Ok (tt, s)).
  { unfold file_allow_write, fASSERT. rewrite (run_lift _ _ _ tt) by (by apply not_null).
    by rewrite (run_bind _ _ _ _ _ (get_file_ok _ _ _ Hf)). }
  rewrite (proj2 (Z.eqb_neq _ _)) by done. rewrite (run_bind _ _ _ _ _ E), (run_bind _ _ _ _ _ (get_file_ok _ _ _ Hf)).
  cbn [f_inode]. destruct (inode_close_live s Hi Hl Hr) as (s' & Es & Hd). rewrite (run_bind _ _ _ _ _ Es). by eexists.
Qed.
End file.

(** ** The scratch device *)

(** The device after a read and after a write. *)
Definition counted (d : block) : block :=
  mk_block d.(b_type) d.(b_size) d.(sectors) (u64 (d.(read_cnt) + 1)) d.(write_cnt).
Definition put_sector (d : block) (n : Z) (b : list Z) : block :=
  mk_block d.(b_type) d.(b_size) (<[n := b]> d.(sectors)) d.(read_cnt) (u64 (d.(write_cnt) + 1)).

Definition appended (s : uts) (g : fs) (d : block) (n : Z) : uts :=
  mk_uts g s.(u_pools) (Some d) s.(extract_sector) n s.(past) s.(u_console).
Definition extracted (s : uts) (g : fs) (d : block) (n : Z) : uts :=
  mk_uts g s.(u_pools) (Some d) n s.(append_sector) s.(past) s.(u_console).

Lemma scratch_read s d n :
  s.(scratch) = Some d → n < d.(b_size) → on_scratch (block_read n) s = Ok (sector_at d n, with_scratch (counted d) s).
Proof. intros E Hn. unfold on_scratch. rewrite E. by rewrite block_read_ok. Qed.

Lemma scratch_write s d n b :
  s.(scratch) = Some d → disk_wf d → n < d.(b_size) →
  on_scratch (block_write n b) s = Ok (tt, with_scratch (put_sector d n b) s).
Proof. intros E (_ & _ & Ht) Hn. unfold on_scratch. rewrite E. by rewrite block_write_ok. Qed.

Lemma put_sector_byte d n b x :
  disk_byte (put_sector d n b) x = if x / 512 =? n then b !!! Z.to_nat (x mod 512) else disk_byte d x.
Proof.
  unfold disk_byte, sector_at; cbn. destruct (Z.eqb_spec (x / 512) n) as [<-|Hne];
    [by rewrite lookup_insert_eq|by rewrite lookup_insert_ne].
Qed.

Lemma put_sector_wf d n b : disk_wf d → length b = 512%nat → disk_wf (put_sector d n b).
Proof. intros (H1 & H2) Hb. split; [|done]. by apply map_Forall_insert_2. Qed.

Lemma sector_eq d d' n :
  disk_wf d → disk_wf d' → (∀ x, x / 512 = n → disk_byte d' x = disk_byte d x) → sector_at d' n = sector_at d n.
Proof.
  intros Hd Hd' H. rewrite !sector_whole by done. unfold disk_bytes. apply list_fmap_ext. intros k x Hx.
  apply lookup_seqZ in Hx as [-> Hk]. apply H. zdm.
Qed.

Lemma disk_bytes_ext d d' a a' n :
  (∀ k, 0 <= k < n → disk_byte d' (a' + k) = disk_byte d (a + k)) → disk_bytes d' a' n = disk_bytes d a n.
Proof. intros H. unfold disk_bytes. apply list_fmap_ext. intros k x Hx. apply lookup_seqZ in Hx as [-> Hk]. apply H. lia. Qed.

Lemma run_on_fs {X Y} (f : M X) (k : X → A Y) s x g :
  f s.(u_fs) = Ok (x, g) →
  (on_fs f ≫= k) s = k x (mk_uts g s.(u_pools) s.(scratch) s.(extract_sector) s.(append_sector) s.(past) s.(u_console)).
Proof. intros E. unfold mbind, st_bind, on_fs. by rewrite E. Qed.

Lemma run_bind_panic {S X Y} (m : st S X) (k : X → st S Y) s : m s = Panic → (m ≫= k) s = Panic.
Proof. unfold mbind, st_bind. by intros ->. Qed.

(** ** Copying *)

(** How many sectors SIZE bytes take. *)
Abbreviation secs n := ((n + 511) / 512).

(** SIZE bytes from byte [a] of [d0] on, padded to whole sectors, at sector [n]. *)
Definition packed (d0 : block) (a size n : Z) (d d' : block) : Prop :=
  ∀ x, disk_byte d' x =
    if (512 * n <=? x) && (x <? 512 * (n + secs size))
    then if x - 512 * n <? size then disk_byte d0 (a + (x - 512 * n)) else 0
    else disk_byte d x.

Lemma packed_0 d0 a n d : packed d0 a 0 n d d.
Proof. intros x. destruct (Z.leb_spec (512 * n) x), (Z.ltb_spec x (512 * (n + secs 0))); cbn [andb]; zdm. Qed.

(** One sector of [c] bytes, and the rest after it. *)
Lemma packed_step d0 d0' a size n d d' bs c :
  0 < c <= size → (c = 512 ∨ c = size ∧ size <= 512) →
  bs = disk_bytes d0 a c → (∀ x, disk_byte d0' x = disk_byte d0 x) →
  packed d0' (a + c) (size - c) (n + 1) (put_sector d n (bs ++ replicate (Z.to_nat (512 - c)) 0)) d' →
  packed d0 a size n d d'.
Proof.
  intros Hc Hc' -> Hd0 H x. rewrite (H x), put_sector_byte, Hd0. clear H.
  assert (Hsec : secs size = secs (size - c) + 1) by (destruct Hc' as [-> | [-> ?]]; zdm). rewrite Hsec.
  pose proof (Z.div_mod x 512 ltac:(lia)) as Hx. pose proof (Z.mod_pos_bound x 512 ltac:(lia)) as Hm.
  assert (0 <= secs (size - c)) by (apply Z.div_pos; lia).
  destruct (Z.eqb_spec (x / 512) n) as [E | E].
  - rewrite (proj2 (Z.leb_gt (512 * (n + 1)) x)), (proj2 (Z.leb_le (512 * n) x)) by lia. cbn [andb].
    rewrite (proj2 (Z.ltb_lt x _)) by lia. replace (x - 512 * n) with (x mod 512) by lia.
    rewrite list_lookup_total_alt. destruct (Z.ltb_spec (x mod 512) size) as [Hlt | Hge].
    + rewrite lookup_app_l, disk_bytes_lookup, Z2Nat.id by (rewrite ?length_disk_bytes; lia). done.
    + rewrite lookup_app_r by (rewrite length_disk_bytes; lia). rewrite length_disk_bytes.
      by rewrite lookup_replicate_2 by lia.
  - repeat match goal with |- context [?a <=? ?b] => destruct (Z.leb_spec a b)
      | |- context [?a <? ?b] => destruct (Z.ltb_spec a b) end; cbn [andb]; try lia; try done.
    f_equal. destruct Hc' as [-> | [-> ?]]; lia.
Qed.

Section copy.
Context (fp ip : Z) (i : inode) (Hfp : fp ≠ NULL) (Hip : ip ≠ NULL).

Lemma append_loop fuel s p size d n :
  opened fp ip i s.(u_fs) p → 0 <= p → 0 <= size → p + size <= i.(data).(length_) →
  s.(scratch) = Some d → disk_wf d → s.(append_sector) = n → 0 <= n → n + secs size < d.(b_size) → (Z.to_nat size < fuel)%nat →
  ∃ g d', loop_st fuel (append_chunk fp) size s = Ok (tt, appended s g d' (n + secs size)) ∧
    opened fp ip i g (p + size) ∧ g.(fs_device).(sectors) = s.(u_fs).(fs_device).(sectors) ∧
    disk_wf d' ∧ d'.(b_size) = d.(b_size) ∧ packed s.(u_fs).(fs_device) (base i + p) size n d d'.
Proof.
  revert s p size d n. induction fuel as [|fuel IH]; intros s p size d n Ho Hp Hsz Hle Hd Hwf Hn Hn0 Hroom Hf; [lia|].
  destruct (Z.ltb_spec 0 size) as [Hpos | Hz]; cycle 1.
  { assert (size = 0) as -> by lia. exists s.(u_fs), d. rewrite (loop_st_done _ _ _ _ tt s) by done.
    change (secs 0) with 0. rewrite !Z.add_0_r. split; [destruct s; cbn in *; by subst|]. split; [done|].
    split; [done|]. split; [done|]. split; [done|]. apply packed_0. }
  set (c := if 512 <? size then 512 else size).
  assert (Hc : 0 < c <= size ∧ (c = 512 ∨ c = size ∧ size <= 512)) by (unfold c; destruct (Z.ltb_spec 512 size); lia).
  assert (Hsec : secs size = secs (size - c) + 1) by (destruct Hc as [_ [-> | [-> ?]]]; zdm).
  assert (0 <= secs (size - c)) by (apply Z.div_pos; lia). pose proof Hwf as (_ & Hsize & _).
  destruct (opened_read fp ip i Hip s.(u_fs) p c Ho Hp ltac:(lia) ltac:(lia)) as (g & Er & Ho' & Hs' & _).
  set (b := disk_bytes (fs_device (u_fs s)) (base i + p) c ++ replicate (Z.to_nat (512 - c)) 0).
  assert (Hb : length b = 512%nat) by (unfold b; rewrite length_app, length_disk_bytes, length_replicate; lia).
  assert (Eb : append_chunk fp size s = Ok (inl (size - c), appended s g (put_sector d n b) (n + 1))).
  { unfold append_chunk. rewrite (proj2 (Z.ltb_lt 0 size)) by done. unfold BLOCK_SECTOR_SIZE. fold c. cbv zeta.
    rewrite run_gets. rewrite (run_bind _ _ s d.(b_size) s); [|unfold on_scratch; rewrite Hd; cbn; unfold with_scratch; destruct s; cbn in *; by subst].
    rewrite (proj2 (Z.leb_gt _ _)) by lia. rewrite (run_on_fs _ _ _ _ _ Er), length_disk_bytes, Z2Nat.id, Z.eqb_refl by lia.
    cbn [negb]. erewrite (run_bind next_append) by reflexivity. cbn [append_sector u_fs]. rewrite Hn, u32_small by lia. fold b.
    erewrite run_bind by (apply (scratch_write _ d); [done|done|lia]). done. }
  rewrite (loop_st_next _ _ _ _ _ _ Eb).
  destruct (IH (appended s g (put_sector d n b) (n + 1)) (p + c) (size - c) (put_sector d n b) (n + 1))
    as (g' & d' & E & Ho2 & Hs2 & Hwf2 & Hsz2 & Hp2); [done || lia || by apply put_sector_wf || (cbn; lia) ..|].
  exists g', d'. rewrite E. replace (n + 1 + secs (size - c)) with (n + secs size) by lia.
  split; [done|]. split; [by replace (p + size) with (p + c + (size - c)) by lia|].
  split; [cbn in Hs2; by rewrite Hs2|]. split; [done|]. split; [done|].
  apply (packed_step _ g.(fs_device) _ _ _ _ _ (disk_bytes (fs_device (u_fs s)) (base i + p) c) c); [lia|lia|done| |].
  - intros x. unfold disk_byte, sector_at. by rewrite Hs'.
  - by rewrite <- Z.add_assoc.
Qed.

Lemma extract_loop fuel s p size d n :
  opened fp ip i s.(u_fs) p → i.(deny_write_cnt) = 0 → 0 <= p → 0 <= size → p + size <= i.(data).(length_) →
  s.(scratch) = Some d → disk_wf d → s.(extract_sector) = n → 0 <= n → n + secs size < d.(b_size) → (Z.to_nat size < fuel)%nat →
  ∃ g d', loop_st fuel (extract_chunk fp) size s = Ok (tt, extracted s g d' (n + secs size)) ∧
    opened fp ip i g (p + size) ∧ d'.(sectors) = d.(sectors) ∧ d'.(b_size) = d.(b_size) ∧ disk_wf d' ∧
    spliced s.(u_fs).(fs_device) (base i + p) (disk_bytes d (512 * n) size) size g.(fs_device).
Proof.
  revert s p size d n. induction fuel as [|fuel IH]; intros s p size d n Ho Hdeny Hp Hsz Hle Hd Hwf Hn Hn0 Hroom Hf; [lia|].
  destruct (Z.ltb_spec 0 size) as [Hpos | Hz]; cycle 1.
  { assert (size = 0) as -> by lia. exists s.(u_fs), d. rewrite (loop_st_done _ _ _ _ tt s) by done.
    change (secs 0) with 0. rewrite !Z.add_0_r. split; [destruct s; cbn in *; by subst|]. repeat (split; [done|]).
    intros x. destruct (Z.leb_spec (base i + p) x), (Z.ltb_spec x (base i + p + 0)); done || lia. }
  set (c := if 512 <? size then 512 else size).
  assert (Hc : 0 < c <= size ∧ (c = 512 ∨ c = size ∧ size <= 512)) by (unfold c; destruct (Z.ltb_spec 512 size); lia).
  assert (Hsec : secs size = secs (size - c) + 1) by (destruct Hc as [_ [-> | [-> ?]]]; zdm).
  assert (0 <= secs (size - c)) by (apply Z.div_pos; lia). pose proof Hwf as (_ & Hsize & _).
  pose proof (sector_length d n Hwf) as Hsl.
  destruct (opened_write fp ip i Hip s.(u_fs) p (sector_at d n) c Ho Hdeny Hp ltac:(lia) ltac:(lia)) as (g & Ew & Ho' & Hsp).
  assert (Eb : extract_chunk fp size s = Ok (inl (size - c), extracted s g (counted d) (n + 1))).
  { unfold extract_chunk. rewrite (proj2 (Z.ltb_lt 0 size)) by done. unfold BLOCK_SECTOR_SIZE. fold c. cbv zeta.
    erewrite (run_bind next_extract) by reflexivity. rewrite Hn, u32_small by lia.
    erewrite run_bind by (apply (scratch_read _ d); [done|lia]). erewrite run_on_fs by exact Ew. by rewrite Z.eqb_refl. }
  rewrite (loop_st_next _ _ _ _ _ _ Eb).
  destruct (IH (extracted s g (counted d) (n + 1)) (p + c) (size - c) (counted d) (n + 1))
    as (g' & d' & E & Ho2 & Hs2 & Hsz2 & Hwf2 & Hp2); [done || lia || (cbn; lia) ..|].
  exists g', d'. rewrite E. replace (n + 1 + secs (size - c)) with (n + secs size) by lia.
  split; [done|]. split; [by replace (p + size) with (p + c + (size - c)) by lia|].
  split; [done|]. split; [done|]. split; [done|].
  intros x. rewrite (Hp2 x). cbn [u_fs extracted]. rewrite (Hsp x).
  change (disk_bytes (counted d)) with (disk_bytes d). rewrite (sector_whole d n Hwf).
  assert (Hl : ∀ a k m, 0 <= k < m → disk_bytes d a m !!! Z.to_nat k = disk_byte d (a + k)).
  { intros a k m Hk. rewrite list_lookup_total_alt, disk_bytes_lookup, Z2Nat.id by lia. done. }
  repeat match goal with |- context [?a <=? ?b] => destruct (Z.leb_spec a b)
      | |- context [?a <? ?b] => destruct (Z.ltb_spec a b) end; cbn [andb]; try lia; try done;
    rewrite !Hl by lia; f_equal; lia.
Qed.
End copy.

(** ** Archives *)

(** At sector [n], the header of a regular file of this name, and from the next
    sector on the SIZE bytes from byte [a] of [d0]. *)
Record archived (d : block) (n : Z) (name : list Z) (d0 : block) (a size : Z) : Prop := {
  ar_header : ustar_parse_header (sector_at d n) = inr (Some name, USTAR_REGULAR, size);
  ar_data : disk_bytes d (512 * (n + 1)) size = disk_bytes d0 a size }.

Lemma packed_sector d0 a size n d d' x :
  packed d0 a size n d d' → disk_wf d → disk_wf d' → x < n ∨ n + secs size <= x → sector_at d' x = sector_at d x.
Proof.
  intros Hp Hd Hd' Hx. apply sector_eq; [done..|]. intros y Hy. rewrite (Hp y).
  pose proof (Z.div_mod y 512 ltac:(lia)). pose proof (Z.mod_pos_bound y 512 ltac:(lia)).
  destruct (Z.leb_spec (512 * n) y), (Z.ltb_spec y (512 * (n + secs size))); cbn [andb]; done || lia.
Qed.

Lemma packed_bytes d0 a size n d d' : 0 <= size → packed d0 a size n d d' → disk_bytes d' (512 * n) size = disk_bytes d0 a size.
Proof.
  intros Hs Hp. apply disk_bytes_ext. intros k Hk. rewrite (Hp _). assert (size <= 512 * secs size) by zdm.
  rewrite (proj2 (Z.leb_le _ _)), (proj2 (Z.ltb_lt _ _)), (proj2 (Z.ltb_lt _ _)) by lia. cbn [andb]. f_equal. lia.
Qed.

Lemma sector_put d n b x : sector_at (put_sector d n b) x = if x =? n then b else sector_at d x.
Proof.
  unfold sector_at; cbn. destruct (Z.eqb_spec x n) as [->|Hne]; [by rewrite lookup_insert_eq|by rewrite lookup_insert_ne].
Qed.

(** The sector that fsutil_append() leaves after the last file. *)
Definition marker (p : Z) : list Z := drop 1 (zero_sector ++ [p]).

Lemma marker_length p : length (marker p) = 512%nat.
Proof. done. Qed.

Lemma append_marker_ok s d n :
  s.(scratch) = Some d → disk_wf d → s.(append_sector) = n → n < d.(b_size) →
  append_marker s = Ok (tt, with_scratch (put_sector (put_sector d n zero_sector) n (marker s.(past))) s).
Proof.
  intros Hd Hwf Hn Hlt. unfold append_marker. rewrite run_gets, Hn.
  erewrite run_bind by (by apply (scratch_write _ d)). rewrite run_gets. cbn [with_scratch past].
  by erewrite (scratch_write _ (put_sector d n zero_sector)) by (done || by apply put_sector_wf).
Qed.

Section append.
Context (file_name : list Z) (Hchars : Forall (λ c, 0 < c < 256) file_name).
Context (fp ip : Z) (i : inode) (Hfp : fp ≠ NULL) (Hip : ip ≠ NULL).
Local Notation size := (i.(data).(length_)).
Local Notation nm := (strip_antisocial_prefixes file_name).

Lemma append_ok s f1 d n :
  (length nm <= 99)%nat →
  mem_ok s.(u_fs) → (malloc;; filesys_open file_name) s.(u_fs) = Ok (fp, f1) → opened fp ip i f1 0 →
  s.(scratch) = Some d → disk_wf d → s.(append_sector) = n → 0 <= n → n + 1 + secs size < d.(b_size) →
  let e := n + 1 + secs size in
  ∃ g d', fsutil_append file_name s = Ok (tt, appended s g d' e) ∧
    g.(fs_device).(sectors) = f1.(fs_device).(sectors) ∧ disk_wf d' ∧ d'.(b_size) = d.(b_size) ∧
    archived d' n nm f1.(fs_device) (base i) size ∧ sector_at d' e = marker s.(past) ∧
    ∀ x, x < n ∨ e < x → sector_at d' x = sector_at d x.
Proof.
  intros Hnm Hm Hopen Ho Hd Hwf Hn Hn0 Hroom e. pose proof Hwf as (_ & Hds & _).
  pose proof Ho as [[_ Hi (_ & Hlen & _) _ _] Hf _ _]. assert (Hse : 0 <= secs size) by zdm.
  destruct (malloc_ok s.(u_fs) Hm) as (f0 & Em & _ & _). rewrite (run_bind _ _ _ _ _ Em) in Hopen.
  destruct (make_parse_header file_name USTAR_REGULAR size) as (h & Eh & Hh & Ep); [by left|done..|].
  unfold fsutil_append. rewrite (run_on_fs _ _ _ _ _ Em), (proj2 (Z.eqb_neq _ _)) by (destruct Hm; lia).
  erewrite run_on_fs by exact Hopen. rewrite (proj2 (Z.eqb_neq _ _)) by done.
  erewrite run_on_fs; cycle 1.
  { unfold file_length, fASSERT. rewrite (run_lift _ _ _ tt) by (by apply not_null).
    cbn [u_fs]. rewrite (run_bind _ _ _ _ _ (get_file_ok _ _ _ Hf)). cbn [f_inode]. by apply inode_length_ok. }
  rewrite run_gets. cbn [scratch]. rewrite Hd. rewrite (run_lift _ _ _ _ Eh).
  erewrite (run_bind next_append) by reflexivity. cbn [append_sector]. rewrite Hn, u32_small by lia.
  erewrite run_bind by (apply (scratch_write _ d); [done|done|lia]).
  pose proof (put_sector_wf d n h Hwf Hh) as Hwf1. set (d1 := put_sector d n h) in *.
  set (s1 := with_scratch d1 _).
  destruct (append_loop fp ip i Hip (S (Z.to_nat size)) s1 0 size d1 (n + 1)) as (g & d2 & El & Ho2 & Hg & Hwf2 & Hsz2 & Hp);
    [done || lia || (cbn; lia)..|]. fold e in El. rewrite Z.add_0_r in Hp. change (u_fs s1) with f1 in Hp. unfold append_copy. rewrite (run_bind _ _ _ _ _ El).
  assert (Hs2 : d2.(b_size) = d.(b_size)) by done.
  erewrite run_bind by (apply (append_marker_ok _ d2 e); [done|done|done|unfold e; lia]).
  destruct (opened_close fp ip i Hfp Hip g _ Ho2) as (g' & Ec & Hgd).
  pose proof (put_sector_wf d2 e zero_sector Hwf2 eq_refl) as Hwf3.
  pose proof (put_sector_wf _ e (marker s.(past)) Hwf3 eq_refl) as Hwf4.
  set (d4 := put_sector (put_sector d2 e zero_sector) e (marker s.(past))) in *.
  assert (Hkeep : ∀ x, x ≠ e → sector_at d4 x = sector_at d2 x).
  { intros x Hx. unfold d4. by rewrite !sector_put, (proj2 (Z.eqb_neq _ _)). }
  exists g', d4. split; [unfold on_fs; cbn [u_fs with_scratch appended]; rewrite Ec; done|].
  split; [by rewrite Hgd|]. split; [done|]. split; [done|]. split; [split|split].
  - rewrite Hkeep, (packed_sector _ _ _ _ _ _ n Hp Hwf1 Hwf2) by lia. unfold d1. by rewrite sector_put, Z.eqb_refl.
  - rewrite <- (packed_bytes _ _ _ _ _ _ (proj1 Hlen) Hp). apply disk_bytes_ext. intros k Hk. unfold disk_byte.
    rewrite Hkeep; [done|]. unfold e. zdm.
  - unfold d4. by rewrite sector_put, Z.eqb_refl.
  - intros x Hx. rewrite Hkeep, (packed_sector _ _ _ _ _ _ x Hp Hwf1 Hwf2) by lia. unfold d1.
    by rewrite sector_put, (proj2 (Z.eqb_neq _ _)) by lia.
Qed.
End append.

Lemma parse_marker p :
  ustar_parse_header (marker p) = if p =? 0 then inr (None, USTAR_EOF, 0) else inl (lit "not a ustar archive").
Proof.
  destruct (Z.eqb_spec p 0) as [-> | Hp]; [done|].
  unfold ustar_parse_header. by rewrite (not_all_zeros (marker p) 511 p).
Qed.

Lemma extract_entry_marker t d e p :
  t.(scratch) = Some d → t.(extract_sector) = e → 0 <= e < d.(b_size) → disk_wf d → sector_at d e = marker p →
  extract_entry t = if p =? 0 then Ok (false, extracted t t.(u_fs) (counted d) (e + 1)) else Panic.
Proof.
  intros Hd He Hlt (_ & Hsz & _) Hm. unfold extract_entry. erewrite (run_bind next_extract) by reflexivity.
  rewrite He, u32_small by lia. erewrite run_bind by (apply (scratch_read _ d); [done|lia]).
  rewrite Hm, parse_marker. by destruct (p =? 0).
Qed.

Section extract.
Context (name : list Z) (fq jp : Z) (j : inode) (Hfq : fq ≠ NULL) (Hjp : jp ≠ NULL) (Hdeny : j.(deny_write_cnt) = 0).
Local Notation size := (j.(data).(length_)).

(** Creating the file and opening it. *)
Definition make_file : M (bool * Z) :=
  ok ← filesys_create name size; fp ← filesys_open name; mret (ok, fp).

Lemma extract_entry_file t d n d0 a f2 :
  t.(scratch) = Some d → t.(extract_sector) = n → 0 <= n → n + 1 + secs size < d.(b_size) → disk_wf d →
  archived d n name d0 a size → make_file t.(u_fs) = Ok ((true, fq), f2) → opened fq jp j f2 0 →
  ∃ g d', extract_entry t = Ok (true, extracted t g d' (n + 1 + secs size)) ∧
    d'.(sectors) = d.(sectors) ∧ d'.(b_size) = d.(b_size) ∧ disk_wf d' ∧
    spliced f2.(fs_device) (base j) (disk_bytes d0 a size) size g.(fs_device).
Proof.
  intros Hd Hn Hn0 Hroom Hwf [Hh Hb] Hmake Ho. pose proof Hwf as (_ & Hsz & _).
  pose proof Ho as [[_ _ (_ & Hlen & _) _ _] _ _ _]. assert (Hse : 0 <= secs size) by zdm.
  apply run_bind_inv in Hmake as (ok & f1 & E1 & Hmake). apply run_bind_inv in Hmake as (fq' & f2' & E2 & [= -> -> ->]).
  unfold extract_entry. erewrite (run_bind next_extract) by reflexivity.
  rewrite Hn, u32_small by lia. erewrite run_bind by (apply (scratch_read _ d); [done|lia]). rewrite Hh.
  change (USTAR_REGULAR =? USTAR_EOF) with false. change (USTAR_REGULAR =? USTAR_DIRECTORY) with false.
  rewrite Z.eqb_refl. cbv iota. cbn [default]. erewrite run_on_fs by exact E1. cbn [negb].
  erewrite run_on_fs by exact E2. rewrite (proj2 (Z.eqb_neq _ _)) by done.
  set (t1 := mk_uts f2 _ _ _ _ _ _).
  destruct (extract_loop fq jp j Hjp (S (Z.to_nat size)) t1 0 size (counted d) (n + 1)) as (g & d' & El & Ho2 & Hs & Hs2 & Hwf' & Hsp);
    [done || lia || (cbn; lia)..|]. unfold extract_copy. rewrite (run_bind _ _ _ _ _ El).
  destruct (opened_close fq jp j Hfq Hjp g _ Ho2) as (g' & Ec & Hgd). erewrite run_on_fs by exact Ec.
  exists g', d'. split; [done|]. split; [done|]. split; [done|]. split; [done|].
  change (disk_bytes (counted d)) with (disk_bytes d) in Hsp. rewrite Hb, Z.add_0_r in Hsp. by rewrite Hgd.
Qed.

(** An archive of one file at the counter of fsutil_extract(). *)
Lemma extract_ok t d n d0 a f2 p :
  t.(scratch) = Some d → t.(extract_sector) = n → 0 <= n → n + 1 + secs size < d.(b_size) → disk_wf d →
  archived d n name d0 a size → sector_at d (n + 1 + secs size) = marker p →
  mem_ok t.(u_fs) → (malloc;; malloc;; make_file) t.(u_fs) = Ok ((true, fq), f2) → opened fq jp j f2 0 →
  if p =? 0 then
    ∃ g d', fsutil_extract t = Ok (tt, extracted t g d' (n + 2 + secs size)) ∧
      spliced f2.(fs_device) (base j) (disk_bytes d0 a size) size g.(fs_device) ∧
      ∀ x, sector_at d' x = if (x =? 0) || (x =? 1) then zero_sector else sector_at d x
  else fsutil_extract t = Panic.
Proof.
  intros Hd Hn Hn0 Hroom Hwf Har Hmark Hm Hmake Ho. pose proof Hwf as (_ & Hsz & _).
  pose proof Ho as [[_ _ (_ & Hlen & _) _ _] _ _ _]. assert (Hse : 0 <= secs size) by zdm.
  destruct (malloc_ok t.(u_fs) Hm) as (f0 & Em & Hm0 & _). rewrite (run_bind _ _ _ _ _ Em) in Hmake.
  destruct (malloc_ok f0 Hm0) as (f0' & Em0 & _). rewrite (run_bind _ _ _ _ _ Em0) in Hmake.
  unfold fsutil_extract. rewrite (run_on_fs _ _ _ _ _ Em). erewrite run_on_fs by exact Em0.
  rewrite (proj2 (Z.eqb_neq (brk t.(u_fs)) 0)), (proj2 (Z.eqb_neq (brk f0) 0)) by (destruct Hm, Hm0; lia). cbn [orb].
  rewrite run_gets. cbn [scratch]. rewrite Hd. cbv iota. rewrite run_gets. unfold extract_fuel at 1. cbn [scratch].
  set (t0 := mk_uts f0' _ _ _ _ _ _).
  destruct (extract_entry_file t0 d n d0 a f2 eq_refl Hn Hn0 Hroom Hwf Har Hmake Ho) as (g & d' & Ee & Hs & Hs2 & Hwf' & Hsp).
  assert (Eb : extract_turn tt t0 = Ok (inl tt, extracted t0 g d' (n + 1 + secs size))) by (unfold extract_turn; by rewrite (run_bind _ _ _ _ _ Ee)).
  set (t1 := extracted t0 g d' _) in *.
  assert (Em1 : extract_entry t1 = if p =? 0 then Ok (false, extracted t1 g (counted d') (n + 1 + secs size + 1)) else Panic).
  { apply (extract_entry_marker t1 d' (n + 1 + secs size) p); [done|done|lia|done|]. rewrite <- Hmark. unfold sector_at. by rewrite Hs. }
  destruct (p =? 0).
  - assert (El : loop_st (S (S (Z.to_nat d.(b_size)))) extract_turn tt t0 = Ok (tt, extracted t1 g (counted d') (n + 1 + secs size + 1))).
    { rewrite (loop_st_next _ _ _ _ _ _ Eb). apply loop_st_done. unfold extract_turn. by rewrite (run_bind _ _ _ _ _ Em1). }
    rewrite (run_bind _ _ _ _ _ El). pose proof (put_sector_wf (counted d') 0 zero_sector Hwf' eq_refl) as Hwf1.
    erewrite run_bind by (apply (scratch_write _ (counted d')); [done|done|cbn; lia]).
    erewrite (scratch_write _ (put_sector (counted d') 0 zero_sector)) by (done || (cbn; lia)).
    exists g, (put_sector (put_sector (counted d') 0 zero_sector) 1 zero_sector).
    split; [by replace (n + 1 + secs size + 1) with (n + 2 + secs size) by lia|]. split; [done|].
    intros x. rewrite !sector_put. unfold sector_at at 1. cbn [sectors counted]. rewrite Hs.
    by destruct (x =? 0), (x =? 1).
  - assert (El : loop_st (S (S (Z.to_nat d.(b_size)))) extract_turn tt t0 = Panic).
    { rewrite (loop_st_next _ _ _ _ _ _ Eb). unfold loop_st. cbn [loop]. unfold extract_turn, mbind, st_bind. by rewrite Em1. }
    by rewrite (run_bind_panic _ _ _ El).
Qed.
End extract.

(** ** Properties *)


(** A file of 600 bytes on a new file system, and a new file system without it. *)
Definition demo_setup : M unit :=
  formatted;;
  filesys_create (lit "ab") 600;;
  fp ← filesys_open (lit "ab");
  file_write fp (replicate 600 7) 600;;
  file_close fp.
Definition after {X} (m : M X) (s : fs) : fs := match m s with Ok (_, s') => s' | _ => s end.
Definition demo_src : fs := Eval vm_compute in after demo_setup blank_fs.
Definition demo_dst : fs := Eval vm_compute in after formatted blank_fs.
Definition demo_scratch : block := mk_block BLOCK_SCRATCH 20 ∅ 0 0.
Definition demo_from : uts := mk_uts demo_src demo_pst (Some demo_scratch) 0 0 0 [].
Definition demo_to (d : block) : uts := mk_uts demo_dst demo_pst (Some d) 0 0 0 [].
Definition demo_open_src : fs := Eval vm_compute in after (malloc;; filesys_open (lit "ab")) demo_src.
Definition demo_i : inode := Eval vm_compute in default demo_inode (demo_open_src.(inodes) !! 45).
Definition demo_new : inode := mk_inode 0 0 false 0 (mk_inode_disk 0 600 0 []).
Definition demo_open_dst : fs := Eval vm_compute in after (malloc;; malloc;; make_file (lit "ab") demo_new) demo_dst.
Definition demo_j : inode := Eval vm_compute in default demo_inode (demo_open_dst.(inodes) !! 40).

(** The conditions on an open file, checked by computation. *)
Lemma opened_check fp ip i s :
  s.(files) !! fp = Some (mk_file ip 0 false) → s.(inodes) !! ip = Some i →
  bool_decide (ip ∈ s.(open_inodes) ∧ i.(removed) = false ∧ 1 <= i.(open_cnt) < 2147483648 ∧
    0 <= i.(data).(start) ∧ 0 <= i.(data).(length_) < 2147483648 ∧
    i.(data).(start) + secs i.(data).(length_) <= s.(fs_device).(b_size)) = true →
  bool_decide (map_Forall (λ _ b, length b = 512%nat) s.(fs_device).(sectors)) = true →
  bool_decide (0 <= s.(fs_device).(b_size) < 4294967296 ∧ s.(fs_device).(b_type) ≠ BLOCK_FOREIGN ∧ true ∉ s.(oom) ∧ 0 < s.(brk)) = true →
  opened fp ip i s 0.
Proof.
  intros Hf Hi (? & ? & ? & ? & ? & ?)%bool_decide_eq_true_1 ?%bool_decide_eq_true_1 (? & ? & ? & ?)%bool_decide_eq_true_1.
  split; [split; [by exists false|done|done|done|done]|done|done|done].
Qed.

Lemma demo_src_opened : opened 46 45 demo_i demo_open_src 0.
Proof. by apply opened_check; vm_compute. Qed.
Lemma demo_dst_opened : opened 41 40 demo_j demo_open_dst 0.
Proof. by apply opened_check; vm_compute. Qed.
Lemma demo_scratch_wf : disk_wf demo_scratch.
Proof. split; [apply map_Forall_empty|done]. Qed.


(** The other utilities on that file system: a listing, a removal, and a removal
    that stops the kernel because the file is gone. *)
Example fsutil_demo :
  (fsutil_rm (lit "ab");; fsutil_ls;; gets u_console) demo_from ≫= (λ r, Ok (fst r)) =
    Ok (lit "Files in the root directory:" ++ [10] ++ lit "End of listing." ++ [10]) ∧
  (fsutil_ls;; gets u_console) demo_from ≫= (λ r, Ok (fst r)) =
    Ok (lit "Files in the root directory:" ++ [10] ++ lit "ab" ++ [10] ++ lit "End of listing." ++ [10]) ∧
  (fsutil_rm (lit "ab");; fsutil_rm (lit "ab")) demo_from = Panic ∧
  ((λ r, length (fst r)) <$> (fsutil_cat (lit "ab");; gets u_console) demo_from) = Ok (32 + 38 * 77)%nat.
Proof. split; [by vm_compute|split; [by vm_compute|by vm_compute]]. Qed.
