(* ===== verification/Console.v ===== *)
(** * The console: lib/kernel/console.c

    The console lock over the threads of Synch.v.  A thread inside a console
    function has a task: the characters it has yet to write.  acquire_console()
    may put the thread to sleep, so that a call is its beginning
    ([console_call]), then one step for each character and one for
    release_console() ([task_step]), with steps of the machine between them; a
    thread that calls a console function inside another one stacks a second
    task.  In an interrupt handler, or after a panic, nothing sleeps, and the
    functions are [putbuf] and the others as they stand.

    [c_out] is what serial_putc() and vga_putc() have got, each character with
    the thread that wrote it, or a null pointer for an interrupt handler.
    [asked] and [finished] are not in the code: they record which texts the calls
    of a thread stand for and which of them have returned. *)

From Stdlib Require Import String.
From S2P Require Import Prelude Vaddr Thread Synch.
From S2P Require CString Stdio.

Open Scope Z_scope.

(** ** Definitions *)

Record cst := mk_cst {
  ck : kst;
  use_console_lock : bool;
  console_lock_depth : Z;
  console_write_cnt : Z;
  c_out : list (Z * Z);
  tasks : gmap Z (list (list Z));
  asked : gmap Z (list Z);
  finished : list (list Z) }.

Abbreviation C := (st cst).

Definition with_ck (k : kst) (s : cst) : cst :=
  mk_cst k s.(use_console_lock) s.(console_lock_depth) s.(console_write_cnt) s.(c_out) s.(tasks) s.(asked) s.(finished).
Definition with_use (b : bool) (s : cst) : cst :=
  mk_cst s.(ck) b s.(console_lock_depth) s.(console_write_cnt) s.(c_out) s.(tasks) s.(asked) s.(finished).
Definition with_depth (n : Z) (s : cst) : cst :=
  mk_cst s.(ck) s.(use_console_lock) n s.(console_write_cnt) s.(c_out) s.(tasks) s.(asked) s.(finished).
Definition with_tasks (m : gmap Z (list (list Z))) (a : gmap Z (list Z)) (f : list (list Z)) (s : cst) : cst :=
  mk_cst s.(ck) s.(use_console_lock) s.(console_lock_depth) s.(console_write_cnt) s.(c_out) m a f.

Definition on_k {X} (f : K X) : C X := λ s,
  match f s.(ck) with
  | Ok (x, k) => Ok (x, with_ck k s)
  | Panic => Panic | Wild => Wild | NoFuel => NoFuel
  end.

Section console.
(** The address of the lock. *)
Context (console_lock : Z).

Definition console_init : C unit :=
  on_k (lock_init console_lock);; modify (with_use true).

Definition console_panic : C unit := modify (with_use false).

Definition acquire_console : C unit :=
  ctx ← on_k intr_context;
  u ← gets use_console_lock;
  when (negb ctx && u)
    (held ← on_k (lock_held_by_current_thread console_lock);
     if (held : bool) then modify (λ s, with_depth (i32 (s.(console_lock_depth) + 1)) s)
     else on_k (lock_acquire console_lock)).

Definition release_console : C unit :=
  ctx ← on_k intr_context;
  u ← gets use_console_lock;
  when (negb ctx && u)
    (d ← gets console_lock_depth;
     if 0 <? d then modify (with_depth (d - 1))
     else on_k (lock_release console_lock)).

Definition console_locked_by_current_thread : C bool :=
  ctx ← on_k intr_context;
  if (ctx : bool) then mret true
  else
    u ← gets use_console_lock;
    if negb u then mret true else on_k (lock_held_by_current_thread console_lock).

Definition putchar_have_lock (c : Z) : C unit :=
  locked ← console_locked_by_current_thread;
  lift (ASSERT locked);;
  ctx ← on_k intr_context;
  t ← on_k running_thread;
  modify (λ s, mk_cst s.(ck) s.(use_console_lock) s.(console_lock_depth) (i64 (s.(console_write_cnt) + 1))
                 (s.(c_out) ++ [(if (ctx : bool) then NULL else t, u8 c)]) s.(tasks) s.(asked) s.(finished)).

(** The loops of putbuf(), puts() and __vprintf() over the characters. *)
Fixpoint put_all (cs : list Z) : C unit :=
  match cs with [] => mret tt | c :: cs => putchar_have_lock c;; put_all cs end.

Definition putbuf (buffer : list Z) : C unit :=
  acquire_console;; put_all buffer;; release_console.

Definition puts (s : list Z) : C Z :=
  acquire_console;; put_all s;; putchar_have_lock 10;; release_console;; mret 0.

Definition putchar (c : Z) : C Z :=
  acquire_console;; putchar_have_lock c;; release_console;; mret c.

(** vprintf_helper() counts each character. *)
Definition vprintf (m : CString.mem) (format : list Z) (args : list Z) : C Z :=
  acquire_console;;
  out ← lift (Stdio.vprintf m format args);
  put_all out;;
  release_console;;
  mret (Z.of_nat (length out)).

(** A call by a thread up to the return of acquire_console().  Inside another call,
    the text goes between what that one has written and what it has left. *)
Definition stack_of (s : cst) (t : Z) : list (list Z) := default [] (s.(tasks) !! t).

Definition console_call (text : list Z) : C unit :=
  t ← on_k thread_current;
  acquire_console;;
  modify (λ s,
    let old := concat (stack_of s t) in
    let before := take (length (default [] (s.(asked) !! t)) - length old) (default [] (s.(asked) !! t)) in
    with_tasks (<[t := text :: stack_of s t]> s.(tasks))
      (<[t := match stack_of s t with [] => text | _ => before ++ text ++ old end]> s.(asked)) s.(finished) s).

(** The next character of the innermost call, or its end. *)
Definition task_step : C unit :=
  t ← on_k thread_current;
  stk ← gets (λ s, stack_of s t);
  match stk with
  | [] => mret tt
  | (c :: cs) :: rest =>
      putchar_have_lock c;;
      modify (λ s, with_tasks (<[t := cs :: rest]> s.(tasks)) s.(asked) s.(finished) s)
  | [] :: rest =>
      release_console;;
      modify (λ s,
        with_tasks (<[t := rest]> s.(tasks)) s.(asked)
          (match rest with [] => s.(finished) ++ [default [] (s.(asked) !! t)] | _ => s.(finished) end) s)
  end.

(** An interrupt handler that prints. *)
Definition intr_print (text : list Z) : C unit :=
  on_k (modify (with_external true false));;
  putbuf text;;
  on_k (modify (with_external false false)).

(** ** The machine *)

(** Calls that leave the console lock to this file. *)
Definition op_ok (o : op) : bool :=
  match o with
  | OpAcquire l | OpTryAcquire l | OpRelease l | OpWait _ l => negb (l =? console_lock)
  | _ => true
  end.

Definition is_exit (o : op) : bool := match o with OpExit => true | _ => false end.

Inductive cstep : cst → cst → Prop :=
| cs_resume s k : busy s.(ck) = true → resume s.(ck) = Ok (tt, k) → cstep s (with_ck k s)
| cs_op s o k :
    busy s.(ck) = false → s.(ck).(intr_on) = true → fresh_page o s.(ck) → op_ok o = true →
    (is_exit o = true → stack_of s s.(ck).(running) = []) → run_op o s.(ck) = Ok (tt, k) → cstep s (with_ck k s)
| cs_timer s k :
    s.(ck).(intr_on) = true → intr_handler timer_interrupt s.(ck) = Ok (tt, k) → cstep s (with_ck k s)
| cs_intr s text s' : s.(ck).(intr_on) = true → s.(ck).(in_external_intr) = false → intr_print text s = Ok (tt, s') → cstep s s'
| cs_call s text s' :
    busy s.(ck) = false → s.(ck).(intr_on) = true → s.(ck).(in_external_intr) = false →
    s.(console_lock_depth) < 2147483647 → console_call text s = Ok (tt, s') → cstep s s'
| cs_task s s' :
    busy s.(ck) = false → s.(ck).(intr_on) = true → s.(ck).(in_external_intr) = false → task_step s = Ok (tt, s') → cstep s s'.

(** ** What other code does to the console lock *)

Definition about (f : frame) : bool :=
  match f with
  | FHolder l | FUp (SLock l) | FDown (SLock l) _ | FAcquire l => l =? console_lock
  | _ => false
  end.

(** The pending functions of thread [t] that are about the lock. *)
Definition pending (k : kst) (t : Z) : list frame := List.filter about (default [] (fr k !! t)).

Definition same_cl (k k' : kst) : Prop :=
  k'.(holders) !! console_lock = k.(holders) !! console_lock ∧ ∀ t, pending k' t = pending k t.

#[local] Instance same_cl_preorder : PreOrder same_cl.
Proof. split; [done|]. intros k1 k2 k3 [H1 H2] [H3 H4]. split; [by rewrite H3|]. intros t. by rewrite H4. Qed.

Lemma same_cl_locks k k' : same_locks k k' → same_cl k k'.
Proof. intros (E1 & _ & E3 & _). split; [by rewrite E3|]. intros t. unfold pending. by rewrite E1. Qed.

Lemma same_cl_sema x v k k' : set_sema x v k k' → same_cl k k'.
Proof. intros (E1 & _ & E3 & _). split; [by rewrite E3|]. intros t. unfold pending. by rewrite E1. Qed.

Lemma pending_set k k' t fs u : fr k' = <[t := fs]> (fr k) → pending k' u = if decide (u = t) then List.filter about fs else pending k u.
Proof.
  intros E. unfold pending. rewrite E. case_decide as D; [subst; by rewrite lookup_insert_eq|by rewrite lookup_insert_ne].
Qed.

Lemma same_cl_fr t fs fs' k k' :
  fr k !! t = Some fs → set_fr t fs' k k' → List.filter about fs' = List.filter about fs → same_cl k k'.
Proof.
  intros Hfs (E1 & _ & E3 & _) Hf. split; [by rewrite E3|]. intros u. rewrite (pending_set _ _ _ _ _ E1).
  case_decide as D; [|done]. subst. unfold pending. by rewrite Hfs.
Qed.

Lemma same_cl_push f fs t k k' : fr k !! t = Some fs → set_fr t (f :: fs) k k' → about f = false → same_cl k k'.
Proof. intros Hfs Hs Hf. apply (same_cl_fr t fs (f :: fs)); [done|done|]. cbn. by rewrite Hf. Qed.

Lemma same_cl_pop f fs t k k' : fr k !! t = Some (f :: fs) → set_fr t fs k k' → about f = false → same_cl k k'.
Proof. intros Hfs Hs Hf. apply (same_cl_fr t (f :: fs) fs); [done|done|]. cbn. by rewrite Hf. Qed.

Lemma push_cl f k u k' : about f = false → push_frame f k = Ok (u, k') → same_cl k k'.
Proof. intros Hf (fs & Hfs & Hset & _)%push_fr. by eapply (same_cl_push f). Qed.

Lemma set_holder_cl l t k u k' : l ≠ console_lock → set_holder l t k = Ok (u, k') → same_cl k k'.
Proof. intros Hl (h & _ & ->)%set_holder_inv. split; [|done]. cbn. by rewrite lookup_insert_ne. Qed.

Lemma sema_up_cl x k u k' : sema_up x k = Ok (u, k') → same_cl k k'.
Proof. intros (v & _ & H)%sema_up_inv. by eapply same_cl_sema. Qed.

Lemma sema_down_cl x k u k' : about (FDown x true) = false → sema_down x k = Ok (u, k') → same_cl k k'.
Proof. intros Hx (fs & Hfs & Hset)%sema_down_fr. eapply (same_cl_push (FDown x _)); [done|done|]. by destruct x. Qed.

Lemma lock_acquire_cl l k u k' : l ≠ console_lock → lock_acquire l k = Ok (u, k') → same_cl k k'.
Proof.
  intros Hl (fs & Hfs & Hset)%lock_acquire_fr. eapply same_cl_fr; [done|done|]. cbn. by rewrite (proj2 (Z.eqb_neq _ _) Hl).
Qed.

Lemma lock_release_cl l k u k' : l ≠ console_lock → lock_release l k = Ok (u, k') → same_cl k k'.
Proof.
  unfold lock_release. intros Hl H. run_inv H. apply held_inv in R as (-> & _). run_inv H. apply kASSERT_inv in R as [-> _].
  run_inv H. apply set_holder_cl in R; [|done]. etrans; [exact R|]. eapply push_cl; [|done]. cbn. by apply Z.eqb_neq.
Qed.

Lemma try_acquire_cl l k u k' : l ≠ console_lock → lock_try_acquire l k = Ok (u, k') → same_cl k k'.
Proof.
  unfold lock_try_acquire. intros Hl H. run_inv H. apply held_inv in R as (-> & _). run_inv H. apply kASSERT_inv in R as [-> _].
  run_inv H. apply sema_try_down_inv in R as (v & _ & _ & Hb). run_inv H. injection H as -> <-.
  destruct u; unfold when in R.
  - destruct Hb as [_ Hb]. etrans; [by eapply same_cl_sema|]. eapply push_cl; [|done]. cbn. by apply Z.eqb_neq.
  - injection R as _ <-. by apply same_cl_locks.
Qed.

Lemma cond_wait_cl c l k u k' : l ≠ console_lock → cond_wait c l k = Ok (u, k') → same_cl k k'.
Proof.
  unfold cond_wait. intros Hl H. run_inv H. injection R as <- <-. run_inv H. apply kASSERT_inv in R as [-> _].
  run_inv H. apply held_inv in R as [-> _]. run_inv H. apply kASSERT_inv in R as [-> _].
  run_inv H. apply thread_current_inv in R as (-> & -> & _). run_inv H. apply put_sema_inv in R as ->.
  run_inv H. unfold get_cond in R. rewrite run_gets in R. apply lift_inv in R as [-> _].
  run_inv H. unfold put_cond in R. rewrite run_gets in R. injection R as _ <-.
  match type of H with (_ ≫= _) ?k1 = _ => assert (Hk : same_cl k k1) by done; revert Hk H; generalize k1 end.
  intros k1 Hk H. etrans; [exact Hk|]. run_inv H. apply push_cl in R; [|cbn; by apply Z.eqb_neq].
  run_inv H. apply push_cl in R0; [|done]. etrans; [exact R|]. etrans; [exact R0|]. by eapply lock_release_cl.
Qed.

Lemma cond_signal_cl c l k u k' : cond_signal c l k = Ok (u, k') → same_cl k k'.
Proof.
  unfold cond_signal. intros H. run_inv H. injection R as <- <-. run_inv H. apply kASSERT_inv in R as [-> _].
  run_inv H. apply held_inv in R as [-> _]. run_inv H. apply kASSERT_inv in R as [-> _].
  run_inv H. unfold get_cond in R. rewrite run_gets in R. apply lift_inv in R as [-> _].
  case_list H; [by injection H as _ <-|]. run_inv H. unfold put_cond in R. rewrite run_gets in R. injection R as _ <-.
  apply sema_up_cl in H. exact H.
Qed.

Lemma cond_broadcast_cl c l k u k' : cond_broadcast c l k = Ok (u, k') → same_cl k k'.
Proof.
  unfold cond_broadcast. intros H. run_inv H. unfold get_cond in R. rewrite run_gets in R. apply lift_inv in R as [-> _].
  eapply (loop_st_keeps (same_cl k)); [|done|exact H]. clear. intros [] k1 r k2 Hk H.
  run_inv H. unfold get_cond in R. rewrite run_gets in R. apply lift_inv in R as [-> _].
  case_list H; [by injection H as _ <-|]. run_inv H. injection H as _ <-. etrans; [exact Hk|by eapply cond_signal_cl].
Qed.

(** A thread that exits has no pending functions. *)
Lemma thread_exit_cl k u k' : busy k = false → thread_exit k = Ok (u, k') → same_cl k k'.
Proof.
  unfold thread_exit. intros Hb H. run_inv H. injection R as <- <-. run_inv H. apply kASSERT_inv in R as [-> _].
  run_inv H. injection R as _ <-. run_inv H. apply thread_current_inv in R as (-> & -> & _). rewrite run_gets in H. run_inv H.
  apply lift_inv in R as [-> _]. rewrite run_modify in H. run_inv H. apply get_thread_inv in R as [-> Hth]. run_inv H.
  apply put_thread_inv in R as ->. apply schedule_switch in H as (_ & H2 & _ & H3). cbn in Hth, H2, H3.
  assert (Hfs : fr k !! running k = Some []).
  { rewrite (fr_lookup _ _ _ Hth). unfold busy in Hb. rewrite Hth in Hb. f_equal. by apply negb_false_iff, bool_decide_eq_true in Hb. }
  assert (E : frames <$> <[running k := set_status a2 THREAD_DYING]> (threads k) = fr k).
  { rewrite fmap_insert. apply insert_id. by apply (fr_lookup _ _ _ Hth). }
  split; [by rewrite H2|]. intros t. unfold pending. destruct H3 as [H3|(_ & H3 & _)]; rewrite H3; unfold fr at 1; cbn [threads with_threads with_all with_intr]; rewrite E; [done|].
  destruct (decide (t = running k)) as [-> |]; [by rewrite lookup_delete_eq, Hfs|by rewrite lookup_delete_ne].
Qed.

Lemma run_op_cl o k u k' :
  busy k = false → fresh_page o k → op_ok o = true → run_op o k = Ok (u, k') → same_cl k k'.
Proof.
  intros Hb Hf Ho H. destruct o as [n|n|n|l|l|l|c l|c l|c l| | |page nm prio]; cbn [run_op op_ok] in *;
    try (apply negb_true_iff, Z.eqb_neq in Ho).
  - by eapply (sema_down_cl (SUser n)).
  - run_inv H. injection H as _ <-. apply sema_try_down_inv in R as (v & _ & _ & Hr).
    destruct a; [destruct Hr as [_ Hr]; by eapply same_cl_sema|by apply same_cl_locks].
  - by eapply sema_up_cl.
  - by eapply lock_acquire_cl.
  - run_inv H. injection H as _ <-. by eapply try_acquire_cl.
  - by eapply lock_release_cl.
  - by eapply cond_wait_cl.
  - by eapply cond_signal_cl.
  - by eapply cond_broadcast_cl.
  - apply yield_fr in H as (fs & Hfs & Hset). by eapply (same_cl_push (FYield _)).
  - by eapply thread_exit_cl.
  - run_inv H. injection H as _ <-. apply thread_create_fr in R as [R|(E1 & _ & E3 & _)]; [by apply same_cl_locks|].
    split; [by rewrite E3|]. intros t. rewrite (pending_set _ _ _ _ _ E1). case_decide as D; [|done]. subst t.
    unfold pending, fr. rewrite lookup_fmap. cbn in Hf. by rewrite Hf.
Qed.

Lemma timer_cl k u k' : intr_handler timer_interrupt k = Ok (u, k') → same_cl k k'.
Proof.
  intros (fs & Hfs & [Hset|[b Hset]])%timer_fr; [by eapply (same_cl_push FIret)|]. by eapply (same_cl_fr _ fs).
Qed.

(** The running thread returns from a function that is about the lock. *)
Record popped (k k' : kst) (rest : list frame) (h : option Z) : Prop := {
  po_self : pending k' k.(running) = List.filter about rest;
  po_other : ∀ t, t ≠ k.(running) → pending k' t = pending k t;
  po_holder : k'.(holders) !! console_lock = h }.

Lemma popped_set k k1 k' rest : set_fr k.(running) rest k k1 → same_cl k1 k' → popped k k' rest (k.(holders) !! console_lock).
Proof.
  intros (E1 & _ & E3 & _) [H1 H2]. split.
  - by rewrite H2, (pending_set _ _ _ _ _ E1), decide_True.
  - intros t Ht. by rewrite H2, (pending_set _ _ _ _ _ E1), decide_False.
  - by rewrite H1, E3.
Qed.

(** The loop of sema_down(): asleep, or through. *)
Lemma sema_down_loop_cl x old rest k u k' th :
  k.(threads) !! k.(running) = Some th → sema_down_loop x old rest k = Ok (u, k') →
  same_cl k k' ∨ ∃ k1, set_fr k.(running) rest k k1 ∧ same_cl k1 k'.
Proof.
  unfold sema_down_loop. intros Hth H. run_inv H. apply get_sema_inv in R as [-> _]. destruct (value a =? 0).
  - left. run_inv H. apply thread_current_inv in R as (-> & -> & _). run_inv H. apply put_sema_inv in R as ->.
    apply keeps_block in H. apply same_cl_locks in H. exact H.
  - right. run_inv H. apply put_sema_inv in R as ->. run_inv H. injection R as <- <-. cbn in H. run_inv H.
    apply get_thread_inv in R as [-> Hth']. cbn in Hth'. rewrite Hth in Hth'. injection Hth' as <-. run_inv H. apply put_thread_inv in R as ->. run_inv H.
    apply keeps_intr_set_level, same_cl_locks in R. injection H as _ <-.
    exists (with_threads (<[running k := set_frames th rest]> k.(threads)) k). split; [by apply put_frames_fr|exact R].
Qed.

Lemma resume_cl k u k' f rest :
  fr k !! k.(running) = Some (f :: rest) → resume k = Ok (u, k') →
  if about f then
    match f with
    | FDown _ _ => same_cl k k' ∨ popped k k' rest (k.(holders) !! console_lock)
    | FHolder _ => k.(running) ≠ NULL ∧ popped k k' rest (Some k.(running))
    | FUp _ => popped k k' rest (k.(holders) !! console_lock)
    | _ => True
    end
  else same_cl k k'.
Proof.
  unfold resume, running_thread. intros Hfs H. run_inv H. run_inv H. apply get_thread_inv in R as [-> Hth].
  assert (Ef : frames a = f :: rest) by (rewrite (fr_lookup _ _ _ Hth) in Hfs; by injection Hfs as <-). rewrite Ef in H.
  pose proof (put_frames_fr _ _ rest _ Hth) as Hset.
  assert (Hpop : ∀ k2, same_cl (with_threads (<[running k := set_frames a rest]> (threads k)) k) k2 → about f = false → same_cl k k2).
  { intros k2 H2 Hf. etrans; [|exact H2]. by eapply (same_cl_pop f). }
  destruct f as [|old| | | |x old|l|x|w|l].
  6:{ destruct (sema_down_loop_cl x old rest k u k' a Hth H) as [Hs|(k1 & Hs & Hk)].
      - destruct (about (FDown x old)); [by left|done].
      - destruct (about (FDown x old)) eqn:Ea; [right; by eapply popped_set|]. etrans; [by eapply (same_cl_pop (FDown x old))|done]. }
  all: run_inv H; apply put_thread_inv in R as ->; set (k1 := with_threads _ k) in *.
  - run_inv H. injection H as _ <-. by apply keeps_intr_enable, same_cl_locks, Hpop in R.
  - run_inv H. injection H as _ <-. by apply keeps_intr_set_level, same_cl_locks, Hpop in R.
  - injection H as _ <-. by apply Hpop.
  - unfold idle_step in H. run_inv H. injection R as _ <-. run_inv H. apply push_cl in R; [|done].
    apply keeps_block, same_cl_locks in H. apply Hpop; [|done]. etrans; [|exact H]. exact R.
  - rewrite run_modify in H. apply push_cl in H; [|done]. by apply Hpop.
  - run_inv H. apply thread_current_inv in R as (-> & -> & th & _ & _ & Hnn). change (running k1) with (running k) in *.
    destruct (about (FHolder l)) eqn:Ea; cbn in Ea.
    + apply Z.eqb_eq in Ea as ->. split; [done|]. apply set_holder_inv in H as (h & _ & ->).
      destruct (popped_set k k1 k1 rest Hset ltac:(done)) as [P1 P2 _]. split; [exact P1|exact P2|]. cbn. apply lookup_insert_eq.
    + apply Z.eqb_neq in Ea. apply set_holder_cl in H; [|done]. by apply Hpop.
  - apply sema_up_cl in H. destruct (about (FUp x)) eqn:Ea; [by eapply popped_set|by apply Hpop].
  - apply sema_down_cl in H; [|done]. by apply Hpop.
  - destruct (about (FAcquire l)) eqn:Ea; [done|]. cbn in Ea. apply Z.eqb_neq in Ea. apply lock_acquire_cl in H; [|done].
    by apply Hpop.
Qed.

(** ** The invariant *)

(** What threads have written. *)
Definition thread_out (s : cst) : list Z := snd <$> List.filter (λ p, negb (fst p =? NULL)) s.(c_out).

(** A thread that is not in a console function does not hold the lock, and may be
    on its way out of lock_release().  One that is holds the lock, or waits for it
    in its outermost call. *)
Definition thread_ok (s : cst) (h t : Z) : Prop :=
  match stack_of s t with
  | [] => (h = t → t = NULL) ∧ (pending s.(ck) t = [] ∨ pending s.(ck) t = [FUp (SLock console_lock)])
  | stk =>
      t ≠ NULL ∧
      ((h = t ∧ pending s.(ck) t = []) ∨
       (h ≠ t ∧ length stk = 1%nat ∧ default [] (s.(asked) !! t) = concat stk ∧
        (pending s.(ck) t = [FHolder console_lock] ∨ ∃ b, pending s.(ck) t = [FDown (SLock console_lock) b; FHolder console_lock])))
  end.

(** The holder [h] has written [cur] of what it was asked for. *)
Definition text_ok (s : cst) (h : Z) (cur : list Z) : Prop :=
  thread_out s = u8 <$> (concat s.(finished) ++ cur) ∧
  if h =? NULL then cur = [] else cur ++ concat (stack_of s h) = default [] (s.(asked) !! h).

Record cinv (s : cst) (h : Z) : Prop := {
  ci_locks : lock_inv s.(ck);
  ci_use : s.(use_console_lock) = true;
  ci_holder : s.(ck).(holders) !! console_lock = Some h;
  ci_threads : ∀ t, thread_ok s h t;
  ci_depth : s.(console_lock_depth) = if h =? NULL then 0 else Z.of_nat (length (stack_of s h)) - 1;
  ci_text : ∃ cur, text_ok s h cur }.

Lemma cinv_same s h k : cinv s h → same_cl s.(ck) k → lock_inv k → cinv (with_ck k s) h.
Proof.
  intros [H1 H2 H3 H4 H5 H6] [E1 E2] Hk. split; try done; cbn [ck with_ck]; [by rewrite E1|].
  intros t. specialize (H4 t). unfold thread_ok in *. cbn [ck with_ck]. by rewrite E2.
Qed.

Lemma busy_frames k : busy k = true → ∃ f rest, fr k !! k.(running) = Some (f :: rest).
Proof.
  unfold busy. destruct (threads k !! running k) as [th|] eqn:E; [|done]. intros Hb. rewrite (fr_lookup _ _ _ E).
  destruct (frames th) as [|f rest]; [done|]. by exists f, rest.
Qed.

Lemma idle_frames k : busy k = false → default [] (fr k !! k.(running)) = [].
Proof.
  unfold busy, fr. rewrite lookup_fmap. destruct (threads k !! running k) as [th|]; [|done]. cbn. by destruct (frames th).
Qed.

Lemma tok_about fs : tok console_lock fs = tok console_lock (List.filter about fs).
Proof.
  induction fs as [|f fs IH]; [done|]. cbn [List.filter]. destruct (about f) eqn:E; cbn [tok foldr]; fold (tok console_lock fs); rewrite IH; [done|].
  destruct f as [| | | | |[]| |[]| |]; cbn in *; try done; by rewrite Z.eqb_sym, E.
Qed.

(** A thread between sema_down() and setting the holder: nobody holds the lock. *)
Lemma entering_free s h t fs : cinv s h → fr s.(ck) !! t = Some fs → List.filter about fs = [FHolder console_lock] → h = NULL.
Proof.
  intros [H1 _ H3 _ _ _] Hfs Hf. pose proof H1 as [_ I2]. destruct (I2 _ _ H3) as (v & Hv & Hp & _).
  destruct (lock_inv_bound _ _ _ _ _ _ H1 Hfs H3 Hv) as [Hb _]. rewrite tok_about, Hf in Hb. cbn in Hb. rewrite Z.eqb_refl in Hb.
  unfold held in Hb. destruct (Z.eqb_spec h NULL); [done|lia].
Qed.

Lemma resume_cinv s h k : cinv s h → busy s.(ck) = true → resume s.(ck) = Ok (tt, k) → ∃ h', cinv (with_ck k s) h'.
Proof.
  intros Hc Hb H. pose proof (resume_inv _ _ _ (ci_locks _ _ Hc) H) as Hk.
  destruct (busy_frames _ Hb) as (f & rest & Hfs). pose proof (resume_cl _ _ _ _ _ Hfs H) as Hr.
  destruct (about f) eqn:Ea; [|exists h; by apply cinv_same].
  set (r := s.(ck).(running)) in *.
  assert (Hp : pending s.(ck) r = f :: List.filter about rest) by (unfold pending; rewrite Hfs; cbn; by rewrite Ea).
  pose proof Hc as [_ H2 H3 H4 H5 H6]. pose proof (H4 r) as Hr4. unfold thread_ok in Hr4. rewrite Hp in Hr4.
  assert (Hothers : ∀ h' k', (∀ t, t ≠ r → pending k' t = pending s.(ck) t) → (∀ t, t ≠ r → t ≠ NULL → (h' = t ↔ h = t)) →
    ∀ t, t ≠ r → thread_ok (with_ck k' s) h' t).
  { intros h' k' Hpend Hh t Ht. specialize (H4 t). unfold thread_ok in *. cbn [ck with_ck]. rewrite (Hpend t Ht).
    change (stack_of (with_ck k' s) t) with (stack_of s t). specialize (Hh t Ht). destruct (stack_of s t); [|naive_solver].
    destruct H4 as [? ?]. split; [|done]. intros E. destruct (decide (t = NULL)); [done|]. naive_solver. }
  destruct (stack_of s r) as [|tk stk] eqn:Est.
  - destruct Hr4 as [Hne [? | Hup]]; [done|]. injection Hup as -> Hrest. destruct Hr as [P1 P2 P3]. exists h.
    split; try done; cbn [ck with_ck]; [by rewrite P3|]. intros t. destruct (decide (t = r)) as [-> |Ht]; [|by apply Hothers].
    unfold thread_ok. change (stack_of (with_ck k s) r) with (stack_of s r). rewrite Est. cbn [ck with_ck]. fold r in P1. rewrite P1, Hrest. by split; [|left].
  - destruct Hr4 as [Hnn [[_ ?] | (Hne & Hlen & Hask & [Hin | [b Hdown]])]]; [done| |].
    + injection Hin as -> Hrest. destruct Hr as [_ [P1 P2 P3]]. fold r in P1, P2, P3.
      assert (h = NULL) as ->.
      { apply (entering_free s h r (FHolder console_lock :: rest)); [done|done|]. cbn. by rewrite Z.eqb_refl, Hrest. }
      exists r. split; try done; cbn [ck with_ck].
      * intros t. destruct (decide (t = r)) as [-> |Ht].
        -- unfold thread_ok. change (stack_of (with_ck k s) r) with (stack_of s r). rewrite Est. cbn [ck with_ck]. rewrite P1, Hrest. by split; [|left].
        -- apply Hothers; [done| |done]. intros t' Ht' Hnn'. split; intros <-; done.
      * rewrite (proj2 (Z.eqb_neq r NULL)) by done. change (stack_of (with_ck k s) r) with (stack_of s r). rewrite Est, Hlen. exact H5.
      * destruct H6 as (cur & Ht & ->). exists []. split; [done|]. rewrite (proj2 (Z.eqb_neq r NULL)) by done.
        change (stack_of (with_ck k s) r) with (stack_of s r). rewrite Est. by rewrite <- Hask.
    + injection Hdown as -> Hrest. destruct Hr as [Hs | [P1 P2 P3]]; [exists h; by apply cinv_same|]. fold r in P1, P2, P3.
      exists h. split; try done; cbn [ck with_ck]; [by rewrite P3|]. intros t. destruct (decide (t = r)) as [-> |Ht]; [|by apply Hothers].
      unfold thread_ok. change (stack_of (with_ck k s) r) with (stack_of s r). rewrite Est. cbn [ck with_ck]. rewrite P1, Hrest.
      split; [done|]. right. split; [done|]. split; [done|]. split; [done|]. by left.
Qed.

(** ** The console functions *)

Lemma run_on_k {X Y} (f : K X) (g : X → C Y) s x k : f s.(ck) = Ok (x, k) → (on_k f ≫= g) s = g x (with_ck k s).
Proof. intros E. unfold mbind, st_bind, on_k. by rewrite E. Qed.

Lemma with_ck_id s : with_ck s.(ck) s = s.
Proof. by destruct s. Qed.

Lemma run_on_k_id {X Y} (f : K X) (g : X → C Y) s x : f s.(ck) = Ok (x, s.(ck)) → (on_k f ≫= g) s = g x s.
Proof. intros E. by rewrite (run_on_k _ _ _ _ _ E), with_ck_id. Qed.

Lemma held_runs k r h :
  thread_current k = Ok (r, k) → k.(holders) !! console_lock = Some h →
  lock_held_by_current_thread console_lock k = Ok (h =? r, k).
Proof.
  intros Hr Hh. unfold lock_held_by_current_thread, holder.
  rewrite (run_bind _ _ k h k) by (rewrite run_gets, Hh; done). by rewrite (run_bind _ _ _ _ _ Hr).
Qed.

Lemma push_runs f k r : thread_current k = Ok (r, k) → ∃ k', push_frame f k = Ok (tt, k') ∧ k'.(in_external_intr) = k.(in_external_intr).
Proof.
  intros (_ & -> & th & Hth & _)%thread_current_inv. unfold push_frame, running_thread. rewrite run_gets.
  rewrite (run_bind _ _ k th k) by (unfold get_thread; by rewrite run_gets, Hth). by eexists.
Qed.

Lemma lock_acquire_runs k r h :
  thread_current k = Ok (r, k) → k.(in_external_intr) = false → k.(holders) !! console_lock = Some h → h ≠ r →
  ∃ k', lock_acquire console_lock k = Ok (tt, k').
Proof.
  intros Hr Hx Hh Hne. unfold lock_acquire, intr_context. rewrite run_gets, kASSERT_ok by (by rewrite Hx).
  rewrite (run_bind _ _ _ _ _ (held_runs k r h Hr Hh)), kASSERT_ok by (by rewrite (proj2 (Z.eqb_neq _ _))).
  destruct (push_runs (FHolder console_lock) k r Hr) as (k1 & E1 & Hx1). rewrite (run_bind _ _ _ _ _ E1).
  unfold sema_down, intr_context. rewrite run_gets, kASSERT_ok by (by rewrite Hx1, Hx).
  rewrite (run_bind _ _ k1 k1.(intr_on) (with_intr false k1)) by done.
  apply push_frame_inv in E1 as (th & Hth & ->). unfold push_frame, running_thread. rewrite run_gets. cbn [running with_threads with_intr].
  eexists. erewrite run_bind; [done|]. unfold get_thread. rewrite run_gets. cbn [threads with_threads with_intr]. by rewrite lookup_insert_eq.
Qed.

Lemma current_same k k' r :
  k'.(threads) = k.(threads) → k'.(running) = k.(running) → thread_current k = Ok (r, k) → thread_current k' = Ok (r, k').
Proof.
  intros E1 E2 Hr. pose proof Hr as (_ & -> & th & Hth & Hst & Hnn)%thread_current_inv.
  unfold thread_current, running_thread in *. rewrite run_gets in *. rewrite E2.
  assert (Hm : t_magic th = THREAD_MAGIC).
  { apply run_bind_inv in Hr as (ok & k0 & Hok & Hr). pose proof (is_thread_inv _ _ _ _ Hok) as ->.
    apply run_bind_inv in Hr as ([] & k0 & [-> ->]%kASSERT_inv & _). unfold is_thread in Hok. rewrite (proj2 (Z.eqb_neq _ _)) in Hok by done.
    rewrite (run_bind _ _ _ _ _ (get_thread_ok _ _ _ Hth)) in Hok. injection Hok as Hok. by apply Z.eqb_eq. }
  assert (Hth' : k'.(threads) !! running k = Some th) by (by rewrite E1).
  rewrite (run_bind _ _ k' true k'); cycle 1.
  { unfold is_thread. rewrite (proj2 (Z.eqb_neq _ _)) by done. rewrite (run_bind _ _ _ _ _ (get_thread_ok _ _ _ Hth')). by rewrite Hm, Z.eqb_refl. }
  rewrite kASSERT_ok by done. rewrite (run_bind _ _ _ _ _ (get_thread_ok _ _ _ Hth')).
  by rewrite kASSERT_ok by (by rewrite Hst).
Qed.

Lemma lock_release_runs k r :
  thread_current k = Ok (r, k) → k.(holders) !! console_lock = Some r →
  ∃ k' fs, lock_release console_lock k = Ok (tt, k') ∧ fr k !! k.(running) = Some fs ∧
    fr k' = <[k.(running) := FUp (SLock console_lock) :: fs]> (fr k) ∧ k'.(holders) = <[console_lock := NULL]> k.(holders).
Proof.
  intros Hr Hh. unfold lock_release. rewrite (run_bind _ _ _ _ _ (held_runs k r r Hr Hh)), kASSERT_ok by apply Z.eqb_refl.
  unfold set_holder at 1. rewrite (run_bind _ _ k tt (with_holders (<[console_lock := NULL]> k.(holders)) k)) by (rewrite run_gets, Hh; done).
  destruct (push_runs (FUp (SLock console_lock)) (with_holders (<[console_lock := NULL]> k.(holders)) k) r) as (k' & E & _).
  { by apply (current_same k). }
  exists k'. apply push_fr in E as E'. destruct E' as (fs & Hfs & (E1 & _ & E3 & _) & _). exists fs. split; [exact E|].
  split; [exact Hfs|]. split; [exact E1|exact E3].
Qed.

Lemma acquire_eq s r h :
  thread_current s.(ck) = Ok (r, s.(ck)) → s.(ck).(in_external_intr) = false → s.(use_console_lock) = true →
  s.(ck).(holders) !! console_lock = Some h →
  acquire_console s = if h =? r then Ok (tt, with_depth (i32 (s.(console_lock_depth) + 1)) s) else on_k (lock_acquire console_lock) s.
Proof.
  intros Hr Hx Hu Hh. unfold acquire_console. rewrite (run_on_k_id _ _ s s.(ck).(in_external_intr)) by done.
  rewrite run_gets, Hx, Hu. cbn [negb andb when]. rewrite (run_on_k_id _ _ _ _ (held_runs _ _ _ Hr Hh)). by destruct (h =? r).
Qed.

Lemma release_eq s :
  s.(ck).(in_external_intr) = false → s.(use_console_lock) = true →
  release_console s = if 0 <? s.(console_lock_depth) then Ok (tt, with_depth (s.(console_lock_depth) - 1) s) else on_k (lock_release console_lock) s.
Proof.
  intros Hx Hu. unfold release_console. rewrite (run_on_k_id _ _ s s.(ck).(in_external_intr)) by done.
  rewrite run_gets, Hx, Hu. cbn [negb andb when]. rewrite run_gets. by destruct (0 <? _).
Qed.

(** One character is written. *)
Definition wrote (t c : Z) (s : cst) : cst :=
  mk_cst s.(ck) s.(use_console_lock) s.(console_lock_depth) (i64 (s.(console_write_cnt) + 1)) (s.(c_out) ++ [(t, u8 c)]) s.(tasks) s.(asked) s.(finished).

Lemma putchar_intr s c : s.(ck).(in_external_intr) = true → putchar_have_lock c s = Ok (tt, wrote NULL c s).
Proof.
  intros Hx. unfold putchar_have_lock, console_locked_by_current_thread.
  rewrite (run_bind _ _ s true s); cycle 1.
  { rewrite (run_on_k_id _ _ s s.(ck).(in_external_intr)) by done. by rewrite Hx. }
  rewrite (run_lift _ _ _ tt) by done. rewrite (run_on_k_id _ _ s s.(ck).(in_external_intr)) by done. rewrite Hx.
  by rewrite (run_on_k_id _ _ s s.(ck).(running)) by done.
Qed.

Lemma putchar_thread s r c :
  thread_current s.(ck) = Ok (r, s.(ck)) → s.(ck).(in_external_intr) = false → s.(use_console_lock) = true →
  s.(ck).(holders) !! console_lock = Some r → putchar_have_lock c s = Ok (tt, wrote r c s).
Proof.
  intros Hr Hx Hu Hh. unfold putchar_have_lock, console_locked_by_current_thread.
  rewrite (run_bind _ _ s true s); cycle 1.
  { rewrite (run_on_k_id _ _ s s.(ck).(in_external_intr)) by done. rewrite Hx, run_gets, Hu. cbn [negb].
    unfold on_k. by rewrite (held_runs _ _ _ Hr Hh), Z.eqb_refl, with_ck_id. }
  rewrite (run_lift _ _ _ tt) by done. rewrite (run_on_k_id _ _ s s.(ck).(in_external_intr)) by done. rewrite Hx.
  apply thread_current_inv in Hr as (_ & -> & _). by rewrite (run_on_k_id _ _ s s.(ck).(running)) by done.
Qed.

(** ** Steps *)

Lemma stack_set s t stk a f u : stack_of (with_tasks (<[t := stk]> s.(tasks)) a f s) u = if decide (u = t) then stk else stack_of s u.
Proof. unfold stack_of. cbn. case_decide as D; [subst; by rewrite lookup_insert_eq|by rewrite lookup_insert_ne]. Qed.

(** A handler that prints leaves its characters, and nothing of what threads print. *)
Lemma put_all_intr text s :
  s.(ck).(in_external_intr) = true →
  ∃ s', put_all text s = Ok (tt, s') ∧ s'.(ck) = s.(ck) ∧ s'.(use_console_lock) = s.(use_console_lock) ∧
    s'.(console_lock_depth) = s.(console_lock_depth) ∧ s'.(tasks) = s.(tasks) ∧ s'.(asked) = s.(asked) ∧ s'.(finished) = s.(finished) ∧
    s'.(c_out) = s.(c_out) ++ (pair NULL ∘ u8 <$> text).
Proof.
  revert s. induction text as [|c text IH]; intros s Hx; cbn [put_all].
  - exists s. by rewrite app_nil_r.
  - rewrite (run_bind _ _ _ _ _ (putchar_intr s c Hx)). destruct (IH (wrote NULL c s) Hx) as (s' & E & H1 & H2 & H3 & H4 & H5 & H6 & H7).
    exists s'. rewrite E, H7. cbn. by rewrite <- app_assoc.
Qed.

Lemma intr_print_ok text s :
  ∃ s', intr_print text s = Ok (tt, s') ∧ same_locks s.(ck) s'.(ck) ∧ s'.(use_console_lock) = s.(use_console_lock) ∧
    s'.(console_lock_depth) = s.(console_lock_depth) ∧ s'.(tasks) = s.(tasks) ∧ s'.(asked) = s.(asked) ∧ s'.(finished) = s.(finished) ∧
    s'.(c_out) = s.(c_out) ++ (pair NULL ∘ u8 <$> text).
Proof.
  unfold intr_print. erewrite run_on_k by reflexivity. set (s1 := with_ck (with_external true false s.(ck)) s).
  destruct (put_all_intr text s1 eq_refl) as (s2 & E & H1 & H2 & H3 & H4 & H5 & H6 & H7).
  assert (Ep : putbuf text s1 = Ok (tt, s2)).
  { unfold putbuf, acquire_console. rewrite (run_bind _ _ s1 tt s1) by done. rewrite (run_bind _ _ _ _ _ E).
    unfold release_console. assert (Hx2 : in_external_intr (ck s2) = true) by (by rewrite H1).
    rewrite (run_on_k_id _ _ s2 (in_external_intr (ck s2))) by done. by rewrite Hx2. }
  rewrite (run_bind _ _ _ _ _ Ep). eexists. split; [reflexivity|]. cbn [ck with_ck use_console_lock console_lock_depth tasks asked finished c_out].
  rewrite H1, H2, H3, H4, H5, H6, H7. done.
Qed.

Lemma intr_cinv s h text s' : cinv s h → intr_print text s = Ok (tt, s') → cinv s' h.
Proof.
  intros [I1 I2 I3 I4 I5 (cur & It & Ic)] H. destruct (intr_print_ok text s) as (s2 & E & H1 & H2 & H3 & H4 & H5 & H6 & H7).
  rewrite E in H. injection H as <-. pose proof (same_cl_locks _ _ H1) as [C1 C2].
  assert (Hst : ∀ t, stack_of s2 t = stack_of s t) by (intros t; unfold stack_of; by rewrite H4). split.
  - by eapply lock_inv_same.
  - by rewrite H2.
  - by rewrite C1.
  - intros t. specialize (I4 t). unfold thread_ok in *. by rewrite Hst, C2, H5.
  - by rewrite H3, Hst.
  - exists cur. split; [|by rewrite Hst, H5]. rewrite H6, <- It. unfold thread_out. rewrite H7, List.filter_app, fmap_app.
    assert (Hn : List.filter (λ p : Z * Z, negb (p.1 =? NULL)) (pair NULL ∘ u8 <$> text) = []) by (clear; induction text as [|c l IH]; [done|exact IH]).
    rewrite Hn. cbn. by rewrite app_nil_r.
Qed.

(** A thread that is about to call something is not waiting for the lock. *)
Lemma idle_pending s h : cinv s h → busy s.(ck) = false → pending s.(ck) s.(ck).(running) = [].
Proof. intros _ Hb. unfold pending. by rewrite (idle_frames _ Hb). Qed.

Lemma call_ok s h r text :
  cinv s h → busy s.(ck) = false → s.(ck).(in_external_intr) = false → 0 <= s.(console_lock_depth) < 2147483647 →
  thread_current s.(ck) = Ok (r, s.(ck)) → ∃ s', console_call text s = Ok (tt, s') ∧ cinv s' h.
Proof.
  intros Hc Hb Hx Hd Hr. pose proof Hc as [I1 I2 I3 I4 I5 (cur & It & Ic)]. pose proof Hr as (_ & Er & _ & _ & _ & Hnn)%thread_current_inv.
  pose proof (idle_pending _ _ Hc Hb) as Hp. rewrite <- Er in Hp. pose proof (I4 r) as Ir. unfold thread_ok in Ir. rewrite Hp in Ir.
  unfold console_call. rewrite (run_on_k_id _ _ _ _ Hr). pose proof (acquire_eq s r h Hr Hx I2 I3) as Ea.
  destruct (Z.eqb_spec h r) as [-> | Hne].
  - rewrite (run_bind _ _ _ _ _ Ea). eexists. split; [reflexivity|]. rewrite i32_small by lia.
    rewrite (proj2 (Z.eqb_neq r NULL)) in Ic, I5 by done.
    destruct (stack_of s r) as [|tk stk] eqn:Est; [destruct Ir as [Ir _]; by specialize (Ir eq_refl)|].
    change (stack_of (with_depth _ s) r) with (stack_of s r). rewrite Est. cbn [tasks asked finished with_depth].
    assert (Hbefore : take (length (default [] (s.(asked) !! r)) - length (concat (tk :: stk))) (default [] (s.(asked) !! r)) = cur).
    { rewrite <- Ic, length_app, Nat.add_sub. by rewrite take_app_length. }
    rewrite Hbefore. split; cbn [ck with_tasks with_depth use_console_lock console_lock_depth]; try done.
    + intros t. specialize (I4 t). unfold thread_ok in *. change (tasks s) with (with_depth (console_lock_depth s + 1) s).(tasks). rewrite stack_set.
      cbn [ck with_tasks with_depth asked]. case_decide as D.
      * subst t. split; [done|]. by left.
      * rewrite lookup_insert_ne by done. exact I4.
    + change (tasks s) with (with_depth (console_lock_depth s + 1) s).(tasks). rewrite stack_set, decide_True by done.
      rewrite (proj2 (Z.eqb_neq r NULL)) by done. rewrite I5. cbn [length]. lia.
    + exists cur. split; [done|]. rewrite (proj2 (Z.eqb_neq r NULL)) by done.
      change (tasks s) with (with_depth (console_lock_depth s + 1) s).(tasks). rewrite stack_set, decide_True by done.
      cbn [asked with_tasks]. rewrite lookup_insert_eq. done.
  - destruct (stack_of s r) as [|tk stk] eqn:Est; cycle 1.
    { destruct Ir as [_ [[? _] | (_ & _ & _ & [? | [b ?]])]]; done. }
    destruct (lock_acquire_runs _ r h Hr Hx I3 Hne) as (k & Ek).
    rewrite (run_bind _ _ s tt (with_ck k s)) by (rewrite Ea; unfold on_k; by rewrite Ek).
    eexists. split; [reflexivity|]. change (stack_of (with_ck k s) r) with (stack_of s r). rewrite Est. cbn [concat].
    pose proof (lock_acquire_inv _ _ _ _ I1 Ek) as I1'. apply lock_acquire_fr in Ek as (fs & Hfs & (E1 & _ & E3 & _)). rewrite <- Er in Hfs, E1.
    assert (fs = []) as -> by (pose proof (idle_frames _ Hb) as Hi; rewrite <- Er, Hfs in Hi; exact Hi).
    change (tasks s) with (with_ck k s).(tasks). split; cbn [ck with_tasks with_ck use_console_lock console_lock_depth]; try done.
    + by rewrite E3.
    + intros t. specialize (I4 t). unfold thread_ok in *. rewrite stack_set. cbn [ck with_tasks with_ck asked]. rewrite (pending_set _ _ _ _ _ E1).
      case_decide as D.
      * subst t. split; [done|]. right. split; [done|]. split; [done|]. rewrite lookup_insert_eq. split; [cbn; by rewrite app_nil_r|].
        right. eexists. cbn. by rewrite Z.eqb_refl.
      * rewrite lookup_insert_ne by done. exact I4.
    + rewrite stack_set, decide_False by done. exact I5.
    + exists cur. split; [done|]. rewrite stack_set, decide_False by done. cbn [asked with_tasks]. rewrite lookup_insert_ne by done. exact Ic.
Qed.

Lemma thread_out_wrote r c s : r ≠ NULL → thread_out (wrote r c s) = thread_out s ++ [u8 c].
Proof.
  intros Hr. unfold thread_out. cbn [c_out wrote]. rewrite List.filter_app, fmap_app. cbn. by rewrite (proj2 (Z.eqb_neq r 0)).
Qed.

(** The holder writes a character of its innermost call. *)
Lemma holder_writes s r c cs rest :
  cinv s r → r ≠ NULL → stack_of s r = (c :: cs) :: rest → pending s.(ck) r = [] →
  cinv (with_tasks (<[r := cs :: rest]> s.(tasks)) s.(asked) s.(finished) (wrote r c s)) r.
Proof.
  intros [I1 I2 I3 I4 I5 (cur & It & Ic)] Hnn Est Hp. rewrite (proj2 (Z.eqb_neq r NULL)), Est in Ic, I5 by done.
  change (tasks s) with (wrote r c s).(tasks). split; cbn [ck with_tasks wrote use_console_lock console_lock_depth]; try done.
  - intros t. specialize (I4 t). unfold thread_ok in *. rewrite stack_set. cbn [ck with_tasks wrote asked].
    case_decide as D; [|exact I4]. subst t. split; [done|]. by left.
  - rewrite stack_set, decide_True, (proj2 (Z.eqb_neq r NULL)) by done. exact I5.
  - exists (cur ++ [c]). split.
    + change (thread_out (with_tasks _ _ _ ?x)) with (thread_out x). rewrite thread_out_wrote, It by done.
      cbn [finished with_tasks]. by rewrite app_assoc, (fmap_app _ (_ ++ _)).
    + rewrite stack_set, decide_True, (proj2 (Z.eqb_neq r NULL)) by done. cbn [asked with_tasks]. rewrite <- Ic, <- app_assoc. done.
Qed.

(** The end of an inner call. *)
Lemma inner_step s r stk rest :
  cinv s r → r ≠ NULL → stack_of s r = [] :: stk :: rest → pending s.(ck) r = [] →
  cinv (with_tasks (<[r := stk :: rest]> s.(tasks)) s.(asked) s.(finished) (with_depth (s.(console_lock_depth) - 1) s)) r.
Proof.
  intros [I1 I2 I3 I4 I5 (cur & It & Ic)] Hnn Est Hp. rewrite (proj2 (Z.eqb_neq r NULL)), Est in Ic, I5 by done.
  set (s1 := with_depth _ s). change (tasks s) with s1.(tasks). split; cbn [ck with_tasks s1 with_depth use_console_lock console_lock_depth]; try done.
  - intros t. specialize (I4 t). unfold thread_ok in *. rewrite stack_set. cbn [ck with_tasks s1 with_depth asked].
    case_decide as D; [|exact I4]. subst t. split; [done|]. by left.
  - rewrite stack_set, decide_True, (proj2 (Z.eqb_neq r NULL)), I5 by done. cbn [length]. lia.
  - exists cur. split; [done|]. by rewrite stack_set, decide_True, (proj2 (Z.eqb_neq r NULL)).
Qed.

(** The end of an outermost call. *)
Lemma outer_step s r k :
  cinv s r → r ≠ NULL → stack_of s r = [[]] → busy s.(ck) = false → r = s.(ck).(running) → lock_inv k →
  fr k = <[r := [FUp (SLock console_lock)]]> (fr s.(ck)) → k.(holders) = <[console_lock := NULL]> s.(ck).(holders) →
  cinv (with_tasks (<[r := []]> s.(tasks)) s.(asked) (s.(finished) ++ [default [] (s.(asked) !! r)]) (with_ck k s)) NULL.
Proof.
  intros [I1 I2 I3 I4 I5 (cur & It & Ic)] Hnn Est Hb Er Hk E1 E3. rewrite (proj2 (Z.eqb_neq r NULL)), Est in Ic, I5 by done.
  change (tasks s) with (with_ck k s).(tasks). split; cbn [ck with_tasks with_ck use_console_lock console_lock_depth]; try done.
  - by rewrite E3, lookup_insert_eq.
  - intros t. specialize (I4 t). unfold thread_ok in *. rewrite stack_set. cbn [ck with_tasks with_ck asked]. rewrite (pending_set _ _ _ _ _ E1).
    case_decide as D.
    + subst t. split; [done|]. right. cbn. by rewrite Z.eqb_refl.
    + change (stack_of (with_ck k s) t) with (stack_of s t). destruct (stack_of s t); [destruct I4 as [_ ?]; split; [congruence|done]|]. destruct I4 as [Hn [[? _] | (_ & Hw)]]; [done|]. split; [done|]. right. split; [congruence|exact Hw].
  - exists []. split; [|done]. change (thread_out (with_tasks _ _ _ (with_ck k s))) with (thread_out s). cbn [finished with_tasks].
    rewrite It, <- Ic, concat_app. cbn. by rewrite !app_nil_r.
Qed.

Lemma task_ok s h r :
  cinv s h → busy s.(ck) = false → s.(ck).(in_external_intr) = false → thread_current s.(ck) = Ok (r, s.(ck)) →
  ∃ s' h', task_step s = Ok (tt, s') ∧ cinv s' h'.
Proof.
  intros Hc Hb Hx Hr. pose proof Hr as (_ & Er & _ & _ & _ & Hnn)%thread_current_inv.
  pose proof (idle_pending _ _ Hc Hb) as Hp. rewrite <- Er in Hp. pose proof (ci_threads _ _ Hc r) as Ir. unfold thread_ok in Ir. rewrite Hp in Ir.
  unfold task_step. rewrite (run_on_k_id _ _ _ _ Hr), run_gets. destruct (stack_of s r) as [|tk rest] eqn:Est; [by exists s, h|].
  destruct Ir as [_ [[-> _] | (_ & _ & _ & [? | [b ?]])]]; [|done..]. pose proof Hc as [I1 I2 I3 _ I5 _].
  destruct tk as [|c cs].
  - pose proof (release_eq s Hx I2) as Erel. rewrite (proj2 (Z.eqb_neq r NULL)), Est in I5 by done. destruct rest as [|stk rest].
    + cbn in I5. rewrite I5 in Erel. cbn in Erel. destruct (lock_release_runs _ r Hr I3) as (k & fs & Ek & Hfs & E1 & E3).
      rewrite (run_bind _ _ s tt (with_ck k s)) by (rewrite Erel; unfold on_k; by rewrite Ek).
      assert (fs = []) as -> by (pose proof (idle_frames _ Hb) as Hi; rewrite Hfs in Hi; exact Hi). rewrite <- Er in E1.
      eexists _, NULL. split; [reflexivity|]. apply (outer_step s r k); try done. by eapply lock_release_inv.
    + cbn [length] in I5. rewrite (proj2 (Z.ltb_lt 0 _)) in Erel by lia. rewrite (run_bind _ _ _ _ _ Erel).
      eexists _, r. split; [reflexivity|]. by apply (inner_step s r stk rest).
  - rewrite (run_bind _ _ _ _ _ (putchar_thread s r c Hr Hx I2 I3)). eexists _, r. split; [reflexivity|]. by apply (holder_writes s r c cs rest).
Qed.

Lemma depth_nonneg s h : cinv s h → 0 <= s.(console_lock_depth).
Proof.
  intros [_ _ _ I4 -> _]. destruct (Z.eqb_spec h NULL) as [|Hn]; [lia|]. specialize (I4 h). unfold thread_ok in I4.
  destruct (stack_of s h); [naive_solver|cbn; lia].
Qed.

(** A console function starts by finding out which thread runs. *)
Lemma current_of {X} (g : Z → C X) s x s' :
  (on_k thread_current ≫= g) s = Ok (x, s') → ∃ r, thread_current s.(ck) = Ok (r, s.(ck)).
Proof.
  intros (r & s1 & H & _)%run_bind_inv. unfold on_k in H. destruct (thread_current s.(ck)) as [[r' k]| | |] eqn:E; try done.
  pose proof E as (-> & _)%thread_current_inv. by exists r'.
Qed.

Lemma cstep_cinv s s' h : cinv s h → cstep s s' → ∃ h', cinv s' h'.
Proof.
  intros Hc Hs. destruct Hs as [s k Hb H|s o k Hb _ Hf Ho _ H|s k Hi H|s text s' _ _ H|s text s' Hb _ Hx Hd H|s s' Hb _ Hx H].
  - by eapply resume_cinv.
  - exists h. apply cinv_same; [done|by eapply run_op_cl|]. eapply run_op_inv; [by apply Hc|done..].
  - exists h. apply cinv_same; [done|by eapply timer_cl|]. eapply step_inv; [by apply Hc|]. by apply step_timer.
  - exists h. by eapply intr_cinv.
  - destruct (current_of _ _ _ _ H) as [r Hr]. pose proof (depth_nonneg _ _ Hc).
    destruct (call_ok s h r text Hc Hb Hx ltac:(lia) Hr) as (s2 & E & H2). rewrite E in H. injection H as <-. by exists h.
  - destruct (current_of _ _ _ _ H) as [r Hr]. destruct (task_ok s h r Hc Hb Hx Hr) as (s2 & h2 & E & H2).
    rewrite E in H. injection H as <-. by exists h2.
Qed.

(** ** Properties *)

(** The console after console_init(): nobody is in it. *)
Record console_ready (s : cst) : Prop := {
  cr_locks : lock_inv s.(ck);
  cr_use : s.(use_console_lock) = true;
  cr_holder : s.(ck).(holders) !! console_lock = Some NULL;
  cr_pending : ∀ t, pending s.(ck) t = [];
  cr_depth : s.(console_lock_depth) = 0;
  cr_tasks : s.(tasks) = ∅;
  cr_out : s.(c_out) = [] ∧ s.(finished) = [] }.

Lemma total_zero g m : map_Forall (λ _ fs, g fs = 0) m → total g m = 0.
Proof.
  induction m as [|t fs m Hn IH] using map_ind; [done|]. intros [H1 H2]%map_Forall_insert; [|done].
  rewrite total_insert by done. rewrite H1, IH by done. done.
Qed.

(** console_init() brings this about, before any thread has used the console. *)
Lemma console_init_ready s :
  lock_inv s.(ck) → (∀ t, pending s.(ck) t = []) → s.(console_lock_depth) = 0 → s.(tasks) = ∅ → s.(c_out) = [] → s.(finished) = [] →
  ∃ s', console_init s = Ok (tt, s') ∧ console_ready s'.
Proof.
  intros [I1 I2] Hp Hd Ht Ho Hf. eexists. split; [reflexivity|]. split; try done; cbn [ck with_use with_ck]; [|cbn; apply lookup_insert_eq].
  split; [exact I1|]. intros l h. cbn [holders semas with_semas with_holders]. change (fr (with_semas _ _)) with (fr s.(ck)).
  intros [[<- <-] | [Hne Hl]]%lookup_insert_Some.
  - rewrite lookup_insert_eq. eexists. split; [done|]. split; [done|]. cbn [value]. rewrite (total_zero (tok console_lock)); [done|].
    intros t fs Hfs. specialize (Hp t). unfold pending in Hp. rewrite Hfs in Hp. cbn in Hp. by rewrite tok_about, Hp.
  - rewrite lookup_insert_ne by congruence. by apply I2.
Qed.

Lemma ready_cinv s : console_ready s → cinv s NULL.
Proof.
  intros [H1 H2 H3 H4 H5 H6 [H7 H8]]. assert (Hst : ∀ t, stack_of s t = []) by (intros t; unfold stack_of; by rewrite H6, lookup_empty).
  split; try done.
  - intros t. unfold thread_ok. rewrite Hst, H4. by split; [|left].
  - exists []. split; [|done]. unfold thread_out. by rewrite H7, H8.
Qed.

(** C40: the console lock keeps the output of different calls apart.  Whatever the
    threads do, wherever timer interrupts fall, and whichever handlers print:
    what threads have written to the screen and the serial port is the texts of
    the calls that have returned, one after the other and each in one piece,
    followed by a first part of the text of the call of the thread that holds
    the lock; the rest of that text is what the thread has yet to write.  A
    thread that calls a console function inside another one adds its text at
    that place.  No assertion fails: a thread in a console function, not
    waiting, can always take its next step, and one that starts a call can
    always start it. *)
Theorem console_not_mixed s0 s :
  console_ready s0 → rtc cstep s0 s →
  (∃ h cur, s.(ck).(holders) !! console_lock = Some h ∧
     thread_out s = u8 <$> (concat s.(finished) ++ cur) ∧
     if h =? NULL then cur = [] else cur ++ concat (stack_of s h) = default [] (s.(asked) !! h)) ∧
  (∀ r, thread_current s.(ck) = Ok (r, s.(ck)) → busy s.(ck) = false → s.(ck).(in_external_intr) = false →
     (∃ s', task_step s = Ok (tt, s')) ∧
     (s.(console_lock_depth) < 2147483647 → ∀ text, ∃ s', console_call text s = Ok (tt, s'))).
Proof.
  intros H0 Hsteps. assert (Hc : ∃ h, cinv s h).
  { assert (Hi : ∃ h, cinv s0 h) by (exists NULL; by apply ready_cinv). clear H0. induction Hsteps as [|s0 s1 s Hs _ IH]; [done|].
    apply IH. destruct Hi as [h Hi]. by eapply cstep_cinv. }
  destruct Hc as [h Hc]. split.
  - pose proof Hc as [_ _ I3 _ _ (cur & It & Ic)]. by exists h, cur.
  - intros r Hr Hb Hx. split.
    + destruct (task_ok s h r Hc Hb Hx Hr) as (s' & _ & E & _). by exists s'.
    + intros Hd text. pose proof (depth_nonneg _ _ Hc).
      destruct (call_ok s h r text Hc Hb Hx ltac:(lia) Hr) as (s' & E & _). by exists s'.
Qed.
End console.

(** A run of the machine, with the conditions of each step checked. *)
Inductive act := ACall (text : list Z) | ATask | AIntr (text : list Z) | AResume | AYield.

Definition run_act (l : Z) (a : act) : C unit := λ s,
  let k := s.(ck) in
  let calm := negb (busy k) && k.(intr_on) && negb k.(in_external_intr) in
  match a with
  | ACall text => if calm && (s.(console_lock_depth) <? 2147483647) then console_call l text s else Panic
  | ATask => if calm then task_step l s else Panic
  | AIntr text => if k.(intr_on) && negb k.(in_external_intr) then intr_print l text s else Panic
  | AResume => if busy k then on_k resume s else Panic
  | AYield => if calm then on_k thread_yield s else Panic
  end.

Fixpoint run_acts (l : Z) (acts : list act) : C unit :=
  match acts with [] => mret tt | a :: acts => run_act l a;; run_acts l acts end.

Lemma run_act_step l a s s' : run_act l a s = Ok (tt, s') → cstep l s s'.
Proof.
  assert (Hk : ∀ (f : K unit), on_k f s = Ok (tt, s') → ∃ k, f s.(ck) = Ok (tt, k) ∧ s' = with_ck k s).
  { intros f. unfold on_k. destruct (f s.(ck)) as [[[] k]| | |]; try done. intros [= <-]. by exists k. }
  destruct a as [text| |text| |]; cbn [run_act]; intros H.
  - destruct (_ && _) eqn:E; [|done]. rewrite !andb_true_iff, !negb_true_iff in E. destruct E as [[[? ?] ?] ?%Z.ltb_lt]. by eapply cs_call.
  - destruct (_ && _) eqn:E; [|done]. rewrite !andb_true_iff, !negb_true_iff in E. destruct E as [[? ?] ?]. by eapply cs_task.
  - destruct (_ && _) eqn:E; [|done]. rewrite !andb_true_iff, !negb_true_iff in E. destruct E as [? ?]. by eapply cs_intr.
  - destruct (busy _) eqn:E; [|done]. apply Hk in H as (k & H & ->). by apply cs_resume.
  - destruct (_ && _) eqn:E; [|done]. rewrite !andb_true_iff, !negb_true_iff in E. destruct E as [[? ?] ?].
    apply Hk in H as (k & H & ->). by apply (cs_op l s OpYield).
Qed.

Lemma run_acts_steps l acts s s' : run_acts l acts s = Ok (tt, s') → rtc (cstep l) s s'.
Proof.
  revert s. induction acts as [|a acts IH]; intros s; cbn [run_acts]; [by intros [= <-]|].
  intros ([] & s1 & H1 & H2)%run_bind_inv. eapply rtc_l; [by eapply run_act_step|by apply IH].
Qed.

(** Thread 1 starts to print "ab"; after the "a" a handler prints "!" and thread 2
    runs and wants to print "cd"; it waits, and thread 1 goes on. *)
Definition demo_cst : cst := mk_cst demo_kst true 0 0 [] ∅ ∅ [].
Definition demo_acts : list act :=
  [ACall [97; 98]; AResume; AResume; ATask; AIntr [33]; AYield; AResume; ACall [99; 100]; AResume; AResume; ATask; ATask; AResume].

Lemma demo_ready : console_ready 10 demo_cst.
Proof.
  split; [exact demo_lock_inv|done|done| |done|done|done]. intros t. unfold pending, fr. cbn [ck demo_cst threads demo_kst].
  rewrite !fmap_insert, map_fmap_singleton. cbn [frames demo_thread].
  destruct (decide (t = 1)) as [-> |]; [done|rewrite lookup_insert_ne by done].
  destruct (decide (t = 2)) as [-> |]; [done|rewrite lookup_insert_ne by done].
  destruct (decide (t = 3)) as [-> |]; [done|by rewrite lookup_singleton_ne by done].
Qed.

Lemma console_not_mixed_witness :
  ∃ s, rtc (cstep 10) demo_cst s ∧ s.(c_out) = [(1, 97); (NULL, 33); (1, 98)] ∧ stack_of s 2 = [[99; 100]] ∧
    s.(finished) = [[97; 98]] ∧ thread_out s = [97; 98] ∧ ∃ h cur, thread_out s = u8 <$> (concat s.(finished) ++ cur) ∧ h = NULL ∧ cur = [].
Proof.
  destruct (run_acts 10 demo_acts demo_cst) as [[[] s]| | |] eqn:E; [|by vm_compute in E..].
  pose proof (run_acts_steps _ _ _ _ E) as Hsteps.
  assert (Hs : s.(c_out) = [(1, 97); (NULL, 33); (1, 98)] ∧ stack_of s 2 = [[99; 100]] ∧ s.(finished) = [[97; 98]] ∧
    s.(ck).(holders) !! 10 = Some NULL) by (vm_compute in E; injection E as <-; by vm_compute).
  destruct Hs as (H1 & H2 & H3 & H4). destruct (console_not_mixed 10 demo_cst s demo_ready Hsteps) as [(h & cur & Hh & Ht & Hcur) _].
  rewrite H4 in Hh. injection Hh as <-. exists s. split; [exact Hsteps|]. split; [exact H1|]. split; [exact H2|]. split; [exact H3|].
  split; [rewrite Ht, H3, Hcur; done|]. exists NULL, cur. split; [exact Ht|]. split; [done|exact Hcur].
Defined.
