(* ===== verification/ThreadStart.v ===== *)
(** * Starting the scheduler: thread_init(), thread_start() and idle() of threads/thread.c

    On the state of Thread.v.  [tid_lock] is the address of the lock of
    allocate_tid(), [idle_started] the semaphore on the stack of thread_start(),
    and [page] what palloc_get_page() returned for the idle thread.  idle() runs
    its first part once, and then its loop, whose head is the frame [FIdle]. *)

From Stdlib Require Import String.
From S2P Require Import Prelude Vaddr Thread Synch.
From S2P Require Stdio.

Open Scope Z_scope.

(** ** Definitions *)

Definition with_idle (t : Z) (s : kst) : kst :=
  mk_kst s.(threads) s.(running) s.(ready_list) s.(all_list) t s.(initial_thread)
    s.(intr_on) s.(in_external_intr) s.(yield_on_return) s.(thread_ticks) s.(idle_ticks)
    s.(kernel_ticks) s.(user_ticks) s.(ticks) s.(next_tid) s.(semas) s.(holders) s.(conds).
Definition with_initial (t : Z) (s : kst) : kst :=
  mk_kst s.(threads) s.(running) s.(ready_list) s.(all_list) s.(idle_thread) t
    s.(intr_on) s.(in_external_intr) s.(yield_on_return) s.(thread_ticks) s.(idle_ticks)
    s.(kernel_ticks) s.(user_ticks) s.(ticks) s.(next_tid) s.(semas) s.(holders) s.(conds).

Section start.
Context (tid_lock idle_started : Z).

Definition thread_init : K unit :=
  level ← intr_get_level;
  kASSERT (negb level);;
  lock_init tid_lock;;
  modify (with_ready []);;
  modify (with_all []);;
  t ← running_thread;
  modify (with_initial t);;
  init_thread t (Stdio.lit "main") PRI_DEFAULT;;
  th ← get_thread t;
  put_thread t (set_status th THREAD_RUNNING);;
  n ← allocate_tid;
  th ← get_thread t;
  put_thread t (mk_thread n th.(status) th.(name) th.(stack) th.(priority) th.(next_fd) th.(pagedir) th.(t_magic) th.(frames)).

(** The call of sema_down() is the last: its frame is what is left to do. *)
Definition thread_start (page : Z) : K unit :=
  sema_init (SUser idle_started) 0;;
  thread_create page (Stdio.lit "idle") PRI_MIN;;
  intr_enable;;
  sema_down (SUser idle_started).

(** idle() up to the head of its loop. *)
Definition idle : K unit :=
  t ← thread_current;
  modify (with_idle t);;
  sema_up (SUser idle_started);;
  push_frame FIdle.

Fixpoint foreach (func : Z → K unit) (l : list Z) : K unit :=
  match l with [] => mret tt | t :: l => func t;; foreach func l end.

(** [func] leaves the list of all threads as it is. *)
Definition thread_foreach (func : Z → K unit) : K unit :=
  level ← intr_get_level;
  kASSERT (negb level);;
  l ← gets all_list;
  foreach func l.

(** Not yet implemented in the code. *)
Definition thread_set_nice (nice : Z) : K unit := mret tt.
Definition thread_get_nice : K Z := mret 0.
Definition thread_get_load_avg : K Z := mret 0.
Definition thread_get_recent_cpu : K Z := mret 0.
End start.

(** ** Properties *)

(** The steps of the machine from thread_init() on, when no interrupt comes: main
    sleeps on the semaphore, the idle thread starts, wakes main up and sleeps. *)
Definition boot (tid_lock idle_started page : Z) : K unit :=
  thread_init tid_lock;;
  thread_start idle_started page;;
  resume;;                      (* main: sema_down() *)
  resume;;                      (* idle: kernel_thread() *)
  idle idle_started;;           (* idle: up to its loop *)
  resume;;                      (* idle: thread_block() *)
  resume.                       (* main: sema_down() again *)

(** A machine on which nothing has been initialised; [main] is the page that the
    stack pointer is in. *)
Definition boot_kst (main n : Z) : kst :=
  mk_kst ∅ main [] [] NULL NULL false false false 0 0 0 0 0 n ∅ ∅ ∅.

(** What can be seen of a thread. *)
Definition view (k : kst) (t : Z) : option (Z * thread_status * list frame) :=
  (λ th, (th.(tid), th.(status), th.(frames))) <$> k.(threads) !! t.

(** After the start main runs with interrupts on and nothing left to finish, the
    idle thread is known, has the next number and sleeps, the run queue is
    empty, and every thread is listed.  thread_init() with interrupts on is refused. *)
Example boot_ok :
  (boot 11 12 3221286912 (boot_kst 3221282816 1) ≫= λ '(_, k),
     Ok (k.(running), k.(intr_on), k.(ready_list), k.(all_list), k.(idle_thread), view k 3221282816, view k 3221286912)) =
    Ok (3221282816, true, [], [3221282816; 3221286912], 3221286912,
        Some (1, THREAD_RUNNING, []), Some (2, THREAD_BLOCKED, [FHalt])) ∧
  thread_init 11 (with_intr true (boot_kst 3221282816 1)) = Panic.
Proof. by vm_compute. Qed.

(** thread_foreach() visits the threads in the order of the list, and only with
    interrupts off. *)
Lemma thread_foreach_order k :
  thread_foreach (λ t, modify (λ k, with_ready (k.(ready_list) ++ [t]) k)) k =
    if k.(intr_on) then Panic else Ok (tt, with_ready (k.(ready_list) ++ k.(all_list)) k).
Proof.
  unfold thread_foreach, intr_get_level, kASSERT. rewrite run_gets. destruct (intr_on k) eqn:E; [done|].
  rewrite (run_lift _ _ _ tt) by done. rewrite run_gets. generalize (all_list k) as l. clear E. intros l. revert k.
  induction l as [|t l IH]; intros k; cbn [foreach]; [rewrite app_nil_r; by destruct k|].
  rewrite run_modify, IH. cbn [ready_list with_ready]. by rewrite <- app_assoc.
Qed.
